(* ===== verification/_CoqProject ===== *)
-Q . S2P
Prelude.v
Machine.v
Ring.v
Riscv.v
State.v
Spinlock.v
KString.v
Kalloc.v
Vm.v
Sched.v
Uvm.v
UvmLife.v
Copy.v
User.v
Handover.v
Uart.v
Printf.v
Console.v
Block.v
Bio.v
BufCache.v
Log.v
LogSpec.v
LogOps.v
LogCrash.v
Fs.v
FsTx.v
FsBlock.v
FsInode.v
FsFile.v
Pipe.v
FsWrite.v
FsRead.v
FileTable.v
Proc.v
ProcSpace.v
ProcSample.v
ProcLife.v
Exec.v
Sysfile.v
Virtio.v
VirtioSpec.v
Trap.v
Hart.v
Usys.v
Umalloc.v
UmallocUse.v
Mkfs.v
MkfsSpec.v
Ulib.v
Uprintf.v
Grep.v
Cmds.v
Find.v
Grind.v
Sh.v
ShParse.v
ShRound.v
ShLine.v
