(* ===== verification/Prelude.v ===== *)
(** * Verification of the xv6 kernel

    This library models the operating system of this repository, a teaching kernel for
    64-bit RISC-V with its user programs, and proves that its components do what they promise.  Every function is
    translated from the C source named in its file; names are those of the source.

    ** How the code is modelled

    Kernel code runs on a [kstate] ([State.v]): the registers of the running hart, physical
    memory, and one field per global variable of the kernel.  A function is a computation
    of the monad [K] ([M] in this file): it returns a value and a new state ([Ok]), stops
    ([Stop]: a panic with its message, spinning, an access outside an object, or a loop
    bound of the model that was too small), or gives up the CPU ([Yield]), in which case it
    is the state it leaves and what it does when it is switched back to.  C integers are
    [Z] with the wrap-around of their width written out ([u64], [s32], ... of [Machine.v]);
    memory is a map from addresses to bytes; page tables, the free list of the allocator
    and trapframes live in that memory.  [wp c Q s] is total correctness: [c] run in [s]
    returns, and [Q] holds of the result.

    Loops that are bounded by the data are recursion over it.  The others have fuel: the
    number of rounds given at each loop is enough by the reason stated there, and a run
    that exhausts it is [Stop OutOfFuel], which no [wp] statement allows.  Loops around
    [sleep] have no bound of their own; how often they go round is the parameter
    [Patience], and the theorems hold for each of its values.

    Code outside the sources is a parameter with its documented behaviour: [Layout]
    ([State.v]) is where the linker puts the kernel, [Hardware] ([Hart.v]) what control registers
    keep of a value written to them, [Kernel] ([Usys.v]) the system calls as user programs see
    them, [Stream], [Tree], [Session] and [Brk] the parts of it that the theorems about [grep], [find], the shell and [malloc] rely
    on, [prologue] ([Hart.v]) the stack frame the compiler gives [start], [Host] ([Mkfs.v]) the computer that runs [mkfs].  Each of the main theorems that has
    hypotheses has a witness, an instance of it at a concrete state.

    ** Files

    Machine and kernel state:
    - [Prelude.v]: the monad, [wp] and its rules, lists and integers.
    - [Machine.v], [Riscv.v]: machine integers, memory, bytes; [param.h], [riscv.h],
      [memlayout.h].  [Ring.v]: ring buffers with counters that wrap around.
    - [State.v]: the struct types of the headers and [kstate].
    - [Hart.v]: the assembly of [entry.S], [swtch.S], [trampoline.S] and [kernelvec.S] as
      instructions of a hart, and [start.c].

    Locks, memory, processes:
    - [Spinlock.v]: [spinlock.c], [cpuid], [mycpu], [myproc]; [Module MP] runs the
      statements of [acquire] and [release] on several harts.
    - [KString.v]: [string.c].
    - [Kalloc.v]: [kalloc.c]; the class [PageAllocator] is what clients rely on.
    - [Vm.v], [Uvm.v], [UvmLife.v], [Copy.v], [User.v]: [vm.c]; page tables, user address
      spaces, their life from [uvmalloc] over [uvmcopy] to [uvmfree], copies between the
      kernel and user memory, and the same for the process that runs.
    - [Sched.v], [Handover.v]: the scheduling half of [proc.c] and [sleeplock.c]; the contract
      between code that gives up the CPU and the scheduler, and the statements [xrg] about code that sleeps: what others may
      do meanwhile is a relation on the state and on a state of their own, such as what a device has seen or what readers of a pipe have taken.
    - [Proc.v], [ProcSpace.v], [ProcLife.v]: the rest of [proc.c]; what a process owns, and
      [fork] and [wait].  [ProcSample.v] has two processes to try them on.
    - [Exec.v]: [exec.c], [elf.h].
    - [Trap.v]: [trap.c], [sysproc.c], the dispatch of [syscall.c], [plic.c], [main.c].

    Devices:
    - [Uart.v], [Printf.v], [Console.v]: [uart.c], [printf.c], [console.c].
    - [Virtio.v], [VirtioSpec.v]: [virtio_disk.c], [virtio.h], and that the driver transfers
      blocks as the buffer cache assumes.

    Files:
    - [Block.v]: integers laid out in disk blocks.
    - [Bio.v], [BufCache.v]: [bio.c] and its specification.
    - [Log.v], [LogSpec.v], [LogOps.v], [LogCrash.v]: [log.c], the effect of each of its
      functions, of transactions, and what a power failure leaves.
    - [Fs.v]: [fs.c], [fs.h]; [FsTx.v], [FsBlock.v], [FsInode.v], [FsFile.v] specify it inside a
      transaction, from the block allocator to [readi] and [writei].
    - [Pipe.v], [FileTable.v]: [pipe.c], [file.c] and their specification; [FsWrite.v],
      [FsRead.v]: [filewrite] and [fileread] on files.
    - [Sysfile.v]: [sysfile.c] and the argument functions of [syscall.c].
    - [Mkfs.v], [MkfsSpec.v]: [mkfs.c], and that what it makes is a file system.

    User programs:
    - [Usys.v]: the monad [U] of user programs over the system calls.
    - [Ulib.v], [Uprintf.v], [Umalloc.v], [UmallocUse.v]: [ulib.c], [string.c], [printf.c] and
      [umalloc.c], and programs that use the allocator.
    - [Grep.v], [Find.v], [Grind.v], [Cmds.v]: [grep.c], [find.c], [grind.c] and the small commands.
    - [Sh.v], [ShParse.v], [ShRound.v], [ShLine.v]: [sh.c], its parser, that a command typed is
      the command parsed, and its line editor.

    ** What the theorems show

    - Locks and scheduling: mutual exclusion and the interrupt discipline for any number of
      harts; a pass of the scheduler runs every process that can run; [sleep] hands its lock over.
    - Context switches: [swtch], [uservec]/[userret] and [kernelvec] lose no register, and a
      hart that enters at [_entry] reaches [main] in supervisor mode.
    - Memory: no page is handed out twice; an address space grows and shrinks all or
      nothing without losing a page; copies to and from user memory touch exactly the memory
      the process owns.
    - Processes: [fork] makes a process that sees what its parent sees in pages of its own, or
      nothing; [wait] gives back every page of a child that has exited.
    - Storage: the buffer cache is invisible, and the log makes transactions atomic and
      durable whatever the moment of a power failure; what is written to a file is on the
      disk, and is read back; the image [mkfs] makes is a file system.
    - Devices and pipes: the disk driver puts the request it was called for where the device finds it, and returns when it has been performed; line editing
      is that of a list, and in raw mode keys are delivered; [printint] prints the number it is given; pipes keep bytes in order and leak nothing.
    - User programs: blocks of [malloc] stay apart and keep their bytes; the matcher decides
      the meaning of a pattern; [find] walks the whole of a tree; the shell's parser ends on every line and inverts
      printing, and its main loop goes through the lines typed.
    - Defects are part of these statements where the code has them: [log_write] panics within what [begin_op] has reserved, [mkfs] can leave a hole in the root directory, a number of more
      than 16 characters overruns the buffer of [printint], Delete overwrites unread input in raw mode, [find] matches the wrong way round, and [cd] drops a character.

    ** Bounds

    [while_fuel] and its relatives carry the bounds.  [rw_rounds n] is more than the blocks that [n]
    bytes can touch; the loops of the shell's parser are bounded by the length of the line, of
    [find] by the length of its path buffer, of [iappend] by the bytes to append, and the
    theorems about them show that the bounds are not met.  Programs that run for ever
    ([sh], [grind], loops that read to the end of a file) go [rounds] times, a parameter.

    ** What is not modelled

    [usertests.c], a list of test scenarios; the linker script and the build.  [initcode.S] is
    the array of bytes that [proc.c] has of it.  A panic ends a run; that it prints its message first is not part of
    the model.  Kernel code is not interrupted between two statements; the interleaving of
    harts is modelled for spin locks, and that of processes at the points where they give
    up the CPU.  The nesting depth [noff] and the reference counts of files and inodes are integers without a bound, where C has an [int]; of a saved context the kernel state has [ra] and [sp], the registers that C code sets, and
    [Hart.v] all of them; the transfer of a block is one step ([disk_rw]) for the code above the disk driver; the shell's command
    structures are values of a type, so that [malloc] is taken to succeed there. *)
From Stdlib Require Import ZArith Lia.
From stdpp Require Import base strings numbers gmap list.

(** ** Scopes, hint databases and small tactics *)

Declare Scope m_scope.
Delimit Scope m_scope with M.
Local Open Scope Z_scope.
#[export] Set Warnings "-clear-no-such-hyp".

Create HintDb xv6 discriminated.
Create HintDb wp discriminated.

Ltac inv_eq H := inversion H; clear H; simplify_eq.

(** Split every [if] of the goal on a boolean comparison of integers and
    replace the comparison by the proposition it decides. *)
Ltac zcase :=
  match goal with
  | |- context [if ?b then _ else _] => let E := fresh "E" in destruct b eqn:E
  end;
  rewrite ?andb_true_iff, ?andb_false_iff, ?orb_true_iff, ?orb_false_iff,
    ?negb_true_iff, ?negb_false_iff,
    ?Z.ltb_lt, ?Z.ltb_ge, ?Z.leb_le, ?Z.leb_gt, ?Z.eqb_eq, ?Z.eqb_neq in *.

(** ** A state monad with early termination and context switches

    [M E S A] is C code that reads and writes a state [S].  A run returns an [A],
    or stops for good with an [E] (a panic, an exit), or gives up the CPU: [Yield s k]
    is a thread that has switched away in state [s] and goes on with [k] in
    whatever state it is switched back to. *)

Inductive outcome (E S A : Type) : Type :=
| Ok (a : A) (s : S)
| Stop (e : E)
| Yield (s : S) (k : S -> outcome E S A).
Arguments Ok {E S A} a s.
Arguments Stop {E S A} e.
Arguments Yield {E S A} s k.

Definition M (E S A : Type) : Type := S -> outcome E S A.

Section monad.
Context {E S : Type}.

Definition ret {A} (a : A) : M E S A := fun s => Ok a s.

Fixpoint after {A B} (o : outcome E S A) (k : A -> M E S B) : outcome E S B :=
  match o with
  | Ok a s' => k a s'
  | Stop e => Stop e
  | Yield s' r => Yield s' (fun s'' => after (r s'') k)
  end.

Definition bind {A B} (m : M E S A) (k : A -> M E S B) : M E S B :=
  fun s => after (m s) k.

Definition stop {A} (e : E) : M E S A := fun _ => Stop e.

Definition gets {A} (f : S -> A) : M E S A := fun s => Ok (f s) s.

Definition modify (f : S -> S) : M E S unit := fun s => Ok tt (f s).

(** Switch to another thread; the thread goes on when it is switched back to. *)
Definition swtch : M E S unit := fun s => Yield s (fun s' => Ok tt s').

Definition when (b : bool) (m : M E S unit) : M E S unit :=
  if b then m else ret tt.
End monad.

Notation "x <- m ;; k" := (bind m (fun x => k))
  (at level 100, m at next level, right associativity) : m_scope.
Notation "'let!' p := m 'in' k" := (bind m (fun x => match x with p => k end))
  (at level 10, p pattern, k at level 200) : m_scope.
Notation "m ;; k" := (bind m (fun _ => k))
  (at level 100, right associativity) : m_scope.
Open Scope m_scope.

(** Loops. [for_each] is a loop whose body never leaves it; [for_ret] one whose
    body may [return] or [break] with a value; [while_fuel] a loop whose bound
    is not syntactic: the body says whether to go round again ([inl]) or to
    leave ([inr]), and [oof] is what the model reports when the fuel runs out. *)
Section loops.
Context {E S : Type}.

Fixpoint for_each {A} (l : list A) (body : A -> M E S unit) : M E S unit :=
  match l with
  | [] => ret tt
  | x :: l' => body x ;; for_each l' body
  end.

Fixpoint for_ret {A B} (l : list A) (body : A -> M E S (option B)) : M E S (option B) :=
  match l with
  | [] => ret None
  | x :: l' =>
      r <- body x ;;
      match r with Some b => ret (Some b) | None => for_ret l' body end
  end.

Fixpoint while_fuel {X B} (oof : E) (n : nat) (body : X -> M E S (X + B)) (x : X) : M E S B :=
  match n with
  | O => stop oof
  | Datatypes.S n' =>
      r <- body x ;;
      match r with inl x' => while_fuel oof n' body x' | inr b => ret b end
  end.
End loops.

(** ** Weakest preconditions

    [wp m Q s]: started in [s], [m] returns, with a result and a state that
    satisfy [Q].  It is a total-correctness assertion: a run that stops (panics,
    runs out of fuel) or switches away does not satisfy it. *)

Definition wp {E S A} (m : M E S A) (Q : A -> S -> Prop) (s : S) : Prop :=
  match m s with Ok a s' => Q a s' | _ => False end.

Section wp_rules.
Context {E S : Type}.
Implicit Types s : S.

Lemma wp_run {A} (m : M E S A) Q s :
  wp m Q s <-> exists a s', m s = Ok a s' /\ Q a s'.
Proof.
  unfold wp. destruct (m s) as [a s'|e|s' k]; split; try done; [eauto|..];
    intros (a' & s'' & Heq & HQ); by simplify_eq.
Qed.

Lemma wp_ok {A} (m : M E S A) (Q : A -> S -> Prop) s a s' :
  m s = Ok a s' -> Q a s' -> wp m Q s.
Proof. intros Hm HQ. unfold wp. by rewrite Hm. Qed.

Lemma wp_result {A} (m : M E S A) (Q : A -> S -> Prop) s a s' :
  m s = Ok a s' -> wp m Q s -> Q a s'.
Proof. intros Hm. unfold wp. by rewrite Hm. Qed.

Lemma wp_mono {A} (m : M E S A) (Q Q' : A -> S -> Prop) s :
  wp m Q s -> (forall a s', Q a s' -> Q' a s') -> wp m Q' s.
Proof. unfold wp. destruct (m s); auto. Qed.

Lemma wp_and {A} (m : M E S A) (Q Q' : A -> S -> Prop) s :
  wp m Q s -> wp m Q' s -> wp m (fun a s' => Q a s' /\ Q' a s') s.
Proof. unfold wp. destruct (m s); auto. Qed.

Lemma wp_ret {A} (a : A) (Q : A -> S -> Prop) s : Q a s -> wp (E:=E) (ret a) Q s.
Proof. done. Qed.

Lemma wp_gets {A} (f : S -> A) (Q : A -> S -> Prop) s : Q (f s) s -> wp (E:=E) (gets f) Q s.
Proof. done. Qed.

Lemma wp_modify (f : S -> S) (Q : unit -> S -> Prop) s : Q tt (f s) -> wp (E:=E) (modify f) Q s.
Proof. done. Qed.


Lemma wp_bind {A B} (m : M E S A) (k : A -> M E S B) Q s :
  wp m (fun a s' => wp (k a) Q s') s -> wp (bind m k) Q s.
Proof. unfold wp, bind. by destruct (m s). Qed.

Lemma wp_bind_inv {A B} (m : M E S A) (k : A -> M E S B) Q s :
  wp (bind m k) Q s -> wp m (fun a s' => wp (k a) Q s') s.
Proof. unfold wp, bind. by destruct (m s). Qed.

(** Run the first statement by its own specification. *)
Lemma wp_seq {A B} (m : M E S A) (k : A -> M E S B) (R : A -> S -> Prop) Q s :
  wp m R s -> (forall a s', R a s' -> wp (k a) Q s') -> wp (bind m k) Q s.
Proof. intros H Hk. apply wp_bind. eapply wp_mono; eauto. Qed.

Lemma bind_ok {A B} (m : M E S A) (k : A -> M E S B) s a s' :
  m s = Ok a s' -> bind m k s = k a s'.
Proof. unfold bind. by intros ->. Qed.

Lemma bind_stop {A B} (m : M E S A) (k : A -> M E S B) s e :
  m s = Stop e -> bind m k s = Stop e.
Proof. unfold bind. by intros ->. Qed.

(** Invariant rule for [for_each]: [I] holds of the elements already done. *)
Lemma wp_for_each {A} (I : list A -> S -> Prop) (l : list A) (body : A -> M E S unit) s :
  I [] s ->
  (forall pre x post s', l = pre ++ x :: post -> I pre s' ->
     wp (body x) (fun _ s'' => I (pre ++ [x]) s'') s') ->
  wp (for_each l body) (fun _ s' => I l s') s.
Proof.
  intros H0 Hstep.
  cut (forall post pre s', l = pre ++ post -> I pre s' ->
         wp (for_each post body) (fun _ s'' => I l s'') s').
  { intros Hgen. by apply (Hgen l []). }
  induction post as [|x post IH]; intros pre s' Hl HI; simpl.
  - rewrite app_nil_r in Hl. by subst.
  - apply wp_bind. eapply wp_mono; [by eapply Hstep|].
    intros u s'' HI'. apply IH with (pre := pre ++ [x]); [|done].
    by rewrite <- app_assoc.
Qed.

(** Invariant rule for [for_ret]: [I] holds of the elements passed over and [R]
    of the value with which the body leaves the loop. *)
Lemma wp_for_ret {A B} (I : list A -> S -> Prop) (R : option B -> S -> Prop)
    (l : list A) (body : A -> M E S (option B)) s :
  I [] s ->
  (forall pre x post s', l = pre ++ x :: post -> I pre s' ->
     wp (body x) (fun r s'' => match r with
                               | Some b => R (Some b) s''
                               | None => I (pre ++ [x]) s''
                               end) s') ->
  (forall s', I l s' -> R None s') ->
  wp (for_ret l body) R s.
Proof.
  intros H0 Hstep Hend.
  cut (forall post pre s', l = pre ++ post -> I pre s' -> wp (for_ret post body) R s').
  { intros Hgen. by apply (Hgen l []). }
  induction post as [|x post IH]; intros pre s' Hl HI; simpl.
  - rewrite app_nil_r in Hl. subst. by apply wp_ret, Hend.
  - apply wp_bind. eapply wp_mono; [by eapply Hstep|].
    intros [b|] s'' HI'; [by apply wp_ret|].
    apply IH with (pre := pre ++ [x]); [|done]. by rewrite <- app_assoc.
Qed.

(** [while_fuel] terminates when a measure of the loop variable and the state decreases
    on every round that does not leave, and the fuel exceeds the measure. *)
Lemma wp_loop {X B} (oof : E) (I : X -> S -> Prop) (mu : X -> S -> nat)
    (R : B -> S -> Prop) (body : X -> M E S (X + B)) n x s :
  I x s ->
  (mu x s < n)%nat ->
  (forall x' s', I x' s' ->
     wp (body x') (fun r s'' => match r with
                                | inl y => I y s'' /\ (mu y s'' < mu x' s')%nat
                                | inr b => R b s''
                                end) s') ->
  wp (while_fuel oof n body x) R s.
Proof.
  intros HI Hmu Hstep. revert x s HI Hmu.
  induction n as [|n IH]; intros x s HI Hmu; [lia|]. simpl.
  apply wp_bind. eapply wp_mono; [by apply Hstep|].
  intros [y|b] s'; simpl.
  - intros [HI' Hlt]. apply IH; [done|lia].
  - intros HR. by apply wp_ret.
Qed.

Lemma wp_while {X B} (oof : E) (I : X -> S -> Prop) (mu : X -> nat)
    (R : B -> S -> Prop) (body : X -> M E S (X + B)) n x s :
  I x s ->
  (mu x < n)%nat ->
  (forall x' s', I x' s' ->
     wp (body x') (fun r s'' => match r with
                                | inl y => I y s'' /\ (mu y < mu x')%nat
                                | inr b => R b s''
                                end) s') ->
  wp (while_fuel oof n body x) R s.
Proof. apply (wp_loop oof I (fun x _ => mu x)). Qed.

(** More fuel never changes a result. *)
Lemma while_fuel_mono {X B} (oof : E) (body : X -> M E S (X + B)) n n' x s b s' :
  while_fuel oof n body x s = Ok b s' -> (n <= n')%nat ->
  while_fuel oof n' body x s = Ok b s'.
Proof.
  revert n' x s. induction n as [|n IH]; intros n' x s Hrun Hle; [done|].
  destruct n' as [|n']; [lia|]. simpl in *. unfold bind in *.
  destruct (body x s) as [[y|b'] s''|e|]; [|done..].
  apply IH; [done|lia].
Qed.
End wp_rules.

#[export] Hint Resolve wp_ret wp_gets wp_modify : wp.

(** ** Outcomes that cannot be told apart

    Two outcomes are the same when they return or stop alike, or switch away in the same
    state and go on alike from whatever state they are switched back to. *)
Inductive same_outcome {E S A} : outcome E S A -> outcome E S A -> Prop :=
| same_ok a s : same_outcome (Ok a s) (Ok a s)
| same_stop e : same_outcome (Stop e) (Stop e)
| same_yield s k k' : (forall s', same_outcome (k s') (k' s')) -> same_outcome (Yield s k) (Yield s k').

#[export] Instance outcome_equiv {E S A} : Equiv (outcome E S A) := same_outcome.

#[export] Instance outcome_equivalence {E S A} : Equivalence (equiv (A := outcome E S A)).
Proof.
  split.
  - intros o. induction o; by constructor.
  - intros o o' Ho. induction Ho; by constructor.
  - intros o1 o2 o3 H12. revert o3. induction H12 as [| |s k k' _ IH]; intros o3 H23; [done..|].
    inversion H23 as [| |s' k1 k2 Hk]; subst. apply same_yield. intros s'. apply IH, Hk.
Qed.

Section same.
Context {E S : Type}.

Lemma wp_same {A} (m m' : M E S A) Q s : m s ≡ m' s -> wp m Q s -> wp m' Q s.
Proof. unfold wp. by destruct 1. Qed.

Lemma after_same {A B} (o o' : outcome E S A) (k k' : A -> M E S B) :
  o ≡ o' -> (forall a s, k a s ≡ k' a s) -> after o k ≡ after o' k'.
Proof. intros Ho Hk. induction Ho as [a s|e|s r r' _ IH]; simpl; [apply Hk|done|]. constructor. intros s'. apply IH. Qed.

Lemma bind_same {A B} (m : M E S A) (k k' : A -> M E S B) s : (forall a s', k a s' ≡ k' a s') -> bind m k s ≡ bind m k' s.
Proof. intros Hk. by apply after_same. Qed.

Lemma bind_same_l {A B} (m m' : M E S A) (k : A -> M E S B) s : m s ≡ m' s -> bind m k s ≡ bind m' k s.
Proof. intros Hm. by apply after_same. Qed.

Lemma while_fuel_same {X B} (oof : E) (body body' : X -> M E S (X + B)) n x s :
  (forall y s', body y s' ≡ body' y s') -> while_fuel oof n body x s ≡ while_fuel oof n body' x s.
Proof.
  intros Hb. revert x s. induction n as [|n IH]; intros x s; [done|]. apply after_same; [apply Hb|].
  intros [y|b] s'; [apply IH|done].
Qed.
End same.

(** One step of symbolic execution: unfold binds, returns, reads and writes. *)
Ltac wp_step :=
  match goal with
  | |- wp (bind _ _) _ _ => apply wp_bind
  | |- wp (ret _) _ _ => apply wp_ret
  | |- wp (gets _) _ _ => apply wp_gets
  | |- wp (modify _) _ _ => apply wp_modify
  | |- wp (when true _) _ _ => unfold when
  | |- wp (when false _) _ _ => unfold when
  end.
Ltac wp_steps := repeat (wp_step; cbv beta).

(** Run the first call of the goal by the specification [H]. *)
Tactic Notation "wp_use" uconstr(H) := (eapply wp_seq; [eapply H | cbv beta]) || (eapply wp_mono; [eapply H | cbv beta]).

(** ** Integers of [n] steps: the index ranges of C's [for] loops *)

Definition zrange (lo : Z) (n : nat) : list Z := (fun i : nat => lo + Z.of_nat i) <$> seq 0 n.

Lemma zrange_S lo n : zrange lo (S n) = lo :: zrange (lo + 1) n.
Proof.
  unfold zrange. simpl. f_equal; [lia|].
  rewrite <- fmap_S_seq, <- list_fmap_compose. apply list_fmap_ext.
  intros i x Hx. simpl. lia.
Qed.

Lemma zrange_length lo n : length (zrange lo n) = n.
Proof. unfold zrange. by rewrite length_fmap, length_seq. Qed.

Lemma elem_of_zrange lo n x : x ∈ zrange lo n <-> lo <= x < lo + Z.of_nat n.
Proof.
  unfold zrange. rewrite list_elem_of_fmap. split.
  - intros (i & -> & Hi%elem_of_seq). lia.
  - intros H. exists (Z.to_nat (x - lo)). rewrite elem_of_seq. lia.
Qed.

Lemma zrange_app lo n m : zrange lo (n + m) = zrange lo n ++ zrange (lo + Z.of_nat n) m.
Proof.
  unfold zrange. rewrite seq_app, fmap_app. f_equal.
  simpl. rewrite <- (Nat.add_0_r n) at 1. rewrite <- fmap_add_seq, <- list_fmap_compose.
  apply list_fmap_ext. intros i x _. simpl. lia.
Qed.

Lemma zrange_lookup lo n i : (i < n)%nat -> zrange lo n !! i = Some (lo + Z.of_nat i).
Proof. intros Hi. unfold zrange. rewrite list_lookup_fmap, lookup_seq_lt by done. done. Qed.

Lemma zrange_split lo n pre x post :
  zrange lo n = pre ++ x :: post -> x = lo + Z.of_nat (length pre) /\ (length pre < n)%nat.
Proof.
  intros H. assert (Hl : zrange lo n !! length pre = Some x)
    by (rewrite H; by rewrite list_lookup_middle).
  unfold zrange in Hl. rewrite list_lookup_fmap in Hl.
  destruct (seq 0 n !! length pre) as [k|] eqn:Hk; simplify_eq/=.
  apply lookup_seq in Hk. lia.
Qed.

(** Invariant rule for a loop that counts up from [lo]. *)
Lemma wp_for_range {E S} (I : nat -> S -> Prop) lo n (body : Z -> M E S unit) s :
  I 0%nat s ->
  (forall i s', (i < n)%nat -> I i s' ->
     wp (body (lo + Z.of_nat i)) (fun _ s'' => I (Datatypes.S i) s'') s') ->
  wp (for_each (zrange lo n) body) (fun _ s' => I n s') s.
Proof.
  intros H0 Hstep.
  eapply wp_mono; [apply (wp_for_each (fun pre s' => I (length pre) s') (zrange lo n) body s H0)|
    intros [] s'; by rewrite zrange_length]. intros pre x post s' Heq HI.
  apply zrange_split in Heq as [-> Hlt]. rewrite length_app, Nat.add_1_r. by apply Hstep.
Qed.

Lemma wp_for_seq {E S} (I : nat -> S -> Prop) n (body : nat -> M E S unit) s :
  I 0%nat s ->
  (forall i s', (i < n)%nat -> I i s' -> wp (body i) (fun _ s'' => I (Datatypes.S i) s'') s') ->
  wp (for_each (seq 0 n) body) (fun _ s' => I n s') s.
Proof.
  intros H0 Hstep.
  eapply wp_mono; [apply (wp_for_each (fun pre s' => I (length pre) s') (seq 0 n) body s H0)|
    intros [] s'; by rewrite length_seq].
  intros pre x post s' Heq HI.
  assert (Hx : seq 0 n !! length pre = Some x) by (rewrite Heq; by rewrite list_lookup_middle).
  apply lookup_seq in Hx as [-> Hlt]. rewrite length_app, Nat.add_1_r. by apply Hstep.
Qed.

(** A loop over array indices whose every round is known. *)
Lemma for_each_seq_run {E S} (st : nat -> S) (body : nat -> M E S unit) a n :
  (forall i, (a <= i < a + n)%nat -> body i (st i) = Ok tt (st (Datatypes.S i))) ->
  for_each (seq a n) body (st a) = Ok tt (st (a + n)%nat).
Proof.
  revert a. induction n as [|n IH]; intros a Hb; simpl.
  - by rewrite Nat.add_0_r.
  - unfold bind. rewrite Hb by lia. simpl. rewrite IH; [|intros; apply Hb; lia].
    by replace (Datatypes.S a + n)%nat with (a + Datatypes.S n)%nat by lia.
Qed.

(** ** Options as nullable pointers *)

Definition is_some {A} (o : option A) : bool := match o with Some _ => true | None => false end.

Lemma is_some_true {A} (o : option A) : is_some o = true <-> is_Some o.
Proof. destruct o; simpl; split; [eauto|done|done|by intros []]. Qed.

(** ** Strings as the byte arrays C sees *)

Definition byte_of_ascii (a : Ascii.ascii) : Z := Z.of_N (Ascii.N_of_ascii a).

Fixpoint s2b (s : string) : list Z :=
  match s with
  | EmptyString => []
  | String a s' => byte_of_ascii a :: s2b s'
  end.

Lemma byte_of_ascii_range a : 0 <= byte_of_ascii a < 256.
Proof. unfold byte_of_ascii. pose proof (Ascii.N_ascii_bounded a). lia. Qed.
