(* ===== verification/Machine.v ===== *)
(** Machine integers, little-endian bytes and byte-addressed memory.

    The kernel is C for a 64-bit little-endian machine.  A [w]-bit integer is a
    [Z] kept in range by [wrap w] (unsigned) or [swrap w] (signed); physical
    memory is a finite map from addresses to bytes. *)
From S2P Require Import Prelude.
From Stdlib Require Import ZArith Lia.
From stdpp Require Import base strings numbers gmap list.
Local Open Scope Z_scope.

(** ** Conversions between integer types *)

Definition wrap (w x : Z) : Z := x mod 2 ^ w.

Definition swrap (w x : Z) : Z :=
  let y := wrap w x in if y <? 2 ^ (w - 1) then y else y - 2 ^ w.

Abbreviation u8 := (wrap 8).
Abbreviation u16 := (wrap 16).
Abbreviation u32 := (wrap 32).
Abbreviation u64 := (wrap 64).
Abbreviation s16 := (swrap 16).
Abbreviation s32 := (swrap 32).

Lemma wrap_range w x : 0 <= w -> 0 <= wrap w x < 2 ^ w.
Proof. intros Hw. apply Z.mod_pos_bound. by apply Z.pow_pos_nonneg. Qed.

Lemma wrap_small w x : 0 <= x < 2 ^ w -> wrap w x = x.
Proof. apply Z.mod_small. Qed.

Lemma wrap_wrap w x : wrap w (wrap w x) = wrap w x.
Proof. apply Zmod_mod. Qed.

Lemma wrap_add_l w x y : wrap w (wrap w x + y) = wrap w (x + y).
Proof. apply Zplus_mod_idemp_l. Qed.

Lemma wrap_add_r w x y : wrap w (x + wrap w y) = wrap w (x + y).
Proof. apply Zplus_mod_idemp_r. Qed.

Lemma wrap_sub_l w x y : wrap w (wrap w x - y) = wrap w (x - y).
Proof. apply Zminus_mod_idemp_l. Qed.

Lemma wrap_sub_r w x y : wrap w (x - wrap w y) = wrap w (x - y).
Proof. apply Zminus_mod_idemp_r. Qed.

Lemma swrap_small w x : 0 < w -> - 2 ^ (w - 1) <= x < 2 ^ (w - 1) -> swrap w x = x.
Proof.
  intros Hw Hx. unfold swrap, wrap.
  assert (H2 : 2 ^ w = 2 * 2 ^ (w - 1)).
  { rewrite <- Z.pow_succ_r by lia. f_equal. lia. }
  destruct (decide (0 <= x)).
  - rewrite Z.mod_small by lia. destruct (Z.ltb_spec x (2 ^ (w - 1))); lia.
  - replace (x mod 2 ^ w) with (x + 2 ^ w).
    + destruct (Z.ltb_spec (x + 2 ^ w) (2 ^ (w - 1))); lia.
    + apply Z.mod_unique with (q := -1); [left; lia|lia].
Qed.

Lemma swrap_range w x : 0 < w -> - 2 ^ (w - 1) <= swrap w x < 2 ^ (w - 1).
Proof.
  intros Hw. unfold swrap. pose proof (wrap_range w x ltac:(lia)) as H.
  assert (H2 : 2 ^ w = 2 * 2 ^ (w - 1)).
  { rewrite <- Z.pow_succ_r by lia. f_equal. lia. }
  destruct (Z.ltb_spec (wrap w x) (2 ^ (w - 1))); lia.
Qed.

Create Rewrite HintDb wrap.
#[export] Hint Rewrite wrap_wrap wrap_add_l wrap_add_r wrap_sub_l wrap_sub_r : wrap.

(** ** Little-endian encoding *)

Fixpoint le_bytes (n : nat) (v : Z) : list Z :=
  match n with
  | O => []
  | S n' => v mod 256 :: le_bytes n' (v / 256)
  end.

Fixpoint le_val (bs : list Z) : Z :=
  match bs with
  | [] => 0
  | b :: bs' => b + 256 * le_val bs'
  end.

Definition is_byte (b : Z) : Prop := 0 <= b < 256.

Lemma length_le_bytes n v : length (le_bytes n v) = n.
Proof. revert v. induction n as [|n IH]; intros v; simpl; [done|]. by rewrite IH. Qed.

Lemma le_bytes_is_byte n v : Forall is_byte (le_bytes n v).
Proof.
  revert v. induction n as [|n IH]; intros v; constructor; [|apply IH].
  apply Z.mod_pos_bound. lia.
Qed.

Lemma le_val_range bs : Forall is_byte bs -> 0 <= le_val bs < 2 ^ (8 * Z.of_nat (length bs)).
Proof.
  induction 1 as [|b bs Hb _ IH]; simpl length; [simpl; lia|].
  replace (8 * Z.of_nat (S (length bs))) with (8 + 8 * Z.of_nat (length bs)) by lia.
  rewrite Z.pow_add_r by lia. simpl le_val. unfold is_byte in Hb. lia.
Qed.

Lemma le_val_le_bytes n v : le_val (le_bytes n v) = v mod 2 ^ (8 * Z.of_nat n).
Proof.
  revert v. induction n as [|n IH]; intros v; [by rewrite Z.mod_1_r|].
  simpl le_bytes. simpl le_val. rewrite IH.
  replace (8 * Z.of_nat (S n)) with (8 + 8 * Z.of_nat n) by lia.
  rewrite Z.pow_add_r by lia. change (2 ^ 8) with 256.
  rewrite Z.rem_mul_r; lia.
Qed.

Lemma le_bytes_le_val bs : Forall is_byte bs -> le_bytes (length bs) (le_val bs) = bs.
Proof.
  induction 1 as [|b bs Hb _ IH]; [done|]. simpl. unfold is_byte in Hb.
  assert (Hm : (b + 256 * le_val bs) mod 256 = b).
  { rewrite Z.mul_comm, Z.mod_add by lia. apply Z.mod_small. lia. }
  assert (Hd : (b + 256 * le_val bs) / 256 = le_val bs).
  { rewrite Z.mul_comm, Z.div_add by lia. rewrite Z.div_small; lia. }
  by rewrite Hm, Hd, IH.
Qed.

Lemma le_bytes_mod n v : le_bytes n (v mod 2 ^ (8 * Z.of_nat n)) = le_bytes n v.
Proof.
  rewrite <- (le_val_le_bytes n v).
  pose proof (le_bytes_le_val (le_bytes n v) (le_bytes_is_byte n v)) as H.
  by rewrite length_le_bytes in H.
Qed.

Lemma le_val_zeros n : le_val (replicate n 0) = 0.
Proof. induction n as [|n IH]; simpl; [done|]. by rewrite IH. Qed.

(** ** Byte-addressed memory *)

Abbreviation mem := (gmap Z Z).

Definition ld8 (m : mem) (a : Z) : Z := default 0 (m !! a).

Fixpoint ld_bytes (m : mem) (a : Z) (n : nat) : list Z :=
  match n with
  | O => []
  | S n' => ld8 m a :: ld_bytes m (a + 1) n'
  end.

Fixpoint st_bytes (m : mem) (a : Z) (bs : list Z) : mem :=
  match bs with
  | [] => m
  | b :: bs' => st_bytes (<[a := b]> m) (a + 1) bs'
  end.

Definition ld64 (m : mem) (a : Z) : Z := le_val (ld_bytes m a 8).
Definition st64 (m : mem) (a v : Z) : mem := st_bytes m a (le_bytes 8 v).
Definition ld32 (m : mem) (a : Z) : Z := le_val (ld_bytes m a 4).
Definition st32 (m : mem) (a v : Z) : mem := st_bytes m a (le_bytes 4 v).

Lemma ld8_insert m a b x : ld8 (<[a := b]> m) x = if decide (a = x) then b else ld8 m x.
Proof. unfold ld8. rewrite lookup_insert. by case_decide. Qed.

Lemma length_ld_bytes m a n : length (ld_bytes m a n) = n.
Proof. revert a. induction n as [|n IH]; intros a; simpl; [done|]. by rewrite IH. Qed.

Lemma ld_bytes_lookup m a n i :
  (i < n)%nat -> ld_bytes m a n !! i = Some (ld8 m (a + Z.of_nat i)).
Proof.
  revert a i. induction n as [|n IH]; intros a [|i] Hi; simpl; try lia.
  - by rewrite Z.add_0_r.
  - rewrite IH by lia. f_equal. f_equal. lia.
Qed.

Lemma ld_bytes_ext m m' a n :
  (forall x, a <= x < a + Z.of_nat n -> ld8 m x = ld8 m' x) -> ld_bytes m a n = ld_bytes m' a n.
Proof.
  revert a. induction n as [|n IH]; intros a H; simpl; [done|].
  rewrite (H a) by lia. f_equal. apply IH. intros x Hx. apply H. lia.
Qed.

Lemma ld_bytes_app m a n k : ld_bytes m a (n + k) = ld_bytes m a n ++ ld_bytes m (a + Z.of_nat n) k.
Proof.
  revert a. induction n as [|n IH]; intros a; simpl.
  - by rewrite Z.add_0_r.
  - rewrite IH. do 3 f_equal. lia.
Qed.

Lemma ld_bytes_snoc m a n : ld_bytes m a (S n) = ld_bytes m a n ++ [ld8 m (a + Z.of_nat n)].
Proof. replace (S n) with (n + 1)%nat by lia. by rewrite ld_bytes_app. Qed.

Lemma st_bytes_outside m a bs x :
  x < a \/ a + Z.of_nat (length bs) <= x -> st_bytes m a bs !! x = m !! x.
Proof.
  revert m a. induction bs as [|b bs IH]; intros m a Hx; simpl in *; [done|].
  rewrite IH by lia. apply lookup_insert_ne. lia.
Qed.

Lemma st_bytes_inside m a bs i b :
  bs !! i = Some b -> st_bytes m a bs !! (a + Z.of_nat i) = Some b.
Proof.
  revert m a i. induction bs as [|b' bs IH]; intros m a i Hi; [done|].
  destruct i as [|i]; simplify_eq/=.
  - rewrite st_bytes_outside by lia. rewrite Z.add_0_r. apply lookup_insert_eq.
  - replace (a + Z.of_nat (S i)) with (a + 1 + Z.of_nat i) by lia. by apply IH.
Qed.

Lemma ld8_st_outside m a bs x :
  x < a \/ a + Z.of_nat (length bs) <= x -> ld8 (st_bytes m a bs) x = ld8 m x.
Proof. intros H. unfold ld8. by rewrite st_bytes_outside. Qed.

Lemma ld8_st_inside m a bs i b :
  bs !! i = Some b -> ld8 (st_bytes m a bs) (a + Z.of_nat i) = b.
Proof. intros H. unfold ld8. by erewrite st_bytes_inside. Qed.

Lemma ld_bytes_st_same m a bs : ld_bytes (st_bytes m a bs) a (length bs) = bs.
Proof.
  apply list_eq. intros i. destruct (decide (i < length bs)%nat) as [Hi|Hi].
  - rewrite ld_bytes_lookup by done.
    destruct (lookup_lt_is_Some_2 bs i Hi) as [b Hb]. rewrite Hb. f_equal.
    by apply ld8_st_inside.
  - rewrite !lookup_ge_None_2; rewrite ?length_ld_bytes; [done|lia|lia].
Qed.

Lemma ld_bytes_st_disjoint m a bs b n :
  b + Z.of_nat n <= a \/ a + Z.of_nat (length bs) <= b ->
  ld_bytes (st_bytes m a bs) b n = ld_bytes m b n.
Proof. intros H. apply ld_bytes_ext. intros x Hx. apply ld8_st_outside. lia. Qed.

Lemma ld64_st64_same m a v : ld64 (st64 m a v) a = u64 v.
Proof.
  unfold ld64, st64. pose proof (ld_bytes_st_same m a (le_bytes 8 v)) as H.
  rewrite length_le_bytes in H. rewrite H. apply le_val_le_bytes.
Qed.

Lemma ld64_st64_disjoint m a v b : b + 8 <= a \/ a + 8 <= b -> ld64 (st64 m a v) b = ld64 m b.
Proof.
  intros H. unfold ld64, st64. rewrite ld_bytes_st_disjoint; [done|].
  rewrite length_le_bytes. lia.
Qed.

Lemma ld64_st_disjoint m a bs b :
  b + 8 <= a \/ a + Z.of_nat (length bs) <= b -> ld64 (st_bytes m a bs) b = ld64 m b.
Proof. intros H. unfold ld64. rewrite ld_bytes_st_disjoint; [done|lia]. Qed.

Lemma ld8_st64_disjoint m a v x : x < a \/ a + 8 <= x -> ld8 (st64 m a v) x = ld8 m x.
Proof. intros H. unfold st64. apply ld8_st_outside. rewrite length_le_bytes. lia. Qed.

Lemma ld64_ext m m' a :
  (forall x, a <= x < a + 8 -> ld8 m x = ld8 m' x) -> ld64 m a = ld64 m' a.
Proof. intros H. unfold ld64. f_equal. apply ld_bytes_ext. intros x Hx. apply H. lia. Qed.

(** Memories all of whose cells hold bytes. *)
Definition mem_bytes (m : mem) : Prop := forall a, is_byte (ld8 m a).

Lemma mem_bytes_insert m a b : mem_bytes m -> is_byte b -> mem_bytes (<[a := b]> m).
Proof. intros Hm Hb x. rewrite ld8_insert. by case_decide. Qed.

Lemma mem_bytes_st m a bs : mem_bytes m -> Forall is_byte bs -> mem_bytes (st_bytes m a bs).
Proof.
  intros Hm Hbs. revert m a Hm. induction Hbs as [|b bs Hb _ IH]; intros m a Hm; [done|].
  simpl. apply IH. by apply mem_bytes_insert.
Qed.

Lemma mem_bytes_st64 m a v : mem_bytes m -> mem_bytes (st64 m a v).
Proof. intros. apply mem_bytes_st; [done|]. apply le_bytes_is_byte. Qed.

Lemma ld_bytes_is_byte m a n : mem_bytes m -> Forall is_byte (ld_bytes m a n).
Proof. intros Hm. revert a. induction n as [|n IH]; intros a; constructor; auto. Qed.

Lemma ld64_range m a : mem_bytes m -> 0 <= ld64 m a < 2 ^ 64.
Proof.
  intros Hm. unfold ld64. pose proof (le_val_range _ (ld_bytes_is_byte m a 8 Hm)) as H.
  by rewrite length_ld_bytes in H.
Qed.

#[export] Hint Resolve mem_bytes_st mem_bytes_st64 mem_bytes_insert le_bytes_is_byte
  ld_bytes_is_byte : xv6.
