(* ===== verification/Ring.v ===== *)
(** Ring buffers with free-running counters, as the UART driver, the console and pipes have
    them: an array of [n] bytes, and a read and a write counter of a machine width that
    are used modulo [n] as indices and that are never reset, so that they wrap around. *)
From S2P Require Import Prelude Machine.
From Stdlib Require Import ZArith Lia.
From stdpp Require Import base numbers list.
Local Open Scope Z_scope.

Section ring.
(** [n] divides the range [2 ^ k] of the counters. *)
Variables (n k : Z).

Local Abbreviation W := (2 ^ k).
Implicit Types (buf : list Z) (r w : Z).

(** The number of bytes in the ring, and the bytes, oldest first. *)
Definition rcount r w : Z := (w - r) mod W.
Definition rqueue buf r w : list Z :=
  (fun i => buf !!! Z.to_nat ((r + i) mod n)) <$> zrange 0 (Z.to_nat (rcount r w)).

Record rok buf r w : Prop := {
  rok_len : length buf = Z.to_nat n;
  rok_r : 0 <= r < W;
  rok_w : 0 <= w < W;
  rok_room : rcount r w <= n
}.

Hypothesis Hn : 0 < n < W.
Hypothesis Hdiv : (n | W).

Lemma ring_mod i : (i mod W) mod n = i mod n.
Proof. apply Z.mod_mod_divide. done. Qed.

Lemma rcount_bound r w : 0 <= rcount r w < W.
Proof using Hn. apply Z.mod_pos_bound. lia. Qed.

Lemma length_rqueue buf r w : length (rqueue buf r w) = Z.to_nat (rcount r w).
Proof. unfold rqueue. by rewrite length_fmap, zrange_length. Qed.

Lemma rqueue_lookup buf r w i :
  (i < Z.to_nat (rcount r w))%nat -> rqueue buf r w !! i = Some (buf !!! Z.to_nat ((r + Z.of_nat i) mod n)).
Proof. intros Hi. unfold rqueue. rewrite list_lookup_fmap, zrange_lookup by done. simpl. do 4 f_equal. Qed.

Lemma rcount_0 r w : 0 <= r < W -> 0 <= w < W -> rcount r w = 0 <-> r = w.
Proof using Hn.
  clear Hdiv. intros Hr Hw. unfold rcount. split; [|intros ->; by rewrite Z.sub_diag].
  destruct (decide (w < r)).
  - rewrite <- (Z.mod_add _ 1), Z.mod_small by lia. lia.
  - rewrite Z.mod_small by lia. lia.
Qed.

Lemma rqueue_nil buf r w : rok buf r w -> rqueue buf r w = [] <-> r = w.
Proof using Hn.
  clear Hdiv. intros [_ Hr Hw _]. rewrite <- rcount_0 by done. pose proof (rcount_bound r w). split; intros E.
  - apply (f_equal length) in E. rewrite length_rqueue in E. simpl in E. lia.
  - apply nil_length_inv. rewrite length_rqueue, E. done.
Qed.

(** The ring is full when the write counter is [n] ahead. *)
Lemma rfull r w : 0 <= w < W -> rcount r w = n <-> w = (r + n) mod W.
Proof using Hn.
  clear Hdiv. intros Hw. unfold rcount. split.
  - intros <-. rewrite Zplus_mod_idemp_r, Z.mod_small; lia.
  - intros ->. rewrite Zminus_mod_idemp_l, Z.mod_small; lia.
Qed.

Lemma rcount_push r w : rcount r w < W - 1 -> rcount r ((w + 1) mod W) = rcount r w + 1.
Proof using Hn.
  clear Hdiv. intros H. pose proof (rcount_bound r w). unfold rcount in *. rewrite Zminus_mod_idemp_l.
  replace (w + 1 - r) with (w - r + 1) by lia. rewrite <- Zplus_mod_idemp_l, Z.mod_small; lia.
Qed.

Lemma rcount_unpush r w : 0 < rcount r w -> rcount r ((w - 1) mod W) = rcount r w - 1.
Proof using Hn.
  clear Hdiv. intros H. pose proof (rcount_bound r w). unfold rcount in *. rewrite Zminus_mod_idemp_l.
  replace (w - 1 - r) with (w - r - 1) by lia. rewrite <- Zminus_mod_idemp_l, Z.mod_small; lia.
Qed.

Lemma rcount_pop r w : 0 < rcount r w -> rcount ((r + 1) mod W) w = rcount r w - 1.
Proof using Hn.
  clear Hdiv. intros H. pose proof (rcount_bound r w). unfold rcount in *. rewrite Zminus_mod_idemp_r.
  replace (w - (r + 1)) with (w - r - 1) by lia. rewrite <- Zminus_mod_idemp_l, Z.mod_small; lia.
Qed.

(** Two positions less than [n] apart are different slots. *)
Lemma slot_ne r i j : 0 <= i < n -> 0 <= j < n -> i <> j -> Z.to_nat ((r + i) mod n) <> Z.to_nat ((r + j) mod n).
Proof using Hn.
  clear Hdiv. intros Hi Hj Hne Heq. pose proof (Z.mod_pos_bound (r + i) n ltac:(lia)). pose proof (Z.mod_pos_bound (r + j) n ltac:(lia)).
  assert (E : (r + i) mod n = (r + j) mod n) by (apply Z2Nat.inj; [apply H|apply H0|done]). apply Hne.
  assert (E2 : (i - j) mod n = 0).
  { replace (i - j) with (r + i - (r + j)) by lia. rewrite Zminus_mod, E, Z.sub_diag. by apply Z.mod_0_l; lia. }
  apply Z.mod_divide in E2 as [q Hq]; [|lia]. destruct (Z.lt_trichotomy q 0) as [Hq0|[->|Hq0]]; [|lia|]; exfalso.
  - assert (q * n <= -1 * n) by (apply Z.mul_le_mono_nonneg_r; lia). lia.
  - assert (1 * n <= q * n) by (apply Z.mul_le_mono_nonneg_r; lia). lia.
Qed.

(** The slot the write counter designates. *)
Lemma write_slot r w : Z.to_nat (w mod n) = Z.to_nat ((r + rcount r w) mod n).
Proof.
  unfold rcount. f_equal. rewrite <- Zplus_mod_idemp_r, ring_mod, Zplus_mod_idemp_r. f_equal. lia.
Qed.

Lemma rqueue_push buf r w c :
  rok buf r w -> rcount r w < n ->
  rok (<[Z.to_nat (w mod n) := c]> buf) r ((w + 1) mod W) /\
  rqueue (<[Z.to_nat (w mod n) := c]> buf) r ((w + 1) mod W) = rqueue buf r w ++ [c].
Proof.
  intros [Hb Hr Hw Hroom] Hlt. pose proof (rcount_bound r w) as Hc.
  assert (Hcnt : rcount r ((w + 1) mod W) = rcount r w + 1) by (apply rcount_push; lia). split.
  - split; [by rewrite length_insert|done|apply Z.mod_pos_bound; lia|rewrite Hcnt; lia].
  - apply list_eq. intros i. pose proof (Z.mod_pos_bound w n ltac:(lia)).
    destruct (decide (i < Z.to_nat (rcount r w))%nat) as [Hi|Hi].
    + rewrite lookup_app_l by (by rewrite length_rqueue). rewrite !rqueue_lookup by lia. f_equal.
      rewrite (write_slot r w). apply list_lookup_total_insert_ne. apply slot_ne; lia.
    + rewrite lookup_app_r by (rewrite length_rqueue; lia). rewrite length_rqueue.
      destruct (decide (i = Z.to_nat (rcount r w))) as [->|].
      * rewrite Nat.sub_diag. simpl. rewrite rqueue_lookup by lia. f_equal. rewrite Z2Nat.id by lia.
        rewrite <- write_slot. apply list_lookup_total_insert_eq. lia.
      * rewrite lookup_ge_None_2 by (rewrite length_rqueue, Hcnt; lia).
        by rewrite lookup_ge_None_2 by (simpl; lia).
Qed.

Lemma rqueue_pop buf r w :
  rok buf r w -> r <> w ->
  rok buf ((r + 1) mod W) w /\
  rqueue buf r w = buf !!! Z.to_nat (r mod n) :: rqueue buf ((r + 1) mod W) w.
Proof.
  intros [Hb Hr Hw Hroom] Hne. pose proof (rcount_bound r w) as Hc.
  assert (Hpos : 0 < rcount r w) by (destruct (decide (rcount r w = 0)) as [E|]; [exfalso; apply Hne; by apply rcount_0|lia]).
  assert (Hcnt : rcount ((r + 1) mod W) w = rcount r w - 1) by (by apply rcount_pop). split.
  - split; [done|apply Z.mod_pos_bound; lia|done|lia].
  - apply list_eq. intros [|i]; simpl.
    + rewrite rqueue_lookup by lia. by rewrite Z.add_0_r.
    + destruct (decide (S i < Z.to_nat (rcount r w))%nat) as [Hi|Hi].
      * rewrite !rqueue_lookup by lia. do 3 f_equal. rewrite <- (Zplus_mod_idemp_l (_ mod W)), ring_mod, Zplus_mod_idemp_l.
        f_equal. lia.
      * by rewrite !lookup_ge_None_2 by (rewrite length_rqueue; lia).
Qed.

(** Taking back the newest byte. *)
Lemma rqueue_unpush buf r w :
  rok buf r w -> r <> w ->
  rok buf r ((w - 1) mod W) /\
  rqueue buf r w = rqueue buf r ((w - 1) mod W) ++ [buf !!! Z.to_nat ((w - 1) mod W mod n)].
Proof.
  intros [Hb Hr Hw Hroom] Hne. pose proof (rcount_bound r w) as Hc.
  assert (Hpos : 0 < rcount r w) by (destruct (decide (rcount r w = 0)) as [E|]; [exfalso; apply Hne; by apply rcount_0|lia]).
  assert (Hcnt : rcount r ((w - 1) mod W) = rcount r w - 1) by (by apply rcount_unpush). split.
  - split; [done|done|apply Z.mod_pos_bound; lia|lia].
  - apply list_eq. intros i. destruct (decide (i < Z.to_nat (rcount r w) - 1)%nat) as [Hi|Hi].
    + rewrite lookup_app_l by (rewrite length_rqueue; lia). by rewrite !rqueue_lookup by lia.
    + rewrite lookup_app_r by (rewrite length_rqueue; lia). rewrite length_rqueue, Hcnt.
      destruct (decide (i = Z.to_nat (rcount r w) - 1)%nat) as [->|].
      * replace (_ - 1 - _)%nat with 0%nat by lia. simpl. rewrite rqueue_lookup by lia. do 2 f_equal.
        rewrite (write_slot r ((w - 1) mod W)), Hcnt. do 2 f_equal. lia.
      * rewrite !lookup_ge_None_2; [done|simpl; lia|rewrite length_rqueue; lia].
Qed.
End ring.
