(* ===== verification/Riscv.v ===== *)
(** The hardware-facing constants and macros of the kernel: [param.h],
    [riscv.h] (page sizes, page-table entries, status bits) and [memlayout.h],
    with the arithmetic facts about them that the page-table code relies on. *)
From S2P Require Import Prelude Machine.
From Stdlib Require Import ZArith Lia.
From stdpp Require Import base numbers list.
Local Open Scope Z_scope.

(** ** param.h *)
Definition NPROC : nat := 64.
Definition NCPU : nat := 8.
Definition NOFILE : nat := 16.
Definition NFILE : nat := 100.
Definition NINODE : nat := 50.
Definition NDEV : Z := 10.
Definition ROOTDEV : Z := 1.
Definition MAXARG : nat := 32.
Definition MAXOPBLOCKS : Z := 10.
Definition LOGSIZE : Z := MAXOPBLOCKS * 3.
Definition NBUF : nat := Z.to_nat (MAXOPBLOCKS * 3).
Definition FSSIZE : Z := 2000.
Definition MAXPATH : nat := 128.
Definition USERSTACK : Z := 2.

(** ** riscv.h *)
Definition SSTATUS_SPP : Z := Z.shiftl 1 8.
Definition SSTATUS_SPIE : Z := Z.shiftl 1 5.
Definition SSTATUS_SIE : Z := Z.shiftl 1 1.

Definition SATP_SV39 : Z := Z.shiftl 8 60.
Definition MAKE_SATP (pagetable : Z) : Z := Z.lor SATP_SV39 (Z.shiftr pagetable 12).

Definition PGSIZE : Z := 4096.
Definition PGSIZE_nat : nat := Z.to_nat PGSIZE.
Definition PGSHIFT : Z := 12.
Definition PGROUNDUP (sz : Z) : Z := Z.land (u64 (sz + PGSIZE - 1)) (Z.lnot (PGSIZE - 1)).
Definition PGROUNDDOWN (a : Z) : Z := Z.land a (Z.lnot (PGSIZE - 1)).

Definition PTE_V : Z := Z.shiftl 1 0.
Definition PTE_R : Z := Z.shiftl 1 1.
Definition PTE_W : Z := Z.shiftl 1 2.
Definition PTE_X : Z := Z.shiftl 1 3.
Definition PTE_U : Z := Z.shiftl 1 4.

Definition PA2PTE (pa : Z) : Z := u64 (Z.shiftl (Z.shiftr pa 12) 10).
Definition PTE2PA (pte : Z) : Z := u64 (Z.shiftl (Z.shiftr pte 10) 12).
Definition PTE_FLAGS (pte : Z) : Z := Z.land pte 0x3FF.

Definition PXMASK : Z := 0x1FF.
Definition PXSHIFT (level : Z) : Z := PGSHIFT + 9 * level.
Definition PX (level va : Z) : Z := Z.land (Z.shiftr va (PXSHIFT level)) PXMASK.

Definition MAXVA : Z := Z.shiftl 1 (9 + 9 + 9 + 12 - 1).

(** ** memlayout.h *)
Definition UART0 : Z := 0x10000000.
Definition UART0_IRQ : Z := 10.
Definition VIRTIO0 : Z := 0x10001000.
Definition VIRTIO0_IRQ : Z := 1.
Definition PLIC : Z := 0x0c000000.
Definition KERNBASE : Z := 0x80000000.
Definition PHYSTOP : Z := KERNBASE + 128 * 1024 * 1024.
Definition TRAMPOLINE : Z := MAXVA - PGSIZE.
Definition KSTACK (p : Z) : Z := TRAMPOLINE - (p + 1) * 2 * PGSIZE.
Definition TRAPFRAME : Z := TRAMPOLINE - PGSIZE.

(** A C bit test: [x & m] used as a truth value. *)
Definition has (x m : Z) : bool := negb (Z.land x m =? 0).

Lemma PGSIZE_nat_Z : Z.of_nat PGSIZE_nat = PGSIZE.
Proof. done. Qed.
#[global] Opaque PGSIZE_nat.

(** ** Rounding to pages *)

Lemma land_mask_down x k : 0 <= k -> Z.land x (Z.lnot (Z.ones k)) = (x / 2 ^ k) * 2 ^ k.
Proof.
  intros Hk. rewrite <- Z.ldiff_land, Z.ldiff_ones_r by done.
  by rewrite Z.shiftr_div_pow2, Z.shiftl_mul_pow2.
Qed.

Lemma PGROUNDDOWN_div a : PGROUNDDOWN a = (a / PGSIZE) * PGSIZE.
Proof. unfold PGROUNDDOWN. change (PGSIZE - 1) with (Z.ones 12). by rewrite land_mask_down. Qed.

Lemma PGROUNDUP_div sz :
  0 <= sz <= 2 ^ 64 - PGSIZE -> PGROUNDUP sz = ((sz + PGSIZE - 1) / PGSIZE) * PGSIZE.
Proof.
  intros H. unfold PGROUNDUP. rewrite wrap_small by (unfold PGSIZE in *; lia).
  change (PGSIZE - 1) with (Z.ones 12). rewrite land_mask_down by done. done.
Qed.

Lemma PGROUNDDOWN_bounds a : PGROUNDDOWN a <= a < PGROUNDDOWN a + PGSIZE.
Proof.
  rewrite PGROUNDDOWN_div. unfold PGSIZE.
  pose proof (Z.div_mod a 4096 ltac:(lia)). pose proof (Z.mod_pos_bound a 4096 ltac:(lia)). lia.
Qed.

Lemma PGROUNDDOWN_aligned a : (PGSIZE | PGROUNDDOWN a).
Proof. rewrite PGROUNDDOWN_div. by exists (a / PGSIZE). Qed.

Lemma PGROUNDDOWN_id a : (PGSIZE | a) -> PGROUNDDOWN a = a.
Proof. intros [q ->]. rewrite PGROUNDDOWN_div, Z.div_mul; done. Qed.

Lemma PGROUNDUP_bounds sz :
  0 <= sz <= 2 ^ 64 - PGSIZE -> sz <= PGROUNDUP sz < sz + PGSIZE.
Proof.
  intros H. rewrite PGROUNDUP_div by done. unfold PGSIZE in *.
  pose proof (Z.div_mod (sz + 4096 - 1) 4096 ltac:(lia)).
  pose proof (Z.mod_pos_bound (sz + 4096 - 1) 4096 ltac:(lia)). lia.
Qed.

Lemma PGROUNDUP_aligned sz : 0 <= sz <= 2 ^ 64 - PGSIZE -> (PGSIZE | PGROUNDUP sz).
Proof. intros H. rewrite PGROUNDUP_div by done. by exists ((sz + PGSIZE - 1) / PGSIZE). Qed.

(** ** Page-table entries *)

Lemma lor_low a k b : 0 <= k -> 0 <= b < 2 ^ k -> Z.lor (a * 2 ^ k) b = a * 2 ^ k + b.
Proof.
  intros Hk Hb.
  assert (Hland : Z.land (a * 2 ^ k) b = 0).
  { apply Z.bits_inj'. intros n Hn. rewrite Z.land_spec, Z.bits_0.
    destruct (decide (n < k)).
    - rewrite <- Z.shiftl_mul_pow2, Z.shiftl_spec_low by lia. done.
    - assert (Z.testbit b n = false) as ->; [|by rewrite andb_false_r].
      apply Z.testbit_false; [lia|].
      assert (2 ^ k <= 2 ^ n) by (apply Z.pow_le_mono_r; lia).
      by rewrite Z.div_small by lia. }
  rewrite (Z.add_nocarry_lxor _ _ Hland). symmetry. apply Z.lxor_lor. done.
Qed.

Lemma PA2PTE_div pa : 0 <= pa < 2 ^ 56 -> PA2PTE pa = (pa / 2 ^ 12) * 2 ^ 10.
Proof.
  intros H. unfold PA2PTE. rewrite Z.shiftr_div_pow2, Z.shiftl_mul_pow2 by lia.
  apply wrap_small. split; [apply Z.mul_nonneg_nonneg; [apply Z.div_pos|]; lia|].
  assert (pa / 2 ^ 12 < 2 ^ 44) by (apply Z.div_lt_upper_bound; lia). lia.
Qed.

Lemma PTE2PA_div pte : 0 <= pte < 2 ^ 54 -> PTE2PA pte = (pte / 2 ^ 10) * 2 ^ 12.
Proof.
  intros H. unfold PTE2PA. rewrite Z.shiftr_div_pow2, Z.shiftl_mul_pow2 by lia.
  apply wrap_small. split; [apply Z.mul_nonneg_nonneg; [apply Z.div_pos|]; lia|].
  assert (pte / 2 ^ 10 < 2 ^ 44) by (apply Z.div_lt_upper_bound; lia). lia.
Qed.

Lemma PTE_FLAGS_mod pte : PTE_FLAGS pte = pte mod 2 ^ 10.
Proof. unfold PTE_FLAGS. change 0x3FF with (Z.ones 10). by rewrite Z.land_ones. Qed.

(** The entry for the page at [pa] with the flag bits [fl]. *)
Lemma mkpte_add pa fl :
  0 <= pa < 2 ^ 56 -> 0 <= fl < 2 ^ 10 -> Z.lor (PA2PTE pa) fl = (pa / 2 ^ 12) * 2 ^ 10 + fl.
Proof. intros Hpa Hfl. rewrite PA2PTE_div by done. apply lor_low; lia. Qed.

Lemma mkpte_range pa fl :
  0 <= pa < 2 ^ 56 -> 0 <= fl < 2 ^ 10 -> 0 <= Z.lor (PA2PTE pa) fl < 2 ^ 54.
Proof.
  intros Hpa Hfl. rewrite mkpte_add by done.
  assert (0 <= pa / 2 ^ 12) by (apply Z.div_pos; lia).
  assert (pa / 2 ^ 12 < 2 ^ 44) by (apply Z.div_lt_upper_bound; lia). lia.
Qed.

Lemma PTE2PA_mkpte pa fl :
  0 <= pa < 2 ^ 56 -> (PGSIZE | pa) -> 0 <= fl < 2 ^ 10 -> PTE2PA (Z.lor (PA2PTE pa) fl) = pa.
Proof.
  intros Hpa [q ->] Hfl. rewrite PTE2PA_div by by apply mkpte_range.
  rewrite mkpte_add by done. rewrite Z.div_add_l by lia. unfold PGSIZE in *.
  rewrite (Z.div_small fl) by lia. change (2 ^ 12) with 4096. rewrite Z.div_mul by lia. lia.
Qed.

Lemma PTE_FLAGS_mkpte pa fl :
  0 <= pa < 2 ^ 56 -> 0 <= fl < 2 ^ 10 -> PTE_FLAGS (Z.lor (PA2PTE pa) fl) = fl.
Proof.
  intros Hpa Hfl. rewrite PTE_FLAGS_mod, mkpte_add by done.
  rewrite Z.add_comm, Z.mod_add by lia. by apply Z.mod_small.
Qed.

(** A flag bit of an entry is the flag bit of its low ten bits. *)
Lemma has_flags pte k : 0 <= k < 10 -> has pte (Z.shiftl 1 k) = has (PTE_FLAGS pte) (Z.shiftl 1 k).
Proof.
  intros Hk. unfold has, PTE_FLAGS. rewrite <- Z.land_assoc. do 3 f_equal.
  change 0x3FF with (Z.ones 10). apply Z.bits_inj'. intros n Hn.
  rewrite Z.land_spec, Z.shiftl_spec by done.
  destruct (decide (n = k)) as [->|].
  - rewrite Z.ones_spec_low by lia. done.
  - destruct (decide (n < k)); [rewrite (Z.testbit_neg_r 1) by lia; by rewrite andb_false_r|].
    assert (Z.testbit 1 (n - k) = false) as ->; [|by rewrite andb_false_r].
    apply Z.bits_above_log2; simpl; lia.
Qed.

(** ** Page-table indices *)

Lemma PX_div level va : 0 <= level -> PX level va = (va / 2 ^ PXSHIFT level) mod 512.
Proof.
  intros H. unfold PX. change PXMASK with (Z.ones 9).
  rewrite Z.shiftr_div_pow2, Z.land_ones by (unfold PXSHIFT, PGSHIFT; lia). done.
Qed.

Lemma PX_range level va : 0 <= level -> 0 <= PX level va < 512.
Proof. intros H. rewrite PX_div by done. apply Z.mod_pos_bound. lia. Qed.

(** The three indices determine the page of an address below [MAXVA]. *)
Lemma PX_inj va va' :
  0 <= va < MAXVA -> 0 <= va' < MAXVA ->
  PX 2 va = PX 2 va' -> PX 1 va = PX 1 va' -> PX 0 va = PX 0 va' ->
  va / PGSIZE = va' / PGSIZE.
Proof.
  unfold MAXVA, PGSIZE. rewrite !PX_div by lia. unfold PXSHIFT, PGSHIFT.
  intros Hv Hv'. change (Z.shiftl 1 (9 + 9 + 9 + 12 - 1)) with (2 ^ 38) in *.
  replace (2 ^ (12 + 9 * 2)) with (4096 * 512 * 512) by done.
  replace (2 ^ (12 + 9 * 1)) with (4096 * 512) by done.
  replace (2 ^ (12 + 9 * 0)) with 4096 by done.
  rewrite <- !Z.div_div by lia.
  assert (va / 4096 < 2 ^ 26) by (apply Z.div_lt_upper_bound; lia).
  assert (va' / 4096 < 2 ^ 26) by (apply Z.div_lt_upper_bound; lia).
  assert (0 <= va / 4096) by (apply Z.div_pos; lia).
  assert (0 <= va' / 4096) by (apply Z.div_pos; lia).
  generalize dependent (va / 4096). generalize dependent (va' / 4096). intros p ?? q ?? H2 H1 H0.
  pose proof (Z.div_mod p 512 ltac:(lia)). pose proof (Z.div_mod q 512 ltac:(lia)).
  pose proof (Z.div_mod (p / 512) 512 ltac:(lia)). pose proof (Z.div_mod (q / 512) 512 ltac:(lia)).
  assert (p / 512 / 512 < 512) by (repeat (apply Z.div_lt_upper_bound; [lia|]); lia).
  assert (q / 512 / 512 < 512) by (repeat (apply Z.div_lt_upper_bound; [lia|]); lia).
  assert (0 <= p / 512 / 512) by (repeat apply Z.div_pos; lia).
  assert (0 <= q / 512 / 512) by (repeat apply Z.div_pos; lia).
  rewrite (Z.mod_small (p / 512 / 512)), (Z.mod_small (q / 512 / 512)) in H2 by lia. lia.
Qed.

Lemma MAXVA_pow : MAXVA = 2 ^ 38.
Proof. done. Qed.
