(* ===== verification/State.v ===== *)
(** The kernel's data: the struct types of its header files and its global
    variables, as records.

    [kstate] is everything one hart sees while it runs kernel code: its control
    registers, the per-CPU structures, the locks, and the global variables of
    every kernel file.  A pointer into a global array is the index of the entry
    ([option nat] when it may be null); a pointer to a page is its physical
    address, with 0 for null.  Locks are named ([lockid], [slid]) instead of
    living inside the structure they protect, and so are the channels processes
    sleep on ([chan]): in C all three are addresses of fields of globals.
    Each field [f] of a record comes with [set_f]. *)
From S2P Require Import Prelude Machine Riscv.
From Stdlib Require Import ZArith Lia.
From stdpp Require Import base strings numbers countable gmap list.
Local Open Scope Z_scope.

(** ** Addresses fixed by the linker

    [kernel.ld] places the kernel text at [KERNBASE]; [etext] ends it on a page
    boundary, [trampoline] is a page of the text, and [kend] (the symbol [end])
    is the first address after the kernel.  [forkret_addr], [usertrap_addr],
    [kernelvec_addr], [uservec_off] and [userret_off] are code addresses. *)
Class Layout := {
  kend : Z;
  etext : Z;
  trampoline : Z;
  forkret_addr : Z;
  usertrap_addr : Z;
  kernelvec_addr : Z;
  uservec_off : Z;
  userret_off : Z;
  kend_range : KERNBASE <= etext /\ etext <= kend /\ kend <= PHYSTOP;
  etext_aligned : (PGSIZE | etext);
  trampoline_aligned : (PGSIZE | trampoline);
  trampoline_range : KERNBASE <= trampoline /\ trampoline + PGSIZE <= etext;
}.

(** A layout with one megabyte of kernel. *)
#[refine] Definition sample_layout : Layout := {|
  kend := KERNBASE + 0x30000; etext := KERNBASE + 0x8000; trampoline := KERNBASE + 0x7000;
  forkret_addr := KERNBASE + 0x1a00; usertrap_addr := KERNBASE + 0x2600;
  kernelvec_addr := KERNBASE + 0x5a10; uservec_off := 0; userret_off := 0x9c |}.
Proof.
  - unfold KERNBASE, PHYSTOP, KERNBASE. lia.
  - by exists 0x80008.
  - by exists 0x80007.
  - unfold KERNBASE, PGSIZE. lia.
Defined.

(** ** Names of locks and sleep channels *)

(** The sleep-locks: one per buffer, one per in-memory inode. *)
Inductive slid : Type :=
| SL_buf (i : nat)
| SL_inode (i : nat).

(** The spin-locks. *)
Inductive lockid : Type :=
| L_kmem | L_pid | L_wait | L_proc (i : nat) | L_bcache | L_log | L_itable | L_ftable
| L_cons | L_uart | L_ticks | L_vdisk | L_pr | L_pipe (pa : Z) | L_sleep (l : slid).

(** What [sleep] and [wakeup] are called with. *)
Inductive chan : Type :=
| C_null | C_proc (i : nat) | C_log | C_ticks | C_sleeplock (l : slid)
| C_pipe_nread (pa : Z) | C_pipe_nwrite (pa : Z) | C_cons_r | C_uart_tx_r
| C_disk_free | C_buf (i : nat).

#[export] Instance slid_eq_dec : EqDecision slid.
Proof. solve_decision. Defined.
#[export] Instance lockid_eq_dec : EqDecision lockid.
Proof. solve_decision. Defined.
#[export] Instance chan_eq_dec : EqDecision chan.
Proof. solve_decision. Defined.

Definition slid_code (l : slid) : nat + nat :=
  match l with SL_buf i => inl i | SL_inode i => inr i end.
Definition slid_decode (c : nat + nat) : slid :=
  match c with inl i => SL_buf i | inr i => SL_inode i end.
#[export] Instance slid_countable : Countable slid.
Proof. apply (inj_countable' slid_code slid_decode). by intros []. Defined.

Definition lockid_code (l : lockid) : nat + (nat + (Z + slid)) :=
  match l with
  | L_kmem => inl 0%nat | L_pid => inl 1%nat | L_wait => inl 2%nat | L_bcache => inl 3%nat
  | L_log => inl 4%nat | L_itable => inl 5%nat | L_ftable => inl 6%nat | L_cons => inl 7%nat
  | L_uart => inl 8%nat | L_ticks => inl 9%nat | L_vdisk => inl 10%nat | L_pr => inl 11%nat
  | L_proc i => inr (inl i)
  | L_pipe pa => inr (inr (inl pa))
  | L_sleep l => inr (inr (inr l))
  end.
Definition lockid_decode (c : nat + (nat + (Z + slid))) : lockid :=
  match c with
  | inl 0%nat => L_kmem | inl 1%nat => L_pid | inl 2%nat => L_wait | inl 3%nat => L_bcache
  | inl 4%nat => L_log | inl 5%nat => L_itable | inl 6%nat => L_ftable | inl 7%nat => L_cons
  | inl 8%nat => L_uart | inl 9%nat => L_ticks | inl 10%nat => L_vdisk | inl _ => L_pr
  | inr (inl i) => L_proc i
  | inr (inr (inl pa)) => L_pipe pa
  | inr (inr (inr l)) => L_sleep l
  end.
#[export] Instance lockid_countable : Countable lockid.
Proof. apply (inj_countable' lockid_code lockid_decode). by intros []. Defined.

(** ** spinlock.h, sleeplock.h *)

(** A spin-lock: is it held, and by which CPU.  (The C struct also holds a name,
    used only for debugging.) *)
Record spinlock : Type := mkSpinlock {
  locked : bool;
  lcpu : option nat
}.

Definition set_locked (v : bool) (r : spinlock) : spinlock :=
  {| locked := v; lcpu := r.(lcpu) |}.
Definition set_lcpu (v : option nat) (r : spinlock) : spinlock :=
  {| locked := r.(locked); lcpu := v |}.

(** A sleep-lock: is it held, and by which pid.  The spin-lock that protects it is
    [L_sleep] of its name. *)
Record sleeplock : Type := mkSleeplock {
  slocked : bool;
  spid : Z
}.

Definition set_slocked (v : bool) (r : sleeplock) : sleeplock :=
  {| slocked := v; spid := r.(spid) |}.
Definition set_spid (v : Z) (r : sleeplock) : sleeplock :=
  {| slocked := r.(slocked); spid := v |}.

Definition free_spinlock : spinlock := {| locked := false; lcpu := None |}.
Definition free_sleeplock : sleeplock := {| slocked := false; spid := 0 |}.

#[export] Instance spinlock_eq_dec : EqDecision spinlock.
Proof. solve_decision. Defined.
#[export] Instance sleeplock_eq_dec : EqDecision sleeplock.
Proof. solve_decision. Defined.

(** ** proc.h *)

(** Per-CPU state: the process running on it, the depth of [push_off] nesting, and
    whether interrupts were enabled before the outermost [push_off]. *)
Record cpu : Type := mkCpu {
  cproc : option nat;
  noff : Z;
  intena : bool
}.

Definition set_cproc (v : option nat) (r : cpu) : cpu :=
  {| cproc := v; noff := r.(noff); intena := r.(intena) |}.
Definition set_noff (v : Z) (r : cpu) : cpu :=
  {| cproc := r.(cproc); noff := v; intena := r.(intena) |}.
Definition set_intena (v : bool) (r : cpu) : cpu :=
  {| cproc := r.(cproc); noff := r.(noff); intena := v |}.

Inductive procstate : Type := UNUSED | USED | SLEEPING | RUNNABLE | RUNNING | ZOMBIE.
#[export] Instance procstate_eq_dec : EqDecision procstate.
Proof. solve_decision. Defined.

(** Per-process state.  [ppagetable] and [ptrapframe] are physical addresses, 0 for
    null; of the saved context only [ra] and [sp] are given values by C code. *)
Record proc : Type := mkProc {
  pstate : procstate;
  pchan : chan;
  pkilled : Z;
  pxstate : Z;
  ppid : Z;
  pparent : option nat;
  pkstack : Z;
  psz : Z;
  ppagetable : Z;
  ptrapframe : Z;
  pctx_ra : Z;
  pctx_sp : Z;
  pofile : list (option nat);
  pcwd : option nat;
  pname : list Z
}.

Definition set_pstate (v : procstate) (r : proc) : proc :=
  {| pstate := v; pchan := r.(pchan); pkilled := r.(pkilled); pxstate := r.(pxstate); ppid := r.(ppid); pparent := r.(pparent); pkstack := r.(pkstack); psz := r.(psz); ppagetable := r.(ppagetable); ptrapframe := r.(ptrapframe); pctx_ra := r.(pctx_ra); pctx_sp := r.(pctx_sp); pofile := r.(pofile); pcwd := r.(pcwd); pname := r.(pname) |}.
Definition set_pchan (v : chan) (r : proc) : proc :=
  {| pstate := r.(pstate); pchan := v; pkilled := r.(pkilled); pxstate := r.(pxstate); ppid := r.(ppid); pparent := r.(pparent); pkstack := r.(pkstack); psz := r.(psz); ppagetable := r.(ppagetable); ptrapframe := r.(ptrapframe); pctx_ra := r.(pctx_ra); pctx_sp := r.(pctx_sp); pofile := r.(pofile); pcwd := r.(pcwd); pname := r.(pname) |}.
Definition set_pkilled (v : Z) (r : proc) : proc :=
  {| pstate := r.(pstate); pchan := r.(pchan); pkilled := v; pxstate := r.(pxstate); ppid := r.(ppid); pparent := r.(pparent); pkstack := r.(pkstack); psz := r.(psz); ppagetable := r.(ppagetable); ptrapframe := r.(ptrapframe); pctx_ra := r.(pctx_ra); pctx_sp := r.(pctx_sp); pofile := r.(pofile); pcwd := r.(pcwd); pname := r.(pname) |}.
Definition set_pxstate (v : Z) (r : proc) : proc :=
  {| pstate := r.(pstate); pchan := r.(pchan); pkilled := r.(pkilled); pxstate := v; ppid := r.(ppid); pparent := r.(pparent); pkstack := r.(pkstack); psz := r.(psz); ppagetable := r.(ppagetable); ptrapframe := r.(ptrapframe); pctx_ra := r.(pctx_ra); pctx_sp := r.(pctx_sp); pofile := r.(pofile); pcwd := r.(pcwd); pname := r.(pname) |}.
Definition set_ppid (v : Z) (r : proc) : proc :=
  {| pstate := r.(pstate); pchan := r.(pchan); pkilled := r.(pkilled); pxstate := r.(pxstate); ppid := v; pparent := r.(pparent); pkstack := r.(pkstack); psz := r.(psz); ppagetable := r.(ppagetable); ptrapframe := r.(ptrapframe); pctx_ra := r.(pctx_ra); pctx_sp := r.(pctx_sp); pofile := r.(pofile); pcwd := r.(pcwd); pname := r.(pname) |}.
Definition set_pparent (v : option nat) (r : proc) : proc :=
  {| pstate := r.(pstate); pchan := r.(pchan); pkilled := r.(pkilled); pxstate := r.(pxstate); ppid := r.(ppid); pparent := v; pkstack := r.(pkstack); psz := r.(psz); ppagetable := r.(ppagetable); ptrapframe := r.(ptrapframe); pctx_ra := r.(pctx_ra); pctx_sp := r.(pctx_sp); pofile := r.(pofile); pcwd := r.(pcwd); pname := r.(pname) |}.
Definition set_pkstack (v : Z) (r : proc) : proc :=
  {| pstate := r.(pstate); pchan := r.(pchan); pkilled := r.(pkilled); pxstate := r.(pxstate); ppid := r.(ppid); pparent := r.(pparent); pkstack := v; psz := r.(psz); ppagetable := r.(ppagetable); ptrapframe := r.(ptrapframe); pctx_ra := r.(pctx_ra); pctx_sp := r.(pctx_sp); pofile := r.(pofile); pcwd := r.(pcwd); pname := r.(pname) |}.
Definition set_psz (v : Z) (r : proc) : proc :=
  {| pstate := r.(pstate); pchan := r.(pchan); pkilled := r.(pkilled); pxstate := r.(pxstate); ppid := r.(ppid); pparent := r.(pparent); pkstack := r.(pkstack); psz := v; ppagetable := r.(ppagetable); ptrapframe := r.(ptrapframe); pctx_ra := r.(pctx_ra); pctx_sp := r.(pctx_sp); pofile := r.(pofile); pcwd := r.(pcwd); pname := r.(pname) |}.
Definition set_ppagetable (v : Z) (r : proc) : proc :=
  {| pstate := r.(pstate); pchan := r.(pchan); pkilled := r.(pkilled); pxstate := r.(pxstate); ppid := r.(ppid); pparent := r.(pparent); pkstack := r.(pkstack); psz := r.(psz); ppagetable := v; ptrapframe := r.(ptrapframe); pctx_ra := r.(pctx_ra); pctx_sp := r.(pctx_sp); pofile := r.(pofile); pcwd := r.(pcwd); pname := r.(pname) |}.
Definition set_ptrapframe (v : Z) (r : proc) : proc :=
  {| pstate := r.(pstate); pchan := r.(pchan); pkilled := r.(pkilled); pxstate := r.(pxstate); ppid := r.(ppid); pparent := r.(pparent); pkstack := r.(pkstack); psz := r.(psz); ppagetable := r.(ppagetable); ptrapframe := v; pctx_ra := r.(pctx_ra); pctx_sp := r.(pctx_sp); pofile := r.(pofile); pcwd := r.(pcwd); pname := r.(pname) |}.
Definition set_pctx_ra (v : Z) (r : proc) : proc :=
  {| pstate := r.(pstate); pchan := r.(pchan); pkilled := r.(pkilled); pxstate := r.(pxstate); ppid := r.(ppid); pparent := r.(pparent); pkstack := r.(pkstack); psz := r.(psz); ppagetable := r.(ppagetable); ptrapframe := r.(ptrapframe); pctx_ra := v; pctx_sp := r.(pctx_sp); pofile := r.(pofile); pcwd := r.(pcwd); pname := r.(pname) |}.
Definition set_pctx_sp (v : Z) (r : proc) : proc :=
  {| pstate := r.(pstate); pchan := r.(pchan); pkilled := r.(pkilled); pxstate := r.(pxstate); ppid := r.(ppid); pparent := r.(pparent); pkstack := r.(pkstack); psz := r.(psz); ppagetable := r.(ppagetable); ptrapframe := r.(ptrapframe); pctx_ra := r.(pctx_ra); pctx_sp := v; pofile := r.(pofile); pcwd := r.(pcwd); pname := r.(pname) |}.
Definition set_pofile (v : list (option nat)) (r : proc) : proc :=
  {| pstate := r.(pstate); pchan := r.(pchan); pkilled := r.(pkilled); pxstate := r.(pxstate); ppid := r.(ppid); pparent := r.(pparent); pkstack := r.(pkstack); psz := r.(psz); ppagetable := r.(ppagetable); ptrapframe := r.(ptrapframe); pctx_ra := r.(pctx_ra); pctx_sp := r.(pctx_sp); pofile := v; pcwd := r.(pcwd); pname := r.(pname) |}.
Definition set_pcwd (v : option nat) (r : proc) : proc :=
  {| pstate := r.(pstate); pchan := r.(pchan); pkilled := r.(pkilled); pxstate := r.(pxstate); ppid := r.(ppid); pparent := r.(pparent); pkstack := r.(pkstack); psz := r.(psz); ppagetable := r.(ppagetable); ptrapframe := r.(ptrapframe); pctx_ra := r.(pctx_ra); pctx_sp := r.(pctx_sp); pofile := r.(pofile); pcwd := v; pname := r.(pname) |}.
Definition set_pname (v : list Z) (r : proc) : proc :=
  {| pstate := r.(pstate); pchan := r.(pchan); pkilled := r.(pkilled); pxstate := r.(pxstate); ppid := r.(ppid); pparent := r.(pparent); pkstack := r.(pkstack); psz := r.(psz); ppagetable := r.(ppagetable); ptrapframe := r.(ptrapframe); pctx_ra := r.(pctx_ra); pctx_sp := r.(pctx_sp); pofile := r.(pofile); pcwd := r.(pcwd); pname := v |}.

(** ** buf.h, fs.h, file.h, pipe.c *)

(** A disk buffer.  [bprev] and [bnext] link the LRU list; the list head is the
    buffer with index [NBUF]. *)
Record buf : Type := mkBuf {
  bvalid : bool;
  bdisk : bool;
  bdev : Z;
  bblockno : Z;
  brefcnt : Z;
  bprev : nat;
  bnext : nat;
  bdata : list Z
}.

Definition set_bvalid (v : bool) (r : buf) : buf :=
  {| bvalid := v; bdisk := r.(bdisk); bdev := r.(bdev); bblockno := r.(bblockno); brefcnt := r.(brefcnt); bprev := r.(bprev); bnext := r.(bnext); bdata := r.(bdata) |}.
Definition set_bdisk (v : bool) (r : buf) : buf :=
  {| bvalid := r.(bvalid); bdisk := v; bdev := r.(bdev); bblockno := r.(bblockno); brefcnt := r.(brefcnt); bprev := r.(bprev); bnext := r.(bnext); bdata := r.(bdata) |}.
Definition set_bdev (v : Z) (r : buf) : buf :=
  {| bvalid := r.(bvalid); bdisk := r.(bdisk); bdev := v; bblockno := r.(bblockno); brefcnt := r.(brefcnt); bprev := r.(bprev); bnext := r.(bnext); bdata := r.(bdata) |}.
Definition set_bblockno (v : Z) (r : buf) : buf :=
  {| bvalid := r.(bvalid); bdisk := r.(bdisk); bdev := r.(bdev); bblockno := v; brefcnt := r.(brefcnt); bprev := r.(bprev); bnext := r.(bnext); bdata := r.(bdata) |}.
Definition set_brefcnt (v : Z) (r : buf) : buf :=
  {| bvalid := r.(bvalid); bdisk := r.(bdisk); bdev := r.(bdev); bblockno := r.(bblockno); brefcnt := v; bprev := r.(bprev); bnext := r.(bnext); bdata := r.(bdata) |}.
Definition set_bprev (v : nat) (r : buf) : buf :=
  {| bvalid := r.(bvalid); bdisk := r.(bdisk); bdev := r.(bdev); bblockno := r.(bblockno); brefcnt := r.(brefcnt); bprev := v; bnext := r.(bnext); bdata := r.(bdata) |}.
Definition set_bnext (v : nat) (r : buf) : buf :=
  {| bvalid := r.(bvalid); bdisk := r.(bdisk); bdev := r.(bdev); bblockno := r.(bblockno); brefcnt := r.(brefcnt); bprev := r.(bprev); bnext := v; bdata := r.(bdata) |}.
Definition set_bdata (v : list Z) (r : buf) : buf :=
  {| bvalid := r.(bvalid); bdisk := r.(bdisk); bdev := r.(bdev); bblockno := r.(bblockno); brefcnt := r.(brefcnt); bprev := r.(bprev); bnext := r.(bnext); bdata := v |}.

(** [struct log], with the in-memory header [lh] as the two fields [lhn] and [lhblock]. *)
Record logst : Type := mkLog {
  lstart : Z;
  lsize : Z;
  loutstanding : Z;
  lcommitting : bool;
  ldev : Z;
  lhn : Z;
  lhblock : list Z
}.

Definition set_lstart (v : Z) (r : logst) : logst :=
  {| lstart := v; lsize := r.(lsize); loutstanding := r.(loutstanding); lcommitting := r.(lcommitting); ldev := r.(ldev); lhn := r.(lhn); lhblock := r.(lhblock) |}.
Definition set_lsize (v : Z) (r : logst) : logst :=
  {| lstart := r.(lstart); lsize := v; loutstanding := r.(loutstanding); lcommitting := r.(lcommitting); ldev := r.(ldev); lhn := r.(lhn); lhblock := r.(lhblock) |}.
Definition set_loutstanding (v : Z) (r : logst) : logst :=
  {| lstart := r.(lstart); lsize := r.(lsize); loutstanding := v; lcommitting := r.(lcommitting); ldev := r.(ldev); lhn := r.(lhn); lhblock := r.(lhblock) |}.
Definition set_lcommitting (v : bool) (r : logst) : logst :=
  {| lstart := r.(lstart); lsize := r.(lsize); loutstanding := r.(loutstanding); lcommitting := v; ldev := r.(ldev); lhn := r.(lhn); lhblock := r.(lhblock) |}.
Definition set_ldev (v : Z) (r : logst) : logst :=
  {| lstart := r.(lstart); lsize := r.(lsize); loutstanding := r.(loutstanding); lcommitting := r.(lcommitting); ldev := v; lhn := r.(lhn); lhblock := r.(lhblock) |}.
Definition set_lhn (v : Z) (r : logst) : logst :=
  {| lstart := r.(lstart); lsize := r.(lsize); loutstanding := r.(loutstanding); lcommitting := r.(lcommitting); ldev := r.(ldev); lhn := v; lhblock := r.(lhblock) |}.
Definition set_lhblock (v : list Z) (r : logst) : logst :=
  {| lstart := r.(lstart); lsize := r.(lsize); loutstanding := r.(loutstanding); lcommitting := r.(lcommitting); ldev := r.(ldev); lhn := r.(lhn); lhblock := v |}.

(** The super block. *)
Record superblock : Type := mkSuperblock {
  sb_magic : Z;
  sb_size : Z;
  sb_nblocks : Z;
  sb_ninodes : Z;
  sb_nlog : Z;
  sb_logstart : Z;
  sb_inodestart : Z;
  sb_bmapstart : Z
}.

Definition set_sb_magic (v : Z) (r : superblock) : superblock :=
  {| sb_magic := v; sb_size := r.(sb_size); sb_nblocks := r.(sb_nblocks); sb_ninodes := r.(sb_ninodes); sb_nlog := r.(sb_nlog); sb_logstart := r.(sb_logstart); sb_inodestart := r.(sb_inodestart); sb_bmapstart := r.(sb_bmapstart) |}.
Definition set_sb_size (v : Z) (r : superblock) : superblock :=
  {| sb_magic := r.(sb_magic); sb_size := v; sb_nblocks := r.(sb_nblocks); sb_ninodes := r.(sb_ninodes); sb_nlog := r.(sb_nlog); sb_logstart := r.(sb_logstart); sb_inodestart := r.(sb_inodestart); sb_bmapstart := r.(sb_bmapstart) |}.
Definition set_sb_nblocks (v : Z) (r : superblock) : superblock :=
  {| sb_magic := r.(sb_magic); sb_size := r.(sb_size); sb_nblocks := v; sb_ninodes := r.(sb_ninodes); sb_nlog := r.(sb_nlog); sb_logstart := r.(sb_logstart); sb_inodestart := r.(sb_inodestart); sb_bmapstart := r.(sb_bmapstart) |}.
Definition set_sb_ninodes (v : Z) (r : superblock) : superblock :=
  {| sb_magic := r.(sb_magic); sb_size := r.(sb_size); sb_nblocks := r.(sb_nblocks); sb_ninodes := v; sb_nlog := r.(sb_nlog); sb_logstart := r.(sb_logstart); sb_inodestart := r.(sb_inodestart); sb_bmapstart := r.(sb_bmapstart) |}.
Definition set_sb_nlog (v : Z) (r : superblock) : superblock :=
  {| sb_magic := r.(sb_magic); sb_size := r.(sb_size); sb_nblocks := r.(sb_nblocks); sb_ninodes := r.(sb_ninodes); sb_nlog := v; sb_logstart := r.(sb_logstart); sb_inodestart := r.(sb_inodestart); sb_bmapstart := r.(sb_bmapstart) |}.
Definition set_sb_logstart (v : Z) (r : superblock) : superblock :=
  {| sb_magic := r.(sb_magic); sb_size := r.(sb_size); sb_nblocks := r.(sb_nblocks); sb_ninodes := r.(sb_ninodes); sb_nlog := r.(sb_nlog); sb_logstart := v; sb_inodestart := r.(sb_inodestart); sb_bmapstart := r.(sb_bmapstart) |}.
Definition set_sb_inodestart (v : Z) (r : superblock) : superblock :=
  {| sb_magic := r.(sb_magic); sb_size := r.(sb_size); sb_nblocks := r.(sb_nblocks); sb_ninodes := r.(sb_ninodes); sb_nlog := r.(sb_nlog); sb_logstart := r.(sb_logstart); sb_inodestart := v; sb_bmapstart := r.(sb_bmapstart) |}.
Definition set_sb_bmapstart (v : Z) (r : superblock) : superblock :=
  {| sb_magic := r.(sb_magic); sb_size := r.(sb_size); sb_nblocks := r.(sb_nblocks); sb_ninodes := r.(sb_ninodes); sb_nlog := r.(sb_nlog); sb_logstart := r.(sb_logstart); sb_inodestart := r.(sb_inodestart); sb_bmapstart := v |}.

(** The disk: its blocks, and the sequence of block writes it has performed, oldest
    first, which is what a crash can interrupt. *)
Record diskst : Type := mkDisk {
  dblocks : gmap Z (list Z);
  dtrace : list (Z * list Z)
}.

Definition set_dblocks (v : gmap Z (list Z)) (r : diskst) : diskst :=
  {| dblocks := v; dtrace := r.(dtrace) |}.
Definition set_dtrace (v : list (Z * list Z)) (r : diskst) : diskst :=
  {| dblocks := r.(dblocks); dtrace := v |}.

(** A pipe; it occupies a page and is named by the address of that page. *)
Record pipe : Type := mkPipe {
  pdata : list Z;
  nread : Z;
  nwrite : Z;
  readopen : bool;
  writeopen : bool
}.

Definition set_pdata (v : list Z) (r : pipe) : pipe :=
  {| pdata := v; nread := r.(nread); nwrite := r.(nwrite); readopen := r.(readopen); writeopen := r.(writeopen) |}.
Definition set_nread (v : Z) (r : pipe) : pipe :=
  {| pdata := r.(pdata); nread := v; nwrite := r.(nwrite); readopen := r.(readopen); writeopen := r.(writeopen) |}.
Definition set_nwrite (v : Z) (r : pipe) : pipe :=
  {| pdata := r.(pdata); nread := r.(nread); nwrite := v; readopen := r.(readopen); writeopen := r.(writeopen) |}.
Definition set_readopen (v : bool) (r : pipe) : pipe :=
  {| pdata := r.(pdata); nread := r.(nread); nwrite := r.(nwrite); readopen := v; writeopen := r.(writeopen) |}.
Definition set_writeopen (v : bool) (r : pipe) : pipe :=
  {| pdata := r.(pdata); nread := r.(nread); nwrite := r.(nwrite); readopen := r.(readopen); writeopen := v |}.

(** The console input buffer. *)
Record consst : Type := mkCons {
  cbuf : list Z;
  cons_r : Z;
  cons_w : Z;
  cons_e : Z;
  rawmode : Z
}.

Definition set_cbuf (v : list Z) (r : consst) : consst :=
  {| cbuf := v; cons_r := r.(cons_r); cons_w := r.(cons_w); cons_e := r.(cons_e); rawmode := r.(rawmode) |}.
Definition set_cons_r (v : Z) (r : consst) : consst :=
  {| cbuf := r.(cbuf); cons_r := v; cons_w := r.(cons_w); cons_e := r.(cons_e); rawmode := r.(rawmode) |}.
Definition set_cons_w (v : Z) (r : consst) : consst :=
  {| cbuf := r.(cbuf); cons_r := r.(cons_r); cons_w := v; cons_e := r.(cons_e); rawmode := r.(rawmode) |}.
Definition set_cons_e (v : Z) (r : consst) : consst :=
  {| cbuf := r.(cbuf); cons_r := r.(cons_r); cons_w := r.(cons_w); cons_e := v; rawmode := r.(rawmode) |}.
Definition set_rawmode (v : Z) (r : consst) : consst :=
  {| cbuf := r.(cbuf); cons_r := r.(cons_r); cons_w := r.(cons_w); cons_e := r.(cons_e); rawmode := v |}.

(** ** The state of the kernel *)

(** The registers of the running hart the kernel reads and writes. *)
Record hart : Type := mkHart {
  tp : nat;
  sstatus : Z;
  sepc : Z;
  scause : Z;
  stval : Z;
  stvec : Z;
  satp : Z
}.

Definition set_tp (v : nat) (r : hart) : hart :=
  {| tp := v; sstatus := r.(sstatus); sepc := r.(sepc); scause := r.(scause); stval := r.(stval); stvec := r.(stvec); satp := r.(satp) |}.
Definition set_sstatus (v : Z) (r : hart) : hart :=
  {| tp := r.(tp); sstatus := v; sepc := r.(sepc); scause := r.(scause); stval := r.(stval); stvec := r.(stvec); satp := r.(satp) |}.
Definition set_sepc (v : Z) (r : hart) : hart :=
  {| tp := r.(tp); sstatus := r.(sstatus); sepc := v; scause := r.(scause); stval := r.(stval); stvec := r.(stvec); satp := r.(satp) |}.
Definition set_scause (v : Z) (r : hart) : hart :=
  {| tp := r.(tp); sstatus := r.(sstatus); sepc := r.(sepc); scause := v; stval := r.(stval); stvec := r.(stvec); satp := r.(satp) |}.
Definition set_stval (v : Z) (r : hart) : hart :=
  {| tp := r.(tp); sstatus := r.(sstatus); sepc := r.(sepc); scause := r.(scause); stval := v; stvec := r.(stvec); satp := r.(satp) |}.
Definition set_stvec (v : Z) (r : hart) : hart :=
  {| tp := r.(tp); sstatus := r.(sstatus); sepc := r.(sepc); scause := r.(scause); stval := r.(stval); stvec := v; satp := r.(satp) |}.
Definition set_satp (v : Z) (r : hart) : hart :=
  {| tp := r.(tp); sstatus := r.(sstatus); sepc := r.(sepc); scause := r.(scause); stval := r.(stval); stvec := r.(stvec); satp := v |}.

(** ** file.h *)
Inductive filetype : Type := FD_NONE | FD_PIPE | FD_INODE | FD_DEVICE.
#[export] Instance filetype_eq_dec : EqDecision filetype.
Proof. solve_decision. Defined.

(** An open file; [fpipe] is the address of the pipe's page, [fip] an index into
    the inode table. *)
Record file : Type := mkFile {
  ftype : filetype;
  fref : Z;
  freadable : bool;
  fwritable : bool;
  fpipe : Z;
  fip : option nat;
  foff : Z;
  fmajor : Z
}.

Definition set_ftype (v : filetype) (r : file) : file :=
  {| ftype := v; fref := r.(fref); freadable := r.(freadable); fwritable := r.(fwritable); fpipe := r.(fpipe); fip := r.(fip); foff := r.(foff); fmajor := r.(fmajor) |}.
Definition set_fref (v : Z) (r : file) : file :=
  {| ftype := r.(ftype); fref := v; freadable := r.(freadable); fwritable := r.(fwritable); fpipe := r.(fpipe); fip := r.(fip); foff := r.(foff); fmajor := r.(fmajor) |}.
Definition set_freadable (v : bool) (r : file) : file :=
  {| ftype := r.(ftype); fref := r.(fref); freadable := v; fwritable := r.(fwritable); fpipe := r.(fpipe); fip := r.(fip); foff := r.(foff); fmajor := r.(fmajor) |}.
Definition set_fwritable (v : bool) (r : file) : file :=
  {| ftype := r.(ftype); fref := r.(fref); freadable := r.(freadable); fwritable := v; fpipe := r.(fpipe); fip := r.(fip); foff := r.(foff); fmajor := r.(fmajor) |}.
Definition set_fpipe (v : Z) (r : file) : file :=
  {| ftype := r.(ftype); fref := r.(fref); freadable := r.(freadable); fwritable := r.(fwritable); fpipe := v; fip := r.(fip); foff := r.(foff); fmajor := r.(fmajor) |}.
Definition set_fip (v : option nat) (r : file) : file :=
  {| ftype := r.(ftype); fref := r.(fref); freadable := r.(freadable); fwritable := r.(fwritable); fpipe := r.(fpipe); fip := v; foff := r.(foff); fmajor := r.(fmajor) |}.
Definition set_foff (v : Z) (r : file) : file :=
  {| ftype := r.(ftype); fref := r.(fref); freadable := r.(freadable); fwritable := r.(fwritable); fpipe := r.(fpipe); fip := r.(fip); foff := v; fmajor := r.(fmajor) |}.
Definition set_fmajor (v : Z) (r : file) : file :=
  {| ftype := r.(ftype); fref := r.(fref); freadable := r.(freadable); fwritable := r.(fwritable); fpipe := r.(fpipe); fip := r.(fip); foff := r.(foff); fmajor := v |}.

(** The in-memory copy of an inode; its sleep-lock is [SL_inode] of its index. *)
Record inode : Type := mkInode {
  idev : Z;
  inum : Z;
  iref : Z;
  ivalid : bool;
  itype : Z;
  imajor : Z;
  iminor : Z;
  inlink : Z;
  isize : Z;
  iaddrs : list Z
}.

Definition set_idev (v : Z) (r : inode) : inode :=
  {| idev := v; inum := r.(inum); iref := r.(iref); ivalid := r.(ivalid); itype := r.(itype); imajor := r.(imajor); iminor := r.(iminor); inlink := r.(inlink); isize := r.(isize); iaddrs := r.(iaddrs) |}.
Definition set_inum (v : Z) (r : inode) : inode :=
  {| idev := r.(idev); inum := v; iref := r.(iref); ivalid := r.(ivalid); itype := r.(itype); imajor := r.(imajor); iminor := r.(iminor); inlink := r.(inlink); isize := r.(isize); iaddrs := r.(iaddrs) |}.
Definition set_iref (v : Z) (r : inode) : inode :=
  {| idev := r.(idev); inum := r.(inum); iref := v; ivalid := r.(ivalid); itype := r.(itype); imajor := r.(imajor); iminor := r.(iminor); inlink := r.(inlink); isize := r.(isize); iaddrs := r.(iaddrs) |}.
Definition set_ivalid (v : bool) (r : inode) : inode :=
  {| idev := r.(idev); inum := r.(inum); iref := r.(iref); ivalid := v; itype := r.(itype); imajor := r.(imajor); iminor := r.(iminor); inlink := r.(inlink); isize := r.(isize); iaddrs := r.(iaddrs) |}.
Definition set_itype (v : Z) (r : inode) : inode :=
  {| idev := r.(idev); inum := r.(inum); iref := r.(iref); ivalid := r.(ivalid); itype := v; imajor := r.(imajor); iminor := r.(iminor); inlink := r.(inlink); isize := r.(isize); iaddrs := r.(iaddrs) |}.
Definition set_imajor (v : Z) (r : inode) : inode :=
  {| idev := r.(idev); inum := r.(inum); iref := r.(iref); ivalid := r.(ivalid); itype := r.(itype); imajor := v; iminor := r.(iminor); inlink := r.(inlink); isize := r.(isize); iaddrs := r.(iaddrs) |}.
Definition set_iminor (v : Z) (r : inode) : inode :=
  {| idev := r.(idev); inum := r.(inum); iref := r.(iref); ivalid := r.(ivalid); itype := r.(itype); imajor := r.(imajor); iminor := v; inlink := r.(inlink); isize := r.(isize); iaddrs := r.(iaddrs) |}.
Definition set_inlink (v : Z) (r : inode) : inode :=
  {| idev := r.(idev); inum := r.(inum); iref := r.(iref); ivalid := r.(ivalid); itype := r.(itype); imajor := r.(imajor); iminor := r.(iminor); inlink := v; isize := r.(isize); iaddrs := r.(iaddrs) |}.
Definition set_isize (v : Z) (r : inode) : inode :=
  {| idev := r.(idev); inum := r.(inum); iref := r.(iref); ivalid := r.(ivalid); itype := r.(itype); imajor := r.(imajor); iminor := r.(iminor); inlink := r.(inlink); isize := v; iaddrs := r.(iaddrs) |}.
Definition set_iaddrs (v : list Z) (r : inode) : inode :=
  {| idev := r.(idev); inum := r.(inum); iref := r.(iref); ivalid := r.(ivalid); itype := r.(itype); imajor := r.(imajor); iminor := r.(iminor); inlink := r.(inlink); isize := r.(isize); iaddrs := v |}.

(** ** uart.c

    The transmit ring and the device: [ulsr] is what the next reads of the transmit-idle
    bit will give, [true] when the list is exhausted (how long the device takes to send a
    byte is not determined), [urx] the bytes it has received, and [uregs] the writes to its
    configuration registers, oldest first. *)
Record uartst : Type := mkUart {
  utx_buf : list Z;
  utx_w : Z;
  utx_r : Z;
  ulsr : list bool;
  urx : list Z;
  uregs : list (Z * Z)
}.

Definition set_utx_buf (v : list Z) (r : uartst) : uartst :=
  {| utx_buf := v; utx_w := r.(utx_w); utx_r := r.(utx_r); ulsr := r.(ulsr); urx := r.(urx); uregs := r.(uregs) |}.
Definition set_utx_w (v : Z) (r : uartst) : uartst :=
  {| utx_buf := r.(utx_buf); utx_w := v; utx_r := r.(utx_r); ulsr := r.(ulsr); urx := r.(urx); uregs := r.(uregs) |}.
Definition set_utx_r (v : Z) (r : uartst) : uartst :=
  {| utx_buf := r.(utx_buf); utx_w := r.(utx_w); utx_r := v; ulsr := r.(ulsr); urx := r.(urx); uregs := r.(uregs) |}.
Definition set_ulsr (v : list bool) (r : uartst) : uartst :=
  {| utx_buf := r.(utx_buf); utx_w := r.(utx_w); utx_r := r.(utx_r); ulsr := v; urx := r.(urx); uregs := r.(uregs) |}.
Definition set_urx (v : list Z) (r : uartst) : uartst :=
  {| utx_buf := r.(utx_buf); utx_w := r.(utx_w); utx_r := r.(utx_r); ulsr := r.(ulsr); urx := v; uregs := r.(uregs) |}.
Definition set_uregs (v : list (Z * Z)) (r : uartst) : uartst :=
  {| utx_buf := r.(utx_buf); utx_w := r.(utx_w); utx_r := r.(utx_r); ulsr := r.(ulsr); urx := r.(urx); uregs := v |}.

(** ** printf.c: [panicked] and [pr.locking] *)
Record prst : Type := mkPr {
  panicked : bool;
  prlocking : bool
}.

Definition set_panicked (v : bool) (r : prst) : prst :=
  {| panicked := v; prlocking := r.(prlocking) |}.
Definition set_prlocking (v : bool) (r : prst) : prst :=
  {| panicked := r.(panicked); prlocking := v |}.

(** ** file.h: the functions a device registers in [devsw]; the console is the only one. *)
Inductive device : Type := console_device.

(** ** virtio.h, virtio_disk.c *)

(** The addresses a descriptor can hold: a command header of [disk.ops], the data of a
    buffer, a status byte of [disk.info]. *)
Inductive dma : Type := A_null | A_ops (i : nat) | A_data (b : nat) | A_status (i : nat).

Record virtq_desc : Type := mkDesc {
  daddr : dma;
  dlen : Z;
  dflags : Z;
  dnext : Z
}.

Definition set_daddr (v : dma) (r : virtq_desc) : virtq_desc :=
  {| daddr := v; dlen := r.(dlen); dflags := r.(dflags); dnext := r.(dnext) |}.
Definition set_dlen (v : Z) (r : virtq_desc) : virtq_desc :=
  {| daddr := r.(daddr); dlen := v; dflags := r.(dflags); dnext := r.(dnext) |}.
Definition set_dflags (v : Z) (r : virtq_desc) : virtq_desc :=
  {| daddr := r.(daddr); dlen := r.(dlen); dflags := v; dnext := r.(dnext) |}.
Definition set_dnext (v : Z) (r : virtq_desc) : virtq_desc :=
  {| daddr := r.(daddr); dlen := r.(dlen); dflags := r.(dflags); dnext := v |}.

(** [struct disk].  The three pages shared with the device are given by their addresses
    and by what the driver and the device keep in them: [v_desc] the descriptors,
    [v_avail_idx] and [v_avail] the ring [disk.avail], [v_used_dev] and [v_used] the
    fields [idx] and [ring[..].id] of [disk.used].  [v_free], [v_used_idx], [v_info_b],
    [v_info_status], [v_op_type] and [v_op_sector] are the driver's own arrays.
    [v_mmio] holds the registers of the device, and [v_status_mask] the bits of the
    status register it lets the driver set. *)
Record virtst : Type := mkVirtio {
  v_desc_pa : Z;
  v_avail_pa : Z;
  v_used_pa : Z;
  v_desc : list virtq_desc;
  v_avail_idx : Z;
  v_avail : list Z;
  v_used_dev : Z;
  v_used : list Z;
  v_free : list bool;
  v_used_idx : Z;
  v_info_b : list (option nat);
  v_info_status : list Z;
  v_op_type : list Z;
  v_op_sector : list Z;
  v_mmio : gmap Z Z;
  v_status_mask : Z
}.

Definition set_v_desc_pa (v : Z) (r : virtst) : virtst :=
  {| v_desc_pa := v; v_avail_pa := r.(v_avail_pa); v_used_pa := r.(v_used_pa); v_desc := r.(v_desc); v_avail_idx := r.(v_avail_idx); v_avail := r.(v_avail); v_used_dev := r.(v_used_dev); v_used := r.(v_used); v_free := r.(v_free); v_used_idx := r.(v_used_idx); v_info_b := r.(v_info_b); v_info_status := r.(v_info_status); v_op_type := r.(v_op_type); v_op_sector := r.(v_op_sector); v_mmio := r.(v_mmio); v_status_mask := r.(v_status_mask) |}.
Definition set_v_avail_pa (v : Z) (r : virtst) : virtst :=
  {| v_desc_pa := r.(v_desc_pa); v_avail_pa := v; v_used_pa := r.(v_used_pa); v_desc := r.(v_desc); v_avail_idx := r.(v_avail_idx); v_avail := r.(v_avail); v_used_dev := r.(v_used_dev); v_used := r.(v_used); v_free := r.(v_free); v_used_idx := r.(v_used_idx); v_info_b := r.(v_info_b); v_info_status := r.(v_info_status); v_op_type := r.(v_op_type); v_op_sector := r.(v_op_sector); v_mmio := r.(v_mmio); v_status_mask := r.(v_status_mask) |}.
Definition set_v_used_pa (v : Z) (r : virtst) : virtst :=
  {| v_desc_pa := r.(v_desc_pa); v_avail_pa := r.(v_avail_pa); v_used_pa := v; v_desc := r.(v_desc); v_avail_idx := r.(v_avail_idx); v_avail := r.(v_avail); v_used_dev := r.(v_used_dev); v_used := r.(v_used); v_free := r.(v_free); v_used_idx := r.(v_used_idx); v_info_b := r.(v_info_b); v_info_status := r.(v_info_status); v_op_type := r.(v_op_type); v_op_sector := r.(v_op_sector); v_mmio := r.(v_mmio); v_status_mask := r.(v_status_mask) |}.
Definition set_v_desc (v : list virtq_desc) (r : virtst) : virtst :=
  {| v_desc_pa := r.(v_desc_pa); v_avail_pa := r.(v_avail_pa); v_used_pa := r.(v_used_pa); v_desc := v; v_avail_idx := r.(v_avail_idx); v_avail := r.(v_avail); v_used_dev := r.(v_used_dev); v_used := r.(v_used); v_free := r.(v_free); v_used_idx := r.(v_used_idx); v_info_b := r.(v_info_b); v_info_status := r.(v_info_status); v_op_type := r.(v_op_type); v_op_sector := r.(v_op_sector); v_mmio := r.(v_mmio); v_status_mask := r.(v_status_mask) |}.
Definition set_v_avail_idx (v : Z) (r : virtst) : virtst :=
  {| v_desc_pa := r.(v_desc_pa); v_avail_pa := r.(v_avail_pa); v_used_pa := r.(v_used_pa); v_desc := r.(v_desc); v_avail_idx := v; v_avail := r.(v_avail); v_used_dev := r.(v_used_dev); v_used := r.(v_used); v_free := r.(v_free); v_used_idx := r.(v_used_idx); v_info_b := r.(v_info_b); v_info_status := r.(v_info_status); v_op_type := r.(v_op_type); v_op_sector := r.(v_op_sector); v_mmio := r.(v_mmio); v_status_mask := r.(v_status_mask) |}.
Definition set_v_avail (v : list Z) (r : virtst) : virtst :=
  {| v_desc_pa := r.(v_desc_pa); v_avail_pa := r.(v_avail_pa); v_used_pa := r.(v_used_pa); v_desc := r.(v_desc); v_avail_idx := r.(v_avail_idx); v_avail := v; v_used_dev := r.(v_used_dev); v_used := r.(v_used); v_free := r.(v_free); v_used_idx := r.(v_used_idx); v_info_b := r.(v_info_b); v_info_status := r.(v_info_status); v_op_type := r.(v_op_type); v_op_sector := r.(v_op_sector); v_mmio := r.(v_mmio); v_status_mask := r.(v_status_mask) |}.
Definition set_v_used_dev (v : Z) (r : virtst) : virtst :=
  {| v_desc_pa := r.(v_desc_pa); v_avail_pa := r.(v_avail_pa); v_used_pa := r.(v_used_pa); v_desc := r.(v_desc); v_avail_idx := r.(v_avail_idx); v_avail := r.(v_avail); v_used_dev := v; v_used := r.(v_used); v_free := r.(v_free); v_used_idx := r.(v_used_idx); v_info_b := r.(v_info_b); v_info_status := r.(v_info_status); v_op_type := r.(v_op_type); v_op_sector := r.(v_op_sector); v_mmio := r.(v_mmio); v_status_mask := r.(v_status_mask) |}.
Definition set_v_used (v : list Z) (r : virtst) : virtst :=
  {| v_desc_pa := r.(v_desc_pa); v_avail_pa := r.(v_avail_pa); v_used_pa := r.(v_used_pa); v_desc := r.(v_desc); v_avail_idx := r.(v_avail_idx); v_avail := r.(v_avail); v_used_dev := r.(v_used_dev); v_used := v; v_free := r.(v_free); v_used_idx := r.(v_used_idx); v_info_b := r.(v_info_b); v_info_status := r.(v_info_status); v_op_type := r.(v_op_type); v_op_sector := r.(v_op_sector); v_mmio := r.(v_mmio); v_status_mask := r.(v_status_mask) |}.
Definition set_v_free (v : list bool) (r : virtst) : virtst :=
  {| v_desc_pa := r.(v_desc_pa); v_avail_pa := r.(v_avail_pa); v_used_pa := r.(v_used_pa); v_desc := r.(v_desc); v_avail_idx := r.(v_avail_idx); v_avail := r.(v_avail); v_used_dev := r.(v_used_dev); v_used := r.(v_used); v_free := v; v_used_idx := r.(v_used_idx); v_info_b := r.(v_info_b); v_info_status := r.(v_info_status); v_op_type := r.(v_op_type); v_op_sector := r.(v_op_sector); v_mmio := r.(v_mmio); v_status_mask := r.(v_status_mask) |}.
Definition set_v_used_idx (v : Z) (r : virtst) : virtst :=
  {| v_desc_pa := r.(v_desc_pa); v_avail_pa := r.(v_avail_pa); v_used_pa := r.(v_used_pa); v_desc := r.(v_desc); v_avail_idx := r.(v_avail_idx); v_avail := r.(v_avail); v_used_dev := r.(v_used_dev); v_used := r.(v_used); v_free := r.(v_free); v_used_idx := v; v_info_b := r.(v_info_b); v_info_status := r.(v_info_status); v_op_type := r.(v_op_type); v_op_sector := r.(v_op_sector); v_mmio := r.(v_mmio); v_status_mask := r.(v_status_mask) |}.
Definition set_v_info_b (v : list (option nat)) (r : virtst) : virtst :=
  {| v_desc_pa := r.(v_desc_pa); v_avail_pa := r.(v_avail_pa); v_used_pa := r.(v_used_pa); v_desc := r.(v_desc); v_avail_idx := r.(v_avail_idx); v_avail := r.(v_avail); v_used_dev := r.(v_used_dev); v_used := r.(v_used); v_free := r.(v_free); v_used_idx := r.(v_used_idx); v_info_b := v; v_info_status := r.(v_info_status); v_op_type := r.(v_op_type); v_op_sector := r.(v_op_sector); v_mmio := r.(v_mmio); v_status_mask := r.(v_status_mask) |}.
Definition set_v_info_status (v : list Z) (r : virtst) : virtst :=
  {| v_desc_pa := r.(v_desc_pa); v_avail_pa := r.(v_avail_pa); v_used_pa := r.(v_used_pa); v_desc := r.(v_desc); v_avail_idx := r.(v_avail_idx); v_avail := r.(v_avail); v_used_dev := r.(v_used_dev); v_used := r.(v_used); v_free := r.(v_free); v_used_idx := r.(v_used_idx); v_info_b := r.(v_info_b); v_info_status := v; v_op_type := r.(v_op_type); v_op_sector := r.(v_op_sector); v_mmio := r.(v_mmio); v_status_mask := r.(v_status_mask) |}.
Definition set_v_op_type (v : list Z) (r : virtst) : virtst :=
  {| v_desc_pa := r.(v_desc_pa); v_avail_pa := r.(v_avail_pa); v_used_pa := r.(v_used_pa); v_desc := r.(v_desc); v_avail_idx := r.(v_avail_idx); v_avail := r.(v_avail); v_used_dev := r.(v_used_dev); v_used := r.(v_used); v_free := r.(v_free); v_used_idx := r.(v_used_idx); v_info_b := r.(v_info_b); v_info_status := r.(v_info_status); v_op_type := v; v_op_sector := r.(v_op_sector); v_mmio := r.(v_mmio); v_status_mask := r.(v_status_mask) |}.
Definition set_v_op_sector (v : list Z) (r : virtst) : virtst :=
  {| v_desc_pa := r.(v_desc_pa); v_avail_pa := r.(v_avail_pa); v_used_pa := r.(v_used_pa); v_desc := r.(v_desc); v_avail_idx := r.(v_avail_idx); v_avail := r.(v_avail); v_used_dev := r.(v_used_dev); v_used := r.(v_used); v_free := r.(v_free); v_used_idx := r.(v_used_idx); v_info_b := r.(v_info_b); v_info_status := r.(v_info_status); v_op_type := r.(v_op_type); v_op_sector := v; v_mmio := r.(v_mmio); v_status_mask := r.(v_status_mask) |}.
Definition set_v_mmio (v : gmap Z Z) (r : virtst) : virtst :=
  {| v_desc_pa := r.(v_desc_pa); v_avail_pa := r.(v_avail_pa); v_used_pa := r.(v_used_pa); v_desc := r.(v_desc); v_avail_idx := r.(v_avail_idx); v_avail := r.(v_avail); v_used_dev := r.(v_used_dev); v_used := r.(v_used); v_free := r.(v_free); v_used_idx := r.(v_used_idx); v_info_b := r.(v_info_b); v_info_status := r.(v_info_status); v_op_type := r.(v_op_type); v_op_sector := r.(v_op_sector); v_mmio := v; v_status_mask := r.(v_status_mask) |}.
Definition set_v_status_mask (v : Z) (r : virtst) : virtst :=
  {| v_desc_pa := r.(v_desc_pa); v_avail_pa := r.(v_avail_pa); v_used_pa := r.(v_used_pa); v_desc := r.(v_desc); v_avail_idx := r.(v_avail_idx); v_avail := r.(v_avail); v_used_dev := r.(v_used_dev); v_used := r.(v_used); v_free := r.(v_free); v_used_idx := r.(v_used_idx); v_info_b := r.(v_info_b); v_info_status := r.(v_info_status); v_op_type := r.(v_op_type); v_op_sector := r.(v_op_sector); v_mmio := r.(v_mmio); v_status_mask := v |}.

(** ** The timer, the interrupt controller and [started] of main.c

    [rtime] is what [r_time] reads; [stimecmp] the values written to that register;
    [plic_irqs] the interrupts the PLIC will hand out, in order; [plic_regs] the writes
    to its registers. *)
Record devst : Type := mkDev {
  rtime : Z;
  stimecmp : list Z;
  plic_irqs : list Z;
  plic_regs : list (Z * Z);
  started : bool
}.

Definition set_rtime (v : Z) (r : devst) : devst :=
  {| rtime := v; stimecmp := r.(stimecmp); plic_irqs := r.(plic_irqs); plic_regs := r.(plic_regs); started := r.(started) |}.
Definition set_stimecmp (v : list Z) (r : devst) : devst :=
  {| rtime := r.(rtime); stimecmp := v; plic_irqs := r.(plic_irqs); plic_regs := r.(plic_regs); started := r.(started) |}.
Definition set_plic_irqs (v : list Z) (r : devst) : devst :=
  {| rtime := r.(rtime); stimecmp := r.(stimecmp); plic_irqs := v; plic_regs := r.(plic_regs); started := r.(started) |}.
Definition set_plic_regs (v : list (Z * Z)) (r : devst) : devst :=
  {| rtime := r.(rtime); stimecmp := r.(stimecmp); plic_irqs := r.(plic_irqs); plic_regs := v; started := r.(started) |}.
Definition set_started (v : bool) (r : devst) : devst :=
  {| rtime := r.(rtime); stimecmp := r.(stimecmp); plic_irqs := r.(plic_irqs); plic_regs := r.(plic_regs); started := v |}.

(** [k_mem] is physical memory, [k_freelist] is [kmem.freelist], [k_bufs] is
    [bcache.buf] followed by [bcache.head], and [k_out] the bytes sent to the UART
    by [uartputc_sync], oldest first;
    [k_kpgtbl] is [kernel_pagetable] and [k_first] the static variable of [forkret]. *)
Record kstate : Type := mkKstate {
  k_hart : hart;
  k_cpus : list cpu;
  k_locks : gmap lockid spinlock;
  k_slocks : gmap slid sleeplock;
  k_procs : list proc;
  k_nextpid : Z;
  k_initproc : option nat;
  k_ticks : Z;
  k_mem : mem;
  k_freelist : Z;
  k_bufs : list buf;
  k_disk : diskst;
  k_log : logst;
  k_sb : superblock;
  k_pipes : gmap Z pipe;
  k_cons : consst;
  k_uart : uartst;
  k_out : list Z;
  k_files : list file;
  k_inodes : list inode;
  k_kpgtbl : Z;
  k_first : bool;
  k_pr : prst;
  k_devsw : list (option device);
  k_virtio : virtst;
  k_dev : devst
}.

Definition set_k_hart (v : hart) (r : kstate) : kstate :=
  {| k_hart := v; k_cpus := r.(k_cpus); k_locks := r.(k_locks); k_slocks := r.(k_slocks); k_procs := r.(k_procs); k_nextpid := r.(k_nextpid); k_initproc := r.(k_initproc); k_ticks := r.(k_ticks); k_mem := r.(k_mem); k_freelist := r.(k_freelist); k_bufs := r.(k_bufs); k_disk := r.(k_disk); k_log := r.(k_log); k_sb := r.(k_sb); k_pipes := r.(k_pipes); k_cons := r.(k_cons); k_uart := r.(k_uart); k_out := r.(k_out); k_files := r.(k_files); k_inodes := r.(k_inodes); k_kpgtbl := r.(k_kpgtbl); k_first := r.(k_first); k_pr := r.(k_pr); k_devsw := r.(k_devsw); k_virtio := r.(k_virtio); k_dev := r.(k_dev) |}.
Definition set_k_cpus (v : list cpu) (r : kstate) : kstate :=
  {| k_hart := r.(k_hart); k_cpus := v; k_locks := r.(k_locks); k_slocks := r.(k_slocks); k_procs := r.(k_procs); k_nextpid := r.(k_nextpid); k_initproc := r.(k_initproc); k_ticks := r.(k_ticks); k_mem := r.(k_mem); k_freelist := r.(k_freelist); k_bufs := r.(k_bufs); k_disk := r.(k_disk); k_log := r.(k_log); k_sb := r.(k_sb); k_pipes := r.(k_pipes); k_cons := r.(k_cons); k_uart := r.(k_uart); k_out := r.(k_out); k_files := r.(k_files); k_inodes := r.(k_inodes); k_kpgtbl := r.(k_kpgtbl); k_first := r.(k_first); k_pr := r.(k_pr); k_devsw := r.(k_devsw); k_virtio := r.(k_virtio); k_dev := r.(k_dev) |}.
Definition set_k_locks (v : gmap lockid spinlock) (r : kstate) : kstate :=
  {| k_hart := r.(k_hart); k_cpus := r.(k_cpus); k_locks := v; k_slocks := r.(k_slocks); k_procs := r.(k_procs); k_nextpid := r.(k_nextpid); k_initproc := r.(k_initproc); k_ticks := r.(k_ticks); k_mem := r.(k_mem); k_freelist := r.(k_freelist); k_bufs := r.(k_bufs); k_disk := r.(k_disk); k_log := r.(k_log); k_sb := r.(k_sb); k_pipes := r.(k_pipes); k_cons := r.(k_cons); k_uart := r.(k_uart); k_out := r.(k_out); k_files := r.(k_files); k_inodes := r.(k_inodes); k_kpgtbl := r.(k_kpgtbl); k_first := r.(k_first); k_pr := r.(k_pr); k_devsw := r.(k_devsw); k_virtio := r.(k_virtio); k_dev := r.(k_dev) |}.
Definition set_k_slocks (v : gmap slid sleeplock) (r : kstate) : kstate :=
  {| k_hart := r.(k_hart); k_cpus := r.(k_cpus); k_locks := r.(k_locks); k_slocks := v; k_procs := r.(k_procs); k_nextpid := r.(k_nextpid); k_initproc := r.(k_initproc); k_ticks := r.(k_ticks); k_mem := r.(k_mem); k_freelist := r.(k_freelist); k_bufs := r.(k_bufs); k_disk := r.(k_disk); k_log := r.(k_log); k_sb := r.(k_sb); k_pipes := r.(k_pipes); k_cons := r.(k_cons); k_uart := r.(k_uart); k_out := r.(k_out); k_files := r.(k_files); k_inodes := r.(k_inodes); k_kpgtbl := r.(k_kpgtbl); k_first := r.(k_first); k_pr := r.(k_pr); k_devsw := r.(k_devsw); k_virtio := r.(k_virtio); k_dev := r.(k_dev) |}.
Definition set_k_procs (v : list proc) (r : kstate) : kstate :=
  {| k_hart := r.(k_hart); k_cpus := r.(k_cpus); k_locks := r.(k_locks); k_slocks := r.(k_slocks); k_procs := v; k_nextpid := r.(k_nextpid); k_initproc := r.(k_initproc); k_ticks := r.(k_ticks); k_mem := r.(k_mem); k_freelist := r.(k_freelist); k_bufs := r.(k_bufs); k_disk := r.(k_disk); k_log := r.(k_log); k_sb := r.(k_sb); k_pipes := r.(k_pipes); k_cons := r.(k_cons); k_uart := r.(k_uart); k_out := r.(k_out); k_files := r.(k_files); k_inodes := r.(k_inodes); k_kpgtbl := r.(k_kpgtbl); k_first := r.(k_first); k_pr := r.(k_pr); k_devsw := r.(k_devsw); k_virtio := r.(k_virtio); k_dev := r.(k_dev) |}.
Definition set_k_nextpid (v : Z) (r : kstate) : kstate :=
  {| k_hart := r.(k_hart); k_cpus := r.(k_cpus); k_locks := r.(k_locks); k_slocks := r.(k_slocks); k_procs := r.(k_procs); k_nextpid := v; k_initproc := r.(k_initproc); k_ticks := r.(k_ticks); k_mem := r.(k_mem); k_freelist := r.(k_freelist); k_bufs := r.(k_bufs); k_disk := r.(k_disk); k_log := r.(k_log); k_sb := r.(k_sb); k_pipes := r.(k_pipes); k_cons := r.(k_cons); k_uart := r.(k_uart); k_out := r.(k_out); k_files := r.(k_files); k_inodes := r.(k_inodes); k_kpgtbl := r.(k_kpgtbl); k_first := r.(k_first); k_pr := r.(k_pr); k_devsw := r.(k_devsw); k_virtio := r.(k_virtio); k_dev := r.(k_dev) |}.
Definition set_k_initproc (v : option nat) (r : kstate) : kstate :=
  {| k_hart := r.(k_hart); k_cpus := r.(k_cpus); k_locks := r.(k_locks); k_slocks := r.(k_slocks); k_procs := r.(k_procs); k_nextpid := r.(k_nextpid); k_initproc := v; k_ticks := r.(k_ticks); k_mem := r.(k_mem); k_freelist := r.(k_freelist); k_bufs := r.(k_bufs); k_disk := r.(k_disk); k_log := r.(k_log); k_sb := r.(k_sb); k_pipes := r.(k_pipes); k_cons := r.(k_cons); k_uart := r.(k_uart); k_out := r.(k_out); k_files := r.(k_files); k_inodes := r.(k_inodes); k_kpgtbl := r.(k_kpgtbl); k_first := r.(k_first); k_pr := r.(k_pr); k_devsw := r.(k_devsw); k_virtio := r.(k_virtio); k_dev := r.(k_dev) |}.
Definition set_k_ticks (v : Z) (r : kstate) : kstate :=
  {| k_hart := r.(k_hart); k_cpus := r.(k_cpus); k_locks := r.(k_locks); k_slocks := r.(k_slocks); k_procs := r.(k_procs); k_nextpid := r.(k_nextpid); k_initproc := r.(k_initproc); k_ticks := v; k_mem := r.(k_mem); k_freelist := r.(k_freelist); k_bufs := r.(k_bufs); k_disk := r.(k_disk); k_log := r.(k_log); k_sb := r.(k_sb); k_pipes := r.(k_pipes); k_cons := r.(k_cons); k_uart := r.(k_uart); k_out := r.(k_out); k_files := r.(k_files); k_inodes := r.(k_inodes); k_kpgtbl := r.(k_kpgtbl); k_first := r.(k_first); k_pr := r.(k_pr); k_devsw := r.(k_devsw); k_virtio := r.(k_virtio); k_dev := r.(k_dev) |}.
Definition set_k_mem (v : mem) (r : kstate) : kstate :=
  {| k_hart := r.(k_hart); k_cpus := r.(k_cpus); k_locks := r.(k_locks); k_slocks := r.(k_slocks); k_procs := r.(k_procs); k_nextpid := r.(k_nextpid); k_initproc := r.(k_initproc); k_ticks := r.(k_ticks); k_mem := v; k_freelist := r.(k_freelist); k_bufs := r.(k_bufs); k_disk := r.(k_disk); k_log := r.(k_log); k_sb := r.(k_sb); k_pipes := r.(k_pipes); k_cons := r.(k_cons); k_uart := r.(k_uart); k_out := r.(k_out); k_files := r.(k_files); k_inodes := r.(k_inodes); k_kpgtbl := r.(k_kpgtbl); k_first := r.(k_first); k_pr := r.(k_pr); k_devsw := r.(k_devsw); k_virtio := r.(k_virtio); k_dev := r.(k_dev) |}.
Definition set_k_freelist (v : Z) (r : kstate) : kstate :=
  {| k_hart := r.(k_hart); k_cpus := r.(k_cpus); k_locks := r.(k_locks); k_slocks := r.(k_slocks); k_procs := r.(k_procs); k_nextpid := r.(k_nextpid); k_initproc := r.(k_initproc); k_ticks := r.(k_ticks); k_mem := r.(k_mem); k_freelist := v; k_bufs := r.(k_bufs); k_disk := r.(k_disk); k_log := r.(k_log); k_sb := r.(k_sb); k_pipes := r.(k_pipes); k_cons := r.(k_cons); k_uart := r.(k_uart); k_out := r.(k_out); k_files := r.(k_files); k_inodes := r.(k_inodes); k_kpgtbl := r.(k_kpgtbl); k_first := r.(k_first); k_pr := r.(k_pr); k_devsw := r.(k_devsw); k_virtio := r.(k_virtio); k_dev := r.(k_dev) |}.
Definition set_k_bufs (v : list buf) (r : kstate) : kstate :=
  {| k_hart := r.(k_hart); k_cpus := r.(k_cpus); k_locks := r.(k_locks); k_slocks := r.(k_slocks); k_procs := r.(k_procs); k_nextpid := r.(k_nextpid); k_initproc := r.(k_initproc); k_ticks := r.(k_ticks); k_mem := r.(k_mem); k_freelist := r.(k_freelist); k_bufs := v; k_disk := r.(k_disk); k_log := r.(k_log); k_sb := r.(k_sb); k_pipes := r.(k_pipes); k_cons := r.(k_cons); k_uart := r.(k_uart); k_out := r.(k_out); k_files := r.(k_files); k_inodes := r.(k_inodes); k_kpgtbl := r.(k_kpgtbl); k_first := r.(k_first); k_pr := r.(k_pr); k_devsw := r.(k_devsw); k_virtio := r.(k_virtio); k_dev := r.(k_dev) |}.
Definition set_k_disk (v : diskst) (r : kstate) : kstate :=
  {| k_hart := r.(k_hart); k_cpus := r.(k_cpus); k_locks := r.(k_locks); k_slocks := r.(k_slocks); k_procs := r.(k_procs); k_nextpid := r.(k_nextpid); k_initproc := r.(k_initproc); k_ticks := r.(k_ticks); k_mem := r.(k_mem); k_freelist := r.(k_freelist); k_bufs := r.(k_bufs); k_disk := v; k_log := r.(k_log); k_sb := r.(k_sb); k_pipes := r.(k_pipes); k_cons := r.(k_cons); k_uart := r.(k_uart); k_out := r.(k_out); k_files := r.(k_files); k_inodes := r.(k_inodes); k_kpgtbl := r.(k_kpgtbl); k_first := r.(k_first); k_pr := r.(k_pr); k_devsw := r.(k_devsw); k_virtio := r.(k_virtio); k_dev := r.(k_dev) |}.
Definition set_k_log (v : logst) (r : kstate) : kstate :=
  {| k_hart := r.(k_hart); k_cpus := r.(k_cpus); k_locks := r.(k_locks); k_slocks := r.(k_slocks); k_procs := r.(k_procs); k_nextpid := r.(k_nextpid); k_initproc := r.(k_initproc); k_ticks := r.(k_ticks); k_mem := r.(k_mem); k_freelist := r.(k_freelist); k_bufs := r.(k_bufs); k_disk := r.(k_disk); k_log := v; k_sb := r.(k_sb); k_pipes := r.(k_pipes); k_cons := r.(k_cons); k_uart := r.(k_uart); k_out := r.(k_out); k_files := r.(k_files); k_inodes := r.(k_inodes); k_kpgtbl := r.(k_kpgtbl); k_first := r.(k_first); k_pr := r.(k_pr); k_devsw := r.(k_devsw); k_virtio := r.(k_virtio); k_dev := r.(k_dev) |}.
Definition set_k_sb (v : superblock) (r : kstate) : kstate :=
  {| k_hart := r.(k_hart); k_cpus := r.(k_cpus); k_locks := r.(k_locks); k_slocks := r.(k_slocks); k_procs := r.(k_procs); k_nextpid := r.(k_nextpid); k_initproc := r.(k_initproc); k_ticks := r.(k_ticks); k_mem := r.(k_mem); k_freelist := r.(k_freelist); k_bufs := r.(k_bufs); k_disk := r.(k_disk); k_log := r.(k_log); k_sb := v; k_pipes := r.(k_pipes); k_cons := r.(k_cons); k_uart := r.(k_uart); k_out := r.(k_out); k_files := r.(k_files); k_inodes := r.(k_inodes); k_kpgtbl := r.(k_kpgtbl); k_first := r.(k_first); k_pr := r.(k_pr); k_devsw := r.(k_devsw); k_virtio := r.(k_virtio); k_dev := r.(k_dev) |}.
Definition set_k_pipes (v : gmap Z pipe) (r : kstate) : kstate :=
  {| k_hart := r.(k_hart); k_cpus := r.(k_cpus); k_locks := r.(k_locks); k_slocks := r.(k_slocks); k_procs := r.(k_procs); k_nextpid := r.(k_nextpid); k_initproc := r.(k_initproc); k_ticks := r.(k_ticks); k_mem := r.(k_mem); k_freelist := r.(k_freelist); k_bufs := r.(k_bufs); k_disk := r.(k_disk); k_log := r.(k_log); k_sb := r.(k_sb); k_pipes := v; k_cons := r.(k_cons); k_uart := r.(k_uart); k_out := r.(k_out); k_files := r.(k_files); k_inodes := r.(k_inodes); k_kpgtbl := r.(k_kpgtbl); k_first := r.(k_first); k_pr := r.(k_pr); k_devsw := r.(k_devsw); k_virtio := r.(k_virtio); k_dev := r.(k_dev) |}.
Definition set_k_cons (v : consst) (r : kstate) : kstate :=
  {| k_hart := r.(k_hart); k_cpus := r.(k_cpus); k_locks := r.(k_locks); k_slocks := r.(k_slocks); k_procs := r.(k_procs); k_nextpid := r.(k_nextpid); k_initproc := r.(k_initproc); k_ticks := r.(k_ticks); k_mem := r.(k_mem); k_freelist := r.(k_freelist); k_bufs := r.(k_bufs); k_disk := r.(k_disk); k_log := r.(k_log); k_sb := r.(k_sb); k_pipes := r.(k_pipes); k_cons := v; k_uart := r.(k_uart); k_out := r.(k_out); k_files := r.(k_files); k_inodes := r.(k_inodes); k_kpgtbl := r.(k_kpgtbl); k_first := r.(k_first); k_pr := r.(k_pr); k_devsw := r.(k_devsw); k_virtio := r.(k_virtio); k_dev := r.(k_dev) |}.
Definition set_k_uart (v : uartst) (r : kstate) : kstate :=
  {| k_hart := r.(k_hart); k_cpus := r.(k_cpus); k_locks := r.(k_locks); k_slocks := r.(k_slocks); k_procs := r.(k_procs); k_nextpid := r.(k_nextpid); k_initproc := r.(k_initproc); k_ticks := r.(k_ticks); k_mem := r.(k_mem); k_freelist := r.(k_freelist); k_bufs := r.(k_bufs); k_disk := r.(k_disk); k_log := r.(k_log); k_sb := r.(k_sb); k_pipes := r.(k_pipes); k_cons := r.(k_cons); k_uart := v; k_out := r.(k_out); k_files := r.(k_files); k_inodes := r.(k_inodes); k_kpgtbl := r.(k_kpgtbl); k_first := r.(k_first); k_pr := r.(k_pr); k_devsw := r.(k_devsw); k_virtio := r.(k_virtio); k_dev := r.(k_dev) |}.
Definition set_k_out (v : list Z) (r : kstate) : kstate :=
  {| k_hart := r.(k_hart); k_cpus := r.(k_cpus); k_locks := r.(k_locks); k_slocks := r.(k_slocks); k_procs := r.(k_procs); k_nextpid := r.(k_nextpid); k_initproc := r.(k_initproc); k_ticks := r.(k_ticks); k_mem := r.(k_mem); k_freelist := r.(k_freelist); k_bufs := r.(k_bufs); k_disk := r.(k_disk); k_log := r.(k_log); k_sb := r.(k_sb); k_pipes := r.(k_pipes); k_cons := r.(k_cons); k_uart := r.(k_uart); k_out := v; k_files := r.(k_files); k_inodes := r.(k_inodes); k_kpgtbl := r.(k_kpgtbl); k_first := r.(k_first); k_pr := r.(k_pr); k_devsw := r.(k_devsw); k_virtio := r.(k_virtio); k_dev := r.(k_dev) |}.
Definition set_k_files (v : list file) (r : kstate) : kstate :=
  {| k_hart := r.(k_hart); k_cpus := r.(k_cpus); k_locks := r.(k_locks); k_slocks := r.(k_slocks); k_procs := r.(k_procs); k_nextpid := r.(k_nextpid); k_initproc := r.(k_initproc); k_ticks := r.(k_ticks); k_mem := r.(k_mem); k_freelist := r.(k_freelist); k_bufs := r.(k_bufs); k_disk := r.(k_disk); k_log := r.(k_log); k_sb := r.(k_sb); k_pipes := r.(k_pipes); k_cons := r.(k_cons); k_uart := r.(k_uart); k_out := r.(k_out); k_files := v; k_inodes := r.(k_inodes); k_kpgtbl := r.(k_kpgtbl); k_first := r.(k_first); k_pr := r.(k_pr); k_devsw := r.(k_devsw); k_virtio := r.(k_virtio); k_dev := r.(k_dev) |}.
Definition set_k_inodes (v : list inode) (r : kstate) : kstate :=
  {| k_hart := r.(k_hart); k_cpus := r.(k_cpus); k_locks := r.(k_locks); k_slocks := r.(k_slocks); k_procs := r.(k_procs); k_nextpid := r.(k_nextpid); k_initproc := r.(k_initproc); k_ticks := r.(k_ticks); k_mem := r.(k_mem); k_freelist := r.(k_freelist); k_bufs := r.(k_bufs); k_disk := r.(k_disk); k_log := r.(k_log); k_sb := r.(k_sb); k_pipes := r.(k_pipes); k_cons := r.(k_cons); k_uart := r.(k_uart); k_out := r.(k_out); k_files := r.(k_files); k_inodes := v; k_kpgtbl := r.(k_kpgtbl); k_first := r.(k_first); k_pr := r.(k_pr); k_devsw := r.(k_devsw); k_virtio := r.(k_virtio); k_dev := r.(k_dev) |}.
Definition set_k_kpgtbl (v : Z) (r : kstate) : kstate :=
  {| k_hart := r.(k_hart); k_cpus := r.(k_cpus); k_locks := r.(k_locks); k_slocks := r.(k_slocks); k_procs := r.(k_procs); k_nextpid := r.(k_nextpid); k_initproc := r.(k_initproc); k_ticks := r.(k_ticks); k_mem := r.(k_mem); k_freelist := r.(k_freelist); k_bufs := r.(k_bufs); k_disk := r.(k_disk); k_log := r.(k_log); k_sb := r.(k_sb); k_pipes := r.(k_pipes); k_cons := r.(k_cons); k_uart := r.(k_uart); k_out := r.(k_out); k_files := r.(k_files); k_inodes := r.(k_inodes); k_kpgtbl := v; k_first := r.(k_first); k_pr := r.(k_pr); k_devsw := r.(k_devsw); k_virtio := r.(k_virtio); k_dev := r.(k_dev) |}.
Definition set_k_first (v : bool) (r : kstate) : kstate :=
  {| k_hart := r.(k_hart); k_cpus := r.(k_cpus); k_locks := r.(k_locks); k_slocks := r.(k_slocks); k_procs := r.(k_procs); k_nextpid := r.(k_nextpid); k_initproc := r.(k_initproc); k_ticks := r.(k_ticks); k_mem := r.(k_mem); k_freelist := r.(k_freelist); k_bufs := r.(k_bufs); k_disk := r.(k_disk); k_log := r.(k_log); k_sb := r.(k_sb); k_pipes := r.(k_pipes); k_cons := r.(k_cons); k_uart := r.(k_uart); k_out := r.(k_out); k_files := r.(k_files); k_inodes := r.(k_inodes); k_kpgtbl := r.(k_kpgtbl); k_first := v; k_pr := r.(k_pr); k_devsw := r.(k_devsw); k_virtio := r.(k_virtio); k_dev := r.(k_dev) |}.
Definition set_k_pr (v : prst) (r : kstate) : kstate :=
  {| k_hart := r.(k_hart); k_cpus := r.(k_cpus); k_locks := r.(k_locks); k_slocks := r.(k_slocks); k_procs := r.(k_procs); k_nextpid := r.(k_nextpid); k_initproc := r.(k_initproc); k_ticks := r.(k_ticks); k_mem := r.(k_mem); k_freelist := r.(k_freelist); k_bufs := r.(k_bufs); k_disk := r.(k_disk); k_log := r.(k_log); k_sb := r.(k_sb); k_pipes := r.(k_pipes); k_cons := r.(k_cons); k_uart := r.(k_uart); k_out := r.(k_out); k_files := r.(k_files); k_inodes := r.(k_inodes); k_kpgtbl := r.(k_kpgtbl); k_first := r.(k_first); k_pr := v; k_devsw := r.(k_devsw); k_virtio := r.(k_virtio); k_dev := r.(k_dev) |}.
Definition set_k_devsw (v : list (option device)) (r : kstate) : kstate :=
  {| k_hart := r.(k_hart); k_cpus := r.(k_cpus); k_locks := r.(k_locks); k_slocks := r.(k_slocks); k_procs := r.(k_procs); k_nextpid := r.(k_nextpid); k_initproc := r.(k_initproc); k_ticks := r.(k_ticks); k_mem := r.(k_mem); k_freelist := r.(k_freelist); k_bufs := r.(k_bufs); k_disk := r.(k_disk); k_log := r.(k_log); k_sb := r.(k_sb); k_pipes := r.(k_pipes); k_cons := r.(k_cons); k_uart := r.(k_uart); k_out := r.(k_out); k_files := r.(k_files); k_inodes := r.(k_inodes); k_kpgtbl := r.(k_kpgtbl); k_first := r.(k_first); k_pr := r.(k_pr); k_devsw := v; k_virtio := r.(k_virtio); k_dev := r.(k_dev) |}.
Definition set_k_virtio (v : virtst) (r : kstate) : kstate :=
  {| k_hart := r.(k_hart); k_cpus := r.(k_cpus); k_locks := r.(k_locks); k_slocks := r.(k_slocks); k_procs := r.(k_procs); k_nextpid := r.(k_nextpid); k_initproc := r.(k_initproc); k_ticks := r.(k_ticks); k_mem := r.(k_mem); k_freelist := r.(k_freelist); k_bufs := r.(k_bufs); k_disk := r.(k_disk); k_log := r.(k_log); k_sb := r.(k_sb); k_pipes := r.(k_pipes); k_cons := r.(k_cons); k_uart := r.(k_uart); k_out := r.(k_out); k_files := r.(k_files); k_inodes := r.(k_inodes); k_kpgtbl := r.(k_kpgtbl); k_first := r.(k_first); k_pr := r.(k_pr); k_devsw := r.(k_devsw); k_virtio := v; k_dev := r.(k_dev) |}.
Definition set_k_dev (v : devst) (r : kstate) : kstate :=
  {| k_hart := r.(k_hart); k_cpus := r.(k_cpus); k_locks := r.(k_locks); k_slocks := r.(k_slocks); k_procs := r.(k_procs); k_nextpid := r.(k_nextpid); k_initproc := r.(k_initproc); k_ticks := r.(k_ticks); k_mem := r.(k_mem); k_freelist := r.(k_freelist); k_bufs := r.(k_bufs); k_disk := r.(k_disk); k_log := r.(k_log); k_sb := r.(k_sb); k_pipes := r.(k_pipes); k_cons := r.(k_cons); k_uart := r.(k_uart); k_out := r.(k_out); k_files := r.(k_files); k_inodes := r.(k_inodes); k_kpgtbl := r.(k_kpgtbl); k_first := r.(k_first); k_pr := r.(k_pr); k_devsw := r.(k_devsw); k_virtio := r.(k_virtio); k_dev := v |}.

(** ** The kernel monad *)

(** How a run of kernel code can end other than by returning: a panic; the hart
    spins on a lock that another hart holds, or loops for ever; a bound on the
    number of rounds of a loop of the model was too small; an access outside an object,
    to which C gives no meaning.  A process that gives up the CPU in [sched] is a
    [Yield]. *)
Inductive kstop : Type :=
| Panicked (msg : string) (s : kstate)
| Spinning
| OutOfFuel
| Fault (what : string).

Abbreviation K := (M kstop kstate).

Definition panic {A} (msg : string) : K A := fun s => Stop (Panicked msg s).
Definition spin {A} : K A := stop Spinning.
Arguments panic {A} msg%_string _.

(** ** The state in which the kernel starts: zeroed globals *)

Definition BSIZE : nat := 1024.

Definition zero_proc : proc :=
  mkProc UNUSED C_null 0 0 0 None 0 0 0 0 0 0 (replicate NOFILE None) None (replicate 16 0).
Definition zero_buf : buf := mkBuf false false 0 0 0 0 0 (replicate BSIZE 0).
Definition zero_log : logst := mkLog 0 0 0 false 0 0 (replicate (Z.to_nat LOGSIZE) 0).
Definition zero_superblock : superblock := mkSuperblock 0 0 0 0 0 0 0 0.
Definition zero_cons : consst := mkCons (replicate 128 0) 0 0 0 0.

Definition zero_file : file := mkFile FD_NONE 0 false false 0 None 0 0.
Definition zero_inode : inode := mkInode 0 0 0 false 0 0 0 0 0 (replicate 13 0).

#[export] Instance proc_inhabited : Inhabited proc := populate zero_proc.
#[export] Instance buf_inhabited : Inhabited buf := populate zero_buf.
#[export] Instance file_inhabited : Inhabited file := populate zero_file.
#[export] Instance inode_inhabited : Inhabited inode := populate zero_inode.

Definition NUM : nat := 8.
Definition zero_desc : virtq_desc := mkDesc A_null 0 0 0.
Definition zero_virtio : virtst :=
  mkVirtio 0 0 0 (replicate NUM zero_desc) 0 (replicate NUM 0) 0 (replicate NUM 0) (replicate NUM false) 0
    (replicate NUM None) (replicate NUM 0) (replicate NUM 0) (replicate NUM 0)
    {[ 0 := 0x74726976; 4 := 2; 8 := 2; 0xc := 0x554d4551; 0x34 := 1024 ]} 15.
#[export] Instance desc_inhabited : Inhabited virtq_desc := populate zero_desc.

Definition boot_state : kstate := {|
  k_hart := mkHart 0 0 0 0 0 0 0;
  k_cpus := replicate NCPU (mkCpu None 0 false);
  k_locks := ∅; k_slocks := ∅;
  k_procs := replicate NPROC zero_proc; k_nextpid := 1; k_initproc := None; k_ticks := 0;
  k_mem := ∅; k_freelist := 0;
  k_bufs := replicate (S NBUF) zero_buf;
  k_disk := mkDisk ∅ []; k_log := zero_log; k_sb := zero_superblock;
  k_pipes := ∅; k_cons := zero_cons; k_uart := mkUart (replicate 32 0) 0 0 [] [] []; k_out := [];
  k_files := replicate NFILE zero_file; k_inodes := replicate NINODE zero_inode;
  k_kpgtbl := 0; k_first := true; k_pr := mkPr false false; k_devsw := replicate (Z.to_nat NDEV) None;
  k_virtio := zero_virtio; k_dev := mkDev 0 [] [] [] false |}.
