(* ===== verification/Spinlock.v ===== *)
(** Spin-locks and interrupt nesting: [kernel/spinlock.c], the interrupt
    primitives of [kernel/riscv.h] and [cpuid]/[mycpu]/[myproc] of
    [kernel/proc.c], as operations on [kstate].

    The hart that runs the code is the one whose number is in [tp].  A lock that
    another hart holds makes [acquire] spin; when and whether it is released is
    the subject of [Module MP] below, which runs several harts against one lock
    one atomic step at a time. *)
From S2P Require Import Prelude Machine Riscv State.
From Stdlib Require Import ZArith Lia.
From stdpp Require Import base strings numbers gmap list.
Local Open Scope Z_scope.
Local Open Scope m_scope.

#[export] Instance cpu_inhabited : Inhabited cpu := populate (mkCpu None 0 false).

(** ** riscv.h: device interrupts *)

Definition r_sstatus : K Z := gets (fun s => sstatus (k_hart s)).
Definition w_sstatus (x : Z) : K unit := modify (fun s => set_k_hart (set_sstatus x (k_hart s)) s).

Definition intr_on : K unit :=
  x <- r_sstatus ;; w_sstatus (Z.lor x SSTATUS_SIE).

Definition intr_off : K unit :=
  x <- r_sstatus ;; w_sstatus (Z.land x (Z.lnot SSTATUS_SIE)).

Definition intr_get : K bool :=
  x <- r_sstatus ;; ret (has x SSTATUS_SIE).

(** ** proc.c: the current CPU *)

Definition cpuid : K nat := gets (fun s => tp (k_hart s)).

Definition mycpu : K nat := cpuid.

(** Read and update the entry of [cpus] a CPU pointer designates. *)
Definition get_cpu (c : nat) : K cpu := gets (fun s => k_cpus s !!! c).
Definition upd_cpu (c : nat) (f : cpu -> cpu) : K unit :=
  modify (fun s => set_k_cpus (alter f c (k_cpus s)) s).

(** ** spinlock.c *)

(** The lock table: a lock with no entry is free. *)
Definition lock_of (s : kstate) (l : lockid) : spinlock := default free_spinlock (k_locks s !! l).
Definition put_lock (l : lockid) (v : spinlock) (m : gmap lockid spinlock) : gmap lockid spinlock :=
  if decide (v = free_spinlock) then delete l m else <[l := v]> m.
Definition get_lock (l : lockid) : K spinlock := gets (fun s => lock_of s l).
Definition upd_lock (l : lockid) (f : spinlock -> spinlock) : K unit :=
  modify (fun s => set_k_locks (put_lock l (f (lock_of s l)) (k_locks s)) s).

Definition initlock (l : lockid) : K unit :=
  upd_lock l (set_locked false) ;;
  upd_lock l (set_lcpu None).

Definition push_off : K unit :=
  old <- intr_get ;;
  intr_off ;;
  c <- mycpu ;;
  k <- get_cpu c ;;
  when (noff k =? 0) (c' <- mycpu ;; upd_cpu c' (set_intena old)) ;;
  c' <- mycpu ;;
  upd_cpu c' (fun k => set_noff (noff k + 1) k).

Definition pop_off : K unit :=
  c <- mycpu ;;
  on <- intr_get ;;
  if (on : bool) then panic "pop_off - interruptible" else
  k <- get_cpu c ;;
  if noff k <? 1 then panic "pop_off" else
  upd_cpu c (fun k => set_noff (noff k - 1) k) ;;
  k <- get_cpu c ;;
  when ((noff k =? 0) && intena k) intr_on.

Definition holding (l : lockid) : K bool :=
  lk <- get_lock l ;;
  c <- mycpu ;;
  ret (locked lk && bool_decide (lcpu lk = Some c)).

(** The atomic swap [__sync_lock_test_and_set(&lk->locked, 1)]. *)
Definition test_and_set (l : lockid) : K bool :=
  lk <- get_lock l ;;
  upd_lock l (set_locked true) ;;
  ret (locked lk).

Definition acquire (l : lockid) : K unit :=
  push_off ;;
  h <- holding l ;;
  if (h : bool) then panic "acquire" else
  old <- test_and_set l ;;
  if (old : bool) then spin else
  c <- mycpu ;;
  upd_lock l (set_lcpu (Some c)).

Definition release (l : lockid) : K unit :=
  h <- holding l ;;
  if negb h then panic "release" else
  upd_lock l (set_lcpu None) ;;
  upd_lock l (set_locked false) ;;
  pop_off.

(** ** proc.c: the current process *)

Definition myproc : K (option nat) :=
  push_off ;;
  c <- mycpu ;;
  k <- get_cpu c ;;
  let p := cproc k in
  pop_off ;;
  ret p.

(** ** What these operations do to the state *)

Definition cur (s : kstate) : cpu := k_cpus s !!! tp (k_hart s).
Definition k_sie (s : kstate) : bool := has (sstatus (k_hart s)) SSTATUS_SIE.

(** The hart is one of the machine's, its nesting depth is not negative, and a
    positive depth means that interrupts are off. *)
Definition hart_ok (s : kstate) : Prop :=
  (tp (k_hart s) < length (k_cpus s))%nat /\ 0 <= noff (cur s) /\
  (0 < noff (cur s) -> k_sie s = false).

Definition lock_free (l : lockid) (s : kstate) : Prop := k_locks s !! l = None.
Definition lock_held (l : lockid) (s : kstate) : Prop :=
  k_locks s !! l = Some (mkSpinlock true (Some (tp (k_hart s)))).

Definition sie_off (x : Z) : Z := Z.land x (Z.lnot SSTATUS_SIE).
Definition sie_on (x : Z) : Z := Z.lor x SSTATUS_SIE.

Definition push_cpu (on : bool) (k : cpu) : cpu :=
  set_noff (noff k + 1) (if noff k =? 0 then set_intena on k else k).
Definition pushed (s : kstate) : kstate :=
  set_k_cpus (alter (push_cpu (k_sie s)) (tp (k_hart s)) (k_cpus s))
    (set_k_hart (set_sstatus (sie_off (sstatus (k_hart s))) (k_hart s)) s).
Definition popped (s : kstate) : kstate :=
  set_k_cpus (alter (fun k => set_noff (noff k - 1) k) (tp (k_hart s)) (k_cpus s))
    (set_k_hart (set_sstatus
       (if (noff (cur s) =? 1) && intena (cur s) then sie_on (sstatus (k_hart s))
        else sstatus (k_hart s)) (k_hart s)) s).

Definition acquired (l : lockid) (s : kstate) : kstate :=
  set_k_locks (<[l := mkSpinlock true (Some (tp (k_hart s)))]> (k_locks s)) (pushed s).
Definition released (l : lockid) (s : kstate) : kstate :=
  set_k_locks (delete l (k_locks s)) (popped s).

(** A complete critical section leaves one trace on the hart: an outermost one
    records in [intena] whether interrupts were enabled. *)
Definition settle (s : kstate) : kstate :=
  set_k_cpus (alter (fun k => if noff k =? 0 then set_intena (k_sie s) k else k)
    (tp (k_hart s)) (k_cpus s)) s.

(** *** Interrupt-enable bit *)

Lemma testbit_sie i : 0 <= i -> Z.testbit SSTATUS_SIE i = bool_decide (i = 1).
Proof.
  intros Hi. change SSTATUS_SIE with (2 ^ 1). case_bool_decide as E.
  - subst. done.
  - apply Z.pow2_bits_false. lia.
Qed.

Lemma has_sie_testbit x : has x SSTATUS_SIE = Z.testbit x 1.
Proof.
  unfold has. destruct (Z.testbit x 1) eqn:E.
  - apply negb_true_iff, Z.eqb_neq. intros H.
    assert (Ht : Z.testbit (Z.land x SSTATUS_SIE) 1 = false) by (rewrite H; apply Z.bits_0).
    rewrite Z.land_spec, E in Ht. done.
  - apply negb_false_iff, Z.eqb_eq. apply Z.bits_inj'. intros i Hi.
    rewrite Z.land_spec, Z.bits_0, testbit_sie by done.
    case_bool_decide; [subst; by rewrite E|by rewrite andb_false_r].
Qed.

Lemma has_sie_off x : has (sie_off x) SSTATUS_SIE = false.
Proof.
  rewrite has_sie_testbit. unfold sie_off. rewrite Z.land_spec, Z.lnot_spec by lia.
  by rewrite andb_false_r.
Qed.

Lemma has_sie_on x : has (sie_on x) SSTATUS_SIE = true.
Proof. rewrite has_sie_testbit. unfold sie_on. rewrite Z.lor_spec. by rewrite orb_true_r. Qed.

Lemma sie_off_id x : has x SSTATUS_SIE = false -> sie_off x = x.
Proof.
  rewrite has_sie_testbit. intros H. apply Z.bits_inj'. intros i Hi. unfold sie_off.
  rewrite Z.land_spec, Z.lnot_spec, testbit_sie by done.
  case_bool_decide; [subst; by rewrite H|by rewrite andb_true_r].
Qed.

Lemma sie_on_off x : has x SSTATUS_SIE = true -> sie_on (sie_off x) = x.
Proof.
  rewrite has_sie_testbit. intros H. apply Z.bits_inj'. intros i Hi. unfold sie_on, sie_off.
  rewrite Z.lor_spec, Z.land_spec, Z.lnot_spec, testbit_sie by done.
  case_bool_decide; [subst; by rewrite H|by rewrite andb_true_r, orb_false_r].
Qed.

(** *** [push_off] and [pop_off] *)

Lemma alter_ext_at (l : list cpu) i (f g : cpu -> cpu) :
  f (l !!! i) = g (l !!! i) -> alter f i l = alter g i l.
Proof.
  intros H. apply list_alter_ext; [|done].
  intros x Hx. apply list_lookup_total_correct in Hx. by subst.
Qed.

Lemma hart_ok_pushed s : hart_ok s -> hart_ok (pushed s).
Proof.
  intros (Ht & Hn & _). unfold hart_ok, cur, k_sie. simpl.
  rewrite length_alter, list_lookup_total_alter_eq by done. fold (cur s).
  split_and!; [done| |intros _; apply has_sie_off].
  unfold push_cpu. simpl. destruct (noff (cur s) =? 0); simpl; lia.
Qed.

Lemma cur_pushed s : hart_ok s -> cur (pushed s) = push_cpu (k_sie s) (cur s).
Proof. intros (Ht & _). unfold cur at 1. simpl. by rewrite list_lookup_total_alter_eq. Qed.

Lemma push_off_run s : hart_ok s -> push_off s = Ok tt (pushed s).
Proof.
  intros Hok. unfold push_off, upd_cpu, when, intr_get, intr_off, r_sstatus, w_sstatus, mycpu,
    cpuid, get_cpu, bind, gets, modify, ret. simpl. fold (k_sie s) (cur s).
  unfold pushed, push_cpu. f_equal.
  destruct (noff (cur s) =? 0) eqn:E; simpl.
  - unfold set_k_cpus at 1 3. simpl. do 2 f_equal. rewrite list_alter_alter_eq.
    apply alter_ext_at. fold (cur s). simpl. by rewrite E.
  - do 2 f_equal. apply alter_ext_at. fold (cur s). by rewrite E.
Qed.

Lemma pop_off_run s :
  hart_ok s -> 0 < noff (cur s) -> pop_off s = Ok tt (popped s).
Proof.
  intros (Ht & Hn & Hoff) Hpos. specialize (Hoff Hpos).
  unfold pop_off, upd_cpu, when, intr_get, r_sstatus, mycpu, cpuid, get_cpu, bind, gets, modify, ret.
  simpl. unfold k_sie in Hoff. rewrite Hoff. fold (cur s).
  replace (noff (cur s) <? 1) with false by (symmetry; apply Z.ltb_ge; lia). simpl.
  rewrite list_lookup_total_alter_eq by done. fold (cur s). simpl.
  unfold popped.
  replace (noff (cur s) - 1 =? 0) with (noff (cur s) =? 1) by lia.
  destruct ((noff (cur s) =? 1) && intena (cur s)); [done|].
  f_equal. unfold set_k_cpus, set_k_hart. simpl. by destruct s as [[] ??????????????].
Qed.

Lemma pop_off_pushed s : hart_ok s -> popped (pushed s) = settle s.
Proof.
  intros Hok. pose proof Hok as (Ht & Hn & Hoff). unfold popped. rewrite cur_pushed by done.
  unfold settle, pushed. simpl. unfold set_k_cpus, set_k_hart, set_sstatus. simpl. f_equal.
  - unfold push_cpu. destruct (noff (cur s) =? 0) eqn:E; simpl.
    + replace (noff (cur s) + 1 =? 1) with true by lia. simpl. unfold k_sie.
      destruct (has (sstatus (k_hart s)) SSTATUS_SIE) eqn:Es.
      * rewrite sie_on_off by done. by destruct (k_hart s).
      * rewrite sie_off_id by done. by destruct (k_hart s).
    + replace (noff (cur s) + 1 =? 1) with false by lia. simpl.
      rewrite sie_off_id by (apply Hoff; lia). by destruct (k_hart s).
  - rewrite list_alter_alter_eq. apply alter_ext_at. fold (cur s). unfold push_cpu. simpl.
    rewrite Z.add_simpl_r.
    destruct (noff (cur s) =? 0); unfold set_noff, set_intena; simpl; by destruct (cur s).
Qed.

Lemma hart_ok_popped s : hart_ok s -> 0 < noff (cur s) -> hart_ok (popped s).
Proof.
  intros (Ht & Hn & Hoff) Hpos. unfold hart_ok, cur, k_sie, popped. simpl.
  rewrite length_alter, list_lookup_total_alter_eq by done. fold (cur s). simpl.
  split_and!; [done|lia|]. intros Hgt. replace (noff (cur s) =? 1) with false by lia. simpl. by apply Hoff.
Qed.

Lemma cproc_popped s : hart_ok s -> cproc (cur (popped s)) = cproc (cur s).
Proof. intros (Ht & _). unfold cur at 1, popped. simpl. by rewrite list_lookup_total_alter_eq. Qed.

(** *** Locks *)

Lemma holding_free l s : lock_free l s -> holding l s = Ok false s.
Proof.
  intros Hf. unfold holding, get_lock, mycpu, cpuid, bind, gets, ret. simpl.
  unfold lock_of. unfold lock_free in Hf. by rewrite Hf.
Qed.

Lemma holding_held l s : lock_held l s -> holding l s = Ok true s.
Proof.
  intros Hh. unfold holding, get_lock, mycpu, cpuid, bind, gets, ret. simpl.
  unfold lock_of. unfold lock_held in Hh. rewrite Hh. simpl. by rewrite bool_decide_true.
Qed.

Lemma acquire_run l s : hart_ok s -> lock_free l s -> acquire l s = Ok tt (acquired l s).
Proof.
  intros Hok Hf. unfold acquire. rewrite (bind_ok _ _ _ _ _ (push_off_run s Hok)).
  rewrite (bind_ok _ _ _ _ _ (holding_free l (pushed s) Hf)).
  unfold test_and_set, get_lock, upd_lock, mycpu, cpuid, bind, gets, modify, ret, lock_of, put_lock.
  unfold lock_free in Hf. simpl. rewrite Hf. simpl. rewrite lookup_insert_eq. simpl.
  rewrite insert_insert_eq. done.
Qed.

Lemma release_run l s :
  hart_ok s -> 0 < noff (cur s) -> lock_held l s -> release l s = Ok tt (released l s).
Proof.
  intros Hok Hn Hh. unfold release. rewrite (bind_ok _ _ _ _ _ (holding_held l s Hh)). simpl.
  unfold upd_lock, bind, modify, lock_of, put_lock. simpl. unfold lock_held in Hh. rewrite Hh. simpl.
  rewrite lookup_insert_eq. simpl. rewrite delete_insert_eq.
  rewrite pop_off_run by done. done.
Qed.

Lemma hart_ok_acquired l s : hart_ok s -> hart_ok (acquired l s).
Proof. apply hart_ok_pushed. Qed.

Lemma noff_acquired l s : hart_ok s -> 0 < noff (cur (acquired l s)).
Proof.
  intros Hok. pose proof Hok as (_ & Hn & _). change (cur (acquired l s)) with (cur (pushed s)).
  rewrite cur_pushed by done. unfold push_cpu. simpl. lia.
Qed.

Lemma lock_held_acquired l s : lock_held l (acquired l s).
Proof. unfold lock_held. simpl. apply lookup_insert_eq. Qed.

Lemma lock_free_acquired l l' s : l <> l' -> lock_free l' s -> lock_free l' (acquired l s).
Proof. intros Hne Hf. unfold lock_free. simpl. by rewrite lookup_insert_ne. Qed.

Lemma released_acquired l s : hart_ok s -> lock_free l s -> released l (acquired l s) = settle s.
Proof.
  intros Hok Hf. unfold released, acquired. simpl. rewrite delete_insert_eq.
  unfold lock_free in Hf. rewrite delete_id by done.
  rewrite <- (pop_off_pushed s Hok). done.
Qed.

Lemma wp_acquire l Q s :
  hart_ok s -> lock_free l s -> Q tt (acquired l s) -> wp (acquire l) Q s.
Proof. intros Hok Hf HQ. eapply wp_ok; [by apply acquire_run|done]. Qed.

Lemma wp_release l Q s :
  hart_ok s -> 0 < noff (cur s) -> lock_held l s -> Q tt (released l s) -> wp (release l) Q s.
Proof. intros Hok Hn Hh HQ. eapply wp_ok; [by apply release_run|done]. Qed.

(** A lock that another hart holds makes [acquire] spin; one this hart holds
    makes it panic. *)
Lemma acquire_other l s c :
  hart_ok s -> k_locks s !! l = Some (mkSpinlock true (Some c)) -> c <> tp (k_hart s) ->
  acquire l s = Stop Spinning.
Proof.
  intros Hok Hl Hc. unfold acquire. rewrite (bind_ok _ _ _ _ _ (push_off_run s Hok)).
  unfold holding, get_lock, mycpu, cpuid, test_and_set, upd_lock, bind, gets, modify, ret, lock_of.
  simpl. rewrite Hl. simpl. rewrite bool_decide_false by congruence. simpl.
  unfold lock_of. simpl. by rewrite Hl.
Qed.

Lemma acquire_twice l s :
  hart_ok s -> lock_held l s -> acquire l s = Stop (Panicked "acquire" (pushed s)).
Proof.
  intros Hok Hh. unfold acquire. rewrite (bind_ok _ _ _ _ _ (push_off_run s Hok)).
  by rewrite (bind_ok _ _ _ _ _ (holding_held l (pushed s) Hh)).
Qed.

(** *** [settle] *)

Lemma cur_settle s :
  hart_ok s ->
  cur (settle s) = if noff (cur s) =? 0 then set_intena (k_sie s) (cur s) else cur s.
Proof. intros (Ht & _). unfold cur at 1. simpl. by rewrite list_lookup_total_alter_eq. Qed.

Lemma noff_settle s : hart_ok s -> noff (cur (settle s)) = noff (cur s).
Proof. intros Hok. rewrite cur_settle by done. by destruct (noff (cur s) =? 0). Qed.

Lemma cproc_settle s : hart_ok s -> cproc (cur (settle s)) = cproc (cur s).
Proof. intros Hok. rewrite cur_settle by done. by destruct (noff (cur s) =? 0). Qed.

Lemma hart_ok_settle s : hart_ok s -> hart_ok (settle s).
Proof.
  intros Hok. pose proof Hok as (Ht & Hn & Hoff). unfold hart_ok. rewrite noff_settle by done.
  split_and!; [|done|done]. simpl. by rewrite length_alter.
Qed.

Lemma settle_settle s : settle (settle s) = settle s.
Proof.
  unfold settle. unfold set_k_cpus at 1. simpl. rewrite list_alter_alter_eq.
  unfold set_k_cpus at 2. f_equal. apply list_alter_ext; [|done].
  intros x _. unfold k_sie. simpl. destruct (noff x =? 0) eqn:E; simpl; by rewrite E.
Qed.

Lemma settle_nested s : hart_ok s -> 0 < noff (cur s) -> settle s = s.
Proof.
  intros (Ht & _) Hn. unfold settle. rewrite (alter_ext_at _ _ _ (fun k => k)).
  - rewrite list_alter_id by done. by destruct s.
  - fold (cur s). by replace (noff (cur s) =? 0) with false by lia.
Qed.

Lemma settle_acquired l s : hart_ok s -> settle (acquired l s) = acquired l s.
Proof. intros Hok. apply settle_nested; [by apply hart_ok_acquired|by apply noff_acquired]. Qed.

Lemma myproc_run s : hart_ok s -> myproc s = Ok (cproc (cur s)) (settle s).
Proof.
  intros Hok. unfold myproc. rewrite (bind_ok _ _ _ _ _ (push_off_run s Hok)).
  unfold mycpu, cpuid, get_cpu, bind, gets. simpl.
  pose proof Hok as (Ht & Hn & _).
  rewrite pop_off_run, pop_off_pushed by
    (try done; try (by apply hart_ok_pushed); rewrite cur_pushed by done; simpl; lia).
  rewrite list_lookup_total_alter_eq by done. fold (cur s).
  unfold ret. f_equal. unfold push_cpu. by destruct (noff (cur s) =? 0).
Qed.

Lemma wp_myproc Q s : hart_ok s -> Q (cproc (cur s)) (settle s) -> wp myproc Q s.
Proof. intros Hok HQ. eapply wp_ok; [by apply myproc_run|done]. Qed.

(** *** Locks and the other parts of the state

    Lock operations commute with updates of everything that is not the hart, the
    CPUs or the lock table. *)

Lemma settle_set_slocks v s : settle (set_k_slocks v s) = set_k_slocks v (settle s).
Proof. done. Qed.
Lemma released_set_slocks l v s : released l (set_k_slocks v s) = set_k_slocks v (released l s).
Proof. done. Qed.
Lemma acquired_set_slocks l v s : acquired l (set_k_slocks v s) = set_k_slocks v (acquired l s).
Proof. done. Qed.
Lemma settle_set_procs v s : settle (set_k_procs v s) = set_k_procs v (settle s).
Proof. done. Qed.
Lemma released_set_procs l v s : released l (set_k_procs v s) = set_k_procs v (released l s).
Proof. done. Qed.
Lemma acquired_set_procs l v s : acquired l (set_k_procs v s) = set_k_procs v (acquired l s).
Proof. done. Qed.
Lemma settle_set_nextpid v s : settle (set_k_nextpid v s) = set_k_nextpid v (settle s).
Proof. done. Qed.
Lemma released_set_nextpid l v s : released l (set_k_nextpid v s) = set_k_nextpid v (released l s).
Proof. done. Qed.
Lemma acquired_set_nextpid l v s : acquired l (set_k_nextpid v s) = set_k_nextpid v (acquired l s).
Proof. done. Qed.
Lemma settle_set_initproc v s : settle (set_k_initproc v s) = set_k_initproc v (settle s).
Proof. done. Qed.
Lemma released_set_initproc l v s : released l (set_k_initproc v s) = set_k_initproc v (released l s).
Proof. done. Qed.
Lemma acquired_set_initproc l v s : acquired l (set_k_initproc v s) = set_k_initproc v (acquired l s).
Proof. done. Qed.
Lemma settle_set_ticks v s : settle (set_k_ticks v s) = set_k_ticks v (settle s).
Proof. done. Qed.
Lemma released_set_ticks l v s : released l (set_k_ticks v s) = set_k_ticks v (released l s).
Proof. done. Qed.
Lemma acquired_set_ticks l v s : acquired l (set_k_ticks v s) = set_k_ticks v (acquired l s).
Proof. done. Qed.
Lemma settle_set_mem v s : settle (set_k_mem v s) = set_k_mem v (settle s).
Proof. done. Qed.
Lemma released_set_mem l v s : released l (set_k_mem v s) = set_k_mem v (released l s).
Proof. done. Qed.
Lemma acquired_set_mem l v s : acquired l (set_k_mem v s) = set_k_mem v (acquired l s).
Proof. done. Qed.
Lemma settle_set_freelist v s : settle (set_k_freelist v s) = set_k_freelist v (settle s).
Proof. done. Qed.
Lemma released_set_freelist l v s : released l (set_k_freelist v s) = set_k_freelist v (released l s).
Proof. done. Qed.
Lemma acquired_set_freelist l v s : acquired l (set_k_freelist v s) = set_k_freelist v (acquired l s).
Proof. done. Qed.
Lemma settle_set_bufs v s : settle (set_k_bufs v s) = set_k_bufs v (settle s).
Proof. done. Qed.
Lemma released_set_bufs l v s : released l (set_k_bufs v s) = set_k_bufs v (released l s).
Proof. done. Qed.
Lemma acquired_set_bufs l v s : acquired l (set_k_bufs v s) = set_k_bufs v (acquired l s).
Proof. done. Qed.
Lemma settle_set_disk v s : settle (set_k_disk v s) = set_k_disk v (settle s).
Proof. done. Qed.
Lemma released_set_disk l v s : released l (set_k_disk v s) = set_k_disk v (released l s).
Proof. done. Qed.
Lemma acquired_set_disk l v s : acquired l (set_k_disk v s) = set_k_disk v (acquired l s).
Proof. done. Qed.
Lemma settle_set_log v s : settle (set_k_log v s) = set_k_log v (settle s).
Proof. done. Qed.
Lemma released_set_log l v s : released l (set_k_log v s) = set_k_log v (released l s).
Proof. done. Qed.
Lemma acquired_set_log l v s : acquired l (set_k_log v s) = set_k_log v (acquired l s).
Proof. done. Qed.
Lemma settle_set_sb v s : settle (set_k_sb v s) = set_k_sb v (settle s).
Proof. done. Qed.
Lemma released_set_sb l v s : released l (set_k_sb v s) = set_k_sb v (released l s).
Proof. done. Qed.
Lemma acquired_set_sb l v s : acquired l (set_k_sb v s) = set_k_sb v (acquired l s).
Proof. done. Qed.
Lemma settle_set_pipes v s : settle (set_k_pipes v s) = set_k_pipes v (settle s).
Proof. done. Qed.
Lemma released_set_pipes l v s : released l (set_k_pipes v s) = set_k_pipes v (released l s).
Proof. done. Qed.
Lemma acquired_set_pipes l v s : acquired l (set_k_pipes v s) = set_k_pipes v (acquired l s).
Proof. done. Qed.
Lemma settle_set_cons v s : settle (set_k_cons v s) = set_k_cons v (settle s).
Proof. done. Qed.
Lemma settle_set_uart v s : settle (set_k_uart v s) = set_k_uart v (settle s).
Proof. done. Qed.
Lemma settle_set_files v s : settle (set_k_files v s) = set_k_files v (settle s).
Proof. done. Qed.
Lemma settle_set_inodes v s : settle (set_k_inodes v s) = set_k_inodes v (settle s).
Proof. done. Qed.
Lemma settle_set_pr v s : settle (set_k_pr v s) = set_k_pr v (settle s).
Proof. done. Qed.
Lemma settle_set_devsw v s : settle (set_k_devsw v s) = set_k_devsw v (settle s).
Proof. done. Qed.
Lemma settle_set_virtio v s : settle (set_k_virtio v s) = set_k_virtio v (settle s).
Proof. done. Qed.
Lemma settle_set_dev v s : settle (set_k_dev v s) = set_k_dev v (settle s).
Proof. done. Qed.
Lemma settle_set_kpgtbl v s : settle (set_k_kpgtbl v s) = set_k_kpgtbl v (settle s).
Proof. done. Qed.
Lemma settle_set_first v s : settle (set_k_first v s) = set_k_first v (settle s).
Proof. done. Qed.
Lemma released_set_cons l v s : released l (set_k_cons v s) = set_k_cons v (released l s).
Proof. done. Qed.
Lemma released_set_uart l v s : released l (set_k_uart v s) = set_k_uart v (released l s).
Proof. done. Qed.
Lemma released_set_files l v s : released l (set_k_files v s) = set_k_files v (released l s).
Proof. done. Qed.
Lemma released_set_inodes l v s : released l (set_k_inodes v s) = set_k_inodes v (released l s).
Proof. done. Qed.
Lemma released_set_pr l v s : released l (set_k_pr v s) = set_k_pr v (released l s).
Proof. done. Qed.
Lemma released_set_devsw l v s : released l (set_k_devsw v s) = set_k_devsw v (released l s).
Proof. done. Qed.
Lemma released_set_virtio l v s : released l (set_k_virtio v s) = set_k_virtio v (released l s).
Proof. done. Qed.
Lemma released_set_dev l v s : released l (set_k_dev v s) = set_k_dev v (released l s).
Proof. done. Qed.
Lemma released_set_kpgtbl l v s : released l (set_k_kpgtbl v s) = set_k_kpgtbl v (released l s).
Proof. done. Qed.
Lemma released_set_first l v s : released l (set_k_first v s) = set_k_first v (released l s).
Proof. done. Qed.
Lemma acquired_set_cons l v s : acquired l (set_k_cons v s) = set_k_cons v (acquired l s).
Proof. done. Qed.
Lemma acquired_set_uart l v s : acquired l (set_k_uart v s) = set_k_uart v (acquired l s).
Proof. done. Qed.
Lemma acquired_set_files l v s : acquired l (set_k_files v s) = set_k_files v (acquired l s).
Proof. done. Qed.
Lemma acquired_set_inodes l v s : acquired l (set_k_inodes v s) = set_k_inodes v (acquired l s).
Proof. done. Qed.
Lemma acquired_set_pr l v s : acquired l (set_k_pr v s) = set_k_pr v (acquired l s).
Proof. done. Qed.
Lemma acquired_set_devsw l v s : acquired l (set_k_devsw v s) = set_k_devsw v (acquired l s).
Proof. done. Qed.
Lemma acquired_set_virtio l v s : acquired l (set_k_virtio v s) = set_k_virtio v (acquired l s).
Proof. done. Qed.
Lemma acquired_set_dev l v s : acquired l (set_k_dev v s) = set_k_dev v (acquired l s).
Proof. done. Qed.
Lemma acquired_set_kpgtbl l v s : acquired l (set_k_kpgtbl v s) = set_k_kpgtbl v (acquired l s).
Proof. done. Qed.
Lemma acquired_set_first l v s : acquired l (set_k_first v s) = set_k_first v (acquired l s).
Proof. done. Qed.
Lemma settle_set_out v s : settle (set_k_out v s) = set_k_out v (settle s).
Proof. done. Qed.
Lemma released_set_out l v s : released l (set_k_out v s) = set_k_out v (released l s).
Proof. done. Qed.
Lemma acquired_set_out l v s : acquired l (set_k_out v s) = set_k_out v (acquired l s).
Proof. done. Qed.

Create Rewrite HintDb kst.
#[export] Hint Rewrite settle_settle
  settle_set_slocks released_set_slocks acquired_set_slocks settle_set_procs
  released_set_procs acquired_set_procs settle_set_nextpid released_set_nextpid
  acquired_set_nextpid settle_set_initproc released_set_initproc acquired_set_initproc
  settle_set_ticks released_set_ticks acquired_set_ticks settle_set_mem
  released_set_mem acquired_set_mem settle_set_freelist released_set_freelist
  acquired_set_freelist settle_set_bufs released_set_bufs acquired_set_bufs
  settle_set_disk released_set_disk acquired_set_disk settle_set_log
  released_set_log acquired_set_log settle_set_sb released_set_sb
  acquired_set_sb settle_set_pipes released_set_pipes acquired_set_pipes
  settle_set_cons released_set_cons acquired_set_cons settle_set_uart released_set_uart acquired_set_uart
  settle_set_files released_set_files acquired_set_files settle_set_inodes released_set_inodes
  acquired_set_inodes settle_set_pr released_set_pr acquired_set_pr settle_set_devsw released_set_devsw acquired_set_devsw
  settle_set_virtio released_set_virtio acquired_set_virtio settle_set_dev released_set_dev acquired_set_dev
  settle_set_kpgtbl released_set_kpgtbl acquired_set_kpgtbl
  settle_set_first released_set_first acquired_set_first settle_set_out
  released_set_out acquired_set_out : kst.

(** [hart_ok], [cur], [lock_free] and [lock_held] depend on the hart, the CPUs and
    the lock table only. *)
Lemma hart_ok_set_slocks v s : hart_ok s -> hart_ok (set_k_slocks v s).
Proof. done. Qed.
Lemma lock_free_set_slocks l v s : lock_free l s -> lock_free l (set_k_slocks v s).
Proof. done. Qed.
Lemma lock_held_set_slocks l v s : lock_held l s -> lock_held l (set_k_slocks v s).
Proof. done. Qed.
Lemma cur_set_slocks v s : cur (set_k_slocks v s) = cur s.
Proof. done. Qed.
Lemma hart_ok_set_procs v s : hart_ok s -> hart_ok (set_k_procs v s).
Proof. done. Qed.
Lemma lock_free_set_procs l v s : lock_free l s -> lock_free l (set_k_procs v s).
Proof. done. Qed.
Lemma lock_held_set_procs l v s : lock_held l s -> lock_held l (set_k_procs v s).
Proof. done. Qed.
Lemma cur_set_procs v s : cur (set_k_procs v s) = cur s.
Proof. done. Qed.
Lemma hart_ok_set_nextpid v s : hart_ok s -> hart_ok (set_k_nextpid v s).
Proof. done. Qed.
Lemma lock_free_set_nextpid l v s : lock_free l s -> lock_free l (set_k_nextpid v s).
Proof. done. Qed.
Lemma lock_held_set_nextpid l v s : lock_held l s -> lock_held l (set_k_nextpid v s).
Proof. done. Qed.
Lemma cur_set_nextpid v s : cur (set_k_nextpid v s) = cur s.
Proof. done. Qed.
Lemma hart_ok_set_initproc v s : hart_ok s -> hart_ok (set_k_initproc v s).
Proof. done. Qed.
Lemma lock_free_set_initproc l v s : lock_free l s -> lock_free l (set_k_initproc v s).
Proof. done. Qed.
Lemma lock_held_set_initproc l v s : lock_held l s -> lock_held l (set_k_initproc v s).
Proof. done. Qed.
Lemma cur_set_initproc v s : cur (set_k_initproc v s) = cur s.
Proof. done. Qed.
Lemma hart_ok_set_ticks v s : hart_ok s -> hart_ok (set_k_ticks v s).
Proof. done. Qed.
Lemma lock_free_set_ticks l v s : lock_free l s -> lock_free l (set_k_ticks v s).
Proof. done. Qed.
Lemma lock_held_set_ticks l v s : lock_held l s -> lock_held l (set_k_ticks v s).
Proof. done. Qed.
Lemma cur_set_ticks v s : cur (set_k_ticks v s) = cur s.
Proof. done. Qed.
Lemma hart_ok_set_mem v s : hart_ok s -> hart_ok (set_k_mem v s).
Proof. done. Qed.
Lemma lock_free_set_mem l v s : lock_free l s -> lock_free l (set_k_mem v s).
Proof. done. Qed.
Lemma lock_held_set_mem l v s : lock_held l s -> lock_held l (set_k_mem v s).
Proof. done. Qed.
Lemma cur_set_mem v s : cur (set_k_mem v s) = cur s.
Proof. done. Qed.
Lemma hart_ok_set_freelist v s : hart_ok s -> hart_ok (set_k_freelist v s).
Proof. done. Qed.
Lemma lock_free_set_freelist l v s : lock_free l s -> lock_free l (set_k_freelist v s).
Proof. done. Qed.
Lemma lock_held_set_freelist l v s : lock_held l s -> lock_held l (set_k_freelist v s).
Proof. done. Qed.
Lemma cur_set_freelist v s : cur (set_k_freelist v s) = cur s.
Proof. done. Qed.
Lemma hart_ok_set_bufs v s : hart_ok s -> hart_ok (set_k_bufs v s).
Proof. done. Qed.
Lemma lock_free_set_bufs l v s : lock_free l s -> lock_free l (set_k_bufs v s).
Proof. done. Qed.
Lemma lock_held_set_bufs l v s : lock_held l s -> lock_held l (set_k_bufs v s).
Proof. done. Qed.
Lemma cur_set_bufs v s : cur (set_k_bufs v s) = cur s.
Proof. done. Qed.
Lemma hart_ok_set_disk v s : hart_ok s -> hart_ok (set_k_disk v s).
Proof. done. Qed.
Lemma lock_free_set_disk l v s : lock_free l s -> lock_free l (set_k_disk v s).
Proof. done. Qed.
Lemma lock_held_set_disk l v s : lock_held l s -> lock_held l (set_k_disk v s).
Proof. done. Qed.
Lemma cur_set_disk v s : cur (set_k_disk v s) = cur s.
Proof. done. Qed.
Lemma hart_ok_set_log v s : hart_ok s -> hart_ok (set_k_log v s).
Proof. done. Qed.
Lemma lock_free_set_log l v s : lock_free l s -> lock_free l (set_k_log v s).
Proof. done. Qed.
Lemma lock_held_set_log l v s : lock_held l s -> lock_held l (set_k_log v s).
Proof. done. Qed.
Lemma cur_set_log v s : cur (set_k_log v s) = cur s.
Proof. done. Qed.
Lemma hart_ok_set_sb v s : hart_ok s -> hart_ok (set_k_sb v s).
Proof. done. Qed.
Lemma lock_free_set_sb l v s : lock_free l s -> lock_free l (set_k_sb v s).
Proof. done. Qed.
Lemma lock_held_set_sb l v s : lock_held l s -> lock_held l (set_k_sb v s).
Proof. done. Qed.
Lemma cur_set_sb v s : cur (set_k_sb v s) = cur s.
Proof. done. Qed.
Lemma hart_ok_set_pipes v s : hart_ok s -> hart_ok (set_k_pipes v s).
Proof. done. Qed.
Lemma lock_free_set_pipes l v s : lock_free l s -> lock_free l (set_k_pipes v s).
Proof. done. Qed.
Lemma lock_held_set_pipes l v s : lock_held l s -> lock_held l (set_k_pipes v s).
Proof. done. Qed.
Lemma cur_set_pipes v s : cur (set_k_pipes v s) = cur s.
Proof. done. Qed.
Lemma hart_ok_set_cons v s : hart_ok s -> hart_ok (set_k_cons v s).
Proof. done. Qed.
Lemma hart_ok_set_uart v s : hart_ok s -> hart_ok (set_k_uart v s).
Proof. done. Qed.
Lemma hart_ok_set_files v s : hart_ok s -> hart_ok (set_k_files v s).
Proof. done. Qed.
Lemma hart_ok_set_inodes v s : hart_ok s -> hart_ok (set_k_inodes v s).
Proof. done. Qed.
Lemma hart_ok_set_pr v s : hart_ok s -> hart_ok (set_k_pr v s).
Proof. done. Qed.
Lemma hart_ok_set_devsw v s : hart_ok s -> hart_ok (set_k_devsw v s).
Proof. done. Qed.
Lemma hart_ok_set_virtio v s : hart_ok s -> hart_ok (set_k_virtio v s).
Proof. done. Qed.
Lemma hart_ok_set_dev v s : hart_ok s -> hart_ok (set_k_dev v s).
Proof. done. Qed.
Lemma hart_ok_set_kpgtbl v s : hart_ok s -> hart_ok (set_k_kpgtbl v s).
Proof. done. Qed.
Lemma hart_ok_set_first v s : hart_ok s -> hart_ok (set_k_first v s).
Proof. done. Qed.
Lemma lock_free_set_cons l v s : lock_free l s -> lock_free l (set_k_cons v s).
Proof. done. Qed.
Lemma lock_free_set_uart l v s : lock_free l s -> lock_free l (set_k_uart v s).
Proof. done. Qed.
Lemma lock_free_set_files l v s : lock_free l s -> lock_free l (set_k_files v s).
Proof. done. Qed.
Lemma lock_free_set_inodes l v s : lock_free l s -> lock_free l (set_k_inodes v s).
Proof. done. Qed.
Lemma lock_free_set_pr l v s : lock_free l s -> lock_free l (set_k_pr v s).
Proof. done. Qed.
Lemma lock_free_set_devsw l v s : lock_free l s -> lock_free l (set_k_devsw v s).
Proof. done. Qed.
Lemma lock_free_set_virtio l v s : lock_free l s -> lock_free l (set_k_virtio v s).
Proof. done. Qed.
Lemma lock_free_set_dev l v s : lock_free l s -> lock_free l (set_k_dev v s).
Proof. done. Qed.
Lemma lock_free_set_kpgtbl l v s : lock_free l s -> lock_free l (set_k_kpgtbl v s).
Proof. done. Qed.
Lemma lock_free_set_first l v s : lock_free l s -> lock_free l (set_k_first v s).
Proof. done. Qed.
Lemma lock_held_set_cons l v s : lock_held l s -> lock_held l (set_k_cons v s).
Proof. done. Qed.
Lemma lock_held_set_uart l v s : lock_held l s -> lock_held l (set_k_uart v s).
Proof. done. Qed.
Lemma lock_held_set_files l v s : lock_held l s -> lock_held l (set_k_files v s).
Proof. done. Qed.
Lemma lock_held_set_inodes l v s : lock_held l s -> lock_held l (set_k_inodes v s).
Proof. done. Qed.
Lemma lock_held_set_pr l v s : lock_held l s -> lock_held l (set_k_pr v s).
Proof. done. Qed.
Lemma lock_held_set_devsw l v s : lock_held l s -> lock_held l (set_k_devsw v s).
Proof. done. Qed.
Lemma lock_held_set_virtio l v s : lock_held l s -> lock_held l (set_k_virtio v s).
Proof. done. Qed.
Lemma lock_held_set_dev l v s : lock_held l s -> lock_held l (set_k_dev v s).
Proof. done. Qed.
Lemma lock_held_set_kpgtbl l v s : lock_held l s -> lock_held l (set_k_kpgtbl v s).
Proof. done. Qed.
Lemma lock_held_set_first l v s : lock_held l s -> lock_held l (set_k_first v s).
Proof. done. Qed.
Lemma cur_set_cons v s : cur (set_k_cons v s) = cur s.
Proof. done. Qed.
Lemma cur_set_uart v s : cur (set_k_uart v s) = cur s.
Proof. done. Qed.
Lemma cur_set_files v s : cur (set_k_files v s) = cur s.
Proof. done. Qed.
Lemma cur_set_inodes v s : cur (set_k_inodes v s) = cur s.
Proof. done. Qed.
Lemma cur_set_pr v s : cur (set_k_pr v s) = cur s.
Proof. done. Qed.
Lemma cur_set_devsw v s : cur (set_k_devsw v s) = cur s.
Proof. done. Qed.
Lemma cur_set_virtio v s : cur (set_k_virtio v s) = cur s.
Proof. done. Qed.
Lemma cur_set_dev v s : cur (set_k_dev v s) = cur s.
Proof. done. Qed.
Lemma cur_set_kpgtbl v s : cur (set_k_kpgtbl v s) = cur s.
Proof. done. Qed.
Lemma cur_set_first v s : cur (set_k_first v s) = cur s.
Proof. done. Qed.
Lemma hart_ok_set_out v s : hart_ok s -> hart_ok (set_k_out v s).
Proof. done. Qed.
Lemma lock_free_set_out l v s : lock_free l s -> lock_free l (set_k_out v s).
Proof. done. Qed.
Lemma lock_held_set_out l v s : lock_held l s -> lock_held l (set_k_out v s).
Proof. done. Qed.
Lemma cur_set_out v s : cur (set_k_out v s) = cur s.
Proof. done. Qed.

Ltac hart_strip :=
  match goal with
  | |- hart_ok (set_k_slocks _ _) => apply hart_ok_set_slocks
  | |- lock_free _ (set_k_slocks _ _) => apply lock_free_set_slocks
  | |- lock_held _ (set_k_slocks _ _) => apply lock_held_set_slocks
  | |- context [cur (set_k_slocks _ _)] => rewrite cur_set_slocks
  | |- hart_ok (set_k_procs _ _) => apply hart_ok_set_procs
  | |- lock_free _ (set_k_procs _ _) => apply lock_free_set_procs
  | |- lock_held _ (set_k_procs _ _) => apply lock_held_set_procs
  | |- context [cur (set_k_procs _ _)] => rewrite cur_set_procs
  | |- hart_ok (set_k_nextpid _ _) => apply hart_ok_set_nextpid
  | |- lock_free _ (set_k_nextpid _ _) => apply lock_free_set_nextpid
  | |- lock_held _ (set_k_nextpid _ _) => apply lock_held_set_nextpid
  | |- context [cur (set_k_nextpid _ _)] => rewrite cur_set_nextpid
  | |- hart_ok (set_k_initproc _ _) => apply hart_ok_set_initproc
  | |- lock_free _ (set_k_initproc _ _) => apply lock_free_set_initproc
  | |- lock_held _ (set_k_initproc _ _) => apply lock_held_set_initproc
  | |- context [cur (set_k_initproc _ _)] => rewrite cur_set_initproc
  | |- hart_ok (set_k_ticks _ _) => apply hart_ok_set_ticks
  | |- lock_free _ (set_k_ticks _ _) => apply lock_free_set_ticks
  | |- lock_held _ (set_k_ticks _ _) => apply lock_held_set_ticks
  | |- context [cur (set_k_ticks _ _)] => rewrite cur_set_ticks
  | |- hart_ok (set_k_mem _ _) => apply hart_ok_set_mem
  | |- lock_free _ (set_k_mem _ _) => apply lock_free_set_mem
  | |- lock_held _ (set_k_mem _ _) => apply lock_held_set_mem
  | |- context [cur (set_k_mem _ _)] => rewrite cur_set_mem
  | |- hart_ok (set_k_freelist _ _) => apply hart_ok_set_freelist
  | |- lock_free _ (set_k_freelist _ _) => apply lock_free_set_freelist
  | |- lock_held _ (set_k_freelist _ _) => apply lock_held_set_freelist
  | |- context [cur (set_k_freelist _ _)] => rewrite cur_set_freelist
  | |- hart_ok (set_k_bufs _ _) => apply hart_ok_set_bufs
  | |- lock_free _ (set_k_bufs _ _) => apply lock_free_set_bufs
  | |- lock_held _ (set_k_bufs _ _) => apply lock_held_set_bufs
  | |- context [cur (set_k_bufs _ _)] => rewrite cur_set_bufs
  | |- hart_ok (set_k_disk _ _) => apply hart_ok_set_disk
  | |- lock_free _ (set_k_disk _ _) => apply lock_free_set_disk
  | |- lock_held _ (set_k_disk _ _) => apply lock_held_set_disk
  | |- context [cur (set_k_disk _ _)] => rewrite cur_set_disk
  | |- hart_ok (set_k_log _ _) => apply hart_ok_set_log
  | |- lock_free _ (set_k_log _ _) => apply lock_free_set_log
  | |- lock_held _ (set_k_log _ _) => apply lock_held_set_log
  | |- context [cur (set_k_log _ _)] => rewrite cur_set_log
  | |- hart_ok (set_k_sb _ _) => apply hart_ok_set_sb
  | |- lock_free _ (set_k_sb _ _) => apply lock_free_set_sb
  | |- lock_held _ (set_k_sb _ _) => apply lock_held_set_sb
  | |- context [cur (set_k_sb _ _)] => rewrite cur_set_sb
  | |- hart_ok (set_k_pipes _ _) => apply hart_ok_set_pipes
  | |- lock_free _ (set_k_pipes _ _) => apply lock_free_set_pipes
  | |- lock_held _ (set_k_pipes _ _) => apply lock_held_set_pipes
  | |- context [cur (set_k_pipes _ _)] => rewrite cur_set_pipes
  | |- hart_ok (set_k_cons _ _) => apply hart_ok_set_cons
  | |- hart_ok (set_k_uart _ _) => apply hart_ok_set_uart
  | |- hart_ok (set_k_files _ _) => apply hart_ok_set_files
  | |- hart_ok (set_k_inodes _ _) => apply hart_ok_set_inodes
  | |- hart_ok (set_k_pr _ _) => apply hart_ok_set_pr
  | |- hart_ok (set_k_devsw _ _) => apply hart_ok_set_devsw
  | |- hart_ok (set_k_virtio _ _) => apply hart_ok_set_virtio
  | |- hart_ok (set_k_dev _ _) => apply hart_ok_set_dev
  | |- hart_ok (set_k_kpgtbl _ _) => apply hart_ok_set_kpgtbl
  | |- hart_ok (set_k_first _ _) => apply hart_ok_set_first
  | |- lock_free _ (set_k_cons _ _) => apply lock_free_set_cons
  | |- lock_free _ (set_k_uart _ _) => apply lock_free_set_uart
  | |- lock_free _ (set_k_files _ _) => apply lock_free_set_files
  | |- lock_free _ (set_k_inodes _ _) => apply lock_free_set_inodes
  | |- lock_free _ (set_k_pr _ _) => apply lock_free_set_pr
  | |- lock_free _ (set_k_devsw _ _) => apply lock_free_set_devsw
  | |- lock_free _ (set_k_virtio _ _) => apply lock_free_set_virtio
  | |- lock_free _ (set_k_dev _ _) => apply lock_free_set_dev
  | |- lock_free _ (set_k_kpgtbl _ _) => apply lock_free_set_kpgtbl
  | |- lock_free _ (set_k_first _ _) => apply lock_free_set_first
  | |- lock_held _ (set_k_cons _ _) => apply lock_held_set_cons
  | |- lock_held _ (set_k_uart _ _) => apply lock_held_set_uart
  | |- lock_held _ (set_k_files _ _) => apply lock_held_set_files
  | |- lock_held _ (set_k_inodes _ _) => apply lock_held_set_inodes
  | |- lock_held _ (set_k_pr _ _) => apply lock_held_set_pr
  | |- lock_held _ (set_k_devsw _ _) => apply lock_held_set_devsw
  | |- lock_held _ (set_k_virtio _ _) => apply lock_held_set_virtio
  | |- lock_held _ (set_k_dev _ _) => apply lock_held_set_dev
  | |- lock_held _ (set_k_kpgtbl _ _) => apply lock_held_set_kpgtbl
  | |- lock_held _ (set_k_first _ _) => apply lock_held_set_first
  | |- context [cur (set_k_cons _ _)] => rewrite cur_set_cons
  | |- context [cur (set_k_uart _ _)] => rewrite cur_set_uart
  | |- context [cur (set_k_files _ _)] => rewrite cur_set_files
  | |- context [cur (set_k_inodes _ _)] => rewrite cur_set_inodes
  | |- context [cur (set_k_pr _ _)] => rewrite cur_set_pr
  | |- context [cur (set_k_devsw _ _)] => rewrite cur_set_devsw
  | |- context [cur (set_k_virtio _ _)] => rewrite cur_set_virtio
  | |- context [cur (set_k_dev _ _)] => rewrite cur_set_dev
  | |- context [cur (set_k_kpgtbl _ _)] => rewrite cur_set_kpgtbl
  | |- context [cur (set_k_first _ _)] => rewrite cur_set_first
  | |- hart_ok (set_k_out _ _) => apply hart_ok_set_out
  | |- lock_free _ (set_k_out _ _) => apply lock_free_set_out
  | |- lock_held _ (set_k_out _ _) => apply lock_held_set_out
  | |- context [cur (set_k_out _ _)] => rewrite cur_set_out
  end.

Lemma lock_free_settle l s : lock_free l s -> lock_free l (settle s).
Proof. done. Qed.

Lemma lock_held_acquired_ne l l' s : l <> l' -> lock_held l' s -> lock_held l' (acquired l s).
Proof. intros Hne Hh. unfold lock_held. simpl. by rewrite lookup_insert_ne. Qed.

(** Proves the side conditions of the lock operations. *)
Ltac hart_tac :=
  lazymatch goal with
  | |- hart_ok (settle _) => apply hart_ok_settle; hart_tac
  | |- hart_ok (acquired _ _) => apply hart_ok_acquired; hart_tac
  | |- lock_held ?l (acquired ?l _) => apply lock_held_acquired
  | |- lock_held _ (acquired _ _) => apply lock_held_acquired_ne; [discriminate|hart_tac]
  | |- lock_free _ (settle _) => apply lock_free_settle; hart_tac
  | |- lock_free _ (acquired _ _) => apply lock_free_acquired; [discriminate|hart_tac]
  | |- 0 < noff (cur (acquired _ _)) => apply noff_acquired; hart_tac
  | |- 0 < noff (cur (settle _)) => rewrite noff_settle; hart_tac
  | |- _ => first [assumption | hart_strip; hart_tac | eauto 2]
  end.

(** ** Several harts and one lock

    Each hart calls [acquire], runs a critical section and calls [release], over
    and over.  A step is one hart executing one statement: [pc]
    says which statement of [acquire] or [release] comes next.  [push_off] and [pop_off] touch only the hart's own state.
    The two reads of [holding], of [locked] and of [cpu], are one step; a hart that reads the second later can differ only in seeing the [cpu]
    of another hart, never its own number, which no other hart writes. *)
Module MP.

Inductive pc : Type :=
| Idle            (** outside; the next statement is [push_off()] of [acquire] *)
| Acq_check       (** [if(holding(lk)) panic("acquire")] *)
| Acq_try         (** [while(__sync_lock_test_and_set(&lk->locked, 1) != 0)] *)
| Acq_cpu         (** [lk->cpu = mycpu()] *)
| Critical        (** between [acquire] and [release] *)
| Rel_check       (** [if(!holding(lk)) panic("release")] *)
| Rel_cpu         (** [lk->cpu = 0] *)
| Rel_unlock      (** [__sync_lock_release(&lk->locked)] *)
| Rel_pop         (** [pop_off()] *)
| Panic.          (** one of the panics above *)

Record mhart : Type := mkMhart { mpc : pc; mcpu : cpu; msstatus : Z }.
Record mstate : Type := mkMstate { lk : spinlock; harts : list mhart }.

Definition mholding (i : nat) (l : spinlock) : bool := locked l && bool_decide (lcpu l = Some i).

(** One statement of hart [i]. *)
Definition hstep (i : nat) (l : spinlock) (h : mhart) : spinlock * mhart :=
  let goto p := mkMhart p (mcpu h) (msstatus h) in
  match mpc h with
  | Idle => (l, mkMhart Acq_check (push_cpu (has (msstatus h) SSTATUS_SIE) (mcpu h))
                  (sie_off (msstatus h)))
  | Acq_check => (l, goto (if mholding i l then Panic else Acq_try))
  | Acq_try => (set_locked true l, goto (if locked l then Acq_try else Acq_cpu))
  | Acq_cpu => (set_lcpu (Some i) l, goto Critical)
  | Critical => (l, goto Rel_check)
  | Rel_check => (l, goto (if mholding i l then Rel_cpu else Panic))
  | Rel_cpu => (set_lcpu None l, goto Rel_unlock)
  | Rel_unlock => (set_locked false l, goto Rel_pop)
  | Rel_pop =>
      if has (msstatus h) SSTATUS_SIE then (l, goto Panic) else
      if noff (mcpu h) <? 1 then (l, goto Panic) else
      let k := set_noff (noff (mcpu h) - 1) (mcpu h) in
      (l, mkMhart Idle k (if (noff k =? 0) && intena k then sie_on (msstatus h) else msstatus h))
  | Panic => (l, h)
  end.

Inductive step (s : mstate) : mstate -> Prop :=
| step_hart i h l' h' :
    harts s !! i = Some h ->
    hstep i (lk s) h = (l', h') ->
    step s (mkMstate l' (<[i := h']> (harts s))).

(** The harts start outside the lock with any nesting depth, as [hart_ok] allows. *)
Definition hart_start (h : mhart) : Prop :=
  mpc h = Idle /\ 0 <= noff (mcpu h) /\ (0 < noff (mcpu h) -> has (msstatus h) SSTATUS_SIE = false).

Definition initial (s : mstate) : Prop := lk s = free_spinlock /\ Forall hart_start (harts s).

(** The statements between winning the swap and giving the lock up. *)
Definition owns (p : pc) : bool :=
  match p with Acq_cpu | Critical | Rel_check | Rel_cpu | Rel_unlock => true | _ => false end.
(** Those during which [lk->cpu] names the hart. *)
Definition named (p : pc) : bool :=
  match p with Critical | Rel_check | Rel_cpu => true | _ => false end.

(** What each hart keeps of its starting point [h0]: inside, interrupts are off
    and the depth is one more; outside, both are what they were. *)
Definition hart_inv (h0 h : mhart) : Prop :=
  match mpc h with
  | Panic => False
  | Idle =>
      noff (mcpu h) = noff (mcpu h0) /\ msstatus h = msstatus h0 /\
      cproc (mcpu h) = cproc (mcpu h0) /\
      (0 < noff (mcpu h0) -> intena (mcpu h) = intena (mcpu h0))
  | _ =>
      mcpu h = push_cpu (has (msstatus h0) SSTATUS_SIE) (mcpu h0) /\
      msstatus h = sie_off (msstatus h0)
  end.

Definition lock_inv (s : mstate) : Prop :=
  exists o : option nat,
    locked (lk s) = is_some o /\ (lcpu (lk s) = None \/ lcpu (lk s) = o) /\
    (forall i, o = Some i -> is_Some (harts s !! i)) /\
    (forall i h, harts s !! i = Some h ->
       (owns (mpc h) = true <-> o = Some i) /\
       (named (mpc h) = true <-> lcpu (lk s) = Some i)).

Definition inv (s0 s : mstate) : Prop :=
  Forall2 hart_inv (harts s0) (harts s) /\ lock_inv s.

Lemma push_cpu_idle b (k k0 : cpu) :
  noff k = noff k0 -> cproc k = cproc k0 -> (0 < noff k0 -> intena k = intena k0) ->
  0 <= noff k0 -> push_cpu b k = push_cpu b k0.
Proof.
  intros Hn Hc Hi H0. unfold push_cpu. rewrite Hn. unfold set_noff, set_intena.
  destruct (noff k0 =? 0) eqn:E; simpl; f_equal; [done|done|]. apply Hi. lia.
Qed.

Lemma mp_hart_inv_step i l h0 h l' h' :
  hart_start h0 -> hart_inv h0 h -> (owns (mpc h) = true -> locked l = true) ->
  (named (mpc h) = true <-> lcpu l = Some i) ->
  hstep i l h = (l', h') -> hart_inv h0 h'.
Proof.
  intros (_ & Hn0 & Hoff0) Hinv Hown Hnm Hstep. unfold hart_inv in Hinv. unfold hstep, mholding in Hstep.
  rewrite <- (bool_decide_ext _ _ Hnm) in Hstep. clear Hnm.
  destruct (mpc h) eqn:Epc; simpl in Hown, Hstep; rewrite ?andb_false_r, ?Hown in Hstep by done;
    simplify_eq/=; try (by unfold hart_inv; simpl).
  - destruct Hinv as (Hn & Hs & Hc & Hi). unfold hart_inv. simpl. rewrite Hs.
    split; [by apply push_cpu_idle|done].
  - destruct (locked l); by unfold hart_inv.
  - destruct Hinv as [Hk Hs]. rewrite Hs, has_sie_off, Hk in Hstep.
    unfold push_cpu in Hstep. simpl in Hstep.
    replace (noff (mcpu h0) + 1 <? 1) with false in Hstep by lia.
    rewrite Z.add_simpl_r in Hstep. unfold hart_inv.
    destruct (noff (mcpu h0) =? 0) eqn:E; simplify_eq/=.
    + split_and!; [lia| |done|lia].
      destruct (has (msstatus h0) SSTATUS_SIE) eqn:Es;
        [by rewrite sie_on_off|by rewrite sie_off_id].
    + split_and!; [lia| |done|done]. apply sie_off_id, Hoff0. lia.
Qed.

(** The effect of a step of hart [i] on the lock, seen by itself and by the others. *)
Lemma mp_lock_step i h s l' h' o :
  locked (lk s) = is_some o -> lcpu (lk s) = None \/ lcpu (lk s) = o ->
  (owns (mpc h) = true <-> o = Some i) ->
  (named (mpc h) = true <-> lcpu (lk s) = Some i) ->
  hstep i (lk s) h = (l', h') -> mpc h' <> Panic ->
  exists o' : option nat,
    locked l' = is_some o' /\ (lcpu l' = None \/ lcpu l' = o') /\
    (owns (mpc h') = true <-> o' = Some i) /\
    (named (mpc h') = true <-> lcpu l' = Some i) /\
    forall j, j <> i -> (o' = Some j <-> o = Some j) /\
                        (lcpu l' = Some j <-> lcpu (lk s) = Some j).
Proof.
  intros Ho Hc Hown Hnm Hstep Hnp. unfold hstep in Hstep.
  destruct (lk s) as [b c]. simpl in *. subst b.
  destruct (mpc h) eqn:Epc; simpl in Hown, Hnm;
    try pose proof (proj1 Hown eq_refl); try pose proof (proj1 Hnm eq_refl).
  - simplify_eq/=. exists o. intuition congruence.
  - simplify_eq/=. destruct (mholding i (mkSpinlock (is_some o) c)); [done|].
    exists o. simpl. intuition congruence.
  - simplify_eq/=. destruct o as [k|]; simpl in *; [exists (Some k)|exists (Some i)];
      simpl; intuition congruence.
  - simplify_eq/=. exists (Some i). assert (c = None) as -> by intuition congruence.
    simpl. intuition congruence.
  - simplify_eq/=. exists (Some i). simpl. intuition congruence.
  - simplify_eq/=. unfold mholding. simpl. rewrite bool_decide_true by done.
    exists (Some i). simpl. intuition congruence.
  - simplify_eq/=. exists (Some i). simpl. intuition congruence.
  - simplify_eq/=. exists None. assert (c = None) as -> by intuition congruence.
    simpl. intuition congruence.
  - exists o. destruct (has _ _); [by simplify_eq|]. destruct (_ <? 1); [by simplify_eq|].
    simplify_eq/=. intuition congruence.
  - by simplify_eq.
Qed.

Lemma mp_inv_step s0 s s' : Forall hart_start (harts s0) -> inv s0 s -> step s s' -> inv s0 s'.
Proof.
  intros Hstart [Hh (o & Ho & Hc & Hr & Hall)] Hstep. inversion Hstep as [i h l' h' Hi Hs]; subst.
  destruct (Forall2_lookup_r _ _ _ _ _ Hh Hi) as (h0 & Hh0 & Hinv).
  destruct (Hall i h Hi) as [Hown Hnm].
  assert (Hinv' : hart_inv h0 h').
  { eapply (mp_hart_inv_step i (lk s)); [|done| |done|done].
    - by eapply Forall_lookup_1.
    - intros Hw. rewrite Ho, (proj1 Hown Hw). done. }
  split; simpl.
  - rewrite <- (list_insert_id (harts s0) i h0) by done. by apply Forall2_insert.
  - destruct (mp_lock_step i h s l' h' o Ho Hc Hown Hnm Hs) as (o' & H1 & H2 & H3 & H4 & H5).
    { intros Hp. unfold hart_inv in Hinv'. by rewrite Hp in Hinv'. }
    exists o'. split_and!; [done|done| |].
    { intros j Hj. simpl. destruct (decide (j = i)) as [->|Hne].
      - rewrite list_lookup_insert_eq by (by eapply lookup_lt_Some). eauto.
      - rewrite list_lookup_insert_ne by done. by apply Hr, (H5 j Hne). }
    intros j hj. simpl. rewrite list_lookup_insert.
    case_decide as E; [destruct E as [-> _]; intros; by simplify_eq|].
    intros Hj. assert (Hne : j <> i) by (intros ->; apply E; split; [done|by eapply lookup_lt_Some]).
    destruct (H5 j Hne) as [-> ->]. by apply Hall.
Qed.

Lemma mp_inv_initial s0 : initial s0 -> inv s0 s0.
Proof.
  intros [Hl Hh]. split.
  - apply Forall2_same_length_lookup. split; [done|]. intros i x y Hx Hy.
    assert (x = y) as -> by congruence. rewrite Forall_lookup in Hh. destruct (Hh i y Hy) as (Hp & _).
    unfold hart_inv. by rewrite Hp.
  - exists None. rewrite Hl. split_and!; [done|by left|done|]. intros i h Hi.
    rewrite Forall_lookup in Hh. destruct (Hh i h Hi) as (Hp & _). by rewrite Hp.
Qed.

Lemma mp_inv_reachable s0 s : initial s0 -> rtc step s0 s -> inv s0 s.
Proof.
  intros Hi Hr. assert (Hstart : Forall hart_start (harts s0)) by apply Hi.
  revert Hr. apply (rtc_ind_r (fun s => inv s0 s)); [by apply mp_inv_initial|].
  intros s1 s2 _ Hs IH. by eapply mp_inv_step.
Qed.

(** C12: mutual exclusion and interrupt discipline of [acquire]/[release].  However
    the statements of any number of harts interleave, at most one hart is between
    winning the swap in [acquire] and unlocking in [release]; the lock word is set
    exactly when some hart is there; no hart ever takes one of the panics of
    [acquire], [release] or [pop_off]; a hart inside has interrupts off, and a
    hart back outside has the nesting depth and the status register (hence the
    interrupt-enable bit) it started with. *)
Theorem spinlock_mutual_exclusion s0 s :
  initial s0 -> rtc step s0 s ->
  (forall i j hi hj, harts s !! i = Some hi -> harts s !! j = Some hj ->
     owns (mpc hi) = true -> owns (mpc hj) = true -> i = j) /\
  (locked (lk s) = true <-> exists i h, harts s !! i = Some h /\ owns (mpc h) = true) /\
  (forall i h, harts s !! i = Some h ->
     exists h0, harts s0 !! i = Some h0 /\ mpc h <> Panic /\
       (mpc h <> Idle -> has (msstatus h) SSTATUS_SIE = false) /\
       (mpc h = Idle -> noff (mcpu h) = noff (mcpu h0) /\ msstatus h = msstatus h0)).
Proof.
  intros Hi Hreach. destruct (mp_inv_reachable s0 s Hi Hreach) as [Hh (o & Ho & Hc & Hr & Hall)].
  split_and!.
  - intros i j hi hj Hi' Hj' Hoi Hoj. apply Hall in Hi' as [[Hi' _] _], Hj' as [[Hj' _] _].
    specialize (Hi' Hoi). specialize (Hj' Hoj). congruence.
  - rewrite Ho. split.
    + destruct o as [i|]; [|done]. intros _. destruct (Hr i eq_refl) as [h Hh'].
      exists i, h. split; [done|]. by apply (Hall i h Hh').
    + intros (i & h & Hh' & Hw). by rewrite (proj1 (proj1 (Hall i h Hh')) Hw).
  - intros i h Hh'. destruct (Forall2_lookup_r _ _ _ _ _ Hh Hh') as (h0 & Hh0 & Hinv).
    exists h0. unfold hart_inv in Hinv. split; [done|].
    destruct (mpc h); try done; split_and!; try done; try (by destruct Hinv as (? & ? & _)).
    all: intros _; destruct Hinv as [_ ->]; apply has_sie_off.
Qed.

Definition two_harts : mstate :=
  mkMstate free_spinlock [mkMhart Idle (mkCpu None 0 false) 2; mkMhart Idle (mkCpu None 1 true) 0].

Lemma spinlock_mutual_exclusion_witness :
  let h0 := mkMhart Acq_check (mkCpu None 1 true) 0 in
  let h1 := mkMhart Idle (mkCpu None 1 true) 0 in
  has (msstatus h0) SSTATUS_SIE = false /\ msstatus h1 = 0.
Proof.
  assert (Hi : initial two_harts).
  { split; [done|]. repeat constructor; simpl; try lia; try done. }
  assert (Hs : rtc step two_harts
    (mkMstate free_spinlock [mkMhart Acq_check (mkCpu None 1 true) 0; mkMhart Idle (mkCpu None 1 true) 0])).
  { eapply rtc_l; [|apply rtc_refl]. by apply (step_hart two_harts 0 (mkMhart Idle (mkCpu None 0 false) 2)). }
  destruct (spinlock_mutual_exclusion _ _ Hi Hs) as (_ & _ & H).
  split.
  - destruct (H 0%nat _ eq_refl) as (h0 & _ & _ & Hoff & _). by apply Hoff.
  - destruct (H 1%nat _ eq_refl) as (h1 & Hh1 & _ & _ & Hidle). destruct (Hidle eq_refl) as [_ Heq].
    rewrite Heq. by injection Hh1 as <-.
Defined.
End MP.

Lemma boot_hart_ok : hart_ok boot_state.
Proof. split_and!; [apply Nat.ltb_lt; reflexivity|reflexivity|]. done. Qed.
