(* ===== verification/KString.v ===== *)
(** [kernel/string.c]: block and string operations.

    [memset] and [memmove] work on physical memory.  The string functions are
    called on char arrays of known size; a [char*] is the list of bytes from the
    pointer to the end of its array, and reading past the end is [None].  The
    ones that write return the bytes they store from the destination pointer on.
    (gcc's [char] is unsigned on RISC-V.) *)
From S2P Require Import Prelude Machine Riscv State Spinlock.
From Stdlib Require Import ZArith Lia.
From stdpp Require Import base strings numbers gmap list.
Local Open Scope Z_scope.
Local Open Scope m_scope.

(** ** Memory *)

Definition get_byte (a : Z) : K Z := gets (fun s => ld8 (k_mem s) a).
Definition set_byte (a v : Z) : K unit := modify (fun s => set_k_mem (<[a := v]> (k_mem s)) s).

Definition memset (dst c : Z) (n : nat) : K unit :=
  for_each (zrange 0 n) (fun i => set_byte (dst + i) (u8 c)).

(** [*d++ = *s++], [n] times. *)
Fixpoint copy_up (d s : Z) (n : nat) : K unit :=
  match n with
  | O => ret tt
  | S n' => b <- get_byte s ;; set_byte d b ;; copy_up (d + 1) (s + 1) n'
  end.

(** [*--d = *--s], [n] times. *)
Fixpoint copy_down (d s : Z) (n : nat) : K unit :=
  match n with
  | O => ret tt
  | S n' => b <- get_byte (s - 1) ;; set_byte (d - 1) b ;; copy_down (d - 1) (s - 1) n'
  end.

Definition memmove (dst src : Z) (n : nat) : K unit :=
  if (n =? 0)%nat then ret tt else
  if (src <? dst) && (dst <? src + Z.of_nat n)
  then copy_down (dst + Z.of_nat n) (src + Z.of_nat n) n
  else copy_up dst src n.

Definition memcpy (dst src : Z) (n : nat) : K unit := memmove dst src n.

(** ** Byte arrays *)

Fixpoint memcmp (v1 v2 : list Z) (n : nat) {struct n} : option Z :=
  match n with
  | O => Some 0
  | S n' =>
      match v1, v2 with
      | a :: v1', b :: v2' => if negb (a =? b) then Some (a - b) else memcmp v1' v2' n'
      | _, _ => None
      end
  end.

Fixpoint strncmp (p q : list Z) (n : nat) {struct n} : option Z :=
  match n with
  | O => Some 0
  | S n' =>
      match p, q with
      | a :: p', b :: q' => if negb (a =? 0) && (a =? b) then strncmp p' q' n' else Some (a - b)
      | _, _ => None
      end
  end.

Fixpoint strncpy (t : list Z) (n : nat) {struct n} : option (list Z) :=
  match n with
  | O => Some []
  | S n' =>
      match t with
      | [] => None
      | c :: t' => if c =? 0 then Some (c :: replicate n' 0) else cons c <$> strncpy t' n'
      end
  end.

(** The loop [while(--n > 0 && ( *s++ = *t++ ) != 0)] with [k = n - 1] rounds left,
    and the final [*s = 0]. *)
Fixpoint safestrcpy_loop (t : list Z) (k : nat) {struct k} : option (list Z) :=
  match k with
  | O => Some [0]
  | S k' =>
      match t with
      | [] => None
      | c :: t' => if c =? 0 then Some [c; 0] else cons c <$> safestrcpy_loop t' k'
      end
  end.

Definition safestrcpy (t : list Z) (n : Z) : option (list Z) :=
  if n <=? 0 then Some [] else safestrcpy_loop t (Z.to_nat (n - 1)).

Fixpoint strlen (s : list Z) : option nat :=
  match s with
  | [] => None
  | c :: s' => if c =? 0 then Some O else S <$> strlen s'
  end.

(** The C string an array holds: the bytes before the first NUL. *)
Fixpoint cstr (s : list Z) : list Z :=
  match s with
  | [] => []
  | c :: s' => if c =? 0 then [] else c :: cstr s'
  end.

(** An array that holds [s] and a NUL. *)
Definition c_string (s : string) : list Z := s2b s ++ [0].

(** ** Proofs: memory *)

Lemma memset_run dst c n s :
  memset dst c n s = Ok tt (set_k_mem (st_bytes (k_mem s) dst (replicate n (u8 c))) s).
Proof.
  unfold memset.
  cut (forall o s, for_each (zrange o n) (fun i => set_byte (dst + i) (u8 c)) s =
         Ok tt (set_k_mem (st_bytes (k_mem s) (dst + o) (replicate n (u8 c))) s)).
  { intros H. rewrite H. by rewrite Z.add_0_r. }
  clear s. induction n as [|n IH]; intros o s.
  - simpl. unfold ret. f_equal. by destruct s.
  - rewrite zrange_S. simpl. unfold bind, set_byte, modify. cbn [after]. rewrite IH.
    unfold set_k_mem. simpl. by rewrite Z.add_assoc.
Qed.

Lemma copy_up_run d src n s :
  d <= src \/ src + Z.of_nat n <= d ->
  copy_up d src n s = Ok tt (set_k_mem (st_bytes (k_mem s) d (ld_bytes (k_mem s) src n)) s).
Proof.
  revert d src s. induction n as [|n IH]; intros d src s H; simpl.
  - unfold ret. f_equal. by destruct s.
  - unfold bind, get_byte, set_byte, gets, modify. cbn [after]. rewrite IH by lia.
    f_equal. unfold set_k_mem. simpl. f_equal. f_equal.
    apply ld_bytes_ext. intros x Hx. rewrite ld8_insert. by rewrite decide_False by lia.
Qed.

Lemma st_bytes_snoc m a bs b :
  st_bytes m a (bs ++ [b]) = st_bytes (<[a + Z.of_nat (length bs) := b]> m) a bs.
Proof.
  revert m a. induction bs as [|b' bs IH]; intros m a; simpl.
  - by rewrite Z.add_0_r.
  - rewrite IH. rewrite insert_insert_ne by lia. by replace (a + 1 + Z.of_nat (length bs)) with (a + Z.of_nat (S (length bs))) by lia.
Qed.

Lemma copy_down_run d src n s :
  src <= d ->
  copy_down (d + Z.of_nat n) (src + Z.of_nat n) n s =
  Ok tt (set_k_mem (st_bytes (k_mem s) d (ld_bytes (k_mem s) src n)) s).
Proof.
  revert s. induction n as [|n IH]; intros s H; simpl copy_down.
  - unfold ret. f_equal. by destruct s.
  - unfold bind, get_byte, set_byte, gets, modify. cbn [after].
    replace (d + Z.of_nat (S n) - 1) with (d + Z.of_nat n) by lia.
    replace (src + Z.of_nat (S n) - 1) with (src + Z.of_nat n) by lia.
    rewrite IH by done. rewrite ld_bytes_snoc, st_bytes_snoc, length_ld_bytes.
    unfold set_k_mem. simpl. do 3 f_equal. apply ld_bytes_ext. intros x Hx. rewrite ld8_insert. by rewrite decide_False by lia.
Qed.

Lemma memmove_run dst src n s :
  memmove dst src n s = Ok tt (set_k_mem (st_bytes (k_mem s) dst (ld_bytes (k_mem s) src n)) s).
Proof.
  unfold memmove. destruct n as [|n]; [simpl; unfold ret; f_equal; by destruct s|].
  simpl Nat.eqb. destruct ((src <? dst) && (dst <? src + Z.of_nat (S n))) eqn:E.
  - apply andb_true_iff in E as [E1 E2]. apply Z.ltb_lt in E1. apply copy_down_run. lia.
  - apply copy_up_run. apply andb_false_iff in E as [E|E]; apply Z.ltb_ge in E; lia.
Qed.

(** [memmove] copies as if through a temporary buffer, whatever the overlap
    of the two regions: it returns, the destination receives the [n] bytes the
    source held before the call, and nothing else changes. *)
Theorem memmove_correct dst src n s :
  exists m', memmove dst src n s = Ok tt (set_k_mem m' s) /\
    (forall i, 0 <= i < Z.of_nat n -> ld8 m' (dst + i) = ld8 (k_mem s) (src + i)) /\
    (forall x, x < dst \/ dst + Z.of_nat n <= x -> ld8 m' x = ld8 (k_mem s) x).
Proof.
  eexists. split; [apply memmove_run|]. split.
  - intros i Hi. rewrite <- (Z2Nat.id i) by lia. apply ld8_st_inside.
    by rewrite ld_bytes_lookup by lia.
  - intros x Hx. apply ld8_st_outside. by rewrite length_ld_bytes.
Qed.

Lemma wp_memset dst c n Q s :
  Q tt (set_k_mem (st_bytes (k_mem s) dst (replicate n (u8 c))) s) -> wp (memset dst c n) Q s.
Proof. intros H. eapply wp_ok; [apply memset_run|done]. Qed.

Lemma wp_memmove dst src n Q s :
  Q tt (set_k_mem (st_bytes (k_mem s) dst (ld_bytes (k_mem s) src n)) s) ->
  wp (memmove dst src n) Q s.
Proof. intros H. eapply wp_ok; [apply memmove_run|done]. Qed.

(** ** Proofs: strings *)

Lemma cstr_nonzero s : Forall (fun c => c <> 0) (cstr s).
Proof. induction s as [|c s IH]; simpl; [done|]. destruct (Z.eqb_spec c 0); by constructor. Qed.

Lemma cstr_app_nul s t : Forall (fun c => c <> 0) s -> cstr (s ++ 0 :: t) = s.
Proof.
  induction 1 as [|c s Hc _ IH]; simpl; [done|]. destruct (Z.eqb_spec c 0); [done|]. by rewrite IH.
Qed.

Lemma cstr_id s : Forall (fun c => c <> 0) s -> cstr s = s.
Proof.
  induction 1 as [|c s Hc _ IH]; simpl; [done|]. destruct (Z.eqb_spec c 0); [done|]. by rewrite IH.
Qed.

Lemma cstr_take n s : cstr (take n s) = take n (cstr s).
Proof.
  revert s. induction n as [|n IH]; intros [|c s]; simpl; [done|done|done|].
  destruct (c =? 0); [done|]. simpl. by rewrite IH.
Qed.

Lemma strlen_spec s n : strlen s = Some n <-> length (cstr s) = n /\ s !! n = Some 0.
Proof.
  revert n. induction s as [|c s IH]; intros n; simpl; [naive_solver|].
  destruct (Z.eqb_spec c 0) as [->|Hc].
  - split; [intros; by simplify_eq|]. simpl. by intros [<- _].
  - destruct n as [|n]; simpl.
    + split; [destruct (strlen s); by intros|]. by intros [].
    + specialize (IH n). destruct (strlen s) as [k|]; simpl; naive_solver.
Qed.

(** Out-of-bounds reads do not happen when both arrays hold [n] bytes. *)
Lemma strncmp_in_bounds p q n :
  (n <= length p)%nat -> (n <= length q)%nat -> is_Some (strncmp p q n).
Proof.
  revert p q. induction n as [|n IH]; intros [|a p] [|b q] Hp Hq; simpl in *; try lia; eauto.
  destruct (negb (a =? 0) && (a =? b)); [apply IH; lia|eauto].
Qed.

(** [strncmp] (hence [namecmp]) returns 0 exactly when the two arrays hold the
    same string up to [n] bytes, so names that fill a directory entry without a
    terminating NUL compare correctly; it never reads past [n] bytes. *)
Theorem strncmp_zero_iff p q n r :
  strncmp p q n = Some r ->
  (r = 0 <-> take n (cstr p) = take n (cstr q)).
Proof.
  revert p q. induction n as [|n IH]; intros [|a p] [|b q] H; simpl in *; simplify_eq; try done.
  destruct (Z.eqb_spec a 0) as [->|Ha]; simpl in H.
  - simplify_eq. destruct (Z.eqb_spec b 0); [subst; done|]. simpl. split; [lia|done].
  - destruct (Z.eqb_spec a b) as [->|Hab].
    + apply IH in H. rewrite H. destruct (Z.eqb_spec b 0); [done|]. simpl. split; congruence.
    + simplify_eq. destruct (Z.eqb_spec b 0); simpl; split; intros; try lia; congruence.
Qed.

Lemma strncmp_zero_iff_witness :
  strncmp (s2b "README") (s2b "READER") 4 = Some 0 /\
  take 4 (cstr (s2b "README")) = take 4 (cstr (s2b "READER")).
Proof. split; [done|]. by apply (strncmp_zero_iff (s2b "README") (s2b "READER") 4 0). Defined.

Lemma strncpy_length t n bs : strncpy t n = Some bs -> length bs = n.
Proof.
  revert t bs. induction n as [|n IH]; intros [|c t] bs H; simpl in *; simplify_eq; try done.
  destruct (c =? 0); simplify_eq/=; [by rewrite length_replicate|].
  destruct (strncpy t n) as [bs'|] eqn:E; simplify_eq/=. by rewrite (IH t bs').
Qed.

Lemma cstr_replicate n : cstr (replicate n 0) = [].
Proof. by destruct n. Qed.

(** [strncpy] stores the string cut to [n] bytes, padded with NULs to exactly [n]. *)
Lemma strncpy_cstr t n bs : strncpy t n = Some bs -> cstr bs = take n (cstr t).
Proof.
  revert t bs. induction n as [|n IH]; intros [|c t] bs H; simpl in *; simplify_eq; try done.
  destruct (c =? 0) eqn:Ec; simplify_eq/=; [by rewrite Ec|].
  destruct (strncpy t n) as [bs'|] eqn:E; simplify_eq/=. rewrite Ec. by rewrite (IH t bs').
Qed.

Lemma strncpy_in_bounds t n : is_Some (strlen t) \/ (n <= length t)%nat -> is_Some (strncpy t n).
Proof.
  revert t. induction n as [|n IH]; intros t H; simpl; [eauto|].
  destruct t as [|c t]; simpl in *.
  - destruct H as [[? ?]|?]; [done|lia].
  - destruct (c =? 0); [eauto|]. apply fmap_is_Some, IH.
    destruct H as [[k Hk]|H]; [left|right; lia]. destruct (strlen t); eauto.
Qed.

Lemma safestrcpy_loop_spec t k bs :
  safestrcpy_loop t k = Some bs ->
  (length bs <= S k)%nat /\ cstr bs = take k (cstr t) /\ exists pre, bs = pre ++ [0].
Proof.
  revert t bs. induction k as [|k IH]; intros t bs H; simpl in *; simplify_eq.
  - split_and!; [done|done|]. by exists [].
  - destruct t as [|c t]; [done|]. destruct (Z.eqb_spec c 0) as [->|Hc]; simplify_eq/=.
    + split_and!; [lia|done|]. by exists [0].
    + destruct (safestrcpy_loop t k) as [bs'|] eqn:E; simplify_eq/=.
      destruct (IH t bs' E) as (Hl & Hs & pre & ->). split_and!; [lia| |].
      * destruct (Z.eqb_spec c 0); [done|]. simpl. by rewrite Hs.
      * by exists (c :: pre).
Qed.

(** [safestrcpy], as its comment promises, always NUL-terminates: with room
    for [n > 0] bytes and a terminated source it returns, stores at most [n]
    bytes, the last of them NUL, and the stored string is the source cut to
    [n - 1] bytes. *)
Theorem safestrcpy_terminates t n :
  0 < n -> is_Some (strlen t) ->
  exists bs, safestrcpy t n = Some bs /\ Z.of_nat (length bs) <= n /\
    (exists pre, bs = pre ++ [0]) /\ cstr bs = take (Z.to_nat (n - 1)) (cstr t).
Proof.
  intros Hn Ht. unfold safestrcpy. destruct (Z.leb_spec n 0); [lia|].
  assert (Hsome : forall k t', is_Some (strlen t') -> is_Some (safestrcpy_loop t' k)).
  { clear. intros k. induction k as [|k IH]; intros t' [j Hj]; simpl; [eauto|].
    destruct t' as [|c t']; [done|]. simpl in Hj. destruct (c =? 0); [eauto|].
    apply fmap_is_Some, IH. destruct (strlen t'); eauto. }
  destruct (Hsome (Z.to_nat (n - 1)) t Ht) as [bs Hbs]. exists bs. split; [done|].
  destruct (safestrcpy_loop_spec _ _ _ Hbs) as (Hl & Hs & Hpre).
  split_and!; [lia|done|done].
Qed.

Lemma safestrcpy_terminates_witness :
  exists bs, safestrcpy (c_string "initcode-long-name") 16 = Some bs /\
    Z.of_nat (length bs) <= 16 /\ (exists pre, bs = pre ++ [0]) /\
    cstr bs = take 15 (cstr (c_string "initcode-long-name")).
Proof. apply (safestrcpy_terminates (c_string "initcode-long-name") 16); [lia|by eexists]. Defined.
