(* ===== verification/Kalloc.v ===== *)
(** The physical page allocator, [kernel/kalloc.c].

    The free pages form a linked list threaded through the pages themselves: the
    first eight bytes of a free page hold the address of the next one.
    [is_freelist] relates that list in memory to a list of page addresses, and
    [kmem_inv] is the invariant of the allocator.  The class [PageAllocator] is what
    the allocator promises its callers in terms of a set of free pages; [kalloc]
    and [kfree] are an instance, and [Client] is an arbitrary user of the interface. *)
From S2P Require Import Prelude Machine Riscv State Spinlock KString.
From Stdlib Require Import ZArith Lia.
From stdpp Require Import base strings numbers gmap list.
Local Open Scope Z_scope.
Local Open Scope m_scope.

Section kalloc.
Context `{Layout}.

Definition get64 (a : Z) : K Z := gets (fun s => ld64 (k_mem s) a).
Definition set64 (a v : Z) : K unit := modify (fun s => set_k_mem (st64 (k_mem s) a v) s).
Definition get_freelist : K Z := gets k_freelist.
Definition put_freelist (r : Z) : K unit := modify (set_k_freelist r).

Definition kfree (pa : Z) : K unit :=
  if negb (pa mod PGSIZE =? 0) || (pa <? kend) || (PHYSTOP <=? pa) then panic "kfree" else
  memset pa 1 PGSIZE_nat ;;
  let r := pa in
  acquire L_kmem ;;
  fl <- get_freelist ;;
  set64 r fl ;;
  put_freelist r ;;
  release L_kmem.

Definition kalloc : K Z :=
  acquire L_kmem ;;
  r <- get_freelist ;;
  when (negb (r =? 0)) (next <- get64 r ;; put_freelist next) ;;
  release L_kmem ;;
  when (negb (r =? 0)) (memset r 5 PGSIZE_nat) ;;
  ret r.

(** The loop [for(; p + PGSIZE <= (char* )pa_end; p += PGSIZE)]; each round moves [p]
    up by a page, so [pa_end / PGSIZE + 1] rounds are enough. *)
Definition freerange (pa_start pa_end : Z) : K unit :=
  while_fuel OutOfFuel (Z.to_nat (pa_end / PGSIZE + 1))
    (fun p => if p + PGSIZE <=? pa_end then kfree p ;; ret (inl (p + PGSIZE)) else ret (inr tt))
    (PGROUNDUP pa_start).

Definition kinit : K unit :=
  initlock L_kmem ;;
  freerange kend PHYSTOP.

(** ** The invariant *)

Definition good_page (a : Z) : Prop := (PGSIZE | a) /\ kend <= a < PHYSTOP.

#[export] Instance good_page_dec a : Decision (good_page a).
Proof.
  destruct (decide (a mod PGSIZE = 0)) as [Hm|Hm].
  - destruct (decide (kend <= a < PHYSTOP)) as [Hr|Hr].
    + left. split; [|done]. by apply Z.mod_divide.
    + right. by intros [_ ?].
  - right. intros [Hd _]. apply Hm. by apply Z.mod_divide.
Defined.

Fixpoint is_freelist (m : mem) (p : Z) (l : list Z) : Prop :=
  match l with
  | [] => p = 0
  | a :: l' => p = a /\ is_freelist m (ld64 m a) l'
  end.

Definition kmem_inv (s : kstate) (l : list Z) : Prop :=
  is_freelist (k_mem s) (k_freelist s) l /\ NoDup l /\ Forall good_page l.

(** The bytes of the page at [a]. *)
Definition in_page (a x : Z) : Prop := a <= x < a + PGSIZE.

Lemma good_page_bounds a : good_page a -> KERNBASE <= a /\ a + PGSIZE <= PHYSTOP.
Proof.
  intros [[q ->] Hr]. pose proof kend_range. unfold PHYSTOP, KERNBASE, PGSIZE in *. lia.
Qed.

Lemma good_page_nonzero a : good_page a -> a <> 0.
Proof. intros Hg. apply good_page_bounds in Hg. unfold KERNBASE in Hg. lia. Qed.

Lemma good_page_pos a : good_page a -> 0 < a < 2 ^ 56.
Proof. intros Hg. apply good_page_bounds in Hg. unfold PHYSTOP, KERNBASE, PGSIZE in Hg. lia. Qed.

Lemma aligned_disjoint a b x : (PGSIZE | a) -> (PGSIZE | b) -> a <> b -> in_page a x -> ~ in_page b x.
Proof. intros [p ->] [q ->] Hne. unfold in_page, PGSIZE in *. lia. Qed.

Lemma aligned_apart a b : (PGSIZE | a) -> (PGSIZE | b) -> a <> b -> a + PGSIZE <= b \/ b + PGSIZE <= a.
Proof. intros [p ->] [q ->] Hne. unfold PGSIZE in *. lia. Qed.

Lemma is_freelist_ext m m' p l :
  (forall a, a ∈ l -> ld64 m' a = ld64 m a) -> is_freelist m p l -> is_freelist m' p l.
Proof.
  revert p. induction l as [|a l IH]; intros p Hext; simpl; [done|].
  intros [-> Hl]. split; [done|]. rewrite Hext by set_solver. apply IH; [set_solver|done].
Qed.

(** Writes inside a page that is not free keep the list. *)
Lemma kmem_inv_ext s s' l :
  k_freelist s' = k_freelist s ->
  (forall a x, a ∈ l -> in_page a x -> ld8 (k_mem s') x = ld8 (k_mem s) x) ->
  kmem_inv s l -> kmem_inv s' l.
Proof.
  intros Hf Hm (Hl & Hnd & Hg). split_and!; [|done|done]. rewrite Hf.
  eapply is_freelist_ext; [|exact Hl]. intros a Ha. apply ld64_ext.
  intros x Hx. apply (Hm a); [done|]. unfold in_page, PGSIZE. lia.
Qed.

(** ** What the operations do *)

Definition after_kalloc (a : Z) (s : kstate) : kstate :=
  set_k_mem (st_bytes (k_mem s) a (replicate PGSIZE_nat 5))
    (set_k_freelist (ld64 (k_mem s) a) (settle s)).

Definition after_kfree (a : Z) (s : kstate) : kstate :=
  set_k_mem (st64 (st_bytes (k_mem s) a (replicate PGSIZE_nat 1)) a (k_freelist s))
    (set_k_freelist a (settle s)).

Lemma kalloc_empty s :
  hart_ok s -> lock_free L_kmem s -> kmem_inv s [] -> kalloc s = Ok 0 (settle s).
Proof.
  intros Hok Hf (Hl & _). simpl in Hl. unfold kalloc.
  rewrite (bind_ok _ _ _ _ _ (acquire_run _ s Hok Hf)).
  unfold get_freelist, gets, bind, when, ret. simpl. rewrite Hl. simpl.
  rewrite release_run by hart_tac. by rewrite released_acquired.
Qed.

Lemma kalloc_cons s a l :
  hart_ok s -> lock_free L_kmem s -> kmem_inv s (a :: l) -> kalloc s = Ok a (after_kalloc a s).
Proof.
  intros Hok Hf (Hl & _ & Hg). destruct Hl as [Hl _]. apply Forall_cons_1 in Hg as [Hg _].
  apply good_page_nonzero in Hg. unfold kalloc.
  rewrite (bind_ok _ _ _ _ _ (acquire_run _ s Hok Hf)).
  unfold get_freelist, get64, put_freelist, gets, modify, bind, when, ret. simpl. rewrite Hl.
  replace (a =? 0) with false by lia. simpl.
  rewrite release_run by hart_tac. autorewrite with kst. rewrite released_acquired by done.
  cbn [after]. rewrite memset_run. done.
Qed.

Lemma kmem_inv_after_kalloc s a l : kmem_inv s (a :: l) -> kmem_inv (after_kalloc a s) l.
Proof.
  intros (Hl & Hnd & Hg). apply NoDup_cons in Hnd as [Hni Hnd]. apply Forall_cons_1 in Hg as [Ha Hg].
  split_and!; [|done|done]. simpl. destruct Hl as [_ Hl]. eapply is_freelist_ext; [|exact Hl].
  intros b Hb. apply ld64_st_disjoint. rewrite length_replicate.
  rewrite Forall_forall in Hg. specialize (Hg b Hb).
  destruct (aligned_apart a b) as [?|?]; [apply Ha|apply Hg|set_solver| |];
    rewrite PGSIZE_nat_Z; unfold PGSIZE in *; lia.
Qed.

Lemma kfree_run s a :
  hart_ok s -> lock_free L_kmem s -> good_page a -> kfree a s = Ok tt (after_kfree a s).
Proof.
  intros Hok Hf Hg. pose proof Hg as [Hal Hr]. unfold kfree.
  rewrite (proj2 (Z.mod_divide a PGSIZE ltac:(done)) Hal).
  replace (a <? kend) with false by lia. replace (PHYSTOP <=? a) with false by lia. simpl.
  rewrite (bind_ok _ _ _ _ _ (memset_run _ _ _ _)).
  erewrite (bind_ok _ _ _ _ _); [|apply acquire_run; hart_tac].
  unfold get_freelist, set64, put_freelist, gets, modify, bind. simpl.
  rewrite release_run by hart_tac. autorewrite with kst.
  rewrite released_acquired by hart_tac. done.
Qed.

Lemma kmem_inv_after_kfree s a l :
  kmem_inv s l -> good_page a -> a ∉ l -> kmem_inv (after_kfree a s) (a :: l).
Proof.
  intros (Hl & Hnd & Hg) Ha Hni. split_and!; [|by constructor|by constructor]. simpl.
  split; [done|]. rewrite ld64_st64_same.
  assert (Hu : u64 (k_freelist s) = k_freelist s).
  { apply wrap_small. destruct l as [|b l]; simpl in Hl; [rewrite Hl; lia|].
    destruct Hl as [-> _]. apply Forall_cons_1 in Hg as [Hb _]. apply good_page_pos in Hb. lia. }
  rewrite Hu. eapply is_freelist_ext; [|exact Hl]. intros b Hb.
  rewrite Forall_forall in Hg. specialize (Hg b Hb).
  assert (Hap : a + PGSIZE <= b \/ b + PGSIZE <= a)
    by (apply aligned_apart; [apply Ha|apply Hg|set_solver]).
  rewrite ld64_st64_disjoint by (unfold PGSIZE in Hap; lia).
  apply ld64_st_disjoint. rewrite length_replicate, PGSIZE_nat_Z. unfold PGSIZE in *. lia.
Qed.

(** [kfree] rejects an address that is not a page of the allocator's range. *)
Lemma kfree_bad s a : ~ good_page a -> kfree a s = Stop (Panicked "kfree" s).
Proof.
  intros Hb. unfold kfree.
  destruct (negb (a mod PGSIZE =? 0) || (a <? kend) || (PHYSTOP <=? a)) eqn:E; [done|].
  exfalso. apply Hb. split; [apply Z.mod_divide; [done|]|]; lia.
Qed.

(** What callers use. *)
Lemma wp_kalloc l Q s :
  hart_ok s -> lock_free L_kmem s -> kmem_inv s l ->
  (l = [] -> Q 0 (settle s)) ->
  (forall a l', l = a :: l' -> good_page a -> a ∉ l' -> kmem_inv (after_kalloc a s) l' ->
     Q a (after_kalloc a s)) ->
  wp kalloc Q s.
Proof.
  intros Hok Hf Hi H0 H1. destruct l as [|a l'].
  - eapply wp_ok; [by apply kalloc_empty|auto].
  - eapply wp_ok; [by eapply kalloc_cons|]. apply (H1 a l'); [done| | |by apply kmem_inv_after_kalloc].
    + destruct Hi as (_ & _ & Hg). by apply Forall_cons_1 in Hg as [? _].
    + destruct Hi as (_ & Hnd & _). by apply NoDup_cons in Hnd as [? _].
Qed.

Lemma wp_kfree l a Q s :
  hart_ok s -> lock_free L_kmem s -> kmem_inv s l -> good_page a -> a ∉ l ->
  (kmem_inv (after_kfree a s) (a :: l) -> Q tt (after_kfree a s)) ->
  wp (kfree a) Q s.
Proof.
  intros Hok Hf Hi Hg Hni HQ. eapply wp_ok; [by apply kfree_run|].
  apply HQ. by apply kmem_inv_after_kfree.
Qed.

(** ** Initialization *)

Lemma wp_initlock l Q s :
  Q tt (set_k_locks (delete l (k_locks s)) s) -> wp (initlock l) Q s.
Proof.
  intros HQ. unfold initlock, upd_lock, lock_of, put_lock. unfold wp, bind, modify. simpl.
  destruct (decide (set_locked false (default free_spinlock (k_locks s !! l)) = free_spinlock)); simpl.
  - rewrite lookup_delete_eq. simpl. unfold set_k_locks in *. simpl. by rewrite delete_delete_eq.
  - rewrite lookup_insert_eq. simpl. unfold set_k_locks in *. simpl. by rewrite delete_insert_eq.
Qed.

(** The pages below [p] are free, and no others. *)
Definition freed_below (p : Z) (s : kstate) : Prop :=
  hart_ok s /\ lock_free L_kmem s /\ (PGSIZE | p) /\ PGROUNDUP kend <= p <= PHYSTOP /\
  exists l, kmem_inv s l /\ forall a, a ∈ l <-> good_page a /\ a < p.

Lemma kend_u64 : 0 <= kend <= 2 ^ 64 - PGSIZE.
Proof. pose proof kend_range. unfold PHYSTOP, KERNBASE, PGSIZE in *. lia. Qed.

Lemma hart_ok_after_kfree a s : hart_ok s -> hart_ok (after_kfree a s).
Proof. intros. unfold after_kfree. hart_tac. Qed.

Lemma hart_ok_after_kalloc a s : hart_ok s -> hart_ok (after_kalloc a s).
Proof. intros. unfold after_kalloc. hart_tac. Qed.

Lemma freed_below_step p s :
  freed_below p s -> p + PGSIZE <= PHYSTOP ->
  wp (kfree p) (fun _ s' => freed_below (p + PGSIZE) s') s.
Proof.
  intros (Hok & Hf & Hal & Hr & l & Hl & Hmem) Hle.
  pose proof (PGROUNDUP_bounds kend kend_u64) as Hup.
  assert (Hg : good_page p) by (split; [done|unfold PGSIZE in *; lia]).
  apply (wp_kfree l); [done|done|done|done| |].
  { intros Hin. apply Hmem in Hin. lia. }
  intros Hinv. split_and!.
  - by apply hart_ok_after_kfree.
  - unfold after_kfree. hart_tac.
  - apply Z.divide_add_r; [done|]. by exists 1.
  - unfold PGSIZE in *; lia.
  - done.
  - exists (p :: l). split; [done|]. intros a. rewrite elem_of_cons, Hmem. split.
    + intros [->|[? ?]]; (split; [done|]); unfold PGSIZE in *; lia.
    + intros [Ha Hlt]. destruct (decide (a = p)) as [->|Hne]; [by left|right]. split; [done|].
      destruct (aligned_apart a p) as [?|?]; [apply Ha|done|done| |]; unfold PGSIZE in *; lia.
Qed.

Lemma freerange_spec s :
  freed_below (PGROUNDUP kend) s ->
  wp (freerange kend PHYSTOP) (fun _ s' => freed_below PHYSTOP s') s.
Proof.
  intros H0. unfold freerange.
  apply (wp_while _ (fun p s' => freed_below p s') (fun p => Z.to_nat ((PHYSTOP - p) / PGSIZE)));
    [done| |].
  - pose proof (PGROUNDUP_bounds kend kend_u64) as Hup. pose proof kend_range as Hkr.
    assert (0 <= (PHYSTOP - PGROUNDUP kend) / PGSIZE <= PHYSTOP / PGSIZE); [|lia].
    destruct H0 as (_ & _ & _ & Hr & _). split; [apply Z.div_pos; [lia|done]|].
    apply Z.div_le_mono; [done|]. unfold KERNBASE in *. lia.
  - intros p s' Hp. destruct (Z.leb_spec (p + PGSIZE) PHYSTOP) as [Hle|Hlt].
    + apply wp_bind. eapply wp_mono; [by apply freed_below_step|].
      intros [] s'' Hs''. apply wp_ret. split; [done|].
      assert (Hd : (PHYSTOP - p) / PGSIZE = (PHYSTOP - (p + PGSIZE)) / PGSIZE + 1).
      { replace (PHYSTOP - p) with (PHYSTOP - (p + PGSIZE) + 1 * PGSIZE) by lia.
        by rewrite Z.div_add. }
      rewrite Hd. assert (0 <= (PHYSTOP - (p + PGSIZE)) / PGSIZE); [|lia].
      apply Z.div_pos; [lia|done].
    + apply wp_ret. pose proof Hp as (_ & _ & [q Hq] & Hr & _).
      replace PHYSTOP with p; [done|]. unfold PHYSTOP, KERNBASE, PGSIZE in *. lia.
Qed.

(** After [kinit] the allocator's free list is well formed (no page twice, no
    cycle) and holds exactly the pages between the end of the kernel and
    [PHYSTOP]; the initialization loop terminates without a panic. *)
Theorem kinit_frees_all s :
  hart_ok s -> k_freelist s = 0 ->
  wp kinit (fun _ s' => hart_ok s' /\ lock_free L_kmem s' /\
    exists l, kmem_inv s' l /\ forall a, a ∈ l <-> good_page a) s.
Proof.
  intros Hok Hfl. unfold kinit. apply wp_bind, wp_initlock.
  pose proof (PGROUNDUP_bounds kend kend_u64) as Hup. pose proof kend_range as Hkr.
  eapply wp_mono; [apply freerange_spec|].
  - split_and!.
    + done.
    + unfold lock_free. simpl. apply lookup_delete_eq.
    + apply PGROUNDUP_aligned, kend_u64.
    + lia.
    + destruct (PGROUNDUP_aligned kend kend_u64) as [q Hq]. rewrite Hq in Hup |- *.
      unfold PHYSTOP, KERNBASE, PGSIZE in *. lia.
    + exists []. split; [by split_and!; [|constructor|]|]. intros a. split; [by intros ?%not_elem_of_nil|].
      intros [[Hal Ha] Hlt]. destruct (PGROUNDUP_aligned kend kend_u64) as [q Hq].
      destruct Hal as [r ->]. rewrite Hq in Hup, Hlt. unfold PGSIZE in *. lia.
  - intros [] s' (Hok' & Hf' & _ & _ & l & Hl & Hm). split_and!; [done|done|].
    exists l. split; [done|]. intros a. rewrite Hm. split; [by intros [? _]|].
    intros Ha. split; [done|]. by destruct Ha as [_ [_ ?]].
Qed.
End kalloc.

Lemma kinit_frees_all_witness :
  wp (@kinit sample_layout) (fun _ s' => hart_ok s' /\ lock_free L_kmem s' /\
    exists l, @kmem_inv sample_layout s' l /\ forall a, a ∈ l <-> @good_page sample_layout a) boot_state.
Proof. apply (@kinit_frees_all sample_layout boot_state boot_hart_ok eq_refl). Defined.

(** ** The interface of the allocator *)

(** The parts of the state an allocator may change: its own list, the memory of
    the page concerned, and what every critical section leaves on the hart. *)
Definition kmem_only (a : Z) (s s' : kstate) : Prop :=
  s' = set_k_mem (k_mem s') (set_k_freelist (k_freelist s') (settle s)) /\
  forall x, ~ in_page a x -> ld8 (k_mem s') x = ld8 (k_mem s) x.

Class PageAllocator := {
  pa_alloc : K Z;
  pa_release : Z -> K unit;
  (** the pages that may be handed out, and the set of those that are free *)
  pa_page : Z -> Prop;
  pa_free : kstate -> gset Z -> Prop;
  pa_nonnull : forall a, pa_page a -> a <> 0;
  pa_pages : forall s F a, pa_free s F -> a ∈ F -> pa_page a;
  pa_alloc_spec : forall s F, pa_free s F ->
    wp pa_alloc (fun r s' =>
      (r = 0 /\ F = ∅ /\ s' = settle s /\ pa_free s' F) \/
      (r ∈ F /\ pa_free s' (F ∖ {[r]}) /\ kmem_only r s s')) s;
  pa_release_spec : forall s F a, pa_free s F -> pa_page a -> a ∉ F ->
    wp (pa_release a) (fun _ s' => pa_free s' ({[a]} ∪ F) /\ kmem_only a s s') s
}.

Section instance.
Context `{Layout}.

Definition kmem_free (s : kstate) (F : gset Z) : Prop :=
  hart_ok s /\ lock_free L_kmem s /\ exists l, kmem_inv s l /\ F = list_to_set l.

Lemma kmem_only_after_kalloc a s : kmem_only a s (after_kalloc a s).
Proof.
  split; [done|]. intros x Hx. unfold after_kalloc. simpl. apply ld8_st_outside.
  rewrite length_replicate, PGSIZE_nat_Z. unfold in_page in Hx. lia.
Qed.

Lemma kmem_only_after_kfree a s : kmem_only a s (after_kfree a s).
Proof.
  split; [done|]. intros x Hx. unfold after_kfree. simpl. unfold in_page, PGSIZE in Hx.
  rewrite ld8_st64_disjoint by lia. apply ld8_st_outside.
  rewrite length_replicate, PGSIZE_nat_Z. unfold PGSIZE. lia.
Qed.

Lemma kalloc_law s F :
  kmem_free s F ->
  wp kalloc (fun r s' =>
    (r = 0 /\ F = ∅ /\ s' = settle s /\ kmem_free s' F) \/
    (r ∈ F /\ kmem_free s' (F ∖ {[r]}) /\ kmem_only r s s')) s.
Proof.
  intros (Hok & Hf & l & Hl & ->). apply (wp_kalloc l); [done|done|done| |].
  - intros ->. left. split_and!; [done|done|done|]. split_and!; [hart_tac|hart_tac|].
    exists []. split; [|done]. by destruct Hl as (? & ? & ?).
  - intros a l' -> Hg Hni Hi'. right. split_and!; [set_solver| |apply kmem_only_after_kalloc].
    split_and!; [by apply hart_ok_after_kalloc|unfold after_kalloc; hart_tac|].
    exists l'. split; [done|]. apply leibniz_equiv. set_solver.
Qed.

Lemma kfree_law s F a :
  kmem_free s F -> good_page a -> a ∉ F ->
  wp (kfree a) (fun _ s' => kmem_free s' ({[a]} ∪ F) /\ kmem_only a s s') s.
Proof.
  intros (Hok & Hf & l & Hl & ->) Hg Hni. apply (wp_kfree l); [done|done|done|done|set_solver|].
  intros Hi'. split; [|apply kmem_only_after_kfree].
  split_and!; [by apply hart_ok_after_kfree|unfold after_kfree; hart_tac|].
  by exists (a :: l).
Qed.

#[refine] Instance kalloc_allocator : PageAllocator := {|
  pa_alloc := kalloc; pa_release := kfree; pa_page := good_page; pa_free := kmem_free |}.
Proof.
  - apply good_page_nonzero.
  - intros s F a (_ & _ & l & (_ & _ & Hg) & ->) Ha. rewrite Forall_forall in Hg.
    apply Hg. set_solver.
  - apply kalloc_law.
  - apply kfree_law.
Defined.
End instance.

(** ** An arbitrary client

    A client allocates pages and frees pages it owns, in any order. *)
Section client.
Context `{PageAllocator}.

Inductive request : Type := Alloc | Free (i : nat).

Fixpoint run_client (rs : list request) (owned : list Z) : K (list Z) :=
  match rs with
  | [] => ret owned
  | Alloc :: rs' =>
      a <- pa_alloc ;;
      run_client rs' (if a =? 0 then owned else a :: owned)
  | Free i :: rs' =>
      match owned !! i with
      | None => run_client rs' owned
      | Some a => pa_release a ;; run_client rs' (delete i owned)
      end
  end.

Definition client_inv (T : gset Z) (owned : list Z) (s : kstate) : Prop :=
  exists F, pa_free s F /\ NoDup owned /\ Forall pa_page owned /\
    list_to_set owned ## F /\ list_to_set owned ∪ F = T.

Lemma run_client_spec T rs owned s :
  client_inv T owned s -> wp (run_client rs owned) (fun owned' s' => client_inv T owned' s') s.
Proof.
  revert owned s. induction rs as [|[|i] rs IH]; intros owned s Hinv; simpl.
  - by apply wp_ret.
  - destruct Hinv as (F & HF & Hnd & Hpg & Hdis & HT). apply wp_bind.
    eapply wp_mono; [by apply pa_alloc_spec|].
    intros r s' [(-> & -> & -> & HF')|(Hr & HF' & _)]; apply IH.
    + exists ∅. by split_and!.
    + assert (Hrp : pa_page r) by (exact (pa_pages s F r HF Hr)).
      destruct (Z.eqb_spec r 0); [exfalso; by apply (pa_nonnull r)|].
      exists (F ∖ {[r]}). split_and!; [done| | |set_solver|].
      * constructor; [set_solver|done].
      * by constructor.
      * apply leibniz_equiv. rewrite <- HT. simpl. intros x.
        destruct (decide (x = r)); set_solver.
  - destruct (owned !! i) as [a|] eqn:Ha; [|by apply IH].
    destruct Hinv as (F & HF & Hnd & Hpg & Hdis & HT). apply wp_bind.
    assert (Hin : a ∈ owned) by (by eapply list_elem_of_lookup_2).
    assert (Hperm : owned ≡ₚ a :: delete i owned) by (by apply delete_Permutation).
    rewrite Hperm in Hnd, Hpg, Hdis, HT. apply NoDup_cons in Hnd as [Hni Hnd].
    apply Forall_cons_1 in Hpg as [Hpa Hpg]. simpl in *.
    eapply wp_mono; [apply (pa_release_spec s F a); [done|done|set_solver]|].
    intros [] s' [HF' _]. apply IH. exists ({[a]} ∪ F). split_and!; [done|done|done| |].
    + set_solver.
    + apply leibniz_equiv. rewrite <- HT. set_solver.
Qed.
End client.

Section kalloc_client.
Context `{Layout}.

(** C15: no page of memory is handed out twice.  For every sequence of requests
    (allocate; free a page it owns) a client makes of [kalloc] and [kfree], the
    calls return without a panic, the pages it owns at the end are distinct pages
    of the allocator's range, none of them is on the free list, and owned and free
    pages together are the pages there were at the start. *)
Theorem kalloc_no_double_allocation rs owned s F :
  kmem_free s F -> NoDup owned -> Forall good_page owned -> list_to_set owned ## F ->
  wp (run_client (H := kalloc_allocator) rs owned) (fun owned' s' =>
    exists F', kmem_free s' F' /\ NoDup owned' /\ Forall good_page owned' /\
      list_to_set owned' ## F' /\ list_to_set owned' ∪ F' = list_to_set owned ∪ F) s.
Proof.
  intros HF Hnd Hg Hd.
  apply (run_client_spec (H := kalloc_allocator) (list_to_set owned ∪ F)). by exists F.
Qed.
End kalloc_client.

Lemma kalloc_no_double_allocation_witness :
  let page := PHYSTOP - PGSIZE in
  wp (run_client (H := @kalloc_allocator sample_layout) [Alloc; Free 0; Alloc; Alloc] [page]) (fun owned' s' =>
    exists F', @kmem_free sample_layout s' F' /\ NoDup owned' /\ Forall (@good_page sample_layout) owned' /\
      list_to_set owned' ## F' /\ list_to_set owned' ∪ F' = list_to_set [page] ∪ ∅) boot_state.
Proof.
  apply (@kalloc_no_double_allocation sample_layout).
  - split_and!; [apply boot_hart_ok|done|]. exists []. split; [|done]. by split_and!; [|constructor|].
  - apply NoDup_singleton.
  - repeat constructor; try done. by exists 557055.
  - set_solver.
Defined.
