(* ===== verification/Vm.v ===== *)
(** Page tables, [kernel/vm.c]: the operations, and the proofs about [walk],
    [mappages] and [uvmunmap].

    A page table is three levels of pages in [k_mem].  [ptab] is the tree those
    pages stand for: [tbl] gives the page-table page of each node, named by its
    level and the bits of the virtual address above it, and [lf] the leaf entry of
    each virtual page number.  [pt_rep] says that memory holds exactly that tree. *)
From S2P Require Import Prelude Machine Riscv State Spinlock KString Kalloc.
From Stdlib Require Import ZArith Lia.
From stdpp Require Import base strings numbers gmap list.
Local Open Scope Z_scope.
Local Open Scope m_scope.

Section vm.
Context `{Layout}.

Definition put_bytes (a : Z) (bs : list Z) : K unit :=
  modify (fun s => set_k_mem (st_bytes (k_mem s) a bs) s).
Definition get_bytes (a : Z) (n : nat) : K (list Z) := gets (fun s => ld_bytes (k_mem s) a n).

(** ** Walking and mapping *)

(** The loop of [walk], from [level] down to 1. *)
Fixpoint walk_levels (level : nat) (pagetable va : Z) (alloc : bool) : K Z :=
  match level with
  | O => ret (pagetable + 8 * PX 0 va)
  | S level' =>
      let pte := pagetable + 8 * PX (Z.of_nat level) va in
      e <- get64 pte ;;
      if has e PTE_V then walk_levels level' (PTE2PA e) va alloc
      else if negb alloc then ret 0 else
        pagetable' <- kalloc ;;
        if pagetable' =? 0 then ret 0 else
        memset pagetable' 0 PGSIZE_nat ;;
        set64 pte (Z.lor (PA2PTE pagetable') PTE_V) ;;
        walk_levels level' pagetable' va alloc
  end.

Definition walk (pagetable va : Z) (alloc : bool) : K Z :=
  if MAXVA <=? va then panic "walk" else walk_levels 2 pagetable va alloc.

Definition walkaddr (pagetable va : Z) : K Z :=
  if MAXVA <=? va then ret 0 else
  pte <- walk pagetable va false ;;
  if pte =? 0 then ret 0 else
  e <- get64 pte ;;
  if negb (has e PTE_V) then ret 0 else
  if negb (has e PTE_U) then ret 0 else
  ret (PTE2PA e).

(** Each round of the loop maps one page, so [size / PGSIZE] rounds are enough. *)
Definition mappages (pagetable va size pa perm : Z) : K Z :=
  if negb (va mod PGSIZE =? 0) then panic "mappages: va not aligned" else
  if negb (size mod PGSIZE =? 0) then panic "mappages: size not aligned" else
  if size =? 0 then panic "mappages: size" else
  let last := u64 (va + size - PGSIZE) in
  while_fuel OutOfFuel (Z.to_nat (size / PGSIZE)) (fun '(a, pa) =>
    pte <- walk pagetable a true ;;
    if pte =? 0 then ret (inr (-1)) else
    e <- get64 pte ;;
    if has e PTE_V then panic "mappages: remap" else
    set64 pte (Z.lor (Z.lor (PA2PTE pa) perm) PTE_V) ;;
    if a =? last then ret (inr 0) else
    ret (inl (u64 (a + PGSIZE), u64 (pa + PGSIZE)))) (va, pa).

(** The loop goes round once for each page and once more to leave. *)
Definition uvmunmap (pagetable va npages : Z) (do_free : bool) : K unit :=
  if negb (va mod PGSIZE =? 0) then panic "uvmunmap: not aligned" else
  while_fuel OutOfFuel (Z.to_nat npages + 1) (fun a =>
    if negb (a <? u64 (va + npages * PGSIZE)) then ret (inr tt) else
    pte <- walk pagetable a false ;;
    if pte =? 0 then panic "uvmunmap: walk" else
    e <- get64 pte ;;
    if negb (has e PTE_V) then panic "uvmunmap: not mapped" else
    if PTE_FLAGS e =? PTE_V then panic "uvmunmap: not a leaf" else
    when do_free (kfree (PTE2PA e)) ;;
    set64 pte 0 ;;
    ret (inl (u64 (a + PGSIZE)))) va.

(** ** The kernel's page table *)

Definition kvmmap (kpgtbl va pa sz perm : Z) : K unit :=
  r <- mappages kpgtbl va sz pa perm ;;
  if negb (r =? 0) then panic "kvmmap" else ret tt.

Definition proc_mapstacks (kpgtbl : Z) : K unit :=
  for_each (zrange 0 NPROC) (fun p =>
    pa <- kalloc ;;
    if pa =? 0 then panic "kalloc" else
    let va := KSTACK p in
    kvmmap kpgtbl va pa PGSIZE (Z.lor PTE_R PTE_W)).

Definition kvmmake : K Z :=
  kpgtbl <- kalloc ;;
  memset kpgtbl 0 PGSIZE_nat ;;
  kvmmap kpgtbl UART0 UART0 PGSIZE (Z.lor PTE_R PTE_W) ;;
  kvmmap kpgtbl VIRTIO0 VIRTIO0 PGSIZE (Z.lor PTE_R PTE_W) ;;
  kvmmap kpgtbl PLIC PLIC 0x4000000 (Z.lor PTE_R PTE_W) ;;
  kvmmap kpgtbl KERNBASE KERNBASE (etext - KERNBASE) (Z.lor PTE_R PTE_X) ;;
  kvmmap kpgtbl etext etext (PHYSTOP - etext) (Z.lor PTE_R PTE_W) ;;
  kvmmap kpgtbl TRAMPOLINE trampoline PGSIZE (Z.lor PTE_R PTE_X) ;;
  proc_mapstacks kpgtbl ;;
  ret kpgtbl.

Definition kvminit : K unit := kpgtbl <- kvmmake ;; modify (set_k_kpgtbl kpgtbl).

Definition kvminithart : K unit :=
  modify (fun s => set_k_hart (set_satp (MAKE_SATP (k_kpgtbl s)) (k_hart s)) s).

(** ** User address spaces *)

Definition uvmcreate : K Z :=
  pagetable <- kalloc ;;
  if pagetable =? 0 then ret 0 else
  memset pagetable 0 PGSIZE_nat ;;
  ret pagetable.

(** [src] is the program, [initcode]. *)
Definition uvmfirst (pagetable : Z) (src : list Z) : K unit :=
  if PGSIZE <=? Z.of_nat (length src) then panic "uvmfirst: more than a page" else
  mem <- kalloc ;;
  memset mem 0 PGSIZE_nat ;;
  mappages pagetable 0 PGSIZE mem (Z.lor (Z.lor (Z.lor PTE_W PTE_R) PTE_X) PTE_U) ;;
  put_bytes mem src.

Definition uvmdealloc (pagetable oldsz newsz : Z) : K Z :=
  if oldsz <=? newsz then ret oldsz else
  when (PGROUNDUP newsz <? PGROUNDUP oldsz)
    (let npages := s32 ((PGROUNDUP oldsz - PGROUNDUP newsz) / PGSIZE) in
     uvmunmap pagetable (PGROUNDUP newsz) (u64 npages) true) ;;
  ret newsz.

(** One round for each page, and one to leave. *)
Definition uvmalloc (pagetable oldsz newsz xperm : Z) : K Z :=
  if newsz <? oldsz then ret oldsz else
  let oldsz := PGROUNDUP oldsz in
  while_fuel OutOfFuel (Z.to_nat (newsz / PGSIZE) + 2) (fun a =>
    if negb (a <? newsz) then ret (inr newsz) else
    mem <- kalloc ;;
    if mem =? 0 then uvmdealloc pagetable a oldsz ;; ret (inr 0) else
    memset mem 0 PGSIZE_nat ;;
    r <- mappages pagetable a PGSIZE mem (Z.lor (Z.lor PTE_R PTE_U) xperm) ;;
    if negb (r =? 0) then kfree mem ;; uvmdealloc pagetable a oldsz ;; ret (inr 0)
    else ret (inl (u64 (a + PGSIZE)))) oldsz.

(** The recursion goes down one level of the table at a time. *)
Fixpoint freewalk_level (depth : nat) (pagetable : Z) : K unit :=
  match depth with
  | O => stop OutOfFuel
  | S depth' =>
      for_each (zrange 0 512) (fun i =>
        pte <- get64 (pagetable + 8 * i) ;;
        if has pte PTE_V && (Z.land pte (Z.lor (Z.lor PTE_R PTE_W) PTE_X) =? 0) then
          freewalk_level depth' (PTE2PA pte) ;;
          set64 (pagetable + 8 * i) 0
        else if has pte PTE_V then panic "freewalk: leaf" else ret tt) ;;
      kfree pagetable
  end.

Definition freewalk (pagetable : Z) : K unit := freewalk_level 3 pagetable.

Definition uvmfree (pagetable sz : Z) : K unit :=
  when (0 <? sz) (uvmunmap pagetable 0 (PGROUNDUP sz / PGSIZE) true) ;;
  freewalk pagetable.

Definition uvmcopy (old new sz : Z) : K Z :=
  while_fuel OutOfFuel (Z.to_nat (sz / PGSIZE) + 2) (fun i =>
    if negb (i <? sz) then ret (inr 0) else
    pte <- walk old i false ;;
    if pte =? 0 then panic "uvmcopy: pte should exist" else
    e <- get64 pte ;;
    if negb (has e PTE_V) then panic "uvmcopy: page not present" else
    let pa := PTE2PA e in
    let flags := PTE_FLAGS e in
    mem <- kalloc ;;
    if mem =? 0 then uvmunmap new 0 (i / PGSIZE) true ;; ret (inr (-1)) else
    memmove mem pa PGSIZE_nat ;;
    r <- mappages new i PGSIZE mem flags ;;
    if negb (r =? 0) then kfree mem ;; uvmunmap new 0 (i / PGSIZE) true ;; ret (inr (-1))
    else ret (inl (u64 (i + PGSIZE)))) 0.

Definition uvmclear (pagetable va : Z) : K unit :=
  pte <- walk pagetable va false ;;
  if pte =? 0 then panic "uvmclear" else
  e <- get64 pte ;;
  set64 pte (Z.land e (Z.lnot PTE_U)).

(** ** Copies between the kernel and a user address space

    The kernel's side of a copy is a list of bytes: what [src] points at for
    [copyout]; for [copyin] and [copyinstr] the bytes stored at [dst], also when the
    call fails part of the way.  Every round moves at least a byte. *)

Definition copyout (pagetable dstva : Z) (src : list Z) : K Z :=
  while_fuel OutOfFuel (length src + 1) (fun '(dstva, src) =>
    if (length src =? 0)%nat then ret (inr 0) else
    let va0 := PGROUNDDOWN dstva in
    if MAXVA <=? va0 then ret (inr (-1)) else
    pte <- walk pagetable va0 false ;;
    if pte =? 0 then ret (inr (-1)) else
    e <- get64 pte ;;
    if negb (has e PTE_V) || negb (has e PTE_U) || negb (has e PTE_W) then ret (inr (-1)) else
    let pa0 := PTE2PA e in
    let n := Z.to_nat (Z.min (PGSIZE - (dstva - va0)) (Z.of_nat (length src))) in
    put_bytes (pa0 + (dstva - va0)) (take n src) ;;
    ret (inl (u64 (va0 + PGSIZE), drop n src))) (dstva, src).

Definition copyin (pagetable srcva : Z) (len : nat) : K (Z * list Z) :=
  while_fuel OutOfFuel (len + 1) (fun '(dst, srcva, len) =>
    if (len =? 0)%nat then ret (inr (0, dst)) else
    let va0 := PGROUNDDOWN srcva in
    pa0 <- walkaddr pagetable va0 ;;
    if pa0 =? 0 then ret (inr (-1, dst)) else
    let n := Z.to_nat (Z.min (PGSIZE - (srcva - va0)) (Z.of_nat len)) in
    bs <- get_bytes (pa0 + (srcva - va0)) n ;;
    ret (inl (dst ++ bs, u64 (va0 + PGSIZE), (len - n)%nat))) ([], srcva, len).

(** The inner loop of [copyinstr]: at most [n] bytes from [p]; whether it stopped
    at a zero byte, and the bytes stored. *)
Fixpoint copyinstr_page (p : Z) (n : nat) : K (bool * list Z) :=
  match n with
  | O => ret (false, [])
  | S n' =>
      c <- get_byte p ;;
      if c =? 0 then ret (true, [0]) else
      let! (got_null, bs) := copyinstr_page (p + 1) n' in
      ret (got_null, c :: bs)
  end.

Definition copyinstr (pagetable srcva : Z) (max : nat) : K (Z * list Z) :=
  while_fuel OutOfFuel (max + 1) (fun '(dst, srcva, max) =>
    if (max =? 0)%nat then ret (inr (-1, dst)) else
    let va0 := PGROUNDDOWN srcva in
    pa0 <- walkaddr pagetable va0 ;;
    if pa0 =? 0 then ret (inr (-1, dst)) else
    let n := Z.to_nat (Z.min (PGSIZE - (srcva - va0)) (Z.of_nat max)) in
    let! (got_null, bs) := copyinstr_page (pa0 + (srcva - va0)) n in
    if got_null : bool then ret (inr (0, dst ++ bs))
    else ret (inl (dst ++ bs, u64 (va0 + PGSIZE), (max - n)%nat))) ([], srcva, max).
End vm.

(** ** The tree a page table stands for *)

Record ptab : Type := mkPtab {
  pt_root : Z;
  (** (level, address bits above the node) to the page-table page *)
  tbl : gmap (nat * Z) Z;
  (** virtual page number to leaf entry *)
  lf : gmap Z Z
}.

Definition set_tbl (v : gmap (nat * Z) Z) (t : ptab) : ptab := mkPtab (pt_root t) v (lf t).
Definition set_lf (v : gmap Z Z) (t : ptab) : ptab := mkPtab (pt_root t) (tbl t) v.

Definition mkpte (pa fl : Z) : Z := Z.lor (PA2PTE pa) fl.

(** A leaf entry: valid, with a permission, and 54 bits wide. *)
Definition leaf_pte (e : Z) : Prop :=
  0 <= e < 2 ^ 54 /\ has e PTE_V = true /\ PTE_FLAGS e <> PTE_V.

(** The entry that the node at [level] holds for the child whose upper address
    bits are [j]. *)
Definition entry (t : ptab) (level : nat) (j : Z) : Z :=
  match level with
  | O => default 0 (lf t !! j)
  | S l => match tbl t !! (l, j) with Some q => mkpte q PTE_V | None => 0 end
  end.

Definition pt_pages (t : ptab) : gset Z := map_img (tbl t).

Section rep.
Context `{Layout}.

Record pt_rep (m : mem) (t : ptab) : Prop := {
  pr_root : tbl t !! (2%nat, 0) = Some (pt_root t);
  pr_slot : forall l k p i, tbl t !! (l, k) = Some p -> 0 <= i < 512 ->
    ld64 m (p + 8 * i) = entry t l (k * 512 + i);
  pr_inj : forall x y p, tbl t !! x = Some p -> tbl t !! y = Some p -> x = y;
  pr_good : forall x p, tbl t !! x = Some p -> good_page p;
  pr_level : forall l k p, tbl t !! (l, k) = Some p ->
    (l = 2%nat /\ k = 0) \/ ((l < 2)%nat /\ is_Some (tbl t !! (S l, k / 512)));
  pr_leaf : forall v e, lf t !! v = Some e -> leaf_pte e /\ is_Some (tbl t !! (0%nat, v / 512))
}.

(** The memory of the pages in [P] may differ, and no other. *)
Definition mem_out (P : gset Z) (m m' : mem) : Prop :=
  forall x, (forall a, a ∈ P -> ~ in_page a x) -> ld8 m' x = ld8 m x.

(** Everything but memory and the free list is the same, up to what a critical
    section leaves on the hart. *)
Definition frame (s s' : kstate) : Prop :=
  settle s' = set_k_mem (k_mem s') (set_k_freelist (k_freelist s') (settle s)).

(** [F] is the set of free pages, [t] the page table, and no page is in both. *)
Definition vm_inv (s : kstate) (F : gset Z) (t : ptab) : Prop :=
  kmem_free s F /\ pt_rep (k_mem s) t /\ pt_pages t ## F.

Lemma elem_of_pt_pages t p : p ∈ pt_pages t <-> exists x, tbl t !! x = Some p.
Proof. apply elem_of_map_img. Qed.

Lemma mem_out_refl P m : mem_out P m m.
Proof. done. Qed.

Lemma mem_out_trans P m1 m2 m3 : mem_out P m1 m2 -> mem_out P m2 m3 -> mem_out P m1 m3.
Proof. intros H1 H2 x Hx. by rewrite H2, H1. Qed.

Lemma mem_out_mono P P' m m' : P ⊆ P' -> mem_out P m m' -> mem_out P' m m'.
Proof. intros Hs Ho x Hx. apply Ho. set_solver. Qed.

Lemma frame_refl s : frame s s.
Proof.
  unfold frame. rewrite <- settle_set_freelist, <- settle_set_mem. f_equal.
Qed.

Lemma frame_trans s1 s2 s3 : frame s1 s2 -> frame s2 s3 -> frame s1 s3.
Proof. unfold frame. intros H1 H2. rewrite H2, H1. done. Qed.

Lemma frame_set_mem m s s' : frame s s' -> frame s (set_k_mem m s').
Proof. unfold frame. intros H1. rewrite settle_set_mem, H1. done. Qed.

Lemma frame_kmem_only a s s' : kmem_only a s s' -> frame s s'.
Proof.
  unfold frame, kmem_only. intros [-> _]. by rewrite settle_set_mem, settle_set_freelist, settle_settle.
Qed.

Lemma frame_settle s : frame s (settle s).
Proof.
  unfold frame. rewrite settle_settle. simpl.
  rewrite <- settle_set_freelist, <- settle_set_mem. f_equal.
Qed.

Lemma kmem_only_out a P s s' : a ∈ P -> kmem_only a s s' -> mem_out P (k_mem s) (k_mem s').
Proof. intros Ha [_ Ho] x Hx. apply Ho. by apply Hx. Qed.

(** *** Writes that keep the free list and the tree *)

Lemma kmem_free_write s F m :
  kmem_free s F -> (forall a x, a ∈ F -> in_page a x -> ld8 m x = ld8 (k_mem s) x) ->
  kmem_free (set_k_mem m s) F.
Proof.
  intros (Hok & Hf & l & Hl & ->) Hm. split_and!; [by apply hart_ok_set_mem|by apply lock_free_set_mem|].
  exists l. split; [|done]. eapply kmem_inv_ext; [| |exact Hl]; [done|].
  intros a x Ha Hx. apply (Hm a x); [set_solver|done].
Qed.

Lemma kmem_free_good s F a : kmem_free s F -> a ∈ F -> good_page a.
Proof.
  intros (_ & _ & l & (_ & _ & Hg) & ->) Ha. rewrite Forall_forall in Hg. apply Hg. set_solver.
Qed.

Lemma mem_out_st_bytes a P m off bs :
  a ∈ P -> 0 <= off -> off + Z.of_nat (length bs) <= PGSIZE -> mem_out P m (st_bytes m (a + off) bs).
Proof.
  intros Ha Ho Hl x Hx. apply ld8_st_outside. specialize (Hx a Ha). unfold in_page in Hx. lia.
Qed.

Lemma mem_out_fill a P m c : a ∈ P -> mem_out P m (st_bytes m a (replicate PGSIZE_nat c)).
Proof.
  intros Ha. pose proof (mem_out_st_bytes a P m 0 (replicate PGSIZE_nat c) Ha) as Ho.
  rewrite Z.add_0_r, length_replicate, PGSIZE_nat_Z in Ho. by apply Ho.
Qed.

Lemma mem_out_slot p P m i v : p ∈ P -> 0 <= i < 512 -> mem_out P m (st64 m (p + 8 * i) v).
Proof.
  intros Hp Hi. apply mem_out_st_bytes; [done|lia|]. rewrite length_le_bytes. unfold PGSIZE. lia.
Qed.

Lemma mem_out_page P m m' a x : good_page a -> a ∉ P -> (forall b, b ∈ P -> good_page b) ->
  mem_out P m m' -> in_page a x -> ld8 m' x = ld8 m x.
Proof.
  intros Ha Hni Hg Ho Hx. apply Ho. intros b Hb. apply (aligned_disjoint a); [apply Ha|apply (Hg b Hb)| |done].
  intros ->. done.
Qed.

Lemma kmem_free_out s F P m :
  kmem_free s F -> P ## F -> (forall b, b ∈ P -> good_page b) -> mem_out P (k_mem s) m ->
  kmem_free (set_k_mem m s) F.
Proof.
  intros HF Hd Hg Ho. apply kmem_free_write; [done|]. intros a x Ha Hx.
  apply (mem_out_page P _ _ a); [by eapply kmem_free_good|set_solver|done|done|done].
Qed.

Lemma in_page_slot p i x : 0 <= i < 512 -> p + 8 * i <= x < p + 8 * i + 8 -> in_page p x.
Proof. unfold in_page, PGSIZE. lia. Qed.

Lemma pt_rep_out m m' t P :
  pt_rep m t -> P ## pt_pages t -> (forall b, b ∈ P -> good_page b) -> mem_out P m m' -> pt_rep m' t.
Proof.
  intros Hr Hd Hg Ho. destruct Hr. split; [done| |done..]. intros l k p i Hp Hi.
  rewrite <- (pr_slot0 l k p i Hp Hi). apply ld64_ext. intros x Hx.
  apply (mem_out_page P _ _ p); [by eapply pr_good0| |done|done|by eapply in_page_slot].
  assert (p ∈ pt_pages t) by (apply elem_of_pt_pages; eauto). set_solver.
Qed.
End rep.

#[export] Hint Resolve mem_out_refl frame_refl : xv6.

(** *** Address bits *)

(** The address bits above the node of [level] that translates [va]. *)
Definition key (level : nat) (va : Z) : Z := va / 2 ^ (21 + 9 * Z.of_nat level).

Lemma key_up level va : key (S level) va = key level va / 512.
Proof.
  unfold key. rewrite Z.div_div by lia. f_equal. change 512 with (2 ^ 9).
  rewrite <- Z.pow_add_r by lia. f_equal. lia.
Qed.

Lemma key_split level va : key level va * 512 + PX (Z.of_nat level) va = va / 2 ^ (12 + 9 * Z.of_nat level).
Proof.
  unfold key. rewrite PX_div by lia. unfold PXSHIFT, PGSHIFT.
  replace (21 + 9 * Z.of_nat level) with (12 + 9 * Z.of_nat level + 9) by lia.
  rewrite Z.pow_add_r by lia. rewrite <- Z.div_div by lia. change (2 ^ 9) with 512.
  pose proof (Z.div_mod (va / 2 ^ (12 + 9 * Z.of_nat level)) 512). lia.
Qed.

Lemma key_split_S level va : key (S level) va * 512 + PX (Z.of_nat (S level)) va = key level va.
Proof. rewrite key_split. unfold key. do 2 f_equal. lia. Qed.

Lemma key_split_0 va : key 0 va * 512 + PX 0 va = va / PGSIZE.
Proof. rewrite (key_split 0). done. Qed.

Lemma key_0 va : key 0 va = va / PGSIZE / 512.
Proof. unfold key. by rewrite Z.div_div by done. Qed.

Lemma key_root va : 0 <= va < MAXVA -> key 2 va = 0.
Proof. rewrite MAXVA_pow. intros Hva. apply Z.div_small. simpl. lia. Qed.

Lemma slot_key k i : 0 <= i < 512 -> (k * 512 + i) / 512 = k.
Proof. intros Hi. rewrite Z.div_add_l, Z.div_small by lia. lia. Qed.

Lemma slot_key_inj k i k' i' :
  0 <= i < 512 -> 0 <= i' < 512 -> k * 512 + i = k' * 512 + i' -> k = k' /\ i = i'.
Proof. lia. Qed.

Section walk.
Context `{Layout}.

Lemma mkpte_V_range a : good_page a -> 0 <= mkpte a PTE_V < 2 ^ 54.
Proof. intros Hg. apply good_page_pos in Hg. apply mkpte_range; [lia|done]. Qed.

Lemma has_mkpte_V a : good_page a -> has (mkpte a PTE_V) PTE_V = true.
Proof.
  intros Hg. apply good_page_pos in Hg. unfold PTE_V at 2. rewrite has_flags by lia.
  unfold mkpte. rewrite PTE_FLAGS_mkpte by (done || lia). done.
Qed.

Lemma PTE2PA_mkpte_V a : good_page a -> PTE2PA (mkpte a PTE_V) = a.
Proof. intros Hg. apply PTE2PA_mkpte; [apply good_page_pos in Hg; lia|apply Hg|done]. Qed.

Lemma ld64_zero_page m a i :
  0 <= i < 512 -> ld64 (st_bytes m a (replicate PGSIZE_nat 0)) (a + 8 * i) = 0.
Proof.
  intros Hi. unfold ld64. rewrite <- (le_val_zeros 8). f_equal. apply list_eq. intros j.
  destruct (decide (j < 8)%nat) as [Hj|Hj].
  - rewrite ld_bytes_lookup, lookup_replicate_2 by lia. f_equal.
    replace (a + 8 * i + Z.of_nat j) with (a + Z.of_nat (Z.to_nat (8 * i) + j)) by lia.
    apply ld8_st_inside. apply lookup_replicate_2. pose proof PGSIZE_nat_Z. unfold PGSIZE in *. lia.
  - rewrite !lookup_ge_None_2; [done|rewrite length_replicate; lia|rewrite length_ld_bytes; lia].
Qed.

Lemma pr_up m t l va :
  pt_rep m t -> is_Some (tbl t !! (l, key l va)) -> (l < 2)%nat -> is_Some (tbl t !! (S l, key (S l) va)).
Proof.
  intros Hr [p Hp] Hl. rewrite key_up. destruct (pr_level _ _ Hr _ _ _ Hp) as [[-> _]|[_ ?]]; [lia|done].
Qed.

(** What a read of an entry on the path finds. *)
Lemma walk_entry m t l va p :
  pt_rep m t -> tbl t !! (S l, key (S l) va) = Some p ->
  ld64 m (p + 8 * PX (Z.of_nat (S l)) va) =
    match tbl t !! (l, key l va) with Some q => mkpte q PTE_V | None => 0 end.
Proof.
  intros Hr Hp. rewrite (pr_slot _ _ Hr _ _ _ _ Hp) by (apply PX_range; lia).
  by rewrite key_split_S.
Qed.

Definition slot_of (t : ptab) (va : Z) : Z :=
  match tbl t !! (0%nat, key 0 va) with Some q => q + 8 * PX 0 va | None => 0 end.

Lemma walk_levels_ro l t s p va :
  pt_rep (k_mem s) t -> (l <= 2)%nat -> tbl t !! (l, key l va) = Some p ->
  walk_levels l p va false s = Ok (slot_of t va) s.
Proof.
  intros Hr. revert p. induction l as [|l IH]; intros p Hl Hp.
  - unfold slot_of. rewrite Hp. done.
  - pose proof (walk_entry _ _ _ _ _ Hr Hp) as He. unfold walk_levels; fold walk_levels. unfold bind at 1, get64, gets. rewrite He. cbn [after].
    destruct (tbl t !! (l, key l va)) as [q|] eqn:Hq.
    + assert (Hg : good_page q) by (by eapply pr_good).
      rewrite has_mkpte_V, PTE2PA_mkpte_V by done. apply IH; [lia|done].
    + simpl. unfold ret, slot_of. destruct (tbl t !! (0%nat, key 0 va)) as [q0|] eqn:Hq0; [|done].
      destruct l as [|[|]]; [congruence| |lia].
      destruct (pr_up _ _ 0 va Hr) as [q1 Hq1]; [by rewrite Hq0|lia|congruence].
Qed.

(** [walk] without [alloc] finds the slot of the leaf entry, or 0 when the path
    is not there. *)
Lemma walk_ro t s va :
  pt_rep (k_mem s) t -> 0 <= va < MAXVA -> walk (pt_root t) va false s = Ok (slot_of t va) s.
Proof.
  intros Hr Hva. unfold walk. destruct (Z.leb_spec MAXVA va); [lia|].
  apply (walk_levels_ro 2); [done|lia|]. rewrite key_root by done. apply Hr.
Qed.
End walk.

(** *** Adding page-table pages *)
Section grow.
Context `{Layout}.

(** Pages move from the free list to the page table, and only the pages of the two
    change. *)
Record vm_grow (s : kstate) (F : gset Z) (t : ptab) (s' : kstate) (F' : gset Z) (t' : ptab) : Prop := {
  vg_inv : vm_inv s' F' t';
  vg_frame : frame s s';
  vg_root : pt_root t' = pt_root t;
  vg_tbl : tbl t ⊆ tbl t';
  vg_free : F' ⊆ F;
  vg_total : F' ∪ pt_pages t' = F ∪ pt_pages t;
  vg_out : mem_out (F ∪ pt_pages t) (k_mem s) (k_mem s')
}.

Lemma vm_grow_refl s F t : vm_inv s F t -> vm_grow s F t s F t.
Proof. by split; auto with xv6. Qed.

Lemma vm_grow_trans s1 F1 t1 s2 F2 t2 s3 F3 t3 :
  vm_grow s1 F1 t1 s2 F2 t2 -> vm_grow s2 F2 t2 s3 F3 t3 -> vm_grow s1 F1 t1 s3 F3 t3.
Proof.
  intros [] []. split; [done|by eapply frame_trans|congruence|by etrans|by etrans|congruence|].
  eapply mem_out_trans; [done|]. by rewrite <- vg_total0.
Qed.

Lemma vm_inv_pages_good s F t : vm_inv s F t -> forall b, b ∈ F ∪ pt_pages t -> good_page b.
Proof.
  intros (HF & Hr & _) b Hb. apply elem_of_union in Hb as [Hb|Hb]; [by eapply kmem_free_good|].
  apply elem_of_pt_pages in Hb as [x Hx]. by eapply pr_good.
Qed.

Lemma pt_page_in t x p : tbl t !! x = Some p -> p ∈ pt_pages t.
Proof. intros Hp. apply elem_of_pt_pages. eauto. Qed.

(** The state after the new page [a] has been cleared and linked into slot [i] of
    the node page [p]. *)
Definition linked (a p i : Z) (m : mem) : mem :=
  st64 (st_bytes m a (replicate PGSIZE_nat 0)) (p + 8 * i) (mkpte a PTE_V).

Lemma page_sep a b : good_page a -> good_page b -> a <> b -> a + 4096 <= b \/ b + 4096 <= a.
Proof. intros Ha Hb Hne. apply aligned_apart; [apply Ha|apply Hb|done]. Qed.

(** A node that is not there has no children. *)
Lemma no_children m t l j i :
  pt_rep m t -> (l < 2)%nat -> tbl t !! (l, j) = None -> 0 <= i < 512 -> entry t l (j * 512 + i) = 0.
Proof.
  intros Hr Hl Hnone Hi. destruct l as [|l]; simpl.
  - destruct (lf t !! _) as [e|] eqn:He; [|done].
    destruct (pr_leaf _ _ Hr _ _ He) as [_ [q Hq]]. rewrite slot_key in Hq by done. congruence.
  - destruct (tbl t !! (l, _)) as [q|] eqn:Hq; [|done].
    destruct (pr_level _ _ Hr _ _ _ Hq) as [[-> _]|[_ [q' Hq']]]; [lia|].
    rewrite slot_key in Hq' by done. congruence.
Qed.

(** A write to slot [i] of page [p] is seen there and nowhere else. *)
Lemma slot_write m t x p i y q j v :
  pt_rep m t -> tbl t !! x = Some p -> tbl t !! y = Some q -> 0 <= i < 512 -> 0 <= j < 512 ->
  ld64 (st64 m (p + 8 * i) v) (q + 8 * j) =
    if decide (x = y /\ i = j) then u64 v else ld64 m (q + 8 * j).
Proof.
  intros Hr Hp Hq Hi Hj. case_decide as Hd.
  - destruct Hd as [-> ->]. replace q with p by congruence. apply ld64_st64_same.
  - apply ld64_st64_disjoint. destruct (decide (p = q)) as [->|Hne].
    + assert (x = y) as -> by (by eapply pr_inj). assert (i <> j) by (by intros ->; apply Hd). lia.
    + destruct (page_sep p q) as [?|?]; [by eapply pr_good|by eapply pr_good|done|lia|lia].
Qed.

Section linking.
Variables (m : mem) (t : ptab) (a : Z) (l : nat) (k p i : Z).
Hypothesis Hr : pt_rep m t.
Hypothesis Ha : good_page a.
Hypothesis Hni : a ∉ pt_pages t.
Hypothesis Hp : tbl t !! (S l, k) = Some p.
Hypothesis Hi : 0 <= i < 512.
Hypothesis Hnone : tbl t !! (l, k * 512 + i) = None.

Local Abbreviation j := (k * 512 + i).
Local Abbreviation t' := (set_tbl (<[(l, j) := a]> (tbl t)) t).

Lemma linked_level : (l < 2)%nat.
Proof. destruct (pr_level _ _ Hr _ _ _ Hp) as [[? _]|[? _]]; lia. Qed.

Lemma linked_slot_new i0 : 0 <= i0 < 512 -> ld64 (linked a p i m) (a + 8 * i0) = entry t' l (j * 512 + i0).
Proof.
  intros Hi0. pose proof linked_level. unfold linked. rewrite ld64_st64_disjoint.
  2:{ destruct (page_sep p a) as [?|?]; [by eapply pr_good|done| |lia|lia].
      intros ->. by eapply Hni, pt_page_in. }
  rewrite ld64_zero_page by done. rewrite <- (no_children m t l j i0) by done.
  destruct l as [|l']; simpl; [done|]. by rewrite lookup_insert_ne by (intros [=]; lia).
Qed.

Lemma linked_slot_old l0 k0 p0 i0 :
  tbl t !! (l0, k0) = Some p0 -> 0 <= i0 < 512 ->
  ld64 (linked a p i m) (p0 + 8 * i0) = entry t' l0 (k0 * 512 + i0).
Proof.
  intros Hp0 Hi0. assert (Hne0 : p0 <> a) by (intros ->; by eapply Hni, pt_page_in).
  assert (Hr' : pt_rep (st_bytes m a (replicate PGSIZE_nat 0)) t).
  { eapply (pt_rep_out _ _ _ {[a]}); [done|set_solver|set_solver|].
    apply mem_out_fill. set_solver. }
  unfold linked. rewrite (slot_write _ _ _ _ _ _ _ _ _ Hr' Hp Hp0) by done. case_decide as Hd.
  - destruct Hd as [[= <- <-] <-]. simpl. rewrite lookup_insert_eq. apply wrap_small.
    pose proof (mkpte_V_range a Ha). lia.
  - rewrite (pr_slot _ _ Hr' _ _ _ _ Hp0 Hi0). destruct l0 as [|l0]; simpl; [done|].
    rewrite lookup_insert_ne; [done|]. intros [= -> Heq].
    destruct (slot_key_inj k i k0 i0) as [-> ->]; [done|done|done|]. by apply Hd.
Qed.

Lemma linked_rep : pt_rep (linked a p i m) t'.
Proof.
  pose proof linked_level. split; simpl.
  - rewrite lookup_insert_ne; [apply Hr|]. intros [= -> _]. lia.
  - intros l0 k0 p0 i0 Hp0 Hi0. apply lookup_insert_Some in Hp0 as [[[= <- <-] <-]|[Hne Hp0]].
    + by apply linked_slot_new.
    + by apply linked_slot_old.
  - intros x y q Hx Hy. apply lookup_insert_Some in Hx as [[<- <-]|[? Hx]];
      apply lookup_insert_Some in Hy as [[<- ?]|[? Hy]]; subst; try done.
    + by destruct Hni; eapply pt_page_in.
    + by destruct Hni; eapply pt_page_in.
    + by eapply pr_inj.
  - intros x q Hx. apply lookup_insert_Some in Hx as [[_ <-]|[_ Hx]]; [done|by eapply pr_good].
  - intros l0 k0 q Hq. apply lookup_insert_Some in Hq as [[[= <- <-] <-]|[_ Hq]].
    + right. split; [lia|]. rewrite slot_key by done. rewrite lookup_insert_ne by (intros [=]; lia). eauto.
    + destruct (pr_level _ _ Hr _ _ _ Hq) as [?|[? Hup]]; [by left|right]. split; [done|].
      rewrite lookup_insert_is_Some. destruct (decide ((l, j) = (S l0, k0 / 512))); eauto.
  - intros v e He. destruct (pr_leaf _ _ Hr _ _ He) as [? Hq]. split; [done|].
    rewrite lookup_insert_is_Some. destruct (decide ((l, j) = (0%nat, v / 512))); eauto.
Qed.
End linking.

Lemma pt_pages_insert t x a :
  tbl t !! x = None -> pt_pages (set_tbl (<[x := a]> (tbl t)) t) = {[a]} ∪ pt_pages t.
Proof. intros Hx. unfold pt_pages. simpl. by rewrite map_img_insert_notin_L. Qed.

Lemma vm_link s F t s1 a l k p i :
  vm_inv s F t -> a ∈ F -> kmem_free s1 (F ∖ {[a]}) -> kmem_only a s s1 ->
  tbl t !! (S l, k) = Some p -> 0 <= i < 512 -> tbl t !! (l, k * 512 + i) = None ->
  vm_grow s F t (set_k_mem (linked a p i (k_mem s1)) s1) (F ∖ {[a]})
    (set_tbl (<[(l, k * 512 + i) := a]> (tbl t)) t).
Proof.
  intros Hinv Ha HF1 Ho Hp Hi Hnone. pose proof (vm_inv_pages_good _ _ _ Hinv) as Hgood.
  destruct Hinv as (HF & Hr & Hd).
  assert (Hga : good_page a) by set_solver. assert (Hni : a ∉ pt_pages t) by set_solver.
  assert (Hpp : p ∈ pt_pages t) by (by eapply pt_page_in).
  assert (Hr1 : pt_rep (k_mem s1) t).
  { eapply (pt_rep_out _ _ _ {[a]}); [done|set_solver|set_solver|]. apply (kmem_only_out a); set_solver. }
  assert (Hout : mem_out ({[a]} ∪ pt_pages t) (k_mem s1) (linked a p i (k_mem s1))).
  { eapply mem_out_trans; [apply (mem_out_fill a _ _ 0); set_solver|].
    apply mem_out_slot; [set_solver|done]. }
  split; rewrite ?pt_pages_insert by done.
  - split_and!; [|by apply linked_rep|rewrite pt_pages_insert by done; set_solver].
    eapply kmem_free_out; [done| | |exact Hout]; set_solver.
  - apply frame_set_mem. by eapply frame_kmem_only.
  - done.
  - simpl. by apply insert_subseteq.
  - set_solver.
  - apply leibniz_equiv. intros x. destruct (decide (x = a)); set_solver.
  - simpl. eapply mem_out_trans; [eapply (kmem_only_out a); [set_solver|done]|].
    eapply mem_out_mono; [|exact Hout]. set_solver.
Qed.

Lemma has_0 f : has 0 f = false.
Proof. done. Qed.

Lemma walk_levels_alloc l s F t p va :
  vm_inv s F t -> (l <= 2)%nat -> tbl t !! (l, key l va) = Some p ->
  wp (walk_levels l p va true) (fun r s' => exists F' t', vm_grow s F t s' F' t' /\ lf t' = lf t /\
    ((r = 0 /\ F' = ∅) \/ exists q, tbl t' !! (0%nat, key 0 va) = Some q /\ r = q + 8 * PX 0 va)) s.
Proof.
  revert s F t p. induction l as [|l IH]; intros s F t p Hinv Hl Hp.
  - apply wp_ret. exists F, t. split_and!; [by apply vm_grow_refl|done|]. right. eauto.
  - unfold walk_levels; fold walk_levels. apply wp_bind, wp_gets.
    pose proof Hinv as (HF & Hr & Hd). rewrite (walk_entry _ _ _ _ _ Hr Hp).
    destruct (tbl t !! (l, key l va)) as [q|] eqn:Hq.
    + rewrite has_mkpte_V, PTE2PA_mkpte_V by (by eapply pr_good). apply IH; [done|lia|done].
    + rewrite has_0. apply wp_bind. eapply wp_mono; [by apply kalloc_law|].
      intros a s1 [(-> & -> & -> & HF')|(Ha & HF1 & Ho)].
      { apply wp_ret. exists ∅, t. split_and!; [|done|by left]. split; auto with xv6; [by split_and!|apply frame_settle]. }
      assert (Hga : good_page a) by (exact (kmem_free_good _ _ _ HF Ha)).
      rewrite (proj2 (Z.eqb_neq a 0)) by (by apply good_page_nonzero).
      apply wp_bind, wp_memset. apply wp_bind, wp_modify.
      pose proof (key_split_S l va) as Hks.
      pose proof (vm_link s F t s1 a l (key (S l) va) p (PX (Z.of_nat (S l)) va) Hinv Ha HF1 Ho Hp
        (PX_range (Z.of_nat (S l)) va ltac:(lia))) as Hg. rewrite Hks in Hg. specialize (Hg Hq).
      eapply wp_mono; [apply IH; [apply Hg|lia|simpl; apply lookup_insert_eq]|].
      intros r s' (F' & t' & Hg' & Hlf & Hres). exists F', t'. split_and!; [|done|done]. by eapply vm_grow_trans.
Qed.

Lemma walk_alloc s F t va :
  vm_inv s F t -> 0 <= va < MAXVA ->
  wp (walk (pt_root t) va true) (fun r s' => exists F' t', vm_grow s F t s' F' t' /\ lf t' = lf t /\
    ((r = 0 /\ F' = ∅) \/ exists q, tbl t' !! (0%nat, key 0 va) = Some q /\ r = q + 8 * PX 0 va)) s.
Proof.
  intros Hinv Hva. unfold walk. destruct (Z.leb_spec MAXVA va); [lia|].
  apply walk_levels_alloc; [done|lia|]. rewrite key_root by done. apply Hinv.
Qed.
End grow.

(** *** Leaf entries *)

(** The leaf entries after [n] pages from [pa] have been mapped at page [v]. *)
Fixpoint map_range (lf : gmap Z Z) (v pa perm : Z) (n : nat) : gmap Z Z :=
  match n with
  | O => lf
  | S j => <[v + Z.of_nat j := mkpte (pa + Z.of_nat j * PGSIZE) (Z.lor perm PTE_V)]> (map_range lf v pa perm j)
  end.

(** ... and after [n] pages at [v] have been unmapped. *)
Fixpoint unmap_range (lf : gmap Z Z) (v : Z) (n : nat) : gmap Z Z :=
  match n with
  | O => lf
  | S j => delete (v + Z.of_nat j) (unmap_range lf v j)
  end.

(** Flags of a leaf. *)
Definition perm_ok (perm : Z) : Prop := 0 <= perm < 2 ^ 10 /\ Z.lor perm PTE_V <> PTE_V.

Lemma map_range_lookup lf v pa perm n w :
  map_range lf v pa perm n !! w =
    if decide (v <= w < v + Z.of_nat n) then Some (mkpte (pa + (w - v) * PGSIZE) (Z.lor perm PTE_V))
    else lf !! w.
Proof.
  induction n as [|n IH]; simpl.
  - rewrite decide_False by lia. done.
  - destruct (decide (w = v + Z.of_nat n)) as [->|Hne].
    + rewrite lookup_insert_eq, decide_True by lia. do 3 f_equal. lia.
    + rewrite lookup_insert_ne, IH by done. repeat case_decide; (done || lia).
Qed.

Lemma unmap_range_lookup lf v n w :
  unmap_range lf v n !! w = if decide (v <= w < v + Z.of_nat n) then None else lf !! w.
Proof.
  induction n as [|n IH]; simpl.
  - by rewrite decide_False by lia.
  - destruct (decide (w = v + Z.of_nat n)) as [->|Hne].
    + rewrite lookup_delete_eq, decide_True by lia. done.
    + rewrite lookup_delete_ne, IH by done. repeat case_decide; (done || lia).
Qed.

Lemma flags_lor_V perm : 0 <= perm < 2 ^ 10 -> 0 <= Z.lor perm PTE_V < 2 ^ 10.
Proof.
  intros Hp. assert (H0 : 0 <= Z.lor perm PTE_V) by (apply Z.lor_nonneg; split; [lia|done]).
  split; [done|]. destruct (Z.eq_dec (Z.lor perm PTE_V) 0) as [->|Hn]; [done|].
  apply Z.log2_lt_pow2; [lia|]. rewrite Z.log2_lor by (lia || done).
  destruct (Z.eq_dec perm 0) as [->|Hp0]; [done|].
  apply Z.max_lub_lt; [|done]. apply Z.log2_lt_pow2; lia.
Qed.

Lemma has_lor_V e : has (Z.lor e PTE_V) PTE_V = true.
Proof.
  unfold has. apply negb_true_iff, Z.eqb_neq. intros Hz.
  assert (Hb : Z.testbit (Z.land (Z.lor e PTE_V) PTE_V) 0 = Z.testbit 0 0) by (by rewrite Hz).
  rewrite Z.land_spec, Z.lor_spec in Hb. simpl in Hb. by rewrite orb_true_r in Hb.
Qed.

Lemma leaf_pte_mkpte pa perm :
  0 <= pa < 2 ^ 56 -> perm_ok perm -> leaf_pte (mkpte pa (Z.lor perm PTE_V)).
Proof.
  intros Hpa [Hr Hne]. pose proof (flags_lor_V perm Hr) as Hf. split_and!.
  - apply mkpte_range; lia.
  - apply mkpte_range; lia.
  - unfold mkpte. rewrite Z.lor_assoc. apply has_lor_V.
  - unfold mkpte. by rewrite PTE_FLAGS_mkpte by lia.
Qed.

Section leaf.
Context `{Layout}.

Lemma leaf_read m t va q :
  pt_rep m t -> tbl t !! (0%nat, key 0 va) = Some q ->
  ld64 m (q + 8 * PX 0 va) = default 0 (lf t !! (va / PGSIZE)).
Proof.
  intros Hr Hq. rewrite (pr_slot _ _ Hr _ _ _ _ Hq) by (apply PX_range; lia).
  simpl. by rewrite key_split_0.
Qed.

Lemma leaf_write m t va q o :
  pt_rep m t -> tbl t !! (0%nat, key 0 va) = Some q -> (forall e, o = Some e -> leaf_pte e) ->
  pt_rep (st64 m (q + 8 * PX 0 va) (default 0 o)) (set_lf (partial_alter (fun _ => o) (va / PGSIZE) (lf t)) t).
Proof.
  intros Hr Hq Ho. pose proof (PX_range 0 va ltac:(lia)) as HPX. pose proof Hr as [H1 H2 H3 H4 H5 H6].
  split; simpl; [done| |done|done|done|].
  - intros l k p i Hp Hi. rewrite (slot_write _ _ _ _ _ _ _ _ _ Hr Hq Hp) by done.
    case_decide as Hd.
    + destruct Hd as [[= <- <-] <-]. simpl. rewrite key_split_0, lookup_partial_alter_eq.
      apply wrap_small. destruct o as [e|]; [|done]. destruct (Ho e eq_refl) as [? _]. simpl; lia.
    + rewrite (H2 l k p i) by done. destruct l as [|l]; [|done]. simpl. rewrite lookup_partial_alter_ne; [done|].
      rewrite <- key_split_0. intros Heq. destruct (slot_key_inj (key 0 va) (PX 0 va) k i) as [<- <-]; [done|done|done|].
      by apply Hd.
  - intros v e He. destruct (decide (v = va / PGSIZE)) as [->|Hne].
    + rewrite lookup_partial_alter_eq in He. split; [by apply Ho|]. rewrite <- key_0. eauto.
    + rewrite lookup_partial_alter_ne in He by done. by apply H6.
Qed.

Lemma vm_leaf s F t va q o :
  vm_inv s F t -> tbl t !! (0%nat, key 0 va) = Some q -> (forall e, o = Some e -> leaf_pte e) ->
  vm_grow s F t (set_k_mem (st64 (k_mem s) (q + 8 * PX 0 va) (default 0 o)) s) F
    (set_lf (partial_alter (fun _ => o) (va / PGSIZE) (lf t)) t).
Proof.
  intros Hinv Hq Ho. pose proof (vm_inv_pages_good _ _ _ Hinv) as Hgood. destruct Hinv as (HF & Hr & Hd).
  assert (Hqp : q ∈ pt_pages t) by (by eapply pt_page_in).
  assert (Hout : mem_out (pt_pages t) (k_mem s) (st64 (k_mem s) (q + 8 * PX 0 va) (default 0 o)))
    by (apply mem_out_slot; [done|apply PX_range; lia]).
  split; [| |done|done|done|done|].
  - split_and!; [|by apply leaf_write|done]. eapply kmem_free_out; [done|done|set_solver|done].
  - apply frame_set_mem, frame_refl.
  - eapply mem_out_mono; [|exact Hout]. set_solver.
Qed.
End leaf.

(** ** [mappages] *)
Section mappages.
Context `{Layout}.

Lemma mappages_step s F t a pa perm last :
  vm_inv s F t -> 0 <= a < MAXVA -> 0 <= pa < 2 ^ 56 -> perm_ok perm -> lf t !! (a / PGSIZE) = None ->
  wp (pte <- walk (pt_root t) a true ;;
      if pte =? 0 then ret (inr (-1)) else
      e <- get64 pte ;;
      if has e PTE_V then panic "mappages: remap" else
      set64 pte (Z.lor (Z.lor (PA2PTE pa) perm) PTE_V) ;;
      if a =? last then ret (inr 0) else
      ret (inl (u64 (a + PGSIZE), u64 (pa + PGSIZE))))
    (fun r s' => exists F' t', vm_grow s F t s' F' t' /\
      ((r = inr (-1) /\ F' = ∅ /\ lf t' = lf t) \/
       (r = (if a =? last then inr 0 else inl (u64 (a + PGSIZE), u64 (pa + PGSIZE))) /\
        lf t' = <[a / PGSIZE := mkpte pa (Z.lor perm PTE_V)]> (lf t)))) s.
Proof.
  intros Hinv Ha Hpa Hperm Hnone. apply wp_bind. eapply wp_mono; [by apply walk_alloc|].
  intros r s1 (F1 & t1 & Hg & Hlf & [[-> ->]|(q & Hq & ->)]).
  { apply wp_ret. exists ∅, t1. split; [done|]. by left. }
  pose proof (vg_inv _ _ _ _ _ _ Hg) as Hinv1. pose proof Hinv1 as (HF1 & Hr1 & Hd1).
  assert (Hgq : good_page q) by (by eapply pr_good). apply good_page_pos in Hgq.
  pose proof (PX_range 0 a ltac:(lia)). destruct (Z.eqb_spec (q + 8 * PX 0 a) 0); [lia|].
  apply wp_bind, wp_gets. rewrite (leaf_read _ _ _ _ Hr1 Hq), Hlf, Hnone. simpl. apply wp_bind, wp_modify.
  rewrite <- Z.lor_assoc. fold (mkpte pa (Z.lor perm PTE_V)).
  pose proof (vm_leaf s1 F1 t1 a q (Some (mkpte pa (Z.lor perm PTE_V))) Hinv1 Hq) as Hg2.
  assert (Hleaf : forall e, Some (mkpte pa (Z.lor perm PTE_V)) = Some e -> leaf_pte e)
    by (intros e [= <-]; by apply leaf_pte_mkpte). specialize (Hg2 Hleaf). simpl in Hg2.
  destruct (Z.eqb_spec a last); apply wp_ret; eexists _, _;
    (split; [by eapply vm_grow_trans|right; split; [done|simpl; by rewrite Hlf]]).
Qed.

(** What [mappages] does: all [n] pages are mapped, or it ran out of memory after
    mapping a prefix of them. *)
Lemma mappages_spec s F t va n pa perm :
  vm_inv s F t -> 0 <= va -> (PGSIZE | va) -> (0 < n)%nat -> va + Z.of_nat n * PGSIZE <= MAXVA ->
  0 <= pa -> pa + Z.of_nat n * PGSIZE <= 2 ^ 56 -> perm_ok perm ->
  (forall w, va / PGSIZE <= w < va / PGSIZE + Z.of_nat n -> lf t !! w = None) ->
  wp (mappages (pt_root t) va (Z.of_nat n * PGSIZE) pa perm) (fun r s' => exists F' t' j,
    vm_grow s F t s' F' t' /\ lf t' = map_range (lf t) (va / PGSIZE) pa perm j /\
    ((r = 0 /\ j = n) \/ (r = -1 /\ (j < n)%nat /\ F' = ∅))) s.
Proof.
  intros Hinv Hva [v ->] Hn Hmax Hpa Hpa' Hperm Hnone. unfold mappages.
  rewrite !Z.mod_mul by done. rewrite MAXVA_pow in Hmax. unfold PGSIZE in Hmax, Hpa', Hva.
  destruct (Z.eqb_spec (Z.of_nat n * PGSIZE) 0); [unfold PGSIZE in *; lia|]. simpl negb. cbv iota.
  rewrite !Z.div_mul in * by done.
  rewrite (wrap_small 64 (v * PGSIZE + _ - _)) by (unfold PGSIZE; lia).
  apply (wp_while _ (fun '(a, pc) s' => exists F' t' j,
    vm_grow s F t s' F' t' /\ lf t' = map_range (lf t) v pa perm j /\ (j < n)%nat /\
    a = (v + Z.of_nat j) * PGSIZE /\ pc = pa + Z.of_nat j * PGSIZE)
    (fun '(a, _) => Z.to_nat (v + Z.of_nat n - 1 - a / PGSIZE))).
  - exists F, t, 0%nat. split_and!; [by apply vm_grow_refl|done|done|unfold PGSIZE; lia|unfold PGSIZE; lia].
  - rewrite Z.div_mul by done. lia.
  - intros [a pc] s1 (F1 & t1 & j & Hg & Hlf & Hj & -> & ->).
    rewrite <- (vg_root _ _ _ _ _ _ Hg). unfold PGSIZE in Hmax, Hpa'.
    eapply wp_mono; [apply (mappages_step s1 F1 t1); [apply Hg|rewrite MAXVA_pow; unfold PGSIZE; lia|
      unfold PGSIZE; lia|done|]|].
    { rewrite Z.div_mul, Hlf, map_range_lookup, decide_False by (done || lia). apply Hnone. lia. }
    intros r s2 (F2 & t2 & Hg2 & [(-> & -> & Hlf2)|[-> Hlf2]]).
    + exists ∅, t2, j. split_and!; [by eapply vm_grow_trans|congruence|by right].
    + rewrite Z.div_mul in Hlf2 by done. rewrite Hlf in Hlf2.
      change (lf t2 = map_range (lf t) v pa perm (S j)) in Hlf2.
      destruct (Z.eqb_spec ((v + Z.of_nat j) * PGSIZE) (v * PGSIZE + Z.of_nat n * PGSIZE - PGSIZE)) as [Heq|Hne].
      * exists F2, t2, (S j). split_and!; [by eapply vm_grow_trans|done|left]. unfold PGSIZE in Heq. lia.
      * rewrite !(wrap_small 64) by (unfold PGSIZE; lia). unfold PGSIZE in Hne. split.
        -- exists F2, t2, (S j). split_and!; [by eapply vm_grow_trans|done|lia|unfold PGSIZE; lia|unfold PGSIZE; lia].
        -- replace ((v + Z.of_nat j) * PGSIZE + PGSIZE) with ((v + Z.of_nat j + 1) * PGSIZE) by lia.
           rewrite !Z.div_mul by done. lia.
Qed.
End mappages.

(** ** [uvmunmap] *)

Definition leaf_page (lf : gmap Z Z) (v : Z) : Z := PTE2PA (default 0 (lf !! v)).
Definition leaf_pages (lf : gmap Z Z) (v : Z) (n : nat) : list Z := leaf_page lf <$> zrange v n.

Lemma zrange_snoc lo n : zrange lo (S n) = zrange lo n ++ [lo + Z.of_nat n].
Proof. replace (S n) with (n + 1)%nat by lia. by rewrite zrange_app, zrange_S. Qed.

Lemma leaf_pages_snoc lf v n : leaf_pages lf v (S n) = leaf_pages lf v n ++ [leaf_page lf (v + Z.of_nat n)].
Proof. unfold leaf_pages. by rewrite zrange_snoc, fmap_app. Qed.

Lemma elem_of_leaf_pages lf v n a :
  a ∈ leaf_pages lf v n <-> exists w, v <= w < v + Z.of_nat n /\ a = leaf_page lf w.
Proof.
  unfold leaf_pages. rewrite list_elem_of_fmap. split; intros (w & H1 & H2).
  - exists w. apply elem_of_zrange in H2. auto.
  - exists w. split; [done|]. by apply elem_of_zrange.
Qed.

Section unmap.
Context `{Layout}.

Lemma slot_nonzero m t va :
  pt_rep m t -> is_Some (lf t !! (va / PGSIZE)) ->
  exists q, tbl t !! (0%nat, key 0 va) = Some q /\ slot_of t va = q + 8 * PX 0 va /\ slot_of t va <> 0.
Proof.
  intros Hr [e He]. destruct (pr_leaf _ _ Hr _ _ He) as [_ [q Hq]]. rewrite <- key_0 in Hq.
  exists q. unfold slot_of. rewrite Hq. split_and!; [done|done|].
  pose proof (pr_good _ _ Hr _ _ Hq) as Hg. apply good_page_pos in Hg. pose proof (PX_range 0 va). lia.
Qed.

(** What freeing a leaf's page needs. *)
Definition freeable (F : gset Z) (t : ptab) (a : Z) : Prop := good_page a /\ (a ∉ F) /\ (a ∉ pt_pages t).

Lemma freeable_next F t v j n lf' :
  (j < n)%nat -> NoDup (leaf_pages (lf t) v n) -> Forall (freeable F t) (leaf_pages (lf t) v n) ->
  freeable (list_to_set (leaf_pages (lf t) v j) ∪ F) (set_lf lf' t) (leaf_page (lf t) (v + Z.of_nat j)).
Proof.
  intros Hj Hnd Hall. rewrite Forall_forall in Hall.
  destruct (Hall (leaf_page (lf t) (v + Z.of_nat j))) as (Hg & HF & Ht).
  { apply elem_of_leaf_pages. exists (v + Z.of_nat j). split; [lia|done]. }
  split_and!; [done| |done]. apply not_elem_of_union. split; [|done].
  rewrite elem_of_list_to_set. replace n with (S j + (n - S j))%nat in Hnd by lia.
  unfold leaf_pages in Hnd. rewrite zrange_app, fmap_app in Hnd.
  apply NoDup_app in Hnd as (Hnd & _). change (NoDup (leaf_pages (lf t) v (S j))) in Hnd.
  rewrite leaf_pages_snoc in Hnd. apply NoDup_app in Hnd as (_ & Hnd & _).
  intros Hin. apply (Hnd _ Hin). set_solver.
Qed.

Lemma vm_inv_kfree s F t a :
  vm_inv s F t -> freeable F t a ->
  wp (kfree a) (fun _ s' => vm_inv s' ({[a]} ∪ F) t /\ kmem_only a s s') s.
Proof.
  intros (HF & Hr & Hd) (Hg & HaF & Hat). eapply wp_mono; [by apply kfree_law|].
  intros [] s' [HF' Ho]. split; [|done]. split_and!; [done| |set_solver].
  eapply (pt_rep_out _ _ _ {[a]}); [done|set_solver|set_solver|]. apply (kmem_only_out a); set_solver.
Qed.

Lemma uvmunmap_step s F t a (do_free : bool) :
  vm_inv s F t -> 0 <= a < MAXVA -> is_Some (lf t !! (a / PGSIZE)) ->
  let pg := leaf_page (lf t) (a / PGSIZE) in
  (do_free = true -> freeable F t pg) ->
  wp (pte <- walk (pt_root t) a false ;;
      if pte =? 0 then panic "uvmunmap: walk" else
      e <- get64 pte ;;
      if negb (has e PTE_V) then panic "uvmunmap: not mapped" else
      if PTE_FLAGS e =? PTE_V then panic "uvmunmap: not a leaf" else
      when do_free (kfree (PTE2PA e)) ;;
      set64 pte 0 ;;
      ret (inl (u64 (a + PGSIZE))))
    (fun r s' => r = @inl _ unit (u64 (a + PGSIZE)) /\
      vm_inv s' (if do_free then {[pg]} ∪ F else F) (set_lf (delete (a / PGSIZE) (lf t)) t) /\
      frame s s' /\ mem_out ((if do_free then {[pg]} else ∅) ∪ pt_pages t) (k_mem s) (k_mem s')) s.
Proof.
  intros Hinv Ha Hsome pg Hfree. pose proof Hinv as (HF & Hr & Hd).
  apply wp_bind. eapply wp_ok; [by apply (walk_ro t)|].
  destruct (slot_nonzero _ t a Hr Hsome) as (q & Hq & Hslot & Hnz).
  destruct (Z.eqb_spec (slot_of t a) 0); [done|]. rewrite Hslot. destruct Hsome as [e He].
  apply wp_bind, wp_gets. rewrite (leaf_read _ _ _ _ Hr Hq), He. simpl default.
  pose proof (pr_leaf _ _ Hr _ _ He) as [(_ & HV & Hfl) _]. rewrite HV. simpl negb. cbv iota.
  destruct (Z.eqb_spec (PTE_FLAGS e) PTE_V); [done|].
  assert (Hpg : PTE2PA e = pg) by (subst pg; unfold leaf_page; by rewrite He). rewrite Hpg.
  apply wp_bind. eapply (wp_mono _ (fun _ s1 => vm_inv s1 (if do_free then {[pg]} ∪ F else F) t /\
    frame s s1 /\ mem_out ((if do_free then {[pg]} else ∅) ∪ pt_pages t) (k_mem s) (k_mem s1))).
  { destruct do_free; simpl; [|apply wp_ret; split_and!; auto with xv6].
    eapply wp_mono; [apply (vm_inv_kfree s F t); auto|]. intros [] s1 [Hinv1 Ho].
    split_and!; [done|by eapply frame_kmem_only|]. eapply kmem_only_out; [|done]. set_solver. }
  intros [] s1 (Hinv1 & Hfr & Hout). apply wp_bind, wp_modify, wp_ret.
  destruct (vm_leaf s1 _ t a q None Hinv1 Hq) as [Hinv2 Hfr2 _ _ _ _ _]; [done|].
  split_and!; [done|done|by eapply frame_trans|]. eapply mem_out_trans; [done|].
  simpl. eapply mem_out_slot; [|apply PX_range; lia].
  apply elem_of_union_r. by eapply pt_page_in.
Qed.

Lemma uvmunmap_spec s F t va n (do_free : bool) :
  vm_inv s F t -> 0 <= va -> (PGSIZE | va) -> va + Z.of_nat n * PGSIZE <= MAXVA ->
  (forall w, va / PGSIZE <= w < va / PGSIZE + Z.of_nat n -> is_Some (lf t !! w)) ->
  let ps := leaf_pages (lf t) (va / PGSIZE) n in
  (do_free = true -> NoDup ps /\ Forall (freeable F t) ps) ->
  wp (uvmunmap (pt_root t) va (Z.of_nat n) do_free) (fun _ s' =>
    vm_inv s' (if do_free then list_to_set ps ∪ F else F) (set_lf (unmap_range (lf t) (va / PGSIZE) n) t) /\
    frame s s' /\ mem_out ((if do_free then list_to_set ps else ∅) ∪ pt_pages t) (k_mem s) (k_mem s')) s.
Proof.
  intros Hinv Hva [v ->] Hmax Hmapped ps Hfree. subst ps. unfold uvmunmap.
  rewrite !Z.mod_mul by done. simpl negb. cbv iota. rewrite !Z.div_mul in * by done.
  rewrite MAXVA_pow in Hmax. unfold PGSIZE in Hmax, Hva.
  rewrite (wrap_small 64 (v * PGSIZE + _)) by (unfold PGSIZE; lia).
  apply (wp_while _ (fun a s' => exists j, (j <= n)%nat /\ a = (v + Z.of_nat j) * PGSIZE /\
    vm_inv s' (if do_free then list_to_set (leaf_pages (lf t) v j) ∪ F else F)
      (set_lf (unmap_range (lf t) v j) t) /\ frame s s' /\
    mem_out ((if do_free then list_to_set (leaf_pages (lf t) v n) else ∅) ∪ pt_pages t) (k_mem s) (k_mem s'))
    (fun a => Z.to_nat (v + Z.of_nat n - a / PGSIZE))).
  - exists 0%nat. split_and!; [lia|unfold PGSIZE; lia| |apply frame_refl|apply mem_out_refl].
    destruct t, do_free; [|done]. simpl. by rewrite union_empty_l_L.
  - rewrite Z.div_mul by done. lia.
  - intros a s1 (j & Hj & -> & Hinv1 & Hfr & Hout).
    destruct (Z.ltb_spec ((v + Z.of_nat j) * PGSIZE) (v * PGSIZE + Z.of_nat n * PGSIZE)) as [Hlt|Hge];
      simpl negb; cbv iota.
    2:{ apply wp_ret. assert (j = n) as -> by (unfold PGSIZE in *; lia). done. }
    assert (Hjn : (j < n)%nat) by (unfold PGSIZE in Hlt; lia).
    set (t1 := set_lf (unmap_range (lf t) v j) t) in *.
    assert (Hlf1 : lf t1 !! (v + Z.of_nat j) = lf t !! (v + Z.of_nat j))
      by (simpl; rewrite unmap_range_lookup, decide_False by lia; done).
    assert (Hpg : leaf_page (lf t1) (v + Z.of_nat j) = leaf_page (lf t) (v + Z.of_nat j))
      by (unfold leaf_page; by rewrite Hlf1).
    eapply wp_mono; [apply (uvmunmap_step s1 _ t1 ((v + Z.of_nat j) * PGSIZE) do_free Hinv1)|].
    + rewrite MAXVA_pow; unfold PGSIZE; lia.
    + rewrite Z.div_mul, Hlf1 by done. apply Hmapped. lia.
    + rewrite Z.div_mul, Hpg by done. intros ->. destruct (Hfree eq_refl) as [Hnd Hall].
      by apply (freeable_next F t v j n).
    + rewrite Z.div_mul, Hpg by done. intros r s2 (-> & Hinv2 & Hfr2 & Hout2).
      rewrite (wrap_small 64) by (unfold PGSIZE; lia). split.
      * exists (S j). split_and!; [lia|unfold PGSIZE; lia| |by eapply frame_trans|].
        -- rewrite leaf_pages_snoc, list_to_set_app_L. simpl list_to_set. rewrite union_empty_r_L.
           destruct do_free; [|done].
           by rewrite (union_comm_L (list_to_set (leaf_pages (lf t) v j))), <- union_assoc_L.
        -- eapply mem_out_trans; [done|]. eapply mem_out_mono; [|exact Hout2].
           assert (leaf_page (lf t) (v + Z.of_nat j) ∈ leaf_pages (lf t) v n); [|destruct do_free; set_solver].
           apply elem_of_leaf_pages. exists (v + Z.of_nat j). split; [lia|done].
      * replace ((v + Z.of_nat j) * PGSIZE + PGSIZE) with ((v + Z.of_nat j + 1) * PGSIZE) by lia.
        rewrite !Z.div_mul by done. lia.
Qed.
End unmap.

(** ** Two concrete states

    [sample_vm] has an empty page table and four free pages; in [sample_mapped]
    virtual page 0 is mapped, with one page left free. *)
Definition empty_pt (p : Z) : ptab := mkPtab p {[ (2%nat, 0) := p ]} ∅.

Lemma empty_rep `{Layout} m p :
  good_page p -> (forall i, 0 <= i < 512 -> ld64 m (p + 8 * i) = 0) -> pt_rep m (empty_pt p).
Proof.
  intros Hg Hz. assert (Hone : forall x q, tbl (empty_pt p) !! x = Some q -> x = (2%nat, 0) /\ q = p)
    by (intros x q Hx; simpl in Hx; apply lookup_singleton_Some in Hx as [<- <-]; done).
  split.
  - apply lookup_singleton_eq.
  - intros l k q i Hq Hi. destruct (Hone _ _ Hq) as [[= -> ->] ->]. rewrite Hz by done. simpl.
    by rewrite lookup_singleton_ne.
  - intros x y q Hx Hy. destruct (Hone _ _ Hx), (Hone _ _ Hy). congruence.
  - intros x q Hx. by destruct (Hone _ _ Hx) as [_ ->].
  - intros l k q Hq. destruct (Hone _ _ Hq) as [[= -> ->] _]. by left.
  - intros v e He. simpl in He. by rewrite lookup_empty in He.
Qed.

Module Sample.
Definition page (i : Z) : Z := KERNBASE + 0x40000 + i * PGSIZE.

#[local] Existing Instance sample_layout.

Lemma page_good i : 0 <= i < 8 -> good_page (page i).
Proof.
  intros Hi. split; [exists (0x80040 + i); unfold page, KERNBASE, PGSIZE; lia|].
  simpl. unfold page, PHYSTOP, KERNBASE, PGSIZE. lia.
Qed.

Definition free_mem : mem := st64 (st64 (st64 ∅ (page 1) (page 2)) (page 2) (page 3)) (page 3) (page 4).
Definition vm : kstate := set_k_mem free_mem (set_k_freelist (page 1) boot_state).

Lemma free_vm : kmem_free vm (list_to_set [page 1; page 2; page 3; page 4]).
Proof.
  split_and!; [apply hart_ok_set_mem, hart_ok_set_freelist, boot_hart_ok|done|].
  exists [page 1; page 2; page 3; page 4]. split; [|done]. split_and!; [vm_compute; tauto| |].
  - apply (bool_decide_unpack _). vm_compute. exact I.
  - repeat constructor; apply page_good; lia.
Qed.

Lemma inv_vm : vm_inv vm (list_to_set [page 1; page 2; page 3; page 4]) (empty_pt (page 0)).
Proof.
  split_and!; [apply free_vm| |].
  - apply empty_rep; [by apply page_good|]. intros i Hi. simpl. unfold free_mem.
    rewrite !ld64_st64_disjoint; [done|unfold page, KERNBASE, PGSIZE; lia..].
  - unfold pt_pages. simpl. rewrite map_img_singleton_L. set_solver by (vm_compute; congruence).
Qed.

Definition mapped_mem : mem :=
  st64 (linked (page 2) (page 1) 0 (linked (page 1) (page 0) 0 ∅)) (page 2 + 8 * PX 0 0) (mkpte (page 3) 0x17).
Definition mapped_pt : ptab :=
  set_lf {[ 0 := mkpte (page 3) 0x17 ]}
    (set_tbl (<[(0%nat, 0) := page 2]> (<[(1%nat, 0) := page 1]> {[ (2%nat, 0) := page 0 ]})) (empty_pt (page 0))).
Definition mapped : kstate := set_k_mem mapped_mem (set_k_freelist (page 4) boot_state).

Lemma mapped_pages : pt_pages mapped_pt = {[page 2; page 1; page 0]}.
Proof.
  unfold pt_pages. simpl. rewrite !map_img_insert_notin_L by done. rewrite map_img_singleton_L.
  apply leibniz_equiv. set_solver.
Qed.

Lemma mapped_rep : pt_rep mapped_mem mapped_pt.
Proof.
  assert (H0 : pt_rep (∅ : mem) (empty_pt (page 0))) by (apply empty_rep; [by apply page_good|done]).
  assert (H1 := linked_rep ∅ _ (page 1) 1 0 (page 0) 0 H0 (page_good 1 ltac:(lia))).
  assert (H2 := fun H => linked_rep _ _ (page 2) 0 0 (page 1) 0 (H1 H eq_refl ltac:(lia) eq_refl) (page_good 2 ltac:(lia))).
  assert (Hn1 : page 1 ∉ pt_pages (empty_pt (page 0))).
  { unfold pt_pages. simpl. rewrite map_img_singleton_L. by apply not_elem_of_singleton. }
  specialize (H1 Hn1 eq_refl ltac:(lia) eq_refl). specialize (H2 Hn1).
  assert (H3 := fun H => leaf_write _ _ 0 (page 2) (Some (mkpte (page 3) 0x17)) (H2 H eq_refl ltac:(lia) eq_refl) eq_refl).
  apply H3.
  - rewrite pt_pages_insert by done. unfold pt_pages. simpl. rewrite map_img_singleton_L.
    apply not_elem_of_union. split; by apply not_elem_of_singleton.
  - intros e [= <-]. apply (leaf_pte_mkpte (page 3) 0x16); [by vm_compute|]. split; [lia|done].
Qed.

Lemma inv_mapped : vm_inv mapped {[page 4]} mapped_pt.
Proof.
  split_and!; [|apply mapped_rep|rewrite mapped_pages; set_solver by (vm_compute; congruence)].
  split_and!; [apply hart_ok_set_mem, hart_ok_set_freelist, boot_hart_ok|done|].
  exists [page 4]. split; [|simpl; by rewrite union_empty_r_L]. split_and!.
  - split; [done|]. simpl. unfold mapped_mem, linked.
    unfold st64. rewrite !ld64_st_disjoint; [done|
      rewrite ?length_replicate, ?PGSIZE_nat_Z, ?length_le_bytes; change (PX 0 0) with 0;
      unfold page, KERNBASE, PGSIZE; lia..].
  - apply NoDup_singleton.
  - apply Forall_singleton. by apply page_good.
Qed.
End Sample.
