(* ===== verification/Sched.v ===== *)
(** Switching between processes: [sched], [yield], [sleep], [wakeup], [kill], the
    scheduler's choice of a process and copies on behalf of the current process, all of
    [kernel/proc.c], and the sleep-locks of [kernel/sleeplock.c].

    A process that calls [sched] becomes a [Yield]: the state it switches away in, and
    what it does when some hart's scheduler switches back to it.  [patience] bounds
    how many times a loop around [sleep] goes round in the model. *)
From S2P Require Import Prelude Machine Riscv State Spinlock KString Kalloc Vm.
From Stdlib Require Import ZArith Lia.
From stdpp Require Import base strings numbers gmap list.
Local Open Scope Z_scope.
Local Open Scope m_scope.

Class Patience := patience : nat.
Definition one_round : Patience := 0%nat.

Definition get_proc (i : nat) : K proc := gets (fun s => k_procs s !!! i).
Definition upd_proc (i : nat) (f : proc -> proc) : K unit :=
  modify (fun s => set_k_procs (alter f i (k_procs s)) s).

(** [myproc()] where the code dereferences the result: a null pointer faults in the
    kernel, and [kerneltrap] panics. *)
Definition curproc : K nat :=
  p <- myproc ;;
  match p with Some i => ret i | None => panic "kerneltrap" end.

Definition get_intena : K bool := c <- mycpu ;; k <- get_cpu c ;; ret (intena k).

Definition sched : K unit :=
  i <- curproc ;;
  h <- holding (L_proc i) ;;
  if negb h then panic "sched p->lock" else
  c <- mycpu ;;
  k <- get_cpu c ;;
  if negb (noff k =? 1) then panic "sched locks" else
  p <- get_proc i ;;
  if decide (pstate p = RUNNING) then panic "sched running" else
  on <- intr_get ;;
  if on : bool then panic "sched interruptible" else
  ie <- get_intena ;;
  swtch ;;
  c <- mycpu ;;
  upd_cpu c (set_intena ie).

Definition yield : K unit :=
  i <- curproc ;;
  acquire (L_proc i) ;;
  upd_proc i (set_pstate RUNNABLE) ;;
  sched ;;
  release (L_proc i).

Definition sleep (c : chan) (lk : lockid) : K unit :=
  i <- curproc ;;
  acquire (L_proc i) ;;
  release lk ;;
  upd_proc i (set_pchan c) ;;
  upd_proc i (set_pstate SLEEPING) ;;
  sched ;;
  upd_proc i (set_pchan C_null) ;;
  release (L_proc i) ;;
  acquire lk.

Definition wakeup (c : chan) : K unit :=
  for_each (seq 0 NPROC) (fun i =>
    me <- myproc ;;
    if decide (Some i = me) then ret tt else
    acquire (L_proc i) ;;
    p <- get_proc i ;;
    when (bool_decide (pstate p = SLEEPING) && bool_decide (pchan p = c))
      (upd_proc i (set_pstate RUNNABLE)) ;;
    release (L_proc i)).

Definition kill (pid : Z) : K Z :=
  r <- for_ret (seq 0 NPROC) (fun i =>
    acquire (L_proc i) ;;
    p <- get_proc i ;;
    if ppid p =? pid then
      upd_proc i (set_pkilled 1) ;;
      p <- get_proc i ;;
      when (bool_decide (pstate p = SLEEPING)) (upd_proc i (set_pstate RUNNABLE)) ;;
      release (L_proc i) ;;
      ret (Some 0)
    else
      release (L_proc i) ;;
      ret None) ;;
  match r with Some v => ret v | None => ret (-1) end.

Definition setkilled (i : nat) : K unit :=
  acquire (L_proc i) ;;
  upd_proc i (set_pkilled 1) ;;
  release (L_proc i).

Definition killed (i : nat) : K Z :=
  acquire (L_proc i) ;;
  p <- get_proc i ;;
  let k := pkilled p in
  release (L_proc i) ;;
  ret k.

(** The scheduler's visit to one process; whether some process has run in this pass.
    Where the scheduler switches to the process it is a [Yield], and goes on when the
    process switches back. *)
Definition scheduler_visit (c i : nat) (found : bool) : K bool :=
  acquire (L_proc i) ;;
  p <- get_proc i ;;
  found' <- (if decide (pstate p = RUNNABLE) then
               upd_proc i (set_pstate RUNNING) ;;
               upd_cpu c (set_cproc (Some i)) ;;
               swtch ;;
               upd_cpu c (set_cproc None) ;;
               ret true
             else ret found) ;;
  release (L_proc i) ;;
  ret found'.

Fixpoint scheduler_visits (c : nat) (l : list nat) (found : bool) : K bool :=
  match l with
  | [] => ret found
  | i :: l' => found' <- scheduler_visit c i found ;; scheduler_visits c l' found'
  end.

(** One pass of the scheduler over the process table; whether it ran a process. *)
Definition scheduler_pass (c : nat) : K bool :=
  intr_on ;;
  scheduler_visits c (seq 0 NPROC) false.

(** The instruction that waits for an interrupt changes nothing that the model has. *)
Definition wfi : K unit := ret tt.

(** The loop of the scheduler does not end: in the model it runs out of patience. *)
Definition scheduler `{Patience} : K unit :=
  c <- mycpu ;;
  upd_cpu c (set_cproc None) ;;
  while_fuel OutOfFuel (S patience) (fun _ : unit =>
    found <- scheduler_pass c ;;
    when (negb found) (
      intr_on ;;
      wfi) ;;
    ret (inl tt)) tt.

(** ** Copies to a user or a kernel address *)

Definition either_copyout (user_dst : bool) (dst : Z) (src : list Z) : K Z :=
  p <- myproc ;;
  if user_dst then
    match p with
    | Some i => p <- get_proc i ;; copyout (ppagetable p) dst src
    | None => panic "kerneltrap"
    end
  else put_bytes dst src ;; ret 0.

Definition either_copyin (user_src : bool) (src : Z) (len : nat) : K (Z * list Z) :=
  p <- myproc ;;
  if user_src then
    match p with
    | Some i => p <- get_proc i ;; copyin (ppagetable p) src len
    | None => panic "kerneltrap"
    end
  else bs <- get_bytes src len ;; ret (0, bs).

(** ** Sleep-locks *)

Definition slock_of (s : kstate) (l : slid) : sleeplock := default free_sleeplock (k_slocks s !! l).
Definition get_slock (l : slid) : K sleeplock := gets (fun s => slock_of s l).
(** A lock that is not in the table is free. *)
Definition put_slock (l : slid) (v : sleeplock) : K unit :=
  modify (fun s => set_k_slocks
    (if decide (v = free_sleeplock) then delete l (k_slocks s) else <[l := v]> (k_slocks s)) s).

Definition initsleeplock (l : slid) : K unit :=
  initlock (L_sleep l) ;;
  v <- get_slock l ;;
  put_slock l (set_slocked false v) ;;
  v <- get_slock l ;;
  put_slock l (set_spid 0 v).

Section sleeplocks.
Context `{Patience}.

Definition acquiresleep (l : slid) : K unit :=
  acquire (L_sleep l) ;;
  while_fuel OutOfFuel (S patience) (fun _ : unit =>
    v <- get_slock l ;;
    if slocked v then sleep (C_sleeplock l) (L_sleep l) ;; ret (inl tt) else ret (inr tt)) tt ;;
  v <- get_slock l ;;
  put_slock l (set_slocked true v) ;;
  i <- curproc ;;
  p <- get_proc i ;;
  v <- get_slock l ;;
  put_slock l (set_spid (ppid p) v) ;;
  release (L_sleep l).
End sleeplocks.

Definition releasesleep (l : slid) : K unit :=
  acquire (L_sleep l) ;;
  v <- get_slock l ;;
  put_slock l (set_slocked false v) ;;
  v <- get_slock l ;;
  put_slock l (set_spid 0 v) ;;
  wakeup (C_sleeplock l) ;;
  release (L_sleep l).

Definition holdingsleep (l : slid) : K bool :=
  acquire (L_sleep l) ;;
  v <- get_slock l ;;
  r <- (if slocked v then i <- curproc ;; p <- get_proc i ;; ret (spid v =? ppid p) else ret false) ;;
  release (L_sleep l) ;;
  ret r.

(** ** What [wakeup] does *)

Definition plocks_free (s : kstate) : Prop := forall i, lock_free (L_proc i) s.

Definition woken (c : chan) (me : option nat) (j : nat) (p : proc) : proc :=
  if decide (Some j = me) then p else
  if bool_decide (pstate p = SLEEPING) && bool_decide (pchan p = c) then set_pstate RUNNABLE p else p.
Definition wake_upto (n : nat) (c : chan) (me : option nat) (ps : list proc) : list proc :=
  imap (fun j p => if (j <? n)%nat then woken c me j p else p) ps.
Definition wake_all (c : chan) (me : option nat) (ps : list proc) : list proc := imap (woken c me) ps.

Lemma wake_upto_0 c me ps : wake_upto 0 c me ps = ps.
Proof. apply list_eq. intros j. unfold wake_upto. rewrite list_lookup_imap. by destruct (ps !! j). Qed.

Lemma wake_upto_S n c me ps : wake_upto (S n) c me ps = alter (woken c me n) n (wake_upto n c me ps).
Proof.
  apply list_eq. intros j. unfold wake_upto. destruct (decide (j = n)) as [->|Hne].
  - rewrite list_lookup_alter_eq, !list_lookup_imap. destruct (ps !! n); [|done]. simpl.
    rewrite (proj2 (Nat.ltb_lt n (S n))) by lia. by rewrite Nat.ltb_irrefl.
  - rewrite list_lookup_alter_ne, !list_lookup_imap by done. destruct (ps !! j); [|done]. simpl.
    f_equal. destruct (Nat.ltb_spec j (S n)), (Nat.ltb_spec j n); (done || lia).
Qed.

Lemma wake_upto_all c me ps n : (length ps <= n)%nat -> wake_upto n c me ps = wake_all c me ps.
Proof.
  intros Hn. apply list_eq. intros j. unfold wake_upto, wake_all. rewrite !list_lookup_imap.
  destruct (ps !! j) eqn:Hj; [|done]. simpl. apply lookup_lt_Some in Hj.
  by rewrite (proj2 (Nat.ltb_lt j n)) by lia.
Qed.

Lemma length_wake_upto n c me ps : length (wake_upto n c me ps) = length ps.
Proof. apply length_imap. Qed.

Lemma length_wake_all c me ps : length (wake_all c me ps) = length ps.
Proof. apply length_imap. Qed.

Lemma set_k_procs_id s : set_k_procs (k_procs s) s = s.
Proof. by destruct s. Qed.

Lemma plocks_free_settle s : plocks_free s -> plocks_free (settle s).
Proof. intros Hp i. by apply lock_free_settle. Qed.

Lemma alter_id_at {A} `{Inhabited A} (l : list A) i f : f (l !!! i) = l !!! i -> alter f i l = l.
Proof.
  intros Hf. apply list_eq. intros j. destruct (decide (i = j)) as [->|Hne].
  - rewrite list_lookup_alter_eq. destruct (l !! j) as [x|] eqn:Hx; [|done]. simpl.
    rewrite list_lookup_total_alt, Hx in Hf. simpl in Hf. by rewrite Hf.
  - by rewrite list_lookup_alter_ne.
Qed.

Lemma alter_ext_at' {A} `{Inhabited A} (l : list A) i f g : f (l !!! i) = g (l !!! i) -> alter f i l = alter g i l.
Proof.
  intros Hf. apply list_eq. intros j. destruct (decide (i = j)) as [->|Hne].
  - rewrite !list_lookup_alter_eq. destruct (l !! j) as [x|] eqn:Hx; [|done]. simpl.
    rewrite list_lookup_total_alt, Hx in Hf. simpl in Hf. by rewrite Hf.
  - by rewrite !list_lookup_alter_ne.
Qed.

Section wake.
Variables (c : chan) (s : kstate).
Hypothesis Hok : hart_ok s.
Hypothesis Hpl : plocks_free s.

Local Abbreviation me := (cproc (cur s)).
Local Definition wstate (i : nat) : kstate :=
  set_k_procs (wake_upto i c me (k_procs s)) (match i with O => s | _ => settle s end).

Lemma settle_wstate i : settle (wstate i) = set_k_procs (wake_upto i c me (k_procs s)) (settle s).
Proof. unfold wstate. rewrite settle_set_procs. destruct i; [done|]. by rewrite settle_settle. Qed.

Lemma hart_ok_wstate i : hart_ok (wstate i).
Proof. unfold wstate. apply hart_ok_set_procs. destruct i; [done|by apply hart_ok_settle]. Qed.

Lemma me_wstate i : cproc (cur (wstate i)) = me.
Proof. unfold wstate. rewrite cur_set_procs. destruct i; [done|by apply cproc_settle]. Qed.

Lemma wakeup_round i :
  (me0 <- myproc ;;
   if decide (Some i = me0) then ret tt else
   acquire (L_proc i) ;;
   p <- get_proc i ;;
   when (bool_decide (pstate p = SLEEPING) && bool_decide (pchan p = c)) (upd_proc i (set_pstate RUNNABLE)) ;;
   release (L_proc i)) (wstate i) = Ok tt (wstate (S i)).
Proof.
  erewrite bind_ok; [|apply myproc_run, hart_ok_wstate]. rewrite me_wstate, settle_wstate.
  set (ps := wake_upto i c me (k_procs s)).
  assert (Hfin : forall ps', ps' = alter (woken c me i) i ps -> set_k_procs ps' (settle s) = wstate (S i))
    by (intros ps' ->; unfold wstate; by rewrite wake_upto_S).
  destruct (decide (Some i = me)) as [Heq|Hne].
  - unfold ret. f_equal. apply Hfin. symmetry. apply alter_id_at. unfold woken. by rewrite decide_True.
  - assert (Hok1 : hart_ok (set_k_procs ps (settle s))) by (by apply hart_ok_set_procs, hart_ok_settle).
    assert (Hfree : lock_free (L_proc i) (set_k_procs ps (settle s))) by (by apply lock_free_set_procs, lock_free_settle).
    erewrite bind_ok; [|by apply acquire_run]. unfold get_proc, gets, bind. cbn [after].
    change (k_procs (acquired (L_proc i) (set_k_procs ps (settle s)))) with ps.
    destruct (bool_decide (pstate (ps !!! i) = SLEEPING) && bool_decide (pchan (ps !!! i) = c)) eqn:E; unfold when.
    + unfold upd_proc, modify. cbn [after]. rewrite release_run by hart_tac.
      autorewrite with kst. f_equal. rewrite released_acquired by (try apply hart_ok_settle; try apply lock_free_settle; done).
      rewrite settle_settle. apply Hfin. simpl. apply alter_ext_at'. unfold woken. by rewrite decide_False, E.
    + cbn [after]. unfold ret. cbn [after]. rewrite release_run by hart_tac. f_equal.
      rewrite released_acquired by done. rewrite settle_set_procs, settle_settle. apply Hfin.
      symmetry. apply alter_id_at. unfold woken. by rewrite decide_False, E.
Qed.

Lemma wakeup_run :
  length (k_procs s) = NPROC -> wakeup c s = Ok tt (set_k_procs (wake_all c me (k_procs s)) (settle s)).
Proof.
  intros Hlen. unfold wakeup.
  replace s with (wstate 0) at 1 by (unfold wstate; rewrite wake_upto_0; apply set_k_procs_id).
  rewrite (for_each_seq_run wstate) by (intros i _; apply wakeup_round).
  f_equal. unfold wstate. simpl Nat.add. rewrite wake_upto_all by (rewrite Hlen; done). done.
Qed.
End wake.

(** The states of some processes have changed, and nothing else about them. *)
Definition quiet (ps ps' : list proc) : Prop := Forall2 (fun p p' => exists st, p' = set_pstate st p) ps ps'.

Lemma quiet_refl ps : quiet ps ps.
Proof. apply Forall2_same_length_lookup_2; [done|]. intros i p p' Hp Hp'. exists (pstate p). replace p' with p by congruence. by destruct p. Qed.

Lemma quiet_trans ps1 ps2 ps3 : quiet ps1 ps2 -> quiet ps2 ps3 -> quiet ps1 ps3.
Proof.
  intros H1 H2. unfold quiet in *. rewrite Forall2_lookup in *. intros i. specialize (H1 i). specialize (H2 i).
  destruct H1 as [p1 p2 [st1 ->]|]; inversion H2 as [p2' p3 [st2 ->]|]; subst; constructor. by exists st2.
Qed.

Lemma quiet_wake c me ps : quiet ps (wake_all c me ps).
Proof.
  unfold quiet, wake_all. rewrite Forall2_lookup. intros i. rewrite list_lookup_imap.
  destruct (ps !! i) as [p|]; simpl; constructor. unfold woken.
  repeat case_match; (by exists RUNNABLE) || (exists (pstate p); by destruct p).
Qed.

Lemma quiet_length ps ps' : quiet ps ps' -> length ps' = length ps.
Proof. intros H. symmetry. by eapply Forall2_length. Qed.

Lemma quiet_pid ps ps' i : quiet ps ps' -> ppid (ps' !!! i) = ppid (ps !!! i).
Proof.
  intros H. unfold quiet in H. rewrite Forall2_lookup in H. specialize (H i). rewrite !list_lookup_total_alt.
  destruct H as [p p' [st ->]|]; done.
Qed.

Lemma quiet_at ps ps' i : quiet ps ps' -> exists st, ps' !!! i = set_pstate st (ps !!! i).
Proof.
  intros H. unfold quiet in H. rewrite Forall2_lookup in H. specialize (H i). rewrite !list_lookup_total_alt.
  destruct H as [p p' [st ->]|]; [by exists st|by exists UNUSED].
Qed.

(** ** What the sleep-lock operations do *)

(** The process the hart runs. *)
Definition runs (i : nat) (s : kstate) : Prop := cproc (cur s) = Some i.

Lemma curproc_run i s : hart_ok s -> runs i s -> curproc s = Ok i (settle s).
Proof. intros Hok Hr. unfold curproc. rewrite (bind_ok _ _ _ _ _ (myproc_run s Hok)). by rewrite Hr. Qed.

Lemma cproc_acquired l s : hart_ok s -> cproc (cur (acquired l s)) = cproc (cur s).
Proof.
  intros Hok. change (cur (acquired l s)) with (cur (pushed s)). rewrite cur_pushed by done.
  unfold push_cpu. by destruct (noff (cur s) =? 0).
Qed.

Lemma curproc_acquired i l s :
  hart_ok s -> runs i s -> curproc (acquired l s) = Ok i (acquired l s).
Proof.
  intros Hok Hr. rewrite (curproc_run i); [by rewrite settle_acquired|by apply hart_ok_acquired|].
  unfold runs. by rewrite cproc_acquired.
Qed.

Lemma settle_set_slocks' v s : settle (set_k_slocks v s) = set_k_slocks v (settle s).
Proof. done. Qed.

Section sleeplock_runs.
Context `{Patience}.
Variables (l : slid) (i : nat) (s : kstate).
Hypothesis Hok : hart_ok s.
Hypothesis Hfree : lock_free (L_sleep l) s.
Hypothesis Hrun : runs i s.

Lemma curproc_sl v : curproc (acquired (L_sleep l) (set_k_slocks v s)) = Ok i (acquired (L_sleep l) (set_k_slocks v s)).
Proof. apply curproc_acquired; [by apply hart_ok_set_slocks|done]. Qed.

Lemma acquiresleep_run :
  k_slocks s !! l = None ->
  acquiresleep l s =
    Ok tt (set_k_slocks (<[l := mkSleeplock true (ppid (k_procs s !!! i))]> (k_slocks s)) (settle s)).
Proof.
  intros Hnone. unfold acquiresleep. erewrite bind_ok; [|by apply acquire_run].
  assert (Hslock : slock_of (acquired (L_sleep l) s) l = free_sleeplock)
    by (unfold slock_of; change (k_slocks (acquired (L_sleep l) s)) with (k_slocks s); by rewrite Hnone).
  erewrite bind_ok.
  2:{ unfold while_fuel, bind, get_slock, gets. cbn [after]. rewrite Hslock. simpl. unfold ret. reflexivity. }
  erewrite bind_ok; [|unfold get_slock, gets; by rewrite Hslock]. simpl.
  erewrite bind_ok; [|reflexivity]. change (k_slocks (acquired (L_sleep l) s)) with (k_slocks s).
  rewrite <- acquired_set_slocks. erewrite bind_ok; [|apply curproc_sl].
  unfold get_proc, get_slock, put_slock, gets, modify, bind, slock_of. cbn [after]. simpl. rewrite lookup_insert_eq. simpl.
  rewrite insert_insert_eq.
  rewrite release_run by hart_tac. autorewrite with kst. by rewrite released_acquired.
Qed.

Lemma releasesleep_run :
  plocks_free s -> length (k_procs s) = NPROC ->
  releasesleep l s =
    Ok tt (set_k_slocks (delete l (k_slocks s))
      (set_k_procs (wake_all (C_sleeplock l) (Some i) (k_procs s)) (settle s))).
Proof.
  intros Hpl Hlen. unfold releasesleep. erewrite bind_ok; [|by apply acquire_run].
  assert (Hput : forall v0, bind (put_slock l (set_slocked false v0)) (fun _ => bind (get_slock l) (fun v => put_slock l (set_spid 0 v)))
    (acquired (L_sleep l) s) = Ok tt (acquired (L_sleep l) (set_k_slocks (delete l (k_slocks s)) s))).
  { intros v0. unfold put_slock, get_slock, gets, modify, bind, slock_of. cbn [after]. simpl.
    destruct (decide (set_slocked false v0 = free_sleeplock)).
    - rewrite lookup_delete_eq. simpl. unfold set_k_slocks. simpl. by rewrite delete_delete_eq.
    - rewrite lookup_insert_eq. simpl. unfold set_k_slocks. simpl. by rewrite delete_insert_eq. }
  unfold get_slock at 1, gets at 1. unfold bind at 1. cbn [after].
  match goal with |- bind (put_slock l (set_slocked false ?v0)) _ _ = _ => specialize (Hput v0) end.
  unfold bind at 1. unfold bind at 1 in Hput.
  destruct (put_slock l _ (acquired (L_sleep l) s)) as [[] s1| |] eqn:E1; cbn [after] in Hput |- *; [|done..].
  unfold bind at 1. unfold bind at 1 in Hput.
  destruct (get_slock l s1) as [v1 s2| |] eqn:E2; cbn [after] in Hput |- *; [|done..].
  erewrite bind_ok; [|exact Hput]. set (s3 := set_k_slocks (delete l (k_slocks s)) s).
  assert (Hok3 : hart_ok s3) by (by apply hart_ok_set_slocks).
  erewrite bind_ok; [|apply wakeup_run].
  - rewrite settle_acquired by done. rewrite release_run by hart_tac. f_equal.
    rewrite released_set_procs, released_acquired by done. rewrite cproc_acquired by done.
    change (cproc (cur s3)) with (cproc (cur s)). rewrite Hrun. unfold s3. by autorewrite with kst.
  - by apply hart_ok_acquired.
  - intros j. apply lock_free_acquired; [discriminate|]. apply Hpl.
  - done.
Qed.

Lemma holdingsleep_run pid :
  k_slocks s !! l = Some (mkSleeplock true pid) ->
  holdingsleep l s = Ok (pid =? ppid (k_procs s !!! i)) (settle s).
Proof.
  intros Hl. unfold holdingsleep. erewrite bind_ok; [|by apply acquire_run].
  erewrite bind_ok; [|reflexivity]. unfold slock_of.
  change (k_slocks (acquired (L_sleep l) s)) with (k_slocks s). rewrite Hl. simpl.
  erewrite bind_ok; [|erewrite bind_ok; [|by apply curproc_acquired]; reflexivity].
  erewrite bind_ok; [|apply release_run; hart_tac]. rewrite released_acquired by done. reflexivity.
Qed.

End sleeplock_runs.
