(* ===== verification/Uvm.v ===== *)
(** User address spaces: what [uvmalloc], [uvmdealloc], [uvmcopy], [freewalk] and
    [uvmfree] of [kernel/vm.c] do to a process's pages.

    [uspace] is the invariant of a process's page table whose first [n] pages are
    its memory: every page is mapped, no two to the same physical page, none to a
    free page or to a page of the table itself.  [all_pages] is everything the
    allocator and the process own together; the theorems show that no operation
    loses or duplicates a page, also when it runs out of memory half way. *)
From S2P Require Import Prelude Machine Riscv State Spinlock KString Kalloc Vm.
From Stdlib Require Import ZArith Lia.
From stdpp Require Import base strings numbers gmap list.
Local Open Scope Z_scope.
Local Open Scope m_scope.

(** The first page number above user memory: the page of the trap frame. *)
Definition UTOP : Z := TRAPFRAME / PGSIZE.

Lemma UTOP_MAXVA : UTOP * PGSIZE < MAXVA.
Proof. done. Qed.

(** Number of pages of a process of [sz] bytes. *)
Definition npg (sz : Z) : nat := Z.to_nat (PGROUNDUP sz / PGSIZE).

Section uvm.
Context `{Layout}.

Record uspace (s : kstate) (F : gset Z) (t : ptab) (n : nat) : Prop := {
  us_inv : vm_inv s F t;
  us_top : Z.of_nat n <= UTOP;
  us_mapped : forall w, 0 <= w < Z.of_nat n -> is_Some (lf t !! w);
  us_nodup : NoDup (leaf_pages (lf t) 0 n);
  us_own : Forall (freeable F t) (leaf_pages (lf t) 0 n);
  us_above : forall w, Z.of_nat n <= w < UTOP -> lf t !! w = None
}.

Definition all_pages (F : gset Z) (t : ptab) (n : nat) : gset Z :=
  F ∪ pt_pages t ∪ list_to_set (leaf_pages (lf t) 0 n).

Lemma leaf_pages_ext lf lf' v n :
  (forall w, v <= w < v + Z.of_nat n -> lf' !! w = lf !! w) -> leaf_pages lf' v n = leaf_pages lf v n.
Proof.
  intros Hext. unfold leaf_pages. apply list_fmap_ext. intros i w Hw.
  apply list_elem_of_lookup_2, elem_of_zrange in Hw. unfold leaf_page. by rewrite Hext.
Qed.

Lemma leaf_pages_inj lf n v w :
  NoDup (leaf_pages lf 0 n) -> 0 <= v < Z.of_nat n -> 0 <= w < Z.of_nat n ->
  leaf_page lf v = leaf_page lf w -> v = w.
Proof.
  intros Hnd Hv Hw Heq.
  assert (Hl : forall x, 0 <= x < Z.of_nat n -> leaf_pages lf 0 n !! Z.to_nat x = Some (leaf_page lf x)).
  { intros x Hx. unfold leaf_pages. rewrite list_lookup_fmap, zrange_lookup by lia. simpl. do 2 f_equal. lia. }
  pose proof (Hl w Hw) as Hlw. rewrite <- Heq in Hlw.
  pose proof (NoDup_lookup _ _ _ _ Hnd (Hl v Hv) Hlw). lia.
Qed.

Lemma leaf_pages_app lf v n k : leaf_pages lf v (n + k) = leaf_pages lf v n ++ leaf_pages lf (v + Z.of_nat n) k.
Proof. unfold leaf_pages. by rewrite zrange_app, fmap_app. Qed.

Lemma size_of_list (l : list Z) : (size (list_to_set l : gset Z) <= length l)%nat.
Proof.
  induction l as [|a l IH]; simpl; [done|]. rewrite size_union_alt, size_singleton.
  pose proof (subseteq_size (list_to_set l ∖ {[a]} : gset Z) (list_to_set l) ltac:(set_solver)). lia.
Qed.

Lemma size_union_pages l v n (G : gset Z) : (size (list_to_set (leaf_pages l v n) ∪ G) <= n + size G)%nat.
Proof.
  rewrite size_union_alt. pose proof (size_of_list (leaf_pages l v n)) as H1. pose proof (subseteq_size (G ∖ list_to_set (leaf_pages l v n)) G ltac:(set_solver)) as H2.
  unfold leaf_pages in H1 at 2. rewrite length_fmap, zrange_length in H1. lia.
Qed.

(** *** Giving back the pages from [k] up *)
Lemma uspace_unmap s F t n k :
  uspace s F t n -> (k <= n)%nat ->
  let t' := set_lf (unmap_range (lf t) (Z.of_nat k) (n - k)) t in
  wp (uvmunmap (pt_root t) (Z.of_nat k * PGSIZE) (Z.of_nat (n - k)) true) (fun _ s' => exists F',
    uspace s' F' t' k /\ all_pages F' t' k = all_pages F t n /\ frame s s' /\ (F ⊆ F' /\ (size F' <= n - k + size F)%nat) /\
    mem_out (list_to_set (leaf_pages (lf t) (Z.of_nat k) (n - k)) ∪ pt_pages t) (k_mem s) (k_mem s')) s.
Proof.
  intros [Hinv Htop Hmap Hnd Hown Habove] Hk t'.
  replace n with (k + (n - k))%nat in Hnd, Hown by lia.
  rewrite leaf_pages_app in Hnd, Hown. rewrite Z.add_0_l in Hnd, Hown.
  apply NoDup_app in Hnd as (Hnd1 & Hdis & Hnd2). apply Forall_app in Hown as [Hown1 Hown2].
  pose proof UTOP_MAXVA.
  eapply wp_mono; [apply (uvmunmap_spec s F t (Z.of_nat k * PGSIZE) (n - k) true)|];
    rewrite ?Z.div_mul by done.
  - done.
  - unfold PGSIZE. lia.
  - by exists (Z.of_nat k).
  - unfold PGSIZE in *. lia.
  - intros w Hw. apply Hmap. lia.
  - done.
  - intros [] s' (Hinv' & Hfr & Hout).
    assert (Hlp : leaf_pages (lf t') 0 k = leaf_pages (lf t) 0 k).
    { apply leaf_pages_ext. intros w Hw. simpl. by rewrite unmap_range_lookup, decide_False by lia. }
    eexists. split_and!; [|  |done|apply union_subseteq_r|apply size_union_pages|done].
    + split; [done|lia| |by rewrite Hlp| |].
      * intros w Hw. simpl. rewrite unmap_range_lookup, decide_False by lia. apply Hmap. lia.
      * rewrite Hlp. rewrite Forall_forall in *. intros a Ha. destruct (Hown1 a Ha) as (? & ? & ?).
        split_and!; [done| |done]. apply not_elem_of_union. split; [|done].
        rewrite elem_of_list_to_set. intros Hin. by apply (Hdis a).
      * intros w Hw. simpl. rewrite unmap_range_lookup. case_decide; [done|]. apply Habove. lia.
    + unfold all_pages. rewrite Hlp. replace n with (k + (n - k))%nat at 2 by lia.
      rewrite leaf_pages_app, list_to_set_app_L, Z.add_0_l. change (pt_pages t') with (pt_pages t).
      clear. apply leibniz_equiv. set_solver.
Qed.

(** *** Mapping one more page *)
Lemma uspace_map s F t n a perm :
  uspace s F t n -> Z.of_nat n < UTOP -> freeable F t a -> a ∉ leaf_pages (lf t) 0 n -> perm_ok perm ->
  wp (mappages (pt_root t) (Z.of_nat n * PGSIZE) PGSIZE a perm) (fun r s' => exists F' t',
    frame s s' /\ pt_root t' = pt_root t /\ mem_out (F ∪ pt_pages t) (k_mem s) (k_mem s') /\
    F' ∪ pt_pages t' = F ∪ pt_pages t /\
    ((r = 0 /\ uspace s' F' t' (S n) /\ lf t' = <[Z.of_nat n := mkpte a (Z.lor perm PTE_V)]> (lf t)) \/
     (r = -1 /\ uspace s' F' t' n /\ lf t' = lf t /\ F' = ∅))) s.
Proof.
  intros [Hinv Htop Hmap Hnd Hown Habove] Hn Ha Hna Hperm. pose proof UTOP_MAXVA.
  assert (Hpa : 0 < a < 2 ^ 56 /\ a + 4096 <= 2 ^ 56).
  { destruct Ha as (Hg & _). apply good_page_bounds in Hg. unfold KERNBASE, PHYSTOP, KERNBASE, PGSIZE in Hg. lia. }
  change PGSIZE with (Z.of_nat 1 * PGSIZE) at 2.
  eapply wp_mono; [apply (mappages_spec s F t)|];
    rewrite ?Z.div_mul by done.
  - done.
  - unfold PGSIZE; lia.
  - by exists (Z.of_nat n).
  - lia.
  - unfold PGSIZE in *. lia.
  - lia.
  - unfold PGSIZE. lia.
  - done.
  - intros w Hw. apply Habove. lia.
  - intros r s' (F' & t' & j & Hg & Hlf & Hres).
    pose proof Hg as [Hinv' Hfr Hroot Htbl Hfree Htot Hout].
    assert (Hfre : forall b, freeable F t b -> freeable F' t' b).
    { intros b (? & HbF & Hbt). split_and!; [done| |]; clear - HbF Hbt Htot; set_solver. }
    exists F', t'. split_and!; [done|done|done|done|].
    destruct Hres as [[-> ->]|(-> & Hj & ->)]; [left|right].
    + simpl in Hlf. rewrite !Z.add_0_r in Hlf. split_and!; [done| |done].
      assert (Hlp : leaf_pages (lf t') 0 (S n) = leaf_pages (lf t) 0 n ++ [a]).
      { rewrite leaf_pages_snoc, Z.add_0_l. f_equal.
        - apply leaf_pages_ext. intros w Hw. rewrite Hlf. by rewrite lookup_insert_ne by lia.
        - unfold leaf_page. rewrite Hlf, lookup_insert_eq. simpl. f_equal. unfold mkpte.
          destruct Hperm. apply PTE2PA_mkpte; [lia|apply Ha|by apply flags_lor_V]. }
      split; [done|lia| | | |].
      * intros w Hw. rewrite Hlf. destruct (decide (w = Z.of_nat n)) as [->|]; [rewrite lookup_insert_eq; eauto|].
        rewrite lookup_insert_ne by done. apply Hmap. lia.
      * rewrite Hlp. apply NoDup_app. split_and!; [done| |apply NoDup_singleton].
        intros x Hx Hx'. apply list_elem_of_singleton in Hx' as ->. done.
      * rewrite Hlp. apply Forall_app. split; [by eapply Forall_impl|]. by apply Forall_singleton, Hfre.
      * intros w Hw. rewrite Hlf, lookup_insert_ne by lia. apply Habove. lia.
    + assert (j = 0%nat) as -> by lia. simpl in Hlf. split_and!; [done| |done|done].
      split; rewrite ?Hlf; try done. by eapply Forall_impl.
Qed.

(** ** Growing an address space page by page

    [grown h s1 F1 t1 n1]: since the start the space has grown from [n0] to [n1]
    pages, [h] is the pages allocated and not yet mapped, the new entries and the
    contents of their pages satisfy [R], and nothing is lost. *)
Definition page_bytes (m : mem) (a : Z) : list Z := ld_bytes m a PGSIZE_nat.

Lemma page_bytes_out P m m' a :
  good_page a -> a ∉ P -> (forall b, b ∈ P -> good_page b) -> mem_out P m m' -> page_bytes m' a = page_bytes m a.
Proof.
  intros Ha Hni Hg Ho. apply ld_bytes_ext. intros x Hx. apply (mem_out_page P _ _ a); [assumption..|].
  unfold in_page. by rewrite <- PGSIZE_nat_Z.
Qed.

Lemma page_bytes_filled m a bs : length bs = PGSIZE_nat -> page_bytes (st_bytes m a bs) a = bs.
Proof. intros Hlen. unfold page_bytes. rewrite <- Hlen. apply ld_bytes_st_same. Qed.

Lemma freeable_good F t a : freeable F t a -> good_page a.
Proof. by intros []. Qed.

Section growing.
Variables (s : kstate) (F : gset Z) (t : ptab) (n0 : nat) (R : Z -> Z -> list Z -> Prop).

Record grown (h : gset Z) (s1 : kstate) (F1 : gset Z) (t1 : ptab) (n1 : nat) : Prop := {
  gr_us : uspace s1 F1 t1 n1;
  gr_frame : frame s s1;
  gr_root : pt_root t1 = pt_root t;
  gr_n : (n0 <= n1)%nat;
  gr_total : h ∪ all_pages F1 t1 n1 = all_pages F t n0;
  gr_sub : h ∪ F1 ∪ pt_pages t1 ⊆ F ∪ pt_pages t;
  gr_held : forall a, a ∈ h -> freeable F1 t1 a /\ a ∉ leaf_pages (lf t1) 0 n1;
  gr_out : mem_out (F ∪ pt_pages t) (k_mem s) (k_mem s1);
  gr_old : forall w, ~ (Z.of_nat n0 <= w < Z.of_nat n1) -> lf t1 !! w = lf t !! w;
  gr_new : forall w, Z.of_nat n0 <= w < Z.of_nat n1 ->
    leaf_page (lf t1) w ∈ F ∪ pt_pages t /\
    R w (default 0 (lf t1 !! w)) (page_bytes (k_mem s1) (leaf_page (lf t1) w))
}.

Lemma grown_start : uspace s F t n0 -> grown ∅ s F t n0.
Proof.
  intros Hus. split; auto with xv6; [|set_solver..|intros; lia].
  by rewrite union_empty_l_L.
Qed.

Lemma leaf_owned s1 F1 t1 n1 w :
  uspace s1 F1 t1 n1 -> 0 <= w < Z.of_nat n1 -> freeable F1 t1 (leaf_page (lf t1) w).
Proof.
  intros Hus Hw. pose proof (us_own _ _ _ _ Hus) as Hall. rewrite Forall_forall in Hall.
  apply Hall, elem_of_leaf_pages. exists w. split; [lia|done].
Qed.

(** A step that changes only pages outside the space keeps its contents. *)
Lemma new_pages_out s1 F1 t1 n1 P m :
  uspace s1 F1 t1 n1 -> (forall b, b ∈ P -> good_page b) ->
  (forall a, a ∈ P -> a ∉ leaf_pages (lf t1) 0 n1) -> mem_out P (k_mem s1) m ->
  forall w, 0 <= w < Z.of_nat n1 ->
    page_bytes m (leaf_page (lf t1) w) = page_bytes (k_mem s1) (leaf_page (lf t1) w).
Proof.
  intros Hus Hg Hd Ho w Hw. apply (page_bytes_out P); [|intros Hin|done|done].
  - eapply freeable_good, leaf_owned; [done|lia].
  - apply (Hd _ Hin), elem_of_leaf_pages. exists w. split; [lia|done].
Qed.

Lemma uspace_kmem_only s1 s2 F1 F2 t1 n1 a :
  uspace s1 F1 t1 n1 -> kmem_free s2 F2 -> F2 ⊆ F1 -> a ∈ F1 -> kmem_only a s1 s2 -> uspace s2 F2 t1 n1.
Proof.
  intros [(HF & Hr & Hd) Htop Hmap Hnd Hown Habove] HF2 Hsub Ha Ho. split; try done.
  - split_and!; [done| |set_solver]. eapply (pt_rep_out _ _ _ {[a]}); [done|set_solver| |].
    + intros b Hb. apply elem_of_singleton in Hb as ->. exact (kmem_free_good _ _ _ HF Ha).
    + apply (kmem_only_out a); [set_solver|done].
  - eapply Forall_impl; [done|]. intros b (? & ? & ?). split_and!; [done|set_solver|done].
Qed.

Lemma grown_kalloc s1 F1 t1 n1 :
  grown ∅ s1 F1 t1 n1 ->
  wp kalloc (fun r s' => (r = 0 /\ F1 = ∅ /\ grown ∅ s' F1 t1 n1) \/
    (r <> 0 /\ grown {[r]} s' (F1 ∖ {[r]}) t1 n1)) s1.
Proof.
  intros [Hus Hfr Hroot Hn Htot Hsub Hheld Hout Hold Hnew].
  pose proof (us_inv _ _ _ _ Hus) as (HF & Hr & Hd).
  eapply wp_mono; [by apply kalloc_law|]. intros r s' [(-> & HFe & -> & HF')|(Ha & HF' & Ho)]; [left|right].
  - split; [done|]. split; [done|]. split; try done.
    + destruct Hus as [_ ? ? ? ? ?]. by split.
    + eapply frame_trans; [done|]. apply frame_settle.
  - assert (Hg : good_page r) by exact (kmem_free_good _ _ _ HF Ha).
    assert (Hnl : r ∉ leaf_pages (lf t1) 0 n1).
    { intros Hin. pose proof (us_own _ _ _ _ Hus) as Hall. rewrite Forall_forall in Hall.
      by destruct (Hall r Hin) as (_ & ? & _). }
    split; [by apply good_page_nonzero|]. split; try done.
    + eapply (uspace_kmem_only s1); [done|done|set_solver|done|done].
    + eapply frame_trans; [done|]. by eapply frame_kmem_only.
    + rewrite <- Htot. unfold all_pages. clear - Ha. apply leibniz_equiv. intros x.
      destruct (decide (x = r)); set_solver.
    + set_solver.
    + intros a Ha'. apply elem_of_singleton in Ha' as ->. split; [|done]. split_and!; [done|set_solver|set_solver].
    + eapply mem_out_trans; [done|]. eapply kmem_only_out; [|done]. set_solver.
    + intros w Hw. destruct (Hnew w Hw) as [? HR]. split; [done|].
      erewrite (new_pages_out s1 F1 t1 n1 {[r]}); [done|done|set_solver|set_solver| |lia].
      apply (kmem_only_out r); [set_solver|done].
Qed.

Lemma grown_fill a bs s1 F1 t1 n1 :
  grown {[a]} s1 F1 t1 n1 -> length bs = PGSIZE_nat ->
  grown {[a]} (set_k_mem (st_bytes (k_mem s1) a bs) s1) F1 t1 n1.
Proof.
  intros [Hus Hfr Hroot Hn Htot Hsub Hheld Hout Hold Hnew] Hlen.
  destruct (Hheld a) as [(Hg & HaF & Hat) Hal]; [set_solver|].
  assert (Ho : mem_out {[a]} (k_mem s1) (st_bytes (k_mem s1) a bs)).
  { pose proof (mem_out_st_bytes a {[a]} (k_mem s1) 0 bs) as Ho. rewrite Z.add_0_r, Hlen, PGSIZE_nat_Z in Ho.
    apply Ho; [set_solver|done|done]. }
  split; try done.
  - destruct Hus as [(HF & Hr & Hd) ? ? ? ? ?]. split; try done. split_and!; [|eapply pt_rep_out; [done| | |exact Ho]|done].
    + eapply kmem_free_out; [done| | |exact Ho]; set_solver.
    + set_solver.
    + set_solver.
  - by apply frame_set_mem.
  - eapply mem_out_trans; [done|]. eapply mem_out_mono; [|exact Ho]. set_solver.
  - intros w Hw. destruct (Hnew w Hw) as [? HR]. split; [done|].
    erewrite (new_pages_out s1 F1 t1 n1 {[a]}); [done|done|set_solver|set_solver|done|lia].
Qed.

Lemma grown_map a perm s1 F1 t1 n1 :
  grown {[a]} s1 F1 t1 n1 -> Z.of_nat n1 < UTOP -> perm_ok perm ->
  R (Z.of_nat n1) (mkpte a (Z.lor perm PTE_V)) (page_bytes (k_mem s1) a) ->
  wp (mappages (pt_root t) (Z.of_nat n1 * PGSIZE) PGSIZE a perm) (fun r s' => exists F' t',
    (r = 0 /\ grown ∅ s' F' t' (S n1)) \/ (r = -1 /\ F' = ∅ /\ grown {[a]} s' F' t' n1)) s1.
Proof.
  intros [Hus Hfr Hroot Hn Htot Hsub Hheld Hout Hold Hnew] Htop Hperm HRa.
  destruct (Hheld a) as [Hfa Hal]; [set_solver|]. rewrite <- Hroot.
  eapply wp_mono; [by apply (uspace_map s1 F1 t1 n1 a perm)|].
  intros r s' (F' & t' & Hfr' & Hroot' & Hout' & Htot' & Hres). exists F', t'.
  pose proof (vm_inv_pages_good _ _ _ (us_inv _ _ _ _ Hus)) as Hgood.
  assert (Hsep : forall b, b ∈ F1 ∪ pt_pages t1 -> b ∉ leaf_pages (lf t1) 0 n1).
  { intros b Hb Hin. pose proof (us_own _ _ _ _ Hus) as Hall. rewrite Forall_forall in Hall.
    destruct (Hall b Hin) as (_ & ? & ?). clear - Hb H0 H1. set_solver. }
  assert (Hkeep : forall w, 0 <= w < Z.of_nat n1 ->
    page_bytes (k_mem s') (leaf_page (lf t1) w) = page_bytes (k_mem s1) (leaf_page (lf t1) w))
    by (by apply (new_pages_out s1 F1 t1 n1 (F1 ∪ pt_pages t1))).
  destruct Hres as [(-> & Hus' & Hlf)|(-> & Hus' & Hlf & HFe)]; [left|right]; (split; [done|]).
  - assert (Hpa : leaf_page (lf t') (Z.of_nat n1) = a).
    { unfold leaf_page. rewrite Hlf, lookup_insert_eq. simpl. destruct Hfa as (Hg & _), Hperm as [Hperm _].
      apply PTE2PA_mkpte; [apply good_page_pos in Hg; lia|apply Hg|by apply flags_lor_V]. }
    assert (Hlp : forall w, w <> Z.of_nat n1 -> leaf_page (lf t') w = leaf_page (lf t1) w)
      by (intros w Hw; unfold leaf_page; by rewrite Hlf, lookup_insert_ne by done).
    split; [done|by eapply frame_trans|congruence|lia| | |set_solver|eapply mem_out_trans; [done|]| |].
    + rewrite <- Htot. unfold all_pages. rewrite leaf_pages_snoc, Z.add_0_l, Hpa.
      rewrite (leaf_pages_ext (lf t1)) by (intros w Hw; rewrite Hlf, lookup_insert_ne by lia; done).
      rewrite list_to_set_app_L. simpl. clear - Htot'. apply leibniz_equiv. set_solver.
    + clear - Htot' Hsub. set_solver.
    + eapply mem_out_mono; [|done]. clear - Hsub. set_solver.
    + intros w Hw. rewrite Hlf, lookup_insert_ne by lia. apply Hold. lia.
    + intros w Hw. destruct (decide (w = Z.of_nat n1)) as [->|Hne].
      * rewrite Hpa. split; [clear - Hsub; set_solver|]. rewrite Hlf, lookup_insert_eq. simpl.
        rewrite (page_bytes_out (F1 ∪ pt_pages t1) (k_mem s1)); [done|by eapply freeable_good| |done|done].
        destruct Hfa as (_ & Ha1 & Ha2). clear - Ha1 Ha2. set_solver.
      * rewrite Hlp, Hlf, lookup_insert_ne, Hkeep by (done || lia). apply Hnew. lia.
  - split; [done|]. split; [done|by eapply frame_trans|congruence|lia| | | |eapply mem_out_trans; [done|]| |].
    + rewrite <- Htot. unfold all_pages. rewrite Hlf. clear - Htot'. apply leibniz_equiv. set_solver.
    + clear - Htot' Hsub. set_solver.
    + intros b Hb. apply elem_of_singleton in Hb as ->. rewrite Hlf. split; [|done].
      destruct Hfa as (? & Ha1 & Ha2). split_and!; [done| |]; clear - Ha1 Ha2 Htot'; set_solver.
    + eapply mem_out_mono; [|done]. clear - Hsub. set_solver.
    + intros w Hw. rewrite Hlf. by apply Hold.
    + intros w Hw. rewrite Hlf, Hkeep by lia. by apply Hnew.
Qed.

Lemma grown_kfree a s1 F1 t1 n1 :
  grown {[a]} s1 F1 t1 n1 -> wp (kfree a) (fun _ s' => grown ∅ s' ({[a]} ∪ F1) t1 n1) s1.
Proof.
  intros [Hus Hfr Hroot Hn Htot Hsub Hheld Hout Hold Hnew].
  destruct (Hheld a) as [Hfa Hal]; [set_solver|].
  eapply wp_mono; [apply (vm_inv_kfree s1 F1 t1); [apply Hus|done]|]. intros [] s' [Hinv' Ho].
  split; try done.
  - destruct Hus as [_ ? ? ? Hown ?]. split; try done. rewrite Forall_forall in *. intros b Hb.
    destruct (Hown b Hb) as (? & ? & ?). split_and!; [done| |done]. apply not_elem_of_union. split; [|done].
    intros ->%elem_of_singleton. done.
  - eapply frame_trans; [done|]. by eapply frame_kmem_only.
  - rewrite <- Htot. unfold all_pages. clear. apply leibniz_equiv. set_solver.
  - clear - Hsub. set_solver.
  - eapply mem_out_trans; [done|]. eapply kmem_only_out; [|done]. clear - Hsub. set_solver.
  - intros w Hw. destruct (Hnew w Hw) as [? HR]. split; [done|].
    erewrite (new_pages_out s1 F1 t1 n1 {[a]}); [done|done| | |by apply (kmem_only_out a); [set_solver|]|lia].
    + intros b ->%elem_of_singleton. by eapply freeable_good.
    + by intros b ->%elem_of_singleton.
Qed.

(** The space is what it was: same size, same mappings, same contents, same pages
    in total. *)
Definition unchanged (s1 : kstate) (F1 : gset Z) (t1 : ptab) : Prop :=
  uspace s1 F1 t1 n0 /\ pt_root t1 = pt_root t /\ lf t1 = lf t /\ frame s s1 /\
  all_pages F1 t1 n0 = all_pages F t n0 /\ mem_out (F ∪ pt_pages t) (k_mem s) (k_mem s1).

Lemma grown_undo s1 F1 t1 n1 :
  uspace s F t n0 -> grown ∅ s1 F1 t1 n1 ->
  wp (uvmunmap (pt_root t) (Z.of_nat n0 * PGSIZE) (Z.of_nat (n1 - n0)) true)
    (fun _ s' => exists F' t', unchanged s' F' t' /\ (size F' <= n1 - n0 + size F1)%nat) s1.
Proof.
  intros Hus0 [Hus Hfr Hroot Hn Htot Hsub Hheld Hout Hold Hnew]. rewrite <- Hroot.
  eapply wp_mono; [by apply (uspace_unmap s1 F1 t1 n1 n0)|].
  intros [] s' (F' & Hus' & Htot' & Hfr' & [HF' Hsz] & Hout'). eexists F', _. split; [|exact Hsz].
  split_and!; [exact Hus'|done| |by eapply frame_trans| |].
  - simpl. apply map_eq. intros w. rewrite unmap_range_lookup. case_decide.
    + symmetry. destruct Hus0 as [_ _ _ _ _ Habove]. apply Habove. destruct Hus as [_ Htop _ _ _ _]. lia.
    + apply Hold. lia.
  - rewrite Htot', <- Htot. by rewrite union_empty_l_L.
  - eapply mem_out_trans; [done|]. eapply mem_out_mono; [|exact Hout'].
    intros a. rewrite elem_of_union, elem_of_list_to_set, elem_of_leaf_pages. intros [(w & Hw & ->)|Ha].
    + apply Hnew. lia.
    + clear - Ha Hsub. set_solver.
Qed.
End growing.
End uvm.

(** ** Sizes in bytes *)

Lemma PGROUNDUP_npg sz : 0 <= sz <= 2 ^ 64 - PGSIZE -> PGROUNDUP sz = Z.of_nat (npg sz) * PGSIZE.
Proof.
  intros Hsz. unfold npg. destruct (PGROUNDUP_aligned sz Hsz) as [q Hq]. pose proof (PGROUNDUP_bounds sz Hsz).
  rewrite Hq, Z.div_mul by done. rewrite Hq in H. unfold PGSIZE in *. rewrite Z2Nat.id; lia.
Qed.

Lemma npg_bounds sz :
  0 <= sz <= 2 ^ 64 - PGSIZE -> sz <= Z.of_nat (npg sz) * PGSIZE < sz + PGSIZE.
Proof. intros Hsz. rewrite <- PGROUNDUP_npg by done. by apply PGROUNDUP_bounds. Qed.

Lemma npg_pages k : Z.of_nat k <= UTOP -> npg (Z.of_nat k * PGSIZE) = k.
Proof.
  intros Hk. pose proof (npg_bounds (Z.of_nat k * PGSIZE)) as Hb.
  unfold UTOP, PGSIZE in *. change (TRAPFRAME / 4096) with 67108862 in Hk. lia.
Qed.

Lemma npg_mono a b : 0 <= a <= b -> b <= 2 ^ 64 - PGSIZE -> (npg a <= npg b)%nat.
Proof.
  intros Ha Hb. pose proof (npg_bounds a). pose proof (npg_bounds b). unfold PGSIZE in *. lia.
Qed.

Lemma usize_bound sz : sz <= UTOP * PGSIZE -> sz <= 2 ^ 64 - PGSIZE.
Proof. intros Hsz. etrans; [exact Hsz|]. done. Qed.

Section sizes.
Context `{Layout}.

Lemma uvmdealloc_spec s F t oldsz newsz :
  uspace s F t (npg oldsz) -> 0 <= newsz -> 0 <= oldsz <= UTOP * PGSIZE ->
  wp (uvmdealloc (pt_root t) oldsz newsz) (fun r s' => r = Z.min oldsz newsz /\ exists F',
    let t' := set_lf (unmap_range (lf t) (Z.of_nat (npg r)) (npg oldsz - npg r)) t in
    uspace s' F' t' (npg r) /\ all_pages F' t' (npg r) = all_pages F t (npg oldsz) /\ frame s s' /\
    mem_out (list_to_set (leaf_pages (lf t) (Z.of_nat (npg r)) (npg oldsz - npg r)) ∪ pt_pages t)
      (k_mem s) (k_mem s')) s.
Proof.
  intros Hus Hnew Hold. pose proof (usize_bound oldsz (proj2 Hold)). unfold uvmdealloc.
  assert (Hsame : forall r : Z, npg r = npg oldsz -> exists F',
    let t' := set_lf (unmap_range (lf t) (Z.of_nat (npg r)) (npg oldsz - npg r)) t in
    uspace s F' t' (npg r) /\ all_pages F' t' (npg r) = all_pages F t (npg oldsz) /\ frame s s /\
    mem_out (list_to_set (leaf_pages (lf t) (Z.of_nat (npg r)) (npg oldsz - npg r)) ∪ pt_pages t)
      (k_mem s) (k_mem s)).
  { intros r Hr. exists F. rewrite Hr, Nat.sub_diag. destruct t. split_and!; auto with xv6. }
  destruct (Z.leb_spec oldsz newsz) as [Hle|Hlt].
  { apply wp_ret. rewrite Z.min_l by done. split; [done|]. by apply Hsame. }
  rewrite Z.min_r by lia. rewrite !PGROUNDUP_npg by (unfold PGSIZE in *; lia).
  pose proof (npg_mono newsz oldsz ltac:(lia) ltac:(lia)) as Hmono.
  destruct (Z.ltb_spec (Z.of_nat (npg newsz) * PGSIZE) (Z.of_nat (npg oldsz) * PGSIZE)) as [Hp|Hp]; unfold when.
  - rewrite <- Z.mul_sub_distr_r, Z.div_mul by done. destruct Hus as [? Htop ? ? ? ?] eqn:E.
    unfold UTOP in Htop. change (TRAPFRAME / PGSIZE) with 67108862 in Htop.
    rewrite swrap_small, wrap_small by lia. apply wp_bind.
    replace (Z.of_nat (npg oldsz) - Z.of_nat (npg newsz)) with (Z.of_nat (npg oldsz - npg newsz)) by lia.
    eapply wp_mono; [by apply (uspace_unmap s F t (npg oldsz) (npg newsz))|].
    intros [] s' (F' & Hus' & Htot & Hfr & _ & Hout). apply wp_ret. split; [done|]. exists F'. by split_and!.
  - apply wp_bind, wp_ret, wp_ret. split; [done|]. apply Hsame. unfold PGSIZE in Hp. lia.
Qed.

(** A page that [uvmalloc] adds: readable by the user, with [xperm], and zeroed. *)
Definition zero_page (xperm w e : Z) (bs : list Z) : Prop :=
  PTE_FLAGS e = Z.lor (Z.lor (Z.lor PTE_R PTE_U) xperm) PTE_V /\ bs = replicate PGSIZE_nat 0.

Lemma lor_bound k a b : 0 <= k -> 0 <= a < 2 ^ k -> 0 <= b < 2 ^ k -> 0 <= Z.lor a b < 2 ^ k.
Proof.
  intros Hk Ha Hb. assert (H0 : 0 <= Z.lor a b) by (apply Z.lor_nonneg; lia). split; [done|].
  rewrite <- (Z.mod_small a (2 ^ k)), <- (Z.mod_small b (2 ^ k)) by lia.
  rewrite <- !Z.land_ones, <- Z.land_lor_distr_l, Z.land_ones by lia.
  apply Z.mod_pos_bound. lia.
Qed.

Lemma perm_ok_user xperm : 0 <= xperm < 2 ^ 10 -> perm_ok (Z.lor (Z.lor PTE_R PTE_U) xperm).
Proof.
  intros Hx. split; [apply lor_bound; [lia|done|done]|]. intros Heq.
  assert (Hb : Z.testbit (Z.lor (Z.lor (Z.lor PTE_R PTE_U) xperm) PTE_V) 1 = Z.testbit PTE_V 1) by (by rewrite Heq).
  rewrite !Z.lor_spec in Hb. done.
Qed.

(** [uvmdealloc] back to the size at the start. *)
Lemma grown_dealloc s F t n0 R s1 F1 t1 n :
  uspace s F t n0 -> grown s F t n0 R ∅ s1 F1 t1 n ->
  wp (uvmdealloc (pt_root t) (Z.of_nat n * PGSIZE) (Z.of_nat n0 * PGSIZE))
    (fun _ s' => exists F' t', unchanged s F t n0 s' F' t' /\ (size F' <= n - n0 + size F1)%nat) s1.
Proof.
  intros Hus Hg. pose proof (gr_n _ _ _ _ _ _ _ _ _ _ Hg) as Hn.
  pose proof (us_top _ _ _ _ (gr_us _ _ _ _ _ _ _ _ _ _ Hg)) as Htop. unfold uvmdealloc.
  assert (Hb : Z.of_nat n * PGSIZE <= 2 ^ 64 - PGSIZE) by (apply usize_bound; unfold PGSIZE; lia).
  destruct (Z.leb_spec (Z.of_nat n * PGSIZE) (Z.of_nat n0 * PGSIZE)) as [Hle|Hlt].
  - apply wp_ret. assert (n = n0) as -> by (unfold PGSIZE in Hle; lia).
    destruct Hg as [Hus1 Hfr Hroot _ Htot Hsub _ Hout Hold _]. exists F1, t1. split; [|lia].
    split_and!; [done|done| |done| |done].
    + apply map_eq. intros w. apply Hold. lia.
    + by rewrite <- Htot, union_empty_l_L.
  - rewrite !PGROUNDUP_npg by (unfold PGSIZE in *; lia). rewrite !npg_pages by lia.
    destruct (Z.ltb_spec (Z.of_nat n0 * PGSIZE) (Z.of_nat n * PGSIZE)); [|lia]. unfold when.
    rewrite <- Z.mul_sub_distr_r, Z.div_mul by done.
    unfold UTOP in Htop. change (TRAPFRAME / PGSIZE) with 67108862 in Htop.
    rewrite swrap_small, wrap_small by lia. apply wp_bind.
    replace (Z.of_nat n - Z.of_nat n0) with (Z.of_nat (n - n0)) by lia.
    eapply wp_mono; [by apply (grown_undo s F t n0 R s1 F1 t1 n)|]. intros [] s' Hun. by apply wp_ret.
Qed.

Section alloc.
Variables (s : kstate) (F : gset Z) (t : ptab) (n0 : nat) (xperm newsz : Z).
Hypothesis Hus : uspace s F t n0.
Hypothesis Hx : 0 <= xperm < 2 ^ 10.

Local Abbreviation up := (grown s F t n0 (zero_page xperm)).

Lemma uvmalloc_step s1 F1 t1 n :
  up ∅ s1 F1 t1 n -> Z.of_nat n < UTOP ->
  wp (mem <- kalloc ;;
      if mem =? 0 then uvmdealloc (pt_root t) (Z.of_nat n * PGSIZE) (Z.of_nat n0 * PGSIZE) ;; ret (inr 0) else
      memset mem 0 PGSIZE_nat ;;
      r <- mappages (pt_root t) (Z.of_nat n * PGSIZE) PGSIZE mem (Z.lor (Z.lor PTE_R PTE_U) xperm) ;;
      if negb (r =? 0) then kfree mem ;;
        uvmdealloc (pt_root t) (Z.of_nat n * PGSIZE) (Z.of_nat n0 * PGSIZE) ;; ret (inr 0)
      else ret (inl (u64 (Z.of_nat n * PGSIZE + PGSIZE))))
    (fun r s' => (r = inl (Z.of_nat (S n) * PGSIZE) /\ exists F' t', up ∅ s' F' t' (S n)) \/
      (r = inr 0 /\ exists F' t', unchanged s F t n0 s' F' t' /\ (size F' <= S n - n0)%nat)) s1.
Proof.
  intros Hg Htop. pose proof (gr_n _ _ _ _ _ _ _ _ _ _ Hg) as Hn0. pose proof (perm_ok_user xperm Hx) as Hperm.
  apply wp_bind. eapply wp_mono; [by apply (grown_kalloc s F t n0 (zero_page xperm) s1 F1 t1 n)|].
  intros a s2 [(-> & -> & Hg2)|[Hnz Hg2]].
  { apply wp_bind. eapply wp_mono; [by eapply grown_dealloc|]. intros r s' (F' & t' & Hun & Hsz). rewrite size_empty in Hsz. apply wp_ret. right. split; [done|]. exists F', t'. split; [done|lia]. }
  rewrite (proj2 (Z.eqb_neq a 0) Hnz). apply wp_bind, wp_memset. change (u8 0) with 0.
  apply (grown_fill _ _ _ _ _ a (replicate PGSIZE_nat 0)) in Hg2; [|by rewrite length_replicate].
  destruct (gr_held _ _ _ _ _ _ _ _ _ _ Hg2 a) as [(Hgp & _) _]; [by apply elem_of_singleton|]. apply good_page_pos in Hgp.
  apply wp_bind. eapply wp_mono; [apply (grown_map s F t n0 (zero_page xperm) a _ _ _ _ n Hg2 Htop Hperm)|].
  { split; [unfold mkpte; rewrite PTE_FLAGS_mkpte; [done|lia|apply flags_lor_V; apply Hperm]|].
    apply (page_bytes_filled (k_mem s2)), length_replicate. }
  intros r s3 (F3 & t3 & [[-> Hg3]|(-> & -> & Hg3)]); simpl negb; cbv iota.
  - apply wp_ret. left. split; [|eauto]. f_equal. unfold UTOP in Htop. change (TRAPFRAME / PGSIZE) with 67108862 in Htop.
    rewrite wrap_small; unfold PGSIZE; lia.
  - apply wp_bind. eapply wp_mono; [by apply (grown_kfree s F t n0 (zero_page xperm) a)|]. intros [] s4 Hg4.
    apply wp_bind. eapply wp_mono; [by eapply grown_dealloc|]. intros r s' (F' & t' & Hun & Hsz). rewrite union_empty_r_L, size_singleton in Hsz.
    apply wp_ret. right. split; [done|]. exists F', t'. split; [done|lia].
Qed.
End alloc.

Lemma uvmalloc_run s F t oldsz newsz xperm :
  uspace s F t (npg oldsz) -> 0 <= oldsz <= newsz -> newsz <= UTOP * PGSIZE -> 0 <= xperm < 2 ^ 10 ->
  wp (uvmalloc (pt_root t) oldsz newsz xperm) (fun r s' => exists F' t',
    (r = newsz /\ grown s F t (npg oldsz) (zero_page xperm) ∅ s' F' t' (npg newsz)) \/
    (r = 0 /\ unchanged s F t (npg oldsz) s' F' t' /\ (size F' <= npg newsz - npg oldsz)%nat)) s.
Proof.
  intros Hus Hold Hnew Hx. pose proof (usize_bound newsz Hnew). unfold uvmalloc.
  destruct (Z.ltb_spec newsz oldsz); [lia|]. rewrite PGROUNDUP_npg by (unfold PGSIZE in *; lia).
  pose proof (npg_bounds oldsz ltac:(lia)) as Hb0. pose proof (npg_bounds newsz ltac:(lia)) as Hb1.
  pose proof (npg_mono oldsz newsz ltac:(lia) ltac:(lia)) as Hm.
  apply (wp_while _ (fun a s' => exists n, a = Z.of_nat n * PGSIZE /\ (n <= npg newsz)%nat /\
    exists F' t', grown s F t (npg oldsz) (zero_page xperm) ∅ s' F' t' n)
    (fun a => Z.to_nat (Z.of_nat (npg newsz) - a / PGSIZE))).
  - exists (npg oldsz). split_and!; [done|done|]. exists F, t. by apply grown_start.
  - rewrite Z.div_mul by done. pose proof (Z.div_mod newsz PGSIZE ltac:(done)).
    pose proof (Z.mod_pos_bound newsz PGSIZE ltac:(done)). unfold PGSIZE in *. lia.
  - intros a s1 (n & -> & Hn & F1 & t1 & Hg).
    destruct (Z.ltb_spec (Z.of_nat n * PGSIZE) newsz) as [Hlt|Hge]; simpl negb; cbv iota.
    2:{ apply wp_ret. assert (n = npg newsz) as -> by (unfold PGSIZE in *; lia). eauto. }
    eapply wp_mono; [apply (uvmalloc_step s F t (npg oldsz) xperm Hus Hx s1 F1 t1 n Hg)|].
    { unfold PGSIZE in *. lia. }
    intros r s2 [(-> & F2 & t2 & Hg2)|(-> & F2 & t2 & Hun & Hsz)]; [|exists F2, t2; right; split_and!; [done|done|unfold PGSIZE in *; lia]].
    split; [|rewrite !Z.div_mul by done; unfold PGSIZE in *; lia].
    exists (S n). split_and!; [done|unfold PGSIZE in *; lia|eauto].
Qed.
End sizes.

(** ** The theorems about sizes *)
Section theorems.
Context `{Layout}.

(** The pages of [t] below [n] are mapped and filled in [s'], [t'] as they were. *)
Definition same_pages (s : kstate) (t : ptab) (s' : kstate) (t' : ptab) (n : nat) : Prop :=
  forall w, 0 <= w < Z.of_nat n -> lf t' !! w = lf t !! w /\
    page_bytes (k_mem s') (leaf_page (lf t') w) = page_bytes (k_mem s) (leaf_page (lf t) w).

Lemma same_pages_out s F t n s' t' :
  uspace s F t n -> (forall w, 0 <= w < Z.of_nat n -> lf t' !! w = lf t !! w) ->
  mem_out (F ∪ pt_pages t) (k_mem s) (k_mem s') -> same_pages s t s' t' n.
Proof.
  intros Hus Hlf Ho w Hw. split; [by apply Hlf|].
  replace (leaf_page (lf t') w) with (leaf_page (lf t) w) by (unfold leaf_page; by rewrite Hlf).
  destruct (leaf_owned _ _ _ _ _ Hus Hw) as (Hg & HF & Ht).
  apply (page_bytes_out (F ∪ pt_pages t)); [done|by rewrite not_elem_of_union| |done].
  apply (vm_inv_pages_good s). apply Hus.
Qed.

(** C16: [uvmalloc] is all or nothing and loses no page.  It returns the new size,
    and then every page between the old size and the new one is mapped for the user
    with the requested permission to a page of its own, filled with zeros; or it
    returns 0 because memory ran out: it has given back the memory it took, and still no more pages are
    free than pages were asked for.  The address space is then exactly as it
    was, but that pages taken for the page table stay in it.  In both cases the pages below the old size keep their mapping and
    contents, the address space satisfies its invariant, and the pages of the
    allocator, the page table and the process are together the same as before. *)
Theorem uvmalloc_all_or_nothing s F t oldsz newsz xperm :
  uspace s F t (npg oldsz) -> 0 <= oldsz <= newsz -> newsz <= UTOP * PGSIZE -> 0 <= xperm < 2 ^ 10 ->
  wp (uvmalloc (pt_root t) oldsz newsz xperm) (fun r s' => exists F' t',
    frame s s' /\ pt_root t' = pt_root t /\ same_pages s t s' t' (npg oldsz) /\
    ((r = newsz /\ uspace s' F' t' (npg newsz) /\ all_pages F' t' (npg newsz) = all_pages F t (npg oldsz) /\
      forall w, Z.of_nat (npg oldsz) <= w < Z.of_nat (npg newsz) ->
        zero_page xperm w (default 0 (lf t' !! w)) (page_bytes (k_mem s') (leaf_page (lf t') w))) \/
     (r = 0 /\ uspace s' F' t' (npg oldsz) /\ all_pages F' t' (npg oldsz) = all_pages F t (npg oldsz) /\
      lf t' = lf t /\ (size F' <= npg newsz - npg oldsz)%nat))) s.
Proof.
  intros Hus Hold Hnew Hx. eapply wp_mono; [by apply uvmalloc_run|].
  intros r s' (F' & t' & [[-> Hg]|(-> & Hun & Hsz)]); exists F', t'.
  - destruct Hg as [Hus' Hfr Hroot Hn Htot _ _ Hout Hsame Hzero]. rewrite union_empty_l_L in Htot.
    split_and!; [done|done| |left].
    + eapply same_pages_out; [done| |done]. intros w Hw. apply Hsame. lia.
    + split_and!; [done|done|done|]. intros w Hw. by apply Hzero.
  - destruct Hun as (Hus' & Hroot & Hlf & Hfr & Htot & Hout).
    split_and!; [done|done|eapply same_pages_out; [done|by rewrite Hlf|done]|right]. by split_and!.
Qed.

(** [uvmdealloc] shrinks an address space: it returns the smaller of the two
    sizes, the pages above it are unmapped and back on the free list, and the pages
    below keep their mapping and contents. *)
Theorem uvmdealloc_shrinks s F t oldsz newsz :
  uspace s F t (npg oldsz) -> 0 <= newsz -> 0 <= oldsz <= UTOP * PGSIZE ->
  wp (uvmdealloc (pt_root t) oldsz newsz) (fun r s' => r = Z.min oldsz newsz /\ exists F' t',
    frame s s' /\ pt_root t' = pt_root t /\ uspace s' F' t' (npg r) /\ pt_pages t' = pt_pages t /\
    all_pages F' t' (npg r) = all_pages F t (npg oldsz) /\ same_pages s t s' t' (npg r)) s.
Proof.
  intros Hus Hnew Hold. eapply wp_mono; [by apply uvmdealloc_spec|]. intros r s' (Hr & F' & Hus' & Htot & Hfr & Hout).
  split; [done|]. eexists F', _. split_and!; [done| |exact Hus'|done|done|]; [done|].
  pose proof (npg_mono r oldsz ltac:(lia) (usize_bound oldsz (proj2 Hold))) as Hle.
  intros w Hw. simpl. assert (Hlf : unmap_range (lf t) (Z.of_nat (npg r)) (npg oldsz - npg r) !! w = lf t !! w)
    by (rewrite unmap_range_lookup, decide_False by lia; done).
  split; [done|]. unfold leaf_page at 1. rewrite Hlf. fold (leaf_page (lf t) w).
  destruct (leaf_owned s F t (npg oldsz) w Hus ltac:(lia)) as (Hg & HF & Ht).
  eapply page_bytes_out; [done| | |exact Hout].
  - apply not_elem_of_union. split; [|done]. rewrite elem_of_list_to_set, elem_of_leaf_pages.
    intros (v & Hv & Heq). apply (leaf_pages_inj _ (npg oldsz)) in Heq; [lia|apply Hus|lia|lia].
  - intros b. rewrite elem_of_union, elem_of_list_to_set, elem_of_leaf_pages. intros [(v & Hv & ->)|Hb].
    + eapply freeable_good, (leaf_owned s F t (npg oldsz)); [done|lia].
    + apply (vm_inv_pages_good s F t); [apply Hus|]. by apply elem_of_union_r.
Qed.
End theorems.

(** *** The concrete states *)
Lemma sample_space : @uspace sample_layout Sample.vm
  (list_to_set [Sample.page 1; Sample.page 2; Sample.page 3; Sample.page 4]) (empty_pt (Sample.page 0)) 0.
Proof.
  split; [apply Sample.inv_vm|done|intros; lia|constructor|constructor|]. intros w Hw. apply lookup_empty.
Qed.

Lemma sample_mapped_space : @uspace sample_layout Sample.mapped {[Sample.page 4]} Sample.mapped_pt 1.
Proof.
  assert (Hlp : leaf_pages (lf Sample.mapped_pt) 0 1 = [Sample.page 3]) by (by vm_compute).
  split; [apply Sample.inv_mapped|done| |by rewrite Hlp; apply NoDup_singleton| |].
  - intros w Hw. assert (w = 0) as -> by lia. simpl. rewrite lookup_singleton_eq. eauto.
  - rewrite Hlp. apply Forall_singleton. split_and!; [by apply Sample.page_good|by apply not_elem_of_singleton|].
    rewrite Sample.mapped_pages. by apply (bool_decide_unpack _); vm_compute.
  - intros w Hw. simpl. apply lookup_singleton_ne. lia.
Qed.

Lemma uvmalloc_all_or_nothing_witness :
  wp (@uvmalloc sample_layout (Sample.page 0) 0 5000 PTE_W) (fun r s' => exists F' t',
    frame Sample.vm s' /\ pt_root t' = Sample.page 0 /\
    same_pages Sample.vm (empty_pt (Sample.page 0)) s' t' 0 /\
    ((r = 5000 /\ @uspace sample_layout s' F' t' 2 /\
      all_pages F' t' 2 = all_pages (list_to_set [Sample.page 1; Sample.page 2; Sample.page 3; Sample.page 4]) (empty_pt (Sample.page 0)) 0 /\
      forall w, 0 <= w < 2 ->
        zero_page PTE_W w (default 0 (lf t' !! w)) (page_bytes (k_mem s') (leaf_page (lf t') w))) \/
     (r = 0 /\ @uspace sample_layout s' F' t' 0 /\
      all_pages F' t' 0 = all_pages (list_to_set [Sample.page 1; Sample.page 2; Sample.page 3; Sample.page 4]) (empty_pt (Sample.page 0)) 0 /\
      lf t' = ∅ /\ (size F' <= 2)%nat))) Sample.vm.
Proof.
  apply (@uvmalloc_all_or_nothing sample_layout Sample.vm _ (empty_pt (Sample.page 0)) 0 5000 PTE_W sample_space);
    [lia|done|done].
Defined.

Lemma uvmdealloc_shrinks_witness :
  wp (@uvmdealloc sample_layout (Sample.page 0) 4000 0) (fun r s' => r = 0 /\ exists F' t',
    frame Sample.mapped s' /\ pt_root t' = Sample.page 0 /\ @uspace sample_layout s' F' t' (npg r) /\
    pt_pages t' = pt_pages Sample.mapped_pt /\
    all_pages F' t' (npg r) = all_pages {[Sample.page 4]} Sample.mapped_pt 1 /\
    same_pages Sample.mapped Sample.mapped_pt s' t' (npg r)) Sample.mapped.
Proof.
  apply (@uvmdealloc_shrinks sample_layout Sample.mapped {[Sample.page 4]} Sample.mapped_pt 4000 0 sample_mapped_space);
    [lia|]. split; [lia|done].
Defined.
