(* ===== verification/UvmLife.v ===== *)
(** The life cycle of a user address space: [uvmcopy] duplicates one for [fork],
    [uvmfree] with [freewalk] gives back every page of one. *)
From S2P Require Import Prelude Machine Riscv State Spinlock KString Kalloc Vm Uvm.
From Stdlib Require Import ZArith Lia.
From stdpp Require Import base strings numbers gmap list.
Local Open Scope Z_scope.
Local Open Scope m_scope.

Section copy.
Context `{Layout}.

(** The parent's page table: its pages are apart from those in [P]. *)
Record parent (m : mem) (t0 : ptab) (n : nat) (P : gset Z) : Prop := {
  pa_rep : pt_rep m t0;
  pa_mapped : forall w, 0 <= w < Z.of_nat n -> is_Some (lf t0 !! w);
  pa_good : forall w, 0 <= w < Z.of_nat n -> good_page (leaf_page (lf t0) w);
  pa_apart : forall w, 0 <= w < Z.of_nat n -> leaf_page (lf t0) w ∉ P;
  pa_table : pt_pages t0 ## P;
  pa_P : forall a, a ∈ P -> good_page a
}.

Lemma parent_out m m' t0 n P : parent m t0 n P -> mem_out P m m' -> parent m' t0 n P.
Proof. intros [] Ho. split; try done. eapply pt_rep_out; [done| |done|done]. by apply disjoint_sym. Qed.

(** The child's copy of page [w]: same flags, same contents. *)
Definition copied (m : mem) (t0 : ptab) (w e : Z) (bs : list Z) : Prop :=
  PTE_FLAGS e = PTE_FLAGS (default 0 (lf t0 !! w)) /\ bs = page_bytes m (leaf_page (lf t0) w).

Lemma leaf_flags e : leaf_pte e -> perm_ok (PTE_FLAGS e) /\ Z.lor (PTE_FLAGS e) PTE_V = PTE_FLAGS e.
Proof.
  intros (Hr & HV & Hne). assert (Hlor : Z.lor (PTE_FLAGS e) PTE_V = PTE_FLAGS e).
  { unfold PTE_V in HV. rewrite has_flags in HV by lia. unfold has in HV.
    apply negb_true_iff, Z.eqb_neq in HV. apply Z.bits_inj'. intros i Hi.
    rewrite Z.lor_spec. destruct (Z.eq_dec i 0) as [->|Hi0].
    - change (Z.testbit PTE_V 0) with true. rewrite orb_true_r. symmetry.
      destruct (Z.testbit (PTE_FLAGS e) 0) eqn:Hb; [done|]. destruct HV.
      change (Z.shiftl 1 0) with (Z.ones 1). rewrite Z.land_ones by lia.
      rewrite <- Z.bit0_mod. by rewrite Hb.
    - replace (Z.testbit PTE_V i) with false; [by rewrite orb_false_r|].
      symmetry. change PTE_V with (2 ^ 0). apply Z.pow2_bits_false. lia. }
  split; [|done]. split; [|by rewrite Hlor].
  rewrite PTE_FLAGS_mod. apply Z.mod_pos_bound. lia.
Qed.

Section steps.
Variables (s : kstate) (F : gset Z) (t t0 : ptab) (n : nat).
Hypothesis Hus : uspace s F t 0.
Hypothesis Hpar : parent (k_mem s) t0 n (F ∪ pt_pages t).
Hypothesis Htop : Z.of_nat n <= UTOP.

Local Abbreviation up := (grown s F t 0 (copied (k_mem s) t0)).

Lemma uvmcopy_undo s1 F1 t1 k :
  up ∅ s1 F1 t1 k ->
  wp (uvmunmap (pt_root t) 0 (Z.of_nat k * PGSIZE / PGSIZE) true ;; ret (@inr Z Z (-1)))
    (fun r s' => r = inr (-1) /\ exists F' t', unchanged s F t 0 s' F' t' /\ (size F' <= k + size F1)%nat) s1.
Proof.
  intros Hg. rewrite Z.div_mul by done. apply wp_bind.
  pose proof (grown_undo s F t 0 _ s1 F1 t1 k Hus Hg) as Hundo. rewrite Nat.sub_0_r in Hundo.
  eapply wp_mono; [exact Hundo|]. intros [] s' Hun. by apply wp_ret.
Qed.

Lemma uvmcopy_step s1 F1 t1 k :
  up ∅ s1 F1 t1 k -> (k < n)%nat ->
  let i := Z.of_nat k * PGSIZE in
  wp (pte <- walk (pt_root t0) i false ;;
      if pte =? 0 then panic "uvmcopy: pte should exist" else
      e <- get64 pte ;;
      if negb (has e PTE_V) then panic "uvmcopy: page not present" else
      let pa := PTE2PA e in
      let flags := PTE_FLAGS e in
      mem <- kalloc ;;
      if mem =? 0 then uvmunmap (pt_root t) 0 (i / PGSIZE) true ;; ret (inr (-1)) else
      memmove mem pa PGSIZE_nat ;;
      r <- mappages (pt_root t) i PGSIZE mem flags ;;
      if negb (r =? 0) then kfree mem ;; uvmunmap (pt_root t) 0 (i / PGSIZE) true ;; ret (inr (-1))
      else ret (inl (u64 (i + PGSIZE))))
    (fun r s' => (r = inl (Z.of_nat (S k) * PGSIZE) /\ exists F' t', up ∅ s' F' t' (S k)) \/
      (r = inr (-1) /\ exists F' t', unchanged s F t 0 s' F' t' /\ (size F' <= S k)%nat)) s1.
Proof.
  intros Hg Hk i.
  assert (Hi : 0 <= i < MAXVA) by (pose proof UTOP_MAXVA; subst i; unfold PGSIZE in *; lia).
  assert (Hvi : i / PGSIZE = Z.of_nat k) by (subst i; by rewrite Z.div_mul).
  assert (Hfail : forall s2 F2 t2, up ∅ s2 F2 t2 k -> (size F2 <= 1)%nat ->
    wp (uvmunmap (pt_root t) 0 (i / PGSIZE) true ;; ret (inr (-1)))
      (fun r s' => (r = inl (Z.of_nat (S k) * PGSIZE) /\ exists F' t', up ∅ s' F' t' (S k)) \/
        (r = inr (-1) /\ exists F' t', unchanged s F t 0 s' F' t' /\ (size F' <= S k)%nat)) s2).
  { intros s2 F2 t2 Hg2 Hsz. eapply wp_mono; [by eapply uvmcopy_undo|]. intros r s' (-> & F' & t' & Hun & Hsz'). right. split; [done|]. exists F', t'. split; [done|lia]. }
  pose proof (parent_out _ _ _ _ _ Hpar (gr_out _ _ _ _ _ _ _ _ _ _ Hg)) as Hpar1.
  destruct (pa_mapped _ _ _ _ Hpar (Z.of_nat k)) as [e He]; [lia|].
  apply wp_bind. eapply wp_ok; [apply (walk_ro t0); [apply Hpar1|done]|].
  destruct (slot_nonzero (k_mem s1) t0 i) as (q & Hq & Hslot & Hnz); [apply Hpar1|rewrite Hvi; eauto|].
  destruct (Z.eqb_spec (slot_of t0 i) 0); [done|]. rewrite Hslot.
  apply wp_bind, wp_gets. rewrite (leaf_read _ _ _ _ (pa_rep _ _ _ _ Hpar1) Hq), Hvi, He. rewrite Hvi in Hfail. simpl default.
  destruct (pr_leaf _ _ (pa_rep _ _ _ _ Hpar) _ _ He) as [Hleaf _]. pose proof Hleaf as (_ & HV & _).
  rewrite HV. simpl negb. cbv iota zeta. destruct (leaf_flags e Hleaf) as [Hperm Hlor].
  apply wp_bind. eapply wp_mono; [by apply (grown_kalloc s F t 0 (copied (k_mem s) t0) s1 F1 t1 k)|].
  intros a s2 [(-> & -> & Hg2)|[Hnza Hg2]]; [eapply Hfail; [exact Hg2|rewrite size_empty; lia]|].
  rewrite (proj2 (Z.eqb_neq a 0) Hnza). apply wp_bind, wp_memmove.
  pose proof (gr_out _ _ _ _ _ _ _ _ _ _ Hg2) as Hout2.
  assert (Hpg : leaf_page (lf t0) (Z.of_nat k) = PTE2PA e) by (unfold leaf_page; by rewrite He).
  assert (Hsrc : ld_bytes (k_mem s2) (PTE2PA e) PGSIZE_nat = page_bytes (k_mem s) (PTE2PA e)).
  { apply (page_bytes_out (F ∪ pt_pages t)); rewrite <- ?Hpg.
    - apply (pa_good _ _ _ _ Hpar). lia.
    - apply (pa_apart _ _ _ _ Hpar). lia.
    - apply Hpar.
    - done. }
  rewrite Hsrc. apply (grown_fill _ _ _ _ _ a (page_bytes (k_mem s) (PTE2PA e))) in Hg2; [|apply length_ld_bytes].
  destruct (gr_held _ _ _ _ _ _ _ _ _ _ Hg2 a) as [(Hgp & _) _]; [by apply elem_of_singleton|]. apply good_page_pos in Hgp.
  apply wp_bind. eapply wp_mono; [apply (grown_map s F t 0 (copied (k_mem s) t0) a _ _ _ _ k Hg2); [lia|done|]|].
  { split; [unfold mkpte; rewrite Hlor, PTE_FLAGS_mkpte; [by rewrite He|lia|apply Hperm]|].
    rewrite Hpg. apply (page_bytes_filled (k_mem s2)), length_ld_bytes. }
  intros r s3 (F3 & t3 & [[-> Hg3]|(-> & -> & Hg3)]); simpl negb; cbv iota.
  - apply wp_ret. left. split; [|eauto]. f_equal. subst i. rewrite MAXVA_pow in Hi.
    rewrite wrap_small; unfold PGSIZE in *; lia.
  - apply wp_bind. eapply wp_mono; [by apply (grown_kfree s F t 0 (copied (k_mem s) t0) a)|]. intros [] s4 Hg4.
    eapply Hfail; [exact Hg4|]. by rewrite union_empty_r_L, size_singleton.
Qed.
End steps.

Lemma uvmcopy_run s F t t0 sz :
  uspace s F t 0 -> 0 <= sz <= UTOP * PGSIZE -> parent (k_mem s) t0 (npg sz) (F ∪ pt_pages t) ->
  wp (uvmcopy (pt_root t0) (pt_root t) sz) (fun r s' => exists F' t',
    (r = 0 /\ grown s F t 0 (copied (k_mem s) t0) ∅ s' F' t' (npg sz)) \/
    (r = -1 /\ unchanged s F t 0 s' F' t' /\ (size F' <= npg sz)%nat)) s.
Proof.
  intros Hus Hsz Hpar. pose proof (usize_bound sz (proj2 Hsz)). unfold uvmcopy.
  pose proof (npg_bounds sz ltac:(lia)) as Hb.
  assert (Htop : Z.of_nat (npg sz) <= UTOP).
  { unfold UTOP in *. change (TRAPFRAME / PGSIZE) with 67108862 in *. unfold PGSIZE in *. lia. }
  apply (wp_while _ (fun i s' => exists k, i = Z.of_nat k * PGSIZE /\ (k <= npg sz)%nat /\
    exists F' t', grown s F t 0 (copied (k_mem s) t0) ∅ s' F' t' k)
    (fun i => Z.to_nat (Z.of_nat (npg sz) - i / PGSIZE))).
  - exists 0%nat. split_and!; [done|lia|]. exists F, t. by apply grown_start.
  - pose proof (Z.div_mod sz PGSIZE ltac:(done)). pose proof (Z.mod_pos_bound sz PGSIZE ltac:(done)).
    unfold PGSIZE in *. change (0 / 4096) with 0. lia.
  - intros i s1 (k & -> & Hk & F1 & t1 & Hg).
    destruct (Z.ltb_spec (Z.of_nat k * PGSIZE) sz) as [Hlt|Hge]; simpl negb; cbv iota.
    2:{ apply wp_ret. assert (k = npg sz) as -> by (unfold PGSIZE in *; lia). eauto. }
    eapply wp_mono; [apply (uvmcopy_step s F t t0 (npg sz) Hus Hpar Htop s1 F1 t1 k Hg)|].
    { unfold PGSIZE in *. lia. }
    intros r s2 [(-> & F2 & t2 & Hg2)|(-> & F2 & t2 & Hun & Hsz2)]; [|exists F2, t2; right; split_and!; [done|done|unfold PGSIZE in *; lia]].
    split; [|rewrite !Z.div_mul by done; unfold PGSIZE in *; lia].
    exists (S k). split_and!; [done|unfold PGSIZE in *; lia|eauto].
Qed.
End copy.

(** ** Freeing a page table *)

(** The node above [x] at [level]. *)
Definition anc (level : nat) (x : nat * Z) : Z := x.2 / 512 ^ Z.of_nat (level - x.1).
(** Nodes at or below [level] whose ancestor there is in [lo, hi). *)
Definition under (level : nat) (lo hi : Z) (x : nat * Z) : Prop := (x.1 <= level)%nat /\ lo <= anc level x < hi.
#[export] Instance under_dec level lo hi x : Decision (under level lo hi x).
Proof. unfold under. apply _. Defined.

Definition sub_pages (t : ptab) (level : nat) (lo hi : Z) : gset Z :=
  map_img (filter (fun kv => under level lo hi kv.1) (tbl t)).

Lemma anc_self level k : anc level (level, k) = k.
Proof. unfold anc. simpl. rewrite Nat.sub_diag. apply Z.div_1_r. Qed.

Lemma anc_S level x : (x.1 <= level)%nat -> anc (S level) x = anc level x / 512.
Proof.
  intros Hx. unfold anc. rewrite Z.div_div by lia. f_equal.
  replace (S level - x.1)%nat with (S (level - x.1)) by lia. rewrite Nat2Z.inj_succ, Z.pow_succ_r by lia. lia.
Qed.

Lemma elem_of_sub_pages t level lo hi a :
  a ∈ sub_pages t level lo hi <-> exists x, tbl t !! x = Some a /\ under level lo hi x.
Proof.
  unfold sub_pages. rewrite elem_of_map_img. split; intros (x & Hx).
  - apply map_lookup_filter_Some in Hx. eauto.
  - exists x. by apply map_lookup_filter_Some.
Qed.

(** The nodes below those of [S level]. *)
Lemma under_S level k x :
  under (S level) k (k + 1) x <->
    x = (S level, k) \/ under level (k * 512) (k * 512 + 512) x.
Proof.
  unfold under. split.
  - intros [Hl Ha]. destruct (decide (x.1 = S level)) as [Heq|Hne].
    + left. destruct x as [lx kx]. simpl in Heq. subst lx. rewrite anc_self in Ha. f_equal. lia.
    + right. split; [lia|]. rewrite anc_S in Ha by lia.
      pose proof (Z.div_mod (anc level x) 512 ltac:(lia)). pose proof (Z.mod_pos_bound (anc level x) 512 ltac:(lia)). lia.
  - intros [->|[Hl Ha]]; simpl.
    + rewrite anc_self. lia.
    + rewrite anc_S by done. split; [lia|].
      assert (anc level x / 512 = k); [|lia]. symmetry. apply (Z.div_unique _ _ _ (anc level x - k * 512)); lia.
Qed.

Section free.
Context `{Layout}.
Variable t : ptab.
Hypothesis Hinj : forall x y p, tbl t !! x = Some p -> tbl t !! y = Some p -> x = y.
Hypothesis Hgood : forall x p, tbl t !! x = Some p -> good_page p.
Hypothesis Hlevel : forall l k p, tbl t !! (l, k) = Some p ->
  (l = 2%nat /\ k = 0) \/ ((l < 2)%nat /\ is_Some (tbl t !! (S l, k / 512))).
Hypothesis Hlf : lf t = ∅.

Definition slots_ok (m : mem) (P : nat * Z -> Prop) : Prop :=
  forall l k p i, tbl t !! (l, k) = Some p -> P (l, k) -> 0 <= i < 512 ->
    ld64 m (p + 8 * i) = entry t l (k * 512 + i).

Lemma anc_present l x : (l <= 2)%nat -> is_Some (tbl t !! x) -> (x.1 <= l)%nat -> is_Some (tbl t !! (l, anc l x)).
Proof.
  intros Hl2 [p Hp]. induction l as [|l IH]; intros Hl.
  - destruct x as [lx kx]. simpl in Hl. assert (lx = 0%nat) as -> by lia. rewrite anc_self. eauto.
  - destruct (decide (x.1 = S l)) as [Heq|Hne].
    + destruct x as [lx kx]. simpl in Heq. subst. rewrite anc_self. eauto.
    + destruct IH as [q Hq]; [lia|lia|]. rewrite anc_S by lia.
      destruct (Hlevel _ _ _ Hq) as [[? _]|[_ ?]]; [lia|done].
Qed.

Lemma sub_pages_good l lo hi a : a ∈ sub_pages t l lo hi -> good_page a.
Proof. rewrite elem_of_sub_pages. intros (x & Hx & _). by eapply Hgood. Qed.

(** Writes to pages of other nodes keep the slots of the nodes in [P]. *)
Lemma slots_ok_out m m' (P : nat * Z -> Prop) W :
  slots_ok m P -> mem_out W m m' -> (forall a, a ∈ W -> good_page a) ->
  (forall x q, P x -> tbl t !! x = Some q -> q ∉ W) -> slots_ok m' P.
Proof.
  intros Hs Ho Hg Hd l0 k0 p0 i Hp0 HP Hi. rewrite <- (Hs l0 k0 p0 i Hp0 HP Hi). apply ld64_ext. intros x Hx.
  apply (mem_out_page W _ _ p0); [by eapply Hgood|by eapply Hd|done|done|by eapply in_page_slot].
Qed.

Lemma slot_out m m' p W j :
  good_page p -> p ∉ W -> (forall a, a ∈ W -> good_page a) -> mem_out W m m' -> 0 <= j < 512 ->
  ld64 m' (p + 8 * j) = ld64 m (p + 8 * j).
Proof.
  intros Hg Hni HW Ho Hj. apply ld64_ext. intros x Hx.
  apply (mem_out_page W _ _ p); [done|done|done|done|by eapply in_page_slot].
Qed.

Lemma sub_pages_0 k p : tbl t !! (0%nat, k) = Some p -> sub_pages t 0 k (k + 1) = {[p]}.
Proof.
  intros Hp. apply leibniz_equiv. intros a. rewrite elem_of_sub_pages, elem_of_singleton. split.
  - intros ([lx kx] & Hx & Hl & Ha). simpl in Hl. assert (lx = 0%nat) as -> by lia.
    rewrite anc_self in Ha. assert (kx = k) as -> by lia. congruence.
  - intros ->. exists (0%nat, k). split; [done|]. split; [done|]. rewrite anc_self. lia.
Qed.

Lemma sub_pages_S l k p :
  tbl t !! (S l, k) = Some p -> sub_pages t (S l) k (k + 1) = {[p]} ∪ sub_pages t l (k * 512) (k * 512 + 512).
Proof.
  intros Hp. apply leibniz_equiv. intros a. rewrite elem_of_union, elem_of_singleton, !elem_of_sub_pages.
  setoid_rewrite under_S. split.
  - intros (x & Hx & [->|Hu]); [left; congruence|right; eauto].
  - intros [->|(x & Hx & Hu)]; eauto.
Qed.

(** One more child. *)
Lemma sub_pages_next l lo hi : lo <= hi -> sub_pages t l lo (hi + 1) = sub_pages t l hi (hi + 1) ∪ sub_pages t l lo hi.
Proof.
  intros Hle. apply leibniz_equiv. intros a. rewrite elem_of_union, !elem_of_sub_pages. unfold under. split.
  - intros (x & Hx & Hl & Ha). destruct (decide (anc l x = hi)); [left|right]; exists x; (split; [done|lia]).
  - intros [(x & Hx & Hl & Ha)|(x & Hx & Hl & Ha)]; exists x; (split; [done|lia]).
Qed.

Lemma sub_pages_nil l k : sub_pages t l k k = ∅.
Proof.
  apply leibniz_equiv. intros a. rewrite elem_of_sub_pages, elem_of_empty. split; [|done].
  intros (x & _ & _ & ?). lia.
Qed.

Lemma sub_pages_absent l j : (l <= 2)%nat -> tbl t !! (l, j) = None -> sub_pages t l j (j + 1) = ∅.
Proof.
  intros Hl Hj. apply leibniz_equiv. intros a. rewrite elem_of_sub_pages, elem_of_empty. split; [|done].
  intros (x & Hx & Hlx & Ha). destruct (anc_present l x) as [q Hq]; [done|eauto|done|].
  replace (anc l x) with j in Hq by lia. congruence.
Qed.

Lemma sub_pages_disj l lo mid hi : sub_pages t l lo mid ## sub_pages t l mid hi.
Proof.
  intros a. rewrite !elem_of_sub_pages. intros (x & Hx & _ & Ha) (y & Hy & _ & Ha').
  assert (x = y) as -> by (by eapply Hinj). lia.
Qed.

(** Where the loop of [freewalk] over the children of [(S l, k)] has got to. *)
Record walked (s : kstate) (F : gset Z) (l : nat) (k p : Z) (i : nat) (s1 : kstate) : Prop := {
  wk_free : kmem_free s1 (sub_pages t l (k * 512) (k * 512 + Z.of_nat i) ∪ F);
  wk_frame : frame s s1;
  wk_out : mem_out ({[p]} ∪ sub_pages t l (k * 512) (k * 512 + Z.of_nat i)) (k_mem s) (k_mem s1);
  wk_slots : slots_ok (k_mem s1) (under l (k * 512 + Z.of_nat i) (k * 512 + 512));
  wk_node : forall j, Z.of_nat i <= j < 512 -> ld64 (k_mem s1) (p + 8 * j) = entry t (S l) (k * 512 + j)
}.

Lemma has_V_dir q : good_page q -> Z.land (mkpte q PTE_V) (Z.lor (Z.lor PTE_R PTE_W) PTE_X) = 0.
Proof.
  intros Hg. apply good_page_pos in Hg. unfold mkpte. rewrite mkpte_add by (done || lia).
  apply Z.bits_inj'. intros n Hn. rewrite Z.bits_0, Z.land_spec.
  change (Z.lor (Z.lor PTE_R PTE_W) PTE_X) with 14.
  destruct (Z_lt_ge_dec n 4) as [Hlt|Hge].
  - assert (n = 0 \/ n = 1 \/ n = 2 \/ n = 3) as [->|Hcase] by lia; [by rewrite andb_false_r|].
    replace (q / 2 ^ 12 * 2 ^ 10 + PTE_V) with (1 + q / 2 ^ 12 * 2 ^ 8 * 2 ^ 2) by (change PTE_V with 1; lia).
    replace (Z.testbit (1 + q / 2 ^ 12 * 2 ^ 8 * 2 ^ 2) n) with false; [done|]. symmetry.
    rewrite <- (Z.mod_pow2_bits_low _ 4) by lia.
    replace ((1 + q / 2 ^ 12 * 2 ^ 8 * 2 ^ 2) mod 2 ^ 4) with 1; [destruct Hcase as [->|[->| ->]]; done|].
    replace (1 + q / 2 ^ 12 * 2 ^ 8 * 2 ^ 2) with (1 + (q / 2 ^ 12 * 2 ^ 6) * 2 ^ 4) by lia.
    rewrite Z.mod_add by lia. done.
  - rewrite (Z.bits_above_log2 14) by (simpl; lia). apply andb_false_r.
Qed.

Section node.
Variables (s : kstate) (F : gset Z) (l : nat) (k p : Z).
Hypothesis Hl : (S l <= 2)%nat.
Hypothesis Hp : tbl t !! (S l, k) = Some p.
Hypothesis HpF : p ∉ F.
Hypothesis HcF : sub_pages t l (k * 512) (k * 512 + 512) ## F.
Hypothesis IH : forall s F k p, kmem_free s F -> tbl t !! (l, k) = Some p ->
  slots_ok (k_mem s) (under l k (k + 1)) -> sub_pages t l k (k + 1) ## F ->
  wp (freewalk_level (S l) p) (fun _ s' => kmem_free s' (sub_pages t l k (k + 1) ∪ F) /\ frame s s' /\
    mem_out (sub_pages t l k (k + 1)) (k_mem s) (k_mem s')) s.

Lemma node_not_under lo hi : p ∉ sub_pages t l lo hi.
Proof.
  rewrite elem_of_sub_pages. intros (y & Hy & Hu & _). assert (y = (S l, k)) as -> by (by eapply Hinj).
  simpl in Hu. lia.
Qed.

Lemma sub_pages_mono lo hi lo' hi' : lo' <= lo -> hi <= hi' -> sub_pages t l lo hi ⊆ sub_pages t l lo' hi'.
Proof.
  intros H1 H2 a. rewrite !elem_of_sub_pages. intros (x & Hx & Hu & Ha). exists x. split; [done|]. split; [done|lia].
Qed.

Lemma walked_skip i s1 :
  walked s F l k p i s1 -> tbl t !! (l, k * 512 + Z.of_nat i) = None -> walked s F l k p (S i) s1.
Proof.
  intros [Hf Hfr Ho Hs Hn] Hnone.
  assert (Heq : sub_pages t l (k * 512) (k * 512 + Z.of_nat (S i)) = sub_pages t l (k * 512) (k * 512 + Z.of_nat i)).
  { replace (k * 512 + Z.of_nat (S i)) with (k * 512 + Z.of_nat i + 1) by lia.
    rewrite sub_pages_next, sub_pages_absent by (done || lia). by rewrite union_empty_l_L. }
  split; rewrite ?Heq; try done.
  - intros l0 k0 p0 i0 Hp0 [Hu1 Hu2]. apply Hs; [done|]. split; [done|lia].
  - intros j Hj. apply Hn. lia.
Qed.

Lemma walked_child i s1 q :
  walked s F l k p i s1 -> (i < 512)%nat -> tbl t !! (l, k * 512 + Z.of_nat i) = Some q ->
  wp (freewalk_level (S l) q ;; set64 (p + 8 * Z.of_nat i) 0) (fun _ s' => walked s F l k p (S i) s') s1.
Proof.
  intros [Hf Hfr Ho Hs Hn] Hi Hq. set (j := k * 512 + Z.of_nat i) in *.
  assert (Hsub : sub_pages t l j (j + 1) ⊆ sub_pages t l (k * 512) (k * 512 + 512)) by (apply sub_pages_mono; lia).
  assert (Hgp : good_page p) by (by eapply Hgood).
  apply wp_bind. eapply wp_mono; [apply (IH s1 _ j q Hf Hq)|].
  - intros l0 k0 p0 i0 Hp0 [Hu1 Hu2]. apply Hs; [done|]. split; [done|lia].
  - apply disjoint_union_r. split; [apply disjoint_sym, sub_pages_disj|].
    clear - Hsub HcF. set_solver.
  - intros [] s2 (Hf2 & Hfr2 & Ho2). apply wp_modify.
    assert (Hpj : p ∉ sub_pages t l j (j + 1)) by apply node_not_under.
    assert (Ho3 : mem_out {[p]} (k_mem s2) (st64 (k_mem s2) (p + 8 * Z.of_nat i) 0))
      by (apply mem_out_slot; [by apply elem_of_singleton|lia]).
    assert (Hgs : forall a, a ∈ ({[p]} : gset Z) -> good_page a) by (by intros a ->%elem_of_singleton).
    assert (Hnext : sub_pages t l (k * 512) (k * 512 + Z.of_nat (S i)) =
      sub_pages t l j (j + 1) ∪ sub_pages t l (k * 512) j).
    { replace (k * 512 + Z.of_nat (S i)) with (j + 1) by lia. apply sub_pages_next. lia. }
    split; rewrite ?Hnext.
    + rewrite <- union_assoc_L. eapply kmem_free_out; [done| |exact Hgs|exact Ho3].
      pose proof (node_not_under (k * 512) j) as Hpd. clear - Hpj Hpd HpF. set_solver.
    + apply frame_set_mem. by eapply frame_trans.
    + eapply mem_out_trans; [eapply mem_out_mono; [|exact Ho]; clear; set_solver|].
      eapply mem_out_trans; [eapply mem_out_mono; [|exact Ho2]; clear; set_solver|].
      eapply mem_out_mono; [|exact Ho3]. clear; set_solver.
    + replace (k * 512 + Z.of_nat (S i)) with (j + 1) by lia.
      eapply slots_ok_out; [|exact Ho3|exact Hgs|].
      * eapply slots_ok_out; [|exact Ho2|apply sub_pages_good|].
        -- intros l0 k0 p0 i0 Hp0 [Hu1 Hu2]. apply Hs; [done|]. split; [done|lia].
        -- intros x q' [_ Hx] Hq' Hin. apply elem_of_sub_pages in Hin as (y & Hy & _ & Ha).
           assert (x = y) as -> by (by eapply Hinj). lia.
      * intros x q' [Hx _] Hq' ->%elem_of_singleton. assert (x = (S l, k)) as -> by (by eapply Hinj). simpl in Hx. lia.
    + intros j' Hj'. simpl. rewrite ld64_st64_disjoint by lia.
      rewrite (slot_out (k_mem s1) _ p (sub_pages t l j (j + 1))); [|done|done|apply sub_pages_good|done|lia].
      apply Hn. lia.
Qed.
End node.

Lemma freewalk_level_S d p :
  freewalk_level (S d) p =
    (for_each (zrange 0 512) (fun i =>
       pte <- get64 (p + 8 * i) ;;
       if has pte PTE_V && (Z.land pte (Z.lor (Z.lor PTE_R PTE_W) PTE_X) =? 0) then
         freewalk_level d (PTE2PA pte) ;;
         set64 (p + 8 * i) 0
       else if has pte PTE_V then panic "freewalk: leaf" else ret tt) ;;
     kfree p).
Proof. reflexivity. Qed.

Lemma freewalk_level_spec l s F k p :
  (l <= 2)%nat -> kmem_free s F -> tbl t !! (l, k) = Some p ->
  slots_ok (k_mem s) (under l k (k + 1)) -> sub_pages t l k (k + 1) ## F ->
  wp (freewalk_level (S l) p) (fun _ s' => kmem_free s' (sub_pages t l k (k + 1) ∪ F) /\ frame s s' /\
    mem_out (sub_pages t l k (k + 1)) (k_mem s) (k_mem s')) s.
Proof.
  revert s F k p. induction l as [|l IH]; intros s F k p Hl HF Hp Hs Hd.
  - rewrite (sub_pages_0 k p Hp) in *. rewrite freewalk_level_S. apply wp_bind.
    eapply (wp_mono _ (fun _ s' => s' = s)).
    { apply (wp_for_range (fun _ s' => s' = s)); [done|]. intros i s' Hi ->. apply wp_bind, wp_gets.
      rewrite (Hs 0%nat k p (0 + Z.of_nat i) Hp); [|split; [done|rewrite anc_self; lia]|lia].
      simpl. rewrite Hlf, lookup_empty. by apply wp_ret. }
    intros [] s' ->. eapply wp_mono; [apply kfree_law; [done|by eapply Hgood|clear - Hd; set_solver]|].
    intros [] s' [HF' Ho]. split_and!; [done|by eapply frame_kmem_only|]. apply (kmem_only_out p); [by apply elem_of_singleton|done].
  - rewrite (sub_pages_S l k p Hp) in *. rewrite freewalk_level_S. apply wp_bind.
    apply disjoint_union_l in Hd as [HpF HcF].
    assert (Hstart : walked s F l k p 0 s).
    { split; auto with xv6.
      - rewrite Z.add_0_r. assert (sub_pages t l (k * 512) (k * 512) = ∅) as ->; [|by rewrite union_empty_l_L].
        apply sub_pages_nil.
      - intros l0 k0 p0 i0 Hp0 Hu. apply Hs; [done|]. apply under_S. right. by rewrite Z.add_0_r in Hu.
      - intros j Hj. apply Hs; [done| |lia]. split; [simpl; lia|]. rewrite anc_self. lia. }
    eapply wp_mono; [apply (wp_for_range (walked s F l k p)); [exact Hstart|]|].
    + intros i s1 Hi Hw. rewrite Z.add_0_l. apply wp_bind, wp_gets.
      rewrite (wk_node _ _ _ _ _ _ _ Hw) by lia. simpl entry.
      destruct (tbl t !! (l, k * 512 + Z.of_nat i)) as [q|] eqn:Hq.
      * rewrite has_mkpte_V, has_V_dir, PTE2PA_mkpte_V by (by eapply Hgood).
        eapply walked_child; [lia|done|clear - HpF; set_solver|done| |done|done|done].
        intros s2 F2 k2 p2. apply IH. lia.
      * simpl. apply wp_ret. by apply walked_skip.
    + intros [] s1 [Hf Hfr Ho _ _]. eapply wp_mono; [apply kfree_law; [done|by eapply Hgood|]|].
      { apply not_elem_of_union. split; [by eapply node_not_under|clear - HpF; set_solver]. }
      intros [] s' [HF' Ho']. change (Z.of_nat 512) with 512 in *.
      split_and!; [by rewrite <- union_assoc_L|eapply frame_trans; [done|by eapply frame_kmem_only]|].
      eapply mem_out_trans; [done|]. eapply kmem_only_out; [|done]. clear; set_solver.
Qed.
End free.

(** ** The theorems *)
Section theorems.
Context `{Layout}.

(** C17: [uvmcopy] gives the child its own copy of the parent's memory.  When it
    returns 0 every page of the parent below [sz] is mapped in the child with the
    same permissions, to a page of the child's own with the same contents.  When it
    returns -1 memory ran out: the child has no memory and the pages taken for it are free again, and still no more pages are
    free than the parent has; the mappings in the child's page table are what they were, though pages taken for the table itself stay in it.
    In both cases no page is lost, and the parent's page table and memory do not change. *)
Theorem uvmcopy_copies s F t t0 sz :
  uspace s F t 0 -> 0 <= sz <= UTOP * PGSIZE -> parent (k_mem s) t0 (npg sz) (F ∪ pt_pages t) ->
  wp (uvmcopy (pt_root t0) (pt_root t) sz) (fun r s' => exists F' t',
    frame s s' /\ pt_root t' = pt_root t /\ parent (k_mem s') t0 (npg sz) (F ∪ pt_pages t) /\
    (forall w, 0 <= w < Z.of_nat (npg sz) ->
       page_bytes (k_mem s') (leaf_page (lf t0) w) = page_bytes (k_mem s) (leaf_page (lf t0) w)) /\
    ((r = 0 /\ uspace s' F' t' (npg sz) /\ all_pages F' t' (npg sz) = all_pages F t 0 /\
      forall w, 0 <= w < Z.of_nat (npg sz) ->
        copied (k_mem s) t0 w (default 0 (lf t' !! w)) (page_bytes (k_mem s') (leaf_page (lf t') w))) \/
     (r = -1 /\ uspace s' F' t' 0 /\ all_pages F' t' 0 = all_pages F t 0 /\ lf t' = lf t /\ (size F' <= npg sz)%nat))) s.
Proof.
  intros Hus Hsz Hpar. eapply wp_mono; [by apply uvmcopy_run|].
  assert (Hkeep : forall s', mem_out (F ∪ pt_pages t) (k_mem s) (k_mem s') ->
    parent (k_mem s') t0 (npg sz) (F ∪ pt_pages t) /\ forall w, 0 <= w < Z.of_nat (npg sz) ->
      page_bytes (k_mem s') (leaf_page (lf t0) w) = page_bytes (k_mem s) (leaf_page (lf t0) w)).
  { intros s' Ho. split; [by eapply parent_out|]. intros w Hw. destruct Hpar as [_ _ Hg Hap _ HP].
    eapply page_bytes_out; [by apply Hg|by apply Hap|done|done]. }
  intros r s' (F' & t' & [[-> Hg]|(-> & Hun & Hsz')]); exists F', t'.
  - destruct Hg as [Hus' Hfr Hroot Hn Htot _ _ Hout Hsame Hnew]. rewrite union_empty_l_L in Htot.
    destruct (Hkeep s' Hout). split_and!; [done|done|done|done|left]. split_and!; [done|done|done|].
    intros w Hw. apply Hnew. lia.
  - destruct Hun as (Hus' & Hroot & Hlf & Hfr & Htot & Hout). destruct (Hkeep s' Hout).
    split_and!; [done|done|done|done|right]. by split_and!.
Qed.

(** [uvmfree] returns every page of an address space to the allocator: the
    pages of user memory and the pages of the page table itself; no other memory changes.  It panics on no
    well-formed page table whose only mappings are the process's memory. *)
Theorem uvmfree_frees_all s F t sz :
  uspace s F t (npg sz) -> 0 <= sz <= UTOP * PGSIZE ->
  (forall w, is_Some (lf t !! w) -> 0 <= w < Z.of_nat (npg sz)) ->
  wp (uvmfree (pt_root t) sz) (fun _ s' => kmem_free s' (all_pages F t (npg sz)) /\ frame s s' /\
    mem_out (pt_pages t ∪ list_to_set (leaf_pages (lf t) 0 (npg sz))) (k_mem s) (k_mem s')) s.
Proof.
  intros Hus Hsz Honly. pose proof (usize_bound sz (proj2 Hsz)) as Hb. unfold uvmfree. apply wp_bind.
  set (t1 := set_lf ∅ t).
  eapply (wp_mono _ (fun _ s1 => exists F1, uspace s1 F1 t1 0 /\ all_pages F1 t1 0 = all_pages F t (npg sz) /\ frame s s1 /\
    mem_out (pt_pages t ∪ list_to_set (leaf_pages (lf t) 0 (npg sz))) (k_mem s) (k_mem s1))).
  - assert (Hlf : unmap_range (lf t) 0 (npg sz) = ∅).
    { apply map_eq. intros w. rewrite unmap_range_lookup, lookup_empty. case_decide as Hd; [done|].
      destruct (lf t !! w) eqn:Hw; [|done]. destruct (Honly w); [eauto|lia]. }
    destruct (Z.ltb_spec 0 sz) as [Hpos|Hz]; unfold when.
    + rewrite PGROUNDUP_npg, Z.div_mul by (done || lia).
      pose proof (uspace_unmap s F t (npg sz) 0 Hus ltac:(lia)) as Hun. rewrite Nat.sub_0_r in Hun.
      eapply wp_mono; [exact Hun|]. intros [] s1 (F1 & Hus1 & Htot & Hfr & _ & Hout).
      exists F1. subst t1. rewrite <- Hlf. split_and!; try done. by rewrite union_comm_L.
    + apply wp_ret. exists F. assert (npg sz = 0%nat) as Hn by (assert (sz = 0) as -> by lia; done).
      rewrite Hn in *. simpl in Hlf. subst t1. rewrite <- Hlf. destruct t. by split_and!; auto with xv6.
  - intros [] s1 (F1 & Hus1 & Htot & Hfr & Hout). pose proof (us_inv _ _ _ _ Hus1) as (HF1 & Hr1 & Hd1).
    unfold freewalk. change (pt_root t) with (pt_root t1).
    assert (Hall : sub_pages t1 2 0 (0 + 1) = pt_pages t1).
    { apply leibniz_equiv. intros a. rewrite elem_of_sub_pages, elem_of_pt_pages.
      split; [intros (x & ? & _); eauto|]. intros ([l k] & Hx). exists (l, k). split; [done|].
      assert (Hl : (l <= 2)%nat) by (destruct (pr_level _ _ Hr1 _ _ _ Hx) as [[-> _]|[? _]]; lia).
      split; [done|]. destruct (anc_present t1 (pr_level _ _ Hr1) 2 (l, k)) as [q Hq]; [lia|eauto|done|].
      destruct (pr_level _ _ Hr1 _ _ _ Hq) as [[_ ->]|[? _]]; lia. }
    eapply wp_mono; [apply (freewalk_level_spec t1 (pr_inj _ _ Hr1) (pr_good _ _ Hr1) (pr_level _ _ Hr1) eq_refl 2 s1 F1 0)|].
    + lia.
    + done.
    + apply Hr1.
    + intros l k p i Hp _ Hi. by apply (pr_slot _ _ Hr1).
    + by rewrite Hall.
    + intros [] s' (HF' & Hfr' & Hout'). rewrite Hall in HF', Hout'. split_and!; [|by eapply frame_trans|].
      2:{ eapply mem_out_trans; [exact Hout|]. eapply mem_out_mono; [|exact Hout']. apply union_subseteq_l. }
      rewrite <- Htot. unfold all_pages. simpl. rewrite union_empty_r_L, union_comm_L. done.
Qed.
End theorems.

Lemma sample_child : @uspace sample_layout Sample.mapped {[Sample.page 4]} (empty_pt (Sample.page 5)) 0.
Proof.
  destruct Sample.inv_mapped as (HF & _ & _).
  split; [|done|intros; lia|constructor|constructor|intros; apply lookup_empty].
  split_and!; [done| |].
  - apply empty_rep; [by apply Sample.page_good|]. intros i Hi. simpl. unfold Sample.mapped_mem, linked, st64.
    rewrite !ld64_st_disjoint; [done|
      rewrite ?length_replicate, ?PGSIZE_nat_Z, ?length_le_bytes; change (PX 0 0) with 0;
      unfold Sample.page, KERNBASE, PGSIZE; lia..].
  - unfold pt_pages. simpl. rewrite map_img_singleton_L. set_solver by (vm_compute; congruence).
Qed.

Lemma sample_parent : @parent sample_layout Sample.mapped_mem Sample.mapped_pt 1
  ({[Sample.page 4]} ∪ pt_pages (empty_pt (Sample.page 5))).
Proof.
  assert (Hpages : pt_pages (empty_pt (Sample.page 5)) = {[Sample.page 5]})
    by (unfold pt_pages; simpl; by rewrite map_img_singleton_L).
  assert (Hp3 : leaf_page (lf Sample.mapped_pt) 0 = Sample.page 3) by (by vm_compute). rewrite Hpages.
  split.
  - apply Sample.mapped_rep.
  - intros w Hw. assert (w = 0) as -> by lia. simpl. rewrite lookup_singleton_eq. eauto.
  - intros w Hw. assert (w = 0) as -> by lia. rewrite Hp3. by apply Sample.page_good.
  - intros w Hw. assert (w = 0) as -> by lia. rewrite Hp3. by apply (bool_decide_unpack _); vm_compute.
  - rewrite Sample.mapped_pages. set_solver by (vm_compute; congruence).
  - intros a. rewrite elem_of_union, !elem_of_singleton. intros [->| ->]; by apply Sample.page_good.
Qed.

Lemma uvmcopy_copies_witness :
  wp (@uvmcopy sample_layout (Sample.page 0) (Sample.page 5) 100) (fun r s' => exists F' t',
    frame Sample.mapped s' /\ pt_root t' = Sample.page 5 /\
    @parent sample_layout (k_mem s') Sample.mapped_pt 1 ({[Sample.page 4]} ∪ pt_pages (empty_pt (Sample.page 5))) /\
    (forall w, 0 <= w < 1 -> page_bytes (k_mem s') (leaf_page (lf Sample.mapped_pt) w) =
       page_bytes Sample.mapped_mem (leaf_page (lf Sample.mapped_pt) w)) /\
    ((r = 0 /\ @uspace sample_layout s' F' t' 1 /\ all_pages F' t' 1 = all_pages {[Sample.page 4]} (empty_pt (Sample.page 5)) 0 /\
      forall w, 0 <= w < 1 -> copied Sample.mapped_mem Sample.mapped_pt w (default 0 (lf t' !! w))
        (page_bytes (k_mem s') (leaf_page (lf t') w))) \/
     (r = -1 /\ @uspace sample_layout s' F' t' 0 /\
      all_pages F' t' 0 = all_pages {[Sample.page 4]} (empty_pt (Sample.page 5)) 0 /\ lf t' = ∅ /\ (size F' <= 1)%nat))) Sample.mapped.
Proof.
  apply (@uvmcopy_copies sample_layout Sample.mapped {[Sample.page 4]} (empty_pt (Sample.page 5)) Sample.mapped_pt 100
    sample_child); [split; [lia|done]|apply sample_parent].
Defined.

Lemma uvmfree_frees_all_witness :
  wp (@uvmfree sample_layout (Sample.page 0) 100) (fun _ s' =>
    @kmem_free sample_layout s' (all_pages {[Sample.page 4]} Sample.mapped_pt 1) /\ frame Sample.mapped s' /\
    mem_out (pt_pages Sample.mapped_pt ∪ list_to_set (leaf_pages (lf Sample.mapped_pt) 0 1)) (k_mem Sample.mapped) (k_mem s')) Sample.mapped.
Proof.
  apply (@uvmfree_frees_all sample_layout Sample.mapped {[Sample.page 4]} Sample.mapped_pt 100 sample_mapped_space).
  - split; [lia|done].
  - intros w [e He]. simpl in He. apply lookup_singleton_Some in He as [<- _]. change (npg 100) with 1%nat. lia.
Defined.
