(* ===== verification/Copy.v ===== *)
(** Copies between the kernel and user memory: [walkaddr], [copyout], [copyin] and
    [copyinstr] of [kernel/vm.c].

    [uview] is user memory as the process sees it, a partial map from virtual
    addresses to bytes.  The three copies are specified on that view, for every
    address a system call may be given. *)
From S2P Require Import Prelude Machine Riscv State Spinlock KString Kalloc Vm.
From Stdlib Require Import ZArith Lia.
From stdpp Require Import base strings numbers gmap list.
Local Open Scope Z_scope.
Local Open Scope m_scope.

(** The entry that translates [va] for the user. *)
Definition uentry (t : ptab) (va : Z) : option Z :=
  if va <? MAXVA then
    match lf t !! (va / PGSIZE) with
    | Some e => if has e PTE_U then Some e else None
    | None => None
    end
  else None.

Definition upa (e va : Z) : Z := PTE2PA e + va mod PGSIZE.

(** The byte the user sees at [va]; whether the user may write there. *)
Definition uview (m : mem) (t : ptab) (va : Z) : option Z := (fun e => ld8 m (upa e va)) <$> uentry t va.
Definition writable (t : ptab) (va : Z) : bool :=
  match uentry t va with Some e => has e PTE_W | None => false end.

Section copy.
Context `{Layout}.

(** User pages are pages of RAM that no other mapping and no page of the table
    shares. *)
Definition upages_ok (t : ptab) : Prop := forall w e, lf t !! w = Some e -> has e PTE_U = true ->
  good_page (PTE2PA e) /\ (PTE2PA e ∉ pt_pages t) /\
  forall w' e', lf t !! w' = Some e' -> PTE2PA e' = PTE2PA e -> w' = w.

Variable t : ptab.
Hypothesis Hok : upages_ok t.

Lemma uentry_page va va' : va / PGSIZE = va' / PGSIZE -> (va < MAXVA <-> va' < MAXVA) -> uentry t va = uentry t va'.
Proof.
  intros Hp Hm. unfold uentry. rewrite Hp.
  replace (va <? MAXVA) with (va' <? MAXVA); [done|]. destruct (Z.ltb_spec va' MAXVA), (Z.ltb_spec va MAXVA); lia.
Qed.

Lemma uentry_Some va e : uentry t va = Some e -> va < MAXVA /\ lf t !! (va / PGSIZE) = Some e /\ has e PTE_U = true.
Proof.
  unfold uentry. destruct (Z.ltb_spec va MAXVA); [|done].
  destruct (lf t !! (va / PGSIZE)) as [e'|]; [|done]. destruct (has e' PTE_U) eqn:HU; [|done].
  by intros [= <-].
Qed.

(** Two user addresses with the same physical address are the same. *)
Lemma upa_inj va va' e e' :
  uentry t va = Some e -> uentry t va' = Some e' -> upa e va = upa e' va' -> va = va'.
Proof.
  intros He He' Heq. apply uentry_Some in He as (_ & Hlf & HU). apply uentry_Some in He' as (_ & Hlf' & HU').
  destruct (Hok _ _ Hlf HU) as (Hg & _ & Hinj). destruct (Hok _ _ Hlf' HU') as (Hg' & _ & _).
  unfold upa in Heq.
  pose proof (Z.mod_pos_bound va PGSIZE ltac:(done)) as Hm. pose proof (Z.mod_pos_bound va' PGSIZE ltac:(done)) as Hm'.
  destruct (decide (PTE2PA e' = PTE2PA e)) as [Hpg|Hne].
  - pose proof (Hinj _ _ Hlf' Hpg) as Hw. rewrite (Z.div_mod va PGSIZE), (Z.div_mod va' PGSIZE) by done. lia.
  - destruct (page_sep (PTE2PA e') (PTE2PA e)) as [?|?]; [done|done|done| |]; unfold PGSIZE in *; lia.
Qed.

Lemma walkaddr_run s va :
  pt_rep (k_mem s) t -> 0 <= va ->
  walkaddr (pt_root t) va s = Ok (match uentry t va with Some e => PTE2PA e | None => 0 end) s.
Proof.
  intros Hr Hva. unfold walkaddr, uentry. destruct (Z.leb_spec MAXVA va), (Z.ltb_spec va MAXVA); try lia; [done|].
  unfold bind. rewrite (walk_ro t) by done. cbn [after]. destruct (lf t !! (va / PGSIZE)) as [e|] eqn:He.
  - destruct (slot_nonzero (k_mem s) t va Hr) as (q & Hq & Hslot & Hnz); [eauto|].
    destruct (Z.eqb_spec (slot_of t va) 0); [done|]. unfold get64, gets. cbn [after]. rewrite Hslot, (leaf_read _ _ _ _ Hr Hq), He.
    simpl. destruct (pr_leaf _ _ Hr _ _ He) as [(_ & HV & _) _]. rewrite HV. by destruct (has e PTE_U).
  - destruct (Z.eqb_spec (slot_of t va) 0) as [|Hnz]; [done|]. unfold slot_of in *.
    destruct (tbl t !! (0%nat, key 0 va)) as [q|] eqn:Hq; [|done].
    unfold get64, gets. cbn [after]. by rewrite (leaf_read _ _ _ _ Hr Hq), He.
Qed.

(** The page a round of a copy works on. *)
Lemma round_page va j :
  0 <= va -> 0 <= j -> va mod PGSIZE + j < PGSIZE ->
  (va + j) / PGSIZE = va / PGSIZE /\ (va + j) mod PGSIZE = va mod PGSIZE + j /\ (va < MAXVA <-> va + j < MAXVA).
Proof.
  intros Hva Hj Hlt. pose proof (Z.mod_pos_bound va PGSIZE ltac:(done)).
  pose proof (Z.div_mod va PGSIZE ltac:(done)) as Hdm.
  assert (Hd : (va + j) / PGSIZE = va / PGSIZE).
  { symmetry. apply (Z.div_unique _ _ _ (va mod PGSIZE + j)); lia. }
  split_and!; [done| |].
  - symmetry. apply (Z.mod_unique _ _ (va / PGSIZE)); lia.
  - change MAXVA with (67108864 * PGSIZE). unfold PGSIZE in *. lia.
Qed.

Lemma uentry_round va j :
  0 <= va -> 0 <= j -> va mod PGSIZE + j < PGSIZE -> uentry t (va + j) = uentry t va.
Proof. intros Hva Hj Hlt. destruct (round_page va j) as (? & _ & ?); [done..|]. apply uentry_page; [done|tauto]. Qed.

Lemma PGROUNDDOWN_mod va : va - PGROUNDDOWN va = va mod PGSIZE.
Proof. rewrite PGROUNDDOWN_div. pose proof (Z.div_mod va PGSIZE ltac:(done)). lia. Qed.

Lemma uentry_down va : 0 <= va -> uentry t (PGROUNDDOWN va) = uentry t va.
Proof.
  intros Hva. pose proof (PGROUNDDOWN_mod va) as Hm. pose proof (PGROUNDDOWN_bounds va).
  pose proof (Z.mod_pos_bound va PGSIZE ltac:(done)).
  rewrite <- (uentry_round (PGROUNDDOWN va) (va mod PGSIZE)).
  - f_equal. lia.
  - rewrite PGROUNDDOWN_div. pose proof (Z.div_pos va PGSIZE ltac:(lia) ltac:(done)). unfold PGSIZE in *. lia.
  - lia.
  - rewrite PGROUNDDOWN_div, Z.mod_mul by done. lia.
Qed.

(** [bs] is what the user sees from [va] on. *)
Definition useen (m : mem) (va : Z) (bs : list Z) : Prop :=
  forall i b, bs !! i = Some b -> uview m t (va + Z.of_nat i) = Some b.

Lemma useen_nil m va : useen m va [].
Proof. by intros i b. Qed.

Lemma useen_app m va bs bs' :
  useen m va bs -> useen m (va + Z.of_nat (length bs)) bs' -> useen m va (bs ++ bs').
Proof.
  intros H1 H2 i b Hb. apply lookup_app_Some in Hb as [Hb|[Hl Hb]]; [by apply H1|].
  apply H2 in Hb. rewrite <- Hb. f_equal. lia.
Qed.

(** What one round reads. *)
Lemma useen_round m va e n :
  0 <= va -> uentry t va = Some e -> va mod PGSIZE + Z.of_nat n <= PGSIZE ->
  useen m va (ld_bytes m (PTE2PA e + va mod PGSIZE) n).
Proof.
  intros Hva He Hn i b Hb. assert (Hi : (i < n)%nat) by (apply lookup_lt_Some in Hb; by rewrite length_ld_bytes in Hb).
  rewrite ld_bytes_lookup in Hb by done. injection Hb as <-.
  unfold uview. rewrite uentry_round, He by lia. simpl. unfold upa.
  destruct (round_page va (Z.of_nat i)) as (_ & -> & _); [lia..|]. do 2 f_equal. lia.
Qed.

Lemma uentry_nonzero va e : uentry t va = Some e -> PTE2PA e <> 0.
Proof.
  intros He. apply uentry_Some in He as (_ & Hlf & HU). destruct (Hok _ _ Hlf HU) as (Hg & _).
  by apply good_page_nonzero.
Qed.

Lemma next_page va e :
  0 <= va -> uentry t va = Some e ->
  u64 (PGROUNDDOWN va + PGSIZE) = va + (PGSIZE - va mod PGSIZE) /\ 0 < PGSIZE - va mod PGSIZE <= PGSIZE.
Proof.
  intros Hva He. apply uentry_Some in He as (Hm & _). pose proof (PGROUNDDOWN_mod va). pose proof (PGROUNDDOWN_bounds va).
  pose proof (Z.mod_pos_bound va PGSIZE ltac:(done)). rewrite MAXVA_pow in Hm.
  rewrite wrap_small by (unfold PGSIZE in *; lia). lia.
Qed.

Lemma PGROUNDDOWN_nonneg va : 0 <= va -> 0 <= PGROUNDDOWN va.
Proof.
  intros Hva. rewrite PGROUNDDOWN_div. pose proof (Z.div_pos va PGSIZE ltac:(lia) ltac:(done)). unfold PGSIZE in *. lia.
Qed.

Lemma copyin_run s srcva len :
  pt_rep (k_mem s) t -> 0 <= srcva ->
  wp (copyin (pt_root t) srcva len) (fun '(r, dst) s' => s' = s /\ useen (k_mem s) srcva dst /\
    ((r = 0 /\ length dst = len) \/
     (r = -1 /\ (length dst < len)%nat /\ uview (k_mem s) t (srcva + Z.of_nat (length dst)) = None))) s.
Proof.
  intros Hr Hva. unfold copyin.
  apply (wp_while _ (fun '(dst, va, n) s' => s' = s /\ useen (k_mem s) srcva dst /\ (n + length dst = len)%nat /\
    ((0 < n)%nat -> va = srcva + Z.of_nat (length dst))) (fun '(_, _, n) => n)).
  - split_and!; [done|apply useen_nil|simpl; lia|simpl; lia].
  - lia.
  - intros [[dst va] n] s' (-> & Hseen & Hn & Hvan).
    destruct (Nat.eqb_spec n 0) as [->|Hn0]; [apply wp_ret; split_and!; [done|done|left; split; [done|lia]]|].
    specialize (Hvan ltac:(lia)). assert (Hva0 : 0 <= va) by lia.
    apply wp_bind. eapply wp_ok; [apply walkaddr_run; [done|by apply PGROUNDDOWN_nonneg]|].
    rewrite uentry_down by done. destruct (uentry t va) as [e|] eqn:He.
    2:{ apply wp_ret. split_and!; [done|done|]. right. split_and!; [done|lia|]. rewrite <- Hvan. unfold uview. by rewrite He. }
    rewrite (proj2 (Z.eqb_neq _ 0) (uentry_nonzero va e He)). apply wp_bind, wp_gets, wp_ret.
    rewrite PGROUNDDOWN_mod. destruct (next_page va e Hva0 He) as [-> Hpos].
    set (k := Z.to_nat (Z.min (PGSIZE - va mod PGSIZE) (Z.of_nat n))).
    assert (Hk : (0 < k <= n)%nat /\ va mod PGSIZE + Z.of_nat k <= PGSIZE) by lia.
    rewrite length_app, length_ld_bytes. split; [|lia]. split_and!; [done| |lia|lia].
    apply useen_app; [done|]. rewrite <- Hvan. apply useen_round; [done|done|lia].
Qed.

(** A page worth of a string. *)
Lemma copyinstr_page_run p n s :
  exists got bs, copyinstr_page p n s = Ok (got, bs) s /\ bs = ld_bytes (k_mem s) p (length bs) /\ (length bs <= n)%nat /\
    (if got : bool then exists pre, bs = pre ++ [0] /\ Forall (fun c => c <> 0) pre
     else length bs = n /\ Forall (fun c => c <> 0) bs).
Proof.
  revert p. induction n as [|n IH]; intros p.
  - exists false, []. repeat split; [done|constructor].
  - unfold copyinstr_page; fold copyinstr_page. unfold bind at 1, get_byte, gets. cbn [after].
    destruct (Z.eqb_spec (ld8 (k_mem s) p) 0) as [Hz|Hnz].
    + exists true, [0]. split_and!; [done|simpl; by rewrite Hz|simpl; lia|]. by exists [].
    + destruct (IH (p + 1)) as (got & bs & Hrun & Hbs & Hlen & Hgot). exists got, (ld8 (k_mem s) p :: bs).
      unfold bind. rewrite Hrun. split_and!; [done|simpl; by rewrite <- Hbs|simpl; lia|].
      destruct got.
      * destruct Hgot as (pre & -> & Hpre). exists (ld8 (k_mem s) p :: pre). split; [done|by constructor].
      * destruct Hgot as [Hl Hf]. split; [simpl; lia|by constructor].
Qed.

Lemma copyinstr_run s srcva max :
  pt_rep (k_mem s) t -> 0 <= srcva ->
  wp (copyinstr (pt_root t) srcva max) (fun '(r, dst) s' => s' = s /\ useen (k_mem s) srcva dst /\
    (length dst <= max)%nat /\
    ((r = 0 /\ exists str, dst = str ++ [0] /\ Forall (fun c => c <> 0) str) \/
     (r = -1 /\ Forall (fun c => c <> 0) dst /\
      (length dst = max \/ uview (k_mem s) t (srcva + Z.of_nat (length dst)) = None)))) s.
Proof.
  intros Hr Hva. unfold copyinstr.
  apply (wp_while _ (fun '(dst, va, n) s' => s' = s /\ useen (k_mem s) srcva dst /\ (n + length dst = max)%nat /\
    Forall (fun c => c <> 0) dst /\ ((0 < n)%nat -> va = srcva + Z.of_nat (length dst))) (fun '(_, _, n) => n)).
  - split_and!; [done|apply useen_nil|simpl; lia|constructor|simpl; lia].
  - lia.
  - intros [[dst va] n] s' (-> & Hseen & Hn & Hnz & Hvan).
    destruct (Nat.eqb_spec n 0) as [->|Hn0].
    { apply wp_ret. split_and!; [done|done|lia|]. right. split_and!; [done|done|left; lia]. }
    specialize (Hvan ltac:(lia)). assert (Hva0 : 0 <= va) by lia.
    apply wp_bind. eapply wp_ok; [apply walkaddr_run; [done|by apply PGROUNDDOWN_nonneg]|].
    rewrite uentry_down by done. destruct (uentry t va) as [e|] eqn:He.
    2:{ apply wp_ret. split_and!; [done|done|lia|]. right. split_and!; [done|done|right]. rewrite <- Hvan. unfold uview. by rewrite He. }
    rewrite (proj2 (Z.eqb_neq _ 0) (uentry_nonzero va e He)). rewrite PGROUNDDOWN_mod.
    destruct (next_page va e Hva0 He) as [Hnext Hpos]. rewrite Hnext.
    set (k := Z.to_nat (Z.min (PGSIZE - va mod PGSIZE) (Z.of_nat n))).
    assert (Hk : (0 < k <= n)%nat /\ va mod PGSIZE + Z.of_nat k <= PGSIZE) by lia.
    destruct (copyinstr_page_run (PTE2PA e + va mod PGSIZE) k s) as (got & bs & Hrun & Hbs & Hlen & Hgot).
    apply wp_bind. eapply wp_ok; [exact Hrun|]. simpl.
    assert (Hseen' : useen (k_mem s) srcva (dst ++ bs)).
    { apply useen_app; [done|]. rewrite <- Hvan, Hbs. apply useen_round; [done|done|lia]. }
    destruct got; apply wp_ret.
    + destruct Hgot as (pre & -> & Hpre). split_and!; [done|done|rewrite length_app; lia|]. left. split; [done|].
      exists (dst ++ pre). rewrite app_assoc. split; [done|]. by apply Forall_app.
    + destruct Hgot as [Hl Hf]. rewrite length_app. split; [|lia]. split_and!; [done|done|lia|by apply Forall_app|lia].
Qed.

(** *** [copyout] *)

(** Memory [m] with [bs] written at the user addresses from [va] on: the bytes at
    writable user addresses, and no others. *)
Record uwritten (m : mem) (va : Z) (bs : list Z) (m' : mem) : Prop := {
  uw_rep : pt_rep m' t;
  uw_view : forall a, 0 <= a -> uview m' t a =
    if decide (va <= a < va + Z.of_nat (length bs)) then bs !! Z.to_nat (a - va) else uview m t a;
  uw_out : forall x, (forall a e, 0 <= a -> uentry t a = Some e -> has e PTE_W = true -> x <> upa e a) ->
    ld8 m' x = ld8 m x
}.

Lemma uwritten_nil m va : pt_rep m t -> uwritten m va [] m.
Proof. intros Hr. split; [done| |done]. intros a Ha. simpl. by rewrite decide_False by lia. Qed.

Lemma uwritten_app m m1 m2 va bs bs' :
  uwritten m va bs m1 -> uwritten m1 (va + Z.of_nat (length bs)) bs' m2 -> uwritten m va (bs ++ bs') m2.
Proof.
  intros [Hr1 Hv1 Ho1] [Hr2 Hv2 Ho2]. split; [done| |].
  - intros a Ha. rewrite Hv2, Hv1 by done. rewrite length_app. destruct (decide (_ <= a < _ + Z.of_nat (length bs'))).
    + rewrite decide_True by lia. rewrite lookup_app_r by lia. f_equal. lia.
    + destruct (decide (va <= a < va + Z.of_nat (length bs))).
      * rewrite decide_True by lia. by rewrite lookup_app_l by lia.
      * by rewrite decide_False by lia.
  - intros x Hx. by rewrite Ho2, Ho1.
Qed.

(** What one round writes. *)
Lemma uwritten_round m va e bs :
  pt_rep m t -> 0 <= va -> uentry t va = Some e -> has e PTE_W = true ->
  va mod PGSIZE + Z.of_nat (length bs) <= PGSIZE ->
  uwritten m va bs (st_bytes m (PTE2PA e + va mod PGSIZE) bs).
Proof.
  intros Hr Hva He HW Hn. pose proof (uentry_Some va e He) as (_ & Hlf & HU).
  destruct (Hok _ _ Hlf HU) as (Hg & Hnt & _). pose proof (Z.mod_pos_bound va PGSIZE ltac:(done)) as Hmod.
  assert (Hin : forall j, 0 <= j < Z.of_nat (length bs) -> uentry t (va + j) = Some e /\ upa e (va + j) = PTE2PA e + va mod PGSIZE + j).
  { intros j Hj. rewrite uentry_round by lia. split; [done|]. unfold upa.
    destruct (round_page va j) as (_ & -> & _); lia. }
  assert (Hxa : forall x, PTE2PA e + va mod PGSIZE <= x < PTE2PA e + va mod PGSIZE + Z.of_nat (length bs) ->
    exists j, 0 <= j < Z.of_nat (length bs) /\ x = upa e (va + j)).
  { intros x Hx. exists (x - PTE2PA e - va mod PGSIZE). split; [lia|]. rewrite (proj2 (Hin (x - PTE2PA e - va mod PGSIZE) ltac:(lia))). lia. }
  split.
  - eapply (pt_rep_out _ _ _ {[PTE2PA e]}); [done|clear - Hnt; set_solver|by intros b ->%elem_of_singleton|].
    apply mem_out_st_bytes; [by apply elem_of_singleton|lia|lia].
  - intros a Ha. case_decide as Hd.
    + destruct (Hin (a - va) ltac:(lia)) as [Hea Hpa]. replace (va + (a - va)) with a in * by lia.
      unfold uview. rewrite Hea. simpl. rewrite Hpa.
      destruct (lookup_lt_is_Some_2 bs (Z.to_nat (a - va))) as [b Hb]; [lia|]. rewrite Hb. f_equal.
      replace (a - va) with (Z.of_nat (Z.to_nat (a - va))) at 1 by lia. by apply ld8_st_inside.
    + unfold uview. destruct (uentry t a) as [e'|] eqn:He'; [|done]. simpl. f_equal. apply ld8_st_outside.
      destruct (decide (PTE2PA e + va mod PGSIZE <= upa e' a < PTE2PA e + va mod PGSIZE + Z.of_nat (length bs))) as [Hx|Hx]; [|lia].
      destruct (Hxa _ Hx) as (j & Hj & Heq). destruct (Hin j Hj) as [Hej _].
      assert (a = va + j) by (by eapply upa_inj). lia.
  - intros x Hx. apply ld8_st_outside.
    destruct (decide (PTE2PA e + va mod PGSIZE <= x < PTE2PA e + va mod PGSIZE + Z.of_nat (length bs))) as [Hr'|Hr']; [|lia].
    destruct (Hxa x Hr') as (j & Hj & Heq). destruct (Hin j Hj) as [Hej _]. by destruct (Hx (va + j) e); [lia| | |].
Qed.

(** The entry [copyout] inspects. *)
Lemma copyout_entry {A} s va (fail : A) (k : Z -> K A) (Q : A -> kstate -> Prop) :
  pt_rep (k_mem s) t -> 0 <= va ->
  (writable t va = false -> Q fail s) ->
  (forall e, uentry t va = Some e -> has e PTE_W = true -> wp (k e) Q s) ->
  wp (if MAXVA <=? PGROUNDDOWN va then ret fail else
      pte <- walk (pt_root t) (PGROUNDDOWN va) false ;;
      if pte =? 0 then ret fail else
      e <- get64 pte ;;
      if negb (has e PTE_V) || negb (has e PTE_U) || negb (has e PTE_W) then ret fail else k e) Q s.
Proof.
  intros Hr Hva Hf Hk. unfold writable in Hf. rewrite <- (uentry_down va Hva) in Hf, Hk.
  pose proof (PGROUNDDOWN_nonneg va Hva) as Hnn. set (a := PGROUNDDOWN va) in *. unfold uentry in Hf, Hk.
  destruct (Z.leb_spec MAXVA a), (Z.ltb_spec a MAXVA); try lia; [apply wp_ret; by apply Hf|].
  apply wp_bind. eapply wp_ok; [by apply (walk_ro t)|]. destruct (lf t !! (a / PGSIZE)) as [e|] eqn:He.
  - destruct (slot_nonzero (k_mem s) t a Hr) as (q & Hq & Hslot & Hnz); [eauto|].
    destruct (Z.eqb_spec (slot_of t a) 0); [done|]. apply wp_bind, wp_gets.
    rewrite Hslot, (leaf_read _ _ _ _ Hr Hq), He. simpl default.
    destruct (pr_leaf _ _ Hr _ _ He) as [(_ & HV & _) _]. rewrite HV.
    destruct (has e PTE_U); [destruct (has e PTE_W) eqn:HW|]; simpl; [|apply wp_ret; by apply Hf..].
    by apply Hk.
  - destruct (Z.eqb_spec (slot_of t a) 0) as [|Hnz]; [apply wp_ret; by apply Hf|]. unfold slot_of in *.
    destruct (tbl t !! (0%nat, key 0 a)) as [q|] eqn:Hq; [|done].
    apply wp_bind, wp_gets. rewrite (leaf_read _ _ _ _ Hr Hq), He. simpl. apply wp_ret. by apply Hf.
Qed.

Lemma copyout_run s dstva src :
  pt_rep (k_mem s) t -> 0 <= dstva ->
  wp (copyout (pt_root t) dstva src) (fun r s' => exists k m', s' = set_k_mem m' s /\ (k <= length src)%nat /\
    uwritten (k_mem s) dstva (take k src) m' /\ (forall i, 0 <= i < Z.of_nat k -> writable t (dstva + i) = true) /\
    ((r = 0 /\ k = length src) \/
     (r = -1 /\ (k < length src)%nat /\ writable t (dstva + Z.of_nat k) = false))) s.
Proof.
  intros Hr Hva. unfold copyout.
  apply (wp_while _ (fun '(va, rest) s' => exists k m', s' = set_k_mem m' s /\ (k <= length src)%nat /\
    uwritten (k_mem s) dstva (take k src) m' /\ (forall i, 0 <= i < Z.of_nat k -> writable t (dstva + i) = true) /\
    rest = drop k src /\ ((k < length src)%nat -> va = dstva + Z.of_nat k)) (fun '(_, rest) => length rest)).
  - exists 0%nat, (k_mem s). split_and!; [by destruct s|lia|by apply uwritten_nil|lia|done|lia].
  - lia.
  - intros [va rest] s' (k & m' & -> & Hk & Hw & Hwr & -> & Hvk). rewrite length_drop.
    destruct (Nat.eqb_spec (length src - k) 0) as [Hz|Hnz].
    { apply wp_ret. exists k, m'. split_and!; [done|done|done|done|]. left. split; [done|lia]. }
    specialize (Hvk ltac:(lia)). assert (Hva0 : 0 <= va) by lia. cbv zeta.
    apply copyout_entry; [apply Hw|done| |].
    { intros Hnw. exists k, m'. rewrite <- Hvk. split_and!; [done|done|done|done|]. right. split_and!; [done|lia|done]. }
    intros e He HW. apply wp_bind, wp_modify, wp_ret. rewrite PGROUNDDOWN_mod.
    destruct (next_page va e Hva0 He) as [-> Hpos].
    set (n := Z.to_nat (Z.min (PGSIZE - va mod PGSIZE) (Z.of_nat (length src - k)))).
    assert (Hn : (0 < n <= length src - k)%nat /\ va mod PGSIZE + Z.of_nat n <= PGSIZE) by lia.
    split; [|rewrite !length_drop; lia].
    exists (k + n)%nat, (st_bytes m' (PTE2PA e + va mod PGSIZE) (take n (drop k src))).
    split_and!; [done|lia| | |by rewrite drop_drop|lia].
    + rewrite <- take_take_drop. eapply uwritten_app; [exact Hw|]. rewrite length_take, Nat.min_l by lia. rewrite <- Hvk.
      apply uwritten_round; [apply Hw|done|done|done|]. rewrite length_take, length_drop. lia.
    + intros i Hi. destruct (decide (i < Z.of_nat k)); [apply Hwr; lia|].
      replace (dstva + i) with (va + (i - Z.of_nat k)) by lia. unfold writable. rewrite uentry_round, He by lia. done.
Qed.
End copy.

(** ** The theorems *)
Section theorems.
Context `{Layout}.

(** C18: [copyout] is safe for every user address.  It returns, never panics, and
    copies the longest prefix of the kernel's bytes that lands on memory the
    process may write: 0 means all of them, -1 that the next address is not
    writable.  Seen through the page table, exactly the bytes at those addresses
    change; no physical memory changes that is not user-writable memory of this
    process. *)
Theorem copyout_writes_user_memory t s dstva src :
  upages_ok t -> pt_rep (k_mem s) t -> 0 <= dstva ->
  wp (copyout (pt_root t) dstva src) (fun r s' => exists k m', s' = set_k_mem m' s /\ (k <= length src)%nat /\
    pt_rep m' t /\
    (forall va, 0 <= va -> uview m' t va =
       if decide (dstva <= va < dstva + Z.of_nat k) then src !! Z.to_nat (va - dstva) else uview (k_mem s) t va) /\
    (forall x, (forall va e, 0 <= va -> uentry t va = Some e -> has e PTE_W = true -> x <> upa e va) ->
       ld8 m' x = ld8 (k_mem s) x) /\
    (forall i, 0 <= i < Z.of_nat k -> writable t (dstva + i) = true) /\
    ((r = 0 /\ k = length src) \/
     (r = -1 /\ (k < length src)%nat /\ writable t (dstva + Z.of_nat k) = false))) s.
Proof.
  intros Hok Hr Hva. eapply wp_mono; [by apply copyout_run|].
  intros r s' (k & m' & -> & Hk & [Hr' Hview Hout] & Hwr & Hres). exists k, m'. split_and!; try done.
  intros va Hva'. rewrite Hview by done. rewrite length_take, Nat.min_l by lia.
  case_decide; [|done]. apply lookup_take_lt. lia.
Qed.

(** C19: bytes copied out to user memory and copied in again are the same bytes:
    if the destination is writable, [copyout] followed by [copyin] from the same
    address succeeds and returns what was written. *)
Theorem copyout_copyin_roundtrip t s va src :
  upages_ok t -> pt_rep (k_mem s) t -> 0 <= va ->
  (forall i, 0 <= i < Z.of_nat (length src) -> writable t (va + i) = true) ->
  wp (r <- copyout (pt_root t) va src ;;
      let! (r', dst) := copyin (pt_root t) va (length src) in ret (r, r', dst))
    (fun res _ => res = (0, 0, src)) s.
Proof.
  intros Hok Hr Hva Hall. apply wp_bind. eapply wp_mono; [by apply copyout_run|].
  intros r s' (k & m' & -> & Hk & [Hr' Hview _] & _ & [[-> ->]|(-> & Hlt & Hno)]).
  2:{ rewrite Hall in Hno by lia. done. }
  rewrite take_ge in Hview by lia. apply wp_bind.
  eapply wp_mono; [apply (copyin_run t); [done|exact Hr'|done]|].
  intros [r' dst] s2 (-> & Hseen & Hres). apply wp_ret.
  assert (Hsame : forall i b, dst !! i = Some b -> (i < length src)%nat -> src !! i = Some b).
  { intros i b Hb Hi. apply Hseen in Hb. simpl in Hb. rewrite Hview, decide_True in Hb by lia.
    by replace (Z.to_nat (va + Z.of_nat i - va)) with i in Hb by lia. }
  destruct Hres as [[-> Hlen]|(-> & Hlt & Hnone)].
  - f_equal. apply list_eq. intros i. destruct (dst !! i) as [b|] eqn:Hb.
    + symmetry. apply Hsame; [done|]. apply lookup_lt_Some in Hb. lia.
    + symmetry. apply lookup_ge_None. apply lookup_ge_None in Hb. lia.
  - simpl in Hnone. rewrite Hview, decide_True in Hnone by lia. apply lookup_ge_None in Hnone. lia.
Qed.

(** C20: [copyinstr] fetches the user's string.  For every user address and bound it
    returns without a panic and without changing the state.  When it returns 0 the
    bytes it stored are what the user sees at the address, end in a zero and have no
    other zero.  When it returns -1 it stored what the user sees, no byte of which
    is zero, and either the bound was reached or the next address is not mapped. *)
Theorem copyinstr_fetches_string t s srcva max :
  upages_ok t -> pt_rep (k_mem s) t -> 0 <= srcva ->
  wp (copyinstr (pt_root t) srcva max) (fun '(r, dst) s' => s' = s /\ (length dst <= max)%nat /\
    (forall i b, dst !! i = Some b -> uview (k_mem s) t (srcva + Z.of_nat i) = Some b) /\
    ((r = 0 /\ exists str, dst = str ++ [0] /\ Forall (fun c => c <> 0) str) \/
     (r = -1 /\ Forall (fun c => c <> 0) dst /\
      (length dst = max \/ uview (k_mem s) t (srcva + Z.of_nat (length dst)) = None)))) s.
Proof.
  intros Hok Hr Hva. eapply wp_mono; [by apply copyinstr_run|].
  intros [r dst] s' (-> & Hseen & Hlen & Hres). by split_and!.
Qed.

(** After [mappages] the page table translates the new range and everything
    else as before.  The call returns without a panic: 0, and then [walkaddr] of an
    address in the range is the physical page [pa] plus its offset if the mapping is
    for the user, and of every other address what it was; or -1, and then there is no
    free page left. *)
Theorem mappages_walkaddr s F t va n pa perm :
  vm_inv s F t -> 0 <= va -> (PGSIZE | va) -> (0 < n)%nat -> va + Z.of_nat n * PGSIZE <= MAXVA ->
  0 <= pa -> (PGSIZE | pa) -> pa + Z.of_nat n * PGSIZE <= 2 ^ 56 -> perm_ok perm ->
  (forall w, va / PGSIZE <= w < va / PGSIZE + Z.of_nat n -> lf t !! w = None) ->
  wp (mappages (pt_root t) va (Z.of_nat n * PGSIZE) pa perm) (fun r s' =>
    (r = 0 /\ forall a, 0 <= a -> exists old, walkaddr (pt_root t) a s = Ok old s /\
       walkaddr (pt_root t) a s' = Ok
         (if decide (va <= a < va + Z.of_nat n * PGSIZE) then
            if has perm PTE_U then pa + (a - va) / PGSIZE * PGSIZE else 0
          else old) s') \/
    (r = -1 /\ kmem_free s' ∅)) s.
Proof.
  intros Hinv Hva Hal Hn Hmax Hpa Hpal Hpa' Hperm Hnone. eapply wp_mono; [by apply (mappages_spec s F t)|].
  intros r s' (F' & t' & j & Hg & Hlf & [[-> ->]|(-> & _ & ->)]); [left|right; split; [done|apply Hg]].
  split; [done|]. intros a Ha. destruct Hinv as (_ & Hr & _). pose proof (vg_inv _ _ _ _ _ _ Hg) as (_ & Hr' & _).
  eexists. split; [by apply walkaddr_run|]. rewrite <- (vg_root _ _ _ _ _ _ Hg). rewrite walkaddr_run by done. f_equal.
  unfold uentry. rewrite Hlf, map_range_lookup. destruct Hal as [v ->], Hpal as [p ->]. rewrite Z.div_mul by done.
  pose proof (Z.div_mod a PGSIZE ltac:(done)) as Hdm. pose proof (Z.mod_pos_bound a PGSIZE ltac:(done)) as Hmod.
  destruct (decide (v * PGSIZE <= a < v * PGSIZE + Z.of_nat n * PGSIZE)) as [Hin|Hout].
  - destruct (Z.ltb_spec a MAXVA); [|lia]. rewrite decide_True by (unfold PGSIZE in *; lia).
    assert (Hq : (a - v * PGSIZE) / PGSIZE = a / PGSIZE - v).
    { replace (a - v * PGSIZE) with (a + (- v) * PGSIZE) by lia. rewrite Z.div_add by done. lia. }
    rewrite Hq. destruct Hperm as [Hpr _]. pose proof (flags_lor_V perm Hpr) as Hfl.
    assert (Hpg : 0 <= p * PGSIZE + (a / PGSIZE - v) * PGSIZE < 2 ^ 56) by (unfold PGSIZE in *; lia).
    replace (has (mkpte _ _) PTE_U) with (has perm PTE_U).
    + destruct (has perm PTE_U); [|done]. apply PTE2PA_mkpte; [done| |done].
      exists (p + (a / PGSIZE - v)). lia.
    + unfold PTE_U at 2. rewrite has_flags by lia. unfold mkpte. rewrite PTE_FLAGS_mkpte by done.
      unfold has. do 2 f_equal. rewrite Z.land_lor_distr_l. change (Z.land PTE_V (Z.shiftl 1 4)) with 0. by rewrite Z.lor_0_r.
  - destruct (Z.ltb_spec a MAXVA); [|done]. rewrite decide_False by (unfold PGSIZE in *; lia). done.
Qed.
End theorems.

Lemma sample_upages : @upages_ok sample_layout Sample.mapped_pt.
Proof.
  assert (Hone : forall w e, lf Sample.mapped_pt !! w = Some e -> w = 0 /\ PTE2PA e = Sample.page 3).
  { intros w e He. simpl in He. apply lookup_singleton_Some in He as [<- <-]. split; [done|by vm_compute]. }
  intros w e He HU. destruct (Hone w e He) as [-> ->]. split_and!; [by apply Sample.page_good| |].
  - rewrite Sample.mapped_pages. by apply (bool_decide_unpack _); vm_compute.
  - intros w' e' He' _. by destruct (Hone w' e' He').
Qed.

Lemma copyout_writes_user_memory_witness :
  wp (copyout (Sample.page 0) 4094 [1; 2; 3]) (fun r s' => exists k m', s' = set_k_mem m' Sample.mapped /\ (k <= 3)%nat /\
    @pt_rep sample_layout m' Sample.mapped_pt /\
    (forall va, 0 <= va -> uview m' Sample.mapped_pt va =
       if decide (4094 <= va < 4094 + Z.of_nat k) then [1; 2; 3] !! Z.to_nat (va - 4094)
       else uview Sample.mapped_mem Sample.mapped_pt va) /\
    (forall x, (forall va e, 0 <= va -> uentry Sample.mapped_pt va = Some e -> has e PTE_W = true -> x <> upa e va) ->
       ld8 m' x = ld8 Sample.mapped_mem x) /\
    (forall i, 0 <= i < Z.of_nat k -> writable Sample.mapped_pt (4094 + i) = true) /\
    ((r = 0 /\ k = 3%nat) \/
     (r = -1 /\ (k < 3)%nat /\ writable Sample.mapped_pt (4094 + Z.of_nat k) = false))) Sample.mapped.
Proof.
  apply (@copyout_writes_user_memory sample_layout Sample.mapped_pt Sample.mapped 4094 [1; 2; 3] sample_upages
    Sample.mapped_rep). lia.
Defined.

Lemma copyout_copyin_roundtrip_witness :
  wp (r <- copyout (Sample.page 0) 10 [7; 8; 9] ;;
      let! (r', dst) := copyin (Sample.page 0) 10 3 in ret (r, r', dst))
    (fun res _ => res = (0, 0, [7; 8; 9])) Sample.mapped.
Proof.
  apply (@copyout_copyin_roundtrip sample_layout Sample.mapped_pt Sample.mapped 10 [7; 8; 9] sample_upages Sample.mapped_rep);
    [lia|]. intros i Hi. assert (i = 0 \/ i = 1 \/ i = 2) as [->|[->| ->]] by (simpl in Hi; lia); by vm_compute.
Defined.

Lemma copyinstr_fetches_string_witness :
  wp (copyinstr (Sample.page 0) 4000 128) (fun '(r, dst) s' => s' = Sample.mapped /\ (length dst <= 128)%nat /\
    (forall i b, dst !! i = Some b -> uview Sample.mapped_mem Sample.mapped_pt (4000 + Z.of_nat i) = Some b) /\
    ((r = 0 /\ exists str, dst = str ++ [0] /\ Forall (fun c => c <> 0) str) \/
     (r = -1 /\ Forall (fun c => c <> 0) dst /\
      (length dst = 128%nat \/ uview Sample.mapped_mem Sample.mapped_pt (4000 + Z.of_nat (length dst)) = None)))) Sample.mapped.
Proof.
  apply (@copyinstr_fetches_string sample_layout Sample.mapped_pt Sample.mapped 4000 128 sample_upages Sample.mapped_rep). lia.
Defined.

Lemma mappages_walkaddr_witness :
  wp (mappages (Sample.page 0) 0x5000 (Z.of_nat 2 * PGSIZE) 0x80000000 (Z.lor PTE_R PTE_U)) (fun r s' =>
    (r = 0 /\ forall a, 0 <= a -> exists old, walkaddr (Sample.page 0) a Sample.vm = Ok old Sample.vm /\
       walkaddr (Sample.page 0) a s' = Ok
         (if decide (0x5000 <= a < 0x5000 + Z.of_nat 2 * PGSIZE) then
            if has (Z.lor PTE_R PTE_U) PTE_U then 0x80000000 + (a - 0x5000) / PGSIZE * PGSIZE else 0
          else old) s') \/
    (r = -1 /\ @kmem_free sample_layout s' ∅)) Sample.vm.
Proof.
  apply (@mappages_walkaddr sample_layout Sample.vm _ (empty_pt (Sample.page 0)) 0x5000 2 0x80000000 (Z.lor PTE_R PTE_U)
    Sample.inv_vm); [lia|by exists 5|lia|done|lia|by exists 0x80000|done|done|].
  intros w _. apply lookup_empty.
Defined.
