(* ===== verification/User.v ===== *)
(** The memory of the process that runs, seen from the kernel: [either_copyin],
    [either_copyout] and [killed] of [kernel/proc.c] on a well-formed address space. *)
From S2P Require Import Prelude Machine Riscv State Spinlock KString Kalloc Vm Sched Copy.
From Stdlib Require Import ZArith Lia.
From stdpp Require Import base strings numbers gmap list.
Local Open Scope Z_scope.
Local Open Scope m_scope.

Lemma killed_run i s :
  hart_ok s -> lock_free (L_proc i) s -> killed i s = Ok (pkilled (k_procs s !!! i)) (settle s).
Proof.
  intros Hok Hf. unfold killed. rewrite (bind_ok _ _ _ _ _ (acquire_run _ _ Hok Hf)).
  unfold get_proc, gets, bind at 1. cbn [after]. erewrite bind_ok; [|apply release_run; hart_tac].
  by rewrite released_acquired.
Qed.

Section user.
Context `{Layout}.

(** Process [me] runs, holds no process lock, and its page table is [t]. *)
Record uproc (s : kstate) (me : nat) (t : ptab) : Prop := {
  up_hart : hart_ok s;
  up_plocks : plocks_free s;
  up_procs : length (k_procs s) = NPROC;
  up_runs : runs me s;
  up_pt : ppagetable (k_procs s !!! me) = pt_root t;
  up_rep : pt_rep (k_mem s) t;
  up_ok : upages_ok t
}.

(** A step that leaves the hart, memory and the locks of processes alone. *)
Lemma uproc_frame s s' me t :
  uproc s me t -> k_hart s' = k_hart s -> k_cpus s' = k_cpus s -> k_mem s' = k_mem s ->
  (forall i, lock_free (L_proc i) s -> lock_free (L_proc i) s') -> quiet (k_procs s) (k_procs s') -> uproc s' me t.
Proof.
  intros [Hok Hpl Hps Hrun Hpt Hrep Hup] Hh Hc Hm Hl Hq. destruct (quiet_at _ _ me Hq) as [st Hme]. split.
  - unfold hart_ok, cur, k_sie in *. by rewrite Hh, Hc.
  - intros i. apply Hl, Hpl.
  - by rewrite (quiet_length _ _ Hq).
  - unfold runs, cur in *. by rewrite Hh, Hc.
  - by rewrite Hme.
  - by rewrite Hm.
  - done.
Qed.

Lemma uproc_settle s me t : uproc s me t -> uproc (settle s) me t.
Proof.
  intros [Hok Hpl Hps Hrun Hpt Hrep Hup]. split; try done.
  - by apply hart_ok_settle.
  - unfold runs. by rewrite cproc_settle.
Qed.

Lemma uproc_acquired l s me t : uproc s me t -> (forall i, l <> L_proc i) -> uproc (acquired l s) me t.
Proof.
  intros [Hok Hpl Hps Hrun Hpt Hrep Hup] Hl. split; try done.
  - by apply hart_ok_acquired.
  - intros i. apply lock_free_acquired; [apply Hl|apply Hpl].
  - unfold runs. by rewrite cproc_acquired.
Qed.

(** New contents of memory that leave the page table in place. *)
Lemma uproc_set_mem s me t m : uproc s me t -> pt_rep m t -> uproc (set_k_mem m s) me t.
Proof. intros [Hok Hpl Hps Hrun Hpt Hrep Hup] Hm. by split. Qed.

Lemma uproc_set_cons s me t v : uproc s me t -> uproc (set_k_cons v s) me t.
Proof. intros Hu. by apply (uproc_frame s); [..|apply quiet_refl]. Qed.
Lemma uproc_set_uart s me t v : uproc s me t -> uproc (set_k_uart v s) me t.
Proof. intros Hu. by apply (uproc_frame s); [..|apply quiet_refl]. Qed.
Lemma uproc_set_out s me t v : uproc s me t -> uproc (set_k_out v s) me t.
Proof. intros Hu. by apply (uproc_frame s); [..|apply quiet_refl]. Qed.
Lemma uproc_set_pipes s me t v : uproc s me t -> uproc (set_k_pipes v s) me t.
Proof. intros Hu. by apply (uproc_frame s); [..|apply quiet_refl]. Qed.
Lemma uproc_set_virtio s me t v : uproc s me t -> uproc (set_k_virtio v s) me t.
Proof. intros Hu. by apply (uproc_frame s); [..|apply quiet_refl]. Qed.
Lemma uproc_set_procs s me t ps : uproc s me t -> quiet (k_procs s) ps -> uproc (set_k_procs ps s) me t.
Proof. intros Hu Hq. by apply (uproc_frame s). Qed.

Lemma uproc_killed s me t i : uproc s me t -> killed i s = Ok (pkilled (k_procs s !!! i)) (settle s).
Proof. intros []. by apply killed_run. Qed.

Lemma uproc_curproc s me t : uproc s me t -> curproc s = Ok me (settle s).
Proof. intros []. by apply curproc_run. Qed.

Lemma uproc_wakeup s me t c :
  uproc s me t -> wakeup c s = Ok tt (set_k_procs (wake_all c (Some me) (k_procs s)) (settle s)).
Proof. intros [Hok Hpl Hps Hrun _ _ _]. rewrite wakeup_run by done. by rewrite Hrun. Qed.

Lemma either_copyin_spec s me t src n :
  uproc s me t -> 0 <= src ->
  wp (either_copyin true src n) (fun '(r, bs) s' => s' = settle s /\ useen t (k_mem s) src bs /\
    ((r = 0 /\ length bs = n) \/
     (r = -1 /\ (length bs < n)%nat /\ uview (k_mem s) t (src + Z.of_nat (length bs)) = None))) s.
Proof.
  intros Hu Hsrc. unfold either_copyin. apply wp_bind, wp_myproc; [apply Hu|]. rewrite (up_runs _ _ _ Hu).
  apply wp_bind, wp_gets. change (k_procs (settle s)) with (k_procs s). rewrite (up_pt _ _ _ Hu).
  apply (copyin_run t (up_ok _ _ _ Hu) (settle s)); [apply Hu|done].
Qed.

Lemma either_copyout_spec s me t dst src :
  uproc s me t -> 0 <= dst ->
  wp (either_copyout true dst src) (fun r s' => exists k m', s' = set_k_mem m' (settle s) /\ (k <= length src)%nat /\
    uwritten t (k_mem s) dst (take k src) m' /\ (forall i, 0 <= i < Z.of_nat k -> writable t (dst + i) = true) /\
    ((r = 0 /\ k = length src) \/
     (r = -1 /\ (k < length src)%nat /\ writable t (dst + Z.of_nat k) = false))) s.
Proof.
  intros Hu Hdst. unfold either_copyout. apply wp_bind, wp_myproc; [apply Hu|]. rewrite (up_runs _ _ _ Hu).
  apply wp_bind, wp_gets. change (k_procs (settle s)) with (k_procs s). rewrite (up_pt _ _ _ Hu).
  apply (copyout_run t (up_ok _ _ _ Hu) (settle s)); [apply Hu|done].
Qed.
End user.

(** A state with one process, whose memory is the page of [Sample.mapped_pt]. *)
Module SampleUser.
Definition state : kstate :=
  set_k_procs (alter (set_ppagetable (Sample.page 0)) 0%nat (k_procs boot_state))
    (set_k_cpus (alter (set_cproc (Some 0%nat)) 0%nat (k_cpus boot_state)) Sample.mapped).

Lemma user : @uproc sample_layout state 0 Sample.mapped_pt.
Proof.
  split; [|intros i; exact eq_refl|by vm_compute|by vm_compute|by vm_compute|exact Sample.mapped_rep|exact sample_upages].
  split_and!; [vm_compute; lia|by vm_compute|by vm_compute].
Qed.

Lemma writable_page i : 0 <= i < PGSIZE -> writable Sample.mapped_pt i = true.
Proof.
  intros Hi. unfold writable, uentry. rewrite (proj2 (Z.ltb_lt _ _)) by (rewrite MAXVA_pow; unfold PGSIZE in *; lia).
  by rewrite Z.div_small.
Qed.
End SampleUser.
