(* ===== verification/Handover.v ===== *)
(** Code that gives up the CPU: the contract between [sched] and [scheduler] of
    [kernel/proc.c].

    A process switches away with its own lock held, at nesting depth one and not RUNNING
    ([parked]); the scheduler switches to a process the same way, and RUNNING ([handed]).
    Each side relies on what the other establishes.  [rg] states what a program does when
    it switches away any number of times and the rest of the machine keeps to its side of
    the contract in between. *)
From S2P Require Import Prelude Machine Riscv State Spinlock KString Kalloc Vm Sched Copy User.
From Stdlib Require Import ZArith Lia.
From stdpp Require Import base strings numbers gmap list.
Local Open Scope Z_scope.
Local Open Scope m_scope.

(** ** Rely and guarantee *)

Section rely.
Context {E S X : Type}.
(** The rest of the machine has a state of its own, which the program does not see: the history of the
    switches, what a device has taken in, what other processes have received.
    [G]: what holds when the program switches away; [R]: how the rest of the machine may
    change its state and the program's before it switches back. *)
Variables (G : X -> S -> Prop) (R : X -> S -> X -> S -> Prop).

(** For the first [n] switches: the program does not stop, [G] holds at every switch, and
    if it returns after fewer, [Q] holds of the switches it has left, the state of the rest, its result and its state. *)
Fixpoint sat {A} (n : nat) (x : X) (Q : nat -> X -> A -> S -> Prop) (o : outcome E S A) {struct o} : Prop :=
  match o with
  | Ok a s => Q n x a s
  | Stop _ => False
  | Yield s k => G x s /\
      match n with
      | O => True
      | Datatypes.S n' => forall x' s', R x s x' s' -> sat n' x' Q (k s')
      end
  end.

Definition xrg {A} (n : nat) (x : X) (m : M E S A) (Q : nat -> X -> A -> S -> Prop) (s : S) : Prop :=
  sat n x Q (m s).

Lemma sat_mono {A} n x (Q Q' : nat -> X -> A -> S -> Prop) o :
  sat n x Q o -> (forall n' x' a s', (n' <= n)%nat -> Q n' x' a s' -> Q' n' x' a s') -> sat n x Q' o.
Proof.
  revert n x. induction o as [a s|e|s k IH]; intros n x Hs HQ; simpl in *; [by apply HQ|done|].
  destruct Hs as [HG Hs]. split; [done|]. destruct n as [|n]; [done|]. intros x' s' Hs'.
  eapply IH; [by eapply Hs|]. intros. apply HQ; [lia|done].
Qed.

Lemma rg_mono {A} n x (m : M E S A) (Q Q' : nat -> X -> A -> S -> Prop) s :
  xrg n x m Q s -> (forall n' x' a s', (n' <= n)%nat -> Q n' x' a s' -> Q' n' x' a s') -> xrg n x m Q' s.
Proof. apply sat_mono. Qed.

Lemma rg_bind {A B} n x (m : M E S A) (k : A -> M E S B) Q s :
  xrg n x m (fun n' x' a s' => xrg n' x' (k a) Q s') s -> xrg n x (bind m k) Q s.
Proof.
  unfold xrg, bind. generalize (m s). intros o. revert n x.
  induction o as [a s1|e|s1 r IH]; intros n x Hs; simpl in *; [done|done|].
  destruct Hs as [HG Hs]. split; [done|]. destruct n as [|n]; [done|]. intros x' s' Hs'. eapply IH, Hs, Hs'.
Qed.

(** Code that does not switch. *)
Lemma rg_wp {A} n x (m : M E S A) Q s : wp m (fun a s' => Q n x a s') s -> xrg n x m Q s.
Proof. unfold xrg, wp. by destruct (m s). Qed.

Lemma rg_ok {A} n x (m : M E S A) (Q : nat -> X -> A -> S -> Prop) s a s' :
  m s = Ok a s' -> Q n x a s' -> xrg n x m Q s.
Proof. unfold xrg. by intros ->. Qed.

Lemma rg_ret {A} n x (a : A) (Q : nat -> X -> A -> S -> Prop) s : Q n x a s -> xrg n x (ret a) Q s.
Proof. done. Qed.

Lemma rg_swtch n x (Q : nat -> X -> unit -> S -> Prop) s :
  G x s -> (forall n' x' s', n = Datatypes.S n' -> R x s x' s' -> Q n' x' tt s') -> xrg n x swtch Q s.
Proof. intros HG HQ. unfold xrg. simpl. split; [done|]. destruct n as [|n']; [done|]. intros x' s' Hs'. by eapply HQ. Qed.

(** A loop of which every round uses up a switch or makes progress has enough fuel. *)
Lemma rg_while {Y B} (oof : E) (I : nat -> X -> Y -> S -> Prop) (mu : Y -> nat)
    (Q : nat -> X -> B -> S -> Prop) (body : Y -> M E S (Y + B)) fuel n x y s :
  I n x y s ->
  (mu y + n < fuel)%nat ->
  (forall n' x' y' s', I n' x' y' s' ->
     xrg n' x' (body y') (fun n'' x'' r s'' => match r with
                                | inl z => I n'' x'' z s'' /\ (mu z + n'' < mu y' + n')%nat
                                | inr b => Q n'' x'' b s''
                                end) s') ->
  xrg n x (while_fuel oof fuel body y) Q s.
Proof.
  intros HI Hmu Hstep. revert n x y s HI Hmu. induction fuel as [|fuel IH]; intros n x y s HI Hmu; [lia|].
  simpl. apply rg_bind. eapply rg_mono; [by apply Hstep|]. intros n' x' [z|b] s' _; simpl.
  - intros [HI' Hlt]. apply IH; [done|lia].
  - intros HR. by apply rg_ret.
Qed.
End rely.

(** The history of the switches: the states the program has switched away in. *)
Abbreviation rg G R := (xrg (fun _ => G) (fun h s h' s' => R s s' /\ h' = h ++ [s])).

(** ** The contract *)

(** The hart runs [i] at depth one, with the lock of [i] and no other process's. *)
Record with_plock (i : nat) (s : kstate) : Prop := {
  wl_hart : hart_ok s;
  wl_depth : noff (cur s) = 1;
  wl_runs : runs i s;
  wl_lock : lock_held (L_proc i) s;
  wl_others : forall j, j <> i -> lock_free (L_proc j) s;
  wl_procs : length (k_procs s) = NPROC
}.

(** What a process that has called [sched] hands to the scheduler. *)
Definition parked (i : nat) (s : kstate) : Prop := with_plock i s /\ pstate (k_procs s !!! i) <> RUNNING.
(** What the scheduler hands to the process it runs. *)
Definition handed (i : nat) (s : kstate) : Prop := with_plock i s /\ pstate (k_procs s !!! i) = RUNNING.

Lemma intr_get_run s : intr_get s = Ok (k_sie s) s.
Proof. done. Qed.

(** What [sched] does when the process is switched back to. *)
Definition sched_back (ie : bool) (s : kstate) : kstate := set_k_cpus (alter (set_intena ie) (tp (k_hart s)) (k_cpus s)) s.

(** [sched] passes all its checks, and hands over exactly the state it is called in. *)
Lemma sched_run i s :
  parked i s -> sched s = Yield s (fun s' => Ok tt (sched_back (intena (cur s)) s')).
Proof.
  intros [[Hok Hd Hr Hl Ho Hlen] Hst]. unfold sched. assert (Hn : settle s = s) by (apply settle_nested; [done|lia]).
  erewrite bind_ok; [|by apply curproc_run]. rewrite Hn. erewrite bind_ok; [|by apply holding_held]. simpl.
  erewrite bind_ok; [|reflexivity]. erewrite bind_ok; [|reflexivity]. fold (cur s). rewrite Hd. simpl.
  erewrite bind_ok; [|reflexivity]. rewrite decide_False by done. erewrite bind_ok; [|apply intr_get_run].
  replace (k_sie s) with false by (symmetry; apply Hok; lia). done.
Qed.

(** Process [i] runs holding the lock [lk] and nothing else. *)
Record critical (i : nat) (lk : lockid) (s : kstate) : Prop := {
  cr_hart : hart_ok s;
  cr_depth : noff (cur s) = 1;
  cr_runs : runs i s;
  cr_lock : lock_held lk s;
  cr_plocks : plocks_free s;
  cr_procs : length (k_procs s) = NPROC;
  cr_kind : forall j, lk <> L_proc j
}.

Lemma popped_pushed_nested s : hart_ok s -> noff (cur s) = 1 -> popped (pushed s) = s.
Proof. intros Hok Hn. rewrite pop_off_pushed by done. apply settle_nested; [done|lia]. Qed.

(** Exchanging one lock for another. *)
Lemma released_acquired_ne l l' s :
  hart_ok s -> noff (cur s) = 1 -> l <> l' ->
  released l (acquired l' s) = set_k_locks (<[l' := mkSpinlock true (Some (tp (k_hart s)))]> (delete l (k_locks s))) s.
Proof.
  intros Hok Hn Hne. unfold released, acquired. simpl. rewrite delete_insert_ne by done.
  change (popped (set_k_locks ?v (pushed s))) with (set_k_locks v (popped (pushed s))).
  rewrite popped_pushed_nested by done. by destruct s.
Qed.

(** The state [sleep] switches away in. *)
Definition asleep (c : chan) (lk : lockid) (i : nat) (s : kstate) : kstate :=
  set_k_procs (alter (fun p => set_pstate SLEEPING (set_pchan c p)) i (k_procs s))
    (set_k_locks (<[L_proc i := mkSpinlock true (Some (tp (k_hart s)))]> (delete lk (k_locks s))) s).

(** What [sleep] does when it is switched back to. *)
Definition awake (ie : bool) (lk : lockid) (i : nat) (s : kstate) : kstate :=
  acquired lk (released (L_proc i) (set_k_procs (alter (set_pchan C_null) i (k_procs s)) (sched_back ie s))).

Section sleeping.
Variables (i : nat) (lk : lockid) (c : chan).

Lemma parked_asleep s : critical i lk s -> (i < NPROC)%nat -> parked i (asleep c lk i s).
Proof.
  intros [Hok Hd Hr Hl Hp Hlen Hk] Hi. split; [split; try done|].
  - unfold lock_held. simpl. apply lookup_insert_eq.
  - intros j Hj. unfold lock_free. simpl. rewrite lookup_insert_ne by congruence.
    rewrite lookup_delete_ne by apply Hk. apply Hp.
  - simpl. by rewrite length_alter.
  - simpl. by rewrite list_lookup_total_alter_eq by lia.
Qed.

Lemma lock_free_asleep s : critical i lk s -> lock_free lk (asleep c lk i s).
Proof.
  intros [_ _ _ _ _ _ Hk]. unfold lock_free. simpl. rewrite lookup_insert_ne by (symmetry; apply Hk).
  apply lookup_delete_eq.
Qed.

(** A process that is handed the CPU, back in [sched]. *)
Lemma handed_back ie f s :
  handed i s -> with_plock i (set_k_procs (alter f i (k_procs s)) (sched_back ie s)).
Proof.
  intros [[Hok Hd Hr Hl Ho Hlen] _]. pose proof Hok as (Ht & _).
  assert (Hcur : cur (set_k_procs (alter f i (k_procs s)) (sched_back ie s)) = set_intena ie (cur s))
    by (unfold cur at 1; simpl; by rewrite list_lookup_total_alter_eq).
  split; try done.
  - unfold hart_ok. rewrite Hcur. simpl. rewrite length_alter. apply Hok.
  - by rewrite Hcur.
  - unfold runs. by rewrite Hcur.
  - simpl. by rewrite length_alter.
Qed.

(** Releasing the lock of the process ends the critical section. *)
Lemma popped_outermost s : hart_ok s -> noff (cur s) = 1 -> hart_ok (popped s) /\ noff (cur (popped s)) = 0.
Proof.
  intros Hok Hn. split; [apply hart_ok_popped; [done|lia]|]. destruct Hok as (Ht & _).
  unfold cur at 1. simpl. rewrite list_lookup_total_alter_eq by done. fold (cur s). simpl. lia.
Qed.

Lemma with_plock_release s :
  with_plock i s ->
  release (L_proc i) s = Ok tt (released (L_proc i) s) /\ hart_ok (released (L_proc i) s) /\
  noff (cur (released (L_proc i) s)) = 0 /\ runs i (released (L_proc i) s) /\ plocks_free (released (L_proc i) s).
Proof.
  intros [Hok Hd Hr Hl Ho Hlen]. destruct (popped_outermost s Hok Hd) as [Hok' Hd'].
  split_and!; [apply release_run; (done || lia)|done|done| |].
  - unfold runs. change (cur (released (L_proc i) s)) with (cur (popped s)). by rewrite cproc_popped.
  - intros j. unfold lock_free, released. simpl. destruct (decide (j = i)) as [->|Hne]; [apply lookup_delete_eq|].
    rewrite lookup_delete_ne by congruence. by apply Ho.
Qed.

Lemma critical_acquired s :
  hart_ok s -> noff (cur s) = 0 -> runs i s -> plocks_free s -> length (k_procs s) = NPROC -> (forall j, lk <> L_proc j) ->
  critical i lk (acquired lk s).
Proof.
  intros Hok Hd Hr Hp Hlen Hk. split; try done.
  - by apply hart_ok_acquired.
  - change (cur (acquired lk s)) with (cur (pushed s)). rewrite cur_pushed by done. unfold push_cpu. by rewrite Hd.
  - unfold runs. by rewrite cproc_acquired.
  - apply lock_held_acquired.
  - intros j. apply lock_free_acquired; [apply Hk|apply Hp].
Qed.

Lemma sleep_run s :
  critical i lk s -> (i < NPROC)%nat ->
  sleep c lk s = Yield (asleep c lk i s) (fun s' =>
    (upd_proc i (set_pchan C_null) ;; release (L_proc i) ;; acquire lk) (sched_back (intena (cur s)) s')).
Proof.
  intros Hc Hi. pose proof (parked_asleep s Hc Hi) as Hpk. destruct Hc as [Hok Hd Hr Hl Hp Hlen Hk]. unfold sleep.
  assert (Hn : settle s = s) by (apply settle_nested; [done|lia]).
  erewrite bind_ok; [|by apply curproc_run]. rewrite Hn. erewrite bind_ok; [|by apply acquire_run].
  erewrite bind_ok; [|apply release_run].
  2:{ by apply hart_ok_acquired. }
  2:{ by apply noff_acquired. }
  2:{ unfold lock_held. simpl. rewrite lookup_insert_ne; [apply Hl|]. intros E. by apply (Hk i). }
  rewrite released_acquired_ne by done. erewrite bind_ok; [|reflexivity]. erewrite bind_ok; [|reflexivity].
  match goal with |- bind sched _ ?s1 = _ => replace s1 with (asleep c lk i s) end.
  2:{ unfold asleep, set_k_procs. simpl. by rewrite list_alter_alter_eq. }
  unfold bind at 1. by rewrite (sched_run i) by done.
Qed.

Lemma critical_awake ie s :
  handed i s -> lock_free lk s -> (forall j, lk <> L_proc j) ->
  critical i lk (awake ie lk i s) /\
  (upd_proc i (set_pchan C_null) ;; release (L_proc i) ;; acquire lk) (sched_back ie s) = Ok tt (awake ie lk i s).
Proof.
  intros Hh Hf Hk. pose proof (handed_back ie (set_pchan C_null) s Hh) as Hw.
  destruct (with_plock_release _ Hw) as (Hrel & Hok & Hd & Hr & Hp). pose proof (wl_procs _ _ Hw). split.
  - by apply critical_acquired.
  - erewrite bind_ok; [|reflexivity]. change (k_procs (sched_back ie s)) with (k_procs s).
    erewrite bind_ok; [|exact Hrel]. apply acquire_run; [done|].
    unfold lock_free. simpl. rewrite lookup_delete_ne by (intros E; symmetry in E; by apply Hk in E). apply Hf.
Qed.

(** [sleep] in a program that relies on the contract. *)
Lemma rg_sleep {X} (G : X -> kstate -> Prop) R n x (Q : nat -> X -> unit -> kstate -> Prop) s :
  critical i lk s -> (i < NPROC)%nat -> G x (asleep c lk i s) ->
  (forall x' s', R x (asleep c lk i s) x' s' -> handed i s' /\ lock_free lk s') ->
  (forall n' x' s', n = S n' -> R x (asleep c lk i s) x' s' -> critical i lk (awake (intena (cur s)) lk i s') ->
     Q n' x' tt (awake (intena (cur s)) lk i s')) ->
  xrg G R n x (sleep c lk) Q s.
Proof.
  intros Hc Hi HG HR HQ. unfold xrg. rewrite sleep_run by done. cbn [sat]. split; [done|]. destruct n as [|n]; [done|].
  intros x' s' Hs'. destruct (HR x' s' Hs') as [Hh Hf]. destruct (critical_awake (intena (cur s)) s' Hh Hf (cr_kind _ _ _ Hc)) as [Hc' ->].
  cbn [sat]. by apply HQ.
Qed.
End sleeping.

(** C14: [sleep] keeps its part of the contract, and its lock.  Called with the lock [lk] and
    nothing else, it switches away exactly once, holding only its own process lock, SLEEPING
    on the channel and with [lk] free for the process that will wake it; when it is handed
    the CPU with [lk] free it returns with [lk] held again, nothing else, and the
    channel cleared. *)
Theorem sleep_handover i lk c s n :
  critical i lk s -> (i < NPROC)%nat ->
  rg (fun s1 => parked i s1 /\ lock_free lk s1 /\ pstate (k_procs s1 !!! i) = SLEEPING /\ pchan (k_procs s1 !!! i) = c)
     (fun _ s' => handed i s' /\ lock_free lk s')
     n [] (sleep c lk)
     (fun _ h _ s' => length h = 1%nat /\ critical i lk s' /\
        pstate (k_procs s' !!! i) = RUNNING /\ pchan (k_procs s' !!! i) = C_null) s.
Proof.
  intros Hc Hi. pose proof (cr_procs _ _ _ Hc) as Hlen. apply (rg_sleep i); [done|done| |by intros h' s' [? _]|].
  - split_and!; [by apply parked_asleep|by apply lock_free_asleep|..]; simpl; by rewrite list_lookup_total_alter_eq by lia.
  - intros n' h' s' _ [[[Hw Hst] _] ->] Hc'. pose proof (wl_procs _ _ Hw).
    split_and!; [done|done|..]; simpl; by rewrite list_lookup_total_alter_eq by lia.
Qed.

(** ** The scheduler *)

(** The scheduler of hart [c] between two processes. *)
Record idle (c : nat) (s : kstate) : Prop := {
  id_hart : hart_ok s;
  id_depth : noff (cur s) = 0;
  id_cpu : tp (k_hart s) = c;
  id_plocks : plocks_free s;
  id_procs : length (k_procs s) = NPROC
}.

(** What the scheduler relies on when it has switched to a process: that process switches
    back on the same hart by the contract, and the others that could run still can. *)
Definition comes_back (s s' : kstate) : Prop :=
  forall i, runs i s -> parked i s' /\ tp (k_hart s') = tp (k_hart s) /\
    forall j, j <> i -> pstate (k_procs s !!! j) = RUNNABLE -> pstate (k_procs s' !!! j) = RUNNABLE.

Definition ran (i : nat) (h : list kstate) : Prop := Exists (handed i) h.

Lemma ran_app i h h' : ran i h -> ran i (h ++ h').
Proof. intros H. apply Exists_app. by left. Qed.

Lemma cur_upd_cpu c f s : tp (k_hart s) = c -> hart_ok s -> cur (set_k_cpus (alter f c (k_cpus s)) s) = f (cur s).
Proof. intros <- (Ht & _). unfold cur at 1. simpl. by rewrite list_lookup_total_alter_eq. Qed.

(** The state in which the scheduler switches to [i]. *)
Definition running (c i : nat) (s : kstate) : kstate :=
  set_k_cpus (alter (set_cproc (Some i)) c (k_cpus (acquired (L_proc i) s)))
    (set_k_procs (alter (set_pstate RUNNING) i (k_procs s)) (acquired (L_proc i) s)).

Lemma handed_running c i s : idle c s -> (i < NPROC)%nat -> handed i (running c i s).
Proof.
  intros [Hok Hd Hc Hp Hlen] Hi. pose proof (hart_ok_acquired (L_proc i) s Hok) as Hok'. pose proof Hok' as (Ht & _ & Hoff).
  assert (Hcur : cur (running c i s) = set_cproc (Some i) (cur (acquired (L_proc i) s)))
    by (unfold running; by rewrite (cur_upd_cpu c _ (set_k_procs _ (acquired (L_proc i) s)))).
  assert (Hn : noff (cur (acquired (L_proc i) s)) = 1).
  { change (cur (acquired (L_proc i) s)) with (cur (pushed s)). rewrite cur_pushed by done. unfold push_cpu. by rewrite Hd. }
  split; [split|].
  - unfold hart_ok. rewrite Hcur. simpl noff. rewrite Hn. split_and!; [|lia|].
    + simpl. rewrite length_alter. exact Ht.
    + intros _. apply Hoff. lia.
  - rewrite Hcur. exact Hn.
  - unfold runs. by rewrite Hcur.
  - exact (lock_held_acquired (L_proc i) s).
  - intros j Hj. unfold lock_free. simpl. rewrite lookup_insert_ne by congruence. apply Hp.
  - simpl. by rewrite length_alter.
  - simpl. by rewrite list_lookup_total_alter_eq by lia.
Qed.

(** The scheduler has the CPU back. *)
Lemma idle_back c i s :
  parked i s -> tp (k_hart s) = c ->
  let s1 := set_k_cpus (alter (set_cproc None) c (k_cpus s)) s in
  release (L_proc i) s1 = Ok tt (released (L_proc i) s1) /\ idle c (released (L_proc i) s1).
Proof.
  intros [[Hok Hd Hr Hl Ho Hlen] _] Hc s1. pose proof (cur_upd_cpu c (set_cproc None) s Hc Hok) as Hcur. fold s1 in Hcur.
  assert (Hok1 : hart_ok s1) by (unfold hart_ok; rewrite Hcur; simpl; rewrite length_alter; apply Hok).
  assert (Hd1 : noff (cur s1) = 1) by (by rewrite Hcur).
  destruct (popped_outermost s1 Hok1 Hd1) as [Hok2 Hd2].
  split; [apply release_run; (done || lia)|]. split; try done.
  intros j. unfold lock_free. simpl. destruct (decide (j = i)) as [->|Hne]; [apply lookup_delete_eq|].
  rewrite lookup_delete_ne by congruence. by apply Ho.
Qed.

(** The guarantee of the scheduler: it has locked the process it runs, and marked it. *)
Definition hands_over (s : kstate) : Prop := exists i, handed i s.

(** One visit gives the process its turn if it can run, and costs nobody else theirs. *)
Lemma visit_rg c i found s n h :
  idle c s -> (i < NPROC)%nat ->
  rg hands_over comes_back n h (scheduler_visit c i found) (fun _ h' _ s' => idle c s' /\
    (forall j, ran j h -> ran j h') /\ (pstate (k_procs s !!! i) = RUNNABLE -> ran i h') /\
    (forall j, j <> i -> pstate (k_procs s !!! j) = RUNNABLE -> pstate (k_procs s' !!! j) = RUNNABLE)) s.
Proof.
  intros Hidle Hi. pose proof Hidle as [Hok Hd Hc Hp Hlen]. unfold scheduler_visit.
  apply rg_bind. eapply rg_ok; [by apply acquire_run|]. cbv beta. apply rg_bind. eapply rg_ok; [reflexivity|]. cbv beta.
  change (k_procs (acquired (L_proc i) s)) with (k_procs s). apply rg_bind. case_decide as Hrun.
  - apply rg_bind. eapply rg_ok; [reflexivity|]. cbv beta. apply rg_bind. eapply rg_ok; [reflexivity|]. cbv beta. apply rg_bind.
    match goal with |- xrg _ _ _ _ swtch _ ?x => change x with (running c i s) end.
    pose proof (handed_running c i s Hidle Hi) as Hh. apply rg_swtch; [by exists i|]. intros m' h' s2 _ [Hback ->].
    destruct (Hback i (wl_runs _ _ (proj1 Hh))) as (Hpk & Htp & Hkeep). change (tp (k_hart (running c i s))) with (tp (k_hart s)) in Htp.
    rewrite Hc in Htp. destruct (idle_back c i s2 Hpk Htp) as [Hrel Hidle2].
    apply rg_bind. eapply rg_ok; [reflexivity|]. cbv beta. apply rg_ret. apply rg_bind. eapply rg_ok; [exact Hrel|]. cbv beta.
    apply rg_ret. split_and!; [done|intros j; apply ran_app|intros _; apply Exists_app; right; by constructor|].
    intros j Hne Hj. change (k_procs (released (L_proc i) _)) with (k_procs s2).
    apply Hkeep; [done|]. simpl. by rewrite list_lookup_total_alter_ne.
  - apply rg_ret. apply rg_bind. eapply rg_ok; [apply release_run; hart_tac|]. cbv beta. rewrite released_acquired by done.
    apply rg_ret. split_and!; try done. split; try done; [by apply hart_ok_settle|by rewrite noff_settle].
Qed.

Lemma visits_rg c l (want : nat -> Prop) found s n h :
  idle c s -> Forall (fun i => (i < NPROC)%nat) l ->
  (forall i, want i -> ran i h \/ (i ∈ l /\ pstate (k_procs s !!! i) = RUNNABLE)) ->
  rg hands_over comes_back n h (scheduler_visits c l found) (fun _ h' _ s' => idle c s' /\ forall i, want i -> ran i h') s.
Proof.
  revert found s n h. induction l as [|i l IH]; intros found s n h Hidle Hl Hw.
  - apply rg_ret. split; [done|]. intros i Hi. destruct (Hw i Hi) as [|[Hin _]]; [done|by apply not_elem_of_nil in Hin].
  - apply Forall_cons in Hl as [Hi Hl]. apply rg_bind. eapply rg_mono; [by apply visit_rg|].
    intros n' h' f s' _ (Hidle' & Hran & Hmine & Hkeep). apply IH; [done|done|]. intros j Hj.
    destruct (Hw j Hj) as [|[Hin Hr]]; [left; auto|]. destruct (decide (j = i)) as [->|Hne]; [left; auto|].
    right. split; [set_solver|auto].
Qed.

(** C13: one pass of the scheduler gives every process that could run a turn.  Started with
    no process lock held, it switches only to processes it has locked and marked RUNNING;
    if each of them switches back by the contract, the pass ends with no process lock
    held, and every process that was RUNNABLE when the pass began has been run in it. *)
Theorem scheduler_runs_all c s n :
  idle c s ->
  rg hands_over comes_back n [] (scheduler_pass c) (fun _ h _ s' => idle c s' /\
    forall i, (i < NPROC)%nat -> pstate (k_procs s !!! i) = RUNNABLE -> ran i h) s.
Proof.
  intros [Hok Hd Hc Hp Hlen]. unfold scheduler_pass. apply rg_bind. eapply rg_ok; [reflexivity|]. cbv beta.
  eapply rg_mono; [apply (visits_rg c _ (fun i => (i < NPROC)%nat /\ pstate (k_procs s !!! i) = RUNNABLE))|].
  - split; try done. split_and!; try apply Hok. intros E. change (0 < noff (cur s)) in E. lia.
  - apply Forall_seq. lia.
  - intros i [Hi Hr]. right. split; [apply elem_of_seq; lia|done].
  - intros n' h' f s' _ [Hidle Hran]. split; [done|]. auto.
Qed.

(** Two processes, one that can run. *)
Definition sample_runnable : kstate := set_k_procs (alter (set_pstate RUNNABLE) 1%nat (k_procs boot_state)) boot_state.

Lemma sample_idle : idle 0 sample_runnable.
Proof. split; [exact boot_hart_ok|done|done|intros i; exact eq_refl|done]. Qed.

Lemma scheduler_runs_all_witness :
  pstate (k_procs sample_runnable !!! 1%nat) = RUNNABLE /\
  rg hands_over comes_back 3 [] (scheduler_pass 0) (fun _ h _ s' => idle 0 s' /\ ran 1 h) sample_runnable.
Proof.
  split; [done|]. eapply rg_mono; [apply (scheduler_runs_all 0 sample_runnable 3 sample_idle)|].
  intros n h f s' _ [Hi Hr]. split; [done|]. apply Hr; [|done]. apply Nat.ltb_lt. reflexivity.
Defined.

Definition sample_critical : kstate :=
  acquired L_ftable (set_k_cpus (alter (set_cproc (Some 0%nat)) 0%nat (k_cpus boot_state)) boot_state).

Lemma sample_critical_ok : critical 0 L_ftable sample_critical.
Proof. apply critical_acquired; [split_and!; [vm_compute; lia|done|done]|done|done|intros i; exact eq_refl|done|done]. Qed.

Lemma sleep_handover_witness :
  rg (fun s1 => parked 0 s1 /\ lock_free L_ftable s1 /\ pstate (k_procs s1 !!! 0%nat) = SLEEPING /\ pchan (k_procs s1 !!! 0%nat) = C_ticks)
     (fun _ s' => handed 0 s' /\ lock_free L_ftable s') 1 [] (sleep C_ticks L_ftable)
     (fun _ h _ s' => length h = 1%nat /\ critical 0 L_ftable s') sample_critical.
Proof.
  eapply rg_mono; [apply (sleep_handover 0 L_ftable C_ticks sample_critical 1 sample_critical_ok)|].
  - apply Nat.ltb_lt. reflexivity.
  - intros n h [] s' _ (Hh & Hc & _). by split.
Defined.

#[export] Instance runs_dec i s : Decision (runs i s).
Proof. unfold runs. apply _. Defined.

(** [wakeup] wakes exactly the sleepers of its channel.  Afterwards every other process
    that was SLEEPING on the channel is RUNNABLE, no other process has changed in any way, and
    all locks are as they were. *)
Theorem wakeup_wakes c s :
  hart_ok s -> plocks_free s -> length (k_procs s) = NPROC ->
  wp (wakeup c) (fun _ s' => k_locks s' = k_locks s /\ hart_ok s' /\ forall j, (j < NPROC)%nat ->
    k_procs s' !!! j =
      if decide (~ runs j s /\ pstate (k_procs s !!! j) = SLEEPING /\ pchan (k_procs s !!! j) = c)
      then set_pstate RUNNABLE (k_procs s !!! j) else k_procs s !!! j) s.
Proof.
  intros Hok Hp Hlen. eapply wp_ok; [by apply wakeup_run|]. split_and!; [done|by apply hart_ok_set_procs, hart_ok_settle|].
  intros j Hj. simpl. unfold wake_all. rewrite <- Hlen in Hj. apply lookup_lt_is_Some in Hj as [p Hpj].
  rewrite !list_lookup_total_alt, list_lookup_imap, Hpj. simpl. unfold woken, runs. repeat case_decide; try naive_solver.
Qed.

Lemma wakeup_wakes_witness :
  let s := set_k_procs (alter (fun p => set_pchan C_ticks (set_pstate SLEEPING p)) 1%nat (k_procs boot_state)) boot_state in
  wp (wakeup C_ticks) (fun _ s' => pstate (k_procs s' !!! 1%nat) = RUNNABLE) s.
Proof.
  intros s. eapply wp_mono; [apply (wakeup_wakes C_ticks s); [exact boot_hart_ok|intros i; exact eq_refl|done]|].
  intros [] s' (_ & _ & H). rewrite (H 1%nat) by (apply Nat.ltb_lt; reflexivity). by vm_compute.
Defined.
