(* ===== verification/Uart.v ===== *)
(** The UART driver, [kernel/uart.c], but for the interrupt handler, which calls the
    console.  Bytes written to the transmit holding register are appended to [k_out]. *)
From S2P Require Import Prelude Machine Ring Riscv State Spinlock KString Kalloc Vm Sched.
From Stdlib Require Import ZArith Lia.
From stdpp Require Import base strings numbers gmap list.
Local Open Scope Z_scope.
Local Open Scope m_scope.

Definition UART_TX_BUF_SIZE : Z := 32.
Definition IER : Z := 1.
Definition IER_RX_ENABLE : Z := Z.shiftl 1 0.
Definition IER_TX_ENABLE : Z := Z.shiftl 1 1.
Definition FCR : Z := 2.
Definition FCR_FIFO_ENABLE : Z := Z.shiftl 1 0.
Definition FCR_FIFO_CLEAR : Z := Z.shiftl 3 1.
Definition LCR : Z := 3.
Definition LCR_EIGHT_BITS : Z := Z.shiftl 3 0.
Definition LCR_BAUD_LATCH : Z := Z.shiftl 1 7.

Definition get_uart : K uartst := gets k_uart.
Definition upd_uart (f : uartst -> uartst) : K unit := modify (fun s => set_k_uart (f (k_uart s)) s).

(** The device: a write to a configuration register, [WriteReg(THR, c)], and the bit
    [ReadReg(LSR) & LSR_TX_IDLE]. *)
Definition WriteReg (reg v : Z) : K unit := upd_uart (fun u => set_uregs (uregs u ++ [(reg, v)]) u).
Definition write_thr (c : Z) : K unit := modify (fun s => set_k_out (k_out s ++ [u8 c]) s).
Definition tx_idle : K bool :=
  u <- get_uart ;;
  match ulsr u with
  | [] => ret true
  | b :: l => upd_uart (set_ulsr l) ;; ret b
  end.

Definition uartinit : K unit :=
  WriteReg IER 0x00 ;;
  WriteReg LCR LCR_BAUD_LATCH ;;
  WriteReg 0 0x03 ;;
  WriteReg 1 0x00 ;;
  WriteReg LCR LCR_EIGHT_BITS ;;
  WriteReg FCR (Z.lor FCR_FIFO_ENABLE FCR_FIFO_CLEAR) ;;
  WriteReg IER (Z.lor IER_TX_ENABLE IER_RX_ENABLE) ;;
  initlock L_uart.

(** [if(panicked) for(;;) ;] *)
Definition freeze : K unit := p <- gets (fun s => panicked (k_pr s)) ;; if p : bool then spin else ret tt.

(** The wait for the device goes round once for every time it says that it is busy. *)
Definition uartputc_sync (c : Z) : K unit :=
  push_off ;;
  freeze ;;
  u <- get_uart ;;
  while_fuel OutOfFuel (S (length (ulsr u))) (fun _ : unit =>
    idle <- tx_idle ;;
    if idle : bool then ret (inr tt) else ret (inl tt)) tt ;;
  write_thr c ;;
  pop_off.

(** Each round but the last sends a byte of the ring. *)
Definition uartstart : K unit :=
  u <- get_uart ;;
  while_fuel OutOfFuel (S (Z.to_nat (u64 (utx_w u - utx_r u)))) (fun _ : unit =>
    u <- get_uart ;;
    if utx_w u =? utx_r u then ret (inr tt) else
    idle <- tx_idle ;;
    if negb idle then ret (inr tt) else
    u <- get_uart ;;
    let c := utx_buf u !!! Z.to_nat (utx_r u mod UART_TX_BUF_SIZE) in
    upd_uart (fun u => set_utx_r (u64 (utx_r u + 1)) u) ;;
    wakeup C_uart_tx_r ;;
    write_thr c ;;
    ret (inl tt)) tt.

Definition uartgetc : K Z :=
  u <- get_uart ;;
  match urx u with
  | c :: l => upd_uart (set_urx l) ;; ret c
  | [] => ret (-1)
  end.

Section uartputc.
Context `{Patience}.

Definition uartputc (c : Z) : K unit :=
  acquire L_uart ;;
  freeze ;;
  while_fuel OutOfFuel (S patience) (fun _ : unit =>
    u <- get_uart ;;
    if utx_w u =? u64 (utx_r u + UART_TX_BUF_SIZE)
    then sleep C_uart_tx_r L_uart ;; ret (inl tt) else ret (inr tt)) tt ;;
  upd_uart (fun u => set_utx_buf (<[Z.to_nat (utx_w u mod UART_TX_BUF_SIZE) := u8 c]> (utx_buf u)) u) ;;
  upd_uart (fun u => set_utx_w (u64 (utx_w u + 1)) u) ;;
  uartstart ;;
  release L_uart.
End uartputc.

(** ** The transmit ring is a queue *)

Definition ring_ok (u : uartst) : Prop :=
  rok UART_TX_BUF_SIZE 64 (utx_buf u) (utx_r u) (utx_w u) /\ Forall is_byte (utx_buf u).

(** The bytes of the ring that have not been sent, oldest first. *)
Definition pending (u : uartst) : list Z := rqueue UART_TX_BUF_SIZE 64 (utx_buf u) (utx_r u) (utx_w u).

(** What has been put, sent or not. *)
Definition stream (s : kstate) : list Z := k_out s ++ pending (k_uart s).

Lemma uring_n : 0 < UART_TX_BUF_SIZE < 2 ^ 64.
Proof. done. Qed.
Lemma uring_div : (UART_TX_BUF_SIZE | 2 ^ 64).
Proof. by exists (2 ^ 59). Qed.

(** The fields the transmit side changes. *)
Definition utx (u : uartst) (o : list Z) (ps : list proc) (s : kstate) : kstate :=
  set_k_procs ps (set_k_out o (set_k_uart u s)).

Lemma tx_idle_run s :
  exists b l, tx_idle s = Ok b (set_k_uart (set_ulsr l (k_uart s)) s) /\ (ulsr (k_uart s) = [] -> b = true /\ l = []).
Proof.
  unfold tx_idle, get_uart, gets, bind. cbn [after]. destruct (ulsr (k_uart s)) as [|b l] eqn:E.
  - exists true, []. split; [|done]. unfold ret. do 2 f_equal. destruct s as [], k_uart. simpl in *. by subst.
  - by exists b, l.
Qed.

(** What [uartstart] leaves, when it runs with the lock held. *)
Record drained (s : kstate) (u : uartst) (o : list Z) : Prop := {
  dr_ring : ring_ok u;
  dr_stream : o ++ pending u = stream s;
  dr_prefix : k_out s `prefix_of` o;
  dr_idle : ulsr (k_uart s) = [] -> ulsr u = []
}.

Lemma uartstart_spec s :
  hart_ok s -> settle s = s -> plocks_free s -> length (k_procs s) = NPROC -> ring_ok (k_uart s) ->
  wp uartstart (fun _ s' => exists u o ps, s' = utx u o ps s /\ quiet (k_procs s) ps /\ drained s u o /\
    (ulsr (k_uart s) = [] -> pending u = [])) s.
Proof.
  intros Hok Hset Hpl Hps Hring. unfold uartstart. apply wp_bind, wp_gets.
  apply (wp_loop OutOfFuel (fun _ s' => exists u o ps, s' = utx u o ps s /\ quiet (k_procs s) ps /\ drained s u o)
    (fun _ s' => length (pending (k_uart s')))).
  - exists (k_uart s), (k_out s), (k_procs s). split_and!; [by destruct s|apply quiet_refl|]. by split.
  - unfold pending. rewrite length_rqueue. unfold rcount, u64, wrap. lia.
  - clear Hring. intros _ s' (u & o & ps & -> & Hqt & [Hring Hst Hpre Hidle]). apply wp_bind, wp_gets. simpl k_uart.
    pose proof (rqueue_nil _ _ uring_n _ _ _ (proj1 Hring)) as Hnil.
    destruct (Z.eqb_spec (utx_w u) (utx_r u)) as [Heq|Hne].
    + apply wp_ret. exists u, o, ps. split_and!; [done|done|done|]. intros _. by apply Hnil.
    + destruct (tx_idle_run (utx u o ps s)) as (b & l & Hrun & Hb). apply wp_bind. eapply wp_ok; [exact Hrun|].
      simpl in Hb. set (u1 := set_ulsr l u).
      change (set_k_uart (set_ulsr l (k_uart (utx u o ps s))) (utx u o ps s)) with (utx u1 o ps s).
      destruct b; simpl negb.
      2:{ apply wp_ret. exists u1, o, ps. split_and!; [done|done| |].
          - split; try done. intros E. by apply Hb, Hidle.
          - intros E. by destruct (Hb (Hidle E)). }
      apply wp_bind, wp_gets. simpl k_uart. apply wp_bind, wp_modify. simpl k_uart. apply wp_bind.
      set (u2 := set_utx_r _ u1).
      change (set_k_uart u2 (utx u1 o ps s)) with (utx u2 o ps s).
      eapply wp_ok; [apply wakeup_run; [unfold utx; hart_tac|intros i; apply Hpl|by rewrite <- Hps, <- (quiet_length _ _ Hqt)]|].
      apply wp_bind, wp_modify, wp_ret.
      destruct Hring as [Hring Hbytes].
      destruct (rqueue_pop _ _ uring_n uring_div _ _ _ Hring ltac:(done)) as [Hring' Hq].
      change (settle (utx u2 o ps s)) with (utx u2 o ps (settle s)). rewrite Hset.
      change (utx_buf u1) with (utx_buf u). change (utx_r u1) with (utx_r u). set (c := utx_buf u !!! _). assert (Hc : u8 c = c).
      { apply wrap_small. apply (proj1 (Forall_lookup _ _) Hbytes (Z.to_nat (utx_r u mod UART_TX_BUF_SIZE))).
        apply list_lookup_lookup_total_lt. rewrite (rok_len _ _ _ _ _ Hring).
        pose proof (Z.mod_pos_bound (utx_r u) UART_TX_BUF_SIZE ltac:(done)). lia. }
      split.
      * exists u2, (o ++ [c]), (wake_all C_uart_tx_r (cproc (cur (utx u2 o ps s))) ps). split; [by rewrite Hc|]. split; [eapply quiet_trans; [exact Hqt|apply quiet_wake]|].
        split; [by split|unfold pending; simpl|by apply prefix_app_r|intros E; by apply Hb, Hidle].
        rewrite <- app_assoc. simpl. rewrite <- Hst. unfold pending. by rewrite Hq.
      * change (length (pending u2) < length (pending u))%nat. unfold pending. rewrite Hq. unfold u2, u1. simpl. apply Nat.lt_succ_diag_r.
Qed.

Section uart_theorems.
Context `{Patience}.

Lemma full_iff u : ring_ok u ->
  (utx_w u =? u64 (utx_r u + UART_TX_BUF_SIZE)) = bool_decide (length (pending u) = Z.to_nat UART_TX_BUF_SIZE).
Proof.
  intros [Hr _]. pose proof (rfull _ _ uring_n (utx_r u) _ (rok_w _ _ _ _ _ Hr)) as Hf.
  unfold pending. rewrite length_rqueue. pose proof (rcount_bound _ _ uring_n (utx_r u) (utx_w u)). pose proof uring_n.
  case_bool_decide as E; [apply Z.eqb_eq, Hf; lia|apply Z.eqb_neq; intros E'; apply E; apply Hf in E'; lia].
Qed.

Section put.
Variables (s : kstate) (c : Z).
Hypothesis Hok : hart_ok s.
Hypothesis Hf : lock_free L_uart s.
Hypothesis Hpl : plocks_free s.
Hypothesis Hps : length (k_procs s) = NPROC.
Hypothesis Hpan : panicked (k_pr s) = false.
Hypothesis Hring : ring_ok (k_uart s).
Hypothesis Hroom : (length (pending (k_uart s)) < Z.to_nat UART_TX_BUF_SIZE)%nat.

Lemma uartputc_spec :
  wp (uartputc c) (fun _ s' => exists u o ps, s' = utx u o ps (settle s) /\ quiet (k_procs s) ps /\ ring_ok u /\
    o ++ pending u = stream s ++ [u8 c] /\ k_out s `prefix_of` o /\
    (ulsr (k_uart s) = [] -> pending u = [] /\ ulsr u = [])) s.
Proof.
  unfold uartputc. apply wp_bind, wp_acquire; [done|done|].
  apply wp_bind, wp_bind, wp_gets. change (panicked (k_pr (acquired L_uart s))) with (panicked (k_pr s)). rewrite Hpan.
  apply wp_ret, wp_bind. cbn [while_fuel]. apply wp_bind, wp_bind, wp_gets.
  change (k_uart (acquired L_uart s)) with (k_uart s). rewrite full_iff by done.
  rewrite bool_decide_false by lia. apply wp_ret, wp_ret, wp_bind, wp_modify, wp_bind, wp_modify, wp_bind.
  simpl k_uart. set (u1 := set_utx_w _ _).
  match goal with |- wp _ _ ?s1 => change s1 with (set_k_uart u1 (acquired L_uart s)) end.
  destruct Hring as [Hrok Hbytes]. unfold pending in Hroom. rewrite length_rqueue in Hroom.
  destruct (rqueue_push _ _ uring_n uring_div _ _ _ (u8 c) Hrok ltac:(lia)) as [Hring1 Hq1].
  wp_use uartstart_spec.
  - hart_tac.
  - autorewrite with kst. by rewrite settle_acquired.
  - intros i. apply lock_free_set_uart, lock_free_acquired; [done|apply Hpl].
  - done.
  - split; [exact Hring1|]. simpl. apply Forall_insert; [done|]. apply Z.mod_pos_bound. done.
  - intros [] s2 (u2 & o & ps & -> & Hqt & [Hr2 Hst2 Hp2 Hi2] & Hdr). unfold utx.
    apply wp_release; [hart_tac|hart_tac|hart_tac|]. autorewrite with kst. rewrite released_acquired by done.
    exists u2, o, ps. split_and!; [done|exact Hqt|exact Hr2| |done|].
    + rewrite Hst2. unfold stream, pending. simpl. rewrite <- app_assoc. f_equal. exact Hq1.
    + intros E. split; [exact (Hdr E)|exact (Hi2 E)].
Qed.

(** The UART sends what it is given in the order it is given.  When the transmit ring
    has room, [uartputc] returns, and the bytes sent so far followed by the bytes still
    in the ring are those of before and the new byte; nothing sent is taken back; and
    when the device is never busy, the ring ends up empty.  This holds whatever the
    values of the two 64-bit counters, and the ring is ready for the next call. *)
Theorem uartputc_fifo :
  wp (uartputc c) (fun _ s' => stream s' = stream s ++ [u8 c] /\ k_out s `prefix_of` k_out s' /\
    ring_ok (k_uart s') /\ lock_free L_uart s' /\ hart_ok s' /\ plocks_free s' /\
    (ulsr (k_uart s) = [] -> pending (k_uart s') = [])) s.
Proof.
  eapply wp_mono; [apply uartputc_spec|]. intros [] s' (u & o & ps & -> & _ & Hr & Hst & Hp & Hd).
  split_and!; [exact Hst|exact Hp|exact Hr|unfold utx; hart_tac|unfold utx; hart_tac|intros i; apply Hpl|].
  intros E. by apply Hd.
Qed.
End put.
End uart_theorems.

Lemma boot_plocks : plocks_free boot_state.
Proof. done. Qed.

Lemma boot_ring : ring_ok (k_uart boot_state).
Proof. split; [by split|]. apply Forall_replicate. done. Qed.

Lemma uartputc_fifo_witness :
  wp (@uartputc one_round 65) (fun _ s' => stream s' = [65]) boot_state.
Proof.
  eapply wp_mono; [apply (@uartputc_fifo one_round boot_state 65)|intros [] s' [Hs _]; exact Hs].
  - exact boot_hart_ok.
  - done.
  - exact boot_plocks.
  - done.
  - done.
  - exact boot_ring.
  - vm_compute. lia.
Defined.
