(* ===== verification/Printf.v ===== *)
(** Formatted console output, [kernel/printf.c], with [consputc] of [kernel/console.c] and
    [procdump] of [kernel/proc.c]. *)
From Stdlib Require Import Ascii.
From S2P Require Import Prelude Machine Riscv State Spinlock KString Kalloc Vm Sched Copy User Uart.
From Stdlib Require Import ZArith Lia.
From stdpp Require Import base strings numbers gmap list.
Local Open Scope Z_scope.
Local Open Scope m_scope.

Definition BACKSPACE : Z := 0x100.

Definition consputc (c : Z) : K unit :=
  if c =? BACKSPACE then
    uartputc_sync 8 ;; uartputc_sync 32 ;; uartputc_sync 8
  else uartputc_sync c.

(** ** Numbers *)

Definition digits : list Z := s2b "0123456789abcdef".

(** The digits of [x], least significant first.  A 64-bit number has at most 64 digits. *)
Fixpoint digits_of (fuel : nat) (x base : Z) : list Z :=
  match fuel with
  | O => []
  | S f =>
      let d := digits !!! Z.to_nat (x mod base) in
      if x / base =? 0 then [d] else d :: digits_of f (x / base) base
  end.

(** What [printint] puts in [buf], in the order in which it prints it. *)
Definition printint_buf (xx base : Z) (sign : bool) : list Z :=
  let neg := sign && (xx <? 0) in
  let x := if neg then u64 (- xx) else u64 xx in
  (if neg then [45] else []) ++ rev (digits_of 64 x base).

Definition printint (xx base : Z) (sign : bool) : K unit :=
  let buf := printint_buf xx base sign in
  if (16 <? length buf)%nat then stop (Fault "printint: buf") else
  for_each buf consputc.

(** Hexadecimal digits of a 64-bit number from the top. *)
Fixpoint ptr_digits (n : nat) (x : Z) : list Z :=
  match n with
  | O => []
  | S n' => digits !!! Z.to_nat (Z.shiftr x 60) :: ptr_digits n' (u64 (Z.shiftl x 4))
  end.

Definition printptr (x : Z) : K unit :=
  consputc 48 ;;
  consputc 120 ;;
  for_each (ptr_digits 16 x) consputc.

(** ** printf *)

(** What a variable argument holds: an integer register or a string, which may be null. *)
Inductive varg : Type :=
| VInt (v : Z)
| VStr (s : option (list Z)).

Definition va_int {A} (ap : list varg) (k : Z -> list varg -> K A) : K A :=
  match ap with VInt v :: ap' => k (s32 v) ap' | _ => stop (Fault "va_arg") end.
Definition va_uint64 {A} (ap : list varg) (k : Z -> list varg -> K A) : K A :=
  match ap with VInt v :: ap' => k (u64 v) ap' | _ => stop (Fault "va_arg") end.
Definition va_str {A} (ap : list varg) (k : option (list Z) -> list varg -> K A) : K A :=
  match ap with VStr s :: ap' => k s ap' | _ => stop (Fault "va_arg") end.

(** A [uint64] passed as a [long long]. *)
Definition long_long (v : Z) : Z := swrap 64 v.

(** Characters in format strings. *)
Definition ch (a : Ascii.ascii) : Z := byte_of_ascii a.
Local Open Scope char_scope.

(** One round of the loop of [printf]: at index [i] of the format, with [ap] the arguments
    left; [inr] ends the loop. *)
Definition printf_round (fmt : list Z) (x : Z * list varg) : K ((Z * list varg) + unit) :=
  let '(i, ap) := x in
  let at_ (j : Z) := default 0 (fmt !! Z.to_nat j) in
  let cx := at_ i in
  if (cx =? 0)%Z then ret (inr tt) else
  if negb (cx =? ch "%")%Z then consputc cx ;; ret (inl (i + 1, ap)) else
  let i := (i + 1)%Z in
  let c0 := at_ i in
  let c1 := if (c0 =? 0)%Z then 0%Z else at_ (i + 1)%Z in
  let c2 := if (c1 =? 0)%Z then 0%Z else at_ (i + 2)%Z in
  let eqc (c : Z) (a : Ascii.ascii) := (c =? ch a)%Z in
  let next (n : Z) (ap : list varg) : K ((Z * list varg) + unit) := ret (inl (i + n + 1, ap)%Z) in
  if eqc c0 "d" then va_int ap (fun v ap => printint v 10 true ;; next 0 ap)
  else if eqc c0 "l" && eqc c1 "d" then va_uint64 ap (fun v ap => printint (long_long v) 10 true ;; next 1 ap)
  else if eqc c0 "l" && eqc c1 "l" && eqc c2 "d" then va_uint64 ap (fun v ap => printint (long_long v) 10 true ;; next 2 ap)
  else if eqc c0 "u" then va_int ap (fun v ap => printint v 10 false ;; next 0 ap)
  else if eqc c0 "l" && eqc c1 "u" then va_uint64 ap (fun v ap => printint (long_long v) 10 false ;; next 1 ap)
  else if eqc c0 "l" && eqc c1 "l" && eqc c2 "u" then va_uint64 ap (fun v ap => printint (long_long v) 10 false ;; next 2 ap)
  else if eqc c0 "x" then va_int ap (fun v ap => printint v 16 false ;; next 0 ap)
  else if eqc c0 "l" && eqc c1 "x" then va_uint64 ap (fun v ap => printint (long_long v) 16 false ;; next 1 ap)
  else if eqc c0 "l" && eqc c1 "l" && eqc c2 "x" then va_uint64 ap (fun v ap => printint (long_long v) 16 false ;; next 2 ap)
  else if eqc c0 "p" then va_uint64 ap (fun v ap => printptr v ;; next 0 ap)
  else if eqc c0 "s" then
    va_str ap (fun s ap => for_each (default (s2b "(null)"%string) s) consputc ;; next 0 ap)
  else if eqc c0 "%" then consputc (ch "%") ;; next 0 ap
  else if (c0 =? 0)%Z then ret (inr tt)
  else consputc (ch "%") ;; consputc c0 ;; next 0 ap.
Local Close Scope char_scope.

(** Every round moves on by at least one character of the format. *)
Definition printf (fmt : list Z) (ap : list varg) : K Z :=
  locking <- gets (fun s => prlocking (k_pr s)) ;;
  when locking (acquire L_pr) ;;
  while_fuel OutOfFuel (S (length fmt)) (printf_round fmt) (0, ap) ;;
  when locking (release L_pr) ;;
  ret 0.

Definition printfinit : K unit :=
  initlock L_pr ;;
  modify (fun s => set_k_pr (set_prlocking true (k_pr s)) s).

(** ** proc.c: procdump *)

Definition state_name (st : procstate) : list Z :=
  match st with
  | UNUSED => s2b "unused" | USED => s2b "used" | SLEEPING => s2b "sleep "
  | RUNNABLE => s2b "runble" | RUNNING => s2b "run   " | ZOMBIE => s2b "zombie"
  end.

Definition newline : list Z := [10].

Definition procdump : K unit :=
  printf newline [] ;;
  for_each (seq 0 NPROC) (fun i =>
    p <- get_proc i ;;
    if decide (pstate p = UNUSED) then ret tt else
    printf (s2b "%d %s %s") [VInt (ppid p); VStr (Some (state_name (pstate p))); VStr (Some (cstr (pname p)))] ;;
    printf newline [] ;;
    ret tt).

(** ** What reaches the console *)

(** The answers of the device that are left after one wait for it. *)
Fixpoint after_idle (l : list bool) : list bool :=
  match l with
  | [] => []
  | b :: l' => if b then l' else after_idle l'
  end.

(** [bs] has been sent, and nothing else has changed. *)
Definition printed (bs : list Z) (s s' : kstate) : Prop :=
  hart_ok s' /\ exists l, settle s' = set_k_out (k_out s ++ bs) (set_k_uart (set_ulsr l (k_uart s)) (settle s)).

Lemma printed_nil s : hart_ok s -> printed [] s s.
Proof.
  intros Hok. split; [done|]. exists (ulsr (k_uart s)). rewrite app_nil_r. destruct s as [], k_uart. done.
Qed.

Lemma printed_out bs s s' : printed bs s s' -> k_out s' = k_out s ++ bs.
Proof. intros [_ [l Hl]]. by apply (f_equal k_out) in Hl. Qed.

Lemma printed_uart bs s s' : printed bs s s' -> exists l, k_uart s' = set_ulsr l (k_uart s).
Proof. intros [_ [l Hl]]. exists l. by apply (f_equal k_uart) in Hl. Qed.

Lemma printed_pr bs s s' : printed bs s s' -> k_pr s' = k_pr s.
Proof. intros [_ [l Hl]]. by apply (f_equal k_pr) in Hl. Qed.

Lemma printed_app bs bs' s s1 s2 : printed bs s s1 -> printed bs' s1 s2 -> printed (bs ++ bs') s s2.
Proof.
  intros H1 H2. pose proof (printed_out _ _ _ H1) as Ho. destruct (printed_uart _ _ _ H1) as [l1 Hu].
  destruct H1 as [_ [l Hl]], H2 as [Hok2 [l2 Hl2]]. split; [done|]. exists l2.
  rewrite Hl2, Hl, Ho, Hu. rewrite app_assoc. done.
Qed.

Lemma lsr_wait (n : nat) s :
  (length (ulsr (k_uart s)) < n)%nat ->
  while_fuel OutOfFuel n (fun _ : unit =>
    idle <- tx_idle ;; if idle : bool then ret (inr tt) else ret (inl tt)) tt s =
  Ok tt (set_k_uart (set_ulsr (after_idle (ulsr (k_uart s))) (k_uart s)) s).
Proof.
  revert s. induction n as [|n IH]; intros s Hn; [lia|].
  unfold tx_idle, get_uart, gets, bind in *. cbn [while_fuel bind after].
  destruct (ulsr (k_uart s)) as [|[] l] eqn:E; cbn [after] in *.
  - unfold ret. cbn [after]. do 2 f_equal. destruct s as [], k_uart. simpl in *. by subst.
  - done.
  - simpl. unfold bind. rewrite IH by (simpl in *; lia). done.
Qed.

Lemma uartputc_sync_spec c s :
  hart_ok s -> panicked (k_pr s) = false -> wp (uartputc_sync c) (fun _ s' => printed [u8 c] s s') s.
Proof.
  intros Hok Hp. unfold uartputc_sync. apply wp_bind. eapply wp_ok; [by apply push_off_run|].
  apply wp_bind, wp_bind, wp_gets. change (panicked (k_pr (pushed s))) with (panicked (k_pr s)). rewrite Hp. apply wp_ret.
  apply wp_bind, wp_gets, wp_bind. eapply wp_ok; [apply lsr_wait; lia|]. apply wp_bind, wp_modify.
  set (u := set_ulsr _ _). set (o := k_out _ ++ _).
  match goal with |- wp _ _ ?s1 => change s1 with (set_k_out o (set_k_uart u (pushed s))) end.
  assert (Hok' : hart_ok (pushed s)) by (by apply hart_ok_pushed).
  eapply wp_ok; [apply pop_off_run; [done|]|].
  { change (0 < noff (cur (pushed s))). rewrite cur_pushed by done. unfold push_cpu. simpl. destruct Hok as (_ & Hn & _). lia. }
  change (popped (set_k_out o (set_k_uart u (pushed s)))) with (set_k_out o (set_k_uart u (popped (pushed s)))).
  rewrite pop_off_pushed by done. split; [hart_tac|]. eexists. autorewrite with kst. reflexivity.
Qed.

Lemma print_bytes_spec bs s :
  hart_ok s -> panicked (k_pr s) = false -> Forall is_byte bs ->
  wp (for_each bs consputc) (fun _ s' => printed bs s s') s.
Proof.
  intros Hok Hp Hbs.
  apply (wp_for_each (fun pre s' => printed pre s s')).
  - by apply printed_nil.
  - intros pre x post s1 -> H1. apply Forall_app in Hbs as [_ Hbs]. apply Forall_cons in Hbs as [Hx _].
    unfold is_byte in Hx. unfold consputc. rewrite (proj2 (Z.eqb_neq x BACKSPACE)) by (unfold BACKSPACE; lia).
    eapply wp_mono; [apply uartputc_sync_spec; [apply H1|by rewrite (printed_pr _ _ _ H1)]|].
    intros [] s2 H2. rewrite wrap_small in H2 by lia. by eapply printed_app.
Qed.

(** *** Numbers *)

(** Reading a number back: the value of a digit, and of a string with an optional sign. *)
Definition dval (c : Z) : Z := if c <? 58 then c - 48 else c - 87.
Definition read_digits (base : Z) (bs : list Z) : Z := foldl (fun v c => v * base + dval c) 0 bs.
Definition read_num (base : Z) (bs : list Z) : Z :=
  match bs with
  | c :: bs' => if c =? 45 then - read_digits base bs' else read_digits base bs
  | [] => 0
  end.

Lemma dval_digits i : 0 <= i < 16 -> dval (digits !!! Z.to_nat i) = i /\ digits !!! Z.to_nat i <> 45 /\ is_byte (digits !!! Z.to_nat i).
Proof.
  intros Hi. rewrite <- (Z2Nat.id i) at 2 by lia. assert (Hn : (Z.to_nat i < 16)%nat) by lia.
  clear Hi. revert Hn. generalize (Z.to_nat i). intros n Hn.
  do 16 (destruct n as [|n]; [by vm_compute|]). lia.
Qed.

Section digits.
Variable base : Z.
Hypothesis Hbase : 2 <= base <= 16.

Lemma digit_range x : 0 <= x mod base < 16.
Proof. pose proof (Z.mod_pos_bound x base). lia. Qed.

Lemma read_digits_app bs c : read_digits base (bs ++ [c]) = read_digits base bs * base + dval c.
Proof. unfold read_digits. by rewrite foldl_app. Qed.

Lemma digits_of_read n x :
  0 <= x < base ^ Z.of_nat n -> (0 < n)%nat ->
  read_digits base (rev (digits_of n x base)) = x /\ Forall (fun c => c <> 45 /\ is_byte c) (digits_of n x base) /\
  digits_of n x base <> [] /\ (length (digits_of n x base) <= n)%nat.
Proof.
  revert x. induction n as [|n IH]; intros x Hx Hn; [lia|]. cbn [digits_of].
  destruct (dval_digits (x mod base) (digit_range x)) as (Hd & Hne & Hb).
  pose proof (Z.div_mod x base ltac:(lia)) as Hdm. pose proof (Z.div_pos x base ltac:(lia) ltac:(lia)).
  destruct (Z.eqb_spec (x / base) 0) as [Hz|Hnz].
  - split_and!; [|by apply Forall_singleton|done|simpl; lia]. unfold read_digits. simpl. lia.
  - assert (Hlt : x / base < base ^ Z.of_nat n).
    { apply Z.div_lt_upper_bound; [lia|]. rewrite <- Z.pow_succ_r by lia. rewrite <- Nat2Z.inj_succ. lia. }
    assert (Hn' : (0 < n)%nat) by (destruct n; [simpl in Hlt; lia|lia]).
    destruct (IH (x / base) ltac:(lia) Hn') as (Hr & Hf & _ & Hl).
    split_and!; [|by constructor|done|simpl; lia]. simpl. rewrite read_digits_app, Hr, Hd. lia.
Qed.

(** With more fuel than digits the digits do not depend on it. *)
Lemma digits_of_fuel n m x : 0 <= x < base ^ Z.of_nat n -> (n <= m)%nat -> (0 < n)%nat -> digits_of m x base = digits_of n x base.
Proof.
  revert n x. induction m as [|m IH]; intros n x Hx Hnm Hn; [lia|]. destruct n as [|n]; [lia|]. cbn [digits_of].
  destruct (Z.eqb_spec (x / base) 0); [done|]. f_equal.
  assert (Hlt : x / base < base ^ Z.of_nat n).
  { apply Z.div_lt_upper_bound; [lia|]. rewrite <- Z.pow_succ_r by lia. rewrite <- Nat2Z.inj_succ. lia. }
  pose proof (Z.div_pos x base ltac:(lia) ltac:(lia)).
  apply IH; [lia|lia|]. destruct n; [simpl in Hlt; lia|lia].
Qed.
(** A number has as many digits as it needs, and the first is not zero. *)
Lemma digits_of_length n x : 0 <= x < base ^ Z.of_nat n -> (0 < n)%nat -> x < base ^ Z.of_nat (length (digits_of n x base)).
Proof.
  revert x. induction n as [|n IH]; intros x Hx Hn; [lia|]. cbn [digits_of]. pose proof (Z.div_pos x base ltac:(lia) ltac:(lia)).
  pose proof (Z.div_mod x base ltac:(lia)) as Hdm. pose proof (Z.mod_pos_bound x base ltac:(lia)).
  destruct (Z.eqb_spec (x / base) 0) as [Hz|Hnz]; [simpl; lia|].
  assert (Hlt : x / base < base ^ Z.of_nat n) by (apply Z.div_lt_upper_bound; [lia|]; rewrite <- Z.pow_succ_r by lia; rewrite <- Nat2Z.inj_succ; lia).
  pose proof (IH (x / base) ltac:(lia) ltac:(destruct n; [simpl in Hlt; lia|lia])) as Hl.
  cbn [length]. rewrite Nat2Z.inj_succ, Z.pow_succ_r by lia. nia.
Qed.

Lemma digits_of_last n x : 0 < x < base ^ Z.of_nat n -> exists ds c, digits_of n x base = ds ++ [c] /\ dval c <> 0.
Proof.
  revert x. induction n as [|n IH]; intros x Hx; [simpl in Hx; lia|]. cbn [digits_of]. pose proof (Z.div_pos x base ltac:(lia) ltac:(lia)).
  pose proof (Z.div_mod x base ltac:(lia)) as Hdm. destruct (dval_digits (x mod base) (digit_range x)) as (Hd & _ & _).
  destruct (Z.eqb_spec (x / base) 0) as [Hz|Hnz]; [eexists [], _; split; [reflexivity|lia]|].
  assert (Hlt : x / base < base ^ Z.of_nat n) by (apply Z.div_lt_upper_bound; [lia|]; rewrite <- Z.pow_succ_r by lia; rewrite <- Nat2Z.inj_succ; lia).
  destruct (IH (x / base) ltac:(lia)) as (ds & c & -> & Hc). by eexists (_ :: ds), c.
Qed.
End digits.

(** The number a call of [printint] is meant to show. *)
Definition shown (xx : Z) (sign : bool) : Z := if sign then xx else u64 xx.

(** The number of digits of [|xx|] that are sure to fit [buf] next to the sign. *)
Definition room (xx : Z) (sign : bool) : nat := if sign && (xx <? 0) then 15 else 16.

Lemma printint_buf_read xx base sign :
  2 <= base <= 16 -> - 2 ^ 63 <= xx < 2 ^ 63 -> Z.abs (shown xx sign) < base ^ Z.of_nat (room xx sign) ->
  read_num base (printint_buf xx base sign) = shown xx sign /\
  Forall is_byte (printint_buf xx base sign) /\ (length (printint_buf xx base sign) <= 16)%nat.
Proof.
  intros Hb Hx Hfit. unfold printint_buf, shown, room in *.
  assert (Hds : forall n x, (0 < n <= 64)%nat -> 0 <= x < base ^ Z.of_nat n ->
    read_digits base (rev (digits_of 64 x base)) = x /\ Forall (fun c => c <> 45 /\ is_byte c) (rev (digits_of 64 x base)) /\
    rev (digits_of 64 x base) <> [] /\ (length (rev (digits_of 64 x base)) <= n)%nat).
  { intros n x Hn Hxn. rewrite (digits_of_fuel base Hb n) by (done || lia).
    destruct (digits_of_read base Hb n x Hxn ltac:(lia)) as (Hr & Hf & Hne & Hl).
    split_and!; [done|by apply Forall_rev| |by rewrite length_rev].
    intros E. apply Hne. rewrite <- (rev_involutive (digits_of n x base)), E. done. }
  destruct (sign && (xx <? 0)) eqn:Eneg; cbn [app].
  - apply andb_true_iff in Eneg as [-> Hlt%Z.ltb_lt]. rewrite wrap_small by lia.
    destruct (Hds 15%nat (- xx)) as (Hr & Hf & _ & Hl); [lia|lia|]. revert Hr Hf Hl. generalize (rev (digits_of 64 (- xx) base)).
    intros ds Hr Hf Hl. simpl. rewrite Hr. split_and!; [lia| |lia]. constructor; [done|]. eapply Forall_impl; [exact Hf|]. by intros ? [].
  - assert (Hv : u64 xx = if sign then xx else u64 xx).
    { destruct sign; [|done]. simpl in Eneg. apply Z.ltb_ge in Eneg. apply wrap_small. lia. }
    rewrite <- Hv in *. assert (0 <= u64 xx) by (apply Z.mod_pos_bound; done).
    destruct (Hds 16%nat (u64 xx)) as (Hr & Hf & Hne & Hl); [lia|lia|].
    split_and!; [|eapply Forall_impl; [exact Hf|]; by intros ? []|done].
    unfold read_num. destruct (rev _) as [|c ds] eqn:E; [done|]. apply Forall_cons in Hf as [[Hc _] _].
    rewrite (proj2 (Z.eqb_neq c 45) Hc). exact Hr.
Qed.

(** The first digit of a numeral. *)
Definition leading (bs : list Z) : Z := match bs with c :: bs' => if c =? 45 then bs' !!! 0%nat else c | [] => 0 end.

Lemma abs_wrapped xx sign : - 2 ^ 63 <= xx < 2 ^ 63 -> (if sign && (xx <? 0) then u64 (- xx) else u64 xx) = Z.abs (shown xx sign).
Proof.
  intros Hx. unfold shown. pose proof (wrap_range 64 xx ltac:(lia)). destruct sign; simpl; [|lia]. destruct (Z.ltb_spec xx 0); rewrite wrap_small; lia.
Qed.

Lemma shown_small base xx sign : 2 <= base -> - 2 ^ 63 <= xx < 2 ^ 63 -> 0 <= Z.abs (shown xx sign) < base ^ Z.of_nat 64.
Proof.
  intros Hb Hx. pose proof (Z.pow_le_mono_l 2 base 64 ltac:(lia)). pose proof (wrap_range 64 xx ltac:(lia)). change (Z.of_nat 64) with 64. unfold shown. destruct sign; lia.
Qed.

Lemma printint_buf_leading xx base sign :
  2 <= base <= 16 -> - 2 ^ 63 <= xx < 2 ^ 63 -> if shown xx sign =? 0 then printint_buf xx base sign = [48] else dval (leading (printint_buf xx base sign)) <> 0.
Proof.
  intros Hb Hx. pose proof (shown_small base xx sign ltac:(lia) Hx) as Hs. unfold printint_buf. rewrite (abs_wrapped xx sign Hx). destruct (Z.eqb_spec (shown xx sign) 0) as [Hz|Hnz].
  - rewrite Hz. assert (sign && (xx <? 0) = false) as ->; [|cbn [digits_of app Z.abs]; rewrite Z.mod_0_l, Z.div_0_l by lia; reflexivity].
    unfold shown in Hz. destruct sign; [subst; done|done].
  - destruct (digits_of_last base Hb 64 (Z.abs (shown xx sign)) ltac:(lia)) as (ds & c & E & Hc).
    destruct (digits_of_read base Hb 64 _ Hs ltac:(lia)) as (_ & Hf & _ & _). rewrite E in Hf |- *. rewrite rev_app_distr. apply Forall_app in Hf as [_ [[Hne _] _]%Forall_cons].
    destruct (sign && (xx <? 0)); simpl; [done|]. by rewrite (proj2 (Z.eqb_neq c 45) Hne).
Qed.

Lemma printint_buf_long xx base sign :
  2 <= base <= 16 -> - 2 ^ 63 <= xx < 2 ^ 63 -> base ^ Z.of_nat (room xx sign) <= Z.abs (shown xx sign) -> (16 < length (printint_buf xx base sign))%nat.
Proof.
  intros Hb Hx Hfit. pose proof (shown_small base xx sign ltac:(lia) Hx) as Hs. unfold printint_buf. rewrite (abs_wrapped xx sign Hx), length_app, length_rev.
  pose proof (digits_of_length base Hb 64 _ Hs ltac:(lia)) as Hl. assert (Hlt : (room xx sign < length (digits_of 64 (Z.abs (shown xx sign)) base))%nat).
  { apply Nat2Z.inj_lt. apply (Z.pow_lt_mono_r_iff base); lia. }
  revert Hlt. generalize (length (digits_of 64 (Z.abs (shown xx sign)) base)). unfold room. intros n Hlt. destruct (sign && (xx <? 0)); simpl; lia.
Qed.

(** C37: The numbers the kernel prints are the numbers it was given, and [printint] overruns its buffer on all others.  In every base up to
    16, when the digits of the number and its sign fit the 16 characters of [buf], [printint] sends a string
    that reads back, sign included, as its argument and has no leading zero.  A number that takes more, such as a
    64-bit one of more than 16 decimal digits, is written past the end of [buf]. *)
Theorem printint_prints xx base sign s :
  hart_ok s -> panicked (k_pr s) = false -> 2 <= base <= 16 -> - 2 ^ 63 <= xx < 2 ^ 63 ->
  if Z.abs (shown xx sign) <? base ^ Z.of_nat (room xx sign)
  then wp (printint xx base sign) (fun _ s' => exists bs, printed bs s s' /\ (length bs <= 16)%nat /\
    read_num base bs = shown xx sign /\ if shown xx sign =? 0 then bs = [48] else dval (leading bs) <> 0) s
  else printint xx base sign s = Stop (Fault "printint: buf").
Proof.
  intros Hok Hp Hb Hx. destruct (Z.ltb_spec (Z.abs (shown xx sign)) (base ^ Z.of_nat (room xx sign))) as [Hfit|Hlong]; unfold printint.
  - destruct (printint_buf_read xx base sign Hb Hx Hfit) as (Hr & Hf & Hl). rewrite (proj2 (Nat.ltb_ge _ _) Hl).
    eapply wp_mono; [by apply print_bytes_spec|]. intros [] s' Hpr. exists (printint_buf xx base sign). split_and!; [done|done|done|by apply printint_buf_leading].
  - by rewrite (proj2 (Nat.ltb_lt _ _) (printint_buf_long xx base sign Hb Hx Hlong)).
Qed.

Lemma printint_prints_witness :
  wp (printint (-2147483648) 10 true) (fun _ s' => exists bs, printed bs boot_state s' /\ read_num 10 bs = -2147483648) boot_state /\
  printint (-2147483648) 10 false boot_state = Stop (Fault "printint: buf").
Proof.
  pose proof (printint_prints (-2147483648) 10 true boot_state boot_hart_ok eq_refl ltac:(lia) ltac:(lia)) as H1.
  pose proof (printint_prints (-2147483648) 10 false boot_state boot_hart_ok eq_refl ltac:(lia) ltac:(lia)) as H2.
  assert (E1 : (Z.abs (shown (-2147483648) true) <? 10 ^ Z.of_nat (room (-2147483648) true)) = true) by (vm_compute; reflexivity).
  assert (E2 : (Z.abs (shown (-2147483648) false) <? 10 ^ Z.of_nat (room (-2147483648) false)) = false) by (vm_compute; reflexivity).
  rewrite E1 in H1. rewrite E2 in H2. split; [|exact H2]. eapply wp_mono; [exact H1|]. intros [] s' (bs & Hp & _ & Hr & _). exact (ex_intro _ bs (conj Hp Hr)).
Defined.
