(* ===== verification/Console.v ===== *)
(** The console, [kernel/console.c], and the UART interrupt handler, which feeds it.

    [k_cons] is [cons]: the input ring with its read, write and edit indices.  Reading
    and writing devices go through [devsw]; the console is entry [CONSOLE]. *)
From Stdlib Require Import Ascii.
From S2P Require Import Prelude Machine Ring Riscv State Spinlock KString Kalloc Vm Sched Copy User Uart Printf.
From Stdlib Require Import ZArith Lia.
From stdpp Require Import base strings numbers gmap list.
Local Open Scope Z_scope.
Local Open Scope m_scope.

Definition INPUT_BUF_SIZE : Z := 128.
Definition CONSOLE : Z := 1.

(** Control-x. *)
Definition C (x : ascii) : Z := ch x - ch "@"%char.

Definition get_cons : K consst := gets k_cons.
Definition upd_cons (f : consst -> consst) : K unit := modify (fun s => set_k_cons (f (k_cons s)) s).

(** [cons.buf[i % INPUT_BUF_SIZE]]. *)
Definition cons_at (c : consst) (i : Z) : Z := cbuf c !!! Z.to_nat (u32 i mod INPUT_BUF_SIZE).

(** [cons.buf[cons.e++ % INPUT_BUF_SIZE] = c]. *)
Definition cons_append (c : Z) : K unit :=
  upd_cons (fun k => set_cbuf (<[Z.to_nat (cons_e k mod INPUT_BUF_SIZE) := u8 c]> (cbuf k)) k) ;;
  upd_cons (fun k => set_cons_e (u32 (cons_e k + 1)) k).

Section console.
Context `{Patience}.

Definition consolewrite (user_src : bool) (src n : Z) : K Z :=
  while_fuel OutOfFuel (S (Z.to_nat n)) (fun i =>
    if i <? n then
      let! (r, c) := either_copyin user_src (u64 (src + i)) 1 in
      if r =? -1 then ret (inr i) else
      uartputc (c !!! 0%nat) ;;
      ret (inl (i + 1))
    else ret (inr i)) 0.

(** The wait for input: [true] when the process has been killed. *)
Definition cons_wait : K bool :=
  while_fuel OutOfFuel (S patience) (fun _ : unit =>
    c <- get_cons ;;
    if cons_r c =? cons_w c then
      i <- curproc ;;
      k <- killed i ;;
      if negb (k =? 0) then release L_cons ;; ret (inr true)
      else sleep C_cons_r L_cons ;; ret (inl tt)
    else ret (inr false)) tt.

(** One round of the loop of [consoleread], with [n] bytes still wanted at [dst].  The loop
    is left with [None] on the return for a killed process, where the lock has been
    released, and otherwise with the count of bytes still wanted. *)
Definition consoleread_round (user_dst : bool) (target : Z) : Z * Z -> K ((Z * Z) + option Z) := fun '(n, dst) =>
  if negb (0 <? n) then ret (inr (Some n)) else
  k <- cons_wait ;;
  if k : bool then ret (inr None) else
  cn <- get_cons ;;
  let c := cons_at cn (cons_r cn) in
  upd_cons (fun k => set_cons_r (u32 (cons_r k + 1)) k) ;;
  if c =? C "D"%char then
    when (u32 n <? target) (upd_cons (fun k => set_cons_r (u32 (cons_r k - 1)) k)) ;;
    ret (inr (Some n))
  else
    e <- either_copyout user_dst dst [c] ;;
    if e =? -1 then ret (inr (Some n)) else
    if c =? 10 then ret (inr (Some (n - 1)))
    else ret (inl (n - 1, u64 (dst + 1))).

Definition consoleread (user_dst : bool) (dst n : Z) : K Z :=
  let target := u32 n in
  acquire L_cons ;;
  r <- while_fuel OutOfFuel (S (Z.to_nat n)) (consoleread_round user_dst target) (n, dst) ;;
  match r with
  | None => ret (-1)
  | Some n => release L_cons ;; ret (s32 (target - u32 n))
  end.
End console.

(** The kill-line loop erases at most the bytes typed since the last newline. *)
Definition kill_line : K unit :=
  c <- get_cons ;;
  while_fuel OutOfFuel (S (Z.to_nat (u32 (cons_e c - cons_w c)))) (fun _ : unit =>
    c <- get_cons ;;
    if negb (cons_e c =? cons_w c) && negb (cons_at c (cons_e c - 1) =? 10) then
      upd_cons (fun k => set_cons_e (u32 (cons_e k - 1)) k) ;;
      consputc BACKSPACE ;;
      ret (inl tt)
    else ret (inr tt)) tt.

Definition consoleintr (c : Z) : K unit :=
  acquire L_cons ;;
  (if c =? C "P"%char then procdump
   else if c =? C "U"%char then kill_line
   else if (c =? C "H"%char) || (c =? 0x7f) then
     k <- get_cons ;;
     if rawmode k =? 0 then
       when (negb (cons_e k =? cons_w k))
         (upd_cons (fun k => set_cons_e (u32 (cons_e k - 1)) k) ;;
          consputc BACKSPACE)
     else
       cons_append c ;;
       upd_cons (fun k => set_cons_w (cons_e k) k) ;;
       wakeup C_cons_r
   else
     k <- get_cons ;;
     when (negb (c =? 0) && (u32 (cons_e k - cons_r k) <? INPUT_BUF_SIZE))
       (let c := if c =? 13 then 10 else c in
        cons_append c ;;
        k <- get_cons ;;
        if negb (rawmode k =? 0) then
          upd_cons (fun k => set_cons_w (cons_e k) k) ;;
          wakeup C_cons_r
        else
          consputc c ;;
          k <- get_cons ;;
          when ((c =? 10) || (c =? C "D"%char) || (u32 (cons_e k - cons_r k) =? INPUT_BUF_SIZE))
            (upd_cons (fun k => set_cons_w (cons_e k) k) ;;
             wakeup C_cons_r))) ;;
  release L_cons.

Definition consoleinit : K unit :=
  initlock L_cons ;;
  uartinit ;;
  modify (fun s => set_k_devsw (<[Z.to_nat CONSOLE := Some console_device]> (k_devsw s)) s).

Definition console_set_rawmode (on : Z) : K unit :=
  acquire L_cons ;;
  upd_cons (set_rawmode on) ;;
  release L_cons.

(** ** uart.c: the interrupt handler *)
Definition uartintr : K unit :=
  u <- get_uart ;;
  while_fuel OutOfFuel (S (length (urx u))) (fun _ : unit =>
    c <- uartgetc ;;
    if c =? -1 then ret (inr tt) else
    consoleintr c ;;
    ret (inl tt)) tt ;;
  acquire L_uart ;;
  uartstart ;;
  release L_uart.

(** ** The input ring: what can be read, and the line being typed *)

Record cons_rep (k : consst) (R L : list Z) : Prop := {
  cr_ok : rok INPUT_BUF_SIZE 32 (cbuf k) (cons_r k) (cons_e k);
  cr_queue : rqueue INPUT_BUF_SIZE 32 (cbuf k) (cons_r k) (cons_e k) = R ++ L;
  cr_w : 0 <= cons_w k < 2 ^ 32;
  cr_ready : rcount 32 (cons_r k) (cons_w k) = Z.of_nat (length R);
  cr_line : rcount 32 (cons_w k) (cons_e k) = Z.of_nat (length L)
}.

Lemma cring_n : 0 < INPUT_BUF_SIZE < 2 ^ 32.
Proof. done. Qed.
Lemma cring_div : (INPUT_BUF_SIZE | 2 ^ 32).
Proof. by exists (2 ^ 25). Qed.

Section cons_rep.
Variables (k : consst) (R L : list Z).
Hypothesis Hk : cons_rep k R L.

Lemma cons_count : rcount 32 (cons_r k) (cons_e k) = Z.of_nat (length R + length L).
Proof.
  pose proof (f_equal length (cr_queue _ _ _ Hk)) as H. rewrite length_rqueue, length_app in H.
  pose proof (rcount_bound _ _ cring_n (cons_r k) (cons_e k)). lia.
Qed.

Lemma cons_fit : (length R + length L <= 128)%nat.
Proof. pose proof cons_count. pose proof (rok_room _ _ _ _ _ (cr_ok _ _ _ Hk)). unfold INPUT_BUF_SIZE in *. lia. Qed.

Lemma cons_room : u32 (cons_e k - cons_r k) = Z.of_nat (length R + length L).
Proof. apply cons_count. Qed.

Lemma cons_line_nil : (cons_e k =? cons_w k) = bool_decide (L = []).
Proof.
  pose proof (rcount_0 _ _ cring_n (cons_w k) (cons_e k) (cr_w _ _ _ Hk) (rok_w _ _ _ _ _ (cr_ok _ _ _ Hk))) as H0.
  rewrite (cr_line _ _ _ Hk) in H0. case_bool_decide as E.
  - apply Z.eqb_eq. symmetry. apply H0. by rewrite E.
  - apply Z.eqb_neq. intros Heq. apply E, nil_length_inv. apply Nat2Z.inj. by apply H0.
Qed.

Lemma cons_push c :
  (length R + length L < 128)%nat ->
  cons_rep (set_cons_e (u32 (cons_e k + 1)) (set_cbuf (<[Z.to_nat (cons_e k mod INPUT_BUF_SIZE) := c]> (cbuf k)) k)) R (L ++ [c]).
Proof.
  intros Hroom. destruct (rqueue_push _ _ cring_n cring_div _ _ _ c (cr_ok _ _ _ Hk)) as [Hok Hq].
  { rewrite cons_count. unfold INPUT_BUF_SIZE. lia. }
  split; simpl; [exact Hok| |apply Hk|apply Hk|].
  - etransitivity; [exact Hq|]. by rewrite (cr_queue _ _ _ Hk), app_assoc.
  - pose proof (cr_line _ _ _ Hk). etransitivity; [apply (rcount_push _ _ cring_n); simpl in *; lia|].
    rewrite length_app. simpl. lia.
Qed.

Lemma cons_commit : cons_rep (set_cons_w (cons_e k) k) (R ++ L) [].
Proof.
  split; simpl; [apply Hk|rewrite app_nil_r; apply Hk|apply (cr_ok _ _ _ Hk)| |].
  - rewrite length_app. apply cons_count.
  - by apply (rcount_0 _ _ cring_n); [apply (cr_ok _ _ _ Hk)..|].
Qed.
End cons_rep.

Lemma cons_unpush k R L x :
  cons_rep k R (L ++ [x]) -> cons_rep (set_cons_e (u32 (cons_e k - 1)) k) R L /\ cons_at k (cons_e k - 1) = x.
Proof.
  intros Hk. assert (Hne : cons_r k <> cons_e k).
  { intros E. pose proof (cons_count _ _ _ Hk) as Hc. rewrite length_app in Hc. simpl in Hc.
    rewrite (proj2 (rcount_0 _ _ cring_n _ _ (rok_r _ _ _ _ _ (cr_ok _ _ _ Hk)) (rok_w _ _ _ _ _ (cr_ok _ _ _ Hk))) E) in Hc. lia. }
  destruct (rqueue_unpush _ _ cring_n cring_div _ _ _ (cr_ok _ _ _ Hk) Hne) as [Hok Hq].
  rewrite (cr_queue _ _ _ Hk), app_assoc in Hq. apply app_inj_tail in Hq as [Hq Hx].
  split; [|by rewrite Hx]. split; simpl; [exact Hok|by symmetry|apply Hk|apply Hk|].
  pose proof (cr_line _ _ _ Hk) as Hl. rewrite length_app in Hl. simpl in Hl.
  etransitivity; [apply (rcount_unpush _ _ cring_n); lia|]. lia.
Qed.

(** ** What a typed key does, without the ring

    [R] is the input a process can read, [L] the line being typed.  The result is the new
    pair and what is echoed. *)
Definition rubout : list Z := [8; 32; 8].

Definition cooked (R L : list Z) (c : Z) : list Z * list Z * list Z :=
  if c =? C "U"%char then (R, [], mjoin (replicate (length L) rubout))
  else if (c =? C "H"%char) || (c =? 0x7f) then
    match L with
    | [] => (R, [], [])
    | _ => (R, removelast L, rubout)
    end
  else if negb (c =? 0) && (length R + length L <? 128)%nat then
    let c := if c =? 13 then 10 else c in
    let L := L ++ [c] in
    if (c =? 10) || (c =? C "D"%char) || (length R + length L =? 128)%nat then (R ++ L, [], [c])
    else (R, L, [c])
  else (R, L, []).

Fixpoint cooked_all (R L : list Z) (keys : list Z) : list Z * list Z * list Z :=
  match keys with
  | [] => (R, L, [])
  | c :: keys' =>
      let '(R1, L1, out1) := cooked R L c in
      let '(R2, L2, out2) := cooked_all R1 L1 keys' in
      (R2, L2, out1 ++ out2)
  end.

(** The fields the console changes. *)
Definition cst (k : consst) (o : list Z) (l : list bool) (ps : list proc) (s : kstate) : kstate :=
  set_k_cons k (set_k_procs ps (set_k_out o (set_k_uart (set_ulsr l (k_uart s)) s))).

Lemma printed_nested bs s s' :
  hart_ok s -> 0 < noff (cur s) -> printed bs s s' ->
  exists l, s' = set_k_out (k_out s ++ bs) (set_k_uart (set_ulsr l (k_uart s)) s).
Proof.
  intros Hok Hn [Hok' [l Hl]]. exists l. rewrite <- (settle_nested s') , Hl; [by rewrite settle_nested|done|].
  rewrite <- noff_settle by done. rewrite Hl. autorewrite with kst.
  change (0 < noff (cur (settle s))). by rewrite noff_settle.
Qed.

Section intr.
(** The state in the handler, with the lock of the console held. *)
Variable a : kstate.
Hypothesis Hok : hart_ok a.
Hypothesis Hn : 0 < noff (cur a).
Hypothesis Hpl : plocks_free a.
Hypothesis Hps : length (k_procs a) = NPROC.
Hypothesis Hpan : panicked (k_pr a) = false.

Lemma putc_cst c k o l ps :
  wp (uartputc_sync c) (fun _ s' => exists l', s' = cst k (o ++ [u8 c]) l' ps a) (cst k o l ps a).
Proof.
  eapply wp_mono; [apply uartputc_sync_spec; [unfold cst; hart_tac|done]|]. intros [] s' Hp.
  apply printed_nested in Hp as [l' ->]; [by exists l'|unfold cst; hart_tac|done].
Qed.

Lemma echo_cst c k o l ps :
  is_byte c -> wp (consputc c) (fun _ s' => exists l', s' = cst k (o ++ [c]) l' ps a) (cst k o l ps a).
Proof.
  intros Hc. unfold consputc, is_byte in *. rewrite (proj2 (Z.eqb_neq c BACKSPACE)) by (unfold BACKSPACE; lia).
  eapply wp_mono; [apply putc_cst|]. intros [] s' [l' ->]. rewrite wrap_small by lia. eauto.
Qed.

Lemma rubout_cst k o l ps :
  wp (consputc BACKSPACE) (fun _ s' => exists l', s' = cst k (o ++ rubout) l' ps a) (cst k o l ps a).
Proof.
  unfold consputc. rewrite Z.eqb_refl. wp_use putc_cst. intros [] s1 [l1 ->].
  wp_use putc_cst. intros [] s2 [l2 ->]. eapply wp_mono; [apply putc_cst|]. intros [] s3 [l3 ->].
  exists l3. by rewrite <- !app_assoc.
Qed.

Lemma wake_cst c k o l ps :
  quiet (k_procs a) ps -> wp (wakeup c) (fun _ s' => exists ps', s' = cst k o l ps' a /\ quiet (k_procs a) ps') (cst k o l ps a).
Proof.
  intros Hq. eapply wp_ok; [apply wakeup_run; [unfold cst; hart_tac|intros i; apply Hpl|]|].
  { simpl. by rewrite (quiet_length _ _ Hq). }
  rewrite settle_nested; [|unfold cst; hart_tac|done]. eexists. split; [done|].
  eapply quiet_trans; [exact Hq|apply quiet_wake].
Qed.

(** What a branch of the handler leaves. *)
Definition handled (R L echo : list Z) (s' : kstate) : Prop := exists k o l ps, s' = cst k o l ps a /\
  quiet (k_procs a) ps /\ rawmode k = 0 /\ cons_rep k R L /\ o = k_out a ++ echo.

Lemma kill_line_spec R L :
  cons_rep (k_cons a) R L -> rawmode (k_cons a) = 0 -> Forall (fun c => c <> 10) L ->
  wp kill_line (fun _ s' => handled R [] (mjoin (replicate (length L) rubout)) s') a.
Proof.
  intros Hrep Hraw Hnl. unfold kill_line. apply wp_bind, wp_gets.
  apply (wp_loop OutOfFuel (fun _ s' => exists k o l L1 j, s' = cst k o l (k_procs a) a /\ rawmode k = 0 /\
      cons_rep k R L1 /\ o = k_out a ++ mjoin (replicate j rubout) /\ (length L1 + j = length L)%nat /\ Forall (fun c => c <> 10) L1)
    (fun _ s' => Z.to_nat (rcount 32 (cons_w (k_cons s')) (cons_e (k_cons s'))))).
  - exists (k_cons a), (k_out a), (ulsr (k_uart a)), L, 0%nat. split_and!; try done.
    + by destruct a as [], k_uart.
    + by rewrite app_nil_r.
  - unfold rcount, wrap. lia.
  - intros _ s' (k & o & l & L1 & j & -> & Hr & Hk & -> & Hj & Hf). apply wp_bind, wp_gets. simpl k_cons.
    rewrite (cons_line_nil _ _ _ Hk). destruct L1 as [|x L1 _] using rev_ind.
    + rewrite bool_decide_true by done. apply wp_ret. simpl in Hj. subst j. do 4 eexists.
      split_and!; [done|apply quiet_refl|done|done|done].
    + rewrite bool_decide_false by (by destruct L1). destruct (cons_unpush _ _ _ _ Hk) as [Hk' Hx]. rewrite Hx.
      apply Forall_app in Hf as [Hf Hfx]. rewrite Forall_singleton in Hfx.
      rewrite (proj2 (Z.eqb_neq x 10) Hfx). simpl negb. simpl andb. apply wp_bind, wp_modify, wp_bind. simpl k_cons.
      set (k1 := set_cons_e _ k).
      change (set_k_cons k1 (cst k ?o1 l ?ps a)) with (cst k1 o1 l ps a).
      eapply wp_mono; [apply rubout_cst|]. intros [] s' [l' ->]. apply wp_ret. split.
      * exists k1, (k_out a ++ mjoin (replicate (S j) rubout)), l', L1, (S j). rewrite length_app in Hj. simpl in Hj.
        split_and!; try done; [|lia]. f_equal. rewrite <- app_assoc. f_equal.
        rewrite <- (Nat.add_1_r j), replicate_add, join_app. done.
      * simpl k_cons. pose proof (cr_line _ _ _ Hk) as E1. pose proof (cr_line _ _ _ Hk') as E2.
        fold k1 in E2. rewrite E1, E2. rewrite length_app in *. simpl in *. lia.
Qed.

(** A key that is not a control key of the editor. *)
Lemma plain_spec R L c :
  cons_rep (k_cons a) R L -> rawmode (k_cons a) = 0 -> is_byte c ->
  wp (k <- get_cons ;;
      when (negb (c =? 0) && (u32 (cons_e k - cons_r k) <? INPUT_BUF_SIZE))
       (let c := if c =? 13 then 10 else c in
        cons_append c ;;
        k <- get_cons ;;
        if negb (rawmode k =? 0) then
          upd_cons (fun k => set_cons_w (cons_e k) k) ;;
          wakeup C_cons_r
        else
          consputc c ;;
          k <- get_cons ;;
          when ((c =? 10) || (c =? C "D"%char) || (u32 (cons_e k - cons_r k) =? INPUT_BUF_SIZE))
            (upd_cons (fun k => set_cons_w (cons_e k) k) ;;
             wakeup C_cons_r)))
    (fun _ s' => exists R' L' echo, handled R' L' echo s' /\
       (R', L', echo) = if negb (c =? 0) && (length R + length L <? 128)%nat then
          let c := if c =? 13 then 10 else c in
          let L := L ++ [c] in
          if (c =? 10) || (c =? C "D"%char) || (length R + length L =? 128)%nat then (R ++ L, [], [c]) else (R, L, [c])
        else (R, L, [])) a.
Proof.
  intros Hrep Hraw Hc. apply wp_bind, wp_gets. rewrite (cons_room _ _ _ Hrep).
  replace (Z.of_nat (length R + length L) <? INPUT_BUF_SIZE) with (length R + length L <? 128)%nat.
  2:{ unfold INPUT_BUF_SIZE. destruct (Nat.ltb_spec (length R + length L) 128), (Z.ltb_spec (Z.of_nat (length R + length L)) 128); lia. }
  destruct (negb (c =? 0) && (length R + length L <? 128)%nat) eqn:E; unfold when at 1.
  2:{ apply wp_ret. exists R, L, []. split; [|done]. exists (k_cons a), (k_out a), (ulsr (k_uart a)), (k_procs a).
      split_and!; [by destruct a as [], k_uart|apply quiet_refl|done|done|by rewrite app_nil_r]. }
  apply andb_true_iff in E as [_ Hroom%Nat.ltb_lt]. cbv zeta. set (d := if c =? 13 then 10 else c).
  assert (Hd : is_byte d) by (unfold d; by destruct (c =? 13)). assert (Hd8 : u8 d = d) by (apply wrap_small; exact Hd).
  apply wp_bind, wp_bind, wp_modify, wp_modify, wp_bind, wp_gets. simpl k_cons. rewrite Hd8.
  pose proof (cons_push _ _ _ Hrep d Hroom) as Hk1. set (k1 := set_cons_e _ _) in *.
  match goal with |- wp _ _ ?s1 => replace s1 with (cst k1 (k_out a) (ulsr (k_uart a)) (k_procs a) a) by (by destruct a as [], k_uart) end.
  change (rawmode k1) with (rawmode (k_cons a)). rewrite Hraw. cbn [negb Z.eqb]. apply wp_bind.
  eapply wp_mono; [by apply echo_cst|]. intros [] s1 [l1 ->]. apply wp_bind, wp_gets. simpl k_cons.
  rewrite (cons_room _ _ _ Hk1).
  replace (Z.of_nat (length R + length (L ++ [d])) =? INPUT_BUF_SIZE) with (length R + length (L ++ [d]) =? 128)%nat.
  2:{ unfold INPUT_BUF_SIZE. destruct (Nat.eqb_spec (length R + length (L ++ [d])) 128), (Z.eqb_spec (Z.of_nat (length R + length (L ++ [d]))) 128); lia. }
  destruct ((d =? 10) || (d =? C "D"%char) || (length R + length (L ++ [d]) =? 128)%nat); unfold when.
  - apply wp_bind, wp_modify. simpl k_cons. set (k2 := set_cons_w _ k1).
    change (set_k_cons k2 (cst k1 ?o ?l ?ps a)) with (cst k2 o l ps a).
    eapply wp_mono; [apply wake_cst, quiet_refl|]. intros [] s2 (ps' & -> & Hq). exists (R ++ L ++ [d]), [], [d]. split; [|done].
    do 4 eexists. split_and!; [done|done|done|exact (cons_commit _ _ _ Hk1)|done].
  - apply wp_ret. exists R, (L ++ [d]), [d]. split; [|done].
    do 4 eexists. split_and!; [done|apply quiet_refl|done|done|done].
Qed.
End intr.

(** Between interrupts: cooked mode, with [R] to read and [L] being typed. *)
Record cinv (s : kstate) (R L : list Z) : Prop := {
  ci_hart : hart_ok s;
  ci_plocks : plocks_free s;
  ci_procs : length (k_procs s) = NPROC;
  ci_lock : lock_free L_cons s;
  ci_pan : panicked (k_pr s) = false;
  ci_raw : rawmode (k_cons s) = 0;
  ci_rep : cons_rep (k_cons s) R L;
  ci_line : Forall (fun c => c <> 10) L
}.

Lemma Forall_removelast {A} (P : A -> Prop) (l : list A) : Forall P l -> Forall P (removelast l).
Proof. intros H. induction H as [|x l Hx _ IH]; [done|]. simpl. destruct l; [done|by constructor]. Qed.

Lemma cooked_line R L c R' L' echo :
  Forall (fun c => c <> 10) L -> cooked R L c = (R', L', echo) -> Forall (fun c => c <> 10) L'.
Proof.
  intros HL. unfold cooked. destruct (c =? C "U"%char); [by intros [= <- <- <-]|].
  destruct ((c =? C "H"%char) || (c =? 127)).
  { pose proof (Forall_removelast _ _ HL) as Hr. by destruct L as [|x L]; intros [= <- <- <-]. }
  destruct (negb (c =? 0) && _); [|by intros [= <- <- <-]]. cbv zeta.
  destruct ((if c =? 13 then 10 else c) =? 10) eqn:E; [by intros [= <- <- <-]|]. simpl orb.
  destruct ((_ =? C "D"%char) || _); intros [= <- <- <-]; [done|].
  apply Forall_app. split; [done|]. apply Forall_singleton. by apply Z.eqb_neq.
Qed.

Lemma consoleintr_spec s R L c :
  cinv s R L -> is_byte c -> c <> C "P"%char ->
  wp (consoleintr c) (fun _ s' => cinv s' (cooked R L c).1.1 (cooked R L c).1.2 /\ k_out s' = k_out s ++ (cooked R L c).2) s.
Proof.
  intros [Hok Hpl Hps Hf Hpan Hraw Hrep HL] Hc HP. unfold consoleintr.
  destruct (cooked R L c) as [[R' L'] echo] eqn:Ec. simpl fst. simpl snd.
  pose proof (cooked_line _ _ _ _ _ _ HL Ec) as HL'.
  apply wp_bind, wp_acquire; [done|done|]. set (a := acquired L_cons s).
  assert (Hoka : hart_ok a) by (by apply hart_ok_acquired). assert (Hna : 0 < noff (cur a)) by (by apply noff_acquired).
  assert (Hpla : plocks_free a) by (intros i; by apply lock_free_acquired).
  rewrite (proj2 (Z.eqb_neq c (C "P"%char)) HP). apply wp_bind.
  eapply (wp_mono _ (fun _ s1 => handled a R' L' echo s1)).
  - unfold cooked in Ec. destruct (c =? C "U"%char) eqn:EU.
    { injection Ec as <- <- <-. by apply kill_line_spec. }
    destruct ((c =? C "H"%char) || (c =? 127)) eqn:EH.
    + apply wp_bind, wp_gets. change (k_cons a) with (k_cons s). rewrite Hraw. rewrite Z.eqb_refl.
      rewrite (cons_line_nil _ _ _ Hrep). destruct L as [|x L _] using rev_ind.
      * injection Ec as <- <- <-. rewrite bool_decide_true by done. apply wp_ret.
        exists (k_cons a), (k_out a), (ulsr (k_uart a)), (k_procs a).
        split_and!; [by destruct a as [], k_uart|apply quiet_refl|done|done|by rewrite app_nil_r].
      * rewrite bool_decide_false by (by destruct L). simpl negb. unfold when. apply wp_bind, wp_modify.
        assert (Ec' : (R, removelast (L ++ [x]), rubout) = (R', L', echo)) by (by destruct L). clear Ec.
        injection Ec' as <- <- <-. rewrite removelast_last. destruct (cons_unpush _ _ _ _ Hrep) as [Hk1 _].
        set (k1 := set_cons_e _ _) in *.
        match goal with |- wp _ _ ?s1 => replace s1 with (cst k1 (k_out a) (ulsr (k_uart a)) (k_procs a) a) by (by destruct a as [], k_uart) end.
        eapply wp_mono; [by apply rubout_cst|]. intros [] s1 [l1 ->]. do 4 eexists. split_and!; [done|apply quiet_refl|done|done|done].
    + eapply wp_mono; [by apply (plain_spec a Hoka Hna Hpla Hps Hpan R L)|].
      intros [] s1 (R1 & L1 & e1 & Hh & Heq). pose proof (eq_trans Heq Ec) as E. by injection E as -> -> ->.
  - intros [] s1 (k & o & l & ps & -> & Hq & Hr & Hk & ->). unfold cst.
    apply wp_release; [hart_tac|hart_tac|exact (lock_held_acquired L_cons s)|]. autorewrite with kst. unfold a. rewrite released_acquired by done.
    split; [|done]. split; try done; [hart_tac|].
    simpl. by rewrite (quiet_length _ _ Hq).
Qed.

(** C26: the console's line editing is that of a list.  In cooked mode, for every sequence
    of typed bytes other than Control-P, the interrupt handler returns each time, and
    the ring buffer with its three wrapping counters holds what [cooked] computes on
    two lists: the input that can be read and the line being typed; Backspace, Delete and
    Control-U erase from the line only, a newline, Control-D or a full buffer makes it
    available; and what is echoed is what [cooked] says. *)
Theorem console_line_editing s R L keys :
  cinv s R L -> Forall is_byte keys -> (C "P"%char ∉ keys) ->
  wp (for_each keys consoleintr) (fun _ s' => let '(R', L', echo) := cooked_all R L keys in
    cinv s' R' L' /\ k_out s' = k_out s ++ echo) s.
Proof.
  revert s R L. induction keys as [|c keys IH]; intros s R L Hci Hb HP; simpl.
  - apply wp_ret. by rewrite app_nil_r.
  - apply Forall_cons in Hb as [Hc Hb]. apply not_elem_of_cons in HP as [HPc HP].
    wp_use consoleintr_spec; [done|done|done|]. intros [] s1 [H1 Ho1].
    destruct (cooked R L c) as [[R1 L1] out1]. simpl in *.
    eapply wp_mono; [by eapply IH|]. intros [] s2. destruct (cooked_all R1 L1 keys) as [[R2 L2] out2].
    intros [H2 Ho2]. split; [done|]. by rewrite Ho2, Ho1, app_assoc.
Qed.

(** Bytes of a string, as a script of keys. *)
Lemma console_boot : cinv boot_state [] [].
Proof.
  split; [exact boot_hart_ok|exact boot_plocks|done|done|done|done| |by apply Forall_nil_2].
  split; [|done|done|done|done]. by split.
Qed.

Lemma console_line_editing_witness :
  wp (for_each (s2b "lx" ++ [127; 115; 13]) consoleintr) (fun _ s' =>
    cinv s' (s2b "ls" ++ [10]) [] /\ k_out s' = s2b "lx" ++ rubout ++ [115; 10]) boot_state.
Proof.
  eapply wp_mono; [apply (console_line_editing boot_state [] [] (s2b "lx" ++ [127; 115; 13]) console_boot)|].
  - repeat constructor; by vm_compute.
  - apply (bool_decide_unpack _). by vm_compute.
  - intros [] s' H. exact H.
Defined.

(** ** Raw mode *)

(** Between interrupts in raw mode: [R] can be read, and there is no line being typed. *)
Record rinv (s : kstate) (R : list Z) : Prop := {
  rv_hart : hart_ok s;
  rv_plocks : plocks_free s;
  rv_procs : length (k_procs s) = NPROC;
  rv_lock : lock_free L_cons s;
  rv_raw : rawmode (k_cons s) <> 0;
  rv_rep : cons_rep (k_cons s) R []
}.

Definition erase_key (c : Z) : bool := (c =? C "H"%char) || (c =? 0x7f).

(** A key adds itself to what can be read, when there is room for it. *)
Definition raw_key (R : list Z) (c : Z) : list Z :=
  if (c =? 0) || (c =? C "U"%char) || negb (length R <? 128)%nat then R else R ++ [if c =? 13 then 10 else c].

(** The ring with one more byte, which can be read; and the ring after a key. *)
Definition raw_put (d : Z) (k : consst) : consst :=
  let e := u32 (cons_e k + 1) in set_cons_w e (set_cons_e e (set_cbuf (<[Z.to_nat (cons_e k mod INPUT_BUF_SIZE) := d]> (cbuf k)) k)).
Definition raw_cons (R : list Z) (c : Z) (k : consst) : consst :=
  if (c =? 0) || (c =? C "U"%char) || negb (erase_key c || (length R <? 128)%nat) then k else raw_put (if c =? 13 then 10 else c) k.

Lemma raw_push k R c : cons_rep k R [] -> (length R < 128)%nat -> cons_rep (raw_put c k) (R ++ [c]) [].
Proof. intros Hk Hl. exact (cons_commit _ R [c] (cons_push k R [] Hk c ltac:(simpl; lia))). Qed.

(** One more byte in a ring that is full. *)
Lemma raw_overrun k R c : cons_rep k R [] -> length R = 128%nat ->
  u32 (cons_w (raw_put c k) - cons_r (raw_put c k)) = 129 /\ cons_at (raw_put c k) (cons_r (raw_put c k)) = c.
Proof.
  intros Hk Hl. pose proof (cons_count _ _ _ Hk) as Hc. rewrite Hl in Hc. simpl in Hc. destruct (cr_ok _ _ _ Hk) as [Hlen Hr He _]. unfold rcount, wrap in Hc.
  assert (Hm : (cons_e k - cons_r k) mod 2 ^ 32 = 128) by exact Hc. split.
  - simpl. unfold wrap. rewrite Zminus_mod_idemp_l. replace (cons_e k + 1 - cons_r k) with (cons_e k - cons_r k + 1) by lia. rewrite <- Zplus_mod_idemp_l, Hm. done.
  - unfold cons_at. simpl. rewrite wrap_small by lia. unfold INPUT_BUF_SIZE in *. replace (cons_r k mod 128) with (cons_e k mod 128).
    + apply list_lookup_total_insert_eq. pose proof (Z.mod_pos_bound (cons_e k) 128 ltac:(lia)). rewrite Hlen. lia.
    + Z.to_euclidean_division_equations. lia.
Qed.

Section raw.
(** The state in the handler, as in cooked mode. *)
Variable a : kstate.
Hypothesis Hok : hart_ok a.
Hypothesis Hn : 0 < noff (cur a).
Hypothesis Hpl : plocks_free a.
Hypothesis Hps : length (k_procs a) = NPROC.

Definition raw_after (k : consst) (s1 : kstate) : Prop := exists ps, s1 = cst k (k_out a) (ulsr (k_uart a)) ps a /\ quiet (k_procs a) ps.

Lemma raw_same : raw_after (k_cons a) a.
Proof. clear Hok Hn Hpl Hps. exists (k_procs a). split; [by destruct a as [], k_uart|apply quiet_refl]. Qed.

Lemma raw_deliver d : wp (wakeup C_cons_r) (fun _ s1 => raw_after (raw_put d (k_cons a)) s1) (set_k_cons (raw_put d (k_cons a)) a).
Proof.
  replace (set_k_cons (raw_put d (k_cons a)) a) with (cst (raw_put d (k_cons a)) (k_out a) (ulsr (k_uart a)) (k_procs a) a) by (by destruct a as [], k_uart).
  apply (wake_cst a Hok Hn Hpl Hps), quiet_refl.
Qed.
End raw.

Lemma raw_intr s R c :
  rinv s R -> is_byte c -> c <> C "P"%char ->
  wp (consoleintr c) (fun _ s' => exists l ps, s' = cst (raw_cons R c (k_cons s)) (k_out s) l ps (settle s) /\ quiet (k_procs s) ps) s.
Proof.
  intros [Hok Hpl Hps Hf Hraw Hrep] Hc HP. unfold consoleintr, is_byte in *. apply wp_bind, wp_acquire; [done|done|]. set (a := acquired L_cons s).
  assert (Hoka : hart_ok a) by (by apply hart_ok_acquired). assert (Hna : 0 < noff (cur a)) by (by apply noff_acquired).
  assert (Hpla : plocks_free a) by (intros i; by apply lock_free_acquired).
  rewrite (proj2 (Z.eqb_neq c (C "P"%char)) HP). apply wp_bind. eapply (wp_mono _ (fun _ s1 => raw_after a (raw_cons R c (k_cons a)) s1)).
  - unfold raw_cons. destruct (c =? C "U"%char) eqn:EU.
    { unfold kill_line. apply wp_bind, wp_gets. cbn [while_fuel]. apply wp_bind, wp_bind, wp_gets. change (k_cons a) with (k_cons s). rewrite (cons_line_nil _ _ _ Hrep).
      rewrite bool_decide_true by done. simpl negb. simpl andb. apply wp_ret, wp_ret. rewrite orb_true_r. exact (raw_same a). }
    rewrite orb_false_r. change ((c =? C "H"%char) || (c =? 127)) with (erase_key c). destruct (erase_key c) eqn:EH.
    + assert (E0 : (c =? 0) = false /\ (c =? 13) = false) by (unfold erase_key, C, ch in EH; apply orb_true_iff in EH as [->%Z.eqb_eq| ->%Z.eqb_eq]; by vm_compute).
      destruct E0 as [-> ->]. apply wp_bind, wp_gets. change (k_cons a) with (k_cons s). rewrite (proj2 (Z.eqb_neq _ _) Hraw). apply wp_bind, wp_bind, wp_modify, wp_modify, wp_bind, wp_modify.
      pose proof (raw_deliver a Hoka Hna Hpla Hps c) as Hd. unfold raw_put in Hd |- *. simpl. simpl in Hd. rewrite (wrap_small 8 c) by lia. exact Hd.
    + apply wp_bind, wp_gets. change (k_cons a) with (k_cons s). rewrite (cons_room _ _ _ Hrep). simpl length. rewrite Nat.add_0_r.
      replace (Z.of_nat (length R) <? INPUT_BUF_SIZE) with (length R <? 128)%nat by (unfold INPUT_BUF_SIZE; destruct (Nat.ltb_spec (length R) 128), (Z.ltb_spec (Z.of_nat (length R)) 128); lia).
      simpl orb. replace (negb (c =? 0) && (length R <? 128)%nat) with (negb ((c =? 0) || negb (length R <? 128)%nat)) by (rewrite negb_orb, negb_involutive; done).
      destruct ((c =? 0) || negb (length R <? 128)%nat); simpl negb; unfold when; [apply wp_ret; exact (raw_same a)|]. cbv zeta. set (d := if c =? 13 then 10 else c).
      apply wp_bind, wp_bind, wp_modify, wp_modify, wp_bind, wp_gets. simpl k_cons. change (rawmode (set_cons_e ?x ?y)) with (rawmode y). simpl rawmode. rewrite (proj2 (Z.eqb_neq _ _) Hraw). simpl negb. cbv iota.
      apply wp_bind, wp_modify. pose proof (raw_deliver a Hoka Hna Hpla Hps d) as Hd. unfold raw_put in Hd |- *. simpl. simpl in Hd.
      rewrite (wrap_small 8 d) by (unfold d; destruct (c =? 13); lia). exact Hd.
  - intros [] s1 (ps & -> & Hq). unfold cst. apply wp_release; [hart_tac|hart_tac|exact (lock_held_acquired L_cons s)|]. autorewrite with kst. unfold a. rewrite released_acquired by done.
    by eexists _, ps.
Qed.

(** C36: In raw mode the console delivers keys.  Every byte typed, other than Control-P, can be read at once, a carriage return as a newline, and is not echoed; a NUL and Control-U, which finds no line
    to kill, are ignored, and when 128 bytes are waiting a key is dropped.  Delete and Control-H alone are not: with 128 bytes
    waiting each is put over the oldest unread byte, which is lost, and the ring claims to hold 129 bytes. *)
Theorem console_raw_key s R c :
  rinv s R -> is_byte c -> c <> C "P"%char ->
  wp (consoleintr c) (fun _ s' => k_out s' = k_out s /\
    if erase_key c && (length R =? 128)%nat
    then u32 (cons_w (k_cons s') - cons_r (k_cons s')) = INPUT_BUF_SIZE + 1 /\ cons_at (k_cons s') (cons_r (k_cons s')) = c
    else rinv s' (raw_key R c)) s.
Proof.
  intros Hinv Hc HP. eapply wp_mono; [by apply (raw_intr s R c)|]. destruct Hinv as [Hok Hpl Hps Hf Hraw Hrep]. intros [] s' (l & ps & -> & Hq). split; [done|].
  change (k_cons (cst ?k ?o l ps ?x)) with k. pose proof (cons_fit _ _ _ Hrep) as Hfit. simpl in Hfit. unfold raw_cons, raw_key.
  assert (HE : erase_key c = true -> (c =? 0) || (c =? C "U"%char) = false /\ (c =? 13) = false) by (unfold erase_key, C, ch; intros [->%Z.eqb_eq| ->%Z.eqb_eq]%orb_true_iff; by vm_compute).
  destruct (erase_key c) eqn:EH; simpl andb; [destruct (Nat.eqb_spec (length R) 128) as [Hfull|Hroom]|].
  - destruct (HE eq_refl) as [-> ->]. simpl. by apply (raw_overrun _ R).
  - destruct (HE eq_refl) as [-> ->]. rewrite (proj2 (Nat.ltb_lt _ _)) by lia. simpl. split; try done; [unfold cst; hart_tac|simpl; by rewrite (quiet_length _ _ Hq)|]. apply raw_push; [done|lia].
  - simpl orb. destruct ((c =? 0) || (c =? C "U"%char) || negb (length R <? 128)%nat) eqn:E; (split; try done); try (unfold cst; hart_tac); try (simpl; by rewrite (quiet_length _ _ Hq)).
    apply orb_false_iff in E as [_ E%negb_false_iff%Nat.ltb_lt]. by apply raw_push.
Qed.

(** A full ring, in which the oldest byte is an [a]. *)
Definition raw_full : consst := mkCons (97 :: replicate 127 98) 0 128 128 1.

Lemma console_raw_key_witness : wp (consoleintr 127) (fun _ s' => cons_at (k_cons s') (cons_r (k_cons s')) = 127) (set_k_cons raw_full boot_state).
Proof.
  eapply wp_mono; [apply (console_raw_key (set_k_cons raw_full boot_state) (97 :: replicate 127 98) 127)|].
  - split; [exact boot_hart_ok|exact boot_plocks|done|done|done|]. split; [by split|by vm_compute|done|done|done].
  - done.
  - done.
  - intros [] s' (_ & _ & H). exact H.
Defined.

(** ** Reading a line *)

(** What a read of [n] bytes takes from the input [R], and what it leaves; [None] when it
    has to wait for more.  [first] says that nothing has been read yet: a Control-D is
    consumed then, and otherwise kept for the next read. *)
Fixpoint take_line (first : bool) (n : nat) (R : list Z) : option (list Z * list Z) :=
  match n with
  | O => Some ([], R)
  | S n' =>
      match R with
      | [] => None
      | c :: R' =>
          if c =? C "D"%char then Some ([], if first then R' else R)
          else if c =? 10 then Some ([c], R')
          else (fun p => (c :: p.1, p.2)) <$> take_line false n' R'
      end
  end.

Lemma take_line_length b n R bs rest : take_line b n R = Some (bs, rest) -> (length bs <= n)%nat.
Proof.
  revert b R bs rest. induction n as [|n IH]; intros b R bs rest Hl; simpl in Hl; [by injection Hl as <- <-|].
  destruct R as [|c R]; [done|]. destruct (c =? C "D"%char); [injection Hl as <- <-; simpl; lia|].
  destruct (c =? 10); [injection Hl as <- <-; simpl; lia|].
  destruct (take_line false n R) as [[bs' r']|] eqn:E; [|done]. injection Hl as <- <-. apply IH in E. simpl. lia.
Qed.

Lemma cons_pop k c R L :
  cons_rep k (c :: R) L ->
  cons_rep (set_cons_r (u32 (cons_r k + 1)) k) R L /\ cons_at k (cons_r k) = c /\ (cons_r k =? cons_w k) = false /\
  u32 (u32 (cons_r k + 1) - 1) = cons_r k.
Proof.
  intros Hk. pose proof (cr_ok _ _ _ Hk) as Hok. pose proof (rok_r _ _ _ _ _ Hok) as Hr.
  assert (Hne : cons_r k <> cons_e k).
  { intros E. pose proof (cons_count _ _ _ Hk) as Hc.
    rewrite (proj2 (rcount_0 _ _ cring_n _ _ (rok_r _ _ _ _ _ Hok) (rok_w _ _ _ _ _ Hok)) E) in Hc. simpl in Hc. lia. }
  destruct (rqueue_pop _ _ cring_n cring_div _ _ _ Hok Hne) as [Hok' Hq].
  rewrite (cr_queue _ _ _ Hk) in Hq. simpl in Hq. injection Hq as Hc Hq. split_and!.
  - split; simpl; [exact Hok'|by symmetry|apply Hk| |apply Hk].
    pose proof (cr_ready _ _ _ Hk) as Hrd. simpl in Hrd. etransitivity; [apply (rcount_pop _ _ cring_n); lia|lia].
  - unfold cons_at. rewrite wrap_small by done. by rewrite Hc.
  - apply Z.eqb_neq. intros E. pose proof (cr_ready _ _ _ Hk) as Hrd.
    rewrite (proj2 (rcount_0 _ _ cring_n _ _ Hr (cr_w _ _ _ Hk)) E) in Hrd. simpl in Hrd. lia.
  - unfold wrap. rewrite Zminus_mod_idemp_l, Z.add_simpl_r. by apply Z.mod_small.
Qed.

Section reading.
Context `{Layout} `{Patience}.
Variables (s : kstate) (me : nat) (t : ptab) (L : list Z).
Hypothesis Hu : uproc s me t.
Hypothesis Hf : lock_free L_cons s.

Local Abbreviation a := (acquired L_cons s).
(** The states of the loop. *)
Definition rst (k : consst) (m : mem) : kstate := set_k_cons k (set_k_mem m a).

Lemma rst_uproc k m : pt_rep m t -> uproc (rst k m) me t.
Proof.
  intros Hm. apply uproc_set_cons, uproc_set_mem; [|done]. by apply uproc_acquired.
Qed.

Lemma settle_rst k m : settle (rst k m) = rst k m.
Proof. unfold rst. autorewrite with kst. by rewrite settle_acquired by apply Hu. Qed.

Lemma cons_wait_ready k m R c Q :
  cons_rep k (c :: R) L -> Q false (rst k m) -> wp cons_wait Q (rst k m).
Proof.
  intros Hk HQ. destruct (cons_pop _ _ _ _ Hk) as (_ & _ & Hne & _). unfold cons_wait. cbn [while_fuel].
  apply wp_bind, wp_bind, wp_gets. change (k_cons (rst k m)) with k. rewrite Hne. by apply wp_ret, wp_ret.
Qed.

Variables (N : nat) (dst : Z).
Hypothesis Hdst : 0 <= dst.
Hypothesis HN : Z.of_nat N < 2 ^ 31.
Hypothesis Hw : forall i, 0 <= i < Z.of_nat N -> writable t (dst + i) = true.

Lemma writable_below va : writable t va = true -> va < MAXVA.
Proof. unfold writable, uentry. by destruct (Z.ltb_spec va MAXVA). Qed.

(** [bs] has been delivered to the process, and [k] is the console then. *)
Definition delivered (bs : list Z) (k : consst) (s' : kstate) : Prop :=
  exists m, s' = rst k m /\ uwritten t (k_mem s) dst bs m.

Lemma read_loop R bs rest :
  cons_rep (k_cons s) R L -> take_line true N R = Some (bs, rest) ->
  wp (while_fuel OutOfFuel (S (Z.to_nat (Z.of_nat N))) (consoleread_round true (u32 (Z.of_nat N))) (Z.of_nat N, dst))
    (fun r s' => r = Some (Z.of_nat N - Z.of_nat (length bs)) /\ exists k, delivered bs k s' /\ cons_rep k rest L) a.
Proof.
  intros Hrep Hline.
  apply (wp_while OutOfFuel (fun '(n, va) s' => exists k bs1 bs2 R1, delivered bs1 k s' /\ cons_rep k R1 L /\
      bs = bs1 ++ bs2 /\ n = Z.of_nat N - Z.of_nat (length bs1) /\ (length bs1 <= N)%nat /\ va = dst + Z.of_nat (length bs1) /\
      take_line (bool_decide (bs1 = [])) (N - length bs1) R1 = Some (bs2, rest)) (fun '(n, _) => Z.to_nat n)).
  - exists (k_cons s), [], bs, R. split_and!; [|done|done|simpl; lia|simpl; lia|simpl; lia|simpl; by rewrite Nat.sub_0_r].
    exists (k_mem s). split; [unfold rst, acquired, pushed; by destruct s|]. apply uwritten_nil, Hu.
  - lia.
  - intros [n va] s' (k & bs1 & bs2 & R1 & (m & -> & Hm) & Hk & -> & -> & Hle & -> & Ht). unfold consoleread_round.
    destruct (Z.ltb_spec 0 (Z.of_nat N - Z.of_nat (length bs1))) as [Hpos|Hz]; simpl negb.
    2:{ apply wp_ret. replace (N - length bs1)%nat with 0%nat in Ht by lia. simpl in Ht. injection Ht as <- <-.
        rewrite app_nil_r. split; [done|]. exists k. split; [by exists m|done]. }
    destruct (N - length bs1)%nat as [|n'] eqn:En; [lia|]. simpl in Ht. destruct R1 as [|c R1]; [done|].
    destruct (cons_pop _ _ _ _ Hk) as (Hk' & Hc & _ & Hback). set (k' := set_cons_r _ k) in *.
    apply wp_bind. eapply cons_wait_ready; [done|]. apply wp_bind, wp_gets. change (k_cons (rst k m)) with k. cbv zeta. rewrite Hc.
    apply wp_bind, wp_modify. change (set_k_cons _ (rst k m)) with (rst k' m).
    destruct (c =? C "D"%char) eqn:ED.
    { injection Ht as <- <-. rewrite app_nil_r. rewrite !wrap_small by lia. apply wp_bind. destruct bs1 as [|x bs1].
      - rewrite (proj2 (Z.ltb_ge _ _)) by (simpl; lia). apply wp_ret, wp_ret. split; [done|].
        exists k'. split; [by exists m|done].
      - rewrite (proj2 (Z.ltb_lt _ _)) by (simpl; lia). apply wp_modify, wp_ret. split; [done|]. exists k. split; [|done].
        exists m. split; [|done]. unfold rst. simpl k_cons. change (cons_r k') with (u32 (cons_r k + 1)). rewrite Hback.
        by destruct k. }
    pose proof (Hw (Z.of_nat (length bs1)) ltac:(lia)) as Hwr. pose proof (writable_below _ Hwr) as Hbelow.
    apply wp_bind. eapply wp_mono; [apply (either_copyout_spec (rst k' m) me t); [apply rst_uproc, Hm|lia]|].
    intros r s' (j & m' & -> & Hj & Hm' & _ & Hr). rewrite settle_rst.
    destruct Hr as [[-> ->]|(_ & Hlt & Hno)]; [|exfalso; simpl in Hlt; replace j with 0%nat in Hno by lia; by rewrite Z.add_0_r, Hwr in Hno].
    change (k_mem (rst k' m)) with m in Hm'. change (set_k_mem m' (rst k' m)) with (rst k' m'). simpl take in Hm'. cbn [Z.eqb].
    pose proof (uwritten_app _ _ _ _ _ _ _ Hm Hm') as Hm2. assert (Hl2 : length (bs1 ++ [c]) = S (length bs1)) by (rewrite length_app; simpl; lia).
    destruct (c =? 10) eqn:E10.
    + injection Ht as <- <-. apply wp_ret. split; [rewrite Hl2; f_equal; lia|]. exists k'. split; [by exists m'|done].
    + destruct (take_line false n' R1) as [[bs3 rest']|] eqn:Ht'; [|done]. simpl in Ht. injection Ht as <- <-.
      apply wp_ret. split; [|lia]. exists k', (bs1 ++ [c]), bs3, R1.
      split_and!; [by exists m'|done|by rewrite <- app_assoc|rewrite Hl2; lia|rewrite Hl2; lia| |].
      * rewrite Hl2, wrap_small; [lia|]. rewrite MAXVA_pow in Hbelow. lia.
      * rewrite bool_decide_false by (by destruct bs1). rewrite Hl2. by replace (N - S (length bs1))%nat with n' by lia.
Qed.

(** C27: reading the console delivers one line.  When the input holds a line for the reader
    ([take_line]: up to and including the first newline, or up to a Control-D, or as many
    bytes as asked for) and the destination is memory the process may write, [consoleread] returns the number of its bytes without
    sleeping, exactly these bytes appear at the destination in user memory, and they, with
    a Control-D that ends an empty read, are what is gone from the input. *)
Theorem consoleread_delivers_line R bs rest :
  cons_rep (k_cons s) R L -> take_line true N R = Some (bs, rest) ->
  wp (consoleread true dst (Z.of_nat N)) (fun r s' => r = Z.of_nat (length bs) /\
    uwritten t (k_mem s) dst bs (k_mem s') /\ cons_rep (k_cons s') rest L /\ lock_free L_cons s' /\ uproc s' me t) s.
Proof.
  intros Hrep Hline. unfold consoleread. apply wp_bind, wp_acquire; [apply Hu|done|]. apply wp_bind.
  eapply wp_mono; [by eapply read_loop|]. intros r s1 (-> & k & (m & -> & Hm) & Hk).
  pose proof (rst_uproc k m (uw_rep _ _ _ _ _ Hm)) as Hu1. unfold rst in *.
  apply wp_bind, wp_release; [apply Hu1|hart_tac; apply Hu|exact (lock_held_acquired L_cons s)|].
  autorewrite with kst. rewrite released_acquired by (done || apply Hu). apply wp_ret.
  pose proof (take_line_length _ _ _ _ _ Hline) as Hlen.
  split_and!; [|exact Hm|exact Hk|hart_tac|].
  - rewrite !wrap_small by lia. rewrite swrap_small; lia.
  - apply uproc_set_cons, uproc_set_mem; [by apply uproc_settle|apply Hm].
Qed.
End reading.

Definition sample_ready : consst := mkCons (s2b "ls" ++ [10] ++ replicate 125 0) 0 3 3 0.

Lemma sample_ready_rep : cons_rep sample_ready (s2b "ls" ++ [10]) [].
Proof. split; [by split|by vm_compute..]. Qed.

Lemma sample_reader : @uproc sample_layout (set_k_cons sample_ready SampleUser.state) 0 Sample.mapped_pt.
Proof. exact (uproc_set_cons _ _ _ _ SampleUser.user). Qed.

Lemma consoleread_delivers_line_witness :
  let s := set_k_cons sample_ready SampleUser.state in
  wp (@consoleread one_round true 16 100) (fun r s' => r = 3 /\
    @uwritten sample_layout Sample.mapped_pt (k_mem s) 16 (s2b "ls" ++ [10]) (k_mem s')) s.
Proof.
  eapply wp_mono; [apply (@consoleread_delivers_line sample_layout one_round (set_k_cons sample_ready SampleUser.state) 0
    Sample.mapped_pt [] sample_reader eq_refl
    100 16 ltac:(lia) ltac:(done) ltac:(intros i Hi; apply SampleUser.writable_page; unfold PGSIZE; lia)
    (s2b "ls" ++ [10]) (s2b "ls" ++ [10]) [] sample_ready_rep); by vm_compute|].
  intros r s' (-> & Hw & _). by split.
Defined.

(** ** Writing to the console *)

Section writing.
Context `{Layout} `{Patience}.
Variables (me : nat) (t : ptab).

(** The process may write, and the device is never busy. *)
Record wready (s : kstate) : Prop := {
  wr_user : uproc s me t;
  wr_lock : lock_free L_uart s;
  wr_pan : panicked (k_pr s) = false;
  wr_ring : ring_ok (k_uart s);
  wr_empty : pending (k_uart s) = [];
  wr_idle : ulsr (k_uart s) = []
}.

Lemma uartputc_ready s c :
  wready s -> wp (uartputc c) (fun _ s' => wready s' /\ k_out s' = k_out s ++ [u8 c] /\ k_mem s' = k_mem s) s.
Proof.
  intros [Hu Hf Hp Hr He Hi]. eapply wp_mono.
  { apply uartputc_spec; [apply Hu|done|apply Hu|apply Hu|done|done|]. rewrite He. simpl. unfold UART_TX_BUF_SIZE. lia. }
  intros [] s' (u & o & ps & -> & Hq & Hr' & Hst & _ & Hd). destruct (Hd Hi) as [He' Hi'].
  unfold stream in Hst. rewrite He, He', !app_nil_r in Hst. split_and!; [|exact Hst|done]. unfold utx. split; try done.
  apply uproc_set_procs; [|exact Hq]. by apply uproc_set_out, uproc_set_uart, uproc_settle.
Qed.

Variables (s : kstate) (N : nat) (src : Z).
Hypothesis Hs : wready s.
Hypothesis Hsrc : 0 <= src /\ src + Z.of_nat N <= 2 ^ 64.

(** writing to the console sends the user's bytes.  When the device keeps up,
    [consolewrite] returns without sleeping, and what it adds to the output is the
    longest prefix of the user's buffer that is mapped, in order; it returns the number of
    these bytes and leaves memory alone. *)
Theorem consolewrite_sends :
  wp (consolewrite true src (Z.of_nat N)) (fun r s' => exists bs, r = Z.of_nat (length bs) /\ (length bs <= N)%nat /\
    useen t (k_mem s) src bs /\ (length bs = N \/ uview (k_mem s) t (src + Z.of_nat (length bs)) = None) /\
    k_out s' = k_out s ++ (wrap 8 <$> bs) /\ k_mem s' = k_mem s /\ wready s') s.
Proof.
  unfold consolewrite. apply (wp_while OutOfFuel (fun i s' => exists bs, i = Z.of_nat (length bs) /\ (length bs <= N)%nat /\
    useen t (k_mem s) src bs /\ k_out s' = k_out s ++ (wrap 8 <$> bs) /\ k_mem s' = k_mem s /\ wready s')
    (fun i => Z.to_nat (Z.of_nat N - i))).
  - exists []. split_and!; [done|simpl; lia|apply useen_nil|by rewrite app_nil_r|done|done].
  - lia.
  - intros i s1 (bs & -> & Hle & Hseen & Ho & Hm & Hr). destruct (Z.ltb_spec (Z.of_nat (length bs)) (Z.of_nat N)) as [Hlt|Hge].
    2:{ apply wp_ret. exists bs. split_and!; try done. left. lia. }
    rewrite wrap_small by lia. apply wp_bind.
    eapply wp_mono; [apply (either_copyin_spec s1 me t); [apply Hr|lia]|].
    intros [r cs] s2 (-> & Hcs & Hres). rewrite Hm in Hcs, Hres. destruct Hres as [[-> Hl]|(-> & Hl & Hno)]; cbn [Z.eqb].
    + destruct cs as [|c [|]]; [done| |done]. change ([c] !!! 0%nat) with c. apply wp_bind.
      assert (Hr1 : wready (settle s1)) by (destruct Hr; split; try done; by apply uproc_settle).
      eapply wp_mono; [by apply uartputc_ready|]. intros [] s3 (Hr3 & Ho3 & Hm3). apply wp_ret. split; [|lia].
      exists (bs ++ [c]). rewrite length_app. simpl. split_and!; [lia|lia|by apply useen_app| |by rewrite Hm3|done].
      rewrite Ho3. change (k_out (settle s1)) with (k_out s1). by rewrite Ho, fmap_app, app_assoc.
    + destruct cs; [|simpl in Hl; lia]. simpl in Hno. rewrite Z.add_0_r in Hno. apply wp_ret.
      exists bs. split_and!; try done; [by right|]. destruct Hr; split; try done. by apply uproc_settle.
Qed.
End writing.

Lemma sample_writer : @wready sample_layout 0 Sample.mapped_pt SampleUser.state.
Proof. split; [exact SampleUser.user|done|done|exact boot_ring|by vm_compute|done]. Qed.

Lemma consolewrite_sends_witness :
  wp (@consolewrite one_round true 16 2) (fun r s' => exists bs, r = Z.of_nat (length bs) /\
    (length bs = 2%nat \/ uview (k_mem SampleUser.state) Sample.mapped_pt (16 + Z.of_nat (length bs)) = None) /\
    k_out s' = (wrap 8 <$> bs)) SampleUser.state.
Proof.
  eapply wp_mono; [apply (@consolewrite_sends sample_layout one_round 0 Sample.mapped_pt SampleUser.state 2 16 sample_writer ltac:(lia))|].
  intros r s' (bs & -> & _ & _ & Hd & Ho & _). by exists bs.
Defined.
