(* ===== verification/Block.v ===== *)
(** Fields of the byte arrays the file system keeps on disk.

    A disk block, a buffer's [data] and a file's contents are lists of bytes; a C struct
    laid over such an array is read and written with [rd] and [wr], the integers being
    little-endian. *)
From S2P Require Import Prelude Machine.
From Stdlib Require Import ZArith Lia.
From stdpp Require Import base strings numbers gmap list.
Local Open Scope Z_scope.

(** [n] bytes at offset [off], and the array with [xs] written at offset [off]. *)
Definition sub (off n : nat) (bs : list Z) : list Z := take n (drop off bs).
Definition splice (off : nat) (xs bs : list Z) : list Z :=
  take off bs ++ xs ++ drop (off + length xs) bs.

(** Unsigned integers of [n] bytes. *)
Definition rd (n off : nat) (bs : list Z) : Z := le_val (sub off n bs).
Definition wr (n off : nat) (v : Z) (bs : list Z) : list Z := splice off (le_bytes n v) bs.

Abbreviation rd32 := (rd 4).
Abbreviation rd16 := (rd 2).
Abbreviation wr32 := (wr 4).
Abbreviation wr16 := (wr 2).

Section splices.
Implicit Types bs xs : list Z.

Lemma length_sub off n bs : (off + n <= length bs)%nat -> length (sub off n bs) = n.
Proof. intros H. unfold sub. rewrite length_take, length_drop. lia. Qed.

Lemma length_splice off xs bs :
  (off + length xs <= length bs)%nat -> length (splice off xs bs) = length bs.
Proof. intros H. unfold splice. rewrite !length_app, length_take, length_drop. lia. Qed.

Lemma splice_lookup off xs bs i :
  (off + length xs <= length bs)%nat ->
  splice off xs bs !! i =
    if decide (off <= i < off + length xs)%nat then xs !! (i - off)%nat else bs !! i.
Proof.
  intros H. unfold splice.
  assert (Hto : length (take off bs) = off) by (rewrite length_take; lia).
  destruct (decide (i < off)%nat).
  - rewrite lookup_app_l by lia. rewrite decide_False by lia. by rewrite lookup_take_lt by lia.
  - rewrite lookup_app_r, Hto by lia. case_decide.
    + by rewrite lookup_app_l by lia.
    + rewrite lookup_app_r by lia. rewrite lookup_drop. f_equal. lia.
Qed.

Lemma sub_lookup off n bs i : (i < n)%nat -> sub off n bs !! i = bs !! (off + i)%nat.
Proof. intros H. unfold sub. by rewrite lookup_take_lt, lookup_drop. Qed.

Lemma sub_splice_eq off xs bs :
  (off + length xs <= length bs)%nat -> sub off (length xs) (splice off xs bs) = xs.
Proof.
  intros H. unfold sub, splice. rewrite drop_app_length' by (rewrite length_take; lia).
  by rewrite take_app_length.
Qed.

Lemma sub_splice_ne off xs bs off' n :
  (off + length xs <= length bs)%nat -> (off' + n <= off \/ off + length xs <= off')%nat ->
  sub off' n (splice off xs bs) = sub off' n bs.
Proof.
  intros H Hd. apply list_eq. intros i. destruct (decide (i < n)%nat).
  - rewrite !sub_lookup, splice_lookup by done. by rewrite decide_False by lia.
  - unfold sub. by rewrite !lookup_take_ge by lia.
Qed.

Lemma length_wr n off v bs : (off + n <= length bs)%nat -> length (wr n off v bs) = length bs.
Proof. intros H. apply length_splice. by rewrite length_le_bytes. Qed.

Lemma rd_wr_eq n off v bs :
  (off + n <= length bs)%nat -> rd n off (wr n off v bs) = v mod 2 ^ (8 * Z.of_nat n).
Proof.
  intros H. unfold rd, wr. pose proof (sub_splice_eq off (le_bytes n v) bs) as He.
  rewrite length_le_bytes in He. rewrite He by done. apply le_val_le_bytes.
Qed.

Lemma rd_wr_ne n off v bs n' off' :
  (off + n <= length bs)%nat -> (off' + n' <= off \/ off + n <= off')%nat ->
  rd n' off' (wr n off v bs) = rd n' off' bs.
Proof. intros H Hd. unfold rd, wr. by rewrite sub_splice_ne by (rewrite length_le_bytes; done). Qed.

Lemma rd_range n off bs :
  Forall is_byte bs -> 0 <= rd n off bs < 2 ^ (8 * Z.of_nat n).
Proof.
  intros Hb. unfold rd. pose proof (le_val_range (sub off n bs)) as Hr.
  assert (Hf : Forall is_byte (sub off n bs)) by (by apply Forall_take, Forall_drop).
  specialize (Hr Hf). assert (Hl : (length (sub off n bs) <= n)%nat) by (unfold sub; rewrite length_take; lia).
  assert (Hp : 2 ^ (8 * Z.of_nat (length (sub off n bs))) <= 2 ^ (8 * Z.of_nat n)) by (apply Z.pow_le_mono_r; lia).
  lia.
Qed.

Lemma wr_is_byte n off v bs : Forall is_byte bs -> Forall is_byte (wr n off v bs).
Proof.
  intros Hb. unfold wr, splice. apply Forall_app. split; [by apply Forall_take|].
  apply Forall_app. split; [apply le_bytes_is_byte|by apply Forall_drop].
Qed.

(** *** Structures written as a whole *)

Lemma rd_splice n o j xs y : (o + length xs <= length y)%nat -> (j + n <= length xs)%nat -> rd n (o + j) (splice o xs y) = rd n j xs.
Proof.
  intros Hl Hj. unfold rd. f_equal. apply list_eq. intros k. destruct (decide (k < n)%nat) as [Hk|Hk].
  - rewrite !sub_lookup, splice_lookup by done. rewrite decide_True by lia. f_equal. lia.
  - unfold sub. by rewrite !lookup_take_ge by lia.
Qed.

Lemma rd_app n j (xs ys : list Z) : (length xs <= j)%nat -> rd n j (xs ++ ys) = rd n (j - length xs) ys.
Proof. intros Hj. unfold rd, sub. by rewrite drop_app_ge. Qed.

Lemma rd_skip n k v j (ys : list Z) : rd n (k + j) (le_bytes k v ++ ys) = rd n j ys.
Proof. rewrite rd_app by (rewrite length_le_bytes; lia). rewrite length_le_bytes. f_equal. lia. Qed.

Lemma rd_here n v (ys : list Z) : rd n 0 (le_bytes n v ++ ys) = v mod 2 ^ (8 * Z.of_nat n).
Proof. unfold rd, sub. rewrite drop_0. rewrite <- (length_le_bytes n v) at 1. rewrite take_app_length. apply le_val_le_bytes. Qed.

Lemma rd_addrs (l : list Z) k : (k < length l)%nat -> rd 4 (4 * k) (mjoin (le_bytes 4 <$> l)) = (l !!! k) mod 2 ^ 32.
Proof.
  revert k. induction l as [|a l IH]; intros k Hk; simpl in Hk; [lia|]. rewrite fmap_cons. change (mjoin (?x :: ?y)) with (x ++ mjoin y). destruct k as [|k].
  - rewrite Nat.mul_0_r. apply rd_here.
  - rewrite rd_app by (rewrite length_le_bytes; lia). rewrite length_le_bytes. replace (4 * S k - 4)%nat with (4 * k)%nat by lia. apply IH. lia.
Qed.

(** A [short]. *)
Definition short (x : Z) : Prop := - 2 ^ 15 <= x < 2 ^ 15.

Lemma s16_mod x : short x -> s16 (x mod 2 ^ 16) = x.
Proof.
  intros Hx. rewrite <- (swrap_small 16 x) at 2 by (unfold short in Hx; simpl; lia). unfold swrap, wrap. by rewrite Zmod_mod.
Qed.

Lemma s16_short x : short (s16 x).
Proof. unfold short. pose proof (swrap_range 16 x ltac:(lia)) as Hr. simpl in Hr. lia. Qed.

Lemma splice_app o xs ys bs :
  (o + length xs + length ys <= length bs)%nat -> splice (o + length xs) ys (splice o xs bs) = splice o (xs ++ ys) bs.
Proof.
  intros Hl. apply list_eq. intros k. rewrite !splice_lookup by (rewrite ?length_app, ?length_splice by lia; lia). rewrite length_app.
  repeat case_decide; try lia; try done.
  - rewrite lookup_app_r by lia. f_equal. lia.
  - by rewrite lookup_app_l by lia.
Qed.

End splices.
#[export] Hint Resolve wr_is_byte : xv6.
