(* ===== verification/Bio.v ===== *)
(** The buffer cache, [kernel/bio.c].

    [k_bufs] is the array [bcache.buf] followed by [bcache.head]; the two links of a
    buffer are indices into it.  [disk_rw] is what the cache asks of the disk driver:
    the transfer of one block, complete when the call returns. *)
From S2P Require Import Prelude Machine Riscv State Spinlock KString Kalloc Vm Sched.
From Stdlib Require Import ZArith Lia.
From stdpp Require Import base strings numbers gmap list.
Local Open Scope Z_scope.
Local Open Scope m_scope.

Definition get_buf (i : nat) : K buf := gets (fun s => k_bufs s !!! i).
Definition upd_buf (i : nat) (f : buf -> buf) : K unit :=
  modify (fun s => set_k_bufs (alter f i (k_bufs s)) s).

(** [bcache.head]. *)
Definition bhead : nat := NBUF.

(** The contents of a disk block. *)
Definition dblock (d : diskst) (bn : Z) : list Z := default (replicate BSIZE 0) (dblocks d !! bn).

(** Transfer a buffer to its block, or its block to the buffer.  [dtrace] records
    the writes in the order the disk performs them. *)
Definition disk_rw (b : nat) (write : bool) : K unit :=
  bb <- get_buf b ;;
  if write then
    modify (fun s => set_k_disk (mkDisk (<[bblockno bb := bdata bb]> (dblocks (k_disk s)))
      (dtrace (k_disk s) ++ [(bblockno bb, bdata bb)])) s)
  else
    d <- gets k_disk ;;
    upd_buf b (set_bdata (dblock d (bblockno bb))).

Definition binit : K unit :=
  initlock L_bcache ;;
  upd_buf bhead (set_bprev bhead) ;;
  upd_buf bhead (set_bnext bhead) ;;
  for_each (seq 0 NBUF) (fun b =>
    h <- get_buf bhead ;;
    upd_buf b (set_bnext (bnext h)) ;;
    upd_buf b (set_bprev bhead) ;;
    initsleeplock (SL_buf b) ;;
    h <- get_buf bhead ;;
    upd_buf (bnext h) (set_bprev b) ;;
    upd_buf bhead (set_bnext b)).

Section bio.
Context `{Patience}.

(** The two loops follow the links round the list, at most [NBUF] buffers and the
    head. *)
Definition bget (dev blockno : Z) : K nat :=
  acquire L_bcache ;;
  h <- get_buf bhead ;;
  r <- while_fuel OutOfFuel (S NBUF) (fun b =>
    if (b =? bhead)%nat then ret (inr None) else
    bb <- get_buf b ;;
    if (bdev bb =? dev) && (bblockno bb =? blockno) then
      upd_buf b (fun bb => set_brefcnt (u32 (brefcnt bb + 1)) bb) ;;
      release L_bcache ;;
      acquiresleep (SL_buf b) ;;
      ret (inr (Some b))
    else ret (inl (bnext bb))) (bnext h) ;;
  match r with
  | Some b => ret b
  | None =>
      h <- get_buf bhead ;;
      while_fuel OutOfFuel (S NBUF) (fun b =>
        if (b =? bhead)%nat then panic "bget: no buffers" else
        bb <- get_buf b ;;
        if brefcnt bb =? 0 then
          upd_buf b (set_bdev dev) ;;
          upd_buf b (set_bblockno blockno) ;;
          upd_buf b (set_bvalid false) ;;
          upd_buf b (set_brefcnt 1) ;;
          release L_bcache ;;
          acquiresleep (SL_buf b) ;;
          ret (inr b)
        else ret (inl (bprev bb))) (bprev h)
  end.

Definition bread (dev blockno : Z) : K nat :=
  b <- bget dev blockno ;;
  bb <- get_buf b ;;
  when (negb (bvalid bb)) (disk_rw b false ;; upd_buf b (set_bvalid true)) ;;
  ret b.
End bio.

Definition bwrite (b : nat) : K unit :=
  h <- holdingsleep (SL_buf b) ;;
  if negb h then panic "bwrite" else
  disk_rw b true.

Definition brelse (b : nat) : K unit :=
  h <- holdingsleep (SL_buf b) ;;
  if negb h then panic "brelse" else
  releasesleep (SL_buf b) ;;
  acquire L_bcache ;;
  upd_buf b (fun bb => set_brefcnt (u32 (brefcnt bb - 1)) bb) ;;
  bb <- get_buf b ;;
  when (brefcnt bb =? 0)
    (bb <- get_buf b ;;
     upd_buf (bnext bb) (set_bprev (bprev bb)) ;;
     bb <- get_buf b ;;
     upd_buf (bprev bb) (set_bnext (bnext bb)) ;;
     h <- get_buf bhead ;;
     upd_buf b (set_bnext (bnext h)) ;;
     upd_buf b (set_bprev bhead) ;;
     h <- get_buf bhead ;;
     upd_buf (bnext h) (set_bprev b) ;;
     upd_buf bhead (set_bnext b)) ;;
  release L_bcache.

Definition bpin (b : nat) : K unit :=
  acquire L_bcache ;;
  upd_buf b (fun bb => set_brefcnt (u32 (brefcnt bb + 1)) bb) ;;
  release L_bcache.

Definition bunpin (b : nat) : K unit :=
  acquire L_bcache ;;
  upd_buf b (fun bb => set_brefcnt (u32 (brefcnt bb - 1)) bb) ;;
  release L_bcache.

(** ** The doubly-linked list

    [seg N P a l z]: following [N] from [a] one meets the elements of [l] and then
    [z], and following [P] from [z] one comes back the same way. *)
Fixpoint seg (N P : nat -> nat) (a : nat) (l : list nat) (z : nat) : Prop :=
  match l with
  | [] => N a = z /\ P z = a
  | x :: l' => N a = x /\ P x = a /\ seg N P x l' z
  end.

Definition fupd (f : nat -> nat) (x v : nat) : nat -> nat := fun y => if decide (x = y) then v else f y.

Lemma fupd_eq f x v : fupd f x v x = v.
Proof. unfold fupd. by rewrite decide_True. Qed.
Lemma fupd_ne f x v y : x <> y -> fupd f x v y = f y.
Proof. intros Hne. unfold fupd. by rewrite decide_False. Qed.

Lemma seg_app N P a l1 b l2 z : seg N P a (l1 ++ b :: l2) z <-> seg N P a l1 b /\ seg N P b l2 z.
Proof. revert a. induction l1 as [|x l1 IH]; intros a; simpl; [tauto|]. rewrite IH. tauto. Qed.

Lemma seg_ext N P N' P' a l z :
  (forall x, x ∈ a :: l -> N' x = N x) -> (forall x, x ∈ l ++ [z] -> P' x = P x) ->
  seg N P a l z -> seg N' P' a l z.
Proof.
  revert a. induction l as [|x l IH]; intros a HN HP; simpl.
  - rewrite HN, HP by set_solver. done.
  - rewrite HN, HP by set_solver. intros (? & ? & ?). split_and!; [done..|].
    apply IH; [intros; apply HN|intros; apply HP|done]; set_solver.
Qed.

Lemma fupd_ext f g x v y : (forall z, f z = g z) -> fupd f x v y = fupd g x v y.
Proof. intros Hfg. unfold fupd. by case_decide. Qed.

Section lists.
Variables N P : nat -> nat.

(** Taking an element out. *)
Lemma seg_unlink h l1 b l2 :
  NoDup (h :: l1 ++ b :: l2) -> seg N P h (l1 ++ b :: l2) h ->
  seg (fupd N (P b) (N b)) (fupd P (N b) (P b)) h (l1 ++ l2) h.
Proof.
  intros Hnd Hs. apply seg_app in Hs as [Hs1 Hs2].
  apply NoDup_cons in Hnd as [Hh Hnd]. apply NoDup_app in Hnd as (Hnd1 & Hd & Hnd2).
  apply NoDup_cons in Hnd2 as [Hb Hnd2].
  assert (Hright : forall a, a ∉ l2 -> a <> b -> a ∈ h :: l1 -> P b = a -> seg (fupd N a (N b)) (fupd P (N b) a) a l2 h).
  { intros a Ha Hab Hin HPb. destruct l2 as [|n l2]; simpl in Hs2 |- *.
    - destruct Hs2 as [-> HPh]. by rewrite !fupd_eq.
    - destruct Hs2 as (-> & HPn & Hs2). rewrite !fupd_eq. split_and!; [done..|].
      apply NoDup_cons in Hnd2 as [Hn _].
      eapply seg_ext; [| |exact Hs2]; intros x Hx; apply fupd_ne; intros <-.
      + done.
      + apply elem_of_app in Hx as [Hx| ->%list_elem_of_singleton]; [done|]. apply Hh. set_solver. }
  destruct l1 as [|p l1 _] using rev_ind.
  - simpl in Hs1. destruct Hs1 as [HNh HPb]. rewrite HPb. apply Hright; [set_solver..|done].
  - apply seg_app in Hs1 as [Hs1 [HNp HPb]]. rewrite HPb, <- app_assoc. simpl. apply seg_app. split.
    + eapply seg_ext; [| |exact Hs1]; intros x Hx; apply fupd_ne; intros <-.
      * apply elem_of_cons in Hx as [->|Hx]; [set_solver|]. apply NoDup_app in Hnd1 as (_ & Hd1 & _). set_solver.
      * assert (HN : N b ∈ l2 ++ [h]) by (destruct l2; simpl in Hs2; destruct Hs2 as [-> _]; set_solver).
        apply elem_of_app in HN as [HN|HN%list_elem_of_singleton]; [set_solver|]. apply Hh. rewrite HN in Hx. set_solver.
    + apply Hright; [set_solver|intros ->; set_solver|set_solver|done].
Qed.

(** Putting an element first. *)
Lemma seg_push h b l :
  NoDup (h :: l) -> b <> h -> b ∉ l -> seg N P h l h ->
  seg (fupd (fupd N b (N h)) h b) (fupd (fupd P b h) (N h) b) h (b :: l) h.
Proof.
  intros Hnd Hbh Hbl Hs. apply NoDup_cons in Hnd as [Hh Hnd].
  assert (HNb : N h <> b) by (destruct l; simpl in Hs; destruct Hs as [-> _]; set_solver).
  simpl. rewrite fupd_eq, (fupd_ne _ (N h)), fupd_eq by done. split_and!; [done..|].
  destruct l as [|x l]; simpl in Hs |- *.
  - destruct Hs as [-> HP]. rewrite (fupd_ne _ h b b), !fupd_eq by done. done.
  - destruct Hs as (-> & HP & Hs). rewrite (fupd_ne _ h b b), !fupd_eq by done. split_and!; [done..|].
    eapply seg_ext; [| |exact Hs]; intros y Hy.
    + rewrite !fupd_ne; [done|set_solver|set_solver].
    + apply NoDup_cons in Hnd as [Hx _]. rewrite !fupd_ne; [done| |].
      * intros <-. apply elem_of_app in Hy as [?| ->%list_elem_of_singleton]; set_solver.
      * intros <-. apply elem_of_app in Hy as [?| ->%list_elem_of_singleton]; set_solver.
Qed.
End lists.

(** *** Walking along links *)
Fixpoint path (nx : nat -> nat) (a : nat) (l : list nat) (b : nat) : Prop :=
  match l with
  | [] => a = b
  | x :: l' => a = x /\ path nx (nx x) l' b
  end.

Lemma path_app nx a l1 b l2 c : path nx a l1 b -> path nx b l2 c -> path nx a (l1 ++ l2) c.
Proof.
  revert a. induction l1 as [|x l1 IH]; intros a; simpl; [by intros ->|]. intros [-> H1] H2. split; [done|auto].
Qed.

Lemma seg_path_next N P a l z : seg N P a l z -> path N (N a) l z.
Proof. revert a. induction l as [|x l IH]; intros a; simpl; [tauto|]. intros (-> & _ & Hs). auto. Qed.

Lemma seg_path_prev N P a l z : seg N P a l z -> path P (P z) (rev l) a.
Proof.
  revert a. induction l as [|x l IH]; intros a; simpl; [tauto|]. intros (_ & HP & Hs).
  eapply path_app; [by apply IH|]. simpl. by rewrite HP.
Qed.

Lemma scan_run {E S B} (oof : E) (body : nat -> M E S (nat + B)) (nx : nat -> nat) s a l b r s' n :
  path nx a l b -> (forall x, x ∈ l -> body x s = Ok (inl (nx x)) s) -> body b s = Ok (inr r) s' ->
  (length l < n)%nat -> while_fuel oof n body a s = Ok r s'.
Proof.
  revert a n. induction l as [|x l IH]; intros a n Hp Hb Hlast Hn; destruct n as [|n]; simpl in *; try lia.
  - subst. unfold bind. by rewrite Hlast.
  - destruct Hp as [-> Hp]. unfold bind. rewrite Hb by set_solver. simpl.
    apply IH; [done|intros; apply Hb; set_solver|done|lia].
Qed.

(** ** The list of buffers *)
Definition nxt (bs : list buf) (x : nat) : nat := bnext (bs !!! x).
Definition prv (bs : list buf) (x : nat) : nat := bprev (bs !!! x).

Record lru (bs : list buf) (ord : list nat) : Prop := {
  lru_length : length bs = S NBUF;
  lru_seg : seg (nxt bs) (prv bs) bhead ord bhead;
  lru_perm : ord ≡ₚ seq 0 NBUF
}.

Lemma lru_elem bs ord b : lru bs ord -> (b ∈ ord <-> (b < NBUF)%nat).
Proof. intros [_ _ Hp]. rewrite Hp, elem_of_seq. lia. Qed.

Lemma lru_nodup bs ord : lru bs ord -> NoDup (bhead :: ord).
Proof.
  intros Hl. constructor; [rewrite (lru_elem _ _ _ Hl); unfold bhead; lia|].
  rewrite (lru_perm _ _ Hl). apply NoDup_seq.
Qed.

Lemma lru_length_ord bs ord : lru bs ord -> length ord = NBUF.
Proof. intros [_ _ Hp]. by rewrite Hp, length_seq. Qed.

Lemma alter_total {A} `{Inhabited A} (f : A -> A) i j (l : list A) :
  (i < length l)%nat -> alter f i l !!! j = if decide (i = j) then f (l !!! j) else l !!! j.
Proof.
  intros Hi. case_decide as Hd.
  - subst. by apply list_lookup_total_alter_eq.
  - rewrite !list_lookup_total_alt. by rewrite list_lookup_alter_ne.
Qed.

(** A change that leaves the links alone. *)
Lemma lru_alter bs ord b f :
  (forall x, bnext (f x) = bnext x) -> (forall x, bprev (f x) = bprev x) -> lru bs ord -> lru (alter f b bs) ord.
Proof.
  intros Hn Hp [Hlen Hs Hperm]. split; [by rewrite length_alter| |done].
  destruct (decide (b < length bs)%nat) as [Hb|Hb].
  - eapply seg_ext; [| |exact Hs]; intros x _; [unfold nxt|unfold prv]; rewrite alter_total by done;
      case_decide; rewrite ?Hn, ?Hp; done.
  - replace (alter f b bs) with bs; [done|]. apply list_eq. intros j. destruct (decide (b = j)) as [->|].
    + rewrite list_lookup_alter_eq. by rewrite lookup_ge_None_2 by lia.
    + by rewrite list_lookup_alter_ne.
Qed.

(** What the pointer updates of [brelse] do to the buffers. *)
Definition move_front (b : nat) (bs : list buf) : list buf :=
  let bs1 := alter (set_bprev (bprev (bs !!! b))) (bnext (bs !!! b)) bs in
  let bs2 := alter (set_bnext (bnext (bs1 !!! b))) (bprev (bs1 !!! b)) bs1 in
  let bs3 := alter (set_bnext (bnext (bs2 !!! bhead))) b bs2 in
  let bs4 := alter (set_bprev bhead) b bs3 in
  let bs5 := alter (set_bprev b) (bnext (bs4 !!! bhead)) bs4 in
  alter (set_bnext b) bhead bs5.

Lemma nxt_alter_next bs x v y : (x < length bs)%nat -> nxt (alter (set_bnext v) x bs) y = fupd (nxt bs) x v y.
Proof. intros Hx. unfold nxt, fupd. rewrite alter_total by done. by case_decide. Qed.
Lemma nxt_alter_prev bs x v y : (x < length bs)%nat -> nxt (alter (set_bprev v) x bs) y = nxt bs y.
Proof. intros Hx. unfold nxt. rewrite alter_total by done. by case_decide. Qed.
Lemma prv_alter_prev bs x v y : (x < length bs)%nat -> prv (alter (set_bprev v) x bs) y = fupd (prv bs) x v y.
Proof. intros Hx. unfold prv, fupd. rewrite alter_total by done. by case_decide. Qed.
Lemma prv_alter_next bs x v y : (x < length bs)%nat -> prv (alter (set_bnext v) x bs) y = prv bs y.
Proof. intros Hx. unfold prv. rewrite alter_total by done. by case_decide. Qed.

Lemma seg_bounds N P a l z : seg N P a l z -> forall x, x ∈ a :: l -> N x ∈ l ++ [z].
Proof.
  revert a. induction l as [|y l IH]; intros a; simpl.
  - intros [HN _] x ->%list_elem_of_singleton. set_solver.
  - intros (HN & _ & Hs) x Hx. apply elem_of_cons in Hx as [->|Hx]; [set_solver|].
    specialize (IH y Hs x Hx). set_solver.
Qed.

Lemma seg_bounds_prev N P a l z : seg N P a l z -> forall x, x ∈ l ++ [z] -> P x ∈ a :: l.
Proof.
  revert a. induction l as [|y l IH]; intros a; simpl.
  - intros [_ HP] x ->%list_elem_of_singleton. set_solver.
  - intros (_ & HP & Hs) x Hx. apply elem_of_cons in Hx as [->|Hx]; [set_solver|].
    specialize (IH y Hs x Hx). set_solver.
Qed.

Section front.
Variables (bs : list buf) (l1 : list nat) (b : nat) (l2 : list nat).
Hypothesis Hl : lru bs (l1 ++ b :: l2).

Local Abbreviation N1 := (fupd (nxt bs) (prv bs b) (nxt bs b)).
Local Abbreviation P1 := (fupd (prv bs) (nxt bs b) (prv bs b)).

Lemma front_lt x : x ∈ (l1 ++ b :: l2) ++ [bhead] -> (x < length bs)%nat.
Proof.
  rewrite (lru_length _ _ Hl). intros [Hx|Hx%list_elem_of_singleton]%elem_of_app.
  - apply (lru_elem _ _ _ Hl) in Hx. lia.
  - unfold bhead in Hx. lia.
Qed.

Lemma front_nodup : NoDup (b :: bhead :: l1 ++ l2).
Proof.
  pose proof (lru_nodup _ _ Hl) as Hnd. assert (Hp : bhead :: l1 ++ b :: l2 ≡ₚ b :: bhead :: l1 ++ l2).
  { rewrite <- Permutation_middle. apply perm_swap. }
  by rewrite <- Hp.
Qed.

Lemma front_next : nxt bs b ∈ l2 ++ [bhead].
Proof. pose proof (lru_seg _ _ Hl) as Hs. apply seg_app in Hs as [_ Hs]. eapply seg_bounds; [exact Hs|set_solver]. Qed.

Lemma front_next_ne : nxt bs b <> b.
Proof.
  intros Heq. pose proof front_next as Hin. rewrite Heq in Hin. pose proof front_nodup as Hnd.
  apply NoDup_cons in Hnd as [Hni _]. apply elem_of_app in Hin as [?|?%list_elem_of_singleton]; set_solver.
Qed.

Lemma front_prev_lt : (prv bs b < length bs)%nat.
Proof.
  apply front_lt. pose proof (lru_seg _ _ Hl) as Hs.
  assert (Hin : prv bs b ∈ bhead :: l1 ++ b :: l2) by (eapply seg_bounds_prev; [exact Hs|set_solver]). set_solver.
Qed.

Lemma front_unlinked : seg N1 P1 bhead (l1 ++ l2) bhead.
Proof. apply seg_unlink; [by eapply lru_nodup|apply Hl]. Qed.

Lemma move_front_links :
  length (move_front b bs) = length bs /\
  (forall y, nxt (move_front b bs) y = fupd (fupd N1 b (N1 bhead)) bhead b y) /\
  (forall y, prv (move_front b bs) y = fupd (fupd P1 b bhead) (N1 bhead) b y).
Proof.
  pose proof front_next_ne as Hne. pose proof front_prev_lt as HP.
  assert (HN : (nxt bs b < length bs)%nat) by (apply front_lt; pose proof front_next; set_solver).
  assert (Hb : (b < length bs)%nat) by (apply front_lt; set_solver).
  assert (Hh : (bhead < length bs)%nat) by (apply front_lt; set_solver).
  assert (Hbh : b <> bhead) by (pose proof front_nodup as Hnd; apply NoDup_cons in Hnd as [? _]; set_solver).
  assert (HN1 : (N1 bhead < length bs)%nat).
  { apply front_lt. assert (N1 bhead ∈ (l1 ++ l2) ++ [bhead]) by (eapply seg_bounds; [apply front_unlinked|set_solver]). set_solver. }
  unfold move_front. fold (prv bs b) (nxt bs b).
  set (bs1 := alter (set_bprev (prv bs b)) (nxt bs b) bs).
  assert (H1 : length bs1 = length bs) by apply length_alter.
  assert (Hb1 : nxt bs1 b = nxt bs b /\ prv bs1 b = prv bs b).
  { unfold bs1. rewrite nxt_alter_prev, prv_alter_prev, fupd_ne by done. done. }
  fold (nxt bs1 b) (prv bs1 b). destruct Hb1 as [-> ->].
  set (bs2 := alter (set_bnext (nxt bs b)) (prv bs b) bs1).
  assert (H2 : length bs2 = length bs) by (unfold bs2; by rewrite length_alter).
  assert (Hn2 : forall y, nxt bs2 y = N1 y).
  { intros y. unfold bs2. rewrite nxt_alter_next by (by rewrite H1). apply fupd_ext. intros z. by apply nxt_alter_prev. }
  assert (Hp2 : forall y, prv bs2 y = P1 y).
  { intros y. unfold bs2. rewrite prv_alter_next by (by rewrite H1). by apply prv_alter_prev. }
  clearbody bs2. fold (nxt bs2 bhead). rewrite Hn2.
  set (bs4 := alter (set_bprev bhead) b (alter (set_bnext (N1 bhead)) b bs2)).
  assert (H4 : length bs4 = length bs) by (unfold bs4; by rewrite !length_alter).
  assert (Hn4 : forall y, nxt bs4 y = fupd N1 b (N1 bhead) y).
  { intros y. unfold bs4. rewrite nxt_alter_prev by (rewrite length_alter; lia). rewrite nxt_alter_next by lia.
    by apply fupd_ext. }
  assert (Hp4 : forall y, prv bs4 y = fupd P1 b bhead y).
  { intros y. unfold bs4. rewrite prv_alter_prev by (rewrite length_alter; lia). apply fupd_ext. intros z.
    rewrite prv_alter_next by lia. apply Hp2. }
  clearbody bs4. fold (nxt bs4 bhead). rewrite Hn4, fupd_ne by done.
  split_and!; [by rewrite !length_alter|intros y|intros y].
  - rewrite nxt_alter_next by (rewrite length_alter; lia). apply fupd_ext. intros z.
    rewrite nxt_alter_prev by lia. apply Hn4.
  - rewrite prv_alter_next by (rewrite length_alter; lia). rewrite prv_alter_prev by lia.
    by apply fupd_ext.
Qed.

Lemma lru_move_front : lru (move_front b bs) (b :: l1 ++ l2).
Proof.
  pose proof front_nodup as Hnd. apply NoDup_cons in Hnd as [Hni Hnd].
  destruct move_front_links as (Hlen & Hn & Hp). split.
  - rewrite Hlen. apply Hl.
  - eapply seg_ext; [intros x _; apply Hn|intros x _; apply Hp|].
    apply seg_push; [done|set_solver|set_solver|apply front_unlinked].
  - rewrite <- (lru_perm _ _ Hl). apply Permutation_middle.
Qed.
End front.

(** ** What [bget] does *)
Section bget.
Context `{Patience}.
Variables (s : kstate) (me : nat) (d bn : Z) (ord : list nat).
Hypothesis Hok : hart_ok s.
Hypothesis Hlock : lock_free L_bcache s.
Hypothesis Hsl : forall l, lock_free (L_sleep l) s.
Hypothesis Hrun : runs me s.
Hypothesis Hlru : lru (k_bufs s) ord.

Local Abbreviation bs := (k_bufs s).
Local Abbreviation mine := (mkSleeplock true (ppid (k_procs s !!! me))).

Definition hit (b : nat) : bool := (bdev (bs !!! b) =? d) && (bblockno (bs !!! b) =? bn).

Lemma lock_buf b f :
  k_slocks s !! SL_buf b = None ->
  (release L_bcache ;; acquiresleep (SL_buf b)) (set_k_bufs (alter f b bs) (acquired L_bcache s)) =
  Ok tt (set_k_slocks (<[SL_buf b := mine]> (k_slocks s)) (set_k_bufs (alter f b bs) (settle s))).
Proof.
  intros Hfree. erewrite bind_ok; [|apply release_run; hart_tac]. autorewrite with kst.
  rewrite released_acquired by done.
  rewrite (acquiresleep_run (SL_buf b) me) by (done || hart_tac || (unfold runs; rewrite cur_set_bufs, cproc_settle; done)).
  by autorewrite with kst.
Qed.

Lemma ord_lt b : b ∈ ord -> b <> bhead.
Proof. intros Hb. apply (lru_elem _ _ _ Hlru) in Hb. unfold bhead. lia. Qed.

Lemma bget_hit l1 b l2 :
  ord = l1 ++ b :: l2 -> hit b = true -> (forall x, x ∈ l1 -> hit x = false) -> k_slocks s !! SL_buf b = None ->
  bget d bn s = Ok b (set_k_slocks (<[SL_buf b := mine]> (k_slocks s))
    (set_k_bufs (alter (fun bb => set_brefcnt (u32 (brefcnt bb + 1)) bb) b bs) (settle s))).
Proof.
  intros Hord Hb Hno Hfree. unfold bget. erewrite bind_ok; [|by apply acquire_run].
  erewrite bind_ok; [|reflexivity]. change (k_bufs (acquired L_bcache s)) with bs.
  assert (Hp : path (nxt bs) (nxt bs bhead) l1 b).
  { pose proof (lru_seg _ _ Hlru) as Hseg. rewrite Hord in Hseg. apply seg_app in Hseg as [Hseg _]. by eapply seg_path_next. }
  match goal with |- _ = Ok b ?s' => rewrite (bind_ok _ _ _ (Some b) s'); [reflexivity|] end.
  eapply (scan_run _ _ (nxt bs) (acquired L_bcache s) (nxt bs bhead) l1 b); [exact Hp| | |].
  - intros x Hx. rewrite (proj2 (Nat.eqb_neq x bhead)) by (apply ord_lt; rewrite Hord; set_solver).
    erewrite bind_ok; [|reflexivity]. change (k_bufs (acquired L_bcache s)) with bs.
    fold (hit x). by rewrite Hno.
  - rewrite (proj2 (Nat.eqb_neq b bhead)) by (apply ord_lt; rewrite Hord; set_solver).
    erewrite bind_ok; [|reflexivity]. change (k_bufs (acquired L_bcache s)) with bs. fold (hit b). rewrite Hb.
    erewrite bind_ok; [|reflexivity]. change (k_bufs (acquired L_bcache s)) with bs.
    pose proof (lock_buf b (fun bb => set_brefcnt (u32 (brefcnt bb + 1)) bb) Hfree) as Hlb.
    unfold bind in Hlb |- *. destruct (release L_bcache _) as [[] s1| |]; cbn [after] in *; [|done..].
    rewrite Hlb. reflexivity.
  - pose proof (lru_length_ord _ _ Hlru) as Hlen. rewrite Hord, length_app in Hlen. simpl in Hlen. lia.
Qed.

Definition recycled (bb : buf) : buf := set_brefcnt 1 (set_bvalid false (set_bblockno bn (set_bdev d bb))).

Lemma bget_miss l1 b l2 :
  ord = l1 ++ b :: l2 -> (forall x, x ∈ ord -> hit x = false) ->
  brefcnt (bs !!! b) = 0 -> (forall x, x ∈ l2 -> brefcnt (bs !!! x) <> 0) -> k_slocks s !! SL_buf b = None ->
  bget d bn s = Ok b (set_k_slocks (<[SL_buf b := mine]> (k_slocks s))
    (set_k_bufs (alter recycled b bs) (settle s))).
Proof.
  intros Hord Hno Hb Hbusy Hfree. unfold bget. erewrite bind_ok; [|by apply acquire_run].
  erewrite bind_ok; [|reflexivity]. change (k_bufs (acquired L_bcache s)) with bs.
  pose proof (lru_length_ord _ _ Hlru) as Hlen. pose proof (lru_seg _ _ Hlru) as Hseg.
  erewrite bind_ok.
  2:{ eapply (scan_run _ _ (nxt bs) (acquired L_bcache s) (nxt bs bhead) ord bhead); [by eapply seg_path_next| | |lia].
      - intros x Hx. rewrite (proj2 (Nat.eqb_neq x bhead)) by (by apply ord_lt).
        erewrite bind_ok; [|reflexivity]. change (k_bufs (acquired L_bcache s)) with bs.
        fold (hit x). by rewrite Hno.
      - rewrite Nat.eqb_refl. reflexivity. }
  cbv iota. erewrite bind_ok; [|reflexivity]. change (k_bufs (acquired L_bcache s)) with bs.
  rewrite Hord in Hseg, Hlen. apply seg_app in Hseg as [_ Hseg]. apply seg_path_prev in Hseg.
  eapply (scan_run _ _ (prv bs) (acquired L_bcache s) (prv bs bhead) (rev l2) b); [exact Hseg| | |].
  - intros x Hx. apply list_elem_of_In, in_rev, list_elem_of_In in Hx. rewrite (proj2 (Nat.eqb_neq x bhead)) by (apply ord_lt; rewrite Hord; set_solver).
    erewrite bind_ok; [|reflexivity]. change (k_bufs (acquired L_bcache s)) with bs.
    by rewrite (proj2 (Z.eqb_neq _ 0) (Hbusy x Hx)).
  - rewrite (proj2 (Nat.eqb_neq b bhead)) by (apply ord_lt; rewrite Hord; set_solver).
    erewrite bind_ok; [|reflexivity]. change (k_bufs (acquired L_bcache s)) with bs. rewrite Hb, Z.eqb_refl.
    erewrite bind_ok; [|reflexivity]. erewrite bind_ok; [|reflexivity]. erewrite bind_ok; [|reflexivity].
    erewrite bind_ok; [|reflexivity]. simpl k_bufs. rewrite !list_alter_alter_eq.
    pose proof (lock_buf b recycled Hfree) as Hlb.
    unfold bind in Hlb |- *. unfold set_k_bufs in Hlb |- *. simpl in Hlb |- *.
    destruct (release L_bcache _) as [[] s1| |]; cbn [after] in *; [|done..]. rewrite Hlb. reflexivity.
  - rewrite length_rev. rewrite length_app in Hlen. simpl in Hlen. lia.
Qed.
End bget.
