(* ===== verification/BufCache.v ===== *)
(** What the buffer cache promises its callers.

    [bcache s me d V held pin]: process [me] runs with the buffers in [held] locked,
    [pin] of the references of each buffer are pins, and [V] is the contents of the
    blocks of device [d] as the callers of the cache see it.  Every buffer of the device
    holds the contents of its block, no block has two buffers, and a block that no one
    holds or pins is the same on disk: a buffer that may be recycled is clean. *)
From S2P Require Import Prelude Machine Riscv State Spinlock KString Kalloc Vm Sched Bio.
From Stdlib Require Import ZArith Lia.
From stdpp Require Import base strings numbers gmap list.
Local Open Scope Z_scope.
Local Open Scope m_scope.

(** The sleep-locks that are not of buffers. *)
Definition of_inode (l : slid) : bool := match l with SL_inode _ => true | SL_buf _ => false end.
Definition islocks (m : gmap slid sleeplock) : gmap slid sleeplock := filter (fun p => of_inode p.1 = true) m.

(** Everything the cache does not own. *)
Definition scrub (s : kstate) : kstate :=
  set_k_bufs [] (set_k_slocks (islocks (k_slocks s)) (set_k_procs [] (set_k_disk (mkDisk ∅ []) (settle s)))).
Definition same_rest (s s' : kstate) : Prop := scrub s' = scrub s /\ quiet (k_procs s) (k_procs s').

Lemma same_rest_refl s : same_rest s s.
Proof. split; [done|apply quiet_refl]. Qed.
Lemma same_rest_trans s1 s2 s3 : same_rest s1 s2 -> same_rest s2 s3 -> same_rest s1 s3.
Proof. intros [H1 Q1] [H2 Q2]. split; [congruence|by eapply quiet_trans]. Qed.

Lemma same_rest_locks s s' : same_rest s s' -> k_locks s' = k_locks s.
Proof. intros [Hs _]. by apply (f_equal k_locks) in Hs. Qed.
Lemma same_rest_log s s' : same_rest s s' -> k_log s' = k_log s.
Proof. intros [Hs _]. by apply (f_equal k_log) in Hs. Qed.
Lemma same_rest_sb s s' : same_rest s s' -> k_sb s' = k_sb s.
Proof. intros [Hs _]. by apply (f_equal k_sb) in Hs. Qed.
Lemma same_rest_free l s s' : same_rest s s' -> lock_free l s -> lock_free l s'.
Proof. intros Hs Hf. unfold lock_free. by rewrite (same_rest_locks _ _ Hs). Qed.

Lemma same_rest_update bs sl ps dk s :
  quiet (k_procs s) ps -> islocks sl = islocks (k_slocks s) ->
  same_rest s (set_k_bufs bs (set_k_slocks sl (set_k_procs ps (set_k_disk dk (settle s))))).
Proof.
  intros Hq Hsl. split; [|done]. unfold scrub. autorewrite with kst. simpl. by rewrite Hsl.
Qed.

Lemma islocks_insert b v m : islocks (<[SL_buf b := v]> m) = islocks m.
Proof. unfold islocks. apply map_filter_insert_not'; naive_solver. Qed.
Lemma islocks_delete b m : islocks (delete (SL_buf b) m) = islocks m.
Proof. unfold islocks. apply map_filter_delete_not. naive_solver. Qed.
Lemma islocks_inode i m : islocks m !! SL_inode i = m !! SL_inode i.
Proof. apply option_eq. intros v. unfold islocks. rewrite map_lookup_filter_Some. naive_solver. Qed.
Lemma same_rest_slock i s s' : same_rest s s' -> k_slocks s' !! SL_inode i = k_slocks s !! SL_inode i.
Proof. intros [Hs _]. apply (f_equal k_slocks) in Hs. simpl in Hs. by rewrite <- (islocks_inode i (k_slocks s')), Hs, islocks_inode. Qed.

Definition mine (s : kstate) (me : nat) : sleeplock := mkSleeplock true (ppid (k_procs s !!! me)).

Record bcache (s : kstate) (me : nat) (d : Z) (V : Z -> list Z) (held : gset nat) (pin : nat -> Z) : Prop := {
  bc_hart : hart_ok s;
  bc_lock : lock_free L_bcache s;
  bc_slocks : forall l, lock_free (L_sleep l) s;
  bc_plocks : plocks_free s;
  bc_procs : length (k_procs s) = NPROC;
  bc_runs : runs me s;
  bc_lru : exists ord, lru (k_bufs s) ord;
  bc_held : forall b, b ∈ held -> (b < NBUF)%nat;
  bc_sl : forall b, k_slocks s !! SL_buf b = if decide (b ∈ held) then Some (mine s me) else None;
  bc_pin : forall b, 0 <= pin b < 2 ^ 31;
  bc_ref : forall b, (b < NBUF)%nat -> brefcnt (k_bufs s !!! b) = (if decide (b ∈ held) then 1 else 0) + pin b;
  bc_dev : forall b, (b < NBUF)%nat -> 0 < brefcnt (k_bufs s !!! b) -> bdev (k_bufs s !!! b) = d;
  bc_uniq : forall b c, (b < NBUF)%nat -> (c < NBUF)%nat -> bdev (k_bufs s !!! b) = d -> bdev (k_bufs s !!! c) = d ->
    bblockno (k_bufs s !!! b) = bblockno (k_bufs s !!! c) -> b = c;
  bc_valid : forall b, (b < NBUF)%nat -> bdev (k_bufs s !!! b) = d ->
    bvalid (k_bufs s !!! b) = true /\ bdata (k_bufs s !!! b) = V (bblockno (k_bufs s !!! b));
  bc_clean : forall bn, (forall b, (b < NBUF)%nat -> bdev (k_bufs s !!! b) = d -> bblockno (k_bufs s !!! b) = bn ->
      brefcnt (k_bufs s !!! b) = 0) -> V bn = dblock (k_disk s) bn
}.

(** Buffer [b] is locked by the caller and caches block [bn]. *)
Definition holds (s : kstate) (held : gset nat) (b : nat) (bn : Z) : Prop :=
  b ∈ held /\ bblockno (k_bufs s !!! b) = bn.

Section facts.
Context `{Patience}.
Variables (s : kstate) (me : nat) (d : Z) (V : Z -> list Z) (held : gset nat) (pin : nat -> Z).
Hypothesis Hbc : bcache s me d V held pin.

Lemma held_ref b : b ∈ held -> 0 < brefcnt (k_bufs s !!! b).
Proof.
  intros Hb. rewrite (bc_ref _ _ _ _ _ _ Hbc) by (by eapply bc_held). rewrite decide_True by done.
  pose proof (bc_pin _ _ _ _ _ _ Hbc b). lia.
Qed.

Lemma held_dev b : b ∈ held -> bdev (k_bufs s !!! b) = d.
Proof. intros Hb. apply (bc_dev _ _ _ _ _ _ Hbc); [by eapply bc_held|by apply held_ref]. Qed.

Lemma held_data b bn : holds s held b bn -> bdata (k_bufs s !!! b) = V bn.
Proof.
  intros [Hb <-]. apply (bc_valid _ _ _ _ _ _ Hbc); [by eapply bc_held|by apply held_dev].
Qed.
End facts.

(** ** Putting the invariant back together *)

Definition upd4 (bs : list buf) (sl : gmap slid sleeplock) (ps : list proc) (dk : diskst) (s : kstate) : kstate :=
  set_k_bufs bs (set_k_slocks sl (set_k_procs ps (set_k_disk dk (settle s)))).

Lemma same_rest_upd4 bs sl ps dk s : quiet (k_procs s) ps -> islocks sl = islocks (k_slocks s) -> same_rest s (upd4 bs sl ps dk s).
Proof. apply same_rest_update. Qed.

(** The part of the invariant that speaks of the buffers. *)
Record bufs_ok (bs : list buf) (dk : diskst) (d : Z) (V : Z -> list Z) (held : gset nat) (pin : nat -> Z) : Prop := {
  bo_lru : exists ord, lru bs ord;
  bo_held : forall b, b ∈ held -> (b < NBUF)%nat;
  bo_pin : forall b, 0 <= pin b < 2 ^ 31;
  bo_ref : forall b, (b < NBUF)%nat -> brefcnt (bs !!! b) = (if decide (b ∈ held) then 1 else 0) + pin b;
  bo_dev : forall b, (b < NBUF)%nat -> 0 < brefcnt (bs !!! b) -> bdev (bs !!! b) = d;
  bo_uniq : forall b c, (b < NBUF)%nat -> (c < NBUF)%nat -> bdev (bs !!! b) = d -> bdev (bs !!! c) = d ->
    bblockno (bs !!! b) = bblockno (bs !!! c) -> b = c;
  bo_valid : forall b, (b < NBUF)%nat -> bdev (bs !!! b) = d ->
    bvalid (bs !!! b) = true /\ bdata (bs !!! b) = V (bblockno (bs !!! b));
  bo_clean : forall bn, (forall b, (b < NBUF)%nat -> bdev (bs !!! b) = d -> bblockno (bs !!! b) = bn ->
      brefcnt (bs !!! b) = 0) -> V bn = dblock dk bn
}.

Lemma bcache_bufs s me d V held pin : bcache s me d V held pin -> bufs_ok (k_bufs s) (k_disk s) d V held pin.
Proof. intros []. by split. Qed.

Lemma bcache_upd4 s me d V held pin bs sl ps dk V' held' pin' :
  bcache s me d V held pin -> quiet (k_procs s) ps -> bufs_ok bs dk d V' held' pin' ->
  (forall b, sl !! SL_buf b = if decide (b ∈ held') then Some (mine s me) else None) ->
  bcache (upd4 bs sl ps dk s) me d V' held' pin'.
Proof.
  intros [] Hq [] Hsl. unfold upd4. split; try assumption.
  - hart_tac.
  - simpl. by rewrite (quiet_length _ _ Hq).
  - unfold runs. rewrite !cur_set_bufs, cur_set_slocks, cur_set_procs, cur_set_disk, cproc_settle by done. done.
  - intros b. rewrite Hsl. unfold mine. simpl. by rewrite (quiet_pid _ _ _ Hq).
Qed.

(** The last element of a list with a property. *)
Lemma last_split {A} (P : A -> Prop) `{forall x, Decision (P x)} (l : list A) :
  Exists P l -> exists l1 x l2, l = l1 ++ x :: l2 /\ P x /\ forall y, y ∈ l2 -> ~ P y.
Proof.
  induction l as [|a l IH]; [by intros ?%Exists_nil|]. intros HE.
  destruct (decide (Exists P l)) as [Hl|Hl].
  - destruct (IH Hl) as (l1 & x & l2 & -> & Hx & Hl2). by exists (a :: l1), x, l2.
  - apply Exists_cons in HE as [Ha|]; [|done]. exists [], a, l. split_and!; [done|done|].
    intros y Hy HP. apply Hl, Exists_exists. eauto.
Qed.

Section bread.
Context `{Patience}.
Variables (s : kstate) (me : nat) (d : Z) (V : Z -> list Z) (held : gset nat) (pin : nat -> Z).
Hypothesis Hbc : bcache s me d V held pin.
Variable bn : Z.
Hypothesis Hnh : forall b, b ∈ held -> bblockno (k_bufs s !!! b) <> bn.

Local Abbreviation bs := (k_bufs s).

Lemma slocks_hold b c :
  b ∉ held -> (<[SL_buf b := mine s me]> (k_slocks s)) !! SL_buf c =
    if decide (c ∈ ({[b]} ∪ held : gset nat)) then Some (mine s me) else None.
Proof.
  intros Hb. destruct (decide (b = c)) as [->|Hne].
  - rewrite lookup_insert_eq, decide_True by set_solver. done.
  - rewrite lookup_insert_ne, (bc_sl _ _ _ _ _ _ Hbc) by congruence.
    destruct (decide (c ∈ held)); [rewrite decide_True by set_solver|rewrite decide_False by set_solver]; done.
Qed.

Lemma bufs_hold b :
  (b < NBUF)%nat -> b ∉ held -> bdev (bs !!! b) = d ->
  bufs_ok (alter (fun bb => set_brefcnt (u32 (brefcnt bb + 1)) bb) b bs) (k_disk s) d V ({[b]} ∪ held) pin.
Proof.
  intros Hb Hbh Hdev. pose proof (bcache_bufs _ _ _ _ _ _ Hbc) as [(ord & Hl) H2 H3 H4 H5 H6 H7 H8].
  assert (Hlen : (b < length bs)%nat) by (rewrite (lru_length _ _ Hl); lia).
  set (f := fun bb => set_brefcnt (u32 (brefcnt bb + 1)) bb).
  assert (Hlk : forall c, (alter f b bs) !!! c = if decide (b = c) then f (bs !!! c) else bs !!! c)
    by (intros c; by apply alter_total).
  assert (Hr0 : brefcnt (bs !!! b) = pin b) by (rewrite H4, decide_False by done; lia).
  assert (Hr1 : brefcnt (f (bs !!! b)) = pin b + 1).
  { unfold f. simpl. rewrite Hr0. apply wrap_small. specialize (H3 b). lia. }
  split.
  - exists ord. by apply lru_alter.
  - intros c Hc. apply elem_of_union in Hc as [->%elem_of_singleton|]; auto.
  - done.
  - intros c Hc. rewrite Hlk. case_decide as Heq.
    + subst c. rewrite Hr1, decide_True by set_solver. lia.
    + rewrite H4 by done. destruct (decide (c ∈ held)); [rewrite decide_True by set_solver|rewrite decide_False by set_solver]; done.
  - intros c Hc. rewrite Hlk. case_decide; [subst; done|auto].
  - intros c c' Hc Hc'. rewrite !Hlk. do 2 case_decide; subst; simpl; auto.
  - intros c Hc. rewrite Hlk. case_decide; subst; simpl; auto.
  - intros n Hn. apply H8. intros c Hc Hd Hbk. specialize (Hn c Hc). rewrite Hlk in Hn. case_decide as Heq; [|auto].
    subst c. rewrite Hr1 in Hn. simpl in Hn. specialize (Hn Hd Hbk). specialize (H3 b). lia.
Qed.

Definition filled (bb : buf) : buf :=
  set_bvalid true (set_bdata (dblock (k_disk s) bn) (recycled d bn bb)).

Lemma bufs_recycle b :
  (b < NBUF)%nat -> brefcnt (bs !!! b) = 0 ->
  (forall c, (c < NBUF)%nat -> bdev (bs !!! c) = d -> bblockno (bs !!! c) <> bn) ->
  (b ∉ held) /\ bufs_ok (alter filled b bs) (k_disk s) d V ({[b]} ∪ held) pin.
Proof.
  intros Hb Hr Hmiss. pose proof (bcache_bufs _ _ _ _ _ _ Hbc) as [(ord & Hl) H2 H3 H4 H5 H6 H7 H8].
  assert (Hbh : b ∉ held).
  { intros Hin. rewrite H4, decide_True in Hr by done. specialize (H3 b). lia. }
  assert (Hpin : pin b = 0) by (rewrite H4, decide_False in Hr by done; lia). split; [done|].
  assert (Hlen : (b < length bs)%nat) by (rewrite (lru_length _ _ Hl); lia).
  assert (Hlk : forall c, (alter filled b bs) !!! c = if decide (b = c) then filled (bs !!! c) else bs !!! c)
    by (intros c; by apply alter_total).
  assert (HVbn : V bn = dblock (k_disk s) bn) by (apply H8; intros c Hc Hd Hbk; by destruct (Hmiss c)).
  split.
  - exists ord. by apply lru_alter.
  - intros c Hc. apply elem_of_union in Hc as [->%elem_of_singleton|]; auto.
  - done.
  - intros c Hc. rewrite Hlk. case_decide as Heq.
    + subst c. simpl. rewrite decide_True by set_solver. lia.
    + rewrite H4 by done. destruct (decide (c ∈ held)); [rewrite decide_True by set_solver|rewrite decide_False by set_solver]; done.
  - intros c Hc. rewrite Hlk. case_decide; [done|auto].
  - intros c c' Hc Hc'. rewrite !Hlk. do 2 case_decide; subst; simpl; try done.
    + intros _ Hd' Heq. by destruct (Hmiss c').
    + intros Hd' _ Heq. by destruct (Hmiss c).
    + by apply H6.
  - intros c Hc. rewrite Hlk. case_decide; subst; simpl; [done|auto].
  - intros n Hn. apply H8. intros c Hc Hd Hbk. specialize (Hn c Hc). rewrite Hlk in Hn. case_decide as Heq; [|auto].
    by subst c.
Qed.

(** [bn] is cached, or some buffer is free. *)
Definition available : Prop :=
  exists b, (b < NBUF)%nat /\ ((bdev (bs !!! b) = d /\ bblockno (bs !!! b) = bn) \/ brefcnt (bs !!! b) = 0).

Lemma bget_finds :
  available -> exists b, (b < NBUF)%nat /\ (b ∉ held) /\
   ((bdev (bs !!! b) = d /\ bblockno (bs !!! b) = bn /\
     bget d bn s = Ok b (upd4 (alter (fun bb => set_brefcnt (u32 (brefcnt bb + 1)) bb) b bs)
       (<[SL_buf b := mine s me]> (k_slocks s)) (k_procs s) (k_disk s) s)) \/
    (brefcnt (bs !!! b) = 0 /\ (forall c, (c < NBUF)%nat -> bdev (bs !!! c) = d -> bblockno (bs !!! c) <> bn) /\
     bget d bn s = Ok b (upd4 (alter (recycled d bn) b bs) (<[SL_buf b := mine s me]> (k_slocks s))
       (k_procs s) (k_disk s) s))).
Proof.
  intros (b0 & Hb0 & Hav). pose proof Hbc as [Hok Hlk Hsl Hpl Hlen Hrun (ord & Hl) Hh Hslk Hpin Href Hdev Hun Hval Hcl].
  pose proof (lru_elem _ _ b0 Hl) as [_ Hin0]. specialize (Hin0 Hb0).
  destruct (decide (Exists (fun b => hit s d bn b = true) ord)) as [HE|HE].
  - apply Exists_exists in HE as (b & Hb & Hhit). apply (lru_elem _ _ _ Hl) in Hb as Hbl.
    pose proof Hhit as Hhit'. unfold hit in Hhit'. apply andb_true_iff in Hhit' as [Hd%Z.eqb_eq Hbk%Z.eqb_eq].
    assert (Hbh : b ∉ held) by (intros Hin; by apply (Hnh b)).
    exists b. split_and!; [done|done|left]. split_and!; [done|done|].
    apply list_elem_of_split in Hb as (l1 & l2 & Hord).
    eapply (bget_hit s me d bn ord Hok Hlk Hsl Hrun Hl l1 b l2); [done|done| |by rewrite Hslk, decide_False].
    intros x Hx. destruct (hit s d bn x) eqn:Hhx; [|done]. exfalso.
    unfold hit in Hhx. apply andb_true_iff in Hhx as [Hdx%Z.eqb_eq Hbx%Z.eqb_eq].
    assert (Hxl : (x < NBUF)%nat) by (apply (lru_elem _ _ _ Hl); rewrite Hord; set_solver).
    assert (x = b) as -> by (apply Hun; congruence).
    pose proof (lru_nodup _ _ Hl) as Hnd. rewrite Hord in Hnd. apply NoDup_cons in Hnd as [_ Hnd].
    apply NoDup_app in Hnd as (_ & Hd2 & _). apply (Hd2 b Hx). set_solver.
  - assert (Hno : forall x, x ∈ ord -> hit s d bn x = false).
    { intros x Hx. destruct (hit s d bn x) eqn:Hhx; [|done]. destruct HE. apply Exists_exists. eauto. }
    assert (Hmiss : forall c, (c < NBUF)%nat -> bdev (bs !!! c) = d -> bblockno (bs !!! c) <> bn).
    { intros c Hc Hd Hbk. apply (lru_elem _ _ _ Hl) in Hc. specialize (Hno c Hc). unfold hit in Hno.
      rewrite Hd, Hbk, !Z.eqb_refl in Hno. done. }
    assert (Hfree : Exists (fun b => brefcnt (bs !!! b) = 0) ord).
    { apply Exists_exists. exists b0. split; [done|]. destruct Hav as [[Hd Hbk]|]; [|done]. by destruct (Hmiss b0). }
    apply last_split in Hfree as (l1 & b & l2 & Hord & Hr & Hbusy); [|apply _].
    assert (Hb : (b < NBUF)%nat) by (apply (lru_elem _ _ _ Hl); rewrite Hord; set_solver).
    destruct (bufs_recycle b Hb Hr Hmiss) as [Hbh _].
    exists b. split_and!; [done|done|right]. split_and!; [done|done|].
    eapply (bget_miss s me d bn ord Hok Hlk Hsl Hrun Hl l1 b l2); [done|done|done|done|by rewrite Hslk, decide_False].
Qed.

Lemma bread_spec :
  available ->
  wp (bread d bn) (fun b s' => (b ∉ held) /\ bcache s' me d V ({[b]} ∪ held) pin /\
    holds s' ({[b]} ∪ held) b bn /\ same_rest s s' /\ k_disk s' = k_disk s /\
    (forall c, c ∈ held -> bblockno (k_bufs s' !!! c) = bblockno (bs !!! c)) /\
    (forall c, 0 < pin c -> bblockno (k_bufs s' !!! c) = bblockno (bs !!! c))) s.
Proof.
  intros Hav. destruct (bget_finds Hav) as (b & Hb & Hbh & Hcase).
  pose proof (bcache_bufs _ _ _ _ _ _ Hbc) as [(ord & Hl) H2 H3 H4 H5 H6 H7 H8].
  assert (Hlen : (b < length bs)%nat) by (rewrite (lru_length _ _ Hl); lia).
  unfold bread. destruct Hcase as [(Hd & Hbk & Hrun)|(Hr & Hmiss & Hrun)]; apply wp_bind; (eapply wp_ok; [exact Hrun|]).
  - apply wp_bind, wp_gets. simpl k_bufs. rewrite alter_total, decide_True by done. simpl bvalid.
    destruct (H7 b Hb Hd) as [-> Hdata]. apply wp_bind, wp_ret, wp_ret.
    split_and!; [done| | |(apply same_rest_upd4; [apply quiet_refl|by rewrite ?islocks_insert])|done| |].
    + eapply bcache_upd4; [done|apply quiet_refl|by apply bufs_hold|intros c; by apply slocks_hold].
    + split; [set_solver|]. simpl. rewrite alter_total, decide_True by done. done.
    + intros c Hc. simpl. rewrite alter_total by done. by case_decide.
    + intros c Hc. simpl. rewrite alter_total by done. by case_decide.
  - apply wp_bind, wp_gets. simpl k_bufs. rewrite alter_total, decide_True by done. simpl bvalid. cbv iota. unfold negb, when.
    apply wp_bind, wp_bind. unfold disk_rw. apply wp_bind, wp_gets. apply wp_bind, wp_gets. apply wp_modify, wp_modify, wp_ret.
    destruct (bufs_recycle b Hb Hr Hmiss) as [_ Hbufs]. simpl k_bufs. rewrite alter_total, decide_True by done.
    simpl bblockno. rewrite !list_alter_alter_eq.
    match goal with |- context [set_k_bufs ?x (set_k_bufs _ (upd4 _ ?sl ?ps ?dk s))] =>
      change (set_k_bufs x (set_k_bufs _ (upd4 _ sl ps dk s))) with (upd4 x sl ps dk s) end.
    split_and!; [done| | |(apply same_rest_upd4; [apply quiet_refl|by rewrite ?islocks_insert])|done| |].
    + eapply bcache_upd4; [done|apply quiet_refl|exact Hbufs|intros c; by apply slocks_hold].
    + split; [set_solver|]. simpl. rewrite alter_total, decide_True by done. done.
    + intros c Hc. simpl. rewrite alter_total by done. case_decide; [|done]. by subst.
    + intros c Hc. simpl. rewrite alter_total by done. case_decide; [|done]. subst c.
      rewrite H4, decide_False in Hr by done. lia.
Qed.
End bread.

(** ** The other operations *)
Section ops.
Variables (s : kstate) (me : nat) (d : Z) (V : Z -> list Z) (held : gset nat) (pin : nat -> Z).
Hypothesis Hbc : bcache s me d V held pin.

Local Abbreviation bs := (k_bufs s).

Lemma buf_lt b : b ∈ held -> (b < length bs)%nat.
Proof.
  intros Hb. destruct (bc_lru _ _ _ _ _ _ Hbc) as [ord Hl]. rewrite (lru_length _ _ Hl).
  apply (bc_held _ _ _ _ _ _ Hbc) in Hb. lia.
Qed.

(** Functions [V] updated at a block. *)
Definition vupd (V : Z -> list Z) (bn : Z) (x : list Z) : Z -> list Z := fun n => if decide (bn = n) then x else V n.

Lemma vupd_eq bn x : vupd V bn x bn = x.
Proof. unfold vupd. by rewrite decide_True. Qed.

(** Changing the contents of a buffer one holds changes what the cache shows. *)
Lemma set_data_spec b bn x :
  holds s held b bn ->
  wp (upd_buf b (set_bdata x)) (fun _ s' => bcache s' me d (vupd V bn x) held pin /\
    s' = set_k_bufs (alter (set_bdata x) b bs) s) s.
Proof.
  intros Hh. pose proof Hh as [Hb Hbk]. apply wp_modify. split; [|done].
  pose proof (buf_lt b Hb) as Hlt. pose proof (held_ref _ _ _ _ _ _ Hbc b Hb) as Hrf.
  pose proof (held_dev _ _ _ _ _ _ Hbc b Hb) as Hbd. pose proof (bc_held _ _ _ _ _ _ Hbc b Hb) as HbN.
  destruct Hbc as [Hok Hlk Hsl Hpl Hlen Hrun (ord & Hl) Hhd Hslk Hpin Href Hdev Hun Hval Hcl].
  assert (Hl' : forall c, (alter (set_bdata x) b bs) !!! c = if decide (b = c) then set_bdata x (bs !!! c) else bs !!! c)
    by (intros c; by apply alter_total).
  split; simpl; try done.
  - exists ord. by apply lru_alter.
  - intros c Hc. rewrite Hl'. case_decide; simpl; auto.
  - intros c Hc. rewrite Hl'. case_decide; simpl; auto.
  - intros c c' Hc Hc'. rewrite !Hl'. do 2 case_decide; simpl; auto.
  - intros c Hc. rewrite Hl'. unfold vupd. case_decide as Heq; simpl.
    + subst c. intros _. split; [by apply Hval|]. by rewrite Hbk, decide_True.
    + intros Hd. destruct (Hval c Hc Hd) as [? ?]. split; [done|]. rewrite decide_False; [done|].
      intros Heq'. apply Heq. apply Hun; [done|done|done|done|congruence].
  - intros n Hn. unfold vupd. case_decide as Heq.
    + specialize (Hn b HbN). rewrite Hl', decide_True in Hn by done. simpl in Hn.
      rewrite Hn in Hrf by (done || congruence). lia.
    + apply Hcl. intros c Hc. specialize (Hn c Hc). rewrite Hl' in Hn. case_decide; simpl in Hn; auto.
Qed.

Lemma holding_run b :
  b ∈ held -> holdingsleep (SL_buf b) s = Ok true (settle s).
Proof.
  intros Hb. destruct Hbc as [Hok Hlk Hsl Hpl Hlen Hrun _ Hhd Hslk _ _ _ _ _ _].
  rewrite (holdingsleep_run _ me s Hok (Hsl _) Hrun (ppid (k_procs s !!! me))).
  - by rewrite Z.eqb_refl.
  - by rewrite Hslk, decide_True.
Qed.

Lemma upd4_id : upd4 bs (k_slocks s) (k_procs s) (k_disk s) s = settle s.
Proof. reflexivity. Qed.

(** [bwrite] makes the disk agree with the cache. *)
Lemma bwrite_spec b bn :
  holds s held b bn ->
  wp (bwrite b) (fun _ s' => bcache s' me d V held pin /\ same_rest s s' /\ k_bufs s' = bs /\
    k_disk s' = mkDisk (<[bn := V bn]> (dblocks (k_disk s))) (dtrace (k_disk s) ++ [(bn, V bn)])) s.
Proof.
  intros Hh. pose proof (held_data _ _ _ _ _ _ Hbc b bn Hh) as Hdata. pose proof Hh as [Hb Hbk].
  unfold bwrite. apply wp_bind. eapply wp_ok; [by apply holding_run|]. simpl negb. cbv iota.
  unfold disk_rw. apply wp_bind, wp_gets, wp_modify. simpl k_bufs. rewrite Hbk, Hdata.
  set (dk := mkDisk _ _).
  change (set_k_disk dk (settle s)) with (upd4 bs (k_slocks s) (k_procs s) dk s).
  split_and!; [|(apply same_rest_upd4; [apply quiet_refl|by rewrite ?islocks_insert])|done|done].
  eapply bcache_upd4; [done|apply quiet_refl| |by apply Hbc].
  pose proof (bcache_bufs _ _ _ _ _ _ Hbc) as [H1 H2 H3 H4 H5 H6 H7 H8]. split; try done.
  intros n Hn. unfold dk, dblock. simpl. destruct (decide (bn = n)) as [->|Hne].
  - by rewrite lookup_insert_eq.
  - rewrite lookup_insert_ne by done. by apply H8.
Qed.

(** One reference less. *)
Lemma bufs_unref b held' pin' :
  (b < NBUF)%nat -> b ∈ held \/ 0 < pin b ->
  (forall c, c <> b -> (c ∈ held' <-> c ∈ held) /\ pin' c = pin c) ->
  (if decide (b ∈ held') then 1 else 0) + pin' b = (if decide (b ∈ held) then 1 else 0) + pin b - 1 -> 0 <= pin' b <= pin b ->
  (b ∈ held' -> b ∈ held) ->
  ((b ∈ held' \/ 0 < pin' b) \/ V (bblockno (bs !!! b)) = dblock (k_disk s) (bblockno (bs !!! b))) ->
  bufs_ok (alter (fun bb => set_brefcnt (u32 (brefcnt bb - 1)) bb) b bs) (k_disk s) d V held' pin'.
Proof.
  intros Hb Hpos Hoth Hcnt Hpin' Hsub Hclean.
  pose proof (bcache_bufs _ _ _ _ _ _ Hbc) as [(ord & Hl) H2 H3 H4 H5 H6 H7 H8].
  assert (Hlen : (b < length bs)%nat) by (rewrite (lru_length _ _ Hl); lia).
  set (f := fun bb => set_brefcnt (u32 (brefcnt bb - 1)) bb).
  assert (Hlk : forall c, (alter f b bs) !!! c = if decide (b = c) then f (bs !!! c) else bs !!! c)
    by (intros c; by apply alter_total).
  assert (Hr0 : 0 < brefcnt (bs !!! b) < 2 ^ 31 + 1).
  { rewrite H4 by done. specialize (H3 b). destruct (decide (b ∈ held)); [lia|]. destruct Hpos; [done|lia]. }
  assert (Hr1 : brefcnt (f (bs !!! b)) = (if decide (b ∈ held') then 1 else 0) + pin' b).
  { unfold f. simpl. rewrite wrap_small by lia. rewrite H4 by done. lia. }
  assert (Hbd : bdev (bs !!! b) = d) by (apply H5; [done|lia]). clear Hcnt.
  split.
  - exists ord. by apply lru_alter.
  - intros c Hc. destruct (decide (c = b)) as [->|Hne]; [done|]. apply H2. by apply (Hoth c Hne).
  - intros c. destruct (decide (c = b)) as [->|Hne]; [specialize (H3 b); lia|]. destruct (Hoth c Hne) as [_ ->]. done.
  - intros c Hc. rewrite Hlk. destruct (decide (b = c)) as [Heq|Heq]; [subst c; exact Hr1|]. rewrite H4 by done.
    destruct (Hoth c) as [Hiff ->]; [done|]. destruct (decide (c ∈ held)), (decide (c ∈ held')); tauto.
  - intros c Hc. rewrite Hlk. destruct (decide (b = c)); [intros _; subst c; exact Hbd|auto].
  - intros c c' Hc Hc'. rewrite !Hlk. destruct (decide (b = c)), (decide (b = c')); subst; simpl; auto.
  - intros c Hc. rewrite Hlk. destruct (decide (b = c)); subst; simpl; auto.
  - intros n Hn. destruct (decide (n = bblockno (bs !!! b))) as [->|Hne].
    + destruct Hclean as [Hstill|]; [|done]. specialize (Hn b Hb). rewrite Hlk, decide_True in Hn by done.
      rewrite Hr1 in Hn. specialize (Hn Hbd eq_refl). destruct (decide (b ∈ held')); [lia|]. destruct Hstill; [done|lia].
    + apply H8. intros c Hc Hd Hbk. specialize (Hn c Hc). rewrite Hlk in Hn. destruct (decide (b = c)); [by subst|auto].
Qed.

Lemma wp_locked (f : buf -> buf) b Q :
  Q tt (upd4 (alter f b bs) (k_slocks s) (k_procs s) (k_disk s) s) ->
  wp (acquire L_bcache ;; upd_buf b f ;; release L_bcache) Q s.
Proof.
  intros HQ. destruct Hbc as [Hok Hlk _ _ _ _ _ _ _ _ _ _ _ _ _].
  apply wp_bind. eapply wp_ok; [by apply acquire_run|]. apply wp_bind, wp_modify.
  eapply wp_ok; [apply release_run; hart_tac|]. autorewrite with kst. rewrite released_acquired by done. exact HQ.
Qed.

Definition pin_upd (b : nat) (v : Z) : nat -> Z := fun c => if decide (b = c) then v else pin c.

Lemma bunpin_spec b :
  (b < NBUF)%nat -> 0 < pin b ->
  (b ∈ held \/ 1 < pin b \/ V (bblockno (bs !!! b)) = dblock (k_disk s) (bblockno (bs !!! b))) ->
  wp (bunpin b) (fun _ s' => bcache s' me d V held (pin_upd b (pin b - 1)) /\ same_rest s s' /\ k_disk s' = k_disk s /\
    forall c, bblockno (k_bufs s' !!! c) = bblockno (bs !!! c)) s.
Proof.
  intros Hb Hpin Hclean. apply wp_locked.
  assert (Hlen : (b < length bs)%nat) by (destruct (bc_lru _ _ _ _ _ _ Hbc) as [ord Hl]; rewrite (lru_length _ _ Hl); lia).
  split_and!; [|(apply same_rest_upd4; [apply quiet_refl|by rewrite ?islocks_insert])|done|].
  - eapply bcache_upd4; [done|apply quiet_refl| |by apply Hbc].
    assert (Hpu : pin_upd b (pin b - 1) b = pin b - 1) by (unfold pin_upd; by rewrite decide_True).
    apply bufs_unref; rewrite ?Hpu; try done.
    + by right.
    + intros c Hc. unfold pin_upd. by rewrite decide_False.
    + lia.
    + lia.
    + destruct Hclean as [?|[?|?]]; [left; by left|left; right; lia|by right].
  - intros c. simpl. rewrite alter_total by done. by case_decide.
Qed.

Lemma bpin_spec b :
  b ∈ held -> pin b < 2 ^ 31 - 1 ->
  wp (bpin b) (fun _ s' => bcache s' me d V held (pin_upd b (pin b + 1)) /\ same_rest s s' /\ k_disk s' = k_disk s /\
    forall c, bblockno (k_bufs s' !!! c) = bblockno (bs !!! c)) s.
Proof.
  intros Hb Hpin. apply wp_locked. pose proof (buf_lt b Hb) as Hlen.
  pose proof (held_ref _ _ _ _ _ _ Hbc b Hb) as Hrf. pose proof (held_dev _ _ _ _ _ _ Hbc b Hb) as Hbd.
  split_and!; [|(apply same_rest_upd4; [apply quiet_refl|by rewrite ?islocks_insert])|done|intros c; simpl; rewrite alter_total by done; by case_decide].
  eapply bcache_upd4; [done|apply quiet_refl| |by apply Hbc].
  pose proof (bcache_bufs _ _ _ _ _ _ Hbc) as [(ord & Hl) H2 H3 H4 H5 H6 H7 H8].
  set (f := fun bb => set_brefcnt (u32 (brefcnt bb + 1)) bb).
  assert (Hlk : forall c, (alter f b bs) !!! c = if decide (b = c) then f (bs !!! c) else bs !!! c)
    by (intros c; by apply alter_total).
  assert (Hr0 : brefcnt (bs !!! b) = 1 + pin b) by (rewrite H4, decide_True by auto; done).
  assert (Hr1 : brefcnt (f (bs !!! b)) = 2 + pin b).
  { unfold f. simpl. rewrite wrap_small; specialize (H3 b); lia. }
  unfold pin_upd. split.
  - exists ord. by apply lru_alter.
  - done.
  - intros c. case_decide; [specialize (H3 b); lia|done].
  - intros c Hc. rewrite Hlk. case_decide; [|auto]. subst c. rewrite Hr1, decide_True by done. lia.
  - intros c Hc. rewrite Hlk. case_decide; [subst; done|auto].
  - intros c c' Hc Hc'. rewrite !Hlk. do 2 case_decide; subst; simpl; auto.
  - intros c Hc. rewrite Hlk. case_decide; subst; simpl; auto.
  - intros n Hn. apply H8. intros c Hc Hd Hbk. specialize (Hn c Hc). rewrite Hlk in Hn. case_decide; [|auto].
    subst c. rewrite Hr1 in Hn. specialize (Hn Hd Hbk). specialize (H3 b). lia.
Qed.
End ops.

(** *** Releasing a buffer *)
Definition bcore (b : buf) : bool * Z * Z * Z * list Z := (bvalid b, bdev b, bblockno b, brefcnt b, bdata b).

Lemma bcore_alter (f : buf -> buf) (i : nat) (bs : list buf) (y : nat) :
  (forall x, bcore (f x) = bcore x) -> bcore (alter f i bs !!! y) = bcore (bs !!! y).
Proof.
  intros Hf. rewrite !list_lookup_total_alt. destruct (decide (i = y)) as [->|Hne].
  - rewrite list_lookup_alter_eq. destruct (bs !! y); [apply Hf|done].
  - by rewrite list_lookup_alter_ne.
Qed.

Lemma bcore_move_front b (bs : list buf) (y : nat) : bcore (move_front b bs !!! y) = bcore (bs !!! y).
Proof. unfold move_front. by rewrite !bcore_alter. Qed.

Lemma bufs_ok_core bs bs' dk d V held pin :
  bufs_ok bs dk d V held pin -> (exists ord, lru bs' ord) -> (forall y, bcore (bs' !!! y) = bcore (bs !!! y)) ->
  bufs_ok bs' dk d V held pin.
Proof.
  intros [H1 H2 H3 H4 H5 H6 H7 H8] Hl Hcore.
  assert (Hall : forall y, bvalid (bs' !!! y) = bvalid (bs !!! y) /\ bdev (bs' !!! y) = bdev (bs !!! y) /\
    bblockno (bs' !!! y) = bblockno (bs !!! y) /\ brefcnt (bs' !!! y) = brefcnt (bs !!! y) /\ bdata (bs' !!! y) = bdata (bs !!! y))
    by (intros y; specialize (Hcore y); unfold bcore in Hcore; by injection Hcore).
  split; try done.
  - intros b Hb. destruct (Hall b) as (_ & _ & _ & -> & _). auto.
  - intros b Hb. destruct (Hall b) as (_ & -> & _ & -> & _). auto.
  - intros b c Hb Hc. destruct (Hall b) as (_ & -> & -> & _), (Hall c) as (_ & -> & -> & _). auto.
  - intros b Hb. destruct (Hall b) as (-> & -> & -> & _ & ->). auto.
  - intros n Hn. apply H8. intros b Hb. specialize (Hn b Hb). destruct (Hall b) as (_ & Hd & Hbk & Hr & _).
    rewrite Hd, Hbk, Hr in Hn. done.
Qed.

(** What the buffers are after [brelse]. *)
Definition released_bufs (b : nat) (bs : list buf) : list buf :=
  let bs' := alter (fun bb => set_brefcnt (u32 (brefcnt bb - 1)) bb) b bs in
  if brefcnt (bs' !!! b) =? 0 then move_front b bs' else bs'.

Lemma brelse_run s me d V held pin b :
  bcache s me d V held pin -> b ∈ held ->
  brelse b s = Ok tt (upd4 (released_bufs b (k_bufs s)) (delete (SL_buf b) (k_slocks s))
    (wake_all (C_sleeplock (SL_buf b)) (Some me) (k_procs s)) (k_disk s) s).
Proof.
  intros Hbc Hb. pose proof (holding_run _ _ _ _ _ _ Hbc b Hb) as Hh.
  destruct Hbc as [Hok Hlk Hsl Hpl Hlen Hrun _ _ Hslk _ _ _ _ _ _].
  unfold brelse. erewrite bind_ok; [|exact Hh]. change (negb true) with false. cbv iota.
  assert (Hok1 : hart_ok (settle s)) by hart_tac.
  erewrite bind_ok.
  2:{ apply (releasesleep_run (SL_buf b) me (settle s)); [done| | | |done].
      - apply lock_free_settle, Hsl.
      - unfold runs. by rewrite cproc_settle.
      - by apply plocks_free_settle. }
  set (s1 := set_k_slocks _ _). assert (Hok2 : hart_ok s1) by (unfold s1; hart_tac).
  erewrite bind_ok; [|apply acquire_run; [done|unfold s1; hart_tac]].
  erewrite bind_ok; [|reflexivity]. erewrite bind_ok; [|reflexivity].
  set (s2 := set_k_bufs _ _).
  match goal with |- context [when ?c ?blk] =>
    assert (Hblk : when c blk s2 = Ok tt (set_k_bufs (released_bufs b (k_bufs s)) s2)) end.
  { unfold released_bufs. unfold s2. simpl k_bufs.
    destruct (brefcnt _ =? 0); [reflexivity|]. reflexivity. }
  erewrite bind_ok; [|exact Hblk]. rewrite release_run by (unfold s2; hart_tac).
  unfold s2. autorewrite with kst. rewrite released_acquired by (try done; unfold s1; hart_tac).
  unfold s1. autorewrite with kst. reflexivity.
Qed.

Lemma brelse_spec s me d V held pin b bn :
  bcache s me d V held pin -> holds s held b bn -> 0 < pin b \/ V bn = dblock (k_disk s) bn ->
  wp (brelse b) (fun _ s' => bcache s' me d V (held ∖ {[b]}) pin /\ same_rest s s' /\ k_disk s' = k_disk s /\
    forall c, bblockno (k_bufs s' !!! c) = bblockno (k_bufs s !!! c)) s.
Proof.
  intros Hbc [Hb Hbk] Hclean. eapply wp_ok; [by eapply brelse_run|].
  pose proof (buf_lt _ _ _ _ _ _ Hbc b Hb) as Hlen. pose proof (bc_held _ _ _ _ _ _ Hbc b Hb) as HbN.
  set (bs' := alter (fun bb => set_brefcnt (u32 (brefcnt bb - 1)) bb) b (k_bufs s)).
  assert (Hok' : bufs_ok bs' (k_disk s) d V (held ∖ {[b]}) pin).
  { apply (bufs_unref s me d V held pin Hbc); [done|by left| | | | |].
    - intros c Hc. split; [set_solver|done].
    - rewrite decide_False, decide_True by set_solver. lia.
    - pose proof (bc_pin _ _ _ _ _ _ Hbc b). lia.
    - set_solver.
    - rewrite Hbk. destruct Hclean; [left; by right|by right]. }
  assert (Hcore : forall y, bcore (released_bufs b (k_bufs s) !!! y) = bcore (bs' !!! y)).
  { intros y. unfold released_bufs. fold bs'. destruct (_ =? 0); [apply bcore_move_front|done]. }
  assert (Hlru : exists ord, lru (released_bufs b (k_bufs s)) ord).
  { destruct (bo_lru _ _ _ _ _ _ Hok') as [ord Hl]. unfold released_bufs. fold bs'. destruct (_ =? 0); [|eauto].
    pose proof (lru_elem _ _ b Hl) as [_ Hin]. specialize (Hin HbN). apply list_elem_of_split in Hin as (l1 & l2 & ->).
    eexists. by apply lru_move_front. }
  split_and!; [|(apply same_rest_upd4; [apply quiet_wake|by rewrite ?islocks_delete])|done|].
  - eapply bcache_upd4; [done|apply quiet_wake|by eapply bufs_ok_core|].
    intros c. destruct (decide (b = c)) as [->|Hne].
    + rewrite lookup_delete_eq, decide_False by set_solver. done.
    + rewrite lookup_delete_ne, (bc_sl _ _ _ _ _ _ Hbc) by congruence.
      destruct (decide (c ∈ held)); [rewrite decide_True by set_solver|rewrite decide_False by set_solver]; done.
  - intros c. simpl. pose proof (Hcore c) as Hc. unfold bcore in Hc. injection Hc as _ _ -> _ _.
    unfold bs'. rewrite alter_total by done. by case_decide.
Qed.

(** ** Initialization *)
Record binit_inv (s0 : kstate) (i : nat) (s : kstate) : Prop := {
  bn_rest : exists bs sl lk, s = set_k_bufs bs (set_k_slocks sl (set_k_locks lk s0));
  bn_locks : forall l, k_locks s !! l = None \/ k_locks s !! l = k_locks s0 !! l;
  bn_lock : lock_free L_bcache s;
  bn_slocks : forall b, k_slocks s !! SL_buf b = None \/ k_slocks s !! SL_buf b = k_slocks s0 !! SL_buf b;
  bn_slock : forall b, (b < i)%nat -> lock_free (L_sleep (SL_buf b)) s /\ k_slocks s !! SL_buf b = None;
  bn_length : length (k_bufs s) = S NBUF;
  bn_seg : seg (nxt (k_bufs s)) (prv (k_bufs s)) bhead (rev (seq 0 i)) bhead;
  bn_core : forall y, bcore (k_bufs s !!! y) = bcore (k_bufs s0 !!! y)
}.

Lemma wp_initsleeplock l Q s :
  Q tt (set_k_slocks (delete l (k_slocks s)) (set_k_locks (delete (L_sleep l) (k_locks s)) s)) ->
  wp (initsleeplock l) Q s.
Proof.
  intros HQ. unfold initsleeplock. apply wp_bind, wp_initlock. apply wp_bind, wp_gets. apply wp_bind, wp_modify.
  apply wp_bind, wp_gets, wp_modify. unfold slock_of. simpl.
  destruct (decide (set_slocked false _ = free_sleeplock)).
  - rewrite lookup_delete_eq. simpl. unfold set_k_slocks in *. simpl. by rewrite delete_delete_eq.
  - rewrite lookup_insert_eq. simpl. unfold set_k_slocks in *. simpl. by rewrite delete_insert_eq.
Qed.

(** The list after buffer [b] has been put first. *)
Definition push_front (b : nat) (bs : list buf) : list buf :=
  let bs1 := alter (set_bnext (bnext (bs !!! bhead))) b bs in
  let bs2 := alter (set_bprev bhead) b bs1 in
  let bs3 := alter (set_bprev b) (bnext (bs2 !!! bhead)) bs2 in
  alter (set_bnext b) bhead bs3.

Lemma push_front_seg b bs l :
  length bs = S NBUF -> (b < NBUF)%nat -> NoDup (bhead :: l) -> (b ∉ l) -> (forall x, x ∈ l -> (x < NBUF)%nat) ->
  seg (nxt bs) (prv bs) bhead l bhead ->
  length (push_front b bs) = S NBUF /\ seg (nxt (push_front b bs)) (prv (push_front b bs)) bhead (b :: l) bhead.
Proof.
  intros Hlen Hb Hnd Hni Hl Hs. assert (Hbh : b <> bhead) by (unfold bhead; lia).
  assert (HN : (nxt bs bhead < length bs)%nat).
  { assert (Hin : nxt bs bhead ∈ l ++ [bhead]) by (eapply seg_bounds; [exact Hs|set_solver]).
    apply elem_of_app in Hin as [Hin|Hin%list_elem_of_singleton]; [apply Hl in Hin; lia|].
    rewrite Hin. unfold bhead. lia. }
  split; [unfold push_front; by rewrite !length_alter|].
  assert (Hh2 : bnext (alter (set_bprev bhead) b (alter (set_bnext (bnext (bs !!! bhead))) b bs) !!! bhead) = nxt bs bhead).
  { rewrite alter_total by (rewrite length_alter; lia). rewrite decide_False by done.
    rewrite alter_total by lia. by rewrite decide_False by done. }
  eapply seg_ext; [| |apply (seg_push (nxt bs) (prv bs) bhead b l); done]; intros y _; unfold push_front; rewrite Hh2.
  - rewrite nxt_alter_next by (rewrite !length_alter; unfold bhead; lia). apply fupd_ext. intros z.
    rewrite !nxt_alter_prev by (rewrite ?length_alter; lia). by rewrite nxt_alter_next by lia.
  - rewrite prv_alter_next by (rewrite !length_alter; unfold bhead; lia).
    rewrite prv_alter_prev by (rewrite !length_alter; lia). apply fupd_ext. intros z.
    rewrite prv_alter_prev by (rewrite length_alter; lia). apply fupd_ext. intros z'. by rewrite prv_alter_next by lia.
Qed.

Lemma push_front_core b bs y : bcore (push_front b bs !!! y) = bcore (bs !!! y).
Proof. unfold push_front. by rewrite !bcore_alter. Qed.

Lemma binit_round s0 i s :
  (i < NBUF)%nat -> binit_inv s0 i s ->
  wp (h <- get_buf bhead ;;
      upd_buf i (set_bnext (bnext h)) ;;
      upd_buf i (set_bprev bhead) ;;
      initsleeplock (SL_buf i) ;;
      h <- get_buf bhead ;;
      upd_buf (bnext h) (set_bprev i) ;;
      upd_buf bhead (set_bnext i)) (fun _ s' => binit_inv s0 (S i) s') s.
Proof.
  intros Hi [(bs & sl & lk & ->) Hlks Hlk Hsls Hsl Hlen Hseg Hcore].
  apply wp_bind, wp_gets. apply wp_bind, wp_modify. apply wp_bind, wp_modify. apply wp_bind, wp_initsleeplock.
  apply wp_bind, wp_gets. apply wp_bind, wp_modify. apply wp_modify. cbn [k_bufs k_locks k_slocks set_k_bufs set_k_slocks set_k_locks] in *.
  match goal with |- binit_inv _ _ ?st => change st with
    (set_k_bufs (push_front i bs) (set_k_slocks (delete (SL_buf i) sl) (set_k_locks (delete (L_sleep (SL_buf i)) lk) s0))) end.
  destruct (push_front_seg i bs (rev (seq 0 i))) as [Hlen' Hseg']; try done.
  - constructor.
    + rewrite list_elem_of_In, <- in_rev, <- list_elem_of_In, elem_of_seq. unfold bhead. lia.
    + rewrite <- Permutation_rev. apply NoDup_seq.
  - rewrite list_elem_of_In, <- in_rev, <- list_elem_of_In, elem_of_seq. lia.
  - intros x. rewrite list_elem_of_In, <- in_rev, <- list_elem_of_In, elem_of_seq. lia.
  - split; simpl.
    + eauto.
    + intros l. destruct (decide (L_sleep (SL_buf i) = l)) as [<-|Hne]; [left; apply lookup_delete_eq|].
      rewrite lookup_delete_ne by done. apply Hlks.
    + unfold lock_free. simpl. rewrite lookup_delete_ne by done. exact Hlk.
    + intros b. destruct (decide (i = b)) as [<-|Hne]; [left; apply lookup_delete_eq|].
      rewrite lookup_delete_ne by congruence. apply Hsls.
    + intros b Hb. unfold lock_free. simpl. destruct (decide (i = b)) as [<-|Hne]; [by rewrite !lookup_delete_eq|].
      rewrite !lookup_delete_ne by congruence. apply Hsl. lia.
    + done.
    + change (rev (seq 1 i) ++ [0%nat]) with (rev (seq 0 (S i))). rewrite seq_S, rev_app_distr. exact Hseg'.
    + intros y. rewrite push_front_core. apply Hcore.
Qed.

(** What the kernel has when it calls [binit]: zeroed reference counts and no buffer
    of device [d]. *)
Record bzeroed (s : kstate) (me : nat) (d : Z) : Prop := {
  bz_hart : hart_ok s;
  bz_runs : runs me s;
  bz_procs : length (k_procs s) = NPROC;
  bz_locks : k_locks s = ∅;
  bz_slocks : k_slocks s = ∅;
  bz_bufs : length (k_bufs s) = S NBUF;
  bz_ref : forall b, (b < NBUF)%nat -> brefcnt (k_bufs s !!! b) = 0 /\ bdev (k_bufs s !!! b) <> d
}.

Lemma binit_spec s me d :
  bzeroed s me d ->
  wp binit (fun _ s' => bcache s' me d (dblock (k_disk s)) ∅ (fun _ => 0) /\
    exists bs sl lk, s' = set_k_bufs bs (set_k_slocks sl (set_k_locks lk s))) s.
Proof.
  intros [Hok Hrun Hps Hlk Hsl Hlen Href]. unfold binit. apply wp_bind, wp_initlock.
  apply wp_bind, wp_modify. apply wp_bind, wp_modify.
  set (s1 := set_k_bufs _ _).
  assert (H0 : binit_inv s 0 s1).
  { split.
    - exists (k_bufs s1), (k_slocks s), (delete L_bcache (k_locks s)). by destruct s.
    - intros l. left. unfold s1. simpl. by rewrite Hlk, delete_empty.
    - unfold lock_free, s1. simpl. apply lookup_delete_eq.
    - intros b. by right.
    - lia.
    - unfold s1. simpl. by rewrite !length_alter.
    - split; unfold s1; simpl k_bufs.
      + rewrite nxt_alter_next, fupd_eq by (rewrite length_alter, Hlen; unfold bhead; lia). done.
      + rewrite prv_alter_next by (rewrite length_alter, Hlen; unfold bhead; lia).
        rewrite prv_alter_prev, fupd_eq by (rewrite Hlen; unfold bhead; lia). done.
    - intros y. unfold s1. simpl k_bufs. by rewrite !bcore_alter. }
  eapply wp_mono; [apply (wp_for_seq (binit_inv s) NBUF); [exact H0|intros; by apply binit_round]|].
  intros [] s' [(bs & sl & lk & ->) Hlks Hlk' Hsls Hsl' Hlen' Hseg Hcore].
  assert (Hfree : forall l, lock_free l (set_k_bufs bs (set_k_slocks sl (set_k_locks lk s)))).
  { intros l. unfold lock_free. destruct (Hlks l) as [Hl|Hl]; [done|]. by rewrite Hl, Hlk, lookup_empty. }
  assert (Hc : forall b, (b < NBUF)%nat -> brefcnt (bs !!! b) = 0 /\ bdev (bs !!! b) <> d).
  { intros b Hb. specialize (Hcore b). unfold bcore in Hcore. simpl in Hcore. injection Hcore as _ -> _ -> _. by apply Href. }
  split; [|by exists bs, sl, lk]. split; try done; simpl.
  - intros i. apply Hfree.
  - exists (rev (seq 0 NBUF)). split; [done|done|]. by rewrite <- Permutation_rev.
  - intros b. rewrite decide_False by set_solver. destruct (Hsls b) as [|Hb]; [done|].
    simpl in Hb. by rewrite Hb, Hsl, lookup_empty.
  - intros b Hb. rewrite decide_False by set_solver. by destruct (Hc b Hb) as [-> _].
  - intros b Hb Hr. destruct (Hc b Hb) as [Hr0 _]. lia.
  - intros b c Hb Hc' Hd. by destruct (Hc b Hb).
  - intros b Hb Hd. by destruct (Hc b Hb).
Qed.

(** ** The cache against the bare disk

    A client of the cache reads blocks and overwrites blocks, each time through a
    locked buffer; the reference client reads and writes the blocks themselves. *)
Inductive breq : Type :=
| BRead (bn : Z)
| BWrite (bn : Z) (x : list Z).

Section clients.
Context `{Patience}.

Definition serve (d : Z) (r : breq) : K (list Z) :=
  match r with
  | BRead bn =>
      b <- bread d bn ;;
      bb <- get_buf b ;;
      brelse b ;;
      ret (bdata bb)
  | BWrite bn x =>
      b <- bread d bn ;;
      upd_buf b (set_bdata x) ;;
      bwrite b ;;
      brelse b ;;
      ret x
  end.

Fixpoint serve_all (d : Z) (rs : list breq) : K (list (list Z)) :=
  match rs with
  | [] => ret []
  | r :: rs' => x <- serve d r ;; xs <- serve_all d rs' ;; ret (x :: xs)
  end.

(** The same requests on the blocks of the disk. *)
Definition direct (V : Z -> list Z) (r : breq) : list Z * (Z -> list Z) :=
  match r with
  | BRead bn => (V bn, V)
  | BWrite bn x => (x, vupd V bn x)
  end.

Fixpoint direct_all (V : Z -> list Z) (rs : list breq) : list (list Z) * (Z -> list Z) :=
  match rs with
  | [] => ([], V)
  | r :: rs' =>
      let '(x, V') := direct V r in
      let '(xs, V'') := direct_all V' rs' in (x :: xs, V'')
  end.

(** Nothing is locked or pinned, and the disk agrees with the cache. *)
Definition idle (s : kstate) (me : nat) (d : Z) (V : Z -> list Z) : Prop :=
  bcache s me d V ∅ (fun _ => 0).

Lemma NBUF_pos : (0 < NBUF)%nat.
Proof. by apply Nat.ltb_lt. Qed.

Lemma idle_available s me d V bn : idle s me d V -> available s d bn.
Proof.
  intros Hbc. exists 0%nat. split; [apply NBUF_pos|right].
  rewrite (bc_ref _ _ _ _ _ _ Hbc) by apply NBUF_pos. rewrite decide_False by set_solver. done.
Qed.

Lemma idle_disk s me d V bn : idle s me d V -> V bn = dblock (k_disk s) bn.
Proof.
  intros Hbc. apply (bc_clean _ _ _ _ _ _ Hbc). intros b Hb _ _.
  rewrite (bc_ref _ _ _ _ _ _ Hbc) by done. rewrite decide_False by set_solver. done.
Qed.

Lemma serve_spec s me d V r :
  idle s me d V -> wp (serve d r) (fun x s' => x = fst (direct V r) /\ idle s' me d (snd (direct V r))) s.
Proof.
  intros Hi. destruct r as [bn|bn x]; simpl.
  - wp_use bread_spec; [exact Hi|set_solver|by eapply idle_available|].
    intros b s1 (_ & Hbc & Hh & _ & Hdk & _). apply wp_bind, wp_gets.
    wp_use brelse_spec; [exact Hbc|exact Hh|right; rewrite Hdk; by eapply idle_disk|].
    intros [] s2 (Hbc2 & _). apply wp_ret. split; [by eapply held_data|].
    unfold idle. by replace (∅ : gset nat) with (({[b]} ∪ ∅) ∖ {[b]} : gset nat) by set_solver.
  - wp_use bread_spec; [exact Hi|set_solver|by eapply idle_available|].
    intros b s1 (_ & Hbc & Hh & _). wp_use set_data_spec; [exact Hbc|exact Hh|].
    intros [] s2 [Hbc2 Hs2].
    assert (Hh2 : holds s2 ({[b]} ∪ ∅) b bn).
    { destruct Hh as [Hb Hbk]. split; [done|]. rewrite Hs2. simpl.
      rewrite alter_total by (eapply buf_lt; eauto). by rewrite decide_True. }
    wp_use bwrite_spec; [exact Hbc2|exact Hh2|]. intros [] s3 (Hbc3 & _ & Hb3 & Hdk).
    wp_use (brelse_spec s3 me d (vupd V bn x) ({[b]} ∪ ∅) (fun _ => 0) b bn); [exact Hbc3| | |].
    + destruct Hh2 as [? Hbk2]. split; [done|]. by rewrite Hb3.
    + right. rewrite Hdk. unfold dblock. simpl. by rewrite lookup_insert_eq.
    + intros [] s4 (Hbc4 & _). apply wp_ret. split; [done|].
      unfold idle. by replace (∅ : gset nat) with (({[b]} ∪ ∅) ∖ {[b]} : gset nat) by set_solver.
Qed.

Lemma serve_all_spec s me d V rs :
  idle s me d V ->
  wp (serve_all d rs) (fun xs s' => xs = fst (direct_all V rs) /\ idle s' me d (snd (direct_all V rs))) s.
Proof.
  revert s V. induction rs as [|r rs IH]; intros s V Hi; simpl; [by apply wp_ret|].
  wp_use serve_spec; [exact Hi|]. intros x s1 [-> Hi1]. wp_use IH; [exact Hi1|]. intros xs s2 [-> Hi2].
  apply wp_ret. destruct (direct V r) as [x V1]. simpl in *. by destruct (direct_all V1 rs).
Qed.

(** C10: the buffer cache is transparent.  After [binit], any sequence of block reads and
    writes made through [bread], [bwrite] and [brelse] returns, none of the calls
    panics, the results are those of the same requests on the disk blocks themselves,
    and at the end every block of the disk has the contents of the last write to it:
    the cached copies, their recycling in LRU order and the sleep-locks are invisible. *)
Theorem bcache_transparent s me d rs :
  bzeroed s me d ->
  wp (binit ;; serve_all d rs) (fun xs s' =>
    xs = fst (direct_all (dblock (k_disk s)) rs) /\
    forall bn, dblock (k_disk s') bn = snd (direct_all (dblock (k_disk s)) rs) bn) s.
Proof.
  intros Hz. wp_use binit_spec; [exact Hz|]. intros [] s1 [Hbc _].
  wp_use serve_all_spec; [exact Hbc|]. intros xs s2 [-> Hi2]. split; [done|].
  intros bn. symmetry. by eapply idle_disk.
Qed.
End clients.

(** A booted kernel in which process 0 runs on hart 0. *)
Definition sample_boot : kstate := set_k_cpus (alter (set_cproc (Some 0%nat)) 0%nat (k_cpus boot_state)) boot_state.

Lemma sample_bzeroed : bzeroed sample_boot 0 ROOTDEV.
Proof.
  split; try done.
  - split_and!; [simpl; unfold NCPU; lia|done|done].
  - intros b Hb. change (k_bufs sample_boot) with (replicate (S NBUF) zero_buf).
    rewrite lookup_total_replicate_2 by lia. done.
Qed.

Lemma bcache_transparent_witness :
  wp (binit ;; @serve_all one_round ROOTDEV [BWrite 45 (s2b "data"); BRead 46; BRead 45])
    (fun xs s' => xs = [s2b "data"; replicate BSIZE 0; s2b "data"]) sample_boot.
Proof.
  eapply wp_mono; [exact (@bcache_transparent one_round sample_boot 0 ROOTDEV
    [BWrite 45 (s2b "data"); BRead 46; BRead 45] sample_bzeroed)|].
  intros xs s' [Hxs _]. rewrite Hxs. reflexivity.
Defined.
