(* ===== verification/Log.v ===== *)
(** The write-ahead log, [kernel/log.c].

    [k_log] is the variable [log]; its header [log.lh] is the pair of [lhn] and
    [lhblock].  On disk the header is the block [log.start]: [n] at offset 0 and
    [block[i]] at offset [4 + 4 i]. *)
From S2P Require Import Prelude Machine Riscv State Spinlock KString Kalloc Vm Sched Block Bio.
From Stdlib Require Import ZArith Lia.
From stdpp Require Import base strings numbers gmap list.
Local Open Scope Z_scope.
Local Open Scope m_scope.

Definition get_log : K logst := gets k_log.
Definition upd_log (f : logst -> logst) : K unit := modify (fun s => set_k_log (f (k_log s)) s).

(** [struct logheader] laid over the data of a buffer. *)
Definition hb_n (data : list Z) : Z := s32 (rd32 0 data).
Definition hb_block (i : Z) (data : list Z) : Z := s32 (rd32 (Z.to_nat (4 + 4 * i)) data).
Definition set_hb_n (v : Z) (data : list Z) : list Z := wr32 0 v data.
Definition set_hb_block (i v : Z) (data : list Z) : list Z := wr32 (Z.to_nat (4 + 4 * i)) v data.
Definition sizeof_logheader : Z := 4 + 4 * LOGSIZE.

(** [log.lh.block[i] = v]. *)
Definition set_lh_block (i v : Z) : K unit :=
  if (0 <=? i) && (i <? LOGSIZE) then upd_log (fun l => set_lhblock (<[Z.to_nat i := v]> (lhblock l)) l)
  else stop (Fault "log.lh.block").
Definition get_lh_block (i : Z) : K Z :=
  l <- get_log ;;
  match (if (0 <=? i) && (i <? LOGSIZE) then lhblock l !! Z.to_nat i else None) with
  | Some v => ret v
  | None => stop (Fault "log.lh.block")
  end.

(** [memmove(to->data, from->data, BSIZE)] for two buffers. *)
Definition copy_data (to from : nat) : K unit :=
  fb <- get_buf from ;;
  upd_buf to (set_bdata (bdata fb)).

Section log.
Context `{Patience}.

Definition install_trans (recovering : bool) : K unit :=
  l <- get_log ;;
  for_each (zrange 0 (Z.to_nat (lhn l))) (fun tail =>
    l <- get_log ;;
    lbuf <- bread (u32 (ldev l)) (u32 (lstart l + tail + 1)) ;;
    bn <- get_lh_block tail ;;
    dbuf <- bread (u32 (ldev l)) (u32 bn) ;;
    copy_data dbuf lbuf ;;
    bwrite dbuf ;;
    when (negb recovering) (bunpin dbuf) ;;
    brelse lbuf ;;
    brelse dbuf).

Definition read_head : K unit :=
  l <- get_log ;;
  b <- bread (u32 (ldev l)) (u32 (lstart l)) ;;
  lh <- get_buf b ;;
  upd_log (set_lhn (hb_n (bdata lh))) ;;
  l <- get_log ;;
  for_each (zrange 0 (Z.to_nat (lhn l))) (fun i =>
    lh <- get_buf b ;;
    set_lh_block i (hb_block i (bdata lh))) ;;
  brelse b.

Definition write_head : K unit :=
  l <- get_log ;;
  b <- bread (u32 (ldev l)) (u32 (lstart l)) ;;
  l <- get_log ;;
  upd_buf b (fun hb => set_bdata (set_hb_n (lhn l) (bdata hb)) hb) ;;
  for_each (zrange 0 (Z.to_nat (lhn l))) (fun i =>
    bn <- get_lh_block i ;;
    upd_buf b (fun hb => set_bdata (set_hb_block i bn (bdata hb)) hb)) ;;
  bwrite b ;;
  brelse b.

Definition recover_from_log : K unit :=
  read_head ;;
  install_trans true ;;
  upd_log (set_lhn 0) ;;
  write_head.

Definition initlog (dev : Z) (sb : superblock) : K unit :=
  if Z.of_nat BSIZE <=? sizeof_logheader then panic "initlog: too big logheader" else
  initlock L_log ;;
  upd_log (set_lstart (s32 (sb_logstart sb))) ;;
  upd_log (set_lsize (s32 (sb_nlog sb))) ;;
  upd_log (set_ldev dev) ;;
  recover_from_log.

Definition begin_op : K unit :=
  acquire L_log ;;
  while_fuel OutOfFuel (S patience) (fun _ : unit =>
    l <- get_log ;;
    if lcommitting l then
      sleep C_log L_log ;; ret (inl tt)
    else if LOGSIZE <? lhn l + (loutstanding l + 1) * MAXOPBLOCKS then
      sleep C_log L_log ;; ret (inl tt)
    else
      upd_log (fun l => set_loutstanding (loutstanding l + 1) l) ;;
      release L_log ;;
      ret (inr tt)) tt.

Definition write_log : K unit :=
  l <- get_log ;;
  for_each (zrange 0 (Z.to_nat (lhn l))) (fun tail =>
    l <- get_log ;;
    to <- bread (u32 (ldev l)) (u32 (lstart l + tail + 1)) ;;
    bn <- get_lh_block tail ;;
    from <- bread (u32 (ldev l)) (u32 bn) ;;
    copy_data to from ;;
    bwrite to ;;
    brelse from ;;
    brelse to).

Definition commit : K unit :=
  l <- get_log ;;
  when (0 <? lhn l)
    (write_log ;;
     write_head ;;
     install_trans false ;;
     upd_log (set_lhn 0) ;;
     write_head).

Definition end_op : K unit :=
  acquire L_log ;;
  upd_log (fun l => set_loutstanding (loutstanding l - 1) l) ;;
  l <- get_log ;;
  if lcommitting l then panic "log.committing" else
  do_commit <- (if loutstanding l =? 0 then
                  upd_log (set_lcommitting true) ;;
                  ret true
                else
                  wakeup C_log ;;
                  ret false) ;;
  release L_log ;;
  when do_commit
    (commit ;;
     acquire L_log ;;
     upd_log (set_lcommitting false) ;;
     wakeup C_log ;;
     release L_log).
End log.

Definition log_write (b : nat) : K unit :=
  acquire L_log ;;
  l <- get_log ;;
  if (LOGSIZE <=? lhn l) || (lsize l - 1 <=? lhn l) then panic "too big a transaction" else
  if loutstanding l <? 1 then panic "log_write outside of trans" else
  bb <- get_buf b ;;
  r <- for_ret (zrange 0 (Z.to_nat (lhn l))) (fun i =>
    bn <- get_lh_block i ;;
    if u32 bn =? bblockno bb then ret (Some i) else ret None) ;;
  let i := default (lhn l) r in
  set_lh_block i (s32 (bblockno bb)) ;;
  when (i =? lhn l)
    (bpin b ;;
     upd_log (fun l => set_lhn (lhn l + 1) l)) ;;
  release L_log.
