(* ===== verification/LogSpec.v ===== *)
(** The operations of the log on top of the buffer cache.

    Every change the log makes to a block is written through to the disk, so what an
    operation does is the list of its block writes: [vapply V w] is the contents of the
    device after the writes [w], and [dapply] the same on the disk. *)
From S2P Require Import Prelude Machine Riscv State Spinlock KString Kalloc Vm Sched Block Bio BufCache Log.
From Stdlib Require Import ZArith Lia.
From stdpp Require Import base strings numbers gmap list.
Local Open Scope Z_scope.
Local Open Scope m_scope.

Abbreviation writes := (list (Z * list Z)).

Definition vapply (V : Z -> list Z) (w : writes) : Z -> list Z := foldl (fun V p => vupd V p.1 p.2) V w.
Definition dapply (dk : diskst) (w : writes) : diskst :=
  mkDisk (foldl (fun m p => <[p.1 := p.2]> m) (dblocks dk) w) (dtrace dk ++ w).

Lemma vapply_app V w1 w2 : vapply V (w1 ++ w2) = vapply (vapply V w1) w2.
Proof. apply foldl_app. Qed.

Lemma dapply_app dk w1 w2 : dapply (dapply dk w1) w2 = dapply dk (w1 ++ w2).
Proof. unfold dapply. simpl. by rewrite foldl_app, app_assoc. Qed.

Lemma dapply_nil dk : dapply dk [] = dk.
Proof. unfold dapply. simpl. rewrite app_nil_r. by destruct dk. Qed.

Lemma dblock_dapply dk w bn : dblock (dapply dk w) bn = vapply (dblock dk) w bn.
Proof.
  revert dk. induction w as [|[n x] w IH] using rev_ind; intros dk; [by rewrite dapply_nil|].
  rewrite <- dapply_app, vapply_app. simpl. unfold vupd, dblock at 1. simpl.
  destruct (decide (n = bn)) as [->|Hne]; [by rewrite lookup_insert_eq|].
  rewrite lookup_insert_ne by done. apply IH.
Qed.

Lemma vapply_notin V w bn : (bn ∉ w.*1) -> vapply V w bn = V bn.
Proof.
  revert V. induction w as [|[n x] w IH] using rev_ind; intros V Hni; [done|].
  rewrite vapply_app. simpl. rewrite fmap_app in Hni. simpl in Hni. unfold vupd.
  rewrite decide_False by set_solver. apply IH. set_solver.
Qed.

(** Two device contents that agree at [bn] still do after the same writes. *)
Lemma vapply_ext V V' w bn : V bn = V' bn -> vapply V w bn = vapply V' w bn.
Proof.
  revert V V'. induction w as [|[n x] w IH]; intros V V' HV; [done|]. simpl. apply IH.
  unfold vupd. by case_decide.
Qed.

(** The last write to a block decides. *)
Lemma vapply_in V w i bn x :
  NoDup w.*1 -> w !! i = Some (bn, x) -> vapply V w bn = x.
Proof.
  intros Hnd Hi. rewrite <- (take_drop_middle _ _ _ Hi) in Hnd |- *. revert Hnd.
  generalize (take i w) (drop (S i) w). clear Hi. intros w1 w2 Hnd.
  rewrite fmap_app in Hnd. simpl in Hnd. apply NoDup_app in Hnd as (_ & _ & Hnd). apply NoDup_cons in Hnd as [Hni _].
  rewrite vapply_app. change ((bn, x) :: w2) with ([(bn, x)] ++ w2). rewrite vapply_app.
  rewrite vapply_notin by done. simpl. unfold vupd. by rewrite decide_True.
Qed.

(** ** Frames *)

(** Everything but the cache, the disk and the log. *)
Definition lscrub (s : kstate) : kstate := set_k_log zero_log (scrub s).
Definition lsame (s s' : kstate) : Prop := lscrub s' = lscrub s /\ quiet (k_procs s) (k_procs s').

Lemma lsame_refl s : lsame s s.
Proof. split; [done|apply quiet_refl]. Qed.
Lemma lsame_trans s1 s2 s3 : lsame s1 s2 -> lsame s2 s3 -> lsame s1 s3.
Proof. intros [H1 Q1] [H2 Q2]. split; [congruence|by eapply quiet_trans]. Qed.
Lemma same_rest_lsame s s' : same_rest s s' -> lsame s s'.
Proof. intros [Hs Hq]. split; [|done]. unfold lscrub. by rewrite Hs. Qed.
Lemma lsame_set_log l s : lsame s (set_k_log l s).
Proof. split; [done|apply quiet_refl]. Qed.
Lemma lsame_locks s s' : lsame s s' -> k_locks s' = k_locks s.
Proof. intros [Hs _]. by apply (f_equal k_locks) in Hs. Qed.
Lemma lsame_free l s s' : lsame s s' -> lock_free l s -> lock_free l s'.
Proof. intros Hs Hf. unfold lock_free. by rewrite (lsame_locks _ _ Hs). Qed.

Lemma bcache_set_log s me d V held pin l :
  bcache s me d V held pin -> bcache (set_k_log l s) me d V held pin.
Proof. intros []. by split. Qed.

Lemma bcache_acquired s me d V held pin :
  bcache s me d V held pin -> bcache (acquired L_log s) me d V held pin.
Proof.
  intros []. split; try assumption.
  - by apply hart_ok_acquired.
  - by apply lock_free_acquired.
  - intros l. by apply lock_free_acquired.
  - intros i. by apply lock_free_acquired.
  - unfold runs. by rewrite cproc_acquired.
Qed.

(** The end of a critical section under the log's lock. *)
Definition lerase (s : kstate) : kstate :=
  set_k_log zero_log (set_k_bufs [] (set_k_slocks (islocks (k_slocks s)) (set_k_procs [] (set_k_disk (mkDisk ∅ []) s)))).

Lemma lscrub_erase s : lscrub s = lerase (settle s).
Proof. done. Qed.

Lemma lerase_released l s : lerase (released l s) = released l (lerase s).
Proof. done. Qed.

Lemma lsame_held s s' :
  hart_ok s -> lsame (acquired L_log s) s' -> hart_ok s' ->
  0 < noff (cur s') /\ lock_held L_log s' /\ lerase s' = lerase (acquired L_log s).
Proof.
  intros Hok [Hs _] Hok'.
  assert (Hhart : k_hart s' = k_hart (acquired L_log s)) by (by apply (f_equal k_hart) in Hs).
  assert (Hcpus : k_cpus (settle s') = k_cpus (settle (acquired L_log s))) by (by apply (f_equal k_cpus) in Hs).
  assert (Hlk : k_locks s' = k_locks (acquired L_log s)) by (by apply (f_equal k_locks) in Hs).
  assert (Hn : 0 < noff (cur s')).
  { rewrite <- noff_settle by done. unfold cur. rewrite Hcpus.
    change (k_hart (settle s')) with (k_hart s'). rewrite Hhart.
    change (0 < noff (cur (settle (acquired L_log s)))).
    rewrite settle_acquired by done. by apply noff_acquired. }
  split_and!; [done| |].
  - unfold lock_held. rewrite Hlk, Hhart. apply lookup_insert_eq.
  - rewrite !lscrub_erase in Hs. rewrite settle_acquired in Hs by done. by rewrite settle_nested in Hs.
Qed.

Lemma lsame_release s s' :
  hart_ok s -> lock_free L_log s -> lsame (acquired L_log s) s' -> hart_ok s' ->
  release L_log s' = Ok tt (released L_log s') /\ lsame s (released L_log s') /\ hart_ok (released L_log s').
Proof.
  intros Hok Hf Hs Hok'. destruct (lsame_held s s' Hok Hs Hok') as (Hn & Hh & He).
  split_and!.
  - by apply release_run.
  - split; [|exact (proj2 Hs)]. rewrite !lscrub_erase.
    change (lerase (settle (released L_log s'))) with (settle (lerase (released L_log s'))).
    rewrite lerase_released, He, <- lerase_released, released_acquired by done.
    change (settle (lerase (settle s))) with (lerase (settle (settle s))). by rewrite settle_settle.
  - by apply hart_ok_popped.
Qed.

Lemma bcache_released s me d V held pin :
  bcache s me d V held pin -> 0 < noff (cur s) -> bcache (released L_log s) me d V held pin.
Proof.
  intros [] Hn. assert (Hl : forall l, lock_free l s -> lock_free l (released L_log s)).
  { intros l Hl. unfold lock_free. simpl. rewrite lookup_delete. case_decide; done. }
  split; try assumption; auto.
  - by apply hart_ok_popped.
  - intros i. auto.
  - unfold runs. change (cur (released L_log s)) with (cur (popped s)). by rewrite cproc_popped.
Qed.

(** ** Headers *)

Fixpoint hdr_upto (bl : list Z) (x : list Z) (i : nat) : list Z :=
  match i with
  | O => set_hb_n (Z.of_nat (length bl)) x
  | S i' => set_hb_block (Z.of_nat i') (bl !!! i') (hdr_upto bl x i')
  end.

(** The header block that lists [bl], written over [x]. *)
Definition header (bl : list Z) (x : list Z) : list Z := hdr_upto bl x (length bl).

Definition int (v : Z) : Prop := 0 <= v < 2 ^ 31.

Lemma s32_int v : int v -> s32 (v mod 2 ^ 32) = v.
Proof. unfold int. intros Hv. rewrite Z.mod_small by lia. apply swrap_small; lia. Qed.

Section headers.
Variables (bl : list Z) (x : list Z).
Hypothesis Hlen : length x = BSIZE.
Hypothesis Hbl : (length bl <= Z.to_nat LOGSIZE)%nat.

Lemma LOGSIZE_nat : Z.to_nat LOGSIZE = 30%nat.
Proof. done. Qed.

Lemma hdr_length i : (i <= length bl)%nat -> length (hdr_upto bl x i) = BSIZE.
Proof.
  pose proof Hbl as Hb30; rewrite LOGSIZE_nat in Hb30. induction i as [|i IH]; intros Hi; cbn [hdr_upto].
  - unfold set_hb_n. rewrite length_wr; [done|]. rewrite Hlen. unfold BSIZE. lia.
  - unfold set_hb_block. rewrite length_wr; rewrite IH by lia; [done|]. unfold BSIZE. lia.
Qed.

Lemma hdr_n i : (i <= length bl)%nat -> int (Z.of_nat (length bl)) -> hb_n (hdr_upto bl x i) = Z.of_nat (length bl).
Proof.
  intros Hi Hint. pose proof Hbl as Hb30; rewrite LOGSIZE_nat in Hb30. induction i as [|i IH]; cbn [hdr_upto]; unfold hb_n.
  - unfold set_hb_n. rewrite rd_wr_eq by (rewrite Hlen; unfold BSIZE; lia). by apply s32_int.
  - unfold set_hb_block. rewrite rd_wr_ne; [apply IH; lia| |lia]. rewrite hdr_length by lia. unfold BSIZE. lia.
Qed.

Lemma hdr_block i j : (i <= length bl)%nat -> (j < i)%nat -> Forall int bl -> hb_block (Z.of_nat j) (hdr_upto bl x i) = bl !!! j.
Proof.
  intros Hi Hj Hint. pose proof Hbl as Hb30; rewrite LOGSIZE_nat in Hb30. induction i as [|i IH]; [lia|]. cbn [hdr_upto]. unfold hb_block, set_hb_block.
  assert (Hl : length (hdr_upto bl x i) = BSIZE) by (apply hdr_length; lia).
  destruct (decide (j = i)) as [->|Hne].
  - rewrite rd_wr_eq by (rewrite Hl; unfold BSIZE; lia). apply s32_int.
    rewrite Forall_lookup in Hint. destruct (lookup_lt_is_Some_2 bl i ltac:(lia)) as [v Hv].
    rewrite (list_lookup_total_correct _ _ _ Hv). by eapply Hint.
  - rewrite rd_wr_ne; [apply IH; lia|rewrite Hl; unfold BSIZE; lia|lia].
Qed.
End headers.

(** ** Where the log is, and what it holds *)

Section ops.
Context `{Patience}.
Variables (me : nat) (d st nl : Z).
Hypothesis Hd : 0 <= d < 2 ^ 32.
Hypothesis Hst : 0 <= st.
Hypothesis Hnl : 0 < nl /\ st + nl < 2 ^ 31.

Definition in_log (bn : Z) : Prop := st <= bn < st + nl.

Record logmem (l : logst) (bl : list Z) : Prop := {
  lm_dev : ldev l = d;
  lm_start : lstart l = st;
  lm_size : lsize l = nl;
  lm_n : lhn l = Z.of_nat (length bl);
  lm_len : length (lhblock l) = Z.to_nat LOGSIZE;
  lm_blocks : take (length bl) (lhblock l) = bl;
  lm_fit : (length bl <= Z.to_nat LOGSIZE)%nat /\ Z.of_nat (length bl) < nl;
  lm_range : Forall (fun bn => int bn /\ ~ in_log bn) bl;
  lm_nodup : NoDup bl
}.

(** The buffers [pl] are pinned, once each, for the blocks [bl]. *)
Record pinned (s : kstate) (pin : nat -> Z) (pl : list nat) (bl : list Z) : Prop := {
  pn_blk : Forall2 (fun b bn => (b < NBUF)%nat /\ bblockno (k_bufs s !!! b) = bn) pl bl;
  pn_nodup : NoDup pl;
  pn_pin : forall b, pin b = if decide (b ∈ pl) then 1 else 0
}.

(** [s'] is [s] after the block writes [w], with the log in memory now [l']. *)
Record step (s : kstate) (V : Z -> list Z) (pin' : nat -> Z) (w : writes) (l' : logst) (s' : kstate) : Prop := {
  sp_bc : bcache s' me d (vapply V w) ∅ pin';
  sp_disk : k_disk s' = dapply (k_disk s) w;
  sp_rest : lsame s s';
  sp_log : k_log s' = l';
  sp_blk : forall c, 0 < pin' c -> bblockno (k_bufs s' !!! c) = bblockno (k_bufs s !!! c)
}.

Lemma step_refl s V pin : bcache s me d V ∅ pin -> step s V pin [] (k_log s) s.
Proof. intros Hbc. split; [done|by rewrite dapply_nil|apply lsame_refl|done|done]. Qed.

Lemma step_trans s V w1 l1 s1 pin1 w2 l2 s2 pin2 :
  step s V pin1 w1 l1 s1 -> step s1 (vapply V w1) pin2 w2 l2 s2 -> (forall c, 0 < pin2 c -> 0 < pin1 c) ->
  step s V pin2 (w1 ++ w2) l2 s2.
Proof.
  intros [B1 D1 R1 L1 K1] [B2 D2 R2 L2 K2] Hp. split.
  - by rewrite vapply_app.
  - by rewrite D2, D1, dapply_app.
  - by eapply lsame_trans.
  - done.
  - intros c Hc. rewrite K2, K1 by auto. done.
Qed.

Lemma pinned_step s V pin pl bl w l' s' : pinned s pin pl bl -> step s V pin w l' s' -> pinned s' pin pl bl.
Proof.
  intros [Hb Hn Hp] Hs. split; [|done|done]. rewrite Forall2_lookup in *. intros i. specialize (Hb i).
  inversion Hb as [b bn [Hlt Hbk] E1 E2|E1 E2]; constructor. split; [done|].
  rewrite (sp_blk _ _ _ _ _ _ Hs); [done|]. rewrite Hp, decide_True; [lia|]. by eapply list_elem_of_lookup_2.
Qed.

Lemma pinned_pos s pin pl bl b : pinned s pin pl bl -> 0 < pin b <-> b ∈ pl.
Proof. intros [_ _ Hp]. rewrite Hp. case_decide; split; (done || lia). Qed.

(** A buffer is free when not all of them are pinned or locked. *)
Lemma free_buffer s V held pin bn (pl : list nat) :
  bcache s me d V held pin -> (forall b, 0 < pin b -> b ∈ pl) -> (length pl + size held < NBUF)%nat -> available s d bn.
Proof.
  intros Hbc Hpl Hlt. set (busy := elements held ++ pl).
  destruct (decide (Exists (fun b => b ∉ busy) (seq 0 NBUF))) as [HE|HE].
  - apply Exists_exists in HE as (b & Hb%elem_of_seq & Hnb). exists b. split; [lia|]. right.
    assert (Hnh : b ∉ held) by (intros Hin; apply Hnb, elem_of_app; left; by apply elem_of_elements).
    rewrite (bc_ref _ _ _ _ _ _ Hbc), decide_False by (done || lia).
    pose proof (bc_pin _ _ _ _ _ _ Hbc b) as Hp. destruct (decide (0 < pin b)) as [Hpos|]; [|lia].
    destruct Hnb. apply elem_of_app. right. auto.
  - exfalso. assert (Hsub : seq 0 NBUF ⊆+ busy).
    { apply NoDup_submseteq; [apply NoDup_seq|]. intros b Hb. destruct (decide (b ∈ busy)); [done|].
      destruct HE. apply Exists_exists. eauto. }
    apply submseteq_length in Hsub. unfold busy in Hsub. rewrite length_seq, length_app in Hsub.
    change (length (elements held)) with (size held) in Hsub. lia.
Qed.

(** A block that is not pinned is clean when nothing is locked. *)
Lemma unpinned_clean s V pin pl bl bn :
  bcache s me d V ∅ pin -> pinned s pin pl bl -> (bn ∉ bl) -> V bn = dblock (k_disk s) bn.
Proof.
  intros Hbc Hp Hni. apply (bc_clean _ _ _ _ _ _ Hbc). intros b Hb Hdev Hbk.
  rewrite (bc_ref _ _ _ _ _ _ Hbc), decide_False by (done || set_solver).
  rewrite (pn_pin _ _ _ _ Hp). case_decide as Hin; [|done]. destruct Hni.
  apply list_elem_of_lookup in Hin as [i Hi]. pose proof (pn_blk _ _ _ _ Hp) as HF.
  destruct (Forall2_lookup_l _ _ _ _ _ HF Hi) as (bn' & Hbn' & _ & <-). rewrite Hbk in Hbn'.
  by eapply list_elem_of_lookup_2.
Qed.

Lemma pinned_available s V pin held pl bl bn :
  bcache s me d V held pin -> pinned s pin pl bl -> bn ∈ bl -> available s d bn.
Proof.
  intros Hbc Hp Hin. apply list_elem_of_lookup in Hin as [i Hi]. pose proof (pn_blk _ _ _ _ Hp) as HF.
  destruct (Forall2_lookup_r _ _ _ _ _ HF Hi) as (b & Hb & Hlt & Hbk). exists b. split; [done|left].
  split; [|done]. apply (bc_dev _ _ _ _ _ _ Hbc); [done|]. rewrite (bc_ref _ _ _ _ _ _ Hbc) by done.
  assert (Hpos : 0 < pin b) by (apply (pinned_pos _ _ _ _ b Hp); by eapply list_elem_of_lookup_2).
  case_decide; lia.
Qed.

Lemma get_lh_block_run l bl i bn s :
  k_log s = l -> logmem l bl -> bl !! i = Some bn -> get_lh_block (Z.of_nat i) s = Ok bn s.
Proof.
  intros Hl Hm Hi. unfold get_lh_block, get_log, gets, bind. cbn [after]. rewrite Hl.
  pose proof (lm_fit _ _ Hm) as [Hfit _]. rewrite LOGSIZE_nat in Hfit.
  apply lookup_lt_Some in Hi as Hlt. replace ((0 <=? Z.of_nat i) && (Z.of_nat i <? LOGSIZE)) with true by (unfold LOGSIZE, MAXOPBLOCKS; lia).
  rewrite Nat2Z.id. replace (lhblock l !! i) with (Some bn); [done|].
  rewrite <- Hi, <- (lm_blocks _ _ Hm) at 1. by rewrite lookup_take_lt.
Qed.

Lemma u32_dev : u32 d = d.
Proof. by apply wrap_small. Qed.
Lemma u32_log bn : in_log bn -> u32 bn = bn.
Proof. unfold in_log. intros Hb. apply wrap_small. lia. Qed.
Lemma in_log_start : in_log st.
Proof. unfold in_log. lia. Qed.

(** The state after the data of a locked buffer has been replaced. *)
Lemma set_data_bcache s V held pin b bn x :
  bcache s me d V held pin -> holds s held b bn ->
  bcache (set_k_bufs (alter (set_bdata x) b (k_bufs s)) s) me d (vupd V bn x) held pin /\
  holds (set_k_bufs (alter (set_bdata x) b (k_bufs s)) s) held b bn /\
  forall c, bblockno (alter (set_bdata x) b (k_bufs s) !!! c) = bblockno (k_bufs s !!! c).
Proof.
  intros Hbc Hh. pose proof (set_data_spec _ _ _ _ _ _ Hbc b bn x Hh) as Hw. apply proj1 in Hw.
  assert (Hlt : (b < length (k_bufs s))%nat) by (eapply buf_lt; [exact Hbc|apply Hh]).
  assert (Hall : forall c, bblockno (alter (set_bdata x) b (k_bufs s) !!! c) = bblockno (k_bufs s !!! c)).
  { intros c. rewrite alter_total by done. by case_decide. }
  split_and!; [done| |done]. destruct Hh as [Hb Hbk]. split; [done|]. simpl. by rewrite Hall.
Qed.

Lemma set_k_bufs_twice l l' s : set_k_bufs l (set_k_bufs l' s) = set_k_bufs l s.
Proof. done. Qed.

Lemma write_head_spec s V pin pl pbl bl :
  bcache s me d V ∅ pin -> pinned s pin pl pbl -> (length pl < NBUF)%nat -> (st ∉ pbl) ->
  logmem (k_log s) bl -> length (V st) = BSIZE ->
  wp write_head (fun _ s' => step s V pin [(st, header bl (V st))] (k_log s) s') s.
Proof.
  intros Hbc Hp Hfew Hni Hm Hlen. unfold write_head. apply wp_bind, wp_gets.
  rewrite (lm_dev _ _ Hm), (lm_start _ _ Hm), u32_dev, (u32_log _ in_log_start).
  wp_use (bread_spec s me d V ∅ pin Hbc st); [set_solver| |].
  { eapply (free_buffer s V ∅ pin st pl); [done|intros b; apply (pinned_pos _ _ _ _ b Hp)|].
    rewrite size_empty. lia. }
  intros b s1 (_ & Hbc1 & Hh1 & Hr1 & Hdk1 & _ & Hpb1). apply wp_bind, wp_gets.
  rewrite (same_rest_log _ _ Hr1), (lm_n _ _ Hm), Nat2Z.id.
  set (x := V st) in *. set (upd i := set_k_bufs (alter (set_bdata (hdr_upto bl x i)) b (k_bufs s1)) s1).
  apply wp_bind, wp_modify. replace (set_k_bufs _ s1) with (upd 0%nat).
  2:{ unfold upd. f_equal. apply alter_ext_at'. by rewrite (held_data _ _ _ _ _ _ Hbc1 b st Hh1). }
  apply wp_bind. eapply wp_mono.
  { apply (wp_for_range (fun i s' => s' = upd i)); [done|]. intros i s' Hi ->. rewrite Z.add_0_l.
    destruct (lookup_lt_is_Some_2 bl i Hi) as [bn Hbn].
    apply wp_bind. eapply wp_ok; [eapply get_lh_block_run; [|done|exact Hbn]; by apply same_rest_log|].
    apply wp_modify. unfold upd. simpl k_bufs. rewrite list_alter_alter_eq.
    rewrite set_k_bufs_twice. f_equal. apply alter_ext_at'. simpl. by rewrite (list_lookup_total_correct _ _ _ Hbn). }
  intros [] s2 ->. unfold upd. fold (header bl x).
  destruct (set_data_bcache s1 V _ pin b st (header bl x) Hbc1 Hh1) as (Hbc2 & Hh2 & Hbk2).
  set (s2 := set_k_bufs _ s1) in *. wp_use (bwrite_spec s2 me d _ _ pin Hbc2 b st Hh2).
  intros [] s3 (Hbc3 & Hr3 & Hb3 & Hdk3). rewrite vupd_eq in Hdk3.
  assert (Hh3 : holds s3 ({[b]} ∪ ∅) b st) by (unfold holds; by rewrite Hb3).
  eapply wp_mono; [apply (brelse_spec s3 me d _ _ pin b st Hbc3 Hh3)|].
  { right. rewrite vupd_eq, Hdk3. unfold dblock. simpl. by rewrite lookup_insert_eq. }
  intros [] s4 (Hbc4 & Hr4 & Hdk4 & Hbk4).
  replace (({[b]} ∪ ∅) ∖ {[b]} : gset nat) with (∅ : gset nat) in Hbc4 by set_solver.
  split; [done| | | |].
  - rewrite Hdk4, Hdk3. unfold s2, dapply. simpl. by rewrite Hdk1.
  - apply (lsame_trans _ s1); [by apply same_rest_lsame|]. apply (lsame_trans _ s2); [split; [done|apply quiet_refl]|].
    apply (lsame_trans _ s3); by apply same_rest_lsame.
  - rewrite (same_rest_log _ _ Hr4), (same_rest_log _ _ Hr3). by apply same_rest_log.
  - intros c Hc. rewrite Hbk4, Hb3. unfold s2. simpl. rewrite Hbk2. by apply Hpb1.
Qed.

(** *** Copying blocks into the log *)

Lemma pinned_blk s s' pin pl bl :
  pinned s pin pl bl -> (forall c, 0 < pin c -> bblockno (k_bufs s' !!! c) = bblockno (k_bufs s !!! c)) -> pinned s' pin pl bl.
Proof.
  intros Hp Hk. pose proof Hp as [Hb Hn Hpp]. split; [|done|done]. rewrite Forall2_lookup in *. intros i. specialize (Hb i).
  inversion Hb as [b bn [Hlt Hbk] E1 E2|E1 E2]; constructor. split; [done|].
  rewrite Hk; [done|]. apply (pinned_pos _ _ _ _ b Hp). by eapply list_elem_of_lookup_2.
Qed.

Lemma pinned_buf s V held pin pl bl i bn b :
  bcache s me d V held pin -> pinned s pin pl bl -> bl !! i = Some bn -> holds s held b bn -> pl !! i = Some b.
Proof.
  intros Hbc Hp Hi [Hb Hbk]. pose proof (pn_blk _ _ _ _ Hp) as HF.
  destruct (Forall2_lookup_r _ _ _ _ _ HF Hi) as (c & Hc & Hlt & Hck). rewrite Hc. f_equal.
  assert (Hpc : 0 < pin c) by (apply (pinned_pos _ _ _ _ c Hp); by eapply list_elem_of_lookup_2).
  apply (bc_uniq _ _ _ _ _ _ Hbc); [done|by eapply bc_held| |by eapply held_dev|congruence].
  apply (bc_dev _ _ _ _ _ _ Hbc); [done|]. rewrite (bc_ref _ _ _ _ _ _ Hbc) by done. case_decide; lia.
Qed.

Lemma copy_data_wp to from x s Q :
  bdata (k_bufs s !!! from) = x -> Q tt (set_k_bufs (alter (set_bdata x) to (k_bufs s)) s) -> wp (copy_data to from) Q s.
Proof. intros <- HQ. unfold copy_data. apply wp_bind, wp_gets, wp_modify. exact HQ. Qed.

Lemma drop2 (a b : nat) : a <> b -> ({[b]} ∪ ({[a]} ∪ ∅)) ∖ {[b]} ∖ {[a]} = (∅ : gset nat) /\ ({[b]} ∪ ({[a]} ∪ ∅)) ∖ {[a]} ∖ {[b]} = (∅ : gset nat).
Proof. intros Hne. split; set_solver. Qed.

(** The two blocks one round of [write_log] or [install_trans] works on: a log block,
    which needs a free buffer, and a home block, which is pinned or needs another. *)
Lemma read_two s V pin pl pbl bl i lb hb (m : nat -> nat -> K unit) Q :
  bcache s me d V ∅ pin -> pinned s pin pl pbl -> (length pl < NBUF)%nat ->
  logmem (k_log s) bl -> bl !! i = Some hb -> in_log lb ->
  (hb ∈ pbl \/ (length pl + 1 < NBUF)%nat) -> (lb ∉ pbl) ->
  (forall a b s', a <> b -> bcache s' me d V ({[b]} ∪ ({[a]} ∪ ∅)) pin -> holds s' ({[b]} ∪ ({[a]} ∪ ∅)) a lb ->
     holds s' ({[b]} ∪ ({[a]} ∪ ∅)) b hb -> same_rest s s' -> k_disk s' = k_disk s -> pinned s' pin pl pbl ->
     (forall c, 0 < pin c -> bblockno (k_bufs s' !!! c) = bblockno (k_bufs s !!! c)) ->
     V lb = dblock (k_disk s) lb -> wp (m a b) Q s') ->
  wp (a <- bread d lb ;; bn <- get_lh_block (Z.of_nat i) ;; b <- bread d (u32 bn) ;; m a b) Q s.
Proof.
  intros Hbc Hp Hfew Hm Hi Hlb Hav Hni Hk.
  destruct (proj1 (Forall_lookup _ _) (lm_range _ _ Hm) _ _ Hi) as [Hint Hnl'].
  wp_use (bread_spec s me d V ∅ pin Hbc lb); [set_solver| |].
  { eapply (free_buffer s V ∅ pin lb pl); [done|intros b; apply (pinned_pos _ _ _ _ b Hp)|].
    rewrite size_empty. lia. }
  intros a s1 (_ & Hbc1 & Hh1 & Hr1 & Hdk1 & _ & Hpb1). pose proof (pinned_blk _ _ _ _ _ Hp Hpb1) as Hp1.
  apply wp_bind. eapply wp_ok; [eapply get_lh_block_run; [by apply same_rest_log|done|done]|].
  rewrite (wrap_small 32 hb) by (unfold int in Hint; lia).
  wp_use (bread_spec s1 me d V _ pin Hbc1 hb).
  - intros c Hc. assert (c = a) as -> by set_solver. destruct Hh1 as [_ ->]. by intros <-.
  - destruct Hav as [Hin|Hlt]; [by eapply pinned_available|].
    eapply (free_buffer s1 V _ pin hb pl); [done|intros b; apply (pinned_pos _ _ _ _ b Hp1)|].
    rewrite union_empty_r_L, size_singleton. lia.
  - intros b s2 (Hba & Hbc2 & Hh2 & Hr2 & Hdk2 & Hkeep & Hpb2). apply Hk; try done.
    + set_solver.
    + split; [set_solver|]. rewrite Hkeep by apply Hh1. apply Hh1.
    + by eapply same_rest_trans.
    + congruence.
    + by eapply pinned_blk.
    + intros c Hc. rewrite Hpb2, Hpb1 by done. done.
    + by eapply unpinned_clean.
Qed.

(** Overwrite a locked buffer and write it through. *)
Lemma overwrite s V held pin bn to from x Q (m : K unit) :
  bcache s me d V held pin -> holds s held to bn -> bdata (k_bufs s !!! from) = x ->
  (forall s', bcache s' me d (vupd V bn x) held pin -> same_rest s s' ->
     k_disk s' = dapply (k_disk s) [(bn, x)] -> (forall c, bblockno (k_bufs s' !!! c) = bblockno (k_bufs s !!! c)) ->
     wp m Q s') ->
  wp (copy_data to from ;; bwrite to ;; m) Q s.
Proof.
  intros Hbc Hh Hx Hk. apply wp_bind, (copy_data_wp _ _ x); [done|].
  destruct (set_data_bcache s V held pin to bn x Hbc Hh) as (Hbc1 & Hh1 & Hbk1).
  wp_use (bwrite_spec _ me d _ _ pin Hbc1 to bn Hh1). intros [] s2 (Hbc2 & Hr2 & Hb2 & Hdk2).
  rewrite vupd_eq in Hdk2. apply Hk; [done| |done|].
  - eapply same_rest_trans; [|exact Hr2]. split; [done|apply quiet_refl].
  - intros c. rewrite Hb2. apply Hbk1.
Qed.

(** Release the two buffers of a round. *)
Lemma release_two s V pin a b la lb (Q : unit -> kstate -> Prop) :
  a <> b -> bcache s me d V ({[b]} ∪ ({[a]} ∪ ∅)) pin ->
  holds s ({[b]} ∪ ({[a]} ∪ ∅)) a la -> holds s ({[b]} ∪ ({[a]} ∪ ∅)) b lb ->
  (0 < pin a \/ V la = dblock (k_disk s) la) -> (0 < pin b \/ V lb = dblock (k_disk s) lb) ->
  (forall s', bcache s' me d V ∅ pin -> same_rest s s' -> k_disk s' = k_disk s ->
    (forall c, bblockno (k_bufs s' !!! c) = bblockno (k_bufs s !!! c)) -> Q tt s') ->
  wp (brelse a ;; brelse b) Q s /\ wp (brelse b ;; brelse a) Q s.
Proof.
  intros Hne Hbc Ha Hb Hca Hcb HQ. destruct (drop2 a b Hne) as [E1 E2]. split.
  - wp_use (brelse_spec s me d _ _ pin a la Hbc Ha Hca). intros [] s1 (Hbc1 & Hr1 & Hdk1 & Hbk1).
    eapply wp_mono; [apply (brelse_spec s1 me d _ _ pin b lb Hbc1)|].
    + destruct Hb as [? <-]. split; [set_solver|apply Hbk1].
    + by rewrite Hdk1.
    + intros [] s2 (Hbc2 & Hr2 & Hdk2 & Hbk2). rewrite E2 in Hbc2. apply HQ; [done|by eapply same_rest_trans|congruence|].
      intros c. by rewrite Hbk2.
  - wp_use (brelse_spec s me d _ _ pin b lb Hbc Hb Hcb). intros [] s1 (Hbc1 & Hr1 & Hdk1 & Hbk1).
    eapply wp_mono; [apply (brelse_spec s1 me d _ _ pin a la Hbc1)|].
    + destruct Ha as [? <-]. split; [set_solver|apply Hbk1].
    + by rewrite Hdk1.
    + intros [] s2 (Hbc2 & Hr2 & Hdk2 & Hbk2). rewrite E1 in Hbc2. apply HQ; [done|by eapply same_rest_trans|congruence|].
      intros c. by rewrite Hbk2.
Qed.

(** The number of the log block for entry [i]. *)
Definition lblk (i : nat) : Z := st + Z.of_nat i + 1.

Lemma logmem_lblk l bl i : logmem l bl -> (i < length bl)%nat -> in_log (lblk i).
Proof. intros Hm Hi. pose proof (lm_fit _ _ Hm). unfold in_log, lblk. lia. Qed.

Lemma logmem_notin l bl bn : logmem l bl -> in_log bn -> bn ∉ bl.
Proof. intros Hm Hl Hin. pose proof (lm_range _ _ Hm) as HF. rewrite Forall_forall in HF. by destruct (HF _ Hin). Qed.

Lemma write_log_round s V pin pl bl i bn :
  bcache s me d V ∅ pin -> pinned s pin pl bl -> (length pl < NBUF)%nat -> logmem (k_log s) bl -> bl !! i = Some bn ->
  wp (l <- get_log ;;
      to <- bread (u32 (ldev l)) (u32 (lstart l + Z.of_nat i + 1)) ;;
      bn <- get_lh_block (Z.of_nat i) ;;
      from <- bread (u32 (ldev l)) (u32 bn) ;;
      copy_data to from ;;
      bwrite to ;;
      brelse from ;;
      brelse to) (fun _ s' => step s V pin [(lblk i, V bn)] (k_log s) s') s.
Proof.
  intros Hbc Hp Hfew Hm Hi. apply wp_bind, wp_gets.
  pose proof (logmem_lblk _ _ i Hm (lookup_lt_Some _ _ _ Hi)) as Hlb.
  rewrite (lm_dev _ _ Hm), (lm_start _ _ Hm), u32_dev. fold (lblk i). rewrite (u32_log _ Hlb).
  apply (read_two s V pin pl bl bl i (lblk i) bn); try done;
    [left; by eapply list_elem_of_lookup_2|by eapply logmem_notin|].
  intros a b s1 Hne Hbc1 Ha Hb Hr1 Hdk1 Hp1 Hk1 Hcl.
  eapply overwrite; [exact Hbc1|exact Ha|by eapply held_data|]. intros s2 Hbc2 Hr2 Hdk2 Hk2.
  assert (Hpb : 0 < pin b) by (apply (pinned_pos _ _ _ _ b Hp1); eapply list_elem_of_lookup_2;
    exact (pinned_buf _ _ _ _ _ _ _ _ _ Hbc1 Hp1 Hi Hb)).
  refine (proj2 (release_two s2 _ pin a b (lblk i) bn _ Hne Hbc2 _ _ _ (or_introl Hpb) _)).
  - destruct Ha as [? <-]. by split.
  - destruct Hb as [? <-]. by split.
  - right. rewrite vupd_eq, Hdk2, dblock_dapply. simpl. by rewrite vupd_eq.
  - intros s3 Hbc3 Hr3 Hdk3 Hk3. split; [done|congruence| | |].
    + eapply lsame_trans; [|by apply same_rest_lsame]. eapply lsame_trans; by apply same_rest_lsame.
    + rewrite (same_rest_log _ _ Hr3), (same_rest_log _ _ Hr2). by apply same_rest_log.
    + intros c Hc. rewrite Hk3, Hk2. by apply Hk1.
Qed.

(** What [write_log] writes. *)
Definition wlog (V : Z -> list Z) (bl : list Z) : writes := imap (fun i bn => (lblk i, V bn)) bl.

Lemma elem_of_take {A} (x : A) n (l : list A) : x ∈ take n l -> x ∈ l.
Proof. intros Hx. rewrite <- (take_drop n l). apply elem_of_app. by left. Qed.

Lemma keys_take (w : writes) i bn : bn ∈ (take i w).*1 -> bn ∈ w.*1.
Proof. rewrite fmap_take. apply elem_of_take. Qed.

Lemma wlog_keys V bl bn : bn ∈ (wlog V bl).*1 -> exists i, (i < length bl)%nat /\ bn = lblk i.
Proof.
  intros ([n x] & -> & Hin)%list_elem_of_fmap. apply list_elem_of_lookup in Hin as [i Hi].
  unfold wlog in Hi. rewrite list_lookup_imap in Hi. destruct (bl !! i) eqn:Hb; simplify_eq/=.
  exists i. split; [by eapply lookup_lt_Some|done].
Qed.

Lemma write_log_spec s V pin pl bl :
  bcache s me d V ∅ pin -> pinned s pin pl bl -> (length pl < NBUF)%nat -> logmem (k_log s) bl ->
  wp write_log (fun _ s' => step s V pin (wlog V bl) (k_log s) s') s.
Proof.
  intros Hbc Hp Hfew Hm. unfold write_log. apply wp_bind, wp_gets. rewrite (lm_n _ _ Hm), Nat2Z.id.
  eapply wp_mono; [apply (wp_for_range (fun i s' => step s V pin (take i (wlog V bl)) (k_log s) s'))|].
  - by apply step_refl.
  - intros i s' Hi Hs. rewrite Z.add_0_l. destruct (lookup_lt_is_Some_2 bl i Hi) as [bn Hbn].
    pose proof (sp_log _ _ _ _ _ _ Hs) as Hl.
    eapply wp_mono; [apply (write_log_round s' _ pin pl bl i bn (sp_bc _ _ _ _ _ _ Hs))|].
    + by eapply pinned_step.
    + done.
    + by rewrite Hl.
    + done.
    + intros [] s'' Hs''. rewrite Hl in Hs''.
      erewrite take_S_r by (unfold wlog; rewrite list_lookup_imap, Hbn; reflexivity).
      eapply step_trans; [exact Hs| |done]. rewrite vapply_notin in Hs''; [done|].
      intros (j & Hj & ->)%keys_take%wlog_keys.
      apply (logmem_notin _ _ _ Hm (logmem_lblk _ _ j Hm Hj)). by eapply list_elem_of_lookup_2.
  - intros [] s' Hs. rewrite take_ge in Hs; [done|]. unfold wlog. rewrite length_imap. done.
Qed.

(** *** Installing the blocks of the log *)

Lemma unpin_pinned s s' pin b pl bn bl :
  pinned s pin (b :: pl) (bn :: bl) -> (forall c, bblockno (k_bufs s' !!! c) = bblockno (k_bufs s !!! c)) ->
  pinned s' (pin_upd pin b (pin b - 1)) pl bl.
Proof.
  intros [Hb Hn Hp] Hk. apply Forall2_cons in Hb as [_ Hb]. apply NoDup_cons in Hn as [Hni Hn]. split; [|done|].
  - eapply Forall2_impl; [exact Hb|]. intros c n. simpl. by rewrite Hk.
  - intros c. unfold pin_upd. rewrite !Hp. rewrite (decide_True (P := b ∈ b :: pl)) by set_solver.
    destruct (decide (b = c)) as [->|Hne]; [by rewrite decide_False|].
    destruct (decide (c ∈ pl)); [rewrite decide_True by set_solver|rewrite decide_False by set_solver]; done.
Qed.

Lemma pin_upd_le pin b c : 0 < pin_upd pin b (pin b - 1) c -> 0 < pin c.
Proof. unfold pin_upd. case_decide; [subst; lia|done]. Qed.

(** What is pinned before and after a round that installs block [bn]. *)
Definition install_pins (recovering : bool) (bn : Z) (pl pl' : list nat) (pbl pbl' : list Z) : Prop :=
  if recovering then pl = [] /\ pl' = [] /\ pbl = [] /\ pbl' = []
  else exists b, pl = b :: pl' /\ pbl = bn :: pbl'.

Lemma install_round r s V pin pl pl' pbl pbl' bl i bn :
  bcache s me d V ∅ pin -> pinned s pin pl pbl -> (length pl < NBUF)%nat -> (forall n, n ∈ pbl -> n ∈ bl) ->
  logmem (k_log s) bl -> bl !! i = Some bn -> install_pins r bn pl pl' pbl pbl' ->
  wp (l <- get_log ;;
      lbuf <- bread (u32 (ldev l)) (u32 (lstart l + Z.of_nat i + 1)) ;;
      bn <- get_lh_block (Z.of_nat i) ;;
      dbuf <- bread (u32 (ldev l)) (u32 bn) ;;
      copy_data dbuf lbuf ;;
      bwrite dbuf ;;
      when (negb r) (bunpin dbuf) ;;
      brelse lbuf ;;
      brelse dbuf) (fun _ s' => exists pin', step s V pin' [(bn, V (lblk i))] (k_log s) s' /\
        pinned s' pin' pl' pbl' /\ forall c, 0 < pin' c -> 0 < pin c) s.
Proof.
  intros Hbc Hp Hfew Hsub Hm Hi Hr. apply wp_bind, wp_gets.
  pose proof (logmem_lblk _ _ i Hm (lookup_lt_Some _ _ _ Hi)) as Hlb.
  pose proof (logmem_notin _ _ _ Hm Hlb) as Hlni.
  assert (Hlbn : lblk i <> bn) by (intros Heq; apply Hlni; rewrite Heq; by eapply list_elem_of_lookup_2).
  rewrite (lm_dev _ _ Hm), (lm_start _ _ Hm), u32_dev. fold (lblk i). rewrite (u32_log _ Hlb).
  apply (read_two s V pin pl pbl bl i (lblk i) bn); try done.
  { destruct r; [destruct Hr as (-> & _); right; by apply Nat.ltb_lt|]. destruct Hr as (b & _ & ->). left. set_solver. }
  { intros Hin. apply Hlni. by apply Hsub. }
  intros a b s1 Hne Hbc1 Ha Hb Hr1 Hdk1 Hp1 Hk1 Hcl.
  eapply overwrite; [exact Hbc1|exact Hb|by eapply held_data|]. intros s2 Hbc2 Hr2 Hdk2 Hk2.
  assert (Hcl2 : vupd V bn (V (lblk i)) (lblk i) = dblock (k_disk s2) (lblk i)).
  { rewrite Hdk2, dblock_dapply. simpl. unfold vupd. rewrite !decide_False by done. by rewrite Hdk1. }
  assert (Hcb2 : vupd V bn (V (lblk i)) bn = dblock (k_disk s2) bn).
  { rewrite Hdk2, dblock_dapply. simpl. by rewrite !vupd_eq. }
  assert (Hun : wp (when (negb r) (bunpin b)) (fun _ s' => exists pin',
      bcache s' me d (vupd V bn (V (lblk i))) ({[b]} ∪ ({[a]} ∪ ∅)) pin' /\ same_rest s2 s' /\ k_disk s' = k_disk s2 /\
      (forall c, bblockno (k_bufs s' !!! c) = bblockno (k_bufs s2 !!! c)) /\ pinned s' pin' pl' pbl' /\
      forall c, 0 < pin' c -> 0 < pin c) s2).
  { destruct r; simpl.
    - apply wp_ret. exists pin. destruct Hr as (-> & -> & -> & ->).
      split_and!; [done|apply same_rest_refl|done|done|eapply pinned_blk; [exact Hp1|auto]|done].
    - destruct Hr as (b0 & -> & ->). pose proof (pinned_buf _ _ _ _ _ _ 0%nat _ _ Hbc1 Hp1 eq_refl Hb) as [= ->].
      eapply wp_mono; [apply (bunpin_spec s2 me d _ _ pin Hbc2 b)|].
      + eapply bc_held; [exact Hbc2|apply Hb].
      + apply (pinned_pos _ _ _ _ b Hp1). set_solver.
      + left. apply Hb.
      + intros [] s3 (Hbc3 & Hr3 & Hdk3 & Hk3). exists (pin_upd pin b (pin b - 1)).
        split_and!; try done; [|apply pin_upd_le]. eapply unpin_pinned; [exact Hp1|]. intros c. by rewrite Hk3. }
  wp_use Hun. intros [] s3 (pin' & Hbc3 & Hr3 & Hdk3 & Hk3 & Hp3 & Hle).
  refine (proj1 (release_two s3 _ pin' a b (lblk i) bn _ Hne Hbc3 _ _ _ _ _)).
  - destruct Ha as [? <-]. split; [done|]. by rewrite Hk3.
  - destruct Hb as [? <-]. split; [done|]. by rewrite Hk3.
  - right. by rewrite Hdk3.
  - right. by rewrite Hdk3.
  - intros s4 Hbc4 Hr4 Hdk4 Hk4. exists pin'. split_and!; [|eapply pinned_blk; [exact Hp3|auto]|done].
    split; [done|congruence| | |].
    + do 2 (eapply lsame_trans; [|by apply same_rest_lsame]). eapply lsame_trans; by apply same_rest_lsame.
    + rewrite (same_rest_log _ _ Hr4), (same_rest_log _ _ Hr3), (same_rest_log _ _ Hr2). by apply same_rest_log.
    + intros c Hc. rewrite Hk4, Hk3, Hk2. apply Hk1. auto.
Qed.

(** What [install_trans] writes. *)
Definition winst (V : Z -> list Z) (bl : list Z) : writes := imap (fun i bn => (bn, V (lblk i))) bl.

Lemma winst_keys V bl : (winst V bl).*1 = bl.
Proof.
  unfold winst. rewrite fmap_imap. apply list_eq. intros i. rewrite list_lookup_imap. simpl.
  by destruct (bl !! i).
Qed.

Lemma install_trans_spec r s V pin pl pbl bl :
  bcache s me d V ∅ pin -> pinned s pin pl pbl -> (length pl < NBUF)%nat -> logmem (k_log s) bl ->
  (if r : bool then pl = [] /\ pbl = [] else pbl = bl) ->
  wp (install_trans r) (fun _ s' => exists pin', step s V pin' (winst V bl) (k_log s) s' /\ pinned s' pin' [] []) s.
Proof.
  intros Hbc Hp Hfew Hm Hr. unfold install_trans. apply wp_bind, wp_gets. rewrite (lm_n _ _ Hm), Nat2Z.id.
  assert (Hplen : length pl = length pbl) by (eapply Forall2_length, pn_blk; eauto).
  eapply wp_mono; [apply (wp_for_range (fun i s' => exists pin', step s V pin' (take i (winst V bl)) (k_log s) s' /\
     pinned s' pin' (drop i pl) (drop i pbl)))|].
  - exists pin. split; [by apply step_refl|done].
  - intros i s' Hi (pin' & Hs & Hp'). rewrite Z.add_0_l. destruct (lookup_lt_is_Some_2 bl i Hi) as [bn Hbn].
    pose proof (sp_log _ _ _ _ _ _ Hs) as Hl.
    eapply wp_mono; [eapply (install_round r s' _ pin' (drop i pl) (drop (S i) pl) (drop i pbl) (drop (S i) pbl) bl i bn)|].
    + apply Hs.
    + done.
    + rewrite length_drop. lia.
    + intros n Hn. destruct r; [destruct Hr as [_ ->]; rewrite drop_nil in Hn; set_solver|subst pbl].
      rewrite <- (take_drop i bl). set_solver.
    + by rewrite Hl.
    + done.
    + destruct r; [destruct Hr as [-> ->]; by rewrite !drop_nil|]. subst pbl.
      destruct (lookup_lt_is_Some_2 pl i ltac:(lia)) as [b Hb]. exists b.
      split; by apply drop_S.
    + intros [] s'' (pin'' & Hs'' & Hp'' & Hle). exists pin''. split; [|done]. rewrite Hl in Hs''.
      erewrite take_S_r by (unfold winst; rewrite list_lookup_imap, Hbn; reflexivity).
      eapply step_trans; [exact Hs| |done]. rewrite vapply_notin in Hs''; [done|].
      intros Hk%keys_take. rewrite winst_keys in Hk.
      by apply (logmem_notin _ _ _ Hm (logmem_lblk _ _ i Hm Hi)).
  - intros [] s' (pin' & Hs & Hp'). exists pin'. rewrite take_ge in Hs by (unfold winst; by rewrite length_imap).
    split; [done|]. assert (Hle : (length pl <= length bl)%nat) by (destruct r; [destruct Hr as [-> _]; simpl; lia|subst; lia]).
    by rewrite !drop_ge in Hp' by lia.
Qed.

(** *** The header *)

Definition header_ok (x : list Z) (bl : list Z) : Prop :=
  hb_n x = Z.of_nat (length bl) /\ forall i bn, bl !! i = Some bn -> hb_block (Z.of_nat i) x = bn.

Lemma header_header_ok bl x :
  length x = BSIZE -> (length bl <= Z.to_nat LOGSIZE)%nat -> Forall int bl -> header_ok (header bl x) bl /\ length (header bl x) = BSIZE.
Proof.
  intros Hlen Hbl Hint. pose proof Hbl as Hb30. rewrite LOGSIZE_nat in Hb30. split; [split|].
  - apply hdr_n; try done. unfold int. lia.
  - intros i bn Hi. unfold header. apply lookup_lt_Some in Hi as Hlt. rewrite hdr_block by done.
    by apply list_lookup_total_correct.
  - by apply hdr_length.
Qed.

(** Blocks that the log may list. *)
Definition loggable (bl : list Z) : Prop :=
  (length bl <= Z.to_nat LOGSIZE)%nat /\ Z.of_nat (length bl) < nl /\ Forall (fun bn => int bn /\ ~ in_log bn) bl /\ NoDup bl.

Lemma logmem_loggable l bl : logmem l bl -> loggable bl.
Proof. intros [_ _ _ _ _ _ [? ?] ? ?]. by split_and!. Qed.

Lemma set_lh_blocks l bl n :
  length (lhblock l) = Z.to_nat LOGSIZE -> (n <= length bl)%nat -> (length bl <= Z.to_nat LOGSIZE)%nat ->
  length (foldl (fun b i => <[i := bl !!! i]> b) (lhblock l) (seq 0 n)) = Z.to_nat LOGSIZE /\
  forall i, (i < n)%nat -> foldl (fun b i => <[i := bl !!! i]> b) (lhblock l) (seq 0 n) !! i = bl !! i.
Proof.
  intros Hlen Hn Hfit. induction n as [|n IH]; [simpl; split; [done|lia]|].
  rewrite seq_S, foldl_app. simpl. destruct IH as [IHl IH]; [lia|]. split; [by rewrite length_insert|].
  intros i Hi. destruct (decide (i = n)) as [->|Hne].
  - rewrite list_lookup_insert_eq by (rewrite IHl; lia). symmetry. apply list_lookup_lookup_total_lt. lia.
  - rewrite list_lookup_insert_ne by done. apply IH. lia.
Qed.

Lemma read_head_spec s V pin bl :
  bcache s me d V ∅ pin -> pinned s pin [] [] -> ldev (k_log s) = d -> lstart (k_log s) = st -> lsize (k_log s) = nl ->
  length (lhblock (k_log s)) = Z.to_nat LOGSIZE -> header_ok (V st) bl -> loggable bl ->
  wp read_head (fun _ s' => exists l', step s V pin [] l' s' /\ logmem l' bl /\
    loutstanding l' = loutstanding (k_log s) /\ lcommitting l' = lcommitting (k_log s)) s.
Proof.
  intros Hbc Hp Hdev Hstart Hsz Hlen [Hhn Hhb] (Hfit & Hfnl & Hrange & Hnd). unfold read_head. apply wp_bind, wp_gets.
  rewrite Hdev, Hstart, u32_dev, (u32_log _ in_log_start).
  wp_use (bread_spec s me d V ∅ pin Hbc st); [set_solver| |].
  { eapply (free_buffer s V ∅ pin st []); [done|intros b; apply (pinned_pos _ _ _ _ b Hp)|].
    rewrite size_empty. apply NBUF_pos. }
  intros b s1 (_ & Hbc1 & Hh1 & Hr1 & Hdk1 & _ & Hpb1). apply wp_bind, wp_gets.
  rewrite (held_data _ _ _ _ _ _ Hbc1 b st Hh1), Hhn. apply wp_bind, wp_modify. apply wp_bind, wp_gets.
  change (lhn (k_log (set_k_log _ _))) with (Z.of_nat (length bl)). rewrite Nat2Z.id.
  set (l1 := set_lhn (Z.of_nat (length bl)) (k_log s1)).
  set (ln n := set_lhblock (foldl (fun b i => <[i := bl !!! i]> b) (lhblock l1) (seq 0 n)) l1).
  assert (Hl1 : length (lhblock l1) = Z.to_nat LOGSIZE) by (unfold l1; simpl; by rewrite (same_rest_log _ _ Hr1)).
  apply wp_bind. eapply wp_mono.
  { apply (wp_for_range (fun n s' => s' = set_k_log (ln n) s1)); [done|]. intros i s' Hi ->. rewrite Z.add_0_l.
    apply wp_bind, wp_gets. simpl k_bufs. rewrite (held_data _ _ _ _ _ _ Hbc1 b st Hh1).
    destruct (lookup_lt_is_Some_2 bl i Hi) as [bn Hbn]. rewrite (Hhb _ _ Hbn). unfold set_lh_block.
    rewrite LOGSIZE_nat in Hfit. replace ((0 <=? Z.of_nat i) && (Z.of_nat i <? LOGSIZE)) with true by (unfold LOGSIZE, MAXOPBLOCKS; lia).
    apply wp_modify. rewrite Nat2Z.id. unfold ln. rewrite seq_S, foldl_app. simpl.
    by rewrite (list_lookup_total_correct _ _ _ Hbn). }
  intros [] s2 ->. set (s2 := set_k_log _ s1).
  assert (Hbc2 : bcache s2 me d V ({[b]} ∪ ∅) pin) by (by apply bcache_set_log).
  eapply wp_mono; [apply (brelse_spec s2 me d V _ pin b st Hbc2 Hh1)|].
  { right. change (k_disk s2) with (k_disk s1). rewrite Hdk1. eapply unpinned_clean; [done|done|set_solver]. }
  intros [] s3 (Hbc3 & Hr3 & Hdk3 & Hk3). exists (ln (length bl)).
  split_and!; [| |unfold ln, l1; simpl; by rewrite (same_rest_log _ _ Hr1)..].
  - replace (({[b]} ∪ ∅) ∖ {[b]} : gset nat) with (∅ : gset nat) in Hbc3 by set_solver.
    split; [done| | | |].
    + rewrite Hdk3, dapply_nil. done.
    + eapply lsame_trans; [by apply same_rest_lsame|]. eapply lsame_trans; [apply (lsame_set_log (ln (length bl)))|].
      by apply same_rest_lsame.
    + by rewrite (same_rest_log _ _ Hr3).
    + intros c Hc. rewrite Hk3. by apply Hpb1.
  - destruct (set_lh_blocks l1 bl (length bl) Hl1) as [Hln Hlk]; [lia|done|].
    unfold ln. split; simpl; try done; try (by rewrite (same_rest_log _ _ Hr1)).
    apply list_eq. intros i. destruct (decide (i < length bl)%nat).
    + rewrite lookup_take_lt by done. by apply Hlk.
    + by rewrite lookup_take_ge, lookup_ge_None_2 by lia.
Qed.

(** *** Recovery and commit *)

Lemma logmem_clear l bl : logmem l bl -> logmem (set_lhn 0 l) [].
Proof. intros []. split; simpl; try done; [lia|apply NoDup_nil_2]. Qed.

Lemma step_set_log s V pin w l l' s' : step s V pin w l s' -> step s V pin w l' (set_k_log l' s').
Proof.
  intros [B D R L K]. split; [by apply bcache_set_log|done| |done|done].
  eapply lsame_trans; [exact R|apply lsame_set_log].
Qed.

Lemma pinned_set_log s pin pl bl l : pinned s pin pl bl -> pinned (set_k_log l s) pin pl bl.
Proof. intros []. by split. Qed.

(** [log.lh.n = 0; write_head()]. *)
Lemma clear_head_spec s V pin bl :
  bcache s me d V ∅ pin -> pinned s pin [] [] -> logmem (k_log s) bl -> length (V st) = BSIZE ->
  wp (upd_log (set_lhn 0) ;; write_head) (fun _ s' => exists l',
    step s V pin [(st, header [] (V st))] l' s' /\ logmem l' [] /\ pinned s' pin [] [] /\
    loutstanding l' = loutstanding (k_log s) /\ lcommitting l' = lcommitting (k_log s)) s.
Proof.
  intros Hbc Hp Hm Hlen. apply wp_bind, wp_modify. set (s1 := set_k_log _ s).
  assert (Hm1 : logmem (k_log s1) []) by (by eapply logmem_clear).
  eapply wp_mono; [apply (write_head_spec s1 V pin [] [] []);
    [by apply bcache_set_log|by apply pinned_set_log|apply NBUF_pos|set_solver|done|done]|].
  intros [] s2 Hs2. exists (k_log s1). split_and!; [|done|eapply pinned_step; [|exact Hs2]; by apply pinned_set_log|done|done].
  destruct Hs2 as [B D R L K]. split; [done|done| |done|done]. eapply lsame_trans; [apply lsame_set_log|exact R].
Qed.

(** What recovery writes. *)
Definition wrec (V : Z -> list Z) (bl : list Z) : writes := winst V bl ++ [(st, header [] (V st))].

Lemma start_notin bl : loggable bl -> st ∉ bl.
Proof.
  intros (_ & _ & HF & _) Hin. rewrite Forall_forall in HF. destruct (HF _ Hin) as [_ Hn]. apply Hn, in_log_start.
Qed.

Lemma recover_spec s V pin bl :
  bcache s me d V ∅ pin -> pinned s pin [] [] -> ldev (k_log s) = d -> lstart (k_log s) = st -> lsize (k_log s) = nl ->
  length (lhblock (k_log s)) = Z.to_nat LOGSIZE -> header_ok (V st) bl -> loggable bl -> length (V st) = BSIZE ->
  wp recover_from_log (fun _ s' => exists pin' l', step s V pin' (wrec V bl) l' s' /\ logmem l' [] /\ pinned s' pin' [] [] /\
    loutstanding l' = loutstanding (k_log s) /\ lcommitting l' = lcommitting (k_log s)) s.
Proof.
  intros Hbc Hp Hdev Hstart Hsz Hl Hh Hok Hlen. unfold recover_from_log.
  wp_use (read_head_spec s V pin bl); try done. intros [] s1 (l1 & Hs1 & Hm1 & Ho1 & Hc1).
  pose proof (pinned_step _ _ _ _ _ _ _ _ Hp Hs1) as Hp1. pose proof (sp_bc _ _ _ _ _ _ Hs1) as Hbc1. simpl in Hbc1.
  pose proof (sp_log _ _ _ _ _ _ Hs1) as Hl1.
  wp_use (install_trans_spec true s1 V pin [] [] bl); try done; [apply NBUF_pos|by rewrite Hl1|].
  intros [] s2 (pin2 & Hs2 & Hp2). pose proof (sp_log _ _ _ _ _ _ Hs2) as Hl2.
  assert (Hst2 : vapply V (winst V bl) st = V st) by (apply vapply_notin; rewrite winst_keys; by apply start_notin).
  eapply wp_mono; [apply (clear_head_spec s2 _ pin2 bl (sp_bc _ _ _ _ _ _ Hs2) Hp2); [by rewrite Hl2, Hl1|by rewrite Hst2]|].
  intros [] s3 (l3 & Hs3 & Hm3 & Hp3 & Ho3 & Hc3). exists pin2, l3. rewrite Hl2, Hl1 in Ho3, Hc3.
  split_and!; [|done|done|congruence|congruence].
  rewrite Hst2 in Hs3. eapply (step_trans s V [] l1 s1 pin); [exact Hs1| |].
  - eapply step_trans; [exact Hs2|exact Hs3|done].
  - intros c Hc. apply (pinned_pos _ _ _ _ c Hp2) in Hc. set_solver.
Qed.

(** What [commit] writes. *)
Definition whome (V : Z -> list Z) (bl : list Z) : writes := (fun bn => (bn, V bn)) <$> bl.
Definition wcommit (V : Z -> list Z) (bl : list Z) : writes :=
  wlog V bl ++ [(st, header bl (V st))] ++ whome V bl ++ [(st, header [] (header bl (V st)))].

Lemma wlog_nodup V bl : NoDup (wlog V bl).*1.
Proof.
  apply NoDup_alt. intros i j n Hi Hj. unfold wlog in *. rewrite list_lookup_fmap, list_lookup_imap in Hi, Hj.
  destruct (bl !! i), (bl !! j); simplify_eq/=. unfold lblk in *. lia.
Qed.

Lemma wlog_at V bl i bn : bl !! i = Some bn -> vapply V (wlog V bl) (lblk i) = V bn.
Proof.
  intros Hi. apply (vapply_in _ _ i); [apply wlog_nodup|]. unfold wlog. by rewrite list_lookup_imap, Hi.
Qed.

Lemma wlog_start V bl : vapply V (wlog V bl) st = V st.
Proof. apply vapply_notin. intros (i & _ & Heq)%wlog_keys. unfold lblk in Heq. lia. Qed.

Lemma winst_whome V V' bl :
  (forall i bn, bl !! i = Some bn -> V' (lblk i) = V bn) -> winst V' bl = whome V bl.
Proof.
  intros HV. apply list_eq. intros i. unfold winst, whome. rewrite list_lookup_imap, list_lookup_fmap.
  destruct (bl !! i) as [bn|] eqn:Hi; [|done]. simpl. by rewrite (HV _ _ Hi).
Qed.

Lemma whome_keys V bl : (whome V bl).*1 = bl.
Proof. unfold whome. rewrite <- list_fmap_compose. apply list_fmap_id. Qed.

Lemma commit_spec s V pin pl bl :
  bcache s me d V ∅ pin -> pinned s pin pl bl -> (length pl < NBUF)%nat -> logmem (k_log s) bl ->
  length (V st) = BSIZE -> bl <> [] ->
  wp commit (fun _ s' => exists pin' l', step s V pin' (wcommit V bl) l' s' /\ logmem l' [] /\ pinned s' pin' [] [] /\
    loutstanding l' = loutstanding (k_log s) /\ lcommitting l' = lcommitting (k_log s)) s.
Proof.
  intros Hbc Hp Hfew Hm Hlen Hne. unfold commit. apply wp_bind, wp_gets.
  assert (Hpos0 : (0 <? lhn (k_log s)) = true).
  { apply Z.ltb_lt. rewrite (lm_n _ _ Hm). destruct bl; [done|]. cbn [length]. lia. }
  rewrite Hpos0. unfold when.
  pose proof (logmem_loggable _ _ Hm) as Hok.
  wp_use (write_log_spec s V pin pl bl); try done. intros [] s1 Hs1.
  pose proof (pinned_step _ _ _ _ _ _ _ _ Hp Hs1) as Hp1. pose proof (sp_log _ _ _ _ _ _ Hs1) as Hl1.
  set (V1 := vapply V (wlog V bl)) in *. assert (HV1 : V1 st = V st) by apply wlog_start.
  wp_use (write_head_spec s1 V1 pin pl bl bl (sp_bc _ _ _ _ _ _ Hs1) Hp1); try done;
    [by apply start_notin|by rewrite Hl1|by rewrite HV1|].
  intros [] s2 Hs2. rewrite HV1, Hl1 in Hs2. pose proof (pinned_step _ _ _ _ _ _ _ _ Hp1 Hs2) as Hp2.
  pose proof (sp_log _ _ _ _ _ _ Hs2) as Hl2. set (V2 := vapply V1 [(st, header bl (V st))]) in *.
  assert (HV2 : forall i bn, bl !! i = Some bn -> V2 (lblk i) = V bn).
  { intros i bn Hi. unfold V2. simpl. unfold vupd. rewrite decide_False by (unfold lblk; lia). by apply wlog_at. }
  wp_use (install_trans_spec false s2 V2 pin pl bl bl (sp_bc _ _ _ _ _ _ Hs2) Hp2); try done; [by rewrite Hl2|].
  intros [] s3 (pin3 & Hs3 & Hp3). rewrite Hl2, (winst_whome V V2 bl HV2) in Hs3.
  assert (HV3 : vapply V2 (whome V bl) st = header bl (V st)).
  { rewrite vapply_notin by (rewrite whome_keys; by apply start_notin). unfold V2. simpl. by apply vupd_eq. }
  pose proof (sp_log _ _ _ _ _ _ Hs3) as Hl3.
  eapply wp_mono; [apply (clear_head_spec s3 _ pin3 bl (sp_bc _ _ _ _ _ _ Hs3) Hp3); [by rewrite Hl3|]|].
  { rewrite HV3. apply header_header_ok; [done|apply Hok|]. destruct Hok as (_ & _ & HF & _).
    eapply Forall_impl; [exact HF|]. by intros x []. }
  intros [] s4 (l4 & Hs4 & Hm4 & Hp4 & Ho & Hcm). exists pin3, l4. rewrite HV3 in Hs4. rewrite Hl3 in Ho, Hcm.
  split_and!; try done. assert (Hpos : forall c, 0 < pin3 c -> 0 < pin c).
  { intros c Hc. apply (pinned_pos _ _ _ _ c Hp3) in Hc. set_solver. }
  unfold wcommit. eapply step_trans; [exact Hs1| |done]. eapply step_trans; [exact Hs2| |done].
  eapply step_trans; [exact Hs3|exact Hs4|done].
Qed.
End ops.
