(* ===== verification/LogOps.v ===== *)
(** Transactions: [begin_op], [log_write] and [end_op] on top of the buffer cache.

    [log_inv] is what holds between the operations of the log: the blocks written
    since the last commit are pinned in the cache and listed in [log.lh], the header on
    disk is empty, and the disk holds the contents [F] of the last commit. *)
From S2P Require Import Prelude Machine Riscv State Spinlock KString Kalloc Vm Sched Block Bio BufCache Log LogSpec.
From Stdlib Require Import ZArith Lia.
From stdpp Require Import base strings numbers gmap list.
Local Open Scope Z_scope.
Local Open Scope m_scope.

Section ops.
Context `{Patience}.
Variables (me : nat) (d st nl : Z).
Hypothesis Hd : 0 <= d < 2 ^ 32.
Hypothesis Hst : 0 <= st.
Hypothesis Hnl : 0 < nl /\ st + nl < 2 ^ 31.
Hypothesis Hnb : nl <= Z.of_nat NBUF.

Local Abbreviation in_log := (in_log st nl).
Local Abbreviation logmem := (logmem d st nl).
Local Abbreviation step := (step me d).

Record log_inv (s : kstate) (out : Z) (bl : list Z) (V F : Z -> list Z) : Prop := {
  li_pins : exists pin pl, bcache s me d V ∅ pin /\ pinned s pin pl bl;
  li_log : logmem (k_log s) bl;
  li_out : loutstanding (k_log s) = out;
  li_com : lcommitting (k_log s) = false;
  li_lock : lock_free L_log s;
  li_hdr : length (V st) = BSIZE /\ header_ok (V st) [];
  li_disk : forall bn, ~ in_log bn -> dblock (k_disk s) bn = F bn;
  li_old : forall bn, ~ in_log bn -> (bn ∉ bl) -> V bn = F bn
}.

Lemma few_pins s pin pl bl : logmem (k_log s) bl -> pinned s pin pl bl -> (length pl < NBUF)%nat.
Proof.
  intros Hm Hp. rewrite (Forall2_length _ _ _ (pn_blk _ _ _ _ Hp)). pose proof (lm_fit _ _ _ _ _ Hm). lia.
Qed.

(** The critical sections of the log. *)
Lemma wp_log_acquire s V held pin (Q : unit -> kstate -> Prop) :
  bcache s me d V held pin -> lock_free L_log s -> Q tt (acquired L_log s) -> wp (acquire L_log) Q s.
Proof. intros Hbc Hf HQ. apply wp_acquire; [apply Hbc|done|done]. Qed.

Lemma wp_log_release s0 s V held pin (Q : unit -> kstate -> Prop) :
  hart_ok s0 -> lock_free L_log s0 -> bcache s me d V held pin -> lsame (acquired L_log s0) s ->
  (bcache (released L_log s) me d V held pin -> lsame s0 (released L_log s) -> lock_free L_log (released L_log s) ->
     Q tt (released L_log s)) ->
  wp (release L_log) Q s.
Proof.
  intros Hok Hf Hbc Hs HQ. pose proof (bc_hart _ _ _ _ _ _ Hbc) as Hok'.
  destruct (lsame_release s0 s Hok Hf Hs Hok') as (Hrun & Hsame & _).
  destruct (lsame_held s0 s Hok Hs Hok') as (Hn & _ & _).
  eapply wp_ok; [exact Hrun|]. apply HQ; [by apply bcache_released|done|].
  unfold lock_free. simpl. apply lookup_delete_eq.
Qed.

Lemma wakeup_spec s V held pin c :
  bcache s me d V held pin ->
  wp (wakeup c) (fun _ s' => bcache s' me d V held pin /\ same_rest s s' /\ k_disk s' = k_disk s /\ k_bufs s' = k_bufs s) s.
Proof.
  intros Hbc. eapply wp_ok; [apply wakeup_run; apply Hbc|].
  change (set_k_procs ?ps (settle s)) with (upd4 (k_bufs s) (k_slocks s) ps (k_disk s) s).
  split_and!; [|(apply same_rest_upd4; [apply quiet_wake|done])|done|done].
  eapply bcache_upd4; [done|apply quiet_wake|by eapply bcache_bufs|apply Hbc].
Qed.

Lemma pinned_released s pin pl bl : pinned s pin pl bl -> pinned (released L_log s) pin pl bl.
Proof. intros []. by split. Qed.
Lemma pinned_acquired s pin pl bl : pinned s pin pl bl -> pinned (acquired L_log s) pin pl bl.
Proof. intros []. by split. Qed.

Lemma logmem_ext l l' bl :
  logmem l bl -> ldev l' = ldev l -> lstart l' = lstart l -> lsize l' = lsize l -> lhn l' = lhn l -> lhblock l' = lhblock l ->
  logmem l' bl.
Proof. intros [] H1 H2 H3 H4 H5. split; congruence. Qed.

(** ** [begin_op] *)
Lemma begin_op_spec s out bl V F :
  log_inv s out bl V F -> Z.of_nat (length bl) + (out + 1) * MAXOPBLOCKS <= LOGSIZE ->
  wp begin_op (fun _ s' => log_inv s' (out + 1) bl V F /\ k_disk s' = k_disk s /\ lsame s s') s.
Proof.
  intros [(pin & pl & Hbc & Hp) Hm Ho Hc Hf Hh Hdk Hold] Hroom.
  unfold begin_op. apply wp_bind. eapply wp_log_acquire; [done|done|].
  cbn [while_fuel]. apply wp_bind, wp_bind, wp_gets. change (k_log (acquired L_log s)) with (k_log s).
  rewrite Hc, Ho, (lm_n _ _ _ _ _ Hm). rewrite (proj2 (Z.ltb_ge _ _) Hroom).
  apply wp_bind, wp_modify. apply wp_bind.
  set (s1 := set_k_log _ _). assert (Hbc1 : bcache s1 me d V ∅ pin) by (by apply bcache_set_log, bcache_acquired).
  eapply (wp_log_release s); [apply Hbc|done|exact Hbc1|apply lsame_set_log|]. intros Hbc2 Hs2 Hf2.
  apply wp_ret, wp_ret. split_and!; [|done|done].
  split; try done.
  - exists pin, pl. split; [done|]. apply pinned_released, pinned_set_log, pinned_acquired. done.
  - eapply logmem_ext; [exact Hm|done..].
  - simpl. by rewrite Ho.
Qed.

(** ** [log_write] *)

(** The search for a block that is already in the log. *)
Lemma log_search l bl bn s :
  k_log s = l -> logmem l bl ->
  wp (for_ret (zrange 0 (length bl)) (fun i =>
        x <- get_lh_block i ;; if u32 x =? bn then ret (Some i) else ret None))
    (fun r s' => s' = s /\ match r with
                          | Some i => exists j, i = Z.of_nat j /\ bl !! j = Some bn
                          | None => bn ∉ bl
                          end) s.
Proof.
  intros Hl Hm.
  apply (wp_for_ret (fun pre s' => s' = s /\ forall j, (j < length pre)%nat -> bl !! j <> Some bn)).
  - split; [done|]. simpl. lia.
  - intros pre i post s' Heq [-> Hno]. apply zrange_split in Heq as [-> Hlt]. rewrite Z.add_0_l.
    destruct (lookup_lt_is_Some_2 bl _ Hlt) as [x Hx].
    apply wp_bind. eapply wp_ok; [by eapply get_lh_block_run|].
    destruct (proj1 (Forall_lookup _ _) (lm_range _ _ _ _ _ Hm) _ _ Hx) as [Hint _].
    rewrite wrap_small by (unfold int in Hint; lia). destruct (Z.eqb_spec x bn) as [->|Hne]; apply wp_ret.
    + split; [done|]. by exists (length pre).
    + split; [done|]. intros j Hj. rewrite length_app in Hj. simpl in Hj.
      destruct (decide (j = length pre)) as [->|]; [rewrite Hx; congruence|apply Hno; lia].
  - intros s' [-> Hno]. split; [done|]. intros [j Hj]%list_elem_of_lookup. apply (Hno j); [|done].
    rewrite zrange_length. by eapply lookup_lt_Some.
Qed.

(** The list of logged blocks after [bn] is written. *)
Definition log_add (bn : Z) (bl : list Z) : list Z := if decide (bn ∈ bl) then bl else bl ++ [bn].

Lemma logmem_add l bl bn :
  logmem l bl -> (bn ∉ bl) -> int bn -> ~ in_log bn -> Z.of_nat (length bl) < LOGSIZE -> Z.of_nat (length bl) < nl - 1 ->
  logmem (set_lhn (lhn l + 1) (set_lhblock (<[length bl := bn]> (lhblock l)) l)) (bl ++ [bn]).
Proof.
  intros [] Hni Hint Hnl' Hls Hn1. split; simpl; try done.
  - rewrite length_app. simpl. lia.
  - by rewrite length_insert.
  - rewrite length_app, Nat.add_1_r. erewrite take_S_r; [|apply list_lookup_insert_eq; lia].
    by rewrite take_insert_ge, lm_blocks by lia.
  - rewrite length_app. simpl. lia.
  - apply Forall_app. split; [done|]. by constructor.
  - apply NoDup_app. split_and!; [done|set_solver|apply NoDup_singleton].
Qed.

Lemma pinned_add s s' pin pl bl b bn :
  pinned s pin pl bl -> (b < NBUF)%nat -> bblockno (k_bufs s !!! b) = bn -> (b ∉ pl) ->
  (forall c, bblockno (k_bufs s' !!! c) = bblockno (k_bufs s !!! c)) ->
  pinned s' (pin_upd pin b (pin b + 1)) (pl ++ [b]) (bl ++ [bn]).
Proof.
  intros [HF Hn Hp] Hb Hbk Hni Hk. split.
  - apply Forall2_app; [|constructor; [by rewrite Hk|constructor]].
    eapply Forall2_impl; [exact HF|]. intros c n. simpl. by rewrite Hk.
  - apply NoDup_app. split_and!; [done|set_solver|apply NoDup_singleton].
  - intros c. unfold pin_upd. rewrite !Hp. rewrite (decide_False (P := b ∈ pl)) by done.
    destruct (decide (b = c)) as [->|Hne]; [rewrite decide_True by set_solver; done|].
    destruct (decide (c ∈ pl)); [rewrite decide_True by set_solver|rewrite decide_False by set_solver]; done.
Qed.

Lemma log_write_spec s V held pin pl bl b bn :
  bcache s me d V held pin -> pinned s pin pl bl -> holds s held b bn -> logmem (k_log s) bl ->
  lock_free L_log s -> 1 <= loutstanding (k_log s) -> int bn -> ~ in_log bn ->
  Z.of_nat (length bl) < LOGSIZE -> Z.of_nat (length bl) < nl - 1 ->
  wp (log_write b) (fun _ s' => exists pin' pl', bcache s' me d V held pin' /\ pinned s' pin' pl' (log_add bn bl) /\
    0 < pin' b /\ logmem (k_log s') (log_add bn bl) /\ loutstanding (k_log s') = loutstanding (k_log s) /\
    lcommitting (k_log s') = lcommitting (k_log s) /\ lsame s s' /\ k_disk s' = k_disk s /\
    (forall c, bblockno (k_bufs s' !!! c) = bblockno (k_bufs s !!! c))) s.
Proof.
  intros Hbc Hp Hh Hm Hf Hout Hint Hnin Hls Hn1. unfold log_write.
  apply wp_bind. eapply wp_log_acquire; [done|done|]. apply wp_bind, wp_gets.
  change (k_log (acquired L_log s)) with (k_log s). pose proof (lm_n _ _ _ _ _ Hm) as Hn. pose proof (lm_size _ _ _ _ _ Hm) as Hsz.
  replace ((LOGSIZE <=? lhn (k_log s)) || (lsize (k_log s) - 1 <=? lhn (k_log s))) with false by lia.
  replace (loutstanding (k_log s) <? 1) with false by lia.
  apply wp_bind, wp_gets. change (k_bufs (acquired L_log s)) with (k_bufs s).
  pose proof Hh as [Hbh Hbk]. rewrite Hbk, Hn, Nat2Z.id.
  wp_use (log_search (k_log s) bl bn (acquired L_log s)); [done|done|]. intros r s1 [-> Hr].
  assert (Hs32 : s32 bn = bn) by (apply swrap_small; unfold int in Hint; lia). rewrite Hs32.
  pose proof (bcache_acquired _ _ _ _ _ _ Hbc) as Hbca. pose proof (pinned_acquired _ _ _ _ Hp) as Hpa.
  assert (Hset : forall j, (j < Z.to_nat LOGSIZE)%nat -> forall Q, Q tt (set_k_log (set_lhblock (<[j := bn]> (lhblock (k_log s))) (k_log s)) (acquired L_log s)) ->
    wp (set_lh_block (Z.of_nat j) bn) Q (acquired L_log s)).
  { intros j Hj Q HQ. unfold set_lh_block. rewrite LOGSIZE_nat in Hj.
    replace ((0 <=? Z.of_nat j) && (Z.of_nat j <? LOGSIZE)) with true by (unfold LOGSIZE, MAXOPBLOCKS; lia).
    apply wp_modify. by rewrite Nat2Z.id. }
  destruct r as [i|]; simpl default.
  - destruct Hr as (j & -> & Hj). apply lookup_lt_Some in Hj as Hlt. pose proof (lm_fit _ _ _ _ _ Hm) as [Hfit _].
    apply wp_bind, Hset; [lia|]. replace (Z.of_nat j =? Z.of_nat (length bl)) with false by lia. apply wp_bind, wp_ret.
    rewrite list_insert_id.
    2:{ rewrite <- Hj, <- (lm_blocks _ _ _ _ _ Hm) at 1. by rewrite lookup_take_lt. }
    replace (set_lhblock (lhblock (k_log s)) (k_log s)) with (k_log s) by (by destruct (k_log s)).
    set (s1 := set_k_log (k_log s) _). assert (Hbc1 : bcache s1 me d V held pin) by (by apply bcache_set_log).
    eapply (wp_log_release s); [apply Hbc|done|exact Hbc1|apply lsame_set_log|]. intros Hbc2 Hs2 Hf2.
    exists pin, pl. unfold log_add. rewrite decide_True by (by eapply list_elem_of_lookup_2).
    split_and!; try done; [|].
    + by apply pinned_released.
    + apply (pinned_pos _ _ _ _ b Hp). eapply list_elem_of_lookup_2.
      exact (pinned_buf me d s V _ pin pl bl j bn b Hbc Hp Hj Hh).
  - apply wp_bind, Hset; [lia|]. rewrite Z.eqb_refl. unfold when. set (s1 := set_k_log _ _).
    assert (Hbc1 : bcache s1 me d V held pin) by (by apply bcache_set_log).
    assert (Hbpl : b ∉ pl).
    { intros [j Hj]%list_elem_of_lookup. apply Hr. destruct (Forall2_lookup_l _ _ _ _ _ (pn_blk _ _ _ _ Hp) Hj) as (n & Hn' & _ & Hbn).
      rewrite Hbk in Hbn. subst n. by eapply list_elem_of_lookup_2. }
    assert (Hpb : pin b = 0) by (rewrite (pn_pin _ _ _ _ Hp); by rewrite decide_False).
    apply wp_bind, wp_bind. eapply wp_mono; [apply (bpin_spec s1 me d V _ pin Hbc1 b); [done|lia]|].
    intros [] s2 (Hbc2 & Hr2 & Hdk2 & Hk2). apply wp_modify. rewrite (same_rest_log _ _ Hr2).
    set (s3 := set_k_log _ s2). assert (Hbc3 : bcache s3 me d V held (pin_upd pin b (pin b + 1))) by (by apply bcache_set_log).
    eapply (wp_log_release s); [apply Hbc|done|exact Hbc3| |].
    { eapply lsame_trans; [apply lsame_set_log|]. eapply lsame_trans; [by apply same_rest_lsame|]. apply lsame_set_log. }
    intros Hbc4 Hs4 Hf4. exists (pin_upd pin b (pin b + 1)), (pl ++ [b]). unfold log_add. rewrite decide_False by done.
    split_and!; try done.
    + eapply pinned_released, pinned_set_log, (pinned_add s1); [by apply pinned_set_log|eapply bc_held; [exact Hbc|done]|done|done|exact Hk2].
    + unfold pin_upd. rewrite decide_True by done. lia.
    + simpl. by apply logmem_add.
Qed.

(** A file-system block written inside a transaction. *)
Definition tx_write (bn : Z) (x : list Z) : K unit :=
  b <- bread d bn ;;
  upd_buf b (set_bdata x) ;;
  log_write b ;;
  brelse b.

Lemma log_add_notin bn bl n : (n ∉ log_add bn bl) -> n <> bn /\ (n ∉ bl).
Proof. unfold log_add. case_decide; set_solver. Qed.

Lemma tx_write_spec s out bl V F bn x :
  log_inv s out bl V F -> 1 <= out -> int bn -> ~ in_log bn ->
  Z.of_nat (length bl) < LOGSIZE -> Z.of_nat (length bl) < nl - 1 ->
  wp (tx_write bn x) (fun _ s' => log_inv s' out (log_add bn bl) (vupd V bn x) F /\ k_disk s' = k_disk s /\ lsame s s') s.
Proof.
  intros [(pin & pl & Hbc & Hp) Hm Ho Hc Hf Hh Hdk Hold] Hout Hint Hnin Hls Hn1. unfold tx_write.
  pose proof (few_pins _ _ _ _ Hm Hp) as Hfew.
  wp_use (bread_spec s me d V ∅ pin Hbc bn); [set_solver| |].
  { eapply (free_buffer me d s V ∅ pin bn pl); [done|intros b; apply (pinned_pos _ _ _ _ b Hp)|]. rewrite size_empty. lia. }
  intros b s1 (_ & Hbc1 & Hh1 & Hr1 & Hdk1 & _ & Hpb1). pose proof (pinned_blk _ _ _ _ _ Hp Hpb1) as Hp1.
  destruct (set_data_bcache me d s1 V _ pin b bn x Hbc1 Hh1) as (Hbc2 & Hh2 & Hbk2).
  apply wp_bind, wp_modify. set (s2 := set_k_bufs _ s1) in *.
  assert (Hp2 : pinned s2 pin pl bl) by (eapply pinned_blk; [exact Hp1|intros c _; apply Hbk2]).
  assert (Hl2 : k_log s2 = k_log s) by (by apply same_rest_log).
  wp_use (log_write_spec s2 _ _ pin pl bl b bn Hbc2 Hp2 Hh2); try done; try (rewrite Hl2; done || lia).
  { by apply (same_rest_free _ _ _ Hr1). }
  intros [] s3 (pin3 & pl3 & Hbc3 & Hp3 & Hpos3 & Hm3 & Ho3 & Hc3 & Hs3 & Hdk3 & Hbk3).
  rewrite Hl2 in Ho3, Hc3.
  eapply wp_mono; [apply (brelse_spec s3 me d _ _ pin3 b bn Hbc3); [split; [set_solver|rewrite Hbk3; apply Hh2]|by left]|].
  intros [] s4 (Hbc4 & Hr4 & Hdk4 & Hbk4).
  replace (({[b]} ∪ ∅) ∖ {[b]} : gset nat) with (∅ : gset nat) in Hbc4 by set_solver.
  assert (Hs : lsame s s4).
  { eapply lsame_trans; [by apply same_rest_lsame|]. eapply (lsame_trans _ s2); [split; [done|apply quiet_refl]|].
    eapply lsame_trans; [exact Hs3|by apply same_rest_lsame]. }
  assert (Hdks : k_disk s4 = k_disk s) by (rewrite Hdk4, Hdk3; exact Hdk1).
  split_and!; [|done|done]. pose proof (same_rest_log _ _ Hr4) as Hl4. split; try (rewrite Hl4).
  - exists pin3, pl3. split; [done|]. eapply pinned_blk; [exact Hp3|auto].
  - done.
  - congruence.
  - congruence.
  - by eapply lsame_free.
  - unfold vupd. rewrite decide_False; [done|]. intros ->. apply Hnin. unfold LogSpec.in_log. lia.
  - by rewrite Hdks.
  - intros n Hn [Hne Hni]%log_add_notin. unfold vupd. rewrite decide_False by done. auto.
Qed.

(** ** [end_op] *)

(** What [end_op] writes when it commits. *)
Definition wend (V : Z -> list Z) (bl : list Z) : writes := if decide (bl = []) then [] else wcommit st V bl.

Lemma lblk_in_log i (bl : list Z) : Z.of_nat (length bl) < nl -> (i < length bl)%nat -> in_log (lblk st i).
Proof. unfold LogSpec.in_log, lblk. lia. Qed.

Lemma wcommit_at V bl bn :
  loggable st nl bl -> ~ in_log bn -> vapply V (wcommit st V bl) bn = V bn.
Proof.
  intros (_ & Hlen & _ & Hnd) Hn. assert (Hns : st <> bn) by (intros <-; apply Hn; unfold LogSpec.in_log; lia).
  unfold wcommit. rewrite !vapply_app. simpl. unfold vupd at 1. rewrite decide_False by done.
  destruct (decide (bn ∈ bl)) as [Hin|Hni].
  - apply list_elem_of_lookup in Hin as [i Hi]. apply (vapply_in _ _ i); [by rewrite whome_keys|].
    unfold whome. by rewrite list_lookup_fmap, Hi.
  - rewrite vapply_notin by (by rewrite whome_keys). unfold vupd. rewrite decide_False by done.
    apply vapply_notin. intros (i & Hi & ->)%wlog_keys. apply Hn. by eapply lblk_in_log.
Qed.

Lemma wcommit_start V bl : vapply V (wcommit st V bl) st = header [] (header bl (V st)).
Proof. unfold wcommit. rewrite !vapply_app. simpl. by rewrite vupd_eq. Qed.

Lemma header_nil_ok x : length x = BSIZE -> length (header [] x) = BSIZE /\ header_ok (header [] x) [].
Proof.
  intros Hx. destruct (header_header_ok [] x Hx) as [H1 H2]; [simpl; lia|constructor|done].
Qed.

Lemma header_header bl x :
  loggable st nl bl -> length x = BSIZE -> length (header bl x) = BSIZE.
Proof.
  intros (Hfit & _ & HF & _) Hx. apply header_header_ok; [done|done|]. eapply Forall_impl; [exact HF|]. by intros n [].
Qed.

(** An operation that is not the last one only gives back its reservation. *)
Lemma end_op_more s out bl V F :
  log_inv s out bl V F -> 1 < out ->
  wp end_op (fun _ s' => log_inv s' (out - 1) bl V F /\ k_disk s' = k_disk s /\ lsame s s') s.
Proof.
  intros [(pin & pl & Hbc & Hp) Hm Ho Hc Hf Hh Hdk Hold] Hout. unfold end_op.
  apply wp_bind. eapply wp_log_acquire; [done|done|]. apply wp_bind, wp_modify, wp_bind, wp_gets.
  set (s1 := set_k_log _ _). assert (Hbc1 : bcache s1 me d V ∅ pin) by (by apply bcache_set_log, bcache_acquired).
  change (lcommitting (k_log s1)) with (lcommitting (k_log s)). rewrite Hc.
  change (loutstanding (k_log s1)) with (loutstanding (k_log s) - 1). rewrite Ho.
  replace (out - 1 =? 0) with false by lia.
  apply wp_bind, wp_bind. wp_use (wakeup_spec s1 V ∅ pin C_log Hbc1). intros [] s2 (Hbc2 & Hr2 & Hdk2 & Hb2).
  apply wp_ret, wp_bind. pose proof (same_rest_log _ _ Hr2) as Hl2.
  eapply (wp_log_release s); [apply Hbc|done|exact Hbc2| |].
  { eapply lsame_trans; [apply lsame_set_log|by apply same_rest_lsame]. }
  intros Hbc3 Hs3 Hf3. apply wp_ret. split_and!; [|exact Hdk2|done].
  split; try done; try (change (k_log (released L_log s2)) with (k_log s2); rewrite Hl2).
  - exists pin, pl. split; [done|]. apply pinned_released. eapply (pinned_blk s); [done|]. intros c _. by rewrite Hb2.
  - eapply logmem_ext; [exact Hm|done..].
  - simpl. by rewrite Ho.
  - done.
  - change (k_disk (released L_log s2)) with (k_disk s2). rewrite Hdk2. exact Hdk.
Qed.

(** The commit itself, with [log.committing] set. *)
Lemma commit_wend s V pin pl bl :
  bcache s me d V ∅ pin -> pinned s pin pl bl -> logmem (k_log s) bl -> length (V st) = BSIZE ->
  wp commit (fun _ s' => exists pin' l', step s V pin' (wend V bl) l' s' /\ logmem l' [] /\ pinned s' pin' [] [] /\
    loutstanding l' = loutstanding (k_log s)) s.
Proof.
  intros Hbc Hp Hm Hlen. unfold wend. case_decide as Hbl.
  - subst bl. unfold commit. apply wp_bind, wp_gets. rewrite (lm_n _ _ _ _ _ Hm). apply wp_ret.
    exists pin, (k_log s). assert (pl = []) as -> by (by apply (Forall2_nil_inv_r _ _ (pn_blk _ _ _ _ Hp))).
    split_and!; [by apply step_refl|done|done|done].
  - eapply wp_mono; [apply (commit_spec me d st nl Hd Hst Hnl s V pin pl bl); try done; by eapply few_pins|].
    intros [] s' (pin' & l' & ? & ? & ? & ? & _). by exists pin', l'.
Qed.

(** The last operation of a group commits it. *)
Lemma end_op_last s bl V F :
  log_inv s 1 bl V F ->
  wp end_op (fun _ s' => exists V', log_inv s' 0 [] V' V /\ (forall bn, ~ in_log bn -> V' bn = V bn) /\
    k_disk s' = dapply (k_disk s) (wend V bl) /\ lsame s s') s.
Proof.
  intros [(pin & pl & Hbc & Hp) Hm Ho Hc Hf Hh Hdk Hold]. pose proof (logmem_loggable _ _ _ _ _ Hm) as Hlg.
  unfold end_op. apply wp_bind. eapply wp_log_acquire; [done|done|]. apply wp_bind, wp_modify, wp_bind, wp_gets.
  set (s1 := set_k_log _ _). assert (Hbc1 : bcache s1 me d V ∅ pin) by (by apply bcache_set_log, bcache_acquired).
  change (lcommitting (k_log s1)) with (lcommitting (k_log s)). rewrite Hc.
  change (loutstanding (k_log s1)) with (loutstanding (k_log s) - 1). rewrite Ho. change (1 - 1 =? 0) with true. cbv iota.
  apply wp_bind, wp_bind, wp_modify, wp_ret, wp_bind. set (s2 := set_k_log _ s1).
  eapply (wp_log_release s); [apply Hbc|done|apply bcache_set_log, Hbc1| |].
  { eapply lsame_trans; [apply lsame_set_log|apply lsame_set_log]. }
  intros Hbc3 Hs3 Hf3. set (s3 := released L_log s2) in *. apply wp_bind.
  eapply wp_mono; [apply (commit_wend s3 V pin pl bl Hbc3)|].
  { by apply pinned_released, pinned_set_log, pinned_set_log, pinned_acquired. }
  { eapply logmem_ext; [exact Hm|done..]. }
  { apply Hh. }
  intros [] s4 (pin4 & l4 & Hs4 & Hm4 & Hp4 & Ho4). pose proof (sp_bc _ _ _ _ _ _ _ _ Hs4) as Hbc4.
  pose proof (sp_rest _ _ _ _ _ _ _ _ Hs4) as Hr4. pose proof (lsame_free _ _ _ Hr4 Hf3) as Hf4.
  apply wp_bind. eapply wp_log_acquire; [exact Hbc4|done|]. apply wp_bind, wp_modify.
  set (s5 := set_k_log _ _). assert (Hbc5 : bcache s5 me d (vapply V (wend V bl)) ∅ pin4) by (by apply bcache_set_log, bcache_acquired).
  wp_use (wakeup_spec s5 _ ∅ pin4 C_log Hbc5). intros [] s6 (Hbc6 & Hr6 & Hdk6 & Hb6).
  pose proof (same_rest_log _ _ Hr6) as Hl6.
  eapply (wp_log_release s4); [apply Hbc4|done|exact Hbc6| |].
  { eapply lsame_trans; [apply lsame_set_log|by apply same_rest_lsame]. }
  intros Hbc7 Hs7 Hf7. exists (vapply V (wend V bl)).
  assert (Hfs : forall bn, ~ in_log bn -> vapply V (wend V bl) bn = V bn).
  { intros bn Hn. unfold wend. case_decide; [done|]. by apply wcommit_at. }
  assert (Hd7 : k_disk (released L_log s6) = dapply (k_disk s) (wend V bl)).
  { change (k_disk (released L_log s6)) with (k_disk s6). rewrite Hdk6. exact (sp_disk _ _ _ _ _ _ _ _ Hs4). }
  assert (Hdfs : forall bn, ~ in_log bn -> dblock (k_disk (released L_log s6)) bn = V bn).
  { intros bn Hn. change (k_disk (released L_log s6)) with (k_disk s6). rewrite Hdk6. change (k_disk s5) with (k_disk s4).
    rewrite <- (unpinned_clean me d s4 _ pin4 [] [] bn Hbc4 Hp4) by set_solver. auto. }
  assert (Hp7 : pinned (released L_log s6) pin4 [] []).
  { apply pinned_released. eapply (pinned_blk s4); [done|]. intros c _. by rewrite Hb6. }
  split_and!; [|done|done|eapply lsame_trans; [exact Hs3|]; by eapply lsame_trans].
  pose proof (sp_log _ _ _ _ _ _ _ _ Hs4) as Hl4.
  split; try done; try (change (k_log (released L_log s6)) with (k_log s6); rewrite Hl6).
  - exists pin4, []. by split.
  - eapply logmem_ext; [exact Hm4|simpl; by rewrite Hl4..].
  - simpl. rewrite Hl4, Ho4. simpl. by rewrite Ho.
  - done.
  - unfold wend. case_decide; [done|]. rewrite wcommit_start. apply header_nil_ok. apply header_header; [done|apply Hh].
  - intros bn Hn _. auto.
Qed.
End ops.
