(* ===== verification/LogCrash.v ===== *)
(** Crash safety of the log.

    The abstract machine [arun] keeps the contents the file system sees and the contents
    of the last commit; a crash keeps an arbitrary prefix of the block writes the disk
    was given, and a reboot runs [binit] and [initlog] on what is left, possibly crashing
    again.  Whatever the crash points, what is found after recovery is the contents of
    some commit: the one before or the one after the operation that was interrupted. *)
From S2P Require Import Prelude Machine Riscv State Spinlock KString Kalloc Vm Sched Block Bio BufCache Log LogSpec LogOps.
From Stdlib Require Import ZArith Lia.
From stdpp Require Import base strings numbers gmap list.
Local Open Scope Z_scope.
Local Open Scope m_scope.

(** ** Operations and their abstract meaning *)

Inductive lop : Type :=
| LBegin
| LWrite (bn : Z) (x : list Z)
| LEnd.

(** Operations in progress, blocks written since the last commit, current contents and
    contents of the last commit. *)
Record astate : Type := mkAstate {
  a_out : Z;
  a_bl : list Z;
  a_V : Z -> list Z;
  a_F : Z -> list Z
}.

(** A run that ends in the panic [msg]. *)
Definition panics {A} (m : K A) (msg : string) (s : kstate) : Prop := match m s with Stop (Panicked msg' _) => msg' = msg | _ => False end.
Arguments panics {A} m msg%_string s.

Lemma panics_bind {A B} (m : K A) (k : A -> K B) msg s : wp m (fun a s' => panics (k a) msg s') s -> panics (a <- m ;; k a) msg s.
Proof. unfold wp, panics, bind. by destruct (m s). Qed.
Lemma panics_first {A B} (m : K A) (k : A -> K B) msg s : panics m msg s -> panics (a <- m ;; k a) msg s.
Proof. unfold panics, bind. by destruct (m s) as [|[]|]. Qed.

Section crash.
Context `{Patience}.
Variables (s0 : kstate) (me : nat) (d : Z) (sb : superblock).

Local Abbreviation st := (sb_logstart sb).
Local Abbreviation nl := (sb_nlog sb).

Definition run_op (o : lop) : K unit :=
  match o with
  | LBegin => begin_op
  | LWrite bn x => tx_write d bn x
  | LEnd => end_op
  end.
Fixpoint run_ops (os : list lop) : K unit :=
  match os with
  | [] => ret tt
  | o :: os' => run_op o ;; run_ops os'
  end.

Definition astep (a : astate) (o : lop) : option astate :=
  match o with
  | LBegin =>
      if Z.of_nat (length (a_bl a)) + (a_out a + 1) * MAXOPBLOCKS <=? LOGSIZE
      then Some (mkAstate (a_out a + 1) (a_bl a) (a_V a) (a_F a)) else None
  | LWrite bn x =>
      if (1 <=? a_out a) && (0 <=? bn) && (bn <? 2 ^ 31) && negb ((st <=? bn) && (bn <? st + nl)) &&
         (Z.of_nat (length (a_bl a)) <? LOGSIZE) && (Z.of_nat (length (a_bl a)) <? nl - 1)
      then Some (mkAstate (a_out a) (log_add bn (a_bl a)) (vupd (a_V a) bn x) (a_F a)) else None
  | LEnd =>
      if a_out a =? 1 then Some (mkAstate 0 [] (a_V a) (a_V a))
      else if 1 <? a_out a then Some (mkAstate (a_out a - 1) (a_bl a) (a_V a) (a_F a)) else None
  end.
Fixpoint arun (a : astate) (os : list lop) : option astate :=
  match os with
  | [] => Some a
  | o :: os' => match astep a o with Some a' => arun a' os' | None => None end
  end.

(** The machine as it comes up with disk [dk]. *)
Definition powered (dk : diskst) : kstate := set_k_disk dk s0.
Definition mount : K unit := binit ;; initlog d sb.

(** [reboots dk dk']: started on [dk], the machine comes up and recovers, perhaps after
    crashes during earlier recoveries, leaving [dk']. *)
Inductive reboots : diskst -> diskst -> Prop :=
| reboot_done dk s : mount (powered dk) = Ok tt s -> reboots dk (k_disk s)
| reboot_crash dk s w p dk' :
    mount (powered dk) = Ok tt s -> k_disk s = dapply dk w -> p `prefix_of` w ->
    reboots (dapply dk p) dk' -> reboots dk dk'.

(** A disk that recovery turns into contents [F] outside the log. *)
Definition tofs (F : Z -> list Z) (D : Z -> list Z) (bl : list Z) : Prop :=
  loggable st nl bl /\ header_ok (D st) bl /\ length (D st) = BSIZE /\
  (forall i bn, bl !! i = Some bn -> D (lblk st i) = F bn) /\
  (forall bn, ~ in_log st nl bn -> (bn ∉ bl) -> D bn = F bn).

Hypothesis Hst : 0 <= st.
Hypothesis Hnl : 0 < nl /\ st + nl < 2 ^ 31.
Hypothesis Hnb : nl <= Z.of_nat NBUF.
Hypothesis Hd : 0 <= d < 2 ^ 32.
Hypothesis Hz : bzeroed s0 me d.
Hypothesis Hlog0 : k_log s0 = zero_log.

Lemma prefix_app_cases {A} (p a b : list A) :
  p `prefix_of` a ++ b -> (exists k, p = take k a) \/ exists p', p = a ++ p' /\ p' `prefix_of` b.
Proof.
  intros [q Hq]. destruct (decide (length p <= length a)%nat) as [Hle|Hgt].
  - left. exists (length p). apply (f_equal (take (length p))) in Hq.
    rewrite take_app_le, take_app_length in Hq by done. done.
  - right. exists (drop (length a) p). apply (f_equal (take (length p))) in Hq as Hq1.
    rewrite take_app_length, take_app_ge in Hq1 by lia.
    apply (f_equal (drop (length a))) in Hq. rewrite drop_app_length, drop_app_le in Hq by lia. split.
    + rewrite Hq, take_app_le in Hq1 by (rewrite length_drop; lia). rewrite take_ge in Hq1 by (rewrite length_drop; lia). done.
    + by exists q.
Qed.

Lemma prefix_single {A} (p : list A) x : p `prefix_of` [x] -> p = [] \/ p = [x].
Proof. intros [q Hq]. destruct p as [|y [|z p]]; simplify_eq/=; auto. Qed.

(** *** What recovery does to such a disk *)

Lemma tofs_install F D bl k : tofs F D bl -> tofs F (vapply D (take k (winst st D bl))) bl.
Proof.
  intros (Hlg & Hh & Hlen & Hlog & Hfs). pose proof Hlg as (_ & Hln & _ & Hnd).
  assert (Hkeys : forall bn, bn ∈ (take k (winst st D bl)).*1 -> bn ∈ bl).
  { intros bn Hk%keys_take. by rewrite winst_keys in Hk. }
  assert (Hin : forall bn, in_log st nl bn -> vapply D (take k (winst st D bl)) bn = D bn).
  { intros bn Hn. apply vapply_notin. intros Hk%Hkeys. destruct Hlg as (_ & _ & HF & _).
    rewrite Forall_forall in HF. by destruct (HF _ Hk). }
  assert (Hst' : in_log st nl st) by (unfold in_log; lia).
  unfold tofs. rewrite !(Hin st Hst'). split_and!; try done.
  - intros i bn Hi. rewrite Hin; [by apply Hlog|]. apply lookup_lt_Some in Hi. unfold in_log, lblk. lia.
  - intros bn Hn Hni. rewrite vapply_notin by auto. auto.
Qed.

Lemma tofs_recovered F D bl : tofs F D bl -> tofs F (vapply D (wrec st D bl)) [].
Proof.
  intros Ht. pose proof Ht as (Hlg & Hh & Hlen & Hlog & Hfs). pose proof Hlg as (_ & Hln & _ & Hnd).
  unfold wrec. rewrite vapply_app. simpl. set (D1 := vapply D (winst st D bl)).
  assert (Hsplit : vupd D1 st (header [] (D st)) st = header [] (D st)) by apply vupd_eq.
  unfold tofs. rewrite Hsplit. destruct (header_nil_ok (D st) Hlen) as [Hl' Hh']. split_and!; try done.
  - split_and!; [simpl; lia|simpl; lia|constructor|apply NoDup_nil_2].
  - intros bn Hn _. unfold vupd. rewrite decide_False by (intros <-; apply Hn; unfold in_log; lia).
    destruct (decide (bn ∈ bl)) as [[i Hi]%list_elem_of_lookup|Hni].
    + rewrite <- (Hlog i bn Hi). apply (vapply_in _ _ i); [by rewrite winst_keys|].
      unfold winst. by rewrite list_lookup_imap, Hi.
    + unfold D1. rewrite vapply_notin by (by rewrite winst_keys). auto.
Qed.

Lemma tofs_prefix F D bl p : tofs F D bl -> p `prefix_of` wrec st D bl -> exists bl', tofs F (vapply D p) bl'.
Proof.
  intros Ht [[k ->]|(p' & -> & Hp)]%prefix_app_cases; [exists bl; by apply tofs_install|].
  apply prefix_single in Hp as [->| ->].
  - exists bl. rewrite app_nil_r. rewrite <- (take_ge (winst st D bl) (length (winst st D bl))) by done.
    by apply tofs_install.
  - exists []. by apply tofs_recovered.
Qed.

Lemma powered_bzeroed dk : bzeroed (powered dk) me d.
Proof. destruct Hz. by split. Qed.

Lemma bcache_initlock s V held pin :
  bcache s me d V held pin -> bcache (set_k_locks (delete L_log (k_locks s)) s) me d V held pin.
Proof.
  intros []. assert (Hl : forall l, lock_free l s -> lock_free l (set_k_locks (delete L_log (k_locks s)) s)).
  { intros l Hl. unfold lock_free. simpl. rewrite lookup_delete. by case_decide. }
  split; auto. intros i. auto.
Qed.

Lemma mount_run dk F bl :
  tofs F (dblock dk) bl ->
  wp mount (fun _ s => k_disk s = dapply dk (wrec st (dblock dk) bl) /\ lock_free L_log s /\
    loutstanding (k_log s) = 0 /\ lcommitting (k_log s) = false /\ logmem d st nl (k_log s) [] /\
    exists pin, bcache s me d (vapply (dblock dk) (wrec st (dblock dk) bl)) ∅ pin /\ pinned s pin [] []) (powered dk).
Proof.
  intros (Hlg & Hh & Hlen & _ & _). unfold mount.
  wp_use (binit_spec (powered dk) me d (powered_bzeroed dk)). intros [] s1 (Hbc1 & bs & sl & lk & Hs1).
  change (k_disk (powered dk)) with dk in Hbc1. assert (Hl1 : k_log s1 = zero_log) by (by rewrite Hs1).
  assert (Hdk1 : k_disk s1 = dk) by (by rewrite Hs1). unfold initlog.
  change (Z.of_nat BSIZE <=? sizeof_logheader) with false. cbv iota. apply wp_bind, wp_initlock.
  apply wp_bind, wp_modify, wp_bind, wp_modify, wp_bind, wp_modify. simpl k_log. rewrite Hl1.
  set (l2 := set_ldev d _). set (s2 := set_k_log l2 _).
  assert (Hbc2 : bcache s2 me d (dblock dk) ∅ (fun _ => 0)) by (by do 3 apply bcache_set_log; apply bcache_initlock).
  assert (Hp2 : pinned s2 (fun _ => 0) [] []).
  { split; [constructor|apply NoDup_nil_2|]. intros b. rewrite decide_False; [done|set_solver]. }
  assert (Hf2 : lock_free L_log s2) by (unfold lock_free; simpl; apply lookup_delete_eq).
  eapply wp_mono; [apply (recover_spec me d st nl Hd Hst Hnl s2 (dblock dk) _ bl Hbc2 Hp2); try done; unfold s2, l2; simpl|].
  { apply swrap_small; lia. }
  { apply swrap_small; unfold NBUF in Hnb; lia. }
  intros [] s3 (pin3 & l3 & Hs3 & Hm3 & Hp3 & Ho3 & Hc3). destruct Hs3 as [B D R L K].
  split_and!; rewrite ?L; try done.
  - rewrite D. unfold s2. simpl. by rewrite Hdk1.
  - eapply lsame_free; [exact R|done].
  - exists pin3. by split.
Qed.

(** *** Rebooting *)

Lemma dapply_tofs F dk p : (exists bl, tofs F (vapply (dblock dk) p) bl) -> exists bl, tofs F (dblock (dapply dk p)) bl.
Proof.
  intros (bl & Hlg & Hh & Hlen & Hlog & Hfs). exists bl. split_and!; [done|by rewrite dblock_dapply|by rewrite dblock_dapply| |].
  - intros i bn Hi. rewrite dblock_dapply. auto.
  - intros bn Hn Hni. rewrite dblock_dapply. auto.
Qed.

Lemma reboots_tofs dk dk' F bl :
  reboots dk dk' -> tofs F (dblock dk) bl -> forall bn, ~ in_log st nl bn -> dblock dk' bn = F bn.
Proof.
  intros Hr. revert bl. induction Hr as [dk s Hm|dk s w p dk' Hm Hw Hp Hr IH]; intros bl Ht bn Hn.
  - destruct (wp_result _ _ _ _ _ Hm (mount_run _ _ _ Ht)) as (-> & _).
    rewrite dblock_dapply. destruct (tofs_recovered _ _ _ Ht) as (_ & _ & _ & _ & Hfs). apply Hfs; [exact Hn|apply not_elem_of_nil].
  - destruct (wp_result _ _ _ _ _ Hm (mount_run _ _ _ Ht)) as (Hdk & _).
    assert (w = wrec st (dblock dk) bl) as ->.
    { rewrite Hdk in Hw. apply (f_equal dtrace) in Hw. simpl in Hw. by apply app_inv_head in Hw. }
    destruct (dapply_tofs F dk p) as [bl' Ht']; [by eapply tofs_prefix|]. by eapply IH.
Qed.

Lemma tofs_reboots dk F bl : tofs F (dblock dk) bl -> exists dk', reboots dk dk'.
Proof.
  intros Ht. destruct (proj1 (wp_run _ _ _) (mount_run _ _ _ Ht)) as ([] & s & Hm & _).
  exists (k_disk s). exact (reboot_done dk s Hm).
Qed.

(** [dk] is a disk that comes back with contents [F]. *)
Definition survives (F : Z -> list Z) (dk : diskst) : Prop :=
  (exists dk', reboots dk dk') /\ forall dk', reboots dk dk' -> forall bn, ~ in_log st nl bn -> dblock dk' bn = F bn.

Lemma tofs_survives dk F : (exists bl, tofs F (dblock dk) bl) -> survives F dk.
Proof. intros [bl Ht]. split; [by eapply tofs_reboots|]. intros dk' Hr. by eapply reboots_tofs. Qed.

(** *** Every point of a commit *)

Lemma tofs_log F D bl k V : tofs F D [] -> loggable st nl bl -> tofs F (vapply D (take k (wlog st V bl))) [].
Proof.
  intros (Hlg & Hh & Hlen & _ & Hfs) (_ & Hln & _ & _).
  assert (Hkeys : forall bn, bn ∈ (take k (wlog st V bl)).*1 -> in_log st nl bn /\ bn <> st).
  { intros bn (i & Hi & ->)%keys_take%wlog_keys. unfold in_log, lblk. lia. }
  unfold tofs. rewrite !(vapply_notin _ _ st) by (intros [_ ?]%Hkeys; done). split_and!; try done.
  intros bn Hn Hni. rewrite vapply_notin; [auto|]. by intros [? _]%Hkeys.
Qed.

Lemma tofs_committed F' D bl k V :
  loggable st nl bl -> length (V st) = BSIZE -> length (D st) = BSIZE ->
  (forall bn, ~ in_log st nl bn -> V bn = F' bn) -> (forall bn, ~ in_log st nl bn -> (bn ∉ bl) -> D bn = F' bn) ->
  tofs F' (vapply D (wlog st V bl ++ [(st, header bl (V st))] ++ take k (whome V bl))) bl.
Proof.
  intros Hlg HV HD HF' Hold. pose proof Hlg as (Hfit & Hln & HFr & Hnd). rewrite !vapply_app. simpl.
  set (D1 := vupd _ st _).
  assert (HD1 : D1 st = header bl (V st)) by apply vupd_eq.
  assert (Hint : Forall int bl) by (eapply Forall_impl; [exact HFr|]; by intros n []).
  destruct (header_header_ok bl (V st) HV Hfit Hint) as [Hhok Hhl].
  assert (Hkeys : forall bn, bn ∈ (take k (whome V bl)).*1 -> bn ∈ bl) by (intros bn Hk%keys_take; by rewrite whome_keys in Hk).
  assert (Hlogk : forall bn, in_log st nl bn -> vapply D1 (take k (whome V bl)) bn = D1 bn).
  { intros bn Hn. apply vapply_notin. intros Hk%Hkeys. rewrite Forall_forall in HFr. by destruct (HFr _ Hk). }
  assert (Hst' : in_log st nl st) by (unfold in_log; lia).
  unfold tofs. rewrite !(Hlogk _ Hst'), HD1. split_and!; try done.
  - intros i bn Hi. apply lookup_lt_Some in Hi as Hlt. rewrite Hlogk by (unfold in_log, lblk; lia).
    unfold D1, vupd. rewrite decide_False by (unfold lblk; lia). rewrite <- HF'.
    + apply (vapply_in _ _ i); [apply wlog_nodup|]. unfold wlog. by rewrite list_lookup_imap, Hi.
    + by destruct (proj1 (Forall_lookup _ _) HFr _ _ Hi).
  - intros bn Hn Hni. rewrite vapply_notin by auto. unfold D1, vupd.
    rewrite decide_False by (by intros <-). rewrite vapply_notin; [auto|].
    intros (i & Hi & ->)%wlog_keys. apply Hn. unfold in_log, lblk. lia.
Qed.

Lemma tofs_done F' D bl V :
  loggable st nl bl -> length (V st) = BSIZE -> length (D st) = BSIZE ->
  (forall bn, ~ in_log st nl bn -> V bn = F' bn) -> (forall bn, ~ in_log st nl bn -> (bn ∉ bl) -> D bn = F' bn) ->
  tofs F' (vapply D (wcommit st V bl)) [].
Proof.
  intros Hlg HV HD HF' Hold. pose proof Hlg as (Hfit & Hln & HFr & Hnd).
  assert (Heq : vapply D (wcommit st V bl) st = header [] (header bl (V st))).
  { unfold wcommit. rewrite !vapply_app. simpl. apply vupd_eq. }
  unfold tofs. rewrite Heq. destruct (header_nil_ok (header bl (V st))) as [Hl' Hh']; [by eapply header_header|].
  split_and!; try done.
  - split_and!; [simpl; lia|simpl; lia|constructor|apply NoDup_nil_2].
  - intros bn Hn _. assert (Hns : st <> bn) by (intros <-; apply Hn; unfold in_log; lia).
    rewrite <- HF' by done. destruct (decide (bn ∈ bl)) as [Hin|Hni].
    + unfold wcommit. rewrite !vapply_app. simpl. unfold vupd at 1. rewrite decide_False by done.
      apply list_elem_of_lookup in Hin as [i Hi]. apply (vapply_in _ _ i); [by rewrite whome_keys|].
      unfold whome. by rewrite list_lookup_fmap, Hi.
    + rewrite <- (wcommit_at st nl Hnl V bl bn Hlg Hn). apply vapply_ext. rewrite HF', Hold by done. done.
Qed.

Lemma commit_points F F' D bl V p :
  tofs F D [] -> loggable st nl bl -> length (V st) = BSIZE ->
  (forall bn, ~ in_log st nl bn -> V bn = F' bn) -> (forall bn, ~ in_log st nl bn -> (bn ∉ bl) -> F bn = F' bn) ->
  p `prefix_of` wcommit st V bl ->
  (exists bl', tofs F (vapply D p) bl') \/ (exists bl', tofs F' (vapply D p) bl').
Proof.
  intros Ht Hlg HV HF' Hold Hp. pose proof Ht as (_ & _ & HD & _ & Hfs).
  assert (HoldD : forall bn, ~ in_log st nl bn -> (bn ∉ bl) -> D bn = F' bn).
  { intros bn Hn Hni. rewrite Hfs by (done || apply not_elem_of_nil). auto. }
  unfold wcommit in Hp. apply prefix_app_cases in Hp as [[k ->]|(p1 & -> & Hp)].
  { left. exists []. by apply tofs_log. }
  apply prefix_app_cases in Hp as [[[|k] ->]|(p2 & -> & Hp)].
  - left. exists []. simpl. rewrite app_nil_r. rewrite <- (take_ge (wlog st V bl) (length (wlog st V bl))) by done.
    by apply tofs_log.
  - right. exists bl. pose proof (tofs_committed F' D bl 0 V Hlg HV HD HF' HoldD) as Hc. simpl in Hc. simpl.
    by rewrite take_nil.
  - right. apply prefix_app_cases in Hp as [[k ->]|(p3 & -> & Hp)]; [exists bl; by apply tofs_committed|].
    apply prefix_single in Hp as [->| ->].
    + exists bl. rewrite app_nil_r. rewrite <- (take_ge (whome V bl) (length (whome V bl))) by done. by apply tofs_committed.
    + exists []. by apply tofs_done.
Qed.

(** ** The machine against the abstract one *)

(** A kernel state and an abstract state that agree outside the log. *)
Definition agree (s : kstate) (a : astate) : Prop :=
  exists V F, log_inv me d st nl s (a_out a) (a_bl a) V F /\
    (forall bn, ~ in_log st nl bn -> V bn = a_V a bn) /\ (forall bn, ~ in_log st nl bn -> F bn = a_F a bn).

Lemma inv_tofs s out bl V F A :
  log_inv me d st nl s out bl V F -> (forall bn, ~ in_log st nl bn -> F bn = A bn) -> tofs A (dblock (k_disk s)) [].
Proof.
  intros [(pin & pl & Hbc & Hp) Hm Ho Hc Hf [Hl Hh] Hdk Hold] HA.
  pose proof (logmem_loggable _ _ _ _ _ Hm) as Hlg.
  assert (Heq : dblock (k_disk s) st = V st).
  { symmetry. eapply unpinned_clean; [exact Hbc|exact Hp|by eapply start_notin]. }
  unfold tofs. rewrite Heq. split_and!; try done.
  - split_and!; [simpl; lia|simpl; lia|constructor|apply NoDup_nil_2].
  - intros bn Hn _. rewrite Hdk by done. auto.
Qed.

(** Every crash during [w], written to [dk], leaves the contents [F] or [F']. *)
Definition crash_ok (F F' : Z -> list Z) (dk : diskst) (w : writes) : Prop :=
  forall p, p `prefix_of` w -> survives F (dapply dk p) \/ survives F' (dapply dk p).

Lemma crash_ok_nil F F' dk bl : tofs F (dblock dk) bl -> crash_ok F F' dk [].
Proof. intros Ht p ->%prefix_nil_inv. left. apply tofs_survives. rewrite dapply_nil. eauto. Qed.

(** The last [end_op]: whenever the power fails, the disk has the contents before or after the transaction. *)
Lemma end_op_crash s bl V F A B :
  log_inv me d st nl s 1 bl V F -> (forall bn, ~ in_log st nl bn -> F bn = A bn) -> (forall bn, ~ in_log st nl bn -> V bn = B bn) ->
  wp end_op (fun _ s' => (exists V', log_inv me d st nl s' 0 [] V' V /\ forall bn, ~ in_log st nl bn -> V' bn = V bn) /\ lsame s s' /\ exists w, k_disk s' = dapply (k_disk s) w /\ crash_ok A B (k_disk s) w) s.
Proof.
  intros Hi HF HV. pose proof (inv_tofs _ _ _ _ _ _ Hi HF) as Ht.
  eapply wp_mono; [apply (end_op_last me d st nl Hd Hst Hnl Hnb s _ V F Hi)|].
  intros [] s' (V' & Hi' & HV' & Hdk & Hls). split_and!; [by exists V'|done|].
  exists (wend st V bl). split; [done|]. unfold wend. case_decide; [by eapply crash_ok_nil|].
  intros p Hp. pose proof Hi as [_ Hm _ _ _ [Hl _] _ Hold].
  destruct (commit_points A B (dblock (k_disk s)) bl V p) as [Hc|Hc]; try done.
  - by eapply logmem_loggable.
  - intros bn Hn Hni. rewrite <- HF, <- Hold by done. auto.
  - left. by apply tofs_survives, dapply_tofs.
  - right. by apply tofs_survives, dapply_tofs.
Qed.

Lemma run_op_spec s a o a' :
  agree s a -> astep a o = Some a' ->
  wp (run_op o) (fun _ s' => agree s' a' /\ exists w, k_disk s' = dapply (k_disk s) w /\
    crash_ok (a_F a) (a_F a') (k_disk s) w) s.
Proof.
  intros (V & F & Hi & HV & HF) Hs. pose proof (inv_tofs _ _ _ _ _ _ Hi HF) as Ht. destruct o as [|bn x|]; simpl in Hs |- *.
  - destruct (_ <=? _) eqn:Hroom; simplify_eq. apply Z.leb_le in Hroom.
    eapply wp_mono; [apply (begin_op_spec me d st nl s _ _ V F Hi Hroom)|]. intros [] s' (Hi' & Hdk & _).
    split; [by exists V, F|]. exists []. rewrite dapply_nil. split; [done|by eapply crash_ok_nil].
  - destruct (_ && _) eqn:Hg; simplify_eq. rewrite !andb_true_iff, negb_true_iff in Hg.
    eapply wp_mono; [apply (tx_write_spec me d st nl Hd Hst Hnl Hnb s _ _ V F bn x Hi)|]; unfold int, in_log; try lia.
    intros [] s' (Hi' & Hdk & _). split; [exists (vupd V bn x), F; split_and!; [done| |done]|].
    + intros n Hn. unfold vupd. simpl. unfold vupd. case_decide; auto.
    + exists []. rewrite dapply_nil. split; [done|by eapply crash_ok_nil].
  - destruct (Z.eqb_spec (a_out a) 1) as [H1|H1].
    + simplify_eq. rewrite H1 in Hi. eapply wp_mono; [apply (end_op_crash s _ V F (a_F a) (a_V a) Hi HF HV)|].
      intros [] s' ((V' & Hi' & HV') & _ & Hw). split; [|done]. exists V', V. split_and!; [done| |done]. intros bn Hn. simpl. rewrite HV' by done. auto.
    + destruct (Z.ltb_spec 1 (a_out a)); simplify_eq.
      eapply wp_mono; [apply (end_op_more me d st nl s _ _ V F Hi)|]; [done|]. intros [] s' (Hi' & Hdk & _).
      split; [by exists V, F|]. exists []. rewrite dapply_nil. split; [done|by eapply crash_ok_nil].
Qed.

(** Every crash during the writes [w] of the operations [os] leaves the contents that
    were committed after some number [j] of them. *)
Definition crash_somewhere (a : astate) (os : list lop) (dk : diskst) (w : writes) : Prop :=
  forall p, p `prefix_of` w -> exists j a', (j <= length os)%nat /\ arun a (take j os) = Some a' /\
    survives (a_F a') (dapply dk p).

Lemma run_ops_spec os s a a' :
  agree s a -> arun a os = Some a' ->
  wp (run_ops os) (fun _ s' => agree s' a' /\ exists w, k_disk s' = dapply (k_disk s) w /\
    crash_somewhere a os (k_disk s) w) s.
Proof.
  revert s a. induction os as [|o os IH]; intros s a Ha Hrun; simpl in Hrun |- *.
  - simplify_eq. apply wp_ret. split; [done|]. exists []. rewrite dapply_nil. split; [done|].
    intros p ->%prefix_nil_inv. exists 0%nat, a'. split_and!; [simpl; lia|done|]. rewrite dapply_nil.
    destruct Ha as (V & F & Hi & _ & HF). apply tofs_survives. eexists. by eapply inv_tofs.
  - destruct (astep a o) as [a1|] eqn:Ho; [|done]. wp_use (run_op_spec s a o a1 Ha Ho).
    intros [] s1 (Ha1 & w1 & Hdk1 & Hc1). eapply wp_mono; [by apply (IH s1 a1)|].
    intros [] s2 (Ha2 & w2 & Hdk2 & Hc2). split; [done|]. exists (w1 ++ w2).
    split; [by rewrite Hdk2, Hdk1, dapply_app|]. intros p Hp.
    apply prefix_app_cases in Hp as [[k ->]|(p' & -> & Hp')].
    + destruct (Hc1 (take k w1)) as [Hs|Hs]; [by exists (drop k w1); rewrite take_drop| |].
      * exists 0%nat, a. split_and!; [simpl; lia|done|done].
      * exists 1%nat, a1. simpl. rewrite Ho. split_and!; [lia|done|done].
    + destruct (Hc2 p' Hp') as (j & a'' & Hj & Hrun' & Hs). exists (S j), a''. simpl. rewrite Ho.
      split_and!; [lia|done|]. by rewrite Hdk1, dapply_app in Hs.
Qed.

(** The abstract state of a file system whose log is empty. *)
Definition fresh (D : Z -> list Z) : astate := mkAstate 0 [] D D.

(** Mounting a disk whose log is empty. *)
Lemma mount_inv dk : tofs (dblock dk) (dblock dk) [] ->
  wp mount (fun _ s => exists V, log_inv me d st nl s 0 [] V (dblock dk) /\ (forall bn, ~ in_log st nl bn -> V bn = dblock dk bn) /\ k_disk s = dapply dk (wrec st (dblock dk) [])) (powered dk).
Proof.
  intros Ht. eapply wp_mono; [apply (mount_run dk (dblock dk) [] Ht)|]. intros [] s (Hdk & Hf & Ho & Hc & Hm & pin & Hbc & Hp).
  set (V := vapply (dblock dk) (wrec st (dblock dk) [])) in *.
  assert (Hfs : forall bn, ~ in_log st nl bn -> V bn = dblock dk bn).
  { intros bn Hn. destruct (tofs_recovered _ _ _ Ht) as (_ & _ & _ & _ & Hfs). apply Hfs; [done|apply not_elem_of_nil]. }
  exists V. split_and!; [|done|done]. split; try done.
  - exists pin, []. by split.
  - destruct (tofs_recovered _ _ _ Ht) as (_ & Hh' & Hl' & _). by split.
  - intros bn Hn. rewrite Hdk, dblock_dapply. auto.
  - intros bn Hn _. auto.
Qed.

(** C1: the log makes transactions atomic and durable.  A kernel boots on a disk whose log
    is empty and runs any sequence of [begin_op]s, block writes through [log_write] and
    [end_op]s that the abstract machine allows.  No call panics or blocks; and if the
    power fails after any prefix of the block writes the disk was given, and then again
    any number of times during recovery, the machine comes back up, and every block
    outside the log has the contents it had at the last commit among some number [j] of the
    operations: never a part of a transaction.  When all operations have run the
    contents are those of the last commit. *)
Theorem log_crash_atomic dk os a :
  header_ok (dblock dk st) [] -> length (dblock dk st) = BSIZE -> arun (fresh (dblock dk)) os = Some a ->
  wp (mount ;; run_ops os) (fun _ s =>
    survives (a_F a) (k_disk s) /\
    exists w, k_disk s = dapply dk w /\
      forall p, p `prefix_of` w -> exists j a', (j <= length os)%nat /\
        arun (fresh (dblock dk)) (take j os) = Some a' /\ survives (a_F a') (dapply dk p)) (powered dk).
Proof.
  intros Hh Hlen Hrun. assert (Ht : tofs (dblock dk) (dblock dk) []).
  { split_and!; try done. split_and!; [simpl; lia|simpl; lia|constructor|apply NoDup_nil_2]. }
  wp_use (mount_inv dk Ht). intros [] s (V & Hi & Hfs & Hdk). set (w0 := wrec st (dblock dk) []) in *.
  assert (Ha : agree s (fresh (dblock dk))) by (by exists V, (dblock dk)).
  eapply wp_mono; [apply (run_ops_spec os s _ a Ha Hrun)|].
  intros [] s' ((V' & F' & Hi' & _ & HF') & w & Hdk' & Hcr). split.
  { apply tofs_survives. eexists. by eapply inv_tofs. }
  exists (w0 ++ w). split; [by rewrite Hdk', Hdk, dapply_app|]. intros p Hpre.
  apply prefix_app_cases in Hpre as [[k ->]|(p' & -> & Hp')].
  - exists 0%nat, (fresh (dblock dk)). split_and!; [lia|done|]. apply tofs_survives, dapply_tofs.
    apply (tofs_prefix _ _ _ _ Ht). exists (drop k w0). by rewrite take_drop.
  - destruct (Hcr p' Hp') as (j & a' & Hj & Hr & Hs). exists j, a'. split_and!; [done|done|].
    by rewrite Hdk, dapply_app in Hs.
Qed.

(** A full log. *)
Lemma tx_write_full s out bl V F bn x :
  log_inv me d st nl s out bl V F -> LOGSIZE <= Z.of_nat (length bl) \/ nl - 1 <= Z.of_nat (length bl) -> panics (tx_write d bn x) "too big a transaction" s.
Proof.
  intros [(pin & pl & Hbc & Hp) Hm Ho Hc Hf Hh Hdk Hold] Hfull. unfold tx_write. pose proof (few_pins d st nl Hnl Hnb _ _ _ _ Hm Hp) as Hfew.
  apply panics_bind. eapply wp_mono; [apply (bread_spec s me d V ∅ pin Hbc bn); [set_solver|]|].
  { eapply (free_buffer me d s V ∅ pin bn pl); [done|intros b; apply (pinned_pos _ _ _ _ b Hp)|]. rewrite size_empty. lia. }
  intros b s1 (_ & Hbc1 & Hh1 & Hr1 & _). apply panics_bind, wp_modify, panics_first. unfold log_write. apply panics_bind.
  set (s2 := set_k_bufs _ s1). assert (Hl2 : k_log s2 = k_log s) by (by apply same_rest_log).
  apply wp_acquire; [exact (bc_hart _ _ _ _ _ _ Hbc1)|by apply (same_rest_free _ _ _ Hr1)|]. apply panics_bind, wp_gets. change (k_log (acquired L_log s2)) with (k_log s2). rewrite Hl2.
  replace ((LOGSIZE <=? lhn (k_log s)) || (lsize (k_log s) - 1 <=? lhn (k_log s))) with true; [done|].
  rewrite (lm_n _ _ _ _ _ Hm), (lm_size _ _ _ _ _ Hm). lia.
Qed.

(** C38: The log refuses a block it has no room for.  When the operations in progress have logged all but one of the blocks of the log on the disk, the next [log_write], of any block, panics.
    [begin_op] does not prevent it: it compares what the operations may write with [LOGSIZE], and [mkfs] makes the log [LOGSIZE] blocks long, of which one is the header: three operations
    that stay within [MAXOPBLOCKS] blocks each can ask for the 30 blocks they were promised and panic at the last. *)
Theorem log_write_overflows dk os a bn x :
  header_ok (dblock dk st) [] -> length (dblock dk st) = BSIZE -> arun (fresh (dblock dk)) os = Some a -> nl - 1 <= Z.of_nat (length (a_bl a)) ->
  panics (mount ;; run_ops os ;; tx_write d bn x) "too big a transaction" (powered dk).
Proof.
  intros Hh Hlen Hrun Hfull. assert (Ht : tofs (dblock dk) (dblock dk) []).
  { split_and!; try done. split_and!; [simpl; lia|simpl; lia|constructor|apply NoDup_nil_2]. }
  apply panics_bind. eapply wp_mono; [apply (mount_inv dk Ht)|]. intros [] s (V & Hi & Hfs & Hdk).
  assert (Ha : agree s (fresh (dblock dk))) by (by exists V, (dblock dk)).
  apply panics_bind. eapply wp_mono; [apply (run_ops_spec os s _ a Ha Hrun)|]. intros [] s' ((V' & F' & Hi' & _) & _). eapply tx_write_full; [exact Hi'|by right].
Qed.
End crash.

(** A disk with the layout [mkfs] computes: the log starts at block 2 and has 30 blocks. *)
Definition sample_sb : superblock := mkSuperblock 0x10203040 2000 1954 200 30 2 32 45.

Lemma log_crash_atomic_witness :
  wp (@mount one_round ROOTDEV sample_sb ;; @run_ops one_round ROOTDEV [LBegin; LWrite 50 (s2b "a"); LBegin; LEnd; LWrite 51 (s2b "b"); LEnd])
    (fun _ s => @survives one_round sample_boot ROOTDEV sample_sb
       (vupd (vupd (fun _ => replicate BSIZE 0) 50 (s2b "a")) 51 (s2b "b")) (k_disk s)) sample_boot.
Proof.
  eapply wp_mono.
  - eapply (@log_crash_atomic one_round sample_boot 0 ROOTDEV sample_sb) with (dk := mkDisk ∅ []) (a := mkAstate 0 [] _ _).
    + done.
    + split; simpl; lia.
    + done.
    + unfold ROOTDEV. lia.
    + apply sample_bzeroed.
    + done.
    + split; [done|]. by intros i bn.
    + done.
    + reflexivity.
  - intros [] s [Hs _]. exact Hs.
Defined.

Lemma some_with {A} (o : option A) (p : A -> bool) : match o with Some a => p a | None => false end = true -> exists a, o = Some a /\ p a = true.
Proof. destruct o as [a|]; [|done]. by exists a. Qed.

(** Three operations at once, and [n] distinct blocks written by them. *)
Definition three_ops (n : nat) : list lop :=
  [LBegin; LBegin; LBegin] ++ ((fun i => LWrite (100 + Z.of_nat i) []) <$> seq 0 n).

(** On a disk laid out by [mkfs], whose log has [LOGSIZE] blocks: [begin_op] admits three operations, of [MAXOPBLOCKS] blocks each, and the 30th block panics. *)
Lemma log_write_overflows_witness :
  3 * MAXOPBLOCKS = 30 /\ 3 * MAXOPBLOCKS <= LOGSIZE /\ panics (@mount one_round ROOTDEV sample_sb ;; @run_ops one_round ROOTDEV (three_ops 29) ;; @tx_write one_round ROOTDEV 129 []) "too big a transaction" sample_boot.
Proof.
  split; [done|]. split; [done|].
  destruct (some_with (arun sample_sb (fresh (dblock (mkDisk ∅ []))) (three_ops 29)) (fun a => 29 <=? length (a_bl a))%nat) as (a & Ea & Hl%Nat.leb_le); [vm_compute; reflexivity|].
  apply (@log_write_overflows one_round sample_boot 0 ROOTDEV sample_sb ltac:(done) ltac:(split; simpl; lia) ltac:(done) ltac:(unfold ROOTDEV; lia) sample_bzeroed eq_refl
    (mkDisk ∅ []) (three_ops 29) a); [split; [done|]; by intros i bn|done|exact Ea|]. change (sb_nlog sample_sb) with 30. lia.
Defined.
