(* ===== verification/Fs.v ===== *)
(** The file system, [kernel/fs.c]: blocks, inodes, directories and path names.

    [k_sb] is the variable [sb] and [k_inodes] the array [itable.inode]; a pointer to an
    in-memory inode is its index.  Data read by [readi] goes to a user address, to a
    physical address, or to a local variable of the caller, in which case it is the
    returned list of bytes that the caller uses. *)
From S2P Require Import Prelude Machine Riscv State Spinlock KString Kalloc Vm Sched Uart Printf Block Bio Log.
From Stdlib Require Import ZArith Lia.
From stdpp Require Import base strings numbers gmap list.
Local Open Scope Z_scope.
Local Open Scope m_scope.

(** ** fs.h, stat.h *)

Definition ROOTINO : Z := 1.
Definition FSMAGIC : Z := 0x10203040.
Definition BSZ : Z := Z.of_nat BSIZE.
Definition NDIRECT : Z := 12.
Definition NINDIRECT : Z := BSZ / 4.
Definition MAXFILE : Z := NDIRECT + NINDIRECT.
Definition sizeof_dinode : Z := 64.
Definition IPB : Z := BSZ / sizeof_dinode.
Definition IBLOCK (i : Z) (sb : superblock) : Z := u32 (i / IPB + sb_inodestart sb).
Definition BPB : Z := BSZ * 8.
Definition BBLOCK (b : Z) (sb : superblock) : Z := u32 (b / BPB + sb_bmapstart sb).
Definition DIRSIZ : nat := 14.
Definition sizeof_dirent : Z := 16.

Definition T_DIR : Z := 1.
Definition T_FILE : Z := 2.
Definition T_DEVICE : Z := 3.

(** The super block as block 1 holds it. *)
Definition decode_sb (x : list Z) : superblock :=
  mkSuperblock (rd32 0 x) (rd32 4 x) (rd32 8 x) (rd32 12 x) (rd32 16 x) (rd32 20 x) (rd32 24 x) (rd32 28 x).

(** [struct dinode] at offset [o] of an inode block. *)
Definition dinode_off (inum : Z) : nat := Z.to_nat (sizeof_dinode * (inum mod IPB)).
Definition di_type (o : nat) (x : list Z) : Z := s16 (rd16 o x).
Definition di_major (o : nat) (x : list Z) : Z := s16 (rd16 (o + 2) x).
Definition di_minor (o : nat) (x : list Z) : Z := s16 (rd16 (o + 4) x).
Definition di_nlink (o : nat) (x : list Z) : Z := s16 (rd16 (o + 6) x).
Definition di_size (o : nat) (x : list Z) : Z := rd32 (o + 8) x.
Definition di_addrs (o : nat) (x : list Z) : list Z := (fun i => rd32 (o + 12 + 4 * i) x) <$> seq 0 13.

(** A [uint] array laid over a block. *)
Definition a_get (i : Z) (x : list Z) : Z := rd32 (Z.to_nat (4 * i)) x.
Definition a_set (i v : Z) (x : list Z) : list Z := wr32 (Z.to_nat (4 * i)) v x.

(** [struct dirent]. *)
Definition de_inum (x : list Z) : Z := rd16 0 x.
Definition de_name (x : list Z) : list Z := sub 2 DIRSIZ x.
Definition mk_dirent (inum : Z) (name : list Z) : list Z := le_bytes 2 inum ++ name.

Definition get_ino (i : nat) : K inode := gets (fun s => k_inodes s !!! i).
Definition upd_ino (i : nat) (f : inode -> inode) : K unit :=
  modify (fun s => set_k_inodes (alter f i (k_inodes s)) s).
Definition get_sb : K superblock := gets k_sb.

(** Change the data of a buffer. *)
Definition upd_data (b : nat) (f : list Z -> list Z) : K unit :=
  upd_buf b (fun bb => set_bdata (f (bdata bb)) bb).

Section fs.
Context `{Patience}.

(** ** Super block *)

Definition readsb (dev : Z) : K unit :=
  bp <- bread (u32 dev) 1 ;;
  bb <- get_buf bp ;;
  modify (set_k_sb (decode_sb (bdata bb))) ;;
  brelse bp.

Definition fsinit (dev : Z) : K unit :=
  readsb dev ;;
  sb <- get_sb ;;
  if negb (sb_magic sb =? FSMAGIC) then panic "invalid file system" else
  initlog dev sb.

(** ** Blocks *)

Definition bzero (dev bno : Z) : K unit :=
  bp <- bread (u32 dev) (u32 bno) ;;
  upd_data bp (fun _ => replicate BSIZE 0) ;;
  log_write bp ;;
  brelse bp.

(** [1 << (bi % 8)], and byte [bi/8] of a bit map. *)
Definition bit (bi : Z) : Z := Z.shiftl 1 (bi mod 8).
Definition bm_byte (bi : Z) (x : list Z) : Z := x !!! Z.to_nat (bi / 8).
Definition set_bm_byte (bi v : Z) (x : list Z) : list Z := <[Z.to_nat (bi / 8) := v]> x.

Definition balloc (dev : Z) : K Z :=
  sb <- get_sb ;;
  r <- for_ret ((fun k => k * BPB) <$> zrange 0 (Z.to_nat ((sb_size sb + BPB - 1) / BPB))) (fun b =>
    bp <- bread dev (BBLOCK b sb) ;;
    r <- for_ret (zrange 0 (Z.to_nat (Z.min BPB (sb_size sb - b)))) (fun bi =>
      let m := bit bi in
      bb <- get_buf bp ;;
      if Z.land (bm_byte bi (bdata bb)) m =? 0 then
        upd_data bp (fun x => set_bm_byte bi (Z.lor (bm_byte bi x) m) x) ;;
        log_write bp ;;
        brelse bp ;;
        bzero dev (b + bi) ;;
        ret (Some (b + bi))
      else ret None) ;;
    match r with
    | Some v => ret (Some v)
    | None => brelse bp ;; ret None
    end) ;;
  match r with
  | Some v => ret v
  | None => printf (s2b "balloc: out of blocks" ++ newline) [] ;; ret 0
  end.

Definition bfree (dev b : Z) : K unit :=
  sb <- get_sb ;;
  bp <- bread (u32 dev) (BBLOCK b sb) ;;
  let bi := b mod BPB in
  let m := bit bi in
  bb <- get_buf bp ;;
  if Z.land (bm_byte bi (bdata bb)) m =? 0 then panic "freeing free block" else
  upd_data bp (fun x => set_bm_byte bi (Z.land (bm_byte bi x) (u8 (Z.lnot m))) x) ;;
  log_write bp ;;
  brelse bp.

(** ** Inodes *)

Definition iinit : K unit :=
  initlock L_itable ;;
  for_each (seq 0 NINODE) (fun i => initsleeplock (SL_inode i)).

(** The search of [iget]: the entry for the inode, or the first free one. *)
Definition iget (dev inum : Z) : K nat :=
  acquire L_itable ;;
  r <- (fix scan (l : list nat) (empty : option nat) : K (nat + option nat) :=
     match l with
     | [] => ret (inr empty)
     | i :: l' =>
         ip <- get_ino i ;;
         if (0 <? iref ip) && (idev ip =? dev) && (inum =? State.inum ip) then
           upd_ino i (fun ip => set_iref (iref ip + 1) ip) ;;
           release L_itable ;;
           ret (inl i)
         else scan l' (if is_some empty then empty else if iref ip =? 0 then Some i else empty)
     end) (seq 0 NINODE) None ;;
  match r with
  | inl i => ret i
  | inr None => panic "iget: no inodes"
  | inr (Some i) =>
      upd_ino i (set_idev dev) ;;
      upd_ino i (set_inum inum) ;;
      upd_ino i (set_iref 1) ;;
      upd_ino i (set_ivalid false) ;;
      release L_itable ;;
      ret i
  end.

Definition ialloc (dev type : Z) : K (option nat) :=
  sb <- get_sb ;;
  r <- for_ret (zrange 1 (Z.to_nat (sb_ninodes sb - 1))) (fun inum =>
    bp <- bread dev (IBLOCK inum sb) ;;
    let o := dinode_off inum in
    bb <- get_buf bp ;;
    if di_type o (bdata bb) =? 0 then
      upd_data bp (splice o (replicate (Z.to_nat sizeof_dinode) 0)) ;;
      upd_data bp (wr16 o type) ;;
      log_write bp ;;
      brelse bp ;;
      i <- iget dev inum ;;
      ret (Some i)
    else
      brelse bp ;;
      ret None) ;;
  match r with
  | Some i => ret (Some i)
  | None => printf (s2b "ialloc: no inodes" ++ newline) [] ;; ret None
  end.

Definition iupdate (ip : nat) : K unit :=
  sb <- get_sb ;;
  i <- get_ino ip ;;
  bp <- bread (idev i) (IBLOCK (State.inum i) sb) ;;
  i <- get_ino ip ;;
  let o := dinode_off (State.inum i) in
  upd_data bp (wr16 o (itype i)) ;;
  upd_data bp (wr16 (o + 2) (imajor i)) ;;
  upd_data bp (wr16 (o + 4) (iminor i)) ;;
  upd_data bp (wr16 (o + 6) (inlink i)) ;;
  upd_data bp (wr32 (o + 8) (isize i)) ;;
  upd_data bp (splice (o + 12) (mjoin (le_bytes 4 <$> iaddrs i))) ;;
  log_write bp ;;
  brelse bp.

Definition idup (ip : nat) : K nat :=
  acquire L_itable ;;
  upd_ino ip (fun i => set_iref (iref i + 1) i) ;;
  release L_itable ;;
  ret ip.

Definition ilock (p : option nat) : K unit :=
  match p with
  | None => panic "ilock"
  | Some ip =>
      i <- get_ino ip ;;
      if iref i <? 1 then panic "ilock" else
      acquiresleep (SL_inode ip) ;;
      i <- get_ino ip ;;
      when (negb (ivalid i))
        (sb <- get_sb ;;
         bp <- bread (idev i) (IBLOCK (State.inum i) sb) ;;
         bb <- get_buf bp ;;
         let o := dinode_off (State.inum i) in
         upd_ino ip (set_itype (di_type o (bdata bb))) ;;
         upd_ino ip (set_imajor (di_major o (bdata bb))) ;;
         upd_ino ip (set_iminor (di_minor o (bdata bb))) ;;
         upd_ino ip (set_inlink (di_nlink o (bdata bb))) ;;
         upd_ino ip (set_isize (di_size o (bdata bb))) ;;
         upd_ino ip (set_iaddrs (di_addrs o (bdata bb))) ;;
         brelse bp ;;
         upd_ino ip (set_ivalid true) ;;
         i <- get_ino ip ;;
         if itype i =? 0 then panic "ilock: no type" else ret tt)
  end.

Definition iunlock (p : option nat) : K unit :=
  match p with
  | None => panic "iunlock"
  | Some ip =>
      h <- holdingsleep (SL_inode ip) ;;
      if negb h then panic "iunlock" else
      i <- get_ino ip ;;
      if iref i <? 1 then panic "iunlock" else
      releasesleep (SL_inode ip)
  end.

(** ** Inode contents *)

(** [ip->addrs[i]]. *)
Definition addr_at (i : inode) (n : Z) : Z := iaddrs i !!! Z.to_nat n.
Definition set_addr (ip : nat) (n v : Z) : K unit :=
  upd_ino ip (fun i => set_iaddrs (<[Z.to_nat n := v]> (iaddrs i)) i).

Definition bmap (ip : nat) (bn : Z) : K Z :=
  if bn <? NDIRECT then
    i <- get_ino ip ;;
    let addr := addr_at i bn in
    if addr =? 0 then
      addr <- balloc (idev i) ;;
      if addr =? 0 then ret 0 else
      set_addr ip bn addr ;;
      ret addr
    else ret addr
  else
  let bn := bn - NDIRECT in
  if bn <? NINDIRECT then
    i <- get_ino ip ;;
    let addr := addr_at i NDIRECT in
    addr <- (if addr =? 0 then
               addr <- balloc (idev i) ;;
               if addr =? 0 then ret 0 else
               set_addr ip NDIRECT addr ;;
               ret addr
             else ret addr) ;;
    if addr =? 0 then ret 0 else
    bp <- bread (idev i) addr ;;
    bb <- get_buf bp ;;
    let addr := a_get bn (bdata bb) in
    addr <- (if addr =? 0 then
               addr <- balloc (idev i) ;;
               when (negb (addr =? 0))
                 (upd_data bp (a_set bn addr) ;;
                  log_write bp) ;;
               ret addr
             else ret addr) ;;
    brelse bp ;;
    ret addr
  else panic "bmap: out of range".

Definition itrunc (ip : nat) : K unit :=
  for_each (zrange 0 (Z.to_nat NDIRECT)) (fun n =>
    i <- get_ino ip ;;
    when (negb (addr_at i n =? 0))
      (bfree (s32 (idev i)) (addr_at i n) ;;
       set_addr ip n 0)) ;;
  i <- get_ino ip ;;
  when (negb (addr_at i NDIRECT =? 0))
    (bp <- bread (idev i) (addr_at i NDIRECT) ;;
     for_each (zrange 0 (Z.to_nat NINDIRECT)) (fun j =>
       bb <- get_buf bp ;;
       when (negb (a_get j (bdata bb) =? 0)) (bfree (s32 (idev i)) (a_get j (bdata bb)))) ;;
     brelse bp ;;
     bfree (s32 (idev i)) (addr_at i NDIRECT) ;;
     set_addr ip NDIRECT 0) ;;
  upd_ino ip (set_isize 0) ;;
  iupdate ip.

Definition iput (ip : nat) : K unit :=
  acquire L_itable ;;
  i <- get_ino ip ;;
  when ((iref i =? 1) && ivalid i && (inlink i =? 0))
    (acquiresleep (SL_inode ip) ;;
     release L_itable ;;
     itrunc ip ;;
     upd_ino ip (set_itype 0) ;;
     iupdate ip ;;
     upd_ino ip (set_ivalid false) ;;
     releasesleep (SL_inode ip) ;;
     acquire L_itable) ;;
  upd_ino ip (fun i => set_iref (iref i - 1) i) ;;
  release L_itable.

Definition iunlockput (ip : nat) : K unit :=
  iunlock (Some ip) ;;
  iput ip.

(** [struct stat]: device, inode number, type, links, size. *)
Definition stati (ip : nat) : K (Z * Z * Z * Z * Z) :=
  i <- get_ino ip ;;
  ret (s32 (idev i), State.inum i, itype i, inlink i, isize i).

(** Where [readi] puts the data and where [writei] takes it from. *)
Inductive rdst : Type :=
| RUser (va : Z)
| RPhys (pa : Z)
| RLocal.
Inductive wsrc : Type :=
| WUser (va : Z)
| WLocal (bs : list Z).

Definition put_dst (dst : rdst) (off : Z) (bs : list Z) : K Z :=
  match dst with
  | RUser va => either_copyout true (u64 (va + off)) bs
  | RPhys pa => either_copyout false (u64 (pa + off)) bs
  | RLocal => ret 0
  end.
Definition get_src (src : wsrc) (off : Z) (n : nat) : K (Z * list Z) :=
  match src with
  | WUser va => either_copyin true (u64 (va + off)) n
  | WLocal bs => ret (0, sub (Z.to_nat off) n bs)
  end.

(** The rounds of the copy loops: one per block touched. *)
Definition rw_rounds (n : Z) : nat := Z.to_nat (n / BSZ + 3).

(** The count of bytes read, and the bytes. *)
Definition readi (ip : nat) (dst : rdst) (off n : Z) : K (Z * list Z) :=
  i <- get_ino ip ;;
  if (isize i <? off) || (u32 (off + n) <? off) then ret (0, []) else
  let n := if isize i <? u32 (off + n) then u32 (isize i - off) else n in
  while_fuel OutOfFuel (rw_rounds n) (fun '(tot, off, acc) =>
    if negb (tot <? n) then ret (inr (s32 tot, acc)) else
    addr <- bmap ip (off / BSZ) ;;
    if addr =? 0 then ret (inr (s32 tot, acc)) else
    i <- get_ino ip ;;
    bp <- bread (idev i) addr ;;
    let m := Z.min (n - tot) (BSZ - off mod BSZ) in
    bb <- get_buf bp ;;
    let bs := sub (Z.to_nat (off mod BSZ)) (Z.to_nat m) (bdata bb) in
    r <- put_dst dst tot bs ;;
    if r =? -1 then
      brelse bp ;;
      ret (inr (-1, acc))
    else
      brelse bp ;;
      ret (inl (tot + m, off + m, acc ++ bs))) (0, off, []).

Definition writei (ip : nat) (src : wsrc) (off n : Z) : K Z :=
  i <- get_ino ip ;;
  if (isize i <? off) || (u32 (off + n) <? off) then ret (-1) else
  if MAXFILE * BSZ <? u32 (off + n) then ret (-1) else
  let! (tot, off) := while_fuel OutOfFuel (rw_rounds n) (fun '(tot, off) =>
    if negb (tot <? n) then ret (inr (tot, off)) else
    addr <- bmap ip (off / BSZ) ;;
    if addr =? 0 then ret (inr (tot, off)) else
    i <- get_ino ip ;;
    bp <- bread (idev i) addr ;;
    let m := Z.min (n - tot) (BSZ - off mod BSZ) in
    let! (r, bs) := get_src src tot (Z.to_nat m) in
    upd_data bp (splice (Z.to_nat (off mod BSZ)) bs) ;;
    if r =? -1 then
      brelse bp ;;
      ret (inr (tot, off))
    else
      log_write bp ;;
      brelse bp ;;
      ret (inl (tot + m, off + m))) (0, off) in
  i <- get_ino ip ;;
  when (isize i <? off) (upd_ino ip (set_isize off)) ;;
  iupdate ip ;;
  ret (s32 tot).

(** ** Directories *)

Definition namecmp (s t : list Z) : K Z :=
  match strncmp s t DIRSIZ with Some r => ret r | None => stop (Fault "strncmp") end.

(** The offsets of the entries of a directory of [size] bytes. *)
Definition dir_offs (size : Z) : list Z :=
  (fun k => k * sizeof_dirent) <$> zrange 0 (Z.to_nat ((size + sizeof_dirent - 1) / sizeof_dirent)).

(** The inode an entry names, and the offset of the entry. *)
Definition dirlookup (dp : nat) (name : list Z) : K (option (nat * Z)) :=
  d <- get_ino dp ;;
  if negb (itype d =? T_DIR) then panic "dirlookup not DIR" else
  for_ret (dir_offs (isize d)) (fun off =>
    let! (r, de) := readi dp RLocal off sizeof_dirent in
    if negb (r =? sizeof_dirent) then panic "dirlookup read" else
    if de_inum de =? 0 then ret None else
    c <- namecmp name (de_name de) ;;
    if c =? 0 then
      d <- get_ino dp ;;
      ip <- iget (idev d) (de_inum de) ;;
      ret (Some (ip, off))
    else ret None).

Definition dirlink (dp : nat) (name : list Z) (inum : Z) : K Z :=
  r <- dirlookup dp name ;;
  match r with
  | Some (ip, _) => iput ip ;; ret (-1)
  | None =>
      d <- get_ino dp ;;
      r <- for_ret (dir_offs (isize d)) (fun off =>
        let! (r, de) := readi dp RLocal off sizeof_dirent in
        if negb (r =? sizeof_dirent) then panic "dirlink read" else
        if de_inum de =? 0 then ret (Some off) else ret None) ;;
      let off := default (Z.of_nat (length (dir_offs (isize d))) * sizeof_dirent) r in
      match strncpy name DIRSIZ with
      | None => stop (Fault "strncpy")
      | Some nm =>
          w <- writei dp (WLocal (mk_dirent (u16 inum) nm)) off sizeof_dirent ;;
          if negb (w =? sizeof_dirent) then ret (-1) else ret 0
      end
  end.

(** ** Paths

    A path is the bytes of the string before its NUL. *)

Fixpoint skip_slashes (p : list Z) : list Z :=
  match p with
  | c :: p' => if c =? 47 then skip_slashes p' else p
  | [] => []
  end.

(** The bytes up to the next slash, and the rest. *)
Fixpoint take_elem (p : list Z) : list Z * list Z :=
  match p with
  | c :: p' => if c =? 47 then ([], p) else let '(e, r) := take_elem p' in (c :: e, r)
  | [] => ([], [])
  end.

(** The rest of the path and the array [name] with the element in it. *)
Definition skipelem (path name : list Z) : option (list Z * list Z) :=
  match skip_slashes path with
  | [] => None
  | path =>
      let '(s, path) := take_elem path in
      let name := if (DIRSIZ <=? length s)%nat then splice 0 (take DIRSIZ s) name
                  else splice 0 (s ++ [0]) name in
      Some (skip_slashes path, name)
  end.

Definition cwd_of : K nat :=
  i <- curproc ;;
  p <- get_proc i ;;
  match pcwd p with Some ip => ret ip | None => panic "kerneltrap" end.

(** The inode, and the array [name]. *)
Definition namex (path : list Z) (nameiparent : bool) (name : list Z) : K (option nat * list Z) :=
  ip <- (if default 0 (path !! 0%nat) =? 47 then iget ROOTDEV ROOTINO
         else cwd <- cwd_of ;; idup cwd) ;;
  while_fuel OutOfFuel (S (S (length path))) (fun '(path, name, ip) =>
    match skipelem path name with
    | None =>
        if nameiparent then iput ip ;; ret (inr (None, name)) else ret (inr (Some ip, name))
    | Some (path, name) =>
        ilock (Some ip) ;;
        i <- get_ino ip ;;
        if negb (itype i =? T_DIR) then iunlockput ip ;; ret (inr (None, name)) else
        if nameiparent && bool_decide (path = []) then iunlock (Some ip) ;; ret (inr (Some ip, name)) else
        next <- dirlookup ip name ;;
        match next with
        | None => iunlockput ip ;; ret (inr (None, name))
        | Some (next, _) => iunlockput ip ;; ret (inl (path, name, next))
        end
    end) (path, name, ip).

Definition namei (path : list Z) : K (option nat) :=
  let! (ip, _) := namex path false (replicate DIRSIZ 0) in
  ret ip.

Definition nameiparent (path name : list Z) : K (option nat * list Z) := namex path true name.
End fs.
