(* ===== verification/FsTx.v ===== *)
(** File-system code inside a transaction.

    [tx s held x bl V F]: [out] file-system operations are open in [s]; the file system sees the blocks [V], the last
    commit left [F], the blocks [bl] are logged, and the process has the buffers [held]
    locked.  [x] is the block whose buffer has been changed and not yet been logged. The lemmas say what
    [bread], changing the data, [log_write] and [brelse] do to these; the code of
    [fs.c] is verified with them. *)
From S2P Require Import Prelude Machine Riscv State Spinlock KString Kalloc Vm Sched Uart Printf Block Bio BufCache Log LogSpec LogOps Fs.
From Stdlib Require Import ZArith Lia.
From stdpp Require Import base strings numbers gmap list.
Local Open Scope Z_scope.
Local Open Scope m_scope.

Section tx.
Context `{Patience}.
Variables (me : nat) (d st nl out : Z).
Hypothesis Hd : 0 <= d < 2 ^ 32.
Hypothesis Hst : 0 <= st.
Hypothesis Hnl : 0 < nl /\ st + nl < 2 ^ 31.
Hypothesis Hnb : nl <= Z.of_nat NBUF.

Local Abbreviation in_log := (in_log st nl).
Local Abbreviation logmem := (logmem d st nl).

Record tx (s : kstate) (held : gset nat) (x : option Z) (bl : list Z) (V F : Z -> list Z) : Prop := {
  tx_pins : exists pin pl, bcache s me d V held pin /\ pinned s pin pl bl;
  tx_log : logmem (k_log s) bl;
  tx_out : loutstanding (k_log s) = out;
  tx_com : lcommitting (k_log s) = false;
  tx_lock : lock_free L_log s;
  tx_hdr : length (V st) = BSIZE /\ header_ok (V st) [];
  tx_disk : forall bn, ~ in_log bn -> dblock (k_disk s) bn = F bn;
  tx_old : forall bn, ~ in_log bn -> (bn ∉ bl) -> x <> Some bn -> V bn = F bn
}.

Lemma log_inv_tx s bl V F : log_inv me d st nl s out bl V F <-> tx s ∅ None bl V F.
Proof. split; intros []; split; try done; auto. Qed.

(** Nothing but the buffer cache and the log has changed, and no block has been written to the disk. *)
Definition kept (s s' : kstate) : Prop := lsame s s' /\ k_disk s' = k_disk s.

Lemma kept_refl s : kept s s.
Proof. split; [apply lsame_refl|done]. Qed.
Lemma kept_trans s1 s2 s3 : kept s1 s2 -> kept s2 s3 -> kept s1 s3.
Proof. intros [H1 D1] [H2 D2]. split; [by eapply lsame_trans|congruence]. Qed.
Lemma kept_inodes s s' : kept s s' -> k_inodes s' = k_inodes s.
Proof. intros [[Hs _] _]. by apply (f_equal k_inodes) in Hs. Qed.
Lemma kept_sb s s' : kept s s' -> k_sb s' = k_sb s.
Proof. intros [[Hs _] _]. by apply (f_equal k_sb) in Hs. Qed.

(** The in-memory inodes are none of the cache's or the log's business. *)
Definition with_ino (ip : nat) (i : inode) (s : kstate) : kstate := set_k_inodes (<[ip := i]> (k_inodes s)) s.

Lemma tx_with_ino s held x bl V F ip i : tx s held x bl V F -> tx (with_ino ip i s) held x bl V F.
Proof.
  intros [(pin & pl & [] & []) ? ? ? ? ? ? ?]. split; try done. exists pin, pl. split; split; done.
Qed.

Lemma kept_with_ino s s' ip i : kept s s' -> kept (with_ino ip i s) (with_ino ip i s').
Proof.
  intros Hk. pose proof (kept_inodes _ _ Hk) as Hi. destruct Hk as [[Hs Hq] Hdk]. split; [|done]. split; [|done]. unfold with_ino. rewrite Hi.
  change (lscrub (set_k_inodes (<[ip := i]> (k_inodes s)) ?t)) with (set_k_inodes (<[ip := i]> (k_inodes s)) (lscrub t)). by rewrite Hs.
Qed.

Lemma with_ino_twice s ip i j : with_ino ip i (with_ino ip j s) = with_ino ip i s.
Proof. unfold with_ino. simpl. by rewrite list_insert_insert_eq. Qed.

Lemma kept_settle s : kept s (settle s).
Proof. split; [split; [|apply quiet_refl]|done]. unfold lscrub, scrub. by rewrite settle_settle. Qed.
Lemma kept_slock s s' ip : kept s s' -> k_slocks s' !! SL_inode ip = k_slocks s !! SL_inode ip.
Proof. intros [[Hs _] _]. apply (f_equal k_slocks) in Hs. simpl in Hs. by rewrite <- (islocks_inode ip (k_slocks s')), Hs, islocks_inode. Qed.
Lemma kept_mem s s' : kept s s' -> k_mem s' = k_mem s.
Proof. intros [[Hs _] _]. by apply (f_equal k_mem) in Hs. Qed.
Lemma kept_files s s' : kept s s' -> k_files s' = k_files s.
Proof. intros [[Hs _] _]. by apply (f_equal k_files) in Hs. Qed.

(** Steps that touch neither the cache nor the log. *)
Lemma tx_settle s held x bl V F : tx s held x bl V F -> tx (settle s) held x bl V F.
Proof.
  intros [(pin & pl & [] & Hp) Hm Ho Hc Hf Hh Hdk Hold]. split; try done. exists pin, pl. split; [|by eapply pinned_blk]. split; try done.
  - by apply hart_ok_settle.
  - unfold runs. by rewrite cproc_settle.
Qed.

Lemma tx_set_sb s held x bl V F v : tx s held x bl V F -> tx (set_k_sb v s) held x bl V F.
Proof. intros [(pin & pl & [] & Hp) Hm Ho Hc Hf Hh Hdk Hold]. split; try done. exists pin, pl. split; [by split|by eapply pinned_blk]. Qed.

Lemma tx_set_inodes s held x bl V F v : tx s held x bl V F -> tx (set_k_inodes v s) held x bl V F.
Proof. intros [(pin & pl & [] & Hp) Hm Ho Hc Hf Hh Hdk Hold]. split; try done. exists pin, pl. split; [by split|by eapply pinned_blk]. Qed.

Lemma tx_set_files s held x bl V F v : tx s held x bl V F -> tx (set_k_files v s) held x bl V F.
Proof. intros [(pin & pl & [] & Hp) Hm Ho Hc Hf Hh Hdk Hold]. split; try done. exists pin, pl. split; [by split|by eapply pinned_blk]. Qed.

Lemma tx_set_mem s held x bl V F v : tx s held x bl V F -> tx (set_k_mem v s) held x bl V F.
Proof. intros [(pin & pl & [] & Hp) Hm Ho Hc Hf Hh Hdk Hold]. split; try done. exists pin, pl. split; [by split|by eapply pinned_blk]. Qed.

Lemma tx_set_slocks s held x bl V F m :
  tx s held x bl V F -> (forall b, m !! SL_buf b = k_slocks s !! SL_buf b) -> tx (set_k_slocks m s) held x bl V F.
Proof.
  intros [(pin & pl & [] & Hp) Hm Ho Hc Hf Hh Hdk Hold] Hsl. split; try done. exists pin, pl. split; [|by eapply pinned_blk]. split; try done.
  intros b. simpl. by rewrite Hsl.
Qed.

Lemma tx_set_procs s held x bl V F ps : tx s held x bl V F -> quiet (k_procs s) ps -> tx (set_k_procs ps s) held x bl V F.
Proof.
  intros [(pin & pl & [] & Hp) Hm Ho Hc Hf Hh Hdk Hold] Hq. split; try done. exists pin, pl. split; [|by eapply pinned_blk]. split; try done.
  - simpl. by rewrite (quiet_length _ _ Hq).
  - intros b. simpl. unfold mine in *. destruct (quiet_at _ _ me Hq) as [stt Hme]. simpl. rewrite Hme. apply bc_sl.
Qed.

(** The buffers [held] still cache the same blocks. *)
Definition same_blocks (s s' : kstate) (held : gset nat) : Prop := forall c, c ∈ held -> bblockno (k_bufs s' !!! c) = bblockno (k_bufs s !!! c).

Lemma holds_same s s' held held' b bn : holds s held b bn -> same_blocks s s' held -> b ∈ held' -> holds s' held' b bn.
Proof. intros [Hb Hk] Hs Hb'. split; [done|]. by rewrite Hs. Qed.

(** The blocks the process has locked. *)
Definition blocks_of (s : kstate) (held : gset nat) (bn : Z) : Prop := exists b, holds s held b bn.

Lemma tx_few s held x bl V F : tx s held x bl V F -> Z.of_nat (length bl) < nl.
Proof. intros Ht. apply (lm_fit _ _ _ _ _ (tx_log _ _ _ _ _ _ Ht)). Qed.

Lemma tx_bread s held x bl V F bn :
  tx s held x bl V F -> ~ blocks_of s held bn -> (length bl + size held < NBUF)%nat ->
  wp (bread d bn) (fun b s' => (b ∉ held) /\ tx s' ({[b]} ∪ held) x bl V F /\ holds s' ({[b]} ∪ held) b bn /\ same_blocks s s' held /\ kept s s') s.
Proof.
  intros [(pin & pl & Hbc & Hp) Hm Ho Hc Hf Hh Hdk Hold] Hnh Hroom.
  eapply wp_mono; [apply (bread_spec s me d V held pin Hbc bn)|].
  - intros b Hb Hk. apply Hnh. by exists b.
  - eapply (free_buffer me d s V held pin bn pl); [done|intros b; apply (pinned_pos _ _ _ _ b Hp)|].
    by rewrite (Forall2_length _ _ _ (pn_blk _ _ _ _ Hp)).
  - intros b s1 (Hb & Hbc1 & Hh1 & Hr1 & Hdk1 & Hbk1 & Hpb1). pose proof (pinned_blk _ _ _ _ _ Hp Hpb1) as Hp1.
    pose proof (same_rest_log _ _ Hr1) as Hl1. split_and!; [done| |done|exact Hbk1|split; [by apply same_rest_lsame|done]].
    split; rewrite ?Hl1, ?Hdk1; try done; [by exists pin, pl|by eapply same_rest_free].
Qed.

Lemma tx_data s held x bl V F b bn : tx s held x bl V F -> holds s held b bn -> bdata (k_bufs s !!! b) = V bn.
Proof. intros [(pin & pl & Hbc & Hp) _ _ _ _ _ _ _] Hh. by eapply held_data. Qed.

(** Changing a buffer: the block is the one that is not logged now. *)
Lemma tx_upd_data s held x bl V F b bn f :
  tx s held x bl V F -> holds s held b bn -> x = None \/ x = Some bn -> ~ in_log bn ->
  wp (upd_data b f) (fun _ s' => tx s' held (Some bn) bl (vupd V bn (f (V bn))) F /\ same_blocks s s' held /\ kept s s') s.
Proof.
  intros Ht Hh Hx Hnin. pose proof (tx_data _ _ _ _ _ _ _ _ Ht Hh) as Hdata. destruct Ht as [(pin & pl & Hbc & Hp) Hm Ho Hc Hf Hhd Hdk Hold].
  destruct (set_data_bcache me d s V held pin b bn (f (V bn)) Hbc Hh) as (Hbc2 & Hh2 & Hbk2). apply wp_modify.
  assert (Halt : alter (fun bb => set_bdata (f (bdata bb)) bb) b (k_bufs s) = alter (set_bdata (f (V bn))) b (k_bufs s)).
  { apply list_eq. intros i. destruct (decide (i = b)) as [->|Hne]; [|by rewrite !list_lookup_alter_ne].
    rewrite !list_lookup_alter. destruct (k_bufs s !! b) as [bb|] eqn:Hb; [|done]. simpl. rewrite (list_lookup_total_correct _ _ _ Hb) in Hdata. by rewrite Hdata. }
  rewrite Halt. split_and!; [|intros c _; apply Hbk2|split; [split; [done|apply quiet_refl]|done]]. split; try done.
  - exists pin, pl. split; [done|]. eapply pinned_blk; [exact Hp|]. intros c _. apply Hbk2.
  - unfold vupd. rewrite decide_False; [done|]. intros ->. apply Hnin. unfold LogSpec.in_log. lia.
  - intros n Hn Hni Hne. unfold vupd. rewrite decide_False by congruence. apply Hold; [done|done|]. destruct Hx as [->| ->]; congruence.
Qed.

Lemma tx_log_write s held x bl V F b bn :
  1 <= out -> tx s held x bl V F -> holds s held b bn -> x = None \/ x = Some bn -> int bn -> ~ in_log bn ->
  Z.of_nat (length bl) < LOGSIZE -> Z.of_nat (length bl) < nl - 1 ->
  wp (log_write b) (fun _ s' => tx s' held None (log_add bn bl) V F /\ same_blocks s s' held /\ kept s s') s.
Proof.
  intros Hout [(pin & pl & Hbc & Hp) Hm Ho Hc Hf Hhd Hdk Hold] Hh Hx Hint Hnin Hls Hn1. assert (Ho' : 1 <= loutstanding (k_log s)) by lia.
  eapply wp_mono; [exact (log_write_spec me d st nl Hd Hst Hnl Hnb s V held pin pl bl b bn Hbc Hp Hh Hm Hf Ho' Hint Hnin Hls Hn1)|].
  intros [] s3 (pin3 & pl3 & Hbc3 & Hp3 & Hpos3 & Hm3 & Ho3 & Hc3 & Hs3 & Hdk3 & Hbk3).
  split_and!; [|intros c _; apply Hbk3|done]. split; rewrite ?Hdk3, ?Ho3, ?Hc3; try done.
  - by exists pin3, pl3.
  - by eapply lsame_free.
  - intros n Hn Hni _. assert (n <> bn /\ (n ∉ bl)) as [Hne Hni'] by (unfold log_add in Hni; case_decide; set_solver). apply Hold; [done|done|]. destruct Hx as [->| ->]; congruence.
Qed.

(** A buffer may be released when its block is logged, or has not been changed. *)
Lemma tx_brelse s held bl V F b bn :
  tx s held None bl V F -> holds s held b bn -> ~ in_log bn ->
  wp (brelse b) (fun _ s' => tx s' (held ∖ {[b]}) None bl V F /\ same_blocks s s' held /\ kept s s') s.
Proof.
  intros [(pin & pl & Hbc & Hp) Hm Ho Hc Hf Hhd Hdk Hold] Hh Hnin.
  eapply wp_mono; [apply (brelse_spec s me d V held pin b bn Hbc Hh)|].
  - destruct (decide (bn ∈ bl)) as [Hin|Hni]; [left|right; rewrite Hdk by done; by apply Hold].
    apply (pinned_pos _ _ _ _ b Hp). apply list_elem_of_lookup in Hin as [i Hi]. eapply list_elem_of_lookup_2.
    exact (pinned_buf me d s V held pin pl bl i bn b Hbc Hp Hi Hh).
  - intros [] s4 (Hbc4 & Hr4 & Hdk4 & Hbk4). pose proof (same_rest_log _ _ Hr4) as Hl4.
    split_and!; [|intros c _; apply Hbk4|split; [by apply same_rest_lsame|done]].
    split; rewrite ?Hl4, ?Hdk4; try done; [|by eapply same_rest_free].
    exists pin, pl. split; [done|]. eapply pinned_blk; [exact Hp|]. intros c _. apply Hbk4.
Qed.
End tx.
