(* ===== verification/FsBlock.v ===== *)
(** The block allocator of [fs.c]: [bzero], [balloc] and [bfree] inside a transaction. *)
From S2P Require Import Prelude Machine Riscv State Spinlock KString Kalloc Vm Sched Uart Printf Block Bio BufCache Log LogSpec LogOps Fs FsTx.
From Stdlib Require Import ZArith Lia.
From stdpp Require Import base strings numbers gmap list.
Local Open Scope Z_scope.
Local Open Scope m_scope.

(** ** Bit maps *)

Lemma testbit_bit bi k : 0 <= k < 8 -> Z.testbit (bit bi) k = (k =? bi mod 8).
Proof.
  intros Hk. unfold bit. rewrite Z.shiftl_1_l, Z.pow2_bits_eqb by (pose proof (Z.mod_pos_bound bi 8); lia). apply Z.eqb_sym.
Qed.

(** The test of the code: the bit is clear. *)
Lemma bit_clear v bi : (Z.land v (bit bi) =? 0) = negb (Z.testbit v (bi mod 8)).
Proof.
  unfold bit. rewrite Z.shiftl_1_l. pose proof (Z.mod_pos_bound bi 8 ltac:(lia)) as Hb. destruct (Z.testbit v (bi mod 8)) eqn:Ht; simpl.
  - apply Z.eqb_neq. intros Hz. apply (f_equal (fun x => Z.testbit x (bi mod 8))) in Hz.
    rewrite Z.land_spec, Z.pow2_bits_true, Ht, Z.bits_0 in Hz by lia. done.
  - apply Z.eqb_eq. apply Z.bits_inj'. intros n Hn. rewrite Z.land_spec, Z.pow2_bits_eqb, Z.bits_0 by lia.
    destruct (Z.eqb_spec (bi mod 8) n) as [<-|]; [by rewrite Ht|apply andb_false_r].
Qed.

(** Bit [bi] of a bit map. *)
Definition bm_bit (bi : Z) (x : list Z) : bool := Z.testbit (bm_byte bi x) (bi mod 8).

Lemma bm_bit_set bi v x bj :
  0 <= bi -> 0 <= bj -> (Z.to_nat (bi / 8) < length x)%nat ->
  bm_bit bj (set_bm_byte bi v x) = if bj / 8 =? bi / 8 then Z.testbit v (bj mod 8) else bm_bit bj x.
Proof.
  intros Hi Hj Hlen. unfold bm_bit, bm_byte, set_bm_byte. destruct (Z.eqb_spec (bj / 8) (bi / 8)) as [->|Hne].
  - by rewrite list_lookup_total_insert_eq.
  - rewrite list_lookup_total_insert_ne; [done|]. intros Heq. apply Hne. pose proof (Z.div_pos bi 8). pose proof (Z.div_pos bj 8). lia.
Qed.

Lemma bits_eq (bi bj : Z) : bi / 8 = bj / 8 -> bi mod 8 = bj mod 8 -> bi = bj.
Proof. intros H1 H2. rewrite (Z.div_mod bi 8), (Z.div_mod bj 8), H1, H2 by lia. done. Qed.

(** Setting and clearing a bit changes that bit alone. *)
Lemma bm_bit_or bi x bj :
  0 <= bi -> 0 <= bj -> (Z.to_nat (bi / 8) < length x)%nat ->
  bm_bit bj (set_bm_byte bi (Z.lor (bm_byte bi x) (bit bi)) x) = (bj =? bi) || bm_bit bj x.
Proof.
  intros Hi Hj Hlen. rewrite bm_bit_set by done. pose proof (Z.mod_pos_bound bj 8 ltac:(lia)) as Hm.
  destruct (Z.eqb_spec (bj / 8) (bi / 8)) as [He|Hne].
  - rewrite Z.lor_spec, testbit_bit by done. unfold bm_bit, bm_byte. rewrite He.
    destruct (Z.eqb_spec (bj mod 8) (bi mod 8)) as [Hmod|Hmod].
    + rewrite (bits_eq bj bi He Hmod), Z.eqb_refl, orb_true_r. done.
    + rewrite (proj2 (Z.eqb_neq bj bi)), orb_false_r by (intros ->; done). done.
  - by rewrite (proj2 (Z.eqb_neq bj bi)) by (intros ->; done).
Qed.

Lemma bm_bit_and bi x bj :
  0 <= bi -> 0 <= bj -> (Z.to_nat (bi / 8) < length x)%nat ->
  bm_bit bj (set_bm_byte bi (Z.land (bm_byte bi x) (u8 (Z.lnot (bit bi)))) x) = negb (bj =? bi) && bm_bit bj x.
Proof.
  intros Hi Hj Hlen. rewrite bm_bit_set by done. pose proof (Z.mod_pos_bound bj 8 ltac:(lia)) as Hm.
  destruct (Z.eqb_spec (bj / 8) (bi / 8)) as [He|Hne].
  - rewrite Z.land_spec. unfold wrap. rewrite Z.mod_pow2_bits_low, Z.lnot_spec, testbit_bit by lia. unfold bm_bit, bm_byte. rewrite He.
    destruct (Z.eqb_spec (bj mod 8) (bi mod 8)) as [Hmod|Hmod].
    + rewrite (bits_eq bj bi He Hmod), Z.eqb_refl. simpl. apply andb_false_r.
    + rewrite (proj2 (Z.eqb_neq bj bi)) by (intros ->; done). simpl. apply andb_true_r.
  - rewrite (proj2 (Z.eqb_neq bj bi)) by (intros ->; done). done.
Qed.

(** ** Where things are on the disk *)

(** What the super block says, as far as the code relies on it: every block number is an [int] and the bit map lies
    outside the log. *)
Record layout (st nl : Z) (sb : superblock) : Prop := {
  ly_size : 0 < sb_size sb < 2 ^ 31;
  ly_bmap : 0 < sb_bmapstart sb;
  ly_fits : forall b, 0 <= b < sb_size sb -> sb_bmapstart sb + b / BPB < sb_size sb;
  ly_log : forall b, 0 <= b < sb_size sb -> ~ in_log st nl (BBLOCK b sb)
}.

(** ** Locked buffers *)

Lemma drop_held (b : nat) (held : gset nat) : b ∉ held -> ({[b]} ∪ held) ∖ {[b]} = held.
Proof. set_solver. Qed.

Lemma same_blocks_trans s1 s2 s3 held : same_blocks s1 s2 held -> same_blocks s2 s3 held -> same_blocks s1 s3 held.
Proof. intros H1 H2 c Hc. rewrite H2, H1 by done. done. Qed.
Lemma same_blocks_sub s1 s2 (held held' : gset nat) : same_blocks s1 s2 held' -> held ⊆ held' -> same_blocks s1 s2 held.
Proof. intros H1 Hs c Hc. apply H1. set_solver. Qed.

Lemma blocks_of_same s s' held bn : same_blocks s s' held -> blocks_of s' held bn -> blocks_of s held bn.
Proof. intros Hs (b & Hb & Hk). exists b. split; [done|]. by rewrite <- Hs. Qed.

Section blocks.
Context `{Patience}.
Variables (me : nat) (d st nl out : Z).
Hypothesis Hd : 0 <= d < 2 ^ 32.
Hypothesis Hst : 0 <= st.
Hypothesis Hnl : 0 < nl /\ st + nl < 2 ^ 31.
Hypothesis Hnb : nl <= Z.of_nat NBUF.
Hypothesis Hout : 1 <= out.
Variable sb : superblock.
Hypothesis Hly : layout st nl sb.

Local Abbreviation in_log := (in_log st nl).
Local Abbreviation tx := (tx me d st nl out).

Lemma BBLOCK_eq b : 0 <= b < sb_size sb -> BBLOCK b sb = sb_bmapstart sb + b / BPB.
Proof.
  intros Hb. pose proof (ly_fits _ _ _ Hly b Hb). pose proof (ly_size _ _ _ Hly). pose proof (ly_bmap _ _ _ Hly).
  assert (0 <= b / BPB) by (apply Z.div_pos; unfold BPB, BSZ, BSIZE; lia). unfold BBLOCK. rewrite wrap_small; lia.
Qed.

Lemma BBLOCK_int b : 0 <= b < sb_size sb -> int (BBLOCK b sb).
Proof.
  intros Hb. rewrite BBLOCK_eq by done. pose proof (ly_fits _ _ _ Hly b Hb). pose proof (ly_size _ _ _ Hly). pose proof (ly_bmap _ _ _ Hly).
  assert (0 <= b / BPB) by (apply Z.div_pos; unfold BPB, BSZ, BSIZE; lia). unfold int. lia.
Qed.

(** Block [b] is marked as used. *)
Definition used (V : Z -> list Z) (b : Z) : bool := bm_bit (b mod BPB) (V (BBLOCK b sb)).

(** The bit map holds whole blocks. *)
Definition maps_ok (V : Z -> list Z) : Prop := forall b, 0 <= b < sb_size sb -> length (V (BBLOCK b sb)) = BSIZE.

Lemma BPB_val : BPB = 8192.
Proof. reflexivity. Qed.

Lemma bit_in_block b (x : list Z) : length x = BSIZE -> (Z.to_nat (b mod BPB / 8) < length x)%nat.
Proof.
  intros ->. pose proof (Z.mod_pos_bound b BPB ltac:(rewrite BPB_val; lia)) as Hm. rewrite BPB_val in *.
  assert (b mod 8192 / 8 < 1024) by (apply Z.div_lt_upper_bound; lia). assert (0 <= b mod 8192 / 8) by (apply Z.div_pos; lia).
  unfold BSIZE. lia.
Qed.

(** The contents with block [b] marked as used or as free. *)
Definition mark (b : Z) (V : Z -> list Z) : Z -> list Z :=
  vupd V (BBLOCK b sb) (set_bm_byte (b mod BPB) (Z.lor (bm_byte (b mod BPB) (V (BBLOCK b sb))) (bit (b mod BPB))) (V (BBLOCK b sb))).
Definition unmark (b : Z) (V : Z -> list Z) : Z -> list Z :=
  vupd V (BBLOCK b sb) (set_bm_byte (b mod BPB) (Z.land (bm_byte (b mod BPB) (V (BBLOCK b sb))) (u8 (Z.lnot (bit (b mod BPB))))) (V (BBLOCK b sb))).

Lemma same_map b c : 0 <= b < sb_size sb -> 0 <= c < sb_size sb -> BBLOCK b sb = BBLOCK c sb -> (c mod BPB =? b mod BPB) = (c =? b).
Proof.
  intros Hb Hc He. rewrite !BBLOCK_eq in He by done. pose proof (Z.div_mod b BPB ltac:(rewrite BPB_val; lia)) as Eb.
  pose proof (Z.div_mod c BPB ltac:(rewrite BPB_val; lia)) as Ec. assert (Hdiv : b / BPB = c / BPB) by lia.
  destruct (Z.eqb_spec c b) as [->|Hne]; [apply Z.eqb_refl|]. apply Z.eqb_neq. intros Hm. apply Hne. rewrite Ec, Eb, Hm, Hdiv. done.
Qed.

Lemma used_mark V b c : maps_ok V -> 0 <= b < sb_size sb -> 0 <= c < sb_size sb -> used (mark b V) c = (c =? b) || used V c.
Proof.
  intros Hm Hb Hc. unfold used, mark, vupd. case_decide as He.
  - rewrite <- He, bm_bit_or; [|apply Z.mod_pos_bound; rewrite BPB_val; lia..|by apply bit_in_block, Hm]. by rewrite same_map.
  - rewrite (proj2 (Z.eqb_neq c b)); [done|]. intros ->. done.
Qed.

Lemma used_unmark V b c : maps_ok V -> 0 <= b < sb_size sb -> 0 <= c < sb_size sb -> used (unmark b V) c = negb (c =? b) && used V c.
Proof.
  intros Hm Hb Hc. unfold used, unmark, vupd. case_decide as He.
  - rewrite <- He, bm_bit_and; [|apply Z.mod_pos_bound; rewrite BPB_val; lia..|by apply bit_in_block, Hm]. by rewrite same_map.
  - rewrite (proj2 (Z.eqb_neq c b)); [done|]. intros ->. done.
Qed.

Lemma length_set_bm bi v x : length (set_bm_byte bi v x) = length x.
Proof. apply length_insert. Qed.

Lemma maps_ok_mark V b : maps_ok V -> 0 <= b < sb_size sb -> maps_ok (mark b V).
Proof. intros Hm Hb c Hc. unfold mark, vupd. case_decide; [|by apply Hm]. rewrite length_set_bm. by apply Hm. Qed.

Lemma maps_ok_unmark V b : maps_ok V -> 0 <= b < sb_size sb -> maps_ok (unmark b V).
Proof. intros Hm Hb c Hc. unfold unmark, vupd. case_decide; [|by apply Hm]. rewrite length_set_bm. by apply Hm. Qed.

(** [b] is a block of the bit map. *)
Definition is_map (b : Z) : Prop := exists c, 0 <= c < sb_size sb /\ b = BBLOCK c sb.

Lemma used_vupd V b x c : ~ is_map b -> 0 <= c < sb_size sb -> used (vupd V b x) c = used V c.
Proof. intros Hb Hc. unfold used, vupd. rewrite decide_False; [done|]. intros ->. apply Hb. by exists c. Qed.

Lemma maps_ok_vupd V b x : ~ is_map b -> maps_ok V -> maps_ok (vupd V b x).
Proof. intros Hb Hm c Hc. unfold vupd. rewrite decide_False; [by apply Hm|]. intros ->. apply Hb. by exists c. Qed.

(** ** The operations *)

(** There is room in the log for [k] more blocks, and in the cache for them and one more than [held]. *)
Definition room (bl : list Z) (held : gset nat) (k : Z) : Prop :=
  Z.of_nat (length bl) + k <= LOGSIZE /\ Z.of_nat (length bl) + k < nl /\ Z.of_nat (length bl) + k + Z.of_nat (size held) <= Z.of_nat NBUF.

Lemma room_le bl held k k' : room bl held k -> k' <= k -> room bl held k'.
Proof. unfold room. lia. Qed.

Lemma room_add bn bl held k : room bl held k -> room (log_add bn bl) held (k - 1).
Proof.
  unfold room. intros (H1 & H2 & H3). assert (Hl : (length (log_add bn bl) <= length bl + 1)%nat) by (unfold log_add; case_decide; rewrite ?length_app; simpl; lia). lia.
Qed.

Lemma room_fits bl held : room bl held 1 -> (length bl + size held < NBUF)%nat.
Proof. unfold room. lia. Qed.

Lemma room_log bl held : room bl held 1 -> Z.of_nat (length bl) < LOGSIZE /\ Z.of_nat (length bl) < nl - 1.
Proof. unfold room. lia. Qed.

(** The end of an update: the changed buffer is logged and released. *)
Lemma tx_finish s0 s held x bl V F b bn :
  tx s ({[b]} ∪ held) x bl V F -> holds s ({[b]} ∪ held) b bn -> x = None \/ x = Some bn -> int bn -> ~ in_log bn -> room bl held 1 ->
  (b ∉ held) -> same_blocks s0 s held -> kept s0 s ->
  wp (log_write b ;; brelse b) (fun _ s' => tx s' held None (log_add bn bl) V F /\ same_blocks s0 s' held /\ kept s0 s') s.
Proof.
  intros Ht Hh Hx Hint Hnin Hr Hb Hs0 Hk0. destruct (room_log _ _ Hr) as [Hl1 Hl2].
  eapply wp_seq; [by apply (tx_log_write me d st nl out Hd Hst Hnl Hnb _ _ _ _ _ _ _ _ Hout Ht Hh Hx)|]. intros [] s1 (Ht1 & Hs1 & Hk1).
  assert (Hh1 : holds s1 ({[b]} ∪ held) b bn) by (eapply holds_same; [exact Hh|done|apply Hh]).
  eapply wp_mono; [by apply (tx_brelse me d st nl out _ _ _ _ _ _ _ Ht1 Hh1)|]. intros [] s2 (Ht2 & Hs2 & Hk2). rewrite (drop_held b held Hb) in Ht2.
  split_and!; [done| |by eapply kept_trans; [|eapply kept_trans]].
  eapply same_blocks_trans; [done|]. eapply same_blocks_sub; [by eapply same_blocks_trans|set_solver].
Qed.

(** Read a block, change it, log it, release it. *)
Lemma tx_modify s held bl V F bn f :
  tx s held None bl V F -> ~ blocks_of s held bn -> int bn -> ~ in_log bn -> room bl held 1 ->
  wp (bp <- bread d bn ;; upd_data bp f ;; log_write bp ;; brelse bp) (fun _ s' =>
    tx s' held None (log_add bn bl) (vupd V bn (f (V bn))) F /\ same_blocks s s' held /\ kept s s') s.
Proof.
  intros Ht Hnh Hint Hnin Hr. eapply wp_seq; [by apply (tx_bread me d st nl out _ _ _ _ _ _ _ Ht Hnh), room_fits|].
  intros b s1 (Hb & Ht1 & Hh1 & Hs1 & Hk1). eapply wp_seq; [by apply (tx_upd_data me d st nl out Hnl _ _ _ _ _ _ _ _ f Ht1 Hh1); [left|]|].
  intros [] s2 (Ht2 & Hs2 & Hk2). eapply tx_finish; [exact Ht2|eapply holds_same; [exact Hh1|done|apply Hh1]|by right|done..| |by eapply kept_trans].
  eapply same_blocks_trans; [done|]. eapply same_blocks_sub; [done|set_solver].
Qed.

Lemma u32_int bn : int bn -> u32 bn = bn.
Proof. unfold int. intros Hb. apply wrap_small. lia. Qed.

Lemma bzero_spec s held bl V F bn :
  tx s held None bl V F -> ~ blocks_of s held bn -> int bn -> ~ in_log bn -> room bl held 1 ->
  wp (bzero d bn) (fun _ s' => tx s' held None (log_add bn bl) (vupd V bn (replicate BSIZE 0)) F /\ same_blocks s s' held /\ kept s s') s.
Proof.
  intros Ht Hnh Hint Hnin Hr. unfold bzero. rewrite (wrap_small 32 d), u32_int by done.
  by apply (tx_modify s held bl V F bn (fun _ => replicate BSIZE 0)).
Qed.

(** Block [a] is the first free one. *)
Definition first_free (V : Z -> list Z) (a : Z) : Prop :=
  0 <= a < sb_size sb /\ used V a = false /\ forall c, 0 <= c < a -> used V c = true.

(** What the process has locked is neither part of the bit map nor free. *)
Definition apart (s : kstate) (held : gset nat) (V : Z -> list Z) : Prop :=
  forall bn, blocks_of s held bn -> ~ is_map bn /\ (0 <= bn < sb_size sb -> used V bn = true).

(** The contents after block [a] has been allocated. *)
Definition allocated (a : Z) (V : Z -> list Z) : Z -> list Z := vupd (mark a V) a (replicate BSIZE 0).

(** The free blocks are neither in the log nor part of the bit map. *)
Definition free_ok (V : Z -> list Z) : Prop := forall c, 0 <= c < sb_size sb -> used V c = false -> ~ in_log c /\ ~ is_map c.

(** The bit map block of a group of blocks. *)
Lemma group_block k bi : 0 <= k -> 0 <= bi < BPB -> k * BPB + bi < sb_size sb -> BBLOCK (k * BPB) sb = BBLOCK (k * BPB + bi) sb /\ (k * BPB + bi) mod BPB = bi.
Proof.
  intros Hk Hbi Hlt. rewrite BPB_val in *. rewrite !BBLOCK_eq by lia. rewrite BPB_val, Z.div_mul, Z.div_add_l, (Z.div_small bi) by lia. split; [lia|].
  rewrite Z.add_comm, Z.mod_add, Z.mod_small by lia. done.
Qed.

(** Log and release a changed buffer, and go on. *)
Lemma wp_finish {A} s0 s held x bl V F b bn (k : K A) Q :
  tx s ({[b]} ∪ held) x bl V F -> holds s ({[b]} ∪ held) b bn -> x = None \/ x = Some bn -> int bn -> ~ in_log bn -> room bl held 1 ->
  (b ∉ held) -> same_blocks s0 s held -> kept s0 s ->
  (forall s', tx s' held None (log_add bn bl) V F -> same_blocks s0 s' held -> kept s0 s' -> wp k Q s') ->
  wp (log_write b ;; brelse b ;; k) Q s.
Proof.
  intros Ht Hh Hx Hint Hnin Hr Hb Hs0 Hk0 HQ. pose proof (tx_finish s0 s held x bl V F b bn Ht Hh Hx Hint Hnin Hr Hb Hs0 Hk0) as Hw.
  apply wp_bind_inv in Hw. apply wp_bind. eapply wp_mono; [exact Hw|]. intros [] s1 Hw1. apply wp_bind. eapply wp_mono; [exact Hw1|].
  intros [] s2 (Ht2 & Hs2 & Hk2). by apply HQ.
Qed.

Lemma apart_same s s' held V : apart s held V -> same_blocks s s' held -> apart s' held V.
Proof. intros Ha Hs bn Hb. apply Ha. by eapply blocks_of_same. Qed.

(** The inner loop of [balloc] at a free block. *)
Lemma balloc_take s0 s held bl V F b a :
  tx s ({[b]} ∪ held) None bl V F -> holds s ({[b]} ∪ held) b (BBLOCK a sb) -> 0 <= a < sb_size sb -> used V a = false ->
  free_ok V -> apart s0 held V -> room bl held 2 -> (b ∉ held) -> same_blocks s0 s held -> kept s0 s ->
  wp (upd_data b (fun x => set_bm_byte (a mod BPB) (Z.lor (bm_byte (a mod BPB) x) (bit (a mod BPB))) x) ;;
      log_write b ;; brelse b ;; bzero d a ;; ret (Some a)) (fun r s' => r = Some a /\
    tx s' held None (log_add a (log_add (BBLOCK a sb) bl)) (allocated a V) F /\ same_blocks s0 s' held /\ kept s0 s') s.
Proof.
  intros Ht Hh Ha Hu Hfree Hap Hr Hb Hs0 Hk0. destruct (Hfree a Ha Hu) as [Hal Ham].
  assert (Hint : int a) by (pose proof (ly_size _ _ _ Hly); unfold int; lia).
  eapply wp_seq; [apply (tx_upd_data me d st nl out Hnl _ _ _ _ _ _ _ _ _ Ht Hh); [by left|by apply (ly_log _ _ _ Hly)]|].
  intros [] s1 (Ht1 & Hs1 & Hk1). fold (mark a V) in Ht1.
  assert (Hs01 : same_blocks s0 s1 held) by (eapply same_blocks_trans; [done|]; eapply same_blocks_sub; [done|set_solver]).
  eapply (wp_finish s0); [exact Ht1|eapply holds_same; [exact Hh|done|apply Hh]|by right|by apply BBLOCK_int|by apply (ly_log _ _ _ Hly)|
    by eapply room_le; [exact Hr|]|done|done|by eapply kept_trans|].
  intros s2 Ht2 Hs2 Hk2. eapply wp_seq.
  - apply (bzero_spec s2 held _ _ _ a Ht2); [|done|done|eapply room_le; [by apply room_add|lia]].
    intros Hbl. apply (blocks_of_same s0) in Hbl; [|done]. destruct (Hap a Hbl) as [_ Hua]. rewrite Hu in Hua. by specialize (Hua Ha).
  - intros [] s3 (Ht3 & Hs3 & Hk3). apply wp_ret. split_and!; [done|done|by eapply same_blocks_trans|by eapply kept_trans].
Qed.

(** One block of the bit map. *)
Definition balloc_group (b : Z) : K (option Z) :=
  bp <- bread d (BBLOCK b sb) ;;
  r <- for_ret (zrange 0 (Z.to_nat (Z.min BPB (sb_size sb - b)))) (fun bi =>
    let m := bit bi in
    bb <- get_buf bp ;;
    if Z.land (bm_byte bi (bdata bb)) m =? 0 then
      upd_data bp (fun x => set_bm_byte bi (Z.lor (bm_byte bi x) m) x) ;;
      log_write bp ;;
      brelse bp ;;
      bzero d (b + bi) ;;
      ret (Some (b + bi))
    else ret None) ;;
  match r with
  | Some v => ret (Some v)
  | None => brelse bp ;; ret None
  end.

Definition balloc_post (s : kstate) (held : gset nat) (bl : list Z) (V F : Z -> list Z) (a : Z) (s' : kstate) : Prop :=
  tx s' held None (log_add a (log_add (BBLOCK a sb) bl)) (allocated a V) F /\ same_blocks s s' held /\ kept s s'.

Lemma balloc_group_spec s0 s held bl V F k :
  tx s held None bl V F -> same_blocks s0 s held -> kept s0 s -> 0 <= k -> k * BPB < sb_size sb ->
  (forall c, 0 <= c < k * BPB -> used V c = true) -> free_ok V -> apart s0 held V -> room bl held 2 ->
  wp (balloc_group (k * BPB)) (fun r s' => match r with
    | Some a => first_free V a /\ balloc_post s0 held bl V F a s'
    | None => tx s' held None bl V F /\ same_blocks s0 s' held /\ kept s0 s' /\ (forall c, 0 <= c < (k + 1) * BPB -> c < sb_size sb -> used V c = true)
    end) s.
Proof.
  intros Ht Hs0 Hk0 Hk Hlt Hall Hfree Hap Hr. unfold balloc_group. set (bn := BBLOCK (k * BPB) sb).
  assert (Hkb : 0 <= k * BPB) by (rewrite BPB_val; lia). assert (HB : 0 < BPB) by (rewrite BPB_val; lia).
  assert (Hmap : is_map bn) by (exists (k * BPB); split; [lia|done]).
  eapply wp_seq; [apply (tx_bread me d st nl out _ _ _ _ _ _ bn Ht); [|apply room_fits; by eapply room_le; [exact Hr|]]|].
  { intros Hbl. apply (blocks_of_same s0) in Hbl; [|done]. by destruct (Hap bn Hbl). }
  intros b s1 (Hb & Ht1 & Hh1 & Hs1 & Hk1).
  assert (Hs01 : same_blocks s0 s1 held) by (by eapply same_blocks_trans). assert (Hk01 : kept s0 s1) by (by eapply kept_trans).
  set (n := Z.to_nat (Z.min BPB (sb_size sb - k * BPB))).
  assert (Hbit : forall bi, 0 <= bi < Z.of_nat n -> 0 <= k * BPB + bi < sb_size sb /\ bn = BBLOCK (k * BPB + bi) sb /\ (k * BPB + bi) mod BPB = bi).
  { intros bi Hbi. unfold n in Hbi. assert (0 <= bi < BPB /\ k * BPB + bi < sb_size sb) as [Hb1 Hb2] by lia.
    destruct (group_block k bi Hk Hb1 Hb2) as [He Hm]. split_and!; [lia|lia|done|done]. }
  apply wp_bind.
  apply (wp_for_ret (fun pre s' => s' = s1 /\ forall bi, 0 <= bi < Z.of_nat (length pre) -> used V (k * BPB + bi) = true)
    (fun r s' => wp (match r with Some v => ret (Some v) | None => brelse b ;; ret None end) (fun r s' => match r with
    | Some a => first_free V a /\ balloc_post s0 held bl V F a s'
    | None => tx s' held None bl V F /\ same_blocks s0 s' held /\ kept s0 s' /\ (forall c, 0 <= c < (k + 1) * BPB -> c < sb_size sb -> used V c = true)
    end) s')).
  - split; [done|]. simpl. lia.
  - intros pre bi post s' Hsplit [-> Hpre]. destruct (zrange_split 0 n pre bi post Hsplit) as [-> Hlen]. rewrite Z.add_0_l in *.
    destruct (Hbit (Z.of_nat (length pre)) ltac:(lia)) as (Hrange & Hbn & Hmod). set (a := k * BPB + Z.of_nat (length pre)) in *.
    cbv zeta. apply wp_bind, wp_gets. rewrite (tx_data me d st nl out _ _ _ _ _ _ _ _ Ht1 Hh1), bit_clear.
    assert (Hua : Z.testbit (bm_byte (Z.of_nat (length pre)) (V bn)) (Z.of_nat (length pre) mod 8) = used V a).
    { unfold used, bm_bit. by rewrite <- Hbn, Hmod. }
    rewrite Hua. destruct (used V a) eqn:Hu; simpl negb; cbv iota.
    + apply wp_ret. split; [done|]. intros bi Hbi. rewrite length_app in Hbi. simpl in Hbi.
      destruct (decide (bi = Z.of_nat (length pre))) as [->|]; [done|]. apply Hpre. lia.
    + rewrite <- Hmod. eapply wp_mono; [apply (balloc_take s0 s1 held bl V F b a); try done; by rewrite <- Hbn|].
      intros r s2 (-> & Ht2 & Hs2 & Hk2). apply wp_ret. split; [|done]. split_and!; [lia|lia|done|]. intros c Hc.
      destruct (decide (c < k * BPB)) as [|Hge]; [apply Hall; lia|]. replace c with (k * BPB + (c - k * BPB)) by lia. apply Hpre. lia.
  - intros s' [-> Hpre]. rewrite zrange_length in Hpre.
    eapply wp_seq; [apply (tx_brelse me d st nl out _ _ _ _ _ _ _ Ht1 Hh1), (ly_log _ _ _ Hly); lia|]. intros [] s2 (Ht2 & Hs2 & Hk2).
    rewrite (drop_held b held Hb) in Ht2. apply wp_ret. split_and!; [done| |by eapply kept_trans|].
    + eapply same_blocks_trans; [done|]. eapply same_blocks_sub; [done|set_solver].
    + intros c Hc Hcs. destruct (decide (c < k * BPB)) as [|Hge]; [apply Hall; lia|]. replace c with (k * BPB + (c - k * BPB)) by lia. apply Hpre.
      unfold n. rewrite Z2Nat.id; lia.
Qed.

Lemma group_split n pre x post :
  ((fun k => k * BPB) <$> zrange 0 n) = pre ++ x :: post -> x = Z.of_nat (length pre) * BPB /\ (length pre < n)%nat.
Proof.
  intros Heq. assert (Hl : ((fun k => k * BPB) <$> zrange 0 n) !! length pre = Some x) by (rewrite Heq; by rewrite list_lookup_middle).
  rewrite list_lookup_fmap in Hl. apply fmap_Some in Hl as (k & Hk & ->). pose proof (lookup_lt_Some _ _ _ Hk) as Hlt. rewrite zrange_length in Hlt.
  rewrite zrange_lookup in Hk by done. simplify_eq. by rewrite Z.add_0_l.
Qed.

(** [balloc] gives the first free block, marked as used and cleared. *)
Lemma balloc_spec s held bl V F :
  k_sb s = sb -> tx s held None bl V F -> (exists c, 0 <= c < sb_size sb /\ used V c = false) -> free_ok V -> apart s held V -> room bl held 2 ->
  wp (balloc d) (fun a s' => first_free V a /\ balloc_post s held bl V F a s') s.
Proof.
  intros Hsb Ht (c & Hc & Huc) Hfree Hap Hr. unfold balloc, get_sb. apply wp_bind, wp_gets. rewrite Hsb. apply wp_bind.
  set (n := Z.to_nat ((sb_size sb + BPB - 1) / BPB)).
  assert (Hn : sb_size sb <= Z.of_nat n * BPB).
  { unfold n. assert (HB : 0 < BPB) by (rewrite BPB_val; lia). pose proof (Z.div_mod (sb_size sb + BPB - 1) BPB ltac:(lia)) as Hdm.
    pose proof (Z.mod_pos_bound (sb_size sb + BPB - 1) BPB HB). rewrite Z2Nat.id by (apply Z.div_pos; lia). lia. }
  apply (wp_for_ret (fun pre s' => tx s' held None bl V F /\ same_blocks s s' held /\ kept s s' /\
      (forall c, 0 <= c < Z.of_nat (length pre) * BPB -> c < sb_size sb -> used V c = true))
    (fun r s' => wp (match r with Some v => ret v | None => printf (s2b "balloc: out of blocks" ++ newline) [] ;; ret 0 end)
      (fun a s' => first_free V a /\ balloc_post s held bl V F a s') s')).
  - split_and!; [done|by intros ? ?|apply kept_refl|simpl; lia].
  - intros pre x post s' Hsplit (Ht' & Hs' & Hk' & Hall). destruct (group_split n pre x post Hsplit) as [-> Hlt].
    change (wp (balloc_group (Z.of_nat (length pre) * BPB)) (fun r s'' => match r with
      | Some b => wp (ret b : K Z) (fun a s' => first_free V a /\ balloc_post s held bl V F a s') s''
      | None => tx s'' held None bl V F /\ same_blocks s s'' held /\ kept s s'' /\
          (forall c, 0 <= c < Z.of_nat (length (pre ++ [Z.of_nat (length pre) * BPB])) * BPB -> c < sb_size sb -> used V c = true) end) s').
    assert (Hin : Z.of_nat (length pre) * BPB < sb_size sb).
    { unfold n in Hlt. assert (HB : 0 < BPB) by (rewrite BPB_val; lia). pose proof (Z.mul_div_le (sb_size sb + BPB - 1) BPB HB) as Hm.
      assert (Z.of_nat (length pre) + 1 <= (sb_size sb + BPB - 1) / BPB) by lia. nia. }
    eapply wp_mono; [apply (balloc_group_spec s s' held bl V F (Z.of_nat (length pre))); try done; [lia|]|].
    + intros c' Hc'. apply Hall; lia.
    + intros [a|] s2.
      * intros HP. by apply wp_ret.
      * intros (Ht2 & Hs2 & Hk2 & Hall2). split_and!; [done..|]. intros c' Hc'. apply Hall2. rewrite length_app in Hc'. simpl in Hc'.
        replace (Z.of_nat (length pre) + 1) with (Z.of_nat (length pre + 1)) by lia. done.
  - intros s' (_ & _ & _ & Hall). rewrite length_fmap, zrange_length in Hall. rewrite Hall in Huc by lia. done.
Qed.

(** [bfree] marks a used block as free. *)
Lemma bfree_spec s held bl V F b :
  k_sb s = sb -> tx s held None bl V F -> 0 <= b < sb_size sb -> used V b = true -> apart s held V -> room bl held 1 ->
  wp (bfree d b) (fun _ s' => tx s' held None (log_add (BBLOCK b sb) bl) (unmark b V) F /\ same_blocks s s' held /\ kept s s') s.
Proof.
  intros Hsb Ht Hb Hu Hap Hr. unfold bfree, get_sb. apply wp_bind, wp_gets. rewrite Hsb, (wrap_small 32 d) by done.
  eapply wp_seq; [apply (tx_bread me d st nl out _ _ _ _ _ _ (BBLOCK b sb) Ht); [|by apply room_fits]|].
  { intros Hbl. destruct (Hap _ Hbl) as [Hm _]. apply Hm. by exists b. }
  intros bp s1 (Hbp & Ht1 & Hh1 & Hs1 & Hk1). cbv zeta. apply wp_bind, wp_gets. rewrite (tx_data me d st nl out _ _ _ _ _ _ _ _ Ht1 Hh1), bit_clear.
  unfold used, bm_bit in Hu. rewrite Hu. cbn [negb].
  eapply wp_seq; [apply (tx_upd_data me d st nl out Hnl _ _ _ _ _ _ _ _ _ Ht1 Hh1); [by left|by apply (ly_log _ _ _ Hly)]|].
  intros [] s2 (Ht2 & Hs2 & Hk2). fold (unmark b V) in Ht2.
  eapply tx_finish; [exact Ht2|eapply holds_same; [exact Hh1|done|apply Hh1]|by right|by apply BBLOCK_int|by apply (ly_log _ _ _ Hly)|done|done| |by eapply kept_trans].
  eapply same_blocks_trans; [done|]. eapply same_blocks_sub; [done|set_solver].
Qed.
End blocks.

