(* ===== verification/FsInode.v ===== *)
(** The contents of files: [bmap], [readi] and [writei].

    The bytes of a file are seen through its in-memory inode and the blocks [V]: [baddr] is the block
    that holds block [n] of the file, or 0, and [fbyte] a byte of the file, which is 0
    where no block has been allocated. *)
From S2P Require Import Prelude Machine Riscv State Spinlock KString Kalloc Vm Sched Uart Printf Block Bio BufCache Log LogSpec LogOps Fs FsTx FsBlock.
From Stdlib Require Import ZArith Lia.
From stdpp Require Import base strings numbers gmap list.
Local Open Scope Z_scope.
Local Open Scope m_scope.

(** ** A file as its blocks *)

Definition ind (i : inode) : Z := addr_at i NDIRECT.

Definition baddr (V : Z -> list Z) (i : inode) (n : Z) : Z :=
  if n <? NDIRECT then addr_at i n else if ind i =? 0 then 0 else a_get (n - NDIRECT) (V (ind i)).

Definition fblock (V : Z -> list Z) (i : inode) (n : Z) : list Z :=
  if baddr V i n =? 0 then replicate BSIZE 0 else V (baddr V i n).
Definition fbyte (V : Z -> list Z) (i : inode) (k : Z) : Z := fblock V i (k / BSZ) !!! Z.to_nat (k mod BSZ).

Lemma no_blocks s bn : ~ blocks_of s ∅ bn.
Proof. intros (b & Hb & _). set_solver. Qed.

Section inodes.
Context `{Patience}.
Variables (me : nat) (d st nl out : Z).
Hypothesis Hd : 0 <= d < 2 ^ 32.
Hypothesis Hst : 0 <= st.
Hypothesis Hnl : 0 < nl /\ st + nl < 2 ^ 31.
Hypothesis Hnb : nl <= Z.of_nat NBUF.
Variable sb : superblock.
Hypothesis Hly : layout st nl sb.

Local Abbreviation in_log := (in_log st nl).
Local Abbreviation tx := (tx me d st nl out).
Local Abbreviation used := (used sb).
Local Abbreviation is_map := (is_map sb).
Local Abbreviation room := (room nl).

(** A block of a file. *)
Record blk_ok (V : Z -> list Z) (a : Z) : Prop := {
  bk_range : 0 < a < sb_size sb;
  bk_used : used V a = true;
  bk_log : ~ in_log a;
  bk_map : ~ is_map a;
  bk_len : length (V a) = BSIZE
}.

(** The blocks of a file are marked as used, and no two of them are the same. *)
Record ino_ok (V : Z -> list Z) (i : inode) : Prop := {
  io_dev : idev i = d;
  io_len : length (iaddrs i) = 13%nat;
  io_ind : ind i <> 0 -> blk_ok V (ind i);
  io_blk : forall n, 0 <= n < MAXFILE -> baddr V i n <> 0 -> blk_ok V (baddr V i n) /\ baddr V i n <> ind i;
  io_inj : forall n m, 0 <= n < MAXFILE -> 0 <= m < MAXFILE -> baddr V i n <> 0 -> baddr V i n = baddr V i m -> n = m
}.

(** The bit map is sound: whole blocks; and what is free is neither in the log nor part of it. *)
Definition fs_ok (V : Z -> list Z) : Prop := maps_ok sb V /\ free_ok st nl sb V.

(** At least [k] blocks are free. *)
Definition avail (V : Z -> list Z) (k : nat) : Prop :=
  exists l, NoDup l /\ (k <= length l)%nat /\ forall c, c ∈ l -> 0 < c < sb_size sb /\ used V c = false.

(** Block 0 is never free. *)
Definition boot_used (V : Z -> list Z) : Prop := used V 0 = true.

Lemma avail_free V k : avail V (S k) -> exists c, 0 <= c < sb_size sb /\ used V c = false.
Proof. intros (l & _ & Hl & Hc). destruct l as [|c l]; simpl in Hl; [lia|]. exists c. destruct (Hc c ltac:(left)). split; [lia|done]. Qed.

(** What an operation on the file leaves alone: every used block outside the log but its own. *)
Definition others (V V' : Z -> list Z) (own : Z -> Prop) : Prop :=
  forall b, ~ in_log b -> ~ is_map b -> (0 <= b < sb_size sb -> used V b = true) -> ~ own b -> V' b = V b.

(** *** Allocating a block *)

Section allocated.
Variables (V : Z -> list Z) (a : Z).
Hypothesis Hok : fs_ok V.
Hypothesis Ha : first_free sb V a.
Hypothesis Hb0 : boot_used V.
Local Abbreviation V' := (allocated sb a V).

Lemma alloc_range : 0 < a < sb_size sb.
Proof. destruct Ha as (Hr & Hu & _). split; [|lia]. destruct (decide (a = 0)) as [->|]; [|lia]. unfold boot_used in Hb0. congruence. Qed.

Lemma alloc_fresh : ~ in_log a /\ ~ is_map a.
Proof. destruct Hok as [_ Hf], Ha as (Hr & Hu & _). by apply Hf. Qed.

Lemma alloc_used c : 0 <= c < sb_size sb -> used V' c = (c =? a) || used V c.
Proof.
  intros Hc. unfold allocated. rewrite (used_vupd sb) by (done || apply alloc_fresh). destruct Hok as [Hm _], Ha as (Hr & _).
  by apply (used_mark st nl sb Hly).
Qed.

Lemma alloc_at : V' a = replicate BSIZE 0.
Proof. unfold allocated, vupd. by rewrite decide_True. Qed.

Lemma alloc_other b : ~ is_map b -> b <> a -> V' b = V b.
Proof.
  intros Hm Hne. unfold allocated, mark, vupd. rewrite decide_False by done. rewrite decide_False; [done|]. intros <-. apply Hm.
  exists a. destruct Ha as (Hr & _). done.
Qed.

Lemma alloc_used_other b : ~ is_map b -> used V b = true -> 0 <= b < sb_size sb -> V' b = V b.
Proof. intros Hm Hu Hb. apply alloc_other; [done|]. intros ->. destruct Ha as (_ & Hf & _). congruence. Qed.

Lemma alloc_fs_ok : fs_ok V'.
Proof.
  destruct Hok as [Hm Hf], Ha as (Hr & _). split.
  - unfold allocated. apply maps_ok_vupd; [apply alloc_fresh|]. by apply maps_ok_mark.
  - intros c Hc Hu. rewrite alloc_used in Hu by done. apply orb_false_iff in Hu as [_ Hu]. by apply Hf.
Qed.

Lemma alloc_boot : boot_used V'.
Proof. unfold boot_used. rewrite alloc_used; [by rewrite Hb0, orb_true_r|]. pose proof (ly_size _ _ _ Hly). lia. Qed.

Lemma alloc_avail k : avail V (S k) -> avail V' k.
Proof.
  intros (l & Hnd & Hl & Hc). exists (filter (fun c => c <> a) l). split_and!.
  - by apply NoDup_filter.
  - assert (Hle : (length l <= S (length (filter (fun c => c <> a) l)))%nat); [|lia]. clear Hl Hc. induction l as [|c l IH]; simpl; [lia|].
    apply NoDup_cons in Hnd as [Hni Hnd]. specialize (IH Hnd). rewrite filter_cons. case_decide as Hca; simpl; [lia|].
    subst c. assert (Hsame : filter (fun c => c <> a) l = l); [|rewrite Hsame; lia]. clear IH Hnd. induction l as [|c l IH]; [done|].
    rewrite filter_cons_True by set_solver. f_equal. apply IH. set_solver.
  - intros c Hin. apply list_elem_of_filter in Hin as [Hne Hin]. destruct (Hc c Hin) as [Hr Hu]. split; [done|].
    rewrite alloc_used by lia. by rewrite Hu, (proj2 (Z.eqb_neq c a)).
Qed.

Lemma alloc_blk b : blk_ok V b -> blk_ok V' b.
Proof.
  intros [Hr Hu Hlg Hm Hl]. assert (Hs : V' b = V b) by (apply alloc_used_other; (done || lia)). split; try done; [|by rewrite Hs].
  rewrite alloc_used by lia. by rewrite Hu, orb_true_r.
Qed.

Lemma alloc_new : blk_ok V' a.
Proof.
  pose proof alloc_range as Hr. destruct alloc_fresh as [Hlg Hm]. split; try done; [|by rewrite alloc_at].
  rewrite alloc_used by lia. by rewrite Z.eqb_refl.
Qed.
End allocated.

(** *** A file that gains blocks *)

(** [V'] and [i'] are the blocks and the inode after blocks have been added to the file: its contents are the same. *)
Record grown (V : Z -> list Z) (i : inode) (V' : Z -> list Z) (i' : inode) : Prop := {
  gr_ino : ino_ok V' i';
  gr_fs : fs_ok V';
  gr_boot : boot_used V';
  gr_same : forall m, 0 <= m < MAXFILE -> fblock V' i' m = fblock V i m;
  gr_keep : forall m, 0 <= m < MAXFILE -> baddr V i m <> 0 -> baddr V' i' m = baddr V i m;
  gr_meta : i' = set_iaddrs (iaddrs i') i;
  gr_others : others V V' (fun b => b = ind i);
  gr_used : forall c, 0 <= c < sb_size sb -> used V c = true -> used V' c = true;
  gr_ind : ind i' = ind i \/ (ind i = 0 /\ 0 < ind i' < sb_size sb /\ used V (ind i') = false);
  gr_new : forall m, 0 <= m < MAXFILE -> baddr V' i' m = baddr V i m \/ (0 < baddr V' i' m < sb_size sb /\ used V (baddr V' i' m) = false)
}.

Lemma grown_refl V i : ino_ok V i -> fs_ok V -> boot_used V -> grown V i V i.
Proof. intros Hi Hf Hb. split; try done; [by destruct i|by left|by left]. Qed.

Lemma grown_trans V i V1 i1 V2 i2 : grown V i V1 i1 -> grown V1 i1 V2 i2 -> grown V i V2 i2.
Proof.
  intros G1 G2. split; try apply G2.
  - intros m Hm. by rewrite (gr_same _ _ _ _ G2), (gr_same _ _ _ _ G1).
  - intros m Hm Hne. rewrite (gr_keep _ _ _ _ G2), (gr_keep _ _ _ _ G1); try done. by rewrite (gr_keep _ _ _ _ G1).
  - rewrite (gr_meta _ _ _ _ G2), (gr_meta _ _ _ _ G1). done.
  - intros b Hlg Hm Hu Hne. rewrite (gr_others _ _ _ _ G2), (gr_others _ _ _ _ G1); try done.
    + intros Hb. by apply (gr_used _ _ _ _ G1), Hu.
    + intros ->. destruct (gr_ind _ _ _ _ G1) as [He|(Hz & Hr & Hf)]; [congruence|]. rewrite Hu in Hf by lia. done.
  - intros c Hc Hu. apply (gr_used _ _ _ _ G2); [done|]. by apply (gr_used _ _ _ _ G1).
  - destruct (gr_ind _ _ _ _ G1) as [He|(Hz & Hr & Hf)], (gr_ind _ _ _ _ G2) as [He2|(Hz2 & Hr2 & Hf2)]; [left; congruence| |right; by rewrite He2|lia].
    right. split_and!; [congruence|lia|lia|]. destruct (used V (ind i2)) eqn:Hu; [|done]. rewrite (gr_used _ _ _ _ G1) in Hf2 by (done || lia). done.
  - intros m Hm. destruct (gr_new _ _ _ _ G2 m Hm) as [He2|[Hr2 Hf2]].
    + rewrite He2. by apply (gr_new _ _ _ _ G1).
    + right. split; [done|]. destruct (used V (baddr V2 i2 m)) eqn:Hu; [|done]. rewrite (gr_used _ _ _ _ G1) in Hf2 by (done || lia). done.
Qed.

Lemma addr_at_insert i n v m : length (iaddrs i) = 13%nat -> 0 <= n < 13 -> 0 <= m ->
  addr_at (set_iaddrs (<[Z.to_nat n := v]> (iaddrs i)) i) m = if m =? n then v else addr_at i m.
Proof.
  intros Hl Hn Hm. unfold addr_at. simpl. destruct (Z.eqb_spec m n) as [->|Hne]; [apply list_lookup_total_insert_eq; lia|].
  apply list_lookup_total_insert_ne. lia.
Qed.

Lemma MAXFILE_val : MAXFILE = 268.
Proof. reflexivity. Qed.
Lemma a_get_zeros n : a_get n (replicate BSIZE 0) = 0.
Proof. unfold a_get, rd, sub. rewrite drop_replicate, take_replicate. apply le_val_zeros. Qed.
Lemma a_get_set n m v x : length x = BSIZE -> 0 <= n < NINDIRECT -> 0 <= m < NINDIRECT -> 0 <= v < 2 ^ 32 ->
  a_get m (a_set n v x) = if m =? n then v else a_get m x.
Proof.
  intros Hl Hn Hm Hv. change NINDIRECT with 256 in *. change BSIZE with 1024%nat in Hl. unfold a_get, a_set. destruct (Z.eqb_spec m n) as [->|Hne].
  - rewrite rd_wr_eq by lia. apply Z.mod_small. done.
  - apply rd_wr_ne; lia.
Qed.
Lemma length_a_set n v x : length x = BSIZE -> 0 <= n < NINDIRECT -> length (a_set n v x) = BSIZE.
Proof. intros Hl Hn. change NINDIRECT with 256 in *. change BSIZE with 1024%nat in *. unfold a_set. rewrite length_wr; lia. Qed.

Section grow.
Variables (V : Z -> list Z) (i : inode) (a : Z).
Hypothesis Hok : fs_ok V.
Hypothesis Hb0 : boot_used V.
Hypothesis Hi : ino_ok V i.
Hypothesis Ha : first_free sb V a.
Local Abbreviation V1 := (allocated sb a V).

Lemma not_block b : blk_ok V b -> b <> a.
Proof. intros [_ Hu _ _ _] ->. destruct Ha as (_ & Hf & _). congruence. Qed.

Lemma alloc_keeps b : blk_ok V b -> V1 b = V b.
Proof. intros Hb. apply alloc_other; [done|apply Hb|by apply not_block]. Qed.

Lemma baddr_alloc m : 0 <= m < MAXFILE -> baddr V1 i m = baddr V i m.
Proof.
  intros Hm. unfold baddr. destruct (m <? NDIRECT); [done|]. destruct (Z.eqb_spec (ind i) 0) as [|Hz]; [done|].
  by rewrite alloc_keeps by (by apply Hi).
Qed.

(** The file with one more block. *)
Lemma grown_with (i' : inode) (V' : Z -> list Z) n :
  0 <= n < MAXFILE -> idev i' = d -> length (iaddrs i') = 13%nat -> i' = set_iaddrs (iaddrs i') i -> ind i' = ind i ->
  (forall m, 0 <= m < MAXFILE -> baddr V' i' m = if m =? n then a else baddr V i m) -> baddr V i n = 0 ->
  fs_ok V' -> (forall c, 0 <= c < sb_size sb -> used V' c = used V1 c) ->
  (forall b, b <> ind i -> V' b = V1 b) -> (ind i <> 0 -> length (V' (ind i)) = BSIZE) ->
  grown V i V' i'.
Proof.
  intros Hn Hdv Hlen Hmeta Hind Hbad Hn0 Hfs Hus Hoth Hil. pose proof (alloc_range V a Ha Hb0) as Har.
  assert (Hkeep : forall b, blk_ok V b -> b <> ind i -> blk_ok V' b /\ V' b = V b).
  { intros b Hb Hne. pose proof (alloc_blk V a Hok Ha b Hb) as [H1 H2 H3 H4 H5]. rewrite <- Hus in H2 by lia.
    split; [split; try done; by rewrite Hoth|]. rewrite Hoth by done. by apply alloc_keeps. }
  assert (Hnew : blk_ok V' a /\ a <> ind i).
  { assert (Hne : a <> ind i) by (destruct (decide (ind i = 0)) as [->|Hz]; [lia|]; intros He; symmetry in He; revert He; apply not_block; by apply Hi).
    split; [|done]. pose proof (alloc_new V a Hok Ha Hb0) as [H1 H2 H3 H4 H5]. rewrite <- Hus in H2 by lia. split; try done. by rewrite Hoth. }
  split; try done.
  - split; try done.
    + rewrite Hind. intros Hz. pose proof (io_ind _ _ Hi Hz) as Hb. pose proof (alloc_blk V a Hok Ha _ Hb) as [H1 H2 H3 H4 H5].
      rewrite <- Hus in H2 by lia. split; try done. by apply Hil.
    + intros m Hm. rewrite Hbad, Hind by done. destruct (Z.eqb_spec m n) as [->|Hne]; [done|]. intros Hz.
      destruct (io_blk _ _ Hi m Hm Hz) as [Hb Hnei]. split; [by apply Hkeep|done].
    + intros m m' Hm Hm'. rewrite !Hbad by done. destruct (Z.eqb_spec m n) as [->|Hne], (Z.eqb_spec m' n) as [->|Hne']; try done.
      * intros _ Heq. exfalso. assert (Hz : baddr V i m' <> 0) by lia. destruct (io_blk _ _ Hi m' Hm' Hz) as [Hb _]. by apply (not_block _ Hb).
      * intros Hz Heq. exfalso. destruct (io_blk _ _ Hi m Hm Hz) as [Hb _]. by apply (not_block _ Hb).
      * by apply (io_inj _ _ Hi).
  - unfold boot_used. rewrite Hus by (pose proof (ly_size _ _ _ Hly); lia). by apply alloc_boot.
  - intros m Hm. unfold fblock. rewrite Hbad by done. destruct (Z.eqb_spec m n) as [->|Hne].
    + rewrite Hn0, Z.eqb_refl, (proj2 (Z.eqb_neq a 0)), Hoth by (lia || apply Hnew). by rewrite alloc_at.
    + destruct (Z.eqb_spec (baddr V i m) 0) as [|Hz]; [done|]. destruct (io_blk _ _ Hi m Hm Hz) as [Hb Hnei]. by apply Hkeep.
  - intros m Hm Hz. rewrite Hbad by done. destruct (Z.eqb_spec m n) as [->|]; congruence.
  - intros b Hlg Hm Hu Hne. rewrite Hoth by done. destruct (decide (b = a)) as [->|Hba]; [|by apply alloc_other].
    destruct Ha as (Hr & Hf & _). rewrite Hu in Hf by lia. done.
  - intros c Hc Hu. rewrite Hus, alloc_used by done. by rewrite Hu, orb_true_r.
  - by left.
  - intros m Hm. rewrite Hbad by done. destruct (Z.eqb_spec m n) as [->|Hne]; [|by left]. right. split; [lia|]. by destruct Ha as (_ & Hf & _).
Qed.

(** The block numbers of the file with one more block: a direct one, one of the indirect block, and the indirect block. *)
Lemma ind_direct n : 0 <= n < NDIRECT -> ind (set_iaddrs (<[Z.to_nat n := a]> (iaddrs i)) i) = ind i.
Proof.
  intros Hn. change NDIRECT with 12 in *. pose proof (io_len _ _ Hi) as Hlen. unfold ind. change NDIRECT with 12. rewrite addr_at_insert by (done || lia).
  by rewrite (proj2 (Z.eqb_neq 12 n)) by lia.
Qed.

Lemma baddr_direct n m : 0 <= n < NDIRECT -> 0 <= m < MAXFILE ->
  baddr V1 (set_iaddrs (<[Z.to_nat n := a]> (iaddrs i)) i) m = if m =? n then a else baddr V i m.
Proof.
  intros Hn Hm. pose proof (ind_direct n Hn) as Hind. pose proof (io_len _ _ Hi) as Hlen. unfold baddr. rewrite Hind. change NDIRECT with 12 in *. destruct (Z.ltb_spec m 12) as [Hlt|Hge].
  - by rewrite addr_at_insert by (done || lia).
  - rewrite (proj2 (Z.eqb_neq m n)) by lia. destruct (Z.eqb_spec (ind i) 0) as [|Hzi]; [done|]. by rewrite alloc_keeps by (by apply Hi).
Qed.

Lemma baddr_entry n m : NDIRECT <= n < MAXFILE -> ind i <> 0 -> 0 <= m < MAXFILE ->
  baddr (vupd V1 (ind i) (a_set (n - NDIRECT) a (V1 (ind i)))) i m = if m =? n then a else baddr V i m.
Proof.
  intros Hn Hzi Hm. pose proof (io_ind _ _ Hi Hzi) as Hbi. pose proof (alloc_range V a Ha Hb0) as Har. pose proof (ly_size _ _ _ Hly) as Hsz.
  pose proof (bk_len _ _ (alloc_blk V a Hok Ha _ Hbi)) as Hl. rewrite MAXFILE_val in *. unfold baddr. change NDIRECT with 12 in *.
  destruct (Z.ltb_spec m 12) as [Hlt|Hge]; [by rewrite (proj2 (Z.eqb_neq m n)) by lia|].
  rewrite (proj2 (Z.eqb_neq (ind i) 0)) by done. unfold vupd. rewrite decide_True, a_get_set by (done || change NINDIRECT with 256; lia).
  rewrite alloc_keeps by done. destruct (Z.eqb_spec (m - 12) (n - 12)), (Z.eqb_spec m n); (done || lia).
Qed.

Lemma ind_ind : ind (set_iaddrs (<[Z.to_nat NDIRECT := a]> (iaddrs i)) i) = a.
Proof. pose proof (io_len _ _ Hi) as Hlen. unfold ind. change NDIRECT with 12. by rewrite addr_at_insert by (done || lia). Qed.

Lemma baddr_ind m : ind i = 0 -> 0 <= m < MAXFILE -> baddr V1 (set_iaddrs (<[Z.to_nat NDIRECT := a]> (iaddrs i)) i) m = baddr V i m.
Proof.
  intros Hz Hm. pose proof (alloc_range V a Ha Hb0) as Har. pose proof (io_len _ _ Hi) as Hlen. unfold baddr. rewrite ind_ind, Hz, Z.eqb_refl. change NDIRECT with 12. destruct (Z.ltb_spec m 12) as [Hlt|Hge].
  - rewrite addr_at_insert by (done || lia). by rewrite (proj2 (Z.eqb_neq m 12)) by lia.
  - rewrite (proj2 (Z.eqb_neq a 0)), alloc_at by lia. apply a_get_zeros.
Qed.

Lemma grow_direct n : 0 <= n < NDIRECT -> addr_at i n = 0 -> grown V i V1 (set_iaddrs (<[Z.to_nat n := a]> (iaddrs i)) i).
Proof.
  intros Hn Hz. pose proof (io_len _ _ Hi) as Hlen. pose proof (ind_direct n Hn) as Hind. pose proof (fun m => baddr_direct n m Hn) as Hbad. set (i' := set_iaddrs _ i) in *. change NDIRECT with 12 in Hn.
  apply (grown_with i' V1 n); try done.
  - rewrite MAXFILE_val. lia.
  - apply Hi.
  - unfold i'. simpl. by rewrite length_insert.
  - unfold baddr. change NDIRECT with 12. by rewrite (proj2 (Z.ltb_lt n 12)) by lia.
  - by apply alloc_fs_ok.
  - intros Hzi. rewrite alloc_keeps by (by apply Hi). by apply (io_ind _ _ Hi).
Qed.

Lemma grow_entry n : NDIRECT <= n < MAXFILE -> ind i <> 0 -> a_get (n - NDIRECT) (V (ind i)) = 0 ->
  grown V i (vupd V1 (ind i) (a_set (n - NDIRECT) a (V1 (ind i)))) i.
Proof.
  intros Hn Hzi Hz. pose proof (io_ind _ _ Hi Hzi) as Hbi. pose proof (alloc_blk V a Hok Ha _ Hbi) as [H1 H2 H3 H4 H5].
  pose proof (fun m => baddr_entry n m Hn Hzi) as Hbad. change NDIRECT with 12 in *. rewrite MAXFILE_val in Hn.
  apply (grown_with i _ n); try done.
  - rewrite MAXFILE_val. lia.
  - apply Hi.
  - apply Hi.
  - by destruct i.
  - unfold baddr. change NDIRECT with 12. by rewrite (proj2 (Z.ltb_ge n 12)), (proj2 (Z.eqb_neq (ind i) 0)) by (done || lia).
  - destruct (alloc_fs_ok V a Hok Ha) as [Hmp Hfr]. split; [by apply maps_ok_vupd|]. intros c Hc. rewrite used_vupd by done. by apply Hfr.
  - intros c Hc. by rewrite used_vupd.
  - intros b Hne. unfold vupd. by rewrite decide_False.
  - intros _. unfold vupd. rewrite decide_True by done. apply length_a_set; [done|]. change NINDIRECT with 256. lia.
Qed.

Lemma grow_ind : ind i = 0 -> grown V i V1 (set_iaddrs (<[Z.to_nat NDIRECT := a]> (iaddrs i)) i).
Proof.
  intros Hz. pose proof (io_len _ _ Hi) as Hlen. pose proof ind_ind as Hind. pose proof (fun m => baddr_ind m Hz) as Hbad. set (i' := set_iaddrs _ i) in *.
  pose proof (alloc_range V a Ha Hb0) as Har.
  split.
  - split.
    + apply Hi.
    + unfold i'. simpl. by rewrite length_insert.
    + rewrite Hind. intros _. by apply alloc_new.
    + intros m Hm. rewrite Hbad, Hind by done. intros Hz'. destruct (io_blk _ _ Hi m Hm Hz') as [Hb _]. split; [by apply alloc_blk|by apply not_block].
    + intros m m' Hm Hm'. rewrite !Hbad by done. by apply (io_inj _ _ Hi).
  - by apply alloc_fs_ok.
  - by apply alloc_boot.
  - intros m Hm. unfold fblock. rewrite Hbad by done. destruct (Z.eqb_spec (baddr V i m) 0) as [|Hz']; [done|].
    apply alloc_keeps. by apply (io_blk _ _ Hi).
  - intros m Hm _. by apply Hbad.
  - done.
  - intros b Hlg Hm Hu _. destruct (decide (b = a)) as [->|Hba]; [|by apply alloc_other]. destruct Ha as (Hr & Hf & _). rewrite Hu in Hf by lia. done.
  - intros c Hc Hu. rewrite alloc_used by done. by rewrite Hu, orb_true_r.
  - right. rewrite Hind. split_and!; [done|lia|lia|]. by destruct Ha as (_ & Hf & _).
  - intros m Hm. left. by apply Hbad.
Qed.
End grow.

(** *** [bmap] *)

Lemma tx_room0 s held x bl V F : tx s held x bl V F -> (length bl < NBUF)%nat.
Proof. intros Ht. pose proof (tx_few _ _ _ _ _ _ _ _ _ _ _ Ht). lia. Qed.

(** A block that is there already. *)
Lemma bmap_hit s bl V F ip i n :
  tx s ∅ None bl V F -> k_inodes s !!! ip = i -> ino_ok V i -> 0 <= n < MAXFILE -> baddr V i n <> 0 ->
  wp (bmap ip n) (fun a s' => a = baddr V i n /\ tx s' ∅ None bl V F /\ kept s s') s.
Proof.
  intros Ht Hip Hi Hn Hne. unfold bmap. unfold baddr in *. destruct (n <? NDIRECT) eqn:Hlt.
  - apply wp_bind, wp_gets. rewrite Hip. cbv zeta. rewrite (proj2 (Z.eqb_neq _ 0)) by done. apply wp_ret. split_and!; [done|done|apply kept_refl].
  - apply Z.ltb_ge in Hlt. cbv zeta. rewrite (proj2 (Z.ltb_lt (n - NDIRECT) NINDIRECT)) by (change NDIRECT with 12 in *; change NINDIRECT with 256; rewrite MAXFILE_val in Hn; lia).
    destruct (Z.eqb_spec (ind i) 0) as [|Hz]; [done|]. apply wp_bind, wp_gets. rewrite Hip. fold (ind i). rewrite (proj2 (Z.eqb_neq (ind i) 0)) by done.
    apply wp_bind, wp_ret. rewrite (proj2 (Z.eqb_neq (ind i) 0)), (io_dev _ _ Hi) by done.
    eapply wp_seq; [apply (tx_bread me d st nl out _ _ _ _ _ _ (ind i) Ht); [apply no_blocks|rewrite size_empty; pose proof (tx_room0 _ _ _ _ _ _ Ht); lia]|].
    intros b s1 (Hb & Ht1 & Hh1 & Hs1 & Hk1). apply wp_bind, wp_gets. rewrite (tx_data me d st nl out _ _ _ _ _ _ _ _ Ht1 Hh1).
    rewrite (proj2 (Z.eqb_neq _ 0)) by done. apply wp_bind, wp_ret.
    eapply wp_seq; [apply (tx_brelse me d st nl out _ _ _ _ _ _ _ Ht1 Hh1), (bk_log _ _ (io_ind _ _ Hi Hz))|]. intros [] s2 (Ht2 & Hs2 & Hk2). rewrite (drop_held b ∅ Hb) in Ht2.
    apply wp_ret. split_and!; [done|done|by eapply kept_trans].
Qed.

Hypothesis Hout : 1 <= out.

(** What [bmap] leaves. *)
Definition mapped (s : kstate) (ip : nat) (V F : Z -> list Z) (i : inode) (k : nat) (j : Z) (V' : Z -> list Z) (i' : inode) (s' : kstate) : Prop :=
  exists bl', tx s' ∅ None bl' V' F /\ kept (with_ino ip i' s) s' /\ grown V i V' i' /\ avail V' k /\ room bl' ∅ j.

Lemma kept_same s ip i : k_inodes s !!! ip = i -> (ip < length (k_inodes s))%nat -> with_ino ip i s = s.
Proof.
  intros Hi Hlt. unfold with_ino. rewrite list_insert_id; [by destruct s|]. rewrite <- Hi. by apply list_lookup_lookup_total_lt.
Qed.

Lemma upd_ino_run s ip f : (ip < length (k_inodes s))%nat -> upd_ino ip f s = Ok tt (with_ino ip (f (k_inodes s !!! ip)) s).
Proof.
  intros Hlt. unfold upd_ino, modify, with_ino. do 2 f_equal. apply list_eq. intros k. destruct (decide (k = ip)) as [->|Hne].
  - rewrite list_lookup_alter, list_lookup_insert_eq, decide_True by done. by rewrite (list_lookup_lookup_total_lt _ _ Hlt).
  - by rewrite list_lookup_alter_ne, list_lookup_insert_ne.
Qed.

(** Allocate a block and put its number into the inode. *)
Lemma alloc_addr s bl V F ip i n k j :
  k_sb s = sb -> tx s ∅ None bl V F -> k_inodes s !!! ip = i -> (ip < length (k_inodes s))%nat -> ino_ok V i -> fs_ok V -> boot_used V ->
  0 <= n <= NDIRECT -> avail V (S k) -> room bl ∅ (j + 2) -> 0 <= j ->
  (forall a, first_free sb V a -> grown V i (allocated sb a V) (set_iaddrs (<[Z.to_nat n := a]> (iaddrs i)) i)) ->
  wp (addr <- balloc d ;; if addr =? 0 then ret 0 else set_addr ip n addr ;; ret addr) (fun a s' => a <> 0 /\ first_free sb V a /\
    mapped s ip V F i k j (allocated sb a V) (set_iaddrs (<[Z.to_nat n := a]> (iaddrs i)) i) s') s.
Proof.
  intros Hsb Ht Hip Hlt Hi [Hm Hf] Hb0 Hn Hav Hr Hj Hgrow.
  eapply wp_seq; [apply (balloc_spec me d st nl out Hd Hst Hnl Hnb Hout sb Hly s ∅ bl V F Hsb Ht)|].
  - by eapply avail_free.
  - done.
  - intros bn Hbl. by apply no_blocks in Hbl.
  - eapply room_le; [exact Hr|lia].
  - intros a s1 [Ha (Ht1 & _ & Hk1)]. pose proof (alloc_range V a Ha Hb0) as Har. rewrite (proj2 (Z.eqb_neq a 0)) by lia.
    apply wp_bind. unfold set_addr. pose proof (kept_inodes _ _ Hk1) as Hi1.
    eapply wp_ok; [apply upd_ino_run; by rewrite Hi1|]. rewrite Hi1, Hip. apply wp_ret. split_and!; [lia|done|]. eexists. split_and!.
    + apply tx_with_ino. exact Ht1.
    + by apply kept_with_ino.
    + by apply Hgrow.
    + by apply alloc_avail.
    + eapply room_le; [apply room_add, room_add; exact Hr|lia].
Qed.

(** The second half of [bmap]: the entry of the indirect block. *)
Definition bmap_entry (dev addr n : Z) : K Z :=
  bp <- bread dev addr ;;
  bb <- get_buf bp ;;
  let addr := a_get n (bdata bb) in
  addr <- (if addr =? 0 then
             addr <- balloc dev ;;
             when (negb (addr =? 0)) (upd_data bp (a_set n addr) ;; log_write bp) ;;
             ret addr
           else ret addr) ;;
  brelse bp ;;
  ret addr.

Lemma room_held bl b j : room bl ∅ (j + 1) -> room bl ({[b]} ∪ ∅) j.
Proof. unfold FsBlock.room. rewrite (right_id_L ∅ (∪)), size_singleton, size_empty. lia. Qed.

Lemma blk_int V a : blk_ok V a -> int a.
Proof. intros [Hr _ _ _ _]. pose proof (ly_size _ _ _ Hly). unfold int. lia. Qed.

Lemma bmap_entry_spec s bl V F i n k j :
  k_sb s = sb -> tx s ∅ None bl V F -> ino_ok V i -> fs_ok V -> boot_used V ->
  NDIRECT <= n < MAXFILE -> ind i <> 0 -> a_get (n - NDIRECT) (V (ind i)) = 0 -> avail V (S k) -> room bl ∅ (j + 3) -> 0 <= j ->
  wp (bmap_entry d (ind i) (n - NDIRECT)) (fun a s' => exists V' bl', a <> 0 /\ a = baddr V' i n /\
    tx s' ∅ None bl' V' F /\ kept s s' /\ grown V i V' i /\ avail V' k /\ room bl' ∅ j) s.
Proof.
  intros Hsb Ht Hi Hfs Hb0 Hn Hzi Hz Hav Hr Hj. pose proof (io_ind _ _ Hi Hzi) as Hbi. unfold bmap_entry.
  eapply wp_seq; [apply (tx_bread me d st nl out _ _ _ _ _ _ (ind i) Ht); [apply no_blocks|rewrite size_empty; pose proof (tx_room0 _ _ _ _ _ _ Ht); lia]|].
  intros b s1 (Hb & Ht1 & Hh1 & Hs1 & Hk1). apply wp_bind, wp_gets. rewrite (tx_data me d st nl out _ _ _ _ _ _ _ _ Ht1 Hh1), Hz. cbv zeta.
  cbn [Z.eqb]. apply wp_bind.
  eapply wp_seq; [apply (balloc_spec me d st nl out Hd Hst Hnl Hnb Hout sb Hly s1 ({[b]} ∪ ∅) bl V F); [by rewrite (kept_sb _ _ Hk1)|done|by eapply avail_free|apply Hfs| |]|].
  { intros bn (c & [Hc Hbn]). assert (c = b) as -> by set_solver. assert (bn = ind i) as -> by (destruct Hh1; congruence).
    split; [apply Hbi|intros _; apply Hbi]. }
  { apply room_held. eapply room_le; [exact Hr|lia]. }
  intros a s2 [Ha (Ht2 & Hs2 & Hk2)]. pose proof (alloc_range V a Ha Hb0) as Har. rewrite (proj2 (Z.eqb_neq a 0)) by lia. cbn [negb when].
  assert (Hh2 : holds s2 ({[b]} ∪ ∅) b (ind i)) by (eapply holds_same; [exact Hh1|done|apply Hh1]).
  apply wp_bind. eapply wp_seq; [apply (tx_upd_data me d st nl out Hnl _ _ _ _ _ _ _ _ (a_set (n - NDIRECT) a) Ht2 Hh2); [by left|apply Hbi]|].
  intros [] s3 (Ht3 & Hs3 & Hk3). assert (Hh3 : holds s3 ({[b]} ∪ ∅) b (ind i)) by (eapply holds_same; [exact Hh2|done|apply Hh2]).
  assert (Hr2 : room (log_add a (log_add (BBLOCK a sb) bl)) ∅ (j + 1)) by (eapply room_le; [apply room_add, room_add; exact Hr|lia]).
  destruct (room_log nl _ ∅ ltac:(eapply room_le; [exact Hr2|lia])) as [Hl1 Hl2].
  eapply wp_mono; [apply (tx_log_write me d st nl out Hd Hst Hnl Hnb _ _ _ _ _ _ _ _ Hout Ht3 Hh3); [by right|by eapply blk_int|apply Hbi|done|done]|].
  intros [] s4 (Ht4 & Hs4 & Hk4). assert (Hh4 : holds s4 ({[b]} ∪ ∅) b (ind i)) by (eapply holds_same; [exact Hh3|done|apply Hh3]).
  apply wp_ret. eapply wp_seq; [apply (tx_brelse me d st nl out _ _ _ _ _ _ _ Ht4 Hh4); apply Hbi|].
  intros [] s5 (Ht5 & _ & Hk5). rewrite (drop_held b ∅ Hb) in Ht5. apply wp_ret. pose proof (grow_entry V i a Hfs Hb0 Hi Ha n Hn Hzi Hz) as Hg.
  do 2 eexists. split_and!; [lia| |exact Ht5|do 4 (eapply kept_trans; [eassumption|]); done|exact Hg| |eapply room_le; [by apply room_add|lia]].
  - change NDIRECT with 12 in *. rewrite MAXFILE_val in Hn. unfold baddr. change NDIRECT with 12. rewrite (proj2 (Z.ltb_ge n 12)), (proj2 (Z.eqb_neq (ind i) 0)) by (done || lia).
    unfold vupd. rewrite decide_True, a_get_set by (done || (pose proof (ly_size _ _ _ Hly); change NINDIRECT with 256; lia) || apply (alloc_blk V a Hfs Ha _ Hbi)).
    by rewrite Z.eqb_refl.
  - destruct (alloc_avail V a Hfs Ha Hb0 k Hav) as (l & Hnd & Hl & Hc). exists l. split_and!; [done|done|]. intros c Hin. destruct (Hc c Hin) as [Hrc Hu].
    split; [done|]. rewrite used_vupd; [done|apply Hbi|lia].
Qed.

Lemma mapped_refl s bl V F ip i k j : tx s ∅ None bl V F -> ino_ok V i -> fs_ok V -> boot_used V ->
  k_inodes s !!! ip = i -> (ip < length (k_inodes s))%nat -> avail V k -> room bl ∅ j -> mapped s ip V F i k j V i s.
Proof.
  intros Ht Hi Hf Hb Hip Hlt Hav Hr. exists bl. rewrite kept_same by done. split_and!; [done|apply kept_refl|by apply grown_refl|done|done].
Qed.

Lemma avail_le V k k' : avail V k -> (k' <= k)%nat -> avail V k'.
Proof. intros (l & H1 & H2 & H3) Hle. exists l. split_and!; [done|lia|done]. Qed.

(** [bmap] finds the block, or allocates it and, when it is needed, the indirect block. *)
Lemma bmap_spec s bl V F ip i n k j :
  k_sb s = sb -> tx s ∅ None bl V F -> k_inodes s !!! ip = i -> (ip < length (k_inodes s))%nat -> ino_ok V i -> fs_ok V -> boot_used V ->
  0 <= n < MAXFILE -> avail V (S (S k)) -> room bl ∅ (j + 5) -> 0 <= j ->
  wp (bmap ip n) (fun a s' => exists V' i', a <> 0 /\ a = baddr V' i' n /\ mapped s ip V F i k j V' i' s') s.
Proof.
  intros Hsb Ht Hip Hlt Hi Hfs Hb0 Hn Hav Hr Hj. destruct (decide (baddr V i n = 0)) as [Hz|Hne].
  2: { eapply wp_mono; [apply (bmap_hit s bl V F ip i n); done|]. intros a s' (-> & Ht' & Hk'). exists V, i. split_and!; [done|done|].
       exists bl. rewrite kept_same by done. split_and!; [done|done|by apply grown_refl|apply (avail_le _ (S (S k))); [done|lia]|eapply room_le; [done|lia]]. }
  unfold baddr in Hz. unfold bmap. destruct (Z.ltb_spec n NDIRECT) as [Hnd|Hnd].
  - apply wp_bind, wp_gets. rewrite Hip. cbv zeta. rewrite Hz. cbn [Z.eqb]. rewrite (io_dev _ _ Hi).
    eapply wp_mono; [apply (alloc_addr s bl V F ip i n (S k) (j + 3)); try done; [lia|eapply room_le; [exact Hr|lia]|lia|intros a Ha; apply grow_direct; try done; lia]|].
    intros a s' (Hne & Ha & (bl' & Ht' & Hk' & Hg & Hav' & Hr')). do 2 eexists. split_and!; [done| |exists bl'; split_and!; [done..|apply (avail_le _ (S k)); [done|lia]|eapply room_le; [done|lia]]].
    unfold baddr. rewrite (proj2 (Z.ltb_lt n NDIRECT)) by done. rewrite addr_at_insert by (apply Hi || (change NDIRECT with 12 in *; lia)). by rewrite Z.eqb_refl.
  - cbv zeta. rewrite (proj2 (Z.ltb_lt (n - NDIRECT) NINDIRECT)) by (change NDIRECT with 12 in *; change NINDIRECT with 256; rewrite MAXFILE_val in Hn; lia).
    apply wp_bind, wp_gets. rewrite Hip, (io_dev _ _ Hi). fold (ind i).
    eapply (wp_seq _ _ (fun a s1 => exists V1 i1, a = ind i1 /\ ind i1 <> 0 /\ a_get (n - NDIRECT) (V1 (ind i1)) = 0 /\ mapped s ip V F i (S k) (j + 3) V1 i1 s1)).
    + destruct (Z.eqb_spec (ind i) 0) as [Hzi|Hzi].
      * eapply wp_mono; [apply (alloc_addr s bl V F ip i NDIRECT (S k) (j + 3)); try done; [eapply room_le; [exact Hr|lia]|lia|intros a Ha; by apply grow_ind]|].
        intros a s' (Hne & Ha & Hm). do 2 eexists.
        assert (He : ind (set_iaddrs (<[Z.to_nat NDIRECT := a]> (iaddrs i)) i) = a) by (unfold ind; by rewrite addr_at_insert by (done || apply Hi)).
        rewrite He, alloc_at. split_and!; [done|done|apply a_get_zeros|done].
      * apply wp_ret. exists V, i. split_and!; [done|done|done|apply (mapped_refl s bl); try done; [apply (avail_le _ (S (S k))); [done|lia]|eapply room_le; [done|lia]]].
    + intros a s1 (V1 & i1 & -> & Hzi & Hz1 & (bl1 & Ht1 & Hk1 & Hg1 & Hav1 & Hr1)). rewrite (proj2 (Z.eqb_neq (ind i1) 0)) by done.
      fold (bmap_entry d (ind i1) (n - NDIRECT)).
      eapply wp_mono; [apply (bmap_entry_spec s1 bl1 V1 F i1 n k j); try done; [by rewrite (kept_sb _ _ Hk1)|apply Hg1|apply Hg1|apply Hg1|lia]|].
      intros a s2 (V2 & bl2 & Hne & Ha & Ht2 & Hk2 & Hg2 & Hav2 & Hr2). exists V2, i1. split_and!; [done|done|]. exists bl2.
      split_and!; [done|by eapply kept_trans|by eapply grown_trans|done|done].
Qed.
End inodes.

