(* ===== verification/FsFile.v ===== *)
(** Reading and writing files: [readi], [writei] and [iupdate].

    A file is seen as its bytes ([FsInode.fbyte]); reading returns a range of them, and writing replaces a
    range and nothing else. *)
From S2P Require Import Prelude Machine Riscv State Spinlock KString Kalloc Vm Sched Uart Printf Block Bio BufCache Log LogSpec LogOps Fs FsTx FsBlock FsInode.
From Stdlib Require Import ZArith Lia.
From stdpp Require Import base strings numbers gmap list.
Local Open Scope Z_scope.
Local Open Scope m_scope.

(** ** Ranges of bytes *)

Lemma BSZ_val : BSZ = 1024.
Proof. reflexivity. Qed.

Definition fbytes (V : Z -> list Z) (i : inode) (off : Z) (n : nat) : list Z := fbyte V i <$> zrange off n.

Lemma fbytes_app V i off n m : fbytes V i off (n + m) = fbytes V i off n ++ fbytes V i (off + Z.of_nat n) m.
Proof. unfold fbytes. by rewrite zrange_app, fmap_app. Qed.

Lemma length_fbytes V i off n : length (fbytes V i off n) = n.
Proof. unfold fbytes. by rewrite length_fmap, zrange_length. Qed.

(** A range inside one block. *)
Lemma sub_fblock V i off m : 0 <= off -> length (fblock V i (off / BSZ)) = BSIZE -> Z.of_nat m <= BSZ - off mod BSZ ->
  sub (Z.to_nat (off mod BSZ)) m (fblock V i (off / BSZ)) = fbytes V i off m.
Proof.
  intros Hoff Hlen Hm. rewrite BSZ_val in *. change BSIZE with 1024%nat in Hlen. pose proof (Z.mod_pos_bound off 1024 ltac:(lia)) as Hb. apply list_eq. intros k. unfold fbytes. rewrite list_lookup_fmap.
  destruct (decide (k < m)%nat) as [Hk|Hk].
  - rewrite sub_lookup, zrange_lookup by done. simpl. unfold fbyte. rewrite BSZ_val.
    assert (He : (off + Z.of_nat k) / 1024 = off / 1024 /\ (off + Z.of_nat k) mod 1024 = off mod 1024 + Z.of_nat k) by (Z.to_euclidean_division_equations; lia).
    destruct He as [-> ->]. rewrite list_lookup_lookup_total_lt by lia. do 2 f_equal. lia.
  - rewrite !lookup_ge_None_2; [done|rewrite zrange_length; lia|rewrite length_sub; lia].
Qed.

(** The rounds of a copy loop that is at [off] and ends at [last]. *)
Definition pieces (last off : Z) : nat := if off <? last then Z.to_nat ((last + BSZ - 1) / BSZ - off / BSZ) else 0.

Lemma pieces_rounds off n : 0 <= off -> 0 <= n -> (pieces (off + n) off < rw_rounds n)%nat.
Proof. intros Hoff Hn. unfold pieces, rw_rounds. rewrite BSZ_val. destruct (Z.ltb_spec off (off + n)); Z.to_euclidean_division_equations; lia. Qed.

Lemma pieces_step last off : 0 <= off -> off < last ->
  S (pieces last (off + Z.min (last - off) (BSZ - off mod BSZ))) = pieces last off.
Proof.
  intros Hoff Hlt. unfold pieces. rewrite BSZ_val. rewrite (proj2 (Z.ltb_lt off last)) by done.
  destruct (Z.ltb_spec (off + Z.min (last - off) (1024 - off mod 1024)) last); Z.to_euclidean_division_equations; lia.
Qed.

Section files.
Context `{Patience}.
Variables (me : nat) (d st nl out : Z).
Hypothesis Hd : 0 <= d < 2 ^ 32.
Hypothesis Hst : 0 <= st.
Hypothesis Hnl : 0 < nl /\ st + nl < 2 ^ 31.
Hypothesis Hnb : nl <= Z.of_nat NBUF.
Variable sb : superblock.
Hypothesis Hly : layout st nl sb.

Local Abbreviation in_log := (in_log st nl).
Local Abbreviation tx := (tx me d st nl out).
Local Abbreviation used := (used sb).
Local Abbreviation is_map := (is_map sb).
Local Abbreviation room := (room nl).
Local Abbreviation blk_ok := (blk_ok st nl sb).
Local Abbreviation ino_ok := (ino_ok d st nl sb).
Local Abbreviation fs_ok := (fs_ok st nl sb).
Local Abbreviation grown := (grown d st nl sb).

(** No block below the size of the file is missing. *)
Definition dense (V : Z -> list Z) (i : inode) : Prop := forall k, 0 <= k < isize i -> baddr V i (k / BSZ) <> 0.

Lemma length_fblock V i n : ino_ok V i -> 0 <= n < MAXFILE -> length (fblock V i n) = BSIZE.
Proof.
  intros Hi Hn. unfold fblock. destruct (Z.eqb_spec (baddr V i n) 0) as [|Hz]; [by rewrite length_replicate|].
  destruct (io_blk _ _ _ _ _ _ Hi n Hn Hz) as [Hb _]. apply Hb.
Qed.

(** *** [readi] *)

(** The bytes a read returns. *)
Definition readable (i : inode) (off n : Z) : Z := if (isize i <? off) || (2 ^ 32 <=? off + n) then 0 else Z.min n (isize i - off).

Lemma wraps off n : 0 <= off < 2 ^ 32 -> 0 <= n < 2 ^ 32 -> (u32 (off + n) <? off) = (2 ^ 32 <=? off + n).
Proof.
  intros Ho Hn. destruct (Z.leb_spec (2 ^ 32) (off + n)) as [Hw|Hw].
  - unfold wrap. apply Z.ltb_lt. Z.to_euclidean_division_equations; lia.
  - rewrite wrap_small by lia. apply Z.ltb_ge. lia.
Qed.

(** The copy loop of [readi]: [J] says what has become of the bytes read so far. *)
Section readi_rounds.
Variables (V F : Z -> list Z) (bl : list Z) (ip : nat) (i : inode) (dst : rdst) (off N : Z) (J : list Z -> kstate -> Prop).
Hypothesis Hi : ino_ok V i.
Hypothesis Hde : dense V i.
Hypothesis Hsz : isize i <= MAXFILE * BSZ.
Hypothesis HN : 0 <= off /\ 0 <= N /\ off + N <= isize i.
Hypothesis Jip : forall bs s, J bs s -> k_inodes s !!! ip = i.
Hypothesis Jkept : forall bs s s', J bs s -> kept s s' -> J bs s'.
Hypothesis Jput : forall bs xs s held, tx s held None bl V F -> J bs s -> Z.of_nat (length bs + length xs) <= N ->
  wp (put_dst dst (Z.of_nat (length bs)) xs) (fun r s' => r = 0 /\ tx s' held None bl V F /\ J (bs ++ xs) s' /\ k_bufs s' = k_bufs s) s.

Lemma read_round s t :
  tx s ∅ None bl V F -> J (fbytes V i off t) s -> Z.of_nat t < N ->
  let o := off + Z.of_nat t in let m := Z.min (N - Z.of_nat t) (BSZ - o mod BSZ) in
  wp (addr <- bmap ip (o / BSZ) ;;
      if addr =? 0 then ret (inr (s32 (Z.of_nat t), fbytes V i off t)) else
      ii <- get_ino ip ;;
      bp <- bread (idev ii) addr ;;
      bb <- get_buf bp ;;
      let bs := sub (Z.to_nat (o mod BSZ)) (Z.to_nat m) (bdata bb) in
      r <- put_dst dst (Z.of_nat t) bs ;;
      if r =? -1 then brelse bp ;; ret (inr (-1, fbytes V i off t))
      else brelse bp ;; ret (inl (Z.of_nat t + m, o + m, fbytes V i off t ++ bs)))
    (fun r s' => r = inl (Z.of_nat t + m, o + m, fbytes V i off (t + Z.to_nat m)) /\ tx s' ∅ None bl V F /\ J (fbytes V i off (t + Z.to_nat m)) s') s.
Proof.
  intros Ht HJ Hlt o m. assert (Ho : 0 <= o < isize i) by lia. assert (Hbn : 0 <= o / BSZ < MAXFILE).
  { clear - Ho Hsz. rewrite MAXFILE_val, BSZ_val in *. Z.to_euclidean_division_equations; lia. }
  pose proof (Z.mod_pos_bound o BSZ ltac:(rewrite BSZ_val; lia)) as Hmod. destruct (io_blk _ _ _ _ _ _ Hi _ Hbn (Hde _ Ho)) as [Hblk _].
  assert (Hbs : sub (Z.to_nat (o mod BSZ)) (Z.to_nat m) (V (baddr V i (o / BSZ))) = fbytes V i o (Z.to_nat m)).
  { rewrite <- sub_fblock by (lia || by apply length_fblock). unfold fblock. by rewrite (proj2 (Z.eqb_neq _ 0)) by (by apply Hde). }
  eapply wp_seq; [apply (bmap_hit me d st nl out Hnb sb s bl V F ip i (o / BSZ)); try done; [by eapply Jip|by apply Hde]|].
  intros a s2 (-> & Ht2 & Hk2). rewrite (proj2 (Z.eqb_neq _ 0)) by (by apply Hde). apply wp_bind, wp_gets.
  rewrite (kept_inodes _ _ Hk2), (Jip _ _ HJ), (io_dev _ _ _ _ _ _ Hi).
  eapply wp_seq; [apply (tx_bread me d st nl out _ _ _ _ _ _ (baddr V i (o / BSZ)) Ht2); [apply no_blocks|rewrite size_empty; pose proof (tx_few _ _ _ _ _ _ _ _ _ _ _ Ht2); lia]|].
  intros b s3 (Hb & Ht3 & Hh3 & Hs3 & Hk3). apply wp_bind, wp_gets. rewrite (tx_data me d st nl out _ _ _ _ _ _ _ _ Ht3 Hh3). cbv zeta. rewrite Hbs.
  pose proof (length_fbytes V i off t) as Hlf. pose proof (length_fbytes V i o (Z.to_nat m)) as Hlo.
  eapply wp_seq; [rewrite <- Hlf at 1; apply (Jput (fbytes V i off t) (fbytes V i o (Z.to_nat m)) s3 _ Ht3); [by eapply Jkept, kept_trans|lia]|].
  intros r s4 (-> & Ht4 & HJ4 & Hbf4). cbn [Z.eqb]. assert (Hh4 : holds s4 ({[b]} ∪ ∅) b (baddr V i (o / BSZ))) by (destruct Hh3; split; [done|by rewrite Hbf4]).
  eapply wp_seq; [apply (tx_brelse me d st nl out _ _ _ _ _ _ _ Ht4 Hh4); apply Hblk|].
  intros [] s5 (Ht5 & _ & Hk5). rewrite (drop_held b ∅ Hb) in Ht5. apply wp_ret. rewrite fbytes_app. split_and!; [done|done|by eapply Jkept].
Qed.

Lemma readi_loop s :
  tx s ∅ None bl V F -> J [] s ->
  wp (while_fuel OutOfFuel (rw_rounds N) (fun '(tot, off, acc) =>
    if negb (tot <? N) then ret (inr (s32 tot, acc)) else
    addr <- bmap ip (off / BSZ) ;;
    if addr =? 0 then ret (inr (s32 tot, acc)) else
    i <- get_ino ip ;;
    bp <- bread (idev i) addr ;;
    let m := Z.min (N - tot) (BSZ - off mod BSZ) in
    bb <- get_buf bp ;;
    let bs := sub (Z.to_nat (off mod BSZ)) (Z.to_nat m) (bdata bb) in
    r <- put_dst dst tot bs ;;
    if r =? -1 then brelse bp ;; ret (inr (-1, acc))
    else brelse bp ;; ret (inl (tot + m, off + m, acc ++ bs))) (0, off, []))
    (fun r s' => r = (N, fbytes V i off (Z.to_nat N)) /\ tx s' ∅ None bl V F /\ J (fbytes V i off (Z.to_nat N)) s') s.
Proof.
  intros Ht HJ. apply (wp_while OutOfFuel (fun x s' => exists t, x = (Z.of_nat t, off + Z.of_nat t, fbytes V i off t) /\ Z.of_nat t <= N /\
      tx s' ∅ None bl V F /\ J (fbytes V i off t) s') (fun x => pieces (off + N) (fst (fst x) + off))).
  - exists 0%nat. split_and!; [by rewrite Z.add_0_r|lia|done|done].
  - simpl. apply pieces_rounds; lia.
  - intros x s1 (t & -> & HtN & Ht1 & HJ1). cbv beta iota zeta. destruct (Z.ltb_spec (Z.of_nat t) N) as [Hlt|Hle]; cbn [negb].
    2: { apply wp_ret. assert (Z.of_nat t = N) as He by lia. rewrite MAXFILE_val, BSZ_val in Hsz. rewrite <- He, Nat2Z.id. split_and!; [|done|done].
         by rewrite swrap_small by lia. }
    pose proof (read_round s1 t Ht1 HJ1 Hlt) as Hrr. cbv zeta in Hrr. eapply wp_mono; [exact Hrr|]. clear Hrr. set (o := off + Z.of_nat t) in *. set (m := Z.min (N - Z.of_nat t) (BSZ - o mod BSZ)) in *.
    pose proof (Z.mod_pos_bound o BSZ ltac:(rewrite BSZ_val; lia)) as Hmod.
    intros r s2 (-> & Ht2 & HJ2). split; [exists (t + Z.to_nat m)%nat; split_and!; [|lia|done|done]|].
    + replace (Z.of_nat (t + Z.to_nat m)) with (Z.of_nat t + m) by lia. by rewrite Z.add_assoc.
    + pose proof (pieces_step (off + N) o ltac:(lia) ltac:(lia)) as Hp. replace (off + N - o) with (N - Z.of_nat t) in Hp by lia. fold m in Hp. cbn [fst].
      replace (Z.of_nat t + m + off) with (o + m) by lia. replace (Z.of_nat t + off) with o by lia. lia.
Qed.
End readi_rounds.

(** [readi] returns the bytes of the file from [off] on, as many as there are up to [n]. *)
Lemma readi_run s bl V F ip i dst off n (J : list Z -> kstate -> Prop) :
  tx s ∅ None bl V F -> ino_ok V i -> dense V i -> isize i <= MAXFILE * BSZ -> 0 <= off < 2 ^ 32 -> 0 <= n < 2 ^ 32 -> J [] s ->
  (forall bs s, J bs s -> k_inodes s !!! ip = i) -> (forall bs s s', J bs s -> kept s s' -> J bs s') ->
  (forall bs xs s held, tx s held None bl V F -> J bs s -> Z.of_nat (length bs + length xs) <= readable i off n ->
    wp (put_dst dst (Z.of_nat (length bs)) xs) (fun r s' => r = 0 /\ tx s' held None bl V F /\ J (bs ++ xs) s' /\ k_bufs s' = k_bufs s) s) ->
  wp (readi ip dst off n) (fun r s' => r = (readable i off n, fbytes V i off (Z.to_nat (readable i off n))) /\
    tx s' ∅ None bl V F /\ J (fbytes V i off (Z.to_nat (readable i off n))) s') s.
Proof.
  intros Ht Hi Hde Hsz Hoff Hn HJ Jip Jkept Jput. unfold readi. apply wp_bind, wp_gets. rewrite (Jip _ _ HJ), wraps by done. unfold readable in *.
  destruct (Z.ltb_spec (isize i) off) as [Hlt|Hge]; cbn [orb] in *; [apply wp_ret; by split_and!|].
  destruct (Z.leb_spec (2 ^ 32) (off + n)) as [Hw|Hw]; [apply wp_ret; by split_and!|]. rewrite (wrap_small 32 (off + n)) by lia.
  assert (He : (if isize i <? off + n then u32 (isize i - off) else n) = Z.min n (isize i - off)).
  { rewrite MAXFILE_val, BSZ_val in Hsz. destruct (Z.ltb_spec (isize i) (off + n)); [|lia]. rewrite wrap_small by lia. lia. }
  cbv zeta. rewrite He. apply (readi_loop V F bl ip i dst off (Z.min n (isize i - off)) J); (done || lia).
Qed.

Lemma readi_spec s bl V F ip i off n :
  tx s ∅ None bl V F -> k_inodes s !!! ip = i -> ino_ok V i -> dense V i -> isize i <= MAXFILE * BSZ ->
  0 <= off < 2 ^ 32 -> 0 <= n < 2 ^ 32 ->
  wp (readi ip RLocal off n) (fun r s' => r = (readable i off n, fbytes V i off (Z.to_nat (readable i off n))) /\
    tx s' ∅ None bl V F /\ kept s s') s.
Proof.
  intros Ht Hip Hi Hde Hsz Hoff Hn. apply (readi_run s bl V F ip i RLocal off n (fun _ s' => kept s s')); try done.
  - apply kept_refl.
  - intros bs s' Hk. by rewrite (kept_inodes _ _ Hk).
  - intros bs s1 s2. apply kept_trans.
Qed.

(** *** Changing a block of a file *)

Section fill.
Variables (V : Z -> list Z) (i : inode) (n : Z) (x : list Z).
Hypothesis Hi : ino_ok V i.
Hypothesis Hn : 0 <= n < MAXFILE.
Hypothesis Hz : baddr V i n <> 0.
Hypothesis Hx : length x = BSIZE.
Local Abbreviation V' := (vupd V (baddr V i n) x).

Lemma fill_blk_ok : blk_ok V (baddr V i n).
Proof. by apply (io_blk _ _ _ _ _ _ Hi). Qed.

Lemma fill_baddr m : baddr V' i m = baddr V i m.
Proof.
  unfold baddr at 1 3. destruct (m <? NDIRECT); [done|]. destruct (Z.eqb_spec (ind i) 0); [done|]. unfold vupd. rewrite decide_False; [done|].
  intros He. destruct (io_blk _ _ _ _ _ _ Hi n Hn Hz) as [_ Hne]. congruence.
Qed.

Lemma fill_used c : 0 <= c < sb_size sb -> used V' c = used V c.
Proof. apply used_vupd, fill_blk_ok. Qed.

Lemma fill_blk b : blk_ok V b -> blk_ok V' b.
Proof.
  intros [H1 H2 H3 H4 H5]. split; try done; [by rewrite fill_used by lia|]. unfold vupd. by case_decide.
Qed.

Lemma fill_ino : ino_ok V' i.
Proof.
  split.
  - apply Hi.
  - apply Hi.
  - intros Hzi. by apply fill_blk, Hi.
  - intros m Hm. rewrite fill_baddr. intros Hzm. destruct (io_blk _ _ _ _ _ _ Hi m Hm Hzm). split; [by apply fill_blk|done].
  - intros m m' Hm Hm'. rewrite !fill_baddr. by apply Hi.
Qed.

Lemma fill_fs : fs_ok V -> fs_ok V'.
Proof.
  intros [Hm Hf]. split; [by apply maps_ok_vupd, Hm; apply fill_blk_ok|]. intros c Hc. rewrite fill_used by done. by apply Hf.
Qed.

Lemma fill_boot : boot_used sb V -> boot_used sb V'.
Proof. unfold boot_used. rewrite fill_used; [done|]. pose proof (ly_size _ _ _ Hly). lia. Qed.

Lemma fill_avail k : avail sb V k -> avail sb V' k.
Proof.
  intros (l & Hnd & Hl & Hc). exists l. split_and!; [done|done|]. intros c Hin. destruct (Hc c Hin) as [Hr Hu]. split; [done|]. clear Hx. rewrite fill_used by lia. done.
Qed.

Lemma fill_fblock m : 0 <= m < MAXFILE -> fblock V' i m = if m =? n then x else fblock V i m.
Proof.
  intros Hm. unfold fblock. rewrite fill_baddr. destruct (Z.eqb_spec m n) as [->|Hne].
  - rewrite (proj2 (Z.eqb_neq _ 0)) by done. unfold vupd. by rewrite decide_True.
  - destruct (Z.eqb_spec (baddr V i m) 0) as [|Hzm]; [done|]. unfold vupd. rewrite decide_False; [done|]. intros He. apply Hne. by apply (io_inj _ _ _ _ _ _ Hi).
Qed.
End fill.

(** *** A file some bytes of which have been written *)

(** [V'] and [i'] are the blocks and the inode after [bs] has been written at [off]; besides the blocks of
    the file and the bit map, only blocks in [P] have changed. *)
Record written (P : Z -> Prop) (V : Z -> list Z) (i : inode) (V' : Z -> list Z) (i' : inode) (off : Z) (bs : list Z) : Prop := {
  wr_ino : ino_ok V' i';
  wr_fs : fs_ok V';
  wr_boot : boot_used sb V';
  wr_byte : forall k, 0 <= k < MAXFILE * BSZ ->
    fbyte V' i' k = if (off <=? k) && (k <? off + Z.of_nat (length bs)) then bs !!! Z.to_nat (k - off) else fbyte V i k;
  wr_keep : forall m, 0 <= m < MAXFILE -> baddr V i m <> 0 -> baddr V' i' m = baddr V i m;
  wr_there : forall k, off <= k < off + Z.of_nat (length bs) -> baddr V' i' (k / BSZ) <> 0;
  wr_meta : i' = set_iaddrs (iaddrs i') (set_isize (isize i') i);
  wr_others : others st nl sb V V' (fun b => b = ind i \/ P b \/ exists m, 0 <= m < MAXFILE /\ b = baddr V i m);
  wr_used : forall c, 0 <= c < sb_size sb -> used V c = true -> used V' c = true;
  wr_ind : ind i' = ind i \/ (0 < ind i' < sb_size sb /\ used V (ind i') = false);
  wr_new : forall m, 0 <= m < MAXFILE -> baddr V' i' m = baddr V i m \/ (0 < baddr V' i' m < sb_size sb /\ used V (baddr V' i' m) = false)
}.

Lemma written_nil P V i off : ino_ok V i -> fs_ok V -> boot_used sb V -> written P V i V i off [].
Proof.
  intros Hi Hf Hb. split; try done; simpl.
  - intros k Hk. destruct (Z.leb_spec off k), (Z.ltb_spec k (off + Z.of_nat 0)); (done || lia).
  - intros k Hk. lia.
  - by destruct i.
  - by left.
  - by left.
Qed.

Lemma splice_total q ys x p : (q + length ys <= length x)%nat ->
  splice q ys x !!! p = if bool_decide (q <= p < q + length ys)%nat then ys !!! (p - q)%nat else x !!! p.
Proof.
  intros Hl. rewrite !list_lookup_total_alt, splice_lookup by done. do 2 case_decide; rewrite ?bool_decide_true, ?bool_decide_false by lia; try done.
Qed.

Section step.
Variables (P : Z -> Prop) (V : Z -> list Z) (i : inode) (V1 : Z -> list Z) (i1 : inode) (off : Z) (bs : list Z) (V2 : Z -> list Z) (i2 : inode) (ys : list Z).
Hypothesis Hw : written P V i V1 i1 off bs.
Hypothesis Hg : grown V1 i1 V2 i2.
Local Abbreviation o := (off + Z.of_nat (length bs)).
Hypothesis Hoff : 0 <= off.
Hypothesis Hlen : Z.of_nat (length ys) <= BSZ - o mod BSZ.
Hypothesis Hend : o < MAXFILE * BSZ.
Hypothesis Hz : baddr V2 i2 (o / BSZ) <> 0.
Local Abbreviation V3 := (vupd V2 (baddr V2 i2 (o / BSZ)) (splice (Z.to_nat (o mod BSZ)) ys (V2 (baddr V2 i2 (o / BSZ))))).

Lemma step_blockno : 0 <= o / BSZ < MAXFILE.
Proof. clear - Hoff Hend. rewrite BSZ_val, MAXFILE_val in *. Z.to_euclidean_division_equations; lia. Qed.

Lemma step_fits : (Z.to_nat (o mod BSZ) + length ys <= length (V2 (baddr V2 i2 (o / BSZ))))%nat.
Proof.
  destruct (io_blk _ _ _ _ _ _ (gr_ino _ _ _ _ _ _ _ _ Hg) _ step_blockno Hz) as [[_ _ _ _ Hl] _]. rewrite Hl. pose proof BSZ_val as HB. rewrite HB in *.
  change BSIZE with 1024%nat. pose proof (Z.mod_pos_bound o 1024 ltac:(lia)). lia.
Qed.

Lemma step_len : length (splice (Z.to_nat (o mod BSZ)) ys (V2 (baddr V2 i2 (o / BSZ)))) = BSIZE.
Proof.
  rewrite length_splice by apply step_fits.
  by destruct (io_blk _ _ _ _ _ _ (gr_ino _ _ _ _ _ _ _ _ Hg) _ step_blockno Hz) as [[_ _ _ _ Hl] _].
Qed.

Lemma step_byte k : 0 <= k < MAXFILE * BSZ ->
  fbyte V3 i2 k = if (off <=? k) && (k <? off + Z.of_nat (length (bs ++ ys))) then (bs ++ ys) !!! Z.to_nat (k - off) else fbyte V i k.
Proof.
  intros Hk. assert (Hkb : 0 <= k / BSZ < MAXFILE) by (rewrite BSZ_val, MAXFILE_val in *; Z.to_euclidean_division_equations; lia).
  assert (Hold : fbyte V2 i2 k = fbyte V1 i1 k) by (unfold fbyte; by rewrite (gr_same _ _ _ _ _ _ _ _ Hg)).
  assert (Hin : fbyte V3 i2 k = if (o <=? k) && (k <? o + Z.of_nat (length ys)) then ys !!! Z.to_nat (k - o) else fbyte V2 i2 k).
  { unfold fbyte at 1. rewrite (fill_fblock V2 i2 _ _ (gr_ino _ _ _ _ _ _ _ _ Hg) step_blockno Hz _ Hkb).
    pose proof BSZ_val as HB. pose proof (Z.mod_pos_bound k BSZ ltac:(lia)). pose proof (Z.mod_pos_bound o BSZ ltac:(lia)).
    pose proof (Z.div_mod k BSZ ltac:(lia)). pose proof (Z.div_mod o BSZ ltac:(lia)). destruct (Z.eqb_spec (k / BSZ) (o / BSZ)) as [He|Hne].
    - rewrite splice_total by apply step_fits. destruct (Z.leb_spec o k), (Z.ltb_spec k (o + Z.of_nat (length ys))); cbn [andb].
      + rewrite bool_decide_true by nia. f_equal. nia.
      + rewrite bool_decide_false by nia. unfold fbyte, fblock. by rewrite He, (proj2 (Z.eqb_neq _ 0) Hz).
      + rewrite bool_decide_false by nia. unfold fbyte, fblock. by rewrite He, (proj2 (Z.eqb_neq _ 0) Hz).
      + rewrite bool_decide_false by nia. unfold fbyte, fblock. by rewrite He, (proj2 (Z.eqb_neq _ 0) Hz).
    - destruct (Z.leb_spec o k), (Z.ltb_spec k (o + Z.of_nat (length ys))); cbn [andb]; try done. exfalso. apply Hne. nia. }
  rewrite Hin, Hold, (wr_byte _ _ _ _ _ _ _ Hw) by done. rewrite length_app.
  destruct (Z.leb_spec o k), (Z.ltb_spec k (o + Z.of_nat (length ys))), (Z.leb_spec off k), (Z.ltb_spec k o),
    (Z.ltb_spec k (off + Z.of_nat (length bs + length ys))); cbn [andb]; try done; try lia.
  - rewrite lookup_total_app_r by lia. f_equal. lia.
  - rewrite lookup_total_app_l by lia. done.
Qed.

Lemma written_step : written P V i V3 i2 off (bs ++ ys).
Proof.
  pose proof (gr_ino _ _ _ _ _ _ _ _ Hg) as Hi2. pose proof step_blockno as Hbn. pose proof step_len as Hsl.
  assert (Hu : forall c, 0 <= c < sb_size sb -> used V c = true -> used V2 c = true) by (intros c Hc Hc2; by apply (gr_used _ _ _ _ _ _ _ _ Hg), (wr_used _ _ _ _ _ _ _ Hw)).
  assert (Hnu : forall c, 0 < c < sb_size sb -> used V1 c = false -> used V c = false).
  { intros c Hc Hc2. destruct (used V c) eqn:E; [|done]. rewrite (wr_used _ _ _ _ _ _ _ Hw) in Hc2 by (done || lia). done. }
  assert (Hnew : forall m, 0 <= m < MAXFILE -> baddr V2 i2 m = baddr V i m \/ (0 < baddr V2 i2 m < sb_size sb /\ used V (baddr V2 i2 m) = false)).
  { intros m Hm. destruct (gr_new _ _ _ _ _ _ _ _ Hg m Hm) as [->|[Hr Hf]]; [by apply Hw|right; split; [done|by apply Hnu]]. }
  split.
  - by apply fill_ino.
  - apply fill_fs; try done. apply Hg.
  - apply fill_boot; try done. apply Hg.
  - apply step_byte.
  - intros m Hm Hzm. rewrite fill_baddr by done. pose proof (wr_keep _ _ _ _ _ _ _ Hw m Hm Hzm) as Hk. rewrite (gr_keep _ _ _ _ _ _ _ _ Hg), Hk by (done || by rewrite Hk). done.
  - intros k Hk. rewrite fill_baddr by done. rewrite length_app in Hk. destruct (decide (k < o)) as [Hlt|Hge].
    + pose proof (wr_there _ _ _ _ _ _ _ Hw k ltac:(lia)) as Ht. rewrite (gr_keep _ _ _ _ _ _ _ _ Hg); [done| |done].
      clear - Hoff Hlt Hk Hend. rewrite BSZ_val, MAXFILE_val in *. Z.to_euclidean_division_equations; lia.
    + replace (k / BSZ) with (o / BSZ); [done|]. clear - Hoff Hge Hk Hlen. rewrite BSZ_val in *. Z.to_euclidean_division_equations; lia.
  - pose proof (gr_meta _ _ _ _ _ _ _ _ Hg) as H2. pose proof (wr_meta _ _ _ _ _ _ _ Hw) as H1. rewrite H2 at 1. rewrite H1 at 1. rewrite H2. done.
  - intros b Hlg Hm Hub Hown. assert (Hb2 : V2 b = V b).
    { rewrite (gr_others _ _ _ _ _ _ _ _ Hg); [by apply Hw|done|done|intros Hb; by apply Hw, Hub|]. intros ->. destruct (wr_ind _ _ _ _ _ _ _ Hw) as [He|[Hr Hf]]; [apply Hown; by left|].
      rewrite Hub in Hf by lia. done. }
    unfold vupd. rewrite decide_False; [done|]. intros <-. destruct (Hnew _ Hbn) as [He|[Hr Hf]]; [apply Hown; right; right; by eexists|].
    rewrite Hub in Hf by lia. done.
  - intros c Hc Huc. rewrite fill_used by done. by apply Hu.
  - destruct (gr_ind _ _ _ _ _ _ _ _ Hg) as [->|(_ & Hr & Hf)]; [apply Hw|right; split; [done|by apply Hnu]].
  - intros m Hm. rewrite fill_baddr by done. by apply Hnew.
Qed.
End step.

(** *** [iupdate] *)

(** The inode in its place in the block. *)
Definition put_dinode (o : nat) (i : inode) (x : list Z) : list Z :=
  splice (o + 12) (mjoin (le_bytes 4 <$> iaddrs i)) (wr32 (o + 8) (isize i) (wr16 (o + 6) (inlink i)
    (wr16 (o + 4) (iminor i) (wr16 (o + 2) (imajor i) (wr16 o (itype i) x))))).

Lemma alter_twice {A} (f g : A -> A) (k : nat) (l : list A) : alter (g ∘ f) k l = alter g k (alter f k l).
Proof. revert k. induction l as [|x l IH]; intros [|k]; simpl; [done..|]. f_equal. apply IH. Qed.

Lemma upd_data_twice {A} b f g (k : K A) Q s :
  wp (upd_data b (fun x => g (f x)) ;; k) Q s -> wp (upd_data b f ;; upd_data b g ;; k) Q s.
Proof.
  intros Hw. apply wp_bind, wp_modify, wp_bind, wp_modify. apply wp_bind_inv in Hw.
  change (wp k Q (set_k_bufs (alter ((fun bb => set_bdata (g (bdata bb)) bb) ∘ (fun bb => set_bdata (f (bdata bb)) bb)) b (k_bufs s)) s)) in Hw.
  by rewrite alter_twice in Hw.
Qed.

Lemma iupdate_spec s bl V F ip i ib :
  1 <= out -> k_sb s = sb -> tx s ∅ None bl V F -> k_inodes s !!! ip = i -> idev i = d -> IBLOCK (State.inum i) sb = ib -> int ib -> ~ in_log ib -> room bl ∅ 1 ->
  wp (iupdate ip) (fun _ s' => tx s' ∅ None (log_add ib bl) (vupd V ib (put_dinode (dinode_off (State.inum i)) i (V ib))) F /\ kept s s') s.
Proof.
  intros Hout Hsb Ht Hip Hdv Hib Hint Hnin Hr. unfold iupdate. apply wp_bind, wp_gets. apply wp_bind, wp_gets. rewrite Hip, Hsb, Hdv, Hib.
  eapply wp_seq; [apply (tx_bread me d st nl out _ _ _ _ _ _ ib Ht); [apply no_blocks|by apply (room_fits nl)]|].
  intros b s1 (Hb & Ht1 & Hh1 & Hs1 & Hk1). apply wp_bind, wp_gets. rewrite (kept_inodes _ _ Hk1), Hip. cbv zeta.
  do 5 apply upd_data_twice. eapply wp_seq; [by apply (tx_upd_data me d st nl out Hnl _ _ _ _ _ _ _ _ _ Ht1 Hh1); [left|]|].
  intros [] s2 (Ht2 & Hs2 & Hk2). assert (Hh2 : holds s2 ({[b]} ∪ ∅) b ib) by (eapply holds_same; [exact Hh1|exact Hs2|apply Hh1]).
  assert (Hs02 : same_blocks s s2 ∅) by (by intros c Hc%not_elem_of_empty). pose proof (kept_trans _ _ _ Hk1 Hk2) as Hk02.
  eapply wp_mono; [exact (tx_finish me d st nl out Hd Hst Hnl Hnb Hout sb Hly s s2 ∅ (Some ib) bl _ F b ib Ht2 Hh2 (or_intror eq_refl) Hint Hnin Hr Hb Hs02 Hk02)|].
  intros [] s3 (Ht3 & _ & Hk3). split; [exact Ht3|exact Hk3].
Qed.

(** *** [writei] *)

(** The block of the inode is a block like those of files, but of no file. *)
Definition inode_block (V : Z -> list Z) (i : inode) (ib : Z) : Prop :=
  IBLOCK (State.inum i) sb = ib /\ blk_ok V ib /\ ib <> ind i /\ forall m, 0 <= m < MAXFILE -> ib <> baddr V i m.

Local Abbreviation intact := (fun _ : Z => False).

Lemma written_ib ib V i V1 i1 off bs : written intact V i V1 i1 off bs -> inode_block V i ib -> inode_block V1 i1 ib /\ V1 ib = V ib.
Proof.
  intros Hw (HI & Hb & Hni & Hnbl). pose proof Hb as [H1 H2 H3 H4 H5].
  assert (He : V1 ib = V ib).
  { apply (wr_others _ _ _ _ _ _ _ Hw); [done|done|done|]. intros [|[|(m & Hm & ->)]]; [done|done|]. by apply (Hnbl m). }
  split; [|done]. split_and!.
  - by rewrite (wr_meta _ _ _ _ _ _ _ Hw).
  - split; try done; [apply (wr_used _ _ _ _ _ _ _ Hw); [lia|done]|by rewrite He].
  - intros ->. destruct (wr_ind _ _ _ _ _ _ _ Hw) as [|[Hr Hf]]; congruence.
  - intros m Hm ->. destruct (wr_new _ _ _ _ _ _ _ Hw m Hm) as [Hs|[Hr Hf]]; [|congruence]. by apply (Hnbl m).
Qed.

(** The file with the new size, its inode written. *)
Section finish.
Variables (V : Z -> list Z) (i : inode) (V1 : Z -> list Z) (i1 : inode) (off : Z) (bs : list Z) (ib z : Z) (x : list Z).
Hypothesis Hw : written intact V i V1 i1 off bs.
Hypothesis Hib : inode_block V i ib.
Hypothesis Hx : length x = BSIZE.
Local Abbreviation V2 := (vupd V1 ib x).
Local Abbreviation i2 := (set_isize z i1).

Lemma finish_baddr m : baddr V2 i2 m = baddr V1 i1 m.
Proof.
  destruct (written_ib _ _ _ _ _ _ _ Hw Hib) as [(_ & _ & Hni & _) _]. unfold baddr. change (addr_at i2) with (addr_at i1). change (ind i2) with (ind i1).
  destruct (m <? NDIRECT); [done|]. destruct (Z.eqb_spec (ind i1) 0); [done|]. unfold vupd. by rewrite decide_False by congruence.
Qed.

Lemma finish_used c : 0 <= c < sb_size sb -> used V2 c = used V1 c.
Proof. destruct Hib as (_ & Hb & _). apply used_vupd, Hb. Qed.

Lemma finish_avail k : avail sb V1 k -> avail sb V2 k.
Proof.
  intros (l & Hnd & Hl & Hc). exists l. split_and!; [done|done|]. intros c Hin. destruct (Hc c Hin) as [Hr Hu]. split; [done|]. rewrite finish_used by lia. done.
Qed.

Lemma finish_blk b : blk_ok V1 b -> blk_ok V2 b.
Proof. intros [H1 H2 H3 H4 H5]. split; try done; [by rewrite finish_used by lia|]. unfold vupd. by case_decide. Qed.

Lemma finish_fblock m : 0 <= m < MAXFILE -> fblock V2 i2 m = fblock V1 i1 m.
Proof.
  intros Hm. destruct (written_ib _ _ _ _ _ _ _ Hw Hib) as [(_ & _ & _ & Hnbl) _]. unfold fblock. rewrite finish_baddr.
  destruct (baddr V1 i1 m =? 0); [done|]. unfold vupd. rewrite decide_False; [done|]. by apply Hnbl.
Qed.

Lemma written_finish : written (eq ib) V i V2 i2 off bs.
Proof.
  pose proof (wr_ino _ _ _ _ _ _ _ Hw) as Hi1. split.
  - split; [apply Hi1|apply Hi1|intros Hz; by apply finish_blk, Hi1| |].
    + intros m Hm. rewrite finish_baddr. intros Hz. destruct (io_blk _ _ _ _ _ _ Hi1 m Hm Hz). split; [by apply finish_blk|done].
    + intros m m' Hm Hm'. rewrite !finish_baddr. by apply Hi1.
  - destruct (wr_fs _ _ _ _ _ _ _ Hw) as [Hm Hf]. split; [apply maps_ok_vupd; [apply Hib|done]|]. intros c Hc. rewrite finish_used by done. by apply Hf.
  - unfold boot_used. rewrite finish_used by (pose proof (ly_size _ _ _ Hly); lia). apply Hw.
  - intros k Hk. rewrite <- (wr_byte _ _ _ _ _ _ _ Hw) by done. unfold fbyte. rewrite finish_fblock; [done|].
    rewrite BSZ_val, MAXFILE_val in *. Z.to_euclidean_division_equations; lia.
  - intros m Hm. rewrite finish_baddr. by apply Hw.
  - intros k Hk. rewrite finish_baddr. by apply Hw.
  - simpl. rewrite (wr_meta _ _ _ _ _ _ _ Hw). done.
  - intros b Hlg Hm Hu Hown. unfold vupd. rewrite decide_False by (intros ->; apply Hown; by right; left). apply Hw; [done|done|done|].
    intros [|[|]]; [apply Hown; by left|done|apply Hown; by right; right].
  - intros c Hc Hu. rewrite finish_used by done. by apply Hw.
  - apply Hw.
  - intros m Hm. rewrite finish_baddr. by apply Hw.
Qed.
End finish.

Hypothesis Hout : 1 <= out.

(** The state of the copy loop of [writei] after [t] bytes. *)
Definition writing (kf : nat) (s : kstate) (ip : nat) (V F : Z -> list Z) (i : inode) (off : Z) (bs : list Z) (t : nat) (s' : kstate) : Prop :=
  exists V1 i1 bl1, tx s' ∅ None bl1 V1 F /\ kept (with_ino ip i1 s) s' /\ written intact V i V1 i1 off (take t bs) /\ isize i1 = isize i /\
    avail sb V1 (kf + 2 * pieces (off + Z.of_nat (length bs)) (off + Z.of_nat t)) /\
    room bl1 ∅ (6 * Z.of_nat (pieces (off + Z.of_nat (length bs)) (off + Z.of_nat t)) + 1).

(** The bytes [src] stands for, whatever happens to the buffers and the inode meanwhile. *)
Definition supplies (ip : nat) (src : wsrc) (bs : list Z) (s : kstate) : Prop :=
  forall i s' t m, kept (with_ino ip i s) s' -> (exists held x bl V F, tx s' held x bl V F) -> (t + m <= length bs)%nat -> 
    exists s'', (s'' = s' \/ s'' = settle s') /\ get_src src (Z.of_nat t) m s' = Ok (0, sub t m bs) s''.

Lemma supplies_local ip bs s : supplies ip (WLocal bs) bs s.
Proof. intros i s' t m _ _ _. exists s'. split; [by left|]. simpl. by rewrite Nat2Z.id. Qed.

(** One round of the loop. *)
Definition write_round (ip : nat) (src : wsrc) (bs : list Z) (t : nat) (off : Z) : K (Z * Z + Z * Z) :=
  addr <- bmap ip (off / BSZ) ;;
  if addr =? 0 then ret (inr (Z.of_nat t, off)) else
  i <- get_ino ip ;;
  bp <- bread (idev i) addr ;;
  let m := Z.min (Z.of_nat (length bs) - Z.of_nat t) (BSZ - off mod BSZ) in
  let! (r, bs) := get_src src (Z.of_nat t) (Z.to_nat m) in
  upd_data bp (splice (Z.to_nat (off mod BSZ)) bs) ;;
  if r =? -1 then
    brelse bp ;;
    ret (inr (Z.of_nat t, off))
  else
    log_write bp ;;
    brelse bp ;;
    ret (inl (Z.of_nat t + m, off + m)).

Lemma write_round_spec kf s s1 ip src V F i off bs t :
  supplies ip src bs s ->
  k_sb s = sb -> (ip < length (k_inodes s))%nat -> 0 <= off -> off + Z.of_nat (length bs) <= MAXFILE * BSZ -> (t < length bs)%nat ->
  writing kf s ip V F i off bs t s1 ->
  wp (write_round ip src bs t (off + Z.of_nat t)) (fun r s2 => exists m, (0 < m)%nat /\ (t + m <= length bs)%nat /\
    r = inl (Z.of_nat (t + m), off + Z.of_nat (t + m)) /\ writing kf s ip V F i off bs (t + m) s2 /\
    S (pieces (off + Z.of_nat (length bs)) (off + Z.of_nat (t + m))) = pieces (off + Z.of_nat (length bs)) (off + Z.of_nat t)) s1.
Proof.
  intros Hsrc Hsb Hlt Hoff Hend Htn (V1 & i1 & bl1 & Ht1 & Hk1 & Hw & Hsz & Hav & Hr). set (L := off + Z.of_nat (length bs)) in *.
  set (o := off + Z.of_nat t) in *. pose proof (pieces_step L o ltac:(lia) ltac:(lia)) as Hp. set (m := Z.min (L - o) (BSZ - o mod BSZ)) in *.
  pose proof (Z.mod_pos_bound o BSZ ltac:(rewrite BSZ_val; lia)) as Hmod. assert (Hm : 0 < m /\ m <= L - o) by lia.
  pose proof (kept_inodes _ _ Hk1) as Hin. simpl in Hin.
  assert (Hip1 : k_inodes s1 !!! ip = i1) by (rewrite Hin; by apply list_lookup_total_insert_eq).
  assert (Hl1 : (ip < length (k_inodes s1))%nat) by (by rewrite Hin, length_insert).
  assert (Hbn : 0 <= o / BSZ < MAXFILE) by (clear - Hoff Hend Htn; subst L o; rewrite BSZ_val, MAXFILE_val in *; Z.to_euclidean_division_equations; lia).
  pose proof (wr_ino _ _ _ _ _ _ _ Hw) as Hi1. rewrite <- Hp in Hav, Hr. unfold write_round.
  eapply wp_seq; [apply (bmap_spec me d st nl out Hd Hst Hnl Hnb sb Hly Hout s1 bl1 V1 F ip i1 (o / BSZ) (kf + 2 * pieces L (o + m)) (6 * Z.of_nat (pieces L (o + m)) + 2));
    [by rewrite (kept_sb _ _ Hk1)|exact Ht1|done|done|done|apply Hw|apply Hw|done|eapply (avail_le sb); [exact Hav|lia]|eapply room_le; [exact Hr|lia]|lia]|].
  intros a s2 (V2 & i2 & Ha & Hbad & (bl2 & Ht2 & Hk2 & Hg & Hav2 & Hr2)). rewrite (proj2 (Z.eqb_neq a 0)) by done.
  pose proof (kept_inodes _ _ Hk2) as Hin2. simpl in Hin2. pose proof (gr_ino _ _ _ _ _ _ _ _ Hg) as Hi2.
  apply wp_bind, wp_gets. rewrite Hin2, list_lookup_total_insert_eq, (io_dev _ _ _ _ _ _ Hi2) by done.
  assert (Hz : baddr V2 i2 (o / BSZ) <> 0) by congruence. destruct (io_blk _ _ _ _ _ _ Hi2 _ Hbn Hz) as [Hblk _]. rewrite <- Hbad in Hblk.
  assert (Hk02 : kept (with_ino ip i2 s) s2).
  { apply (kept_trans _ (with_ino ip i2 s1)); [|exact Hk2]. rewrite <- (with_ino_twice s ip i2 i1). by apply kept_with_ino. }
  eapply wp_seq; [apply (tx_bread me d st nl out _ _ _ _ _ _ a Ht2); [apply no_blocks|apply (room_fits nl); eapply room_le; [exact Hr2|lia]]|].
  intros b s3 (Hb & Ht3 & Hh3 & Hs3 & Hk3). cbv zeta. replace (Z.of_nat (length bs) - Z.of_nat t) with (L - o) by lia. fold m.
  destruct (Hsrc i2 s3 t (Z.to_nat m) ltac:(by eapply kept_trans) ltac:(eauto 8) ltac:(lia)) as (s3' & Hs3' & Hget). apply wp_bind. eapply wp_ok; [exact Hget|]. clear Hget.
  assert (tx s3' ({[b]} ∪ ∅) None bl2 V2 F /\ holds s3' ({[b]} ∪ ∅) b a /\ kept s2 s3') as (Ht3' & Hh3' & Hk3').
  { destruct Hs3' as [->| ->]; [done|]. split_and!; [by apply tx_settle|exact Hh3|eapply kept_trans; [exact Hk3|apply kept_settle]]. }
  clear s3 Ht3 Hh3 Hs3 Hk3 Hs3'. rename s3' into s3, Ht3' into Ht3, Hh3' into Hh3, Hk3' into Hk3.
  eapply wp_seq; [apply (tx_upd_data me d st nl out Hnl _ _ _ _ _ _ _ _ (splice (Z.to_nat (o mod BSZ)) (sub t (Z.to_nat m) bs)) Ht3 Hh3); [by left|apply Hblk]|].
  intros [] s4 (Ht4 & Hs4 & Hk4). cbn [Z.eqb]. assert (Hh4 : holds s4 ({[b]} ∪ ∅) b a) by (eapply holds_same; [exact Hh3|exact Hs4|apply Hh3]).
  assert (Hs24 : same_blocks s2 s4 ∅) by (by intros c Hc%not_elem_of_empty).
  apply (wp_finish me d st nl out Hd Hst Hnl Hnb Hout sb Hly s2 s4 ∅ (Some a) bl2 _ F b a _ _ Ht4 Hh4 (or_intror eq_refl) (blk_int st nl sb Hly _ _ Hblk)
    (bk_log _ _ _ _ _ Hblk) ltac:(eapply room_le; [exact Hr2|lia]) Hb Hs24 (kept_trans _ _ _ Hk3 Hk4)).
  intros s6 Ht6 _ Hk6. apply wp_ret.
  exists (Z.to_nat m). replace (off + Z.of_nat (t + Z.to_nat m)) with (o + m) by lia.
  split_and!; [lia|lia|do 3 f_equal; lia| |done]. exists (vupd V2 a (splice (Z.to_nat (o mod BSZ)) (sub t (Z.to_nat m) bs) (V2 a))), i2.
  eexists. split_and!; [exact Ht6| | | | |].
  - by apply (kept_trans _ s2).
  - replace (take (t + Z.to_nat m) bs) with (take t bs ++ sub t (Z.to_nat m) bs) by (unfold sub; by rewrite take_take_drop).
    assert (Hlt' : off + Z.of_nat (length (take t bs)) = o) by (rewrite length_take; lia).
    assert (Hls : length (sub t (Z.to_nat m) bs) = Z.to_nat m) by (apply length_sub; lia).
    pose proof (written_step intact V i V1 i1 off (take t bs) V2 i2 (sub t (Z.to_nat m) bs) Hw Hg) as Hstep. rewrite Hlt', Hls, <- Hbad in Hstep.
    apply Hstep; try done; lia.
  - rewrite (gr_meta _ _ _ _ _ _ _ _ Hg). done.
  - replace (off + Z.of_nat (t + Z.to_nat m)) with (o + m) by lia. fold L. rewrite Hbad. apply (fill_avail V2 i2); try done.
  - replace (off + Z.of_nat (t + Z.to_nat m)) with (o + m) by lia. fold L. eapply room_le; [apply room_add; exact Hr2|lia].
Qed.

Lemma dinode_fits n : (dinode_off n + 64 <= 1024)%nat.
Proof.
  unfold dinode_off, IPB, sizeof_dinode. rewrite BSZ_val. change (1024 / 64) with 16. pose proof (Z.mod_pos_bound n 16 ltac:(lia)). lia.
Qed.

Lemma length_addrs (l : list Z) : length (mjoin (le_bytes 4 <$> l)) = (4 * length l)%nat.
Proof. induction l as [|a l IH]; [done|]. rewrite fmap_cons. change (mjoin (?x :: ?y)) with (x ++ mjoin y). rewrite length_app, IH, length_le_bytes. simpl. lia. Qed.

Lemma length_put_dinode n i x : length (iaddrs i) = 13%nat -> length x = BSIZE -> length (put_dinode (dinode_off n) i x) = BSIZE.
Proof.
  intros Hl Hx. pose proof (dinode_fits n) as Hf. change BSIZE with 1024%nat in *. unfold put_dinode.
  assert (Hwr : forall k o v y, length y = 1024%nat -> (o + k <= 1024)%nat -> length (wr k o v y) = 1024%nat) by (intros k o v y Hy Ho; rewrite length_wr; lia).
  set (y := wr32 _ _ _). assert (Hy : length y = 1024%nat) by (unfold y; repeat (apply Hwr; [|lia]); done).
  rewrite length_splice; [done|]. rewrite length_addrs, Hl, Hy. lia.
Qed.

(** The inode is what [ilock] reads from its place in block [ib]. *)
Record stored (F : Z -> list Z) (i : inode) (ib : Z) : Prop := {
  so_type : di_type (dinode_off (State.inum i)) (F ib) = itype i;
  so_major : di_major (dinode_off (State.inum i)) (F ib) = imajor i;
  so_minor : di_minor (dinode_off (State.inum i)) (F ib) = iminor i;
  so_nlink : di_nlink (dinode_off (State.inum i)) (F ib) = inlink i;
  so_size : di_size (dinode_off (State.inum i)) (F ib) = isize i;
  so_addrs : di_addrs (dinode_off (State.inum i)) (F ib) = iaddrs i
}.

(** Of block [ib] only the place of inode [i] has changed. *)
Definition beside (ib : Z) (V : Z -> list Z) (i : inode) (V' : Z -> list Z) : Prop :=
  forall k, (k < dinode_off (State.inum i) \/ dinode_off (State.inum i) + 64 <= k)%nat -> V' ib !! k = V ib !! k.

(** That, and if the inode was stored there, the new one is. *)
Definition recorded (ib : Z) (V : Z -> list Z) (i : inode) (V' : Z -> list Z) (i' : inode) : Prop :=
  beside ib V i V' /\ State.inum i' = State.inum i /\ (stored V i ib -> stored V' i' ib).

Lemma recorded_refl ib V i : recorded ib V i V i.
Proof. by split_and!. Qed.

Lemma recorded_trans ib V i V1 i1 V2 i2 : recorded ib V i V1 i1 -> recorded ib V1 i1 V2 i2 -> recorded ib V i V2 i2.
Proof. intros (A1 & B1 & C1) (A2 & B2 & C2). split_and!; [|congruence|auto]. intros k Hk. rewrite A2 by (by rewrite B1). by apply A1. Qed.

(** [struct dinode] as bytes. *)
Definition dinode_bytes (i : inode) : list Z :=
  le_bytes 2 (itype i) ++ le_bytes 2 (imajor i) ++ le_bytes 2 (iminor i) ++ le_bytes 2 (inlink i) ++ le_bytes 4 (isize i) ++ mjoin (le_bytes 4 <$> iaddrs i).

Section put.
Variables (n : Z) (i : inode) (x : list Z).
Hypothesis Hx : length x = BSIZE.
Hypothesis Hl : length (iaddrs i) = 13%nat.
Local Abbreviation o := (dinode_off n).

Lemma length_dinode_bytes : length (dinode_bytes i) = 64%nat.
Proof. unfold dinode_bytes. rewrite !length_app, length_addrs, Hl, !length_le_bytes. done. Qed.

Lemma put_dinode_splice : put_dinode o i x = splice o (dinode_bytes i) x.
Proof.
  pose proof (dinode_fits n) as Hf. change BSIZE with 1024%nat in Hx. unfold put_dinode, wr, dinode_bytes.
  assert (Happ : forall k xs v m, (o + k + m <= 1024)%nat -> length xs = k -> length v = m -> splice (o + k) v (splice o xs x) = splice o (xs ++ v) x).
  { intros k xs v m Hk <- <-. apply splice_app. lia. }
  rewrite !app_assoc.
  rewrite (Happ 2%nat _ _ 2%nat), (Happ 4%nat _ _ 2%nat), (Happ 6%nat _ _ 2%nat), (Happ 8%nat _ _ 4%nat), (Happ 12%nat _ _ 52%nat);
    rewrite ?length_app, ?length_addrs, ?Hl, ?length_le_bytes; try done; lia.
Qed.

Lemma put_outside k : (k < o \/ o + 64 <= k)%nat -> put_dinode o i x !! k = x !! k.
Proof.
  intros Hk. pose proof (dinode_fits n) as Hf. change BSIZE with 1024%nat in Hx.
  rewrite put_dinode_splice, splice_lookup by (rewrite length_dinode_bytes; lia). rewrite length_dinode_bytes. by rewrite decide_False by lia.
Qed.

Lemma put_rd m j : (j + m <= 64)%nat -> rd m (o + j) (put_dinode o i x) = rd m j (dinode_bytes i).
Proof.
  intros Hj. pose proof (dinode_fits n) as Hf. change BSIZE with 1024%nat in Hx. rewrite put_dinode_splice. apply rd_splice; rewrite length_dinode_bytes; lia.
Qed.
End put.

Lemma put_stored V i x ib :
  length x = BSIZE -> length (iaddrs i) = 13%nat -> short (itype i) -> short (imajor i) -> short (iminor i) -> short (inlink i) -> 0 <= isize i < 2 ^ 32 ->
  (forall k, 0 <= k <= 12 -> 0 <= addr_at i k < 2 ^ 32) -> V ib = put_dinode (dinode_off (State.inum i)) i x -> stored V i ib.
Proof.
  intros Hx Hl Ht Hma Hmi Hln Hsz Had HV. split; rewrite HV; unfold di_type, di_major, di_minor, di_nlink, di_size, di_addrs;
    [rewrite <- (Nat.add_0_r (dinode_off _)) at 1|..|]; rewrite ?put_rd by (done || lia); unfold dinode_bytes.
  - rewrite rd_here. by apply s16_mod.
  - rewrite (rd_skip 2 2 _ 0), rd_here. by apply s16_mod.
  - rewrite (rd_skip 2 2 _ (2 + 0)), rd_skip, rd_here. by apply s16_mod.
  - rewrite (rd_skip 2 2 _ (2 + (2 + 0))), !rd_skip, rd_here. by apply s16_mod.
  - rewrite (rd_skip 4 2 _ (2 + (2 + (2 + 0)))), !rd_skip, rd_here. by apply Z.mod_small.
  - apply list_eq. intros k. rewrite list_lookup_fmap. destruct (decide (k < 13)%nat) as [Hk|Hk].
    + rewrite lookup_seq_lt by done. cbn [fmap option_fmap option_map]. rewrite <- Nat.add_assoc, put_rd by (done || lia). unfold dinode_bytes.
      change (12 + 4 * (0 + k))%nat with (2 + (2 + (2 + (2 + (4 + 4 * k)))))%nat. rewrite !rd_skip, rd_addrs by lia. rewrite (list_lookup_lookup_total_lt (iaddrs i)) by lia. f_equal. apply Z.mod_small.
      specialize (Had (Z.of_nat k) ltac:(lia)). unfold addr_at in Had. by rewrite Nat2Z.id in Had.
    + rewrite !lookup_ge_None_2; [done|lia|rewrite length_seq; lia].
Qed.

(** After [writei] the inode is on the disk. *)
Lemma written_recorded V i V' i' ib :
  ino_ok V' i' -> i' = set_iaddrs (iaddrs i') (set_isize (isize i') i) -> 0 <= isize i' < 2 ^ 32 -> length (V ib) = BSIZE ->
  V' ib = put_dinode (dinode_off (State.inum i)) i' (V ib) -> recorded ib V i V' i'.
Proof.
  intros Hi Hme Hsz Hlen HV. assert (Hnum : State.inum i' = State.inum i) by (by rewrite Hme). pose proof (io_len _ _ _ _ _ _ Hi) as Hl. split_and!; [|done|].
  - intros k Hk. rewrite HV. by apply put_outside.
  - intros [H1 H2 H3 H4 _ _]. pose proof (ly_size _ _ _ Hly). apply (put_stored V' i' (V ib) ib); rewrite ?Hnum; try done.
    1-4: rewrite Hme; simpl; first [rewrite <- H1|rewrite <- H2|rewrite <- H3|rewrite <- H4]; apply s16_short.
    intros k Hk. destruct (decide (addr_at i' k = 0)) as [->|Hz]; [lia|]. destruct (decide (k = 12)) as [->|].
    + destruct (io_ind _ _ _ _ _ _ Hi Hz) as [Hr _ _ _ _]. change (addr_at i' 12) with (ind i'). lia.
    + assert (Hb : baddr V' i' k = addr_at i' k) by (unfold baddr; change NDIRECT with 12; by rewrite (proj2 (Z.ltb_lt _ _)) by lia).
      rewrite <- Hb in Hz |- *. destruct (io_blk _ _ _ _ _ _ Hi k ltac:(rewrite MAXFILE_val; lia) Hz) as [[Hr _ _ _ _] _]. lia.
Qed.

(** [writei] of the bytes [bs] at [off], which is in the file or at its end, replaces these bytes of the file, extends the file when they go past
    its end, writes the inode and changes nothing else. *)
Lemma writei_spec kf s bl V F ip src i off bs ib :
  supplies ip src bs s -> k_sb s = sb -> tx s ∅ None bl V F -> k_inodes s !!! ip = i -> (ip < length (k_inodes s))%nat ->
  ino_ok V i -> fs_ok V -> boot_used sb V -> inode_block V i ib ->
  0 <= off <= isize i -> off + Z.of_nat (length bs) <= MAXFILE * BSZ -> isize i < 2 ^ 32 ->
  avail sb V (kf + 2 * pieces (off + Z.of_nat (length bs)) off) -> room bl ∅ (6 * Z.of_nat (pieces (off + Z.of_nat (length bs)) off) + 1) ->
  wp (writei ip src off (Z.of_nat (length bs))) (fun r s' => r = Z.of_nat (length bs) /\
    exists V' i' bl', tx s' ∅ None bl' V' F /\ kept (with_ino ip i' s) s' /\ written (eq ib) V i V' i' off bs /\
      isize i' = Z.max (isize i) (off + Z.of_nat (length bs)) /\ V' ib = put_dinode (dinode_off (State.inum i)) i' (V ib) /\ avail sb V' kf) s.
Proof.
  intros Hsrc Hsb Ht Hip Hlt Hi Hfs Hb0 Hib Hoff Hend Hsz32 Hav Hr. unfold writei. apply wp_bind, wp_gets. rewrite Hip.
  assert (Hw32 : u32 (off + Z.of_nat (length bs)) = off + Z.of_nat (length bs)) by (rewrite MAXFILE_val, BSZ_val in Hend; rewrite wrap_small by lia; done).
  rewrite Hw32, (proj2 (Z.ltb_ge (isize i) off)), (proj2 (Z.ltb_ge (off + _) off)), (proj2 (Z.ltb_ge (MAXFILE * BSZ) _)) by lia. cbn [orb].
  eapply (wp_seq _ _ (fun r s' => r = (Z.of_nat (length bs), off + Z.of_nat (length bs)) /\ writing kf s ip V F i off bs (length bs) s')).
  { apply (wp_while OutOfFuel (fun x s' => exists t, x = (Z.of_nat t, off + Z.of_nat t) /\ (t <= length bs)%nat /\ writing kf s ip V F i off bs t s')
      (fun x => pieces (off + Z.of_nat (length bs)) (snd x))).
    - exists 0%nat. split_and!; [by rewrite Z.add_0_r|lia|]. exists V, i, bl. rewrite Z.add_0_r, kept_same by done.
      split_and!; [done|apply kept_refl|by apply written_nil|done|done|done].
    - simpl. apply pieces_rounds; lia.
    - intros x s1 (t & -> & Htl & Hwr). destruct (Z.ltb_spec (Z.of_nat t) (Z.of_nat (length bs))) as [Hl|Hl]; cbn [negb].
      + eapply wp_mono; [exact (write_round_spec kf s s1 ip src V F i off bs t Hsrc Hsb Hlt ltac:(lia) Hend ltac:(lia) Hwr)|].
        intros r s2 (m & Hm & Hle & -> & Hwr2 & Hp). split; [exists (t + m)%nat; split_and!; [done|lia|exact Hwr2]|]. cbn [snd]. lia.
      + apply wp_ret. assert (t = length bs) as -> by lia. split; [done|exact Hwr]. }
  intros r s1 [-> (V1 & i1 & bl1 & Ht1 & Hk1 & Hw & Hsz1 & Hav1 & Hr1)]. rewrite take_ge in Hw by lia. set (L := off + Z.of_nat (length bs)) in *.
  pose proof (kept_inodes _ _ Hk1) as Hin. simpl in Hin.
  assert (Hip1 : k_inodes s1 !!! ip = i1) by (rewrite Hin; by apply list_lookup_total_insert_eq).
  assert (Hl1 : (ip < length (k_inodes s1))%nat) by (by rewrite Hin, length_insert).
  apply wp_bind, wp_gets. rewrite Hip1. set (i2 := set_isize (Z.max (isize i) L) i1).
  eapply (wp_seq _ _ (fun _ s' => s' = with_ino ip i2 s1)).
  { unfold i2. rewrite <- Hsz1. destruct (Z.ltb_spec (isize i1) L) as [Hl|Hl]; cbn [when].
    - eapply wp_ok; [by apply upd_ino_run|]. rewrite Hip1, Z.max_r by lia. done.
    - apply wp_ret. rewrite Z.max_l by lia. replace (set_isize (isize i1) i1) with i1 by (by destruct i1). symmetry. by apply kept_same. }
  intros [] s2 ->. destruct (written_ib _ _ _ _ _ _ _ Hw Hib) as [(HI1 & Hb1 & _) HV1].
  eapply wp_seq; [apply (iupdate_spec (with_ino ip i2 s1) bl1 V1 F ip i2 ib Hout)|].
  - change (k_sb s1 = sb). by rewrite (kept_sb _ _ Hk1).
  - by apply tx_with_ino.
  - simpl. by apply list_lookup_total_insert_eq.
  - apply (wr_ino _ _ _ _ _ _ _ Hw).
  - exact HI1.
  - exact (blk_int st nl sb Hly _ _ Hb1).
  - apply Hb1.
  - eapply room_le; [exact Hr1|lia].
  - intros [] s3 [Ht3 Hk3]. apply wp_ret. rewrite swrap_small by (rewrite MAXFILE_val, BSZ_val in Hend; lia). split; [done|].
    assert (Hnum : State.inum i2 = State.inum i) by (unfold i2; by rewrite (wr_meta _ _ _ _ _ _ _ Hw)).
    rewrite Hnum, HV1 in Ht3. eexists _, i2, _. split_and!; [exact Ht3| | |done| |].
    + apply (kept_trans _ (with_ino ip i2 s1)); [|exact Hk3]. rewrite <- (with_ino_twice s ip i2 i1). by apply kept_with_ino.
    + apply (written_finish V i V1 i1 off bs ib); try done. rewrite <- HV1. apply length_put_dinode; [|apply Hb1].
      apply (wr_ino _ _ _ _ _ _ _ Hw).
    + unfold vupd. by rewrite decide_True.
    + eapply (finish_avail V i V1 ib); [exact Hib|rewrite <- HV1; apply length_put_dinode; [apply (wr_ino _ _ _ _ _ _ _ Hw)|apply Hb1]|].
      eapply (avail_le sb); [exact Hav1|lia].
Qed.

(** A file without holes stays one. *)
Lemma written_dense P V i V' i' off bs :
  written P V i V' i' off bs -> dense V i -> 0 <= off <= isize i -> off + Z.of_nat (length bs) <= MAXFILE * BSZ -> isize i <= MAXFILE * BSZ ->
  isize i' = Z.max (isize i) (off + Z.of_nat (length bs)) -> dense V' i'.
Proof.
  intros Hw Hde Hoff Hend Hsz Hmax k Hk. rewrite Hmax in Hk. destruct (decide (k < isize i)) as [Hl|Hl].
  - rewrite (wr_keep _ _ _ _ _ _ _ Hw); [apply Hde; lia| |apply Hde; lia]. rewrite BSZ_val, MAXFILE_val in *. Z.to_euclidean_division_equations; lia.
  - apply (wr_there _ _ _ _ _ _ _ Hw). lia.
Qed.

(** The bytes that were written. *)
Lemma written_bytes P V i V' i' off bs :
  written P V i V' i' off bs -> 0 <= off -> off + Z.of_nat (length bs) <= MAXFILE * BSZ -> fbytes V' i' off (length bs) = bs.
Proof.
  intros Hw Hoff Hend. apply list_eq. intros k. unfold fbytes. rewrite list_lookup_fmap. destruct (decide (k < length bs)%nat) as [Hk|Hk].
  - rewrite zrange_lookup by done. simpl. rewrite (wr_byte _ _ _ _ _ _ _ Hw), (proj2 (Z.leb_le _ _)), (proj2 (Z.ltb_lt _ _)) by lia. cbn [andb].
    replace (Z.to_nat (off + Z.of_nat k - off)) with k by lia. by rewrite list_lookup_lookup_total_lt.
  - rewrite !lookup_ge_None_2; [done|lia|rewrite zrange_length; lia].
Qed.

(** Two operations one after the other: what was written is read back. *)
Lemma write_read s bl V F ip i off bs ib :
  k_sb s = sb -> tx s ∅ None bl V F -> k_inodes s !!! ip = i -> (ip < length (k_inodes s))%nat ->
  ino_ok V i -> fs_ok V -> boot_used sb V -> inode_block V i ib -> dense V i ->
  0 <= off <= isize i -> off + Z.of_nat (length bs) <= MAXFILE * BSZ -> isize i <= MAXFILE * BSZ ->
  avail sb V (2 * pieces (off + Z.of_nat (length bs)) off) -> room bl ∅ (6 * Z.of_nat (pieces (off + Z.of_nat (length bs)) off) + 1) ->
  wp (_ <- writei ip (WLocal bs) off (Z.of_nat (length bs)) ;; readi ip RLocal off (Z.of_nat (length bs)))
    (fun r _ => r = (Z.of_nat (length bs), bs)) s.
Proof.
  intros Hsb Ht Hip Hlt Hi Hfs Hb0 Hib Hde Hoff Hend Hsz Hav Hr. assert (H32 : MAXFILE * BSZ < 2 ^ 31) by (rewrite MAXFILE_val, BSZ_val; lia).
  eapply wp_seq; [apply (writei_spec 0 s bl V F ip (WLocal bs) i off bs ib); try done; [apply supplies_local|lia]|].
  intros r s1 [-> (V1 & i1 & bl1 & Ht1 & Hk1 & Hw & Hmax & _)]. pose proof (kept_inodes _ _ Hk1) as Hin. simpl in Hin.
  assert (Hip1 : k_inodes s1 !!! ip = i1) by (rewrite Hin; by apply list_lookup_total_insert_eq).
  eapply wp_mono; [apply (readi_spec s1 bl1 V1 F ip i1 off (Z.of_nat (length bs)) Ht1 Hip1)|].
  - apply Hw.
  - by eapply written_dense.
  - lia.
  - lia.
  - lia.
  - intros rr s2 (-> & _). unfold readable. rewrite (proj2 (Z.ltb_ge (isize i1) off)), (proj2 (Z.leb_gt (2 ^ 32) _)) by lia. cbn [orb].
    rewrite Z.min_l, Nat2Z.id by lia. by rewrite (written_bytes _ _ _ _ _ _ _ Hw) by lia.
Qed.
End files.
