(* ===== verification/Pipe.v ===== *)
(** Pipes, [kernel/pipe.c], and the file table, [kernel/file.c].

    A pipe is named by the address of the page it occupies; [k_pipes] holds the pipes that
    have not been freed, and using another one is a fault.  The two sources call each other
    ([fileclose] closes a pipe, [pipealloc] allocates two files), hence one file here. *)
From S2P Require Import Prelude Machine Riscv State Spinlock Ring KString Kalloc Vm Sched Copy User Handover Uart Printf Console Block Bio Log Fs.
From Stdlib Require Import ZArith Lia.
From stdpp Require Import base strings numbers gmap list.
Local Open Scope Z_scope.
Local Open Scope m_scope.

Definition PIPESIZE : Z := 512.

Definition get_pipe (pi : Z) : K pipe :=
  m <- gets k_pipes ;;
  match m !! pi with Some p => ret p | None => stop (Fault "pipe") end.
Definition upd_pipe (pi : Z) (f : pipe -> pipe) : K unit :=
  p <- get_pipe pi ;;
  modify (fun s => set_k_pipes (<[pi := f p]> (k_pipes s)) s).

Definition get_file (f : nat) : K file := gets (fun s => k_files s !!! f).
Definition upd_file (f : nat) (g : file -> file) : K unit :=
  modify (fun s => set_k_files (alter g f (k_files s)) s).

(** The bytes of padding in [struct stat], which the kernel does not initialise. *)
Class Garbage := stat_pad : list Z.

(** ** file.c: allocation *)

Definition fileinit : K unit := initlock L_ftable.

Definition filealloc : K (option nat) :=
  acquire L_ftable ;;
  r <- for_ret (seq 0 NFILE) (fun i =>
    f <- get_file i ;;
    if fref f =? 0 then
      upd_file i (set_fref 1) ;;
      release L_ftable ;;
      ret (Some i)
    else ret None) ;;
  match r with
  | Some i => ret (Some i)
  | None => release L_ftable ;; ret None
  end.

Definition filedup (f : nat) : K nat :=
  acquire L_ftable ;;
  ff <- get_file f ;;
  if fref ff <? 1 then panic "filedup" else
  upd_file f (fun ff => set_fref (fref ff + 1) ff) ;;
  release L_ftable ;;
  ret f.

Section files.
Context `{Layout} `{Patience} `{Garbage}.

(** ** pipe.c *)

Definition pipeclose (pi : Z) (writable : bool) : K unit :=
  acquire (L_pipe pi) ;;
  (if writable then
     upd_pipe pi (set_writeopen false) ;;
     wakeup (C_pipe_nread pi)
   else
     upd_pipe pi (set_readopen false) ;;
     wakeup (C_pipe_nwrite pi)) ;;
  p <- get_pipe pi ;;
  if negb (readopen p) && negb (writeopen p) then
    release (L_pipe pi) ;;
    modify (fun s => set_k_pipes (delete pi (k_pipes s)) s) ;;
    kfree pi
  else release (L_pipe pi).

(** The branch of [pipewrite] that copies a byte. *)
Definition pipewrite_put (pr : nat) (pi addr i : Z) : K (Z + option Z) :=
  me <- get_proc pr ;;
  let! (e, ch) := copyin (ppagetable me) (u64 (addr + i)) 1 in
  if e =? -1 then ret (inr (Some i)) else
  upd_pipe pi (fun p => set_pdata (<[Z.to_nat (nwrite p mod PIPESIZE) := ch !!! 0%nat]> (pdata p)) p) ;;
  upd_pipe pi (fun p => set_nwrite (u32 (nwrite p + 1)) p) ;;
  ret (inl (i + 1)).

(** One round of the loop of [pipewrite]: [None] leaves with [-1]. *)
Definition pipewrite_round (pr : nat) (pi addr n i : Z) : K (Z + option Z) :=
  if negb (i <? n) then ret (inr (Some i)) else
  p <- get_pipe pi ;;
  k <- (if readopen p then killed pr else ret 1) ;;
  if negb (k =? 0) then
    release (L_pipe pi) ;;
    ret (inr None)
  else
  p <- get_pipe pi ;;
  if nwrite p =? u32 (nread p + PIPESIZE) then
    wakeup (C_pipe_nread pi) ;;
    sleep (C_pipe_nwrite pi) (L_pipe pi) ;;
    ret (inl i)
  else pipewrite_put pr pi addr i.

Definition pipewrite (pi addr n : Z) : K Z :=
  pr <- curproc ;;
  acquire (L_pipe pi) ;;
  r <- while_fuel OutOfFuel (S (Z.to_nat n + patience)) (pipewrite_round pr pi addr n) 0 ;;
  match r with
  | None => ret (-1)
  | Some i =>
      wakeup (C_pipe_nread pi) ;;
      release (L_pipe pi) ;;
      ret i
  end.

(** The loop of [piperead] that waits for data; whether the process was killed. *)
Definition piperead_wait (pr : nat) (pi : Z) : K bool :=
  while_fuel OutOfFuel (S patience) (fun _ : unit =>
    p <- get_pipe pi ;;
    if (nread p =? nwrite p) && writeopen p then
      k <- killed pr ;;
      if negb (k =? 0) then release (L_pipe pi) ;; ret (inr true)
      else sleep (C_pipe_nread pi) (L_pipe pi) ;; ret (inl tt)
    else ret (inr false)) tt.

(** One round of the loop that copies. *)
Definition piperead_round (pr : nat) (pi addr n i : Z) : K (Z + Z) :=
  if negb (i <? n) then ret (inr i) else
  p <- get_pipe pi ;;
  if nread p =? nwrite p then ret (inr i) else
  let ch := pdata p !!! Z.to_nat (nread p mod PIPESIZE) in
  upd_pipe pi (fun p => set_nread (u32 (nread p + 1)) p) ;;
  me <- get_proc pr ;;
  e <- copyout (ppagetable me) (u64 (addr + i)) [ch] ;;
  if e =? -1 then ret (inr i) else ret (inl (i + 1)).

Definition piperead (pi addr n : Z) : K Z :=
  pr <- curproc ;;
  acquire (L_pipe pi) ;;
  dead <- piperead_wait pr pi ;;
  if dead : bool then ret (-1) else
  i <- while_fuel OutOfFuel (S (Z.to_nat n)) (piperead_round pr pi addr n) 0 ;;
  wakeup (C_pipe_nwrite pi) ;;
  release (L_pipe pi) ;;
  ret i.

(** ** file.c: open files *)

(** A pointer that the code dereferences without a test. *)
Definition deref {A} (p : option A) : K A :=
  match p with Some a => ret a | None => panic "kerneltrap" end.

Definition fileclose (f : nat) : K unit :=
  acquire L_ftable ;;
  ff <- get_file f ;;
  if fref ff <? 1 then panic "fileclose" else
  upd_file f (fun ff => set_fref (fref ff - 1) ff) ;;
  ff <- get_file f ;;
  if 0 <? fref ff then release L_ftable else
  upd_file f (set_fref 0) ;;
  upd_file f (set_ftype FD_NONE) ;;
  release L_ftable ;;
  match ftype ff with
  | FD_PIPE => pipeclose (fpipe ff) (fwritable ff)
  | FD_INODE | FD_DEVICE =>
      begin_op ;;
      ip <- deref (fip ff) ;;
      iput ip ;;
      end_op
  | FD_NONE => ret tt
  end.

(** The two files and [0], or [-1]. *)
Definition pipealloc : K (option (nat * nat)) :=
  f0 <- filealloc ;;
  f1 <- (if is_some f0 then filealloc else ret None) ;;
  pi <- (if is_some f0 && is_some f1 then kalloc else ret 0) ;;
  match f0, f1 with
  | Some f0, Some f1 =>
      if pi =? 0 then
        fileclose f0 ;;
        fileclose f1 ;;
        ret None
      else
        modify (fun s => set_k_pipes (<[pi := mkPipe (replicate (Z.to_nat PIPESIZE) 5) 0 0 true true]> (k_pipes s)) s) ;;
        initlock (L_pipe pi) ;;
        upd_file f0 (set_ftype FD_PIPE) ;;
        upd_file f0 (set_freadable true) ;;
        upd_file f0 (set_fwritable false) ;;
        upd_file f0 (set_fpipe pi) ;;
        upd_file f1 (set_ftype FD_PIPE) ;;
        upd_file f1 (set_freadable false) ;;
        upd_file f1 (set_fwritable true) ;;
        upd_file f1 (set_fpipe pi) ;;
        ret (Some (f0, f1))
  | Some f0, None => fileclose f0 ;; ret None
  | None, _ => ret None
  end.

(** [struct stat] as bytes. *)
Definition stat_bytes (st : Z * Z * Z * Z * Z) : list Z :=
  let '(dev, ino, type, nlink, size) := st in
  le_bytes 4 dev ++ le_bytes 4 ino ++ le_bytes 2 type ++ le_bytes 2 nlink ++ stat_pad ++ le_bytes 8 size.

Definition filestat (f : nat) (addr : Z) : K Z :=
  p <- myproc ;;
  ff <- get_file f ;;
  match ftype ff with
  | FD_INODE | FD_DEVICE =>
      ilock (fip ff) ;;
      ip <- deref (fip ff) ;;
      st <- stati ip ;;
      iunlock (fip ff) ;;
      i <- deref p ;;
      p <- get_proc i ;;
      r <- copyout (ppagetable p) addr (stat_bytes st) ;;
      if r <? 0 then ret (-1) else ret 0
  | _ => ret (-1)
  end.

(** [devsw[major]], when there is such an entry. *)
Definition dev_of (major : Z) : K (option device) :=
  if (major <? 0) || (NDEV <=? major) then ret None else
  d <- gets k_devsw ;;
  ret (mjoin (d !! Z.to_nat major)).

Definition fileread (f : nat) (addr n : Z) : K Z :=
  ff <- get_file f ;;
  if negb (freadable ff) then ret (-1) else
  match ftype ff with
  | FD_PIPE => piperead (fpipe ff) addr n
  | FD_DEVICE =>
      d <- dev_of (fmajor ff) ;;
      match d with
      | None => ret (-1)
      | Some console_device => consoleread true addr n
      end
  | FD_INODE =>
      ilock (fip ff) ;;
      ip <- deref (fip ff) ;;
      ff <- get_file f ;;
      let! (r, _) := readi ip (RUser addr) (foff ff) (u32 n) in
      when (0 <? r) (upd_file f (fun ff => set_foff (u32 (foff ff + r)) ff)) ;;
      iunlock (fip ff) ;;
      ret r
  | FD_NONE => panic "fileread"
  end.

(** The largest write of one transaction. *)
Definition write_max : Z := (MAXOPBLOCKS - 1 - 1 - 2) / 2 * BSZ.

Definition filewrite (f : nat) (addr n : Z) : K Z :=
  ff <- get_file f ;;
  if negb (fwritable ff) then ret (-1) else
  match ftype ff with
  | FD_PIPE => pipewrite (fpipe ff) addr n
  | FD_DEVICE =>
      d <- dev_of (fmajor ff) ;;
      match d with
      | None => ret (-1)
      | Some console_device => consolewrite true addr n
      end
  | FD_INODE =>
      i <- while_fuel OutOfFuel (Z.to_nat (n / write_max + 3)) (fun i =>
        if negb (i <? n) then ret (inr i) else
        let n1 := if write_max <? n - i then write_max else n - i in
        begin_op ;;
        ilock (fip ff) ;;
        ip <- deref (fip ff) ;;
        ff' <- get_file f ;;
        r <- writei ip (WUser (u64 (addr + i))) (foff ff') (u32 n1) ;;
        when (0 <? r) (upd_file f (fun ff => set_foff (u32 (foff ff + r)) ff)) ;;
        iunlock (fip ff) ;;
        end_op ;;
        if negb (r =? n1) then ret (inr i) else ret (inl (i + r))) 0 ;;
      ret (if i =? n then n else -1)
  | FD_NONE => panic "filewrite"
  end.
End files.

(** ** A pipe is a queue of bytes *)

Definition pok (p : pipe) : Prop := rok PIPESIZE 32 (pdata p) (nread p) (nwrite p).

(** The bytes in the pipe, oldest first. *)
Definition pq (p : pipe) : list Z := rqueue PIPESIZE 32 (pdata p) (nread p) (nwrite p).

Definition put_ch (c : Z) (p : pipe) : pipe :=
  set_nwrite (u32 (nwrite p + 1)) (set_pdata (<[Z.to_nat (nwrite p mod PIPESIZE) := c]> (pdata p)) p).
Definition take_ch (p : pipe) : pipe := set_nread (u32 (nread p + 1)) p.

Lemma pipe_size : 0 < PIPESIZE < 2 ^ 32.
Proof. by vm_compute. Qed.
Lemma pipe_div : (PIPESIZE | 2 ^ 32).
Proof. by exists (2 ^ 23). Qed.

Lemma pipe_full p : pok p -> nwrite p = u32 (nread p + PIPESIZE) <-> length (pq p) = Z.to_nat PIPESIZE.
Proof.
  intros [Hl Hr Hw Hc]. unfold pq. rewrite length_rqueue. unfold wrap. rewrite <- (rfull PIPESIZE 32 pipe_size) by done.
  pose proof (rcount_bound PIPESIZE 32 pipe_size (nread p) (nwrite p)). pose proof pipe_size. lia.
Qed.

Lemma put_ch_ok c p :
  pok p -> nwrite p <> u32 (nread p + PIPESIZE) -> pok (put_ch c p) /\ pq (put_ch c p) = pq p ++ [c].
Proof.
  intros Hok Hne. apply (rqueue_push PIPESIZE 32 pipe_size pipe_div); [done|]. destruct Hok as [Hl Hr Hw Hc].
  unfold wrap in Hne. rewrite <- (rfull PIPESIZE 32 pipe_size) in Hne by done. simpl. lia.
Qed.

Lemma take_ch_ok p :
  pok p -> nread p <> nwrite p ->
  pok (take_ch p) /\ pq p = pdata p !!! Z.to_nat (nread p mod PIPESIZE) :: pq (take_ch p).
Proof. apply (rqueue_pop PIPESIZE 32 pipe_size pipe_div). Qed.

Lemma pipe_empty p : pok p -> nread p = nwrite p <-> pq p = [].
Proof. intros Hok. symmetry. by apply (rqueue_nil PIPESIZE 32 pipe_size). Qed.

(** ** Writing and reading while the other end runs *)

Section streams.
Context `{Layout} `{Patience}.
Variables (me : nat) (t : ptab) (pi : Z).
Hypothesis Hme : (me < NPROC)%nat.
Hypothesis Hup : upages_ok t.
Local Abbreviation lk := (L_pipe pi).

(** Process [me] holds the lock of the pipe, which is [p]. *)
Record inpipe (p : pipe) (s : kstate) : Prop := {
  ip_crit : critical me lk s;
  ip_pipe : k_pipes s !! pi = Some p;
  ip_ok : pok p;
  ip_pt : ppagetable (k_procs s !!! me) = pt_root t;
  ip_rep : pt_rep (k_mem s) t
}.

Lemma inpipe_get p s : inpipe p s -> get_pipe pi s = Ok p s.
Proof. intros []. unfold get_pipe, bind, gets. cbn [after]. by rewrite ip_pipe0. Qed.

Lemma inpipe_upd f p s : inpipe p s -> upd_pipe pi f s = Ok tt (set_k_pipes (<[pi := f p]> (k_pipes s)) s).
Proof. intros Hp. unfold upd_pipe. erewrite bind_ok; [|by apply inpipe_get]. done. Qed.

Lemma inpipe_set p q s : inpipe p s -> pok q -> inpipe q (set_k_pipes (<[pi := q]> (k_pipes s)) s).
Proof. intros [Hc Hp Hok Hpt Hr] Hq. split; try done; [by destruct Hc; split|]. simpl. apply lookup_insert_eq. Qed.

Lemma inpipe_mem p m s : inpipe p s -> pt_rep m t -> inpipe p (set_k_mem m s).
Proof. intros [Hc Hp Hok Hpt Hr] Hm. split; try done. by destruct Hc; split. Qed.

Lemma inpipe_nested p s : inpipe p s -> settle s = s.
Proof. intros [[Hok Hd _ _ _ _ _] _ _ _ _]. apply settle_nested; [done|lia]. Qed.

Lemma inpipe_killed p s : inpipe p s -> killed me s = Ok (pkilled (k_procs s !!! me)) s.
Proof.
  intros Hp. rewrite killed_run by apply Hp. by rewrite (inpipe_nested p).
Qed.

Lemma inpipe_wakeup c p s :
  inpipe p s -> wakeup c s = Ok tt (set_k_procs (wake_all c (Some me) (k_procs s)) s) /\
  inpipe p (set_k_procs (wake_all c (Some me) (k_procs s)) s).
Proof.
  intros Hp. pose proof (inpipe_nested p s Hp) as Hn. destruct Hp as [Hc Hp Hok Hpt Hr]. split.
  - rewrite wakeup_run by apply Hc. rewrite Hn. by rewrite (cr_runs _ _ _ Hc).
  - split; try done; [destruct Hc; split; try done; simpl; by rewrite length_wake_all|].
    destruct (quiet_at _ _ me (quiet_wake c (Some me) (k_procs s))) as [st Hst]. simpl. by rewrite Hst.
Qed.

(** Leaving the critical section. *)
Record outside (p : pipe) (s : kstate) : Prop := {
  os_user : uproc s me t;
  os_depth : noff (cur s) = 0;
  os_lock : lock_free lk s;
  os_pipe : k_pipes s !! pi = Some p;
  os_ok : pok p
}.

Lemma inpipe_release p s : inpipe p s -> release lk s = Ok tt (released lk s) /\ outside p (released lk s).
Proof.
  intros [[Hok Hd Hr Hl Hp Hlen Hk] Hpi Hpok Hpt Hrep]. destruct (popped_outermost s Hok Hd) as [Hok' Hd'].
  split; [apply release_run; (done || lia)|]. split; try done; [split; try done|].
  - intros j. unfold lock_free. simpl. rewrite lookup_delete_ne by apply Hk. apply Hp.
  - unfold runs. change (cur (released lk s)) with (cur (popped s)). by rewrite cproc_popped.
  - unfold lock_free. simpl. apply lookup_delete_eq.
Qed.

Lemma outside_acquire p s : outside p s -> acquire lk (settle s) = Ok tt (acquired lk (settle s)) /\ inpipe p (acquired lk (settle s)).
Proof.
  intros [Hu Hd Hf Hp Hok]. apply uproc_settle in Hu as Hu'. pose proof (up_hart _ _ _ Hu) as Hh. split; [apply acquire_run; [apply Hu'|done]|].
  split; [|done|done|apply Hu|apply Hu]. apply critical_acquired; [apply Hu'|by rewrite noff_settle|apply Hu'|apply Hu'|apply Hu'|done].
Qed.

(** While a process sleeps at one end of the pipe: nobody touches its memory, and the rest
    keeps the pipe well-formed and changes its contents by [chg]. *)
Definition meanwhile (chg : list Z -> list Z -> Prop) (s s' : kstate) : Prop :=
  handed me s' /\ lock_free lk s' /\ ppagetable (k_procs s' !!! me) = ppagetable (k_procs s !!! me) /\
  pt_rep (k_mem s') t /\ (forall va, uview (k_mem s') t va = uview (k_mem s) t va) /\
  forall p, k_pipes s !! pi = Some p -> exists p', k_pipes s' !! pi = Some p' /\ pok p' /\ chg (pq p) (pq p').

(** What holds when a process goes to sleep on a channel of the pipe. *)
Definition waits (c : chan) (cond : pipe -> Prop) (s : kstate) : Prop :=
  parked me s /\ lock_free lk s /\ pstate (k_procs s !!! me) = SLEEPING /\ pchan (k_procs s !!! me) = c /\
  exists p, k_pipes s !! pi = Some p /\ cond p.

Lemma waits_asleep c (cond : pipe -> Prop) p s : inpipe p s -> cond p -> waits c cond (asleep c lk me s).
Proof.
  intros [Hc Hp Hok Hpt Hr] Hcond. pose proof (cr_procs _ _ _ Hc) as Hlen.
  split_and!; [by apply parked_asleep|by apply lock_free_asleep| | |by exists p]; simpl; by rewrite list_lookup_total_alter_eq by lia.
Qed.

Lemma rg_pipe_sleep {X} (chg : X -> list Z -> list Z -> Prop) c (G : X -> kstate -> Prop) R n x (Q : nat -> X -> unit -> kstate -> Prop) p s :
  inpipe p s -> G x (asleep c lk me s) ->
  (forall x' s', R x (asleep c lk me s) x' s' -> meanwhile (chg x') (asleep c lk me s) s') ->
  (forall n' x' s' p', n = S n' -> inpipe p' s' -> chg x' (pq p) (pq p') ->
     (forall va, uview (k_mem s') t va = uview (k_mem s) t va) -> Q n' x' tt s') ->
  xrg G R n x (sleep c lk) Q s.
Proof.
  intros [Hc Hp Hok Hpt Hr] HG HR HQ. pose proof (cr_procs _ _ _ Hc) as Hlen. apply (rg_sleep me); [done|done|done| |].
  - intros x' s' Hs'. by destruct (HR x' s' Hs') as (? & ? & _).
  - intros n' x' s' -> Hs' Hc'. destruct (HR x' s' Hs') as (Hh & Hf & Hpt' & Hr' & Hv & Hpipe). destruct (Hpipe p Hp) as (p' & Hp' & Hok' & Hchg).
    apply (HQ n' x' _ p'); [done| |done|done]. split; try done. destruct Hh as [Hw _]. pose proof (wl_procs _ _ Hw).
    simpl. rewrite list_lookup_total_alter_eq by lia. simpl. rewrite Hpt'. simpl.
    rewrite list_lookup_total_alter_eq by lia. done.
Qed.

(** *** Writing *)

Section write.
Variables (s0 : kstate) (p0 : pipe) (addr : Z) (N : nat).
Hypothesis Haddr : 0 <= addr /\ addr + Z.of_nat N <= 2 ^ 64.

(** Others only take bytes from the front; [x] is what they have taken so far. *)
Definition taking (x x' q q' : list Z) : Prop := exists d, x' = x ++ d /\ q = d ++ q'.
Definition readers (x : list Z) (s : kstate) (x' : list Z) (s' : kstate) : Prop := meanwhile (taking x x') s s'.

(** [bs] has been put into the pipe: what the others have taken and what is in the pipe is what was there, and then [bs]. *)
Record wrote (x : list Z) (bs : list Z) (p : pipe) (s : kstate) : Prop := {
  wo_seen : useen t (k_mem s0) addr bs;
  wo_len : (length bs <= N)%nat;
  wo_queue : x ++ pq p = pq p0 ++ bs;
  wo_mem : forall va, uview (k_mem s) t va = uview (k_mem s0) t va
}.

(** How the writer sleeps: with the pipe full, and with nothing lost so far. *)
Definition writer_waits (x : list Z) (s : kstate) : Prop :=
  waits (C_pipe_nwrite pi) (fun p => length (pq p) = Z.to_nat PIPESIZE /\ exists bs, wrote x bs p s) s.

Lemma wrote_put x bs p s s' c :
  wrote x bs p s -> pok p -> nwrite p <> u32 (nread p + PIPESIZE) -> (length bs < N)%nat ->
  useen t (k_mem s0) (addr + Z.of_nat (length bs)) [c] -> k_mem s' = k_mem s -> wrote x (bs ++ [c]) (put_ch c p) s'.
Proof.
  intros [Hs Hl Hq Hm] Hok Hne Hlt Hc Hm'. destruct (put_ch_ok c p Hok Hne) as [_ Hput]. split.
  - by apply useen_app.
  - rewrite length_app. simpl. lia.
  - by rewrite Hput, !app_assoc, Hq.
  - intros va. by rewrite Hm', Hm.
Qed.

(** What the loop leaves with. *)
Definition write_result (x : list Z) (r : option Z) (s : kstate) : Prop :=
  exists p bs, wrote x bs p s /\
    match r with
    | None => outside p s /\ (readopen p = false \/ pkilled (k_procs s !!! me) <> 0)
    | Some i => inpipe p s /\ i = Z.of_nat (length bs) /\
        (length bs = N \/ uview (k_mem s0) t (addr + Z.of_nat (length bs)) = None)
    end.

(** A round leaves, or has used up a switch or put a byte. *)
Definition write_post (n : nat) (bs : list Z) : nat -> list Z -> Z + option Z -> kstate -> Prop := fun n' x r s =>
  match r with
  | inl i => (exists bs' p, i = Z.of_nat (length bs') /\ inpipe p s /\ wrote x bs' p s) /\
      (Z.to_nat (Z.of_nat N - i) + n' < Z.to_nat (Z.of_nat N - Z.of_nat (length bs)) + n)%nat
  | inr r => write_result x r s
  end.

Lemma put_wp h bs p s :
  inpipe p s -> wrote h bs p s -> nwrite p <> u32 (nread p + PIPESIZE) -> (length bs < N)%nat ->
  wp (pipewrite_put me pi addr (Z.of_nat (length bs))) (fun r s' => match r with
    | inl i => exists c, i = Z.of_nat (length (bs ++ [c])) /\ inpipe (put_ch c p) s' /\ wrote h (bs ++ [c]) (put_ch c p) s' /\
        k_procs s' = k_procs s
    | inr r => r = Some (Z.of_nat (length bs)) /\ s' = s /\ uview (k_mem s0) t (addr + Z.of_nat (length bs)) = None
    end) s.
Proof.
  intros Hp Hw Hroom Hlt. unfold pipewrite_put. apply wp_bind, wp_gets. cbv beta. rewrite (ip_pt _ _ Hp), wrap_small by lia. apply wp_bind.
  eapply wp_mono; [apply (copyin_run t Hup s); [apply Hp|lia]|]. intros [e cs] s1 (-> & Hcs & Hres).
  assert (Hcs0 : useen t (k_mem s0) (addr + Z.of_nat (length bs)) cs) by (intros i b Hb; rewrite <- (wo_mem _ _ _ _ Hw); by apply Hcs).
  destruct Hres as [[-> Hl]|(-> & Hl & Hno)]; cbn [Z.eqb].
  - destruct cs as [|c [|]]; [done| |done]. change ([c] !!! 0%nat) with c. apply wp_bind. eapply wp_ok; [by apply inpipe_upd|]. cbv beta.
    apply wp_bind. eapply wp_ok; [apply inpipe_upd; apply (inpipe_set p); [done|]|].
    { destruct (ip_ok _ _ Hp) as [Hbl Hr Hwr Hc]. split; try done. simpl. by rewrite length_insert. }
    apply wp_ret. exists c. rewrite length_app. destruct (put_ch_ok c p (ip_ok _ _ Hp) Hroom) as [Hok' _].
    split_and!; [simpl; lia| |by eapply wrote_put; eauto; apply Hp|done].
    change (k_pipes (set_k_pipes ?v s)) with v. rewrite insert_insert_eq. exact (inpipe_set p (put_ch c p) s Hp Hok').
  - destruct cs; [|simpl in Hl; lia]. simpl in Hno. rewrite Z.add_0_r in Hno. apply wp_ret. split_and!; [done|done|].
    by rewrite <- (wo_mem _ _ _ _ Hw).
Qed.

Lemma write_round n x bs p s :
  inpipe p s -> wrote x bs p s ->
  xrg writer_waits readers n x (pipewrite_round me pi addr (Z.of_nat N) (Z.of_nat (length bs))) (write_post n bs) s.
Proof.
  intros Hp Hw. unfold pipewrite_round. pose proof (wo_len _ _ _ _ Hw) as Hlen. destruct (Z.ltb_spec (Z.of_nat (length bs)) (Z.of_nat N)) as [Hlt|Hge]; simpl negb.
  2:{ apply rg_ret. exists p, bs. split_and!; try done. left. lia. }
  apply rg_bind. eapply rg_ok; [by apply inpipe_get|]. cbv beta. apply rg_bind.
  assert (Hdead : (readopen p = false \/ pkilled (k_procs s !!! me) <> 0) -> write_result x None (released lk s)).
  { intros Hd. exists p, bs. destruct (inpipe_release p s Hp) as [_ Ho]. split; [by destruct Hw; split|by split]. }
  assert (Hleave : (readopen p = false \/ pkilled (k_procs s !!! me) <> 0) ->
    xrg writer_waits readers n x (release lk ;; ret (@inr Z (option Z) None)) (write_post n bs) s).
  { intros Hd. apply rg_bind. eapply rg_ok; [by apply (inpipe_release p)|]. apply rg_ret. by apply Hdead. }
  destruct (readopen p) eqn:Hro; [|apply rg_ret; apply Hleave; by left].
  eapply rg_ok; [by apply (inpipe_killed p)|]. cbv beta. destruct (Z.eqb_spec (pkilled (k_procs s !!! me)) 0) as [Hk|Hk]; simpl negb.
  2:{ apply Hleave. by right. }
  apply rg_bind. eapply rg_ok; [by apply inpipe_get|]. cbv beta. destruct (Z.eqb_spec (nwrite p) (u32 (nread p + PIPESIZE))) as [Hfull|Hroom].
  - destruct (inpipe_wakeup (C_pipe_nread pi) p s Hp) as [Hwk Hp1]. apply rg_bind. eapply rg_ok; [exact Hwk|]. cbv beta.
    apply rg_bind. apply (rg_pipe_sleep (taking x) _ _ _ _ _ _ p); [done| |done|].
    { apply (waits_asleep _ _ p); [done|]. split; [by apply pipe_full; [apply Hp|]|]. exists bs. by destruct Hw; split. }
    intros n' x' s' p' -> Hp' (d & -> & Hd) Hv. apply rg_ret. split; [|lia]. exists bs, p'. split_and!; [done|done|].
    destruct Hw as [Hs Hl Hq Hm]. split; [done|done|by rewrite <- app_assoc, <- Hd|]. intros va. rewrite Hv. apply Hm.
  - apply rg_wp. eapply wp_mono; [by apply (put_wp x bs p); [| | |lia]|]. intros [i|r] s'.
    + intros (c & -> & Hp' & Hw' & _). split; [by exists (bs ++ [c]), (put_ch c p)|]. rewrite length_app. simpl. lia.
    + intros (-> & -> & Hno). exists p, bs. split_and!; try done. by right.
Qed.

Lemma outside_curproc p s : outside p s -> curproc s = Ok me (settle s).
Proof. intros []. by eapply uproc_curproc. Qed.

(** C23: writing to a pipe is lossless and in order, whatever the readers do.  [pipewrite]
    switches away only to sleep with the pipe full; while it sleeps, other processes
    may take bytes from the front of the pipe.  At every switch, and when it returns, all the bytes that have been taken and then those in
    the pipe are exactly the bytes that were in the pipe and then the bytes written so far, a prefix of the user's buffer: none is lost, none comes
    twice, none overtakes another.  It returns their number once all of them, or all that are mapped, are in,
    or [-1] when the read end is closed or the process killed, with the lock released
    in every case, and does not run out of fuel before it has slept [patience] times. *)
Theorem pipewrite_streams n :
  outside p0 s0 -> (n <= patience)%nat ->
  xrg writer_waits readers n [] (pipewrite pi addr (Z.of_nat N)) (fun _ x r s' =>
    exists p bs, wrote x bs p s' /\ outside p s' /\
      ((r = -1 /\ (readopen p = false \/ pkilled (k_procs s' !!! me) <> 0)) \/
       (r = Z.of_nat (length bs) /\ (length bs = N \/ uview (k_mem s0) t (addr + Z.of_nat (length bs)) = None)))) s0.
Proof.
  intros Ho Hn. destruct (outside_acquire p0 s0 Ho) as [Hacq Hp0]. unfold pipewrite.
  apply rg_bind. eapply rg_ok; [by eapply outside_curproc|]. cbv beta. apply rg_bind. eapply rg_ok; [exact Hacq|]. cbv beta. apply rg_bind.
  eapply rg_mono.
  { apply (rg_while _ _ OutOfFuel (fun n' x i s => exists bs p, i = Z.of_nat (length bs) /\ inpipe p s /\ wrote x bs p s)
      (fun i => Z.to_nat (Z.of_nat N - i)) (fun _ => write_result)).
    - exists [], p0. split_and!; [done|done|]. split; [apply useen_nil|simpl; lia|by rewrite app_nil_r|done].
    - lia.
    - intros n' x' i s (bs & p & -> & Hp & Hw). by apply write_round with (p := p). }
  intros n' x [i|] s _ (p & bs & Hw & Hres); simpl.
  - destruct Hres as (Hp & -> & Hall). destruct (inpipe_wakeup (C_pipe_nread pi) p s Hp) as [Hwk Hp1].
    apply rg_bind. eapply rg_ok; [exact Hwk|]. cbv beta. destruct (inpipe_release p _ Hp1) as [Hrel Ho'].
    apply rg_bind. eapply rg_ok; [exact Hrel|]. apply rg_ret. exists p, bs. split_and!; [by destruct Hw; split|done|by right].
  - destruct Hres as [Ho' Hd]. apply rg_ret. exists p, bs. split_and!; [done|done|by left].
Qed.

(** With room for all of them and a reader, the bytes are put without sleeping. *)
Lemma write_loop_room s :
  inpipe p0 s -> k_mem s = k_mem s0 -> readopen p0 = true -> pkilled (k_procs s !!! me) = 0 ->
  (length (pq p0) + N <= Z.to_nat PIPESIZE)%nat -> (forall i, 0 <= i < Z.of_nat N -> is_Some (uview (k_mem s0) t (addr + i))) ->
  wp (while_fuel OutOfFuel (S (Z.to_nat (Z.of_nat N) + patience)) (pipewrite_round me pi addr (Z.of_nat N)) 0)
    (fun r s' => exists p bs, r = Some (Z.of_nat N) /\ length bs = N /\ inpipe p s' /\ wrote [] bs p s') s.
Proof.
  intros Hp Hm Hro Hk Hroom Hmap. apply (wp_while OutOfFuel (fun i s' => exists bs p, i = Z.of_nat (length bs) /\ inpipe p s' /\
    wrote [] bs p s' /\ readopen p = true /\ pkilled (k_procs s' !!! me) = 0) (fun i => Z.to_nat (Z.of_nat N - i))).
  - exists [], p0. split_and!; try done. split; [apply useen_nil|simpl; lia|by rewrite app_nil_r|].
    intros va. by rewrite Hm.
  - lia.
  - intros i s1 (bs & p & -> & Hp1 & Hw1 & Hro1 & Hk1). unfold pipewrite_round. pose proof (wo_len _ _ _ _ Hw1) as Hlen.
    destruct (Z.ltb_spec (Z.of_nat (length bs)) (Z.of_nat N)) as [Hlt|Hge]; simpl negb.
    2:{ apply wp_ret. exists p, bs. split_and!; [by f_equal; lia|lia|done|done]. }
    apply wp_bind. eapply wp_ok; [by apply inpipe_get|]. cbv beta. rewrite Hro1. apply wp_bind.
    eapply wp_ok; [by apply (inpipe_killed p)|]. cbv beta. rewrite Hk1. simpl. apply wp_bind. eapply wp_ok; [by apply inpipe_get|]. cbv beta.
    pose proof (wo_queue _ _ _ _ Hw1) as Hq. simpl in Hq. destruct (Z.eqb_spec (nwrite p) (u32 (nread p + PIPESIZE))) as [Hf|Hne].
    { apply (pipe_full p (ip_ok _ _ Hp1)) in Hf. rewrite Hq, length_app in Hf. lia. }
    eapply wp_mono; [by apply (put_wp [] bs p); [| | |lia]|]. intros [i|r] s'.
    + intros (c & -> & Hp' & Hw' & Hps). split; [|rewrite length_app; simpl; lia]. exists (bs ++ [c]), (put_ch c p).
      split_and!; try done. by rewrite Hps.
    + intros (_ & _ & Hno). destruct (Hmap (Z.of_nat (length bs)) ltac:(lia)) as [x Hx]. congruence.
Qed.

Lemma pipewrite_room :
  outside p0 s0 -> readopen p0 = true -> pkilled (k_procs s0 !!! me) = 0 ->
  (length (pq p0) + N <= Z.to_nat PIPESIZE)%nat -> (forall i, 0 <= i < Z.of_nat N -> is_Some (uview (k_mem s0) t (addr + i))) ->
  wp (pipewrite pi addr (Z.of_nat N)) (fun r s' => exists p bs, r = Z.of_nat N /\ length bs = N /\ outside p s' /\ wrote [] bs p s') s0.
Proof.
  intros Ho Hro Hk Hroom Hmap. destruct (outside_acquire p0 s0 Ho) as [Hacq Hp0]. unfold pipewrite.
  apply wp_bind. eapply wp_ok; [by eapply outside_curproc|]. cbv beta. apply wp_bind. eapply wp_ok; [exact Hacq|]. cbv beta.
  apply wp_bind. eapply wp_mono; [by apply write_loop_room|]. intros r s (p & bs & -> & Hlen & Hp & Hw).
  destruct (inpipe_wakeup (C_pipe_nread pi) p s Hp) as [Hwk Hp1]. apply wp_bind. eapply wp_ok; [exact Hwk|]. cbv beta.
  destruct (inpipe_release p _ Hp1) as [Hrel Ho']. apply wp_bind. eapply wp_ok; [exact Hrel|]. apply wp_ret.
  exists p, bs. split_and!; [done|done|done|by destruct Hw; split].
Qed.
End write.

(** *** Reading *)

Section read.
Variables (addr : Z) (N : nat).
Hypothesis Haddr : 0 <= addr /\ addr + Z.of_nat N <= 2 ^ 64.

(** [i] bytes of the queue [q] have been delivered over the memory [m], and the pipe, of which
    the writer's end is [w], is [p] then. *)
Record delivered (q : list Z) (m : mem) (w : bool) (i : nat) (p : pipe) (s : kstate) : Prop := {
  de_pipe : inpipe p s;
  de_len : (i <= N)%nat /\ (i <= length q)%nat;
  de_mem : uwritten t m addr (take i q) (k_mem s);
  de_open : writeopen p = w
}.

Lemma take_snoc {A} (q rest : list A) i c : drop i q = c :: rest -> take (S i) q = take i q ++ [c] /\ drop (S i) q = rest.
Proof.
  intros Hd. assert (Hi : q !! i = Some c) by (rewrite <- (Nat.add_0_r i), <- lookup_drop, Hd; done). split.
  - by apply take_S_r.
  - replace (S i) with (i + 1)%nat by lia. rewrite <- drop_drop, Hd. done.
Qed.

(** [k] bytes taken, [i] of them delivered. *)
Definition read_result (q : list Z) (i k : nat) : Prop :=
  (k = i /\ (i = N \/ i = length q)) \/
  (k = S i /\ (i < N)%nat /\ (i < length q)%nat /\ writable t (addr + Z.of_nat i) = false).

Lemma copy_loop q m w p s :
  delivered q m w 0 p s -> pq p = q ->
  wp (while_fuel OutOfFuel (S (Z.to_nat (Z.of_nat N))) (piperead_round me pi addr (Z.of_nat N)) 0)
    (fun r s' => exists i k p', r = Z.of_nat i /\ delivered q m w i p' s' /\ pq p' = drop k q /\ read_result q i k) s.
Proof.
  intros Hde Hq. apply (wp_while OutOfFuel (fun r s' => exists i p', r = Z.of_nat i /\ delivered q m w i p' s' /\ pq p' = drop i q)
    (fun r => Z.to_nat (Z.of_nat N - r))).
  { exists 0%nat, p. by split_and!. }
  { lia. }
  intros r s1 (i & p1 & -> & [Hp [HiN Hiq] Hm Hw] & Hq1). unfold piperead_round.
  destruct (Z.ltb_spec (Z.of_nat i) (Z.of_nat N)) as [Hlt|Hge]; simpl negb.
  2:{ apply wp_ret. exists i, i, p1. split_and!; [done|done|done|]. left. split; [done|]. left. lia. }
  apply wp_bind. eapply wp_ok; [by apply inpipe_get|]. cbv beta. destruct (Z.eqb_spec (nread p1) (nwrite p1)) as [He|Hne].
  { apply (pipe_empty p1 (ip_ok _ _ Hp)) in He. apply wp_ret. exists i, i, p1. split_and!; [done|done|done|]. left. split; [done|]. right.
    rewrite He in Hq1. apply (f_equal length) in Hq1. rewrite length_drop in Hq1. simpl in Hq1. lia. }
  destruct (take_ch_ok p1 (ip_ok _ _ Hp) Hne) as [Hok2 Hcons]. set (c := pdata p1 !!! _) in *. rewrite Hq1 in Hcons.
  destruct (take_snoc _ _ _ _ Hcons) as [Htake Hdrop].
  assert (Hlt' : (i < length q)%nat) by (apply (f_equal length) in Hcons; rewrite length_drop in Hcons; simpl in Hcons; lia).
  apply wp_bind. eapply wp_ok; [by apply inpipe_upd|]. cbv beta. pose proof (inpipe_set p1 (take_ch p1) s1 Hp Hok2) as Hp2.
  fold (take_ch p1). set (s2 := set_k_pipes _ s1) in *. apply wp_bind, wp_gets. cbv beta. rewrite (ip_pt _ _ Hp2), wrap_small by lia.
  apply wp_bind. eapply wp_mono; [apply (copyout_run t Hup s2); [apply Hp2|lia]|].
  intros e s3 (j & m' & -> & Hj & Hm' & _ & Hr). change (k_mem s2) with (k_mem s1) in Hm'.
  destruct Hr as [[-> ->]|(-> & Hjl & Hno)]; cbn [Z.eqb]; apply wp_ret.
  - split; [|lia]. exists (S i), (take_ch p1). split_and!; [lia| |by rewrite Hdrop].
    split; [by apply inpipe_mem; [|apply Hm']|lia| |done]. rewrite Htake. eapply uwritten_app; [exact Hm|].
    rewrite length_take_le by lia. exact Hm'.
  - simpl in Hjl. replace j with 0%nat in * by lia. rewrite Z.add_0_r in Hno. exists i, (S i), (take_ch p1).
    split_and!; [done| |by rewrite Hdrop|right; by split_and!; [|lia| |]].
    split; [by apply inpipe_mem; [|apply Hm']|done| |done]. rewrite <- (app_nil_r (take i q)). eapply uwritten_app; [exact Hm|].
    rewrite length_take_le by lia. exact Hm'.
Qed.

(** Others may do as they like to an empty pipe. *)
Definition writers : list Z -> list Z -> Prop := fun _ _ => True.
Local Abbreviation drained := (fun p => pq p = [] /\ writeopen p = true).

Variables (s0 : kstate) (p0 : pipe).

(** The reader has waited long enough: there is something in the pipe, or there never will be. *)
Definition has_data (h : list kstate) (p : pipe) (s : kstate) : Prop :=
  inpipe p s /\ (pq p = [] -> writeopen p = false) /\ (h = [] -> p = p0 /\ k_mem s = k_mem s0) /\
  forall va, uview (k_mem s) t va = uview (k_mem s0) t va.

Lemma wait_rg n s :
  inpipe p0 s -> k_mem s = k_mem s0 -> (n <= patience)%nat ->
  rg (waits (C_pipe_nread pi) drained) (meanwhile writers) n [] (piperead_wait me pi) (fun _ h dead s' =>
    if dead : bool then exists p, outside p s' /\ pkilled (k_procs s' !!! me) <> 0 else exists p, has_data h p s') s.
Proof.
  intros Hp Hm Hn. unfold piperead_wait. apply (rg_while _ _ OutOfFuel (fun _ h _ s' => exists p, inpipe p s' /\
    (h = [] -> p = p0 /\ k_mem s' = k_mem s0) /\ forall va, uview (k_mem s') t va = uview (k_mem s0) t va) (fun _ => 0%nat)).
  - exists p0. split_and!; [done|done|]. intros va. by rewrite Hm.
  - lia.
  - intros n' h [] s1 (p & Hp1 & Hh & Hv). apply rg_bind. eapply rg_ok; [by apply inpipe_get|]. cbv beta.
    pose proof (pipe_empty p (ip_ok _ _ Hp1)) as Hemp. destruct (Z.eqb_spec (nread p) (nwrite p)) as [He|Hne].
    2:{ apply rg_ret. exists p. split_and!; [done| |done|done]. intros E. by apply Hemp in E. }
    simpl. destruct (writeopen p) eqn:Ho; [|apply rg_ret; by exists p]. apply rg_bind.
    eapply rg_ok; [by apply (inpipe_killed p)|]. cbv beta. destruct (Z.eqb_spec (pkilled (k_procs s1 !!! me)) 0) as [Hk|Hk]; simpl negb.
    + apply rg_bind. apply (rg_pipe_sleep (fun h' _ _ => h' = h ++ [asleep (C_pipe_nread pi) lk me s1]) _ _ _ _ _ _ p); [done|apply (waits_asleep _ _ p); [done|by split; [apply Hemp|]]| |].
      { intros h' s' [(H1' & H2' & H3' & H4' & H5' & H6') ->]. split_and!; try done. intros q Hq. destruct (H6' q Hq) as (q' & ? & ? & _). by exists q'. }
      intros n'' h' s' p' -> Hp' -> Hv'. apply rg_ret. split; [|lia]. exists p'. split_and!; [done| |].
      * intros E. apply (f_equal length) in E. rewrite length_app in E. simpl in E. lia.
      * intros va. by rewrite Hv'.
    + destruct (inpipe_release p s1 Hp1) as [Hrel Ho']. apply rg_bind. eapply rg_ok; [exact Hrel|]. apply rg_ret. exists p. by split.
Qed.

(** Reading from a pipe delivers the oldest bytes in order.  [piperead] switches
    away only to sleep with the pipe empty and its write end open.  When it goes ahead with
    [q] in the pipe, it takes the first bytes of [q], as many as asked for or as there are,
    to the user's buffer, leaves the rest in the pipe, and returns their number, which is [0]
    only at the end of the stream (or if nothing was asked for); where the buffer ends at
    an address that cannot be written, the byte it could not deliver is gone from the
    pipe.  It returns [-1] only if the process was killed. *)
Theorem piperead_streams n :
  outside p0 s0 -> (n <= patience)%nat ->
  rg (waits (C_pipe_nread pi) drained) (meanwhile writers) n [] (piperead pi addr (Z.of_nat N)) (fun _ h r s' =>
    exists p, outside p s' /\
      ((r = -1 /\ pkilled (k_procs s' !!! me) <> 0) \/
       exists q m i k, r = Z.of_nat i /\ read_result q i k /\ pq p = drop k q /\ uwritten t m addr (take i q) (k_mem s') /\
         (q = [] -> writeopen p = false) /\ (h = [] -> q = pq p0 /\ m = k_mem s0) /\
         forall va, uview m t va = uview (k_mem s0) t va)) s0.
Proof.
  intros Ho Hn. destruct (outside_acquire p0 s0 Ho) as [Hacq Hp0]. unfold piperead.
  apply rg_bind. eapply rg_ok; [by eapply outside_curproc|]. cbv beta. apply rg_bind. eapply rg_ok; [exact Hacq|]. cbv beta. apply rg_bind.
  eapply rg_mono; [by apply wait_rg|]. intros n' h [] s1 _.
  - intros (p & Ho' & Hk). apply rg_ret. exists p. split; [done|]. by left.
  - intros (p & Hp & Hend & Hh & Hv). apply rg_bind, rg_wp.
    eapply wp_mono; [apply (copy_loop (pq p) (k_mem s1) (writeopen p) p)|]; [|done|].
    { split; [done|lia|by apply uwritten_nil, Hp|done]. }
    intros r s2 (i & k & p2 & -> & [Hp2 Hlen Hm2 Hw2] & Hq2 & Hres).
    destruct (inpipe_wakeup (C_pipe_nwrite pi) p2 s2 Hp2) as [Hwk Hp3]. apply rg_bind. eapply rg_ok; [exact Hwk|]. cbv beta.
    destruct (inpipe_release p2 _ Hp3) as [Hrel Ho']. apply rg_bind. eapply rg_ok; [exact Hrel|]. apply rg_ret.
    exists p2. split; [done|]. right. exists (pq p), (k_mem s1), i, k. split_and!; try done.
    + rewrite Hw2. exact Hend.
    + intros E. by destruct (Hh E) as [-> ->].
Qed.

(** A pipe that holds something is read without sleeping. *)
Lemma piperead_now :
  outside p0 s0 -> pq p0 <> [] ->
  wp (piperead pi addr (Z.of_nat N)) (fun r s' => exists p i k, r = Z.of_nat i /\ outside p s' /\ read_result (pq p0) i k /\
    pq p = drop k (pq p0) /\ uwritten t (k_mem s0) addr (take i (pq p0)) (k_mem s')) s0.
Proof.
  intros Ho Hne. destruct (outside_acquire p0 s0 Ho) as [Hacq Hp0]. unfold piperead.
  apply wp_bind. eapply wp_ok; [by eapply outside_curproc|]. cbv beta. apply wp_bind. eapply wp_ok; [exact Hacq|]. cbv beta. apply wp_bind.
  assert (Hwait : piperead_wait me pi (acquired lk (settle s0)) = Ok false (acquired lk (settle s0))).
  { unfold piperead_wait. cbn [while_fuel]. erewrite bind_ok; [|erewrite bind_ok; [|by apply inpipe_get]].
    2:{ rewrite (proj2 (Z.eqb_neq _ _)); [reflexivity|]. intros E. apply Hne, pipe_empty; [apply Hp0|done]. }
    done. }
  eapply wp_ok; [exact Hwait|]. cbv beta. apply wp_bind.
  eapply wp_mono; [apply (copy_loop (pq p0) (k_mem s0) (writeopen p0) p0)|]; [|done|].
  { split; [done|lia|by apply uwritten_nil, Hp0|done]. }
  intros r s2 (i & k & p2 & -> & [Hp2 Hlen Hm2 Hw2] & Hq2 & Hres).
  destruct (inpipe_wakeup (C_pipe_nwrite pi) p2 s2 Hp2) as [Hwk Hp3]. apply wp_bind. eapply wp_ok; [exact Hwk|]. cbv beta.
  destruct (inpipe_release p2 _ Hp3) as [Hrel Ho']. apply wp_bind. eapply wp_ok; [exact Hrel|]. apply wp_ret.
  exists p2, i, k. by split_and!.
Qed.
End read.

(** C24: what goes into a pipe comes out of it.  Through an empty pipe with both ends open,
    writing [N] bytes from one mapped buffer (no more than the pipe holds) and
    reading [N] into another gives [N] both times, without sleeping; the second buffer then
    holds what the first held, and the pipe is empty again. *)
Theorem pipe_roundtrip s p a b (N : nat) :
  outside p s -> pq p = [] -> readopen p = true -> pkilled (k_procs s !!! me) = 0 -> (0 < N <= Z.to_nat PIPESIZE)%nat ->
  0 <= a /\ a + Z.of_nat N <= 2 ^ 64 -> 0 <= b /\ b + Z.of_nat N <= 2 ^ 64 ->
  (forall i, 0 <= i < Z.of_nat N -> is_Some (uview (k_mem s) t (a + i))) ->
  (forall i, 0 <= i < Z.of_nat N -> writable t (b + i) = true) ->
  wp (n <- pipewrite pi a (Z.of_nat N) ;; m <- piperead pi b (Z.of_nat N) ;; ret (n, m)) (fun r s' =>
    r = (Z.of_nat N, Z.of_nat N) /\ (forall i, 0 <= i < Z.of_nat N -> uview (k_mem s') t (b + i) = uview (k_mem s) t (a + i)) /\
    exists p', outside p' s' /\ pq p' = []) s.
Proof.
  intros Ho Hemp Hro Hk HN Ha Hb Hmap Hwr. apply wp_bind.
  eapply wp_mono; [apply (pipewrite_room s p a N Ha); try done; rewrite Hemp; simpl; lia|].
  intros n s1 (p1 & bs & -> & Hlen & Ho1 & Hw). pose proof (wo_queue _ _ _ _ _ _ _ _ Hw) as Hq. rewrite Hemp in Hq. simpl in Hq.
  apply wp_bind. eapply wp_mono; [apply (piperead_now b N Hb s1 p1 Ho1); rewrite Hq; intros ->; simpl in Hlen; lia|].
  intros m s2 (p2 & i & k & -> & Ho2 & Hres & Hq2 & Hm). rewrite Hq in *. apply wp_ret. destruct Hres as [[-> Hi]|(_ & Hi & _ & Hno)].
  2:{ by rewrite Hwr in Hno by lia. }
  assert (Hi' : i = N) by lia. clear Hi. subst i. rewrite take_ge in Hm by lia. split_and!; [done| |exists p2; by rewrite Hq2, drop_ge by lia].
  intros i Hi. rewrite (uw_view _ _ _ _ _ Hm) by lia. rewrite decide_True by lia. replace (b + i - b) with i by lia.
  destruct (lookup_lt_is_Some_2 bs (Z.to_nat i) ltac:(lia)) as [x Hx]. rewrite Hx.
  pose proof (wo_seen _ _ _ _ _ _ _ _ Hw (Z.to_nat i) x Hx) as Hs. by rewrite Z2Nat.id in Hs by lia.
Qed.
End streams.

(** A process with one page of memory and an empty pipe, both ends open. *)
Definition sample_pipe : pipe := mkPipe (replicate 512 5) 0 0 true true.
Definition sample_piped : kstate := set_k_pipes {[ 4096 := sample_pipe ]} SampleUser.state.

Lemma sample_outside : @outside sample_layout 0 Sample.mapped_pt 4096 sample_pipe sample_piped.
Proof. split; [exact (uproc_set_pipes _ _ _ _ SampleUser.user)|done|done|done|by split]. Qed.

Lemma sample_first : (0 < NPROC)%nat.
Proof. apply Nat.ltb_lt. reflexivity. Qed.

Lemma writable_uview t m va : writable t va = true -> is_Some (uview m t va).
Proof. unfold writable, uview. destruct (uentry t va); [by eexists|done]. Qed.

Lemma pipewrite_streams_witness :
  xrg (@writer_waits 0 Sample.mapped_pt 4096 sample_piped sample_pipe 16 1000) (@readers sample_layout 0 Sample.mapped_pt 4096) 3 []
    (@pipewrite (3%nat : Patience) 4096 16 1000) (fun _ x r s' => exists p bs,
      @outside sample_layout 0 Sample.mapped_pt 4096 p s' /\ x ++ pq p = bs /\ (r = -1 \/ r = Z.of_nat (length bs))) sample_piped.
Proof.
  eapply rg_mono; [apply (@pipewrite_streams sample_layout (3%nat : Patience) 0 Sample.mapped_pt 4096 sample_first sample_upages
    sample_piped sample_pipe 16 1000 ltac:(lia) 3 sample_outside ltac:(done))|].
  intros n x r s' _ (p & bs & Hw & Ho & Hr). exists p, bs. split_and!; [done|exact (wo_queue _ _ _ _ _ _ _ _ _ Hw)|naive_solver].
Defined.

Lemma piperead_streams_witness :
  rg (@waits 0 4096 (C_pipe_nread 4096) (fun p => pq p = [] /\ writeopen p = true)) (@meanwhile sample_layout 0 Sample.mapped_pt 4096 writers) 3 []
    (@piperead (3%nat : Patience) 4096 16 1000) (fun _ h r s' => exists p,
      @outside sample_layout 0 Sample.mapped_pt 4096 p s' /\ (r = 0 -> pq p = [])) sample_piped.
Proof.
  eapply rg_mono; [apply (@piperead_streams sample_layout (3%nat : Patience) 0 Sample.mapped_pt 4096 sample_first sample_upages
    16 1000 ltac:(lia) sample_piped sample_pipe 3 sample_outside ltac:(done))|].
  intros n h r s' _ (p & Ho & [[-> _]|(q & m & i & k & -> & Hres & Hq & _)]); exists p; (split; [done|]); [lia|].
  intros Hi. assert (i = 0%nat) as -> by lia. destruct Hres as [[-> [?|Hl]]|(_ & _ & _ & Hno)]; [lia| |].
  - symmetry in Hl. apply nil_length_inv in Hl. by rewrite Hq, Hl.
  - by rewrite SampleUser.writable_page in Hno by (unfold PGSIZE; lia).
Defined.

Lemma pipe_roundtrip_witness :
  wp (n <- @pipewrite one_round 4096 16 100 ;; m <- @piperead one_round 4096 200 100 ;; ret (n, m)) (fun r s' =>
    r = (100, 100) /\ forall i, 0 <= i < 100 -> uview (k_mem s') Sample.mapped_pt (200 + i) = uview (k_mem sample_piped) Sample.mapped_pt (16 + i))
    sample_piped.
Proof.
  eapply wp_mono; [apply (@pipe_roundtrip sample_layout one_round 0 Sample.mapped_pt 4096 sample_first sample_upages
    sample_piped sample_pipe 16 200 100 sample_outside eq_refl eq_refl eq_refl); [by vm_compute; lia|lia|lia| |]|].
  - intros i Hi. apply writable_uview, SampleUser.writable_page. unfold PGSIZE. lia.
  - intros i Hi. apply SampleUser.writable_page. unfold PGSIZE. lia.
  - intros r s' (-> & Hv & _). by split.
Defined.
