(* ===== verification/FsWrite.v ===== *)
(** Writing to a file: [filewrite] on an inode, from the memory of a process to the disk.

    [filewrite] writes in chunks, each of which is a transaction: the file then has the new
    bytes, and a crash leaves a whole number of chunks. *)
From S2P Require Import Prelude Machine Riscv State Spinlock KString Kalloc Vm Sched Copy User Uart Printf Block Bio BufCache Log LogSpec LogOps LogCrash Fs FsTx FsBlock FsInode FsFile Pipe.
From Stdlib Require Import ZArith Lia.
From stdpp Require Import base strings numbers gmap list.
Local Open Scope Z_scope.
Local Open Scope m_scope.

Section view.
Variables (d st nl : Z).
Variable sb : superblock.
Hypothesis Hly : layout st nl sb.

Local Abbreviation in_log := (in_log st nl).
Local Abbreviation used := (used sb).
Local Abbreviation blk_ok := (blk_ok st nl sb).
Local Abbreviation ino_ok := (ino_ok d st nl sb).
Local Abbreviation fs_ok := (fs_ok st nl sb).
Local Abbreviation written := (written d st nl sb).
Local Abbreviation inode_block := (inode_block st nl sb).

(** ** Contents that differ in the log only *)

Section same.
Variables V V0 : Z -> list Z.
Hypothesis Hs : forall bn, ~ in_log bn -> V0 bn = V bn.

Lemma so_used c : 0 <= c < sb_size sb -> used V0 c = used V c.
Proof. intros Hc. unfold FsBlock.used. by rewrite Hs by (by apply (ly_log _ _ _ Hly)). Qed.

Lemma so_blk b : blk_ok V b -> blk_ok V0 b.
Proof. intros [H1 H2 H3 H4 H5]. split; try done; [rewrite so_used by lia; done|by rewrite Hs]. Qed.

Lemma so_fs : fs_ok V -> fs_ok V0.
Proof.
  intros [Hm Hf]. split; [|intros c Hc; rewrite so_used by done; by apply Hf].
  intros b Hb. rewrite Hs by (by apply (ly_log _ _ _ Hly)). by apply Hm.
Qed.

Lemma so_boot : boot_used sb V -> boot_used sb V0.
Proof. unfold boot_used. rewrite so_used; [done|]. pose proof (ly_size _ _ _ Hly). lia. Qed.

Lemma so_avail k : avail sb V k -> avail sb V0 k.
Proof.
  intros (l & Hnd & Hl & Hc). exists l. split_and!; [done|done|]. intros c Hin. destruct (Hc c Hin) as [Hr Hu]. split; [done|]. by rewrite so_used by lia.
Qed.

Lemma so_baddr i m : ino_ok V i -> baddr V0 i m = baddr V i m.
Proof.
  intros Hi. unfold baddr. destruct (m <? NDIRECT); [done|]. destruct (Z.eqb_spec (ind i) 0) as [|Hz]; [done|].
  by rewrite Hs by (apply (io_ind _ _ _ _ _ _ Hi Hz)).
Qed.

Lemma so_fblock i m : ino_ok V i -> 0 <= m < MAXFILE -> fblock V0 i m = fblock V i m.
Proof.
  intros Hi Hm. unfold fblock. rewrite so_baddr by done. destruct (Z.eqb_spec (baddr V i m) 0) as [|Hz]; [done|].
  apply Hs. destruct (io_blk _ _ _ _ _ _ Hi m Hm Hz) as [Hb _]. apply Hb.
Qed.

Lemma so_ino i : ino_ok V i -> ino_ok V0 i.
Proof.
  intros Hi. split; [apply Hi|apply Hi|intros Hz; by apply so_blk, Hi| |].
  - intros m Hm. rewrite so_baddr by done. intros Hz. destruct (io_blk _ _ _ _ _ _ Hi m Hm Hz). split; [by apply so_blk|done].
  - intros m m' Hm Hm'. rewrite !so_baddr by done. by apply Hi.
Qed.

Lemma so_ib i ib : ino_ok V i -> inode_block V i ib -> inode_block V0 i ib.
Proof. intros Hi (H1 & H2 & H3 & H4). split_and!; [done|by apply so_blk|done|]. intros m Hm. rewrite so_baddr by done. by apply H4. Qed.
End same.

Lemma fbyte_fblock V i V' i' k : 0 <= k < MAXFILE * BSZ -> (forall m, 0 <= m < MAXFILE -> fblock V i m = fblock V' i' m) -> fbyte V i k = fbyte V' i' k.
Proof. intros Hk Hf. unfold fbyte. rewrite Hf; [done|]. rewrite BSZ_val, MAXFILE_val in *. Z.to_euclidean_division_equations; lia. Qed.

Lemma so_written_l P V V0 i V' i' off bs :
  (forall bn, ~ in_log bn -> V0 bn = V bn) -> ino_ok V i -> written P V0 i V' i' off bs -> written P V i V' i' off bs.
Proof.
  intros Hs Hi Hw. assert (Hba : forall m, baddr V0 i m = baddr V i m) by (intros m; by apply so_baddr).
  split; try apply Hw.
  - intros k Hk. rewrite (wr_byte _ _ _ _ _ _ _ _ _ _ _ Hw) by done. destruct (_ && _); [done|]. apply fbyte_fblock; [done|]. intros m Hm. by apply so_fblock.
  - intros m Hm. rewrite <- Hba. by apply Hw.
  - intros b Hlg Hm Hu Hown. rewrite <- Hs by done. apply Hw; [done|done| |].
    + intros Hb. rewrite (so_used V V0) by done. by apply Hu.
    + intros [|[|(m & Hm' & ->)]]; apply Hown; [by left|by right; left|right; right; exists m; by rewrite <- Hba].
  - intros c Hc Hu. apply Hw; [done|]. by rewrite (so_used V V0).
  - destruct (wr_ind _ _ _ _ _ _ _ _ _ _ _ Hw) as [|[Hr Hf]]; [by left|right]. split; [done|]. by rewrite (so_used V V0) in Hf by (done || lia).
  - intros m Hm. rewrite <- Hba. destruct (wr_new _ _ _ _ _ _ _ _ _ _ _ Hw m Hm) as [|[Hr Hf]]; [by left|right]. split; [done|].
    by rewrite (so_used V V0) in Hf by (done || lia).
Qed.

(** ** One write after another *)

Lemma written_trans ib V i V1 i1 V2 i2 off bs bs' :
  written (eq ib) V i V1 i1 off bs -> written (eq ib) V1 i1 V2 i2 (off + Z.of_nat (length bs)) bs' ->
  0 <= off -> off + Z.of_nat (length bs) <= MAXFILE * BSZ -> written (eq ib) V i V2 i2 off (bs ++ bs').
Proof.
  intros W1 W2 Hoff Hend.
  assert (Hnu : forall c, 0 < c < sb_size sb -> used V1 c = false -> used V c = false).
  { intros c Hc Hc2. destruct (used V c) eqn:E; [|done]. rewrite (wr_used _ _ _ _ _ _ _ _ _ _ _ W1) in Hc2 by (done || lia). done. }
  split; try apply W2.
  - intros k Hk. rewrite (wr_byte _ _ _ _ _ _ _ _ _ _ _ W2), (wr_byte _ _ _ _ _ _ _ _ _ _ _ W1) by done. rewrite length_app.
    destruct (Z.leb_spec off k), (Z.ltb_spec k (off + Z.of_nat (length bs))), (Z.leb_spec (off + Z.of_nat (length bs)) k),
      (Z.ltb_spec k (off + Z.of_nat (length bs) + Z.of_nat (length bs'))), (Z.ltb_spec k (off + Z.of_nat (length bs + length bs'))); cbn [andb]; try done; try lia.
    + by rewrite lookup_total_app_l by lia.
    + rewrite lookup_total_app_r by lia. f_equal. lia.
  - intros m Hm Hz. rewrite (wr_keep _ _ _ _ _ _ _ _ _ _ _ W2), (wr_keep _ _ _ _ _ _ _ _ _ _ _ W1); try done. by rewrite (wr_keep _ _ _ _ _ _ _ _ _ _ _ W1).
  - intros k Hk. rewrite length_app in Hk. destruct (decide (k < off + Z.of_nat (length bs))) as [Hl|Hl]; [|apply W2; lia].
    rewrite (wr_keep _ _ _ _ _ _ _ _ _ _ _ W2); [apply W1; lia| |apply W1; lia]. rewrite BSZ_val, MAXFILE_val in *. Z.to_euclidean_division_equations; lia.
  - rewrite (wr_meta _ _ _ _ _ _ _ _ _ _ _ W2), (wr_meta _ _ _ _ _ _ _ _ _ _ _ W1). done.
  - intros b Hlg Hm Hu Hown. rewrite (wr_others _ _ _ _ _ _ _ _ _ _ _ W2); [by apply W1|done|done|intros Hb; by apply W1, Hu|].
    intros [->|[He|(m & Hm' & ->)]].
    + destruct (wr_ind _ _ _ _ _ _ _ _ _ _ _ W1) as [He|[Hr Hf]]; [apply Hown; by left|]. rewrite Hu in Hf by lia. done.
    + apply Hown. by right; left.
    + destruct (wr_new _ _ _ _ _ _ _ _ _ _ _ W1 m Hm') as [He|[Hr Hf]]; [apply Hown; right; right; by exists m|]. rewrite Hu in Hf by lia. done.
  - intros c Hc Hu. by apply W2, W1.
  - destruct (wr_ind _ _ _ _ _ _ _ _ _ _ _ W2) as [->|[Hr Hf]]; [apply W1|right; split; [done|by apply Hnu]].
  - intros m Hm. destruct (wr_new _ _ _ _ _ _ _ _ _ _ _ W2 m Hm) as [->|[Hr Hf]]; [by apply W1|right; split; [done|by apply Hnu]].
Qed.
End view.

(** ** The lock of an inode *)

Section ilock.
Context `{Patience}.
Variables (me : nat) (d st nl out : Z).

Local Abbreviation tx := (tx me d st nl out).

Lemma tx_cache s held x bl V F : tx s held x bl V F -> exists pin, bcache s me d V held pin.
Proof. intros [(pin & pl & Hbc & _) _ _ _ _ _ _ _]. by exists pin. Qed.

Definition ilocked (ip : nat) (s : kstate) : kstate := set_k_slocks (<[SL_inode ip := mine s me]> (k_slocks s)) (settle s).

Lemma ilock_run s held x bl V F ip :
  tx s held x bl V F -> k_slocks s !! SL_inode ip = None -> 1 <= iref (k_inodes s !!! ip) -> ivalid (k_inodes s !!! ip) = true ->
  ilock (Some ip) s = Ok tt (ilocked ip s) /\ tx (ilocked ip s) held x bl V F.
Proof.
  intros Ht Hsl Href Hval. destruct (tx_cache _ _ _ _ _ _ Ht) as (pin & Hbc). split.
  - unfold ilock. unfold get_ino, gets at 1, bind at 1. cbn [after]. rewrite (proj2 (Z.ltb_ge _ 1)) by lia.
    erewrite bind_ok; [|apply (acquiresleep_run (SL_inode ip) me s); [apply Hbc..|done]]. unfold bind, gets. cbn [after]. simpl. by rewrite Hval.
  - unfold ilocked. apply tx_set_slocks; [by apply tx_settle|]. intros b. by rewrite lookup_insert_ne.
Qed.

Definition iunlocked (ip : nat) (s : kstate) : kstate :=
  set_k_slocks (delete (SL_inode ip) (k_slocks s)) (set_k_procs (wake_all (C_sleeplock (SL_inode ip)) (Some me) (k_procs s)) (settle s)).

Lemma iunlock_run s held x bl V F ip :
  tx s held x bl V F -> k_slocks s !! SL_inode ip = Some (mine s me) -> 1 <= iref (k_inodes s !!! ip) ->
  iunlock (Some ip) s = Ok tt (iunlocked ip s) /\ tx (iunlocked ip s) held x bl V F.
Proof.
  intros Ht Hsl Href. destruct (tx_cache _ _ _ _ _ _ Ht) as (pin & Hbc). destruct (tx_cache _ _ _ _ _ _ (tx_settle _ _ _ _ _ _ _ _ _ _ _ Ht)) as (pin' & Hbc').
  split.
  - unfold iunlock. erewrite bind_ok; [|apply (holdingsleep_run (SL_inode ip) me s); [apply Hbc..|exact Hsl]]. rewrite Z.eqb_refl. cbn [negb].
    unfold get_ino, gets, bind. cbn [after]. change (k_inodes (settle s)) with (k_inodes s). rewrite (proj2 (Z.ltb_ge _ 1)) by lia.
    rewrite (releasesleep_run (SL_inode ip) me (settle s)) by apply Hbc'. unfold iunlocked. by rewrite settle_settle.
  - unfold iunlocked. apply tx_set_slocks; [|intros b; simpl; by rewrite lookup_delete_ne].
    apply tx_set_procs; [by apply tx_settle|]. apply quiet_wake.
Qed.
End ilock.

(** ** The memory of the process as the source *)

Section source.
Context `{Patience} `{Layout}.
Variables (me : nat) (d st nl out : Z).

(** The page table of the process. *)
Definition space (s : kstate) (t : ptab) : Prop := ppagetable (k_procs s !!! me) = pt_root t /\ pt_rep (k_mem s) t /\ upages_ok t.

Lemma space_kept s s' t : space s t -> k_mem s' = k_mem s -> quiet (k_procs s) (k_procs s') -> space s' t.
Proof. intros (H1 & H2 & H3) Hm Hq. destruct (quiet_at _ _ me Hq) as [stt Hme]. split_and!; [by rewrite Hme|by rewrite Hm|done]. Qed.

Lemma tx_uproc s held x bl V F t : tx me d st nl out s held x bl V F -> space s t -> uproc s me t.
Proof. intros Ht (H1 & H2 & H3). destruct (tx_cache _ _ _ _ _ _ _ _ _ _ _ Ht) as (pin & []). by split. Qed.

Lemma useen_sub t m va bs k n : useen t m va bs -> useen t m (va + Z.of_nat k) (sub k n bs).
Proof.
  intros Hs j b Hb. assert (Hj : (j < n)%nat) by (apply lookup_lt_Some in Hb; unfold sub in Hb; rewrite length_take in Hb; lia).
  rewrite sub_lookup in Hb by done. replace (va + Z.of_nat k + Z.of_nat j) with (va + Z.of_nat (k + j)) by lia. by apply Hs.
Qed.

Lemma useen_agree t m va xs ys : useen t m va xs -> useen t m va ys -> length xs = length ys -> xs = ys.
Proof.
  intros Hx Hy Hl. apply list_eq. intros j. destruct (xs !! j) as [b|] eqn:Hb.
  - assert (is_Some (ys !! j)) as [c Hc] by (apply lookup_lt_is_Some; apply lookup_lt_Some in Hb; lia). pose proof (Hx _ _ Hb). pose proof (Hy _ _ Hc). congruence.
  - apply lookup_ge_None in Hb. symmetry. apply lookup_ge_None. lia.
Qed.

Lemma supplies_user ip va bs s t :
  space s t -> useen t (k_mem s) va bs -> 0 <= va -> va + Z.of_nat (length bs) < 2 ^ 64 -> supplies me d st nl out ip (WUser va) bs s.
Proof.
  intros Hsp Hbs Hva Hmax i s' k n Hk (held & x & bl & V & F & Ht) Hle. pose proof (kept_mem _ _ Hk) as Hm. simpl in Hm.
  assert (Hsp' : space s' t) by (apply (space_kept s); [done|done|apply Hk]). pose proof (tx_uproc _ _ _ _ _ _ _ Ht Hsp') as Hu.
  exists (settle s'). split; [by right|]. unfold get_src. rewrite wrap_small by lia.
  destruct (proj1 (wp_run _ _ _) (either_copyin_spec s' me t (va + Z.of_nat k) n Hu ltac:(lia))) as ([r xs] & s1 & Hrun & -> & Hxs & Hcase).
  rewrite Hrun. rewrite Hm in Hxs, Hcase. pose proof (useen_sub _ _ _ _ k n Hbs) as Hsub.
  destruct Hcase as [[-> Hlen]|(-> & Hlt & Hnone)].
  - do 2 f_equal. eapply useen_agree; [exact Hxs|exact Hsub|]. rewrite Hlen, length_sub; lia.
  - exfalso. assert (is_Some (sub k n bs !! length xs)) as [b Hb] by (apply lookup_lt_is_Some; rewrite length_sub; lia).
    rewrite (Hsub _ _ Hb) in Hnone. done.
Qed.
End source.

(** ** A chunk of [filewrite] *)

Section chunks.
Context `{Patience} `{Layout}.
Variables (s0 : kstate) (me : nat) (d : Z) (sb : superblock).

Local Abbreviation st := (sb_logstart sb).
Local Abbreviation nl := (sb_nlog sb).
Local Abbreviation in_log := (in_log st nl).
Local Abbreviation written := (written d st nl sb).

Hypothesis Hst : 0 <= st.
Hypothesis Hnl : 25 < nl /\ st + nl < 2 ^ 31.
Hypothesis Hnb : nl <= Z.of_nat NBUF.
Hypothesis Hd : 0 <= d < 2 ^ 32.
Hypothesis Hz : bzeroed s0 me d.
Hypothesis Hlog0 : k_log s0 = zero_log.
Hypothesis Hly : layout st nl sb.

(** No operation is in progress; file [f] is inode [ip], which is [i], is in memory and is not locked; the process has page table [t].
    [F] is what is on the disk. *)
Record opened (s : kstate) (f ip : nat) (t : ptab) (F : Z -> list Z) (i : inode) (ff : file) : Prop := {
  op_log : exists V, log_inv me d st nl s 0 [] V F /\ forall bn, ~ in_log bn -> V bn = F bn;
  op_sb : k_sb s = sb;
  op_ino : k_inodes s !!! ip = i;
  op_here : (ip < length (k_inodes s))%nat;
  op_valid : ivalid i = true /\ 1 <= iref i;
  op_slock : k_slocks s !! SL_inode ip = None;
  op_file : k_files s !! f = Some ff;
  op_fip : fip ff = Some ip;
  op_space : space me s t
}.

(** The file and the file system on the disk are well formed. *)
Record fine (F : Z -> list Z) (i : inode) (ib : Z) : Prop := {
  fi_ino : ino_ok d st nl sb F i;
  fi_fs : fs_ok st nl sb F;
  fi_boot : boot_used sb F;
  fi_ib : inode_block st nl sb F i ib;
  fi_size : isize i <= MAXFILE * BSZ
}.

Definition chunk (n j : Z) : Z := if write_max <? n - j then write_max else n - j.

Definition write_chunk (f : nat) (ff : file) (addr n j : Z) : K (Z + Z) :=
  let n1 := chunk n j in
  begin_op ;;
  ilock (fip ff) ;;
  ip <- deref (fip ff) ;;
  ff' <- get_file f ;;
  r <- writei ip (WUser (u64 (addr + j))) (foff ff') (u32 n1) ;;
  when (0 <? r) (upd_file f (fun ff => set_foff (u32 (foff ff + r)) ff)) ;;
  iunlock (fip ff) ;;
  end_op ;;
  if negb (r =? n1) then ret (inr j) else ret (inl (j + r)).

Lemma written_fine F i F' i' ib off bs :
  fine F i ib -> written (eq ib) F i F' i' off bs -> 0 <= off <= isize i -> off + Z.of_nat (length bs) <= MAXFILE * BSZ ->
  isize i' = Z.max (isize i) (off + Z.of_nat (length bs)) -> length (F' ib) = BSIZE -> fine F' i' ib.
Proof.
  intros [Hi Hf Hb (HI & Hblk & Hni & Hnb') Hsz] Hw Hoff Hend Hmax Hlen. pose proof Hblk as [H1 H2 H3 H4 H5]. split; try apply Hw; [|lia]. split_and!.
  - by rewrite (wr_meta _ _ _ _ _ _ _ _ _ _ _ Hw).
  - split; try done. apply Hw; [lia|done].
  - intros ->. destruct (wr_ind _ _ _ _ _ _ _ _ _ _ _ Hw) as [|[Hr Hu]]; congruence.
  - intros m Hm ->. destruct (wr_new _ _ _ _ _ _ _ _ _ _ _ Hw m Hm) as [Hs|[Hr Hu]]; [|congruence]. by apply (Hnb' m).
Qed.

Lemma write_max_val : write_max = 3072.
Proof. reflexivity. Qed.

Lemma pieces_chunk off n : 0 <= off -> 0 <= n <= write_max -> (pieces (off + n) off <= 4)%nat.
Proof.
  intros Hoff Hn. rewrite write_max_val in Hn. unfold pieces. rewrite BSZ_val. destruct (Z.ltb_spec off (off + n)); [|lia]. Z.to_euclidean_division_equations; lia.
Qed.

Lemma lsame_kept s s' : lsame s s' -> k_disk s' = k_disk s -> kept s s'.
Proof. by split. Qed.

(** The part of a chunk between [ilock] and [end_op]. *)
Lemma write_inner kf s ip t V F i ff ib bs addr j bl :
  tx me d st nl 1 s ∅ None bl V F -> (forall bn, ~ in_log bn -> V bn = F bn) -> bl = [] ->
  k_sb s = sb -> k_inodes s !!! ip = i -> (ip < length (k_inodes s))%nat -> space me s t ->
  fine F i ib -> 0 <= foff ff <= isize i -> foff ff + Z.of_nat (length bs) <= MAXFILE * BSZ -> Z.of_nat (length bs) <= write_max ->
  useen t (k_mem s) (addr + j) bs -> 0 <= addr + j -> addr + j + Z.of_nat (length bs) < 2 ^ 64 -> avail sb F (kf + 8) ->
  wp (writei ip (WUser (u64 (addr + j))) (foff ff) (u32 (Z.of_nat (length bs)))) (fun r s' => r = Z.of_nat (length bs) /\
    exists F' i' bl', tx me d st nl 1 s' ∅ None bl' F' F /\ kept (with_ino ip i' s) s' /\ written (eq ib) F i F' i' (foff ff) bs /\
      isize i' = Z.max (isize i) (foff ff + Z.of_nat (length bs)) /\ fine F' i' ib /\ recorded ib F i F' i' /\ avail sb F' kf) s.
Proof.
  intros Ht HV -> Hsb Hip Hlt Hsp Hfi Hoff Hend Hmax Hbs Ha1 Ha2 Hav. pose proof Hfi as [Hi Hf Hb0 Hib Hsz].
  rewrite !wrap_small by (rewrite write_max_val in Hmax; lia). pose proof (pieces_chunk (foff ff) (Z.of_nat (length bs)) ltac:(lia) ltac:(lia)) as Hp.
  assert (H32 : MAXFILE * BSZ < 2 ^ 31) by (rewrite MAXFILE_val, BSZ_val; lia).
  assert (Hsrc : supplies me d st nl 1 ip (WUser (addr + j)) bs s) by (by apply (supplies_user me d st nl 1 ip (addr + j) bs s t)).
  eapply wp_mono; [apply (writei_spec me d st nl 1 Hd Hst ltac:(lia) Hnb sb Hly ltac:(lia) kf s [] V F ip _ i (foff ff) bs ib Hsrc Hsb Ht Hip Hlt)|].
  - by apply (so_ino d st nl sb Hly F V).
  - by apply (so_fs st nl sb Hly F V).
  - by apply (so_boot st nl sb Hly F V).
  - by apply (so_ib d st nl sb Hly F V).
  - done.
  - done.
  - lia.
  - apply (so_avail st nl sb Hly F V HV). eapply (avail_le sb); [exact Hav|lia].
  - unfold room. rewrite size_empty. simpl length. change LOGSIZE with 30. change (Z.of_nat NBUF) with 30. lia.
  - intros r s1 [-> (V1 & i1 & bl1 & Ht1 & Hk1 & Hw & Hsz1 & Hdi & Hav1)]. split; [done|]. exists V1, i1, bl1.
    assert (Hw' : written (eq ib) F i V1 i1 (foff ff) bs) by (by apply (so_written_l d st nl sb Hly _ F V)).
    assert (HVib : V ib = F ib) by (apply HV, Hib). rewrite HVib in Hdi. split_and!; try done.
    + eapply written_fine; [exact Hfi|exact Hw'|done|done|done|]. rewrite Hdi. apply length_put_dinode; [apply Hw|apply Hib].
    + apply (written_recorded d st nl sb Hly); [apply Hw|apply Hw|lia|apply Hib|exact Hdi].
Qed.

Lemma mine_quiet s s' : quiet (k_procs s) (k_procs s') -> mine s' me = mine s me.
Proof. intros Hq. destruct (quiet_at _ _ me Hq) as [stt Hme]. unfold mine. by rewrite Hme. Qed.

Lemma write_chunk_spec kf s f ip t F i ff ib bs addr j n :
  opened s f ip t F i ff -> fine F i ib -> 0 <= j < n -> Z.of_nat (length bs) = chunk n j ->
  0 <= foff ff <= isize i -> foff ff + Z.of_nat (length bs) <= MAXFILE * BSZ ->
  useen t (k_mem s) (addr + j) bs -> 0 <= addr + j -> addr + j + Z.of_nat (length bs) < 2 ^ 64 -> avail sb F (kf + 8) ->
  wp (write_chunk f ff addr n j) (fun r s' => r = inl (j + chunk n j) /\ k_mem s' = k_mem s /\ (forall g, g <> f -> k_files s' !! g = k_files s !! g) /\
    exists F' i', opened s' f ip t F' i' (set_foff (foff ff + chunk n j) ff) /\ fine F' i' ib /\ written (eq ib) F i F' i' (foff ff) bs /\
      isize i' = Z.max (isize i) (foff ff + chunk n j) /\ recorded ib F i F' i' /\ avail sb F' kf /\
      exists w, k_disk s' = dapply (k_disk s) w /\ crash_ok s0 d sb F F' (k_disk s) w) s.
Proof.
  intros [(V & Hinv & HV) Hsb Hip Hlt [Hval Href] Hsl Hff Hfip Hsp] Hfi Hj Hlen Hoff Hend Hbs Ha1 Ha2 Hav.
  assert (Hch : 0 < chunk n j <= write_max) by (unfold chunk; rewrite write_max_val; destruct (Z.ltb_spec 3072 (n - j)); lia).
  unfold write_chunk. cbv zeta. rewrite <- Hlen.
  eapply wp_seq; [apply (begin_op_spec me d st nl s 0 [] V F Hinv); done|]. intros [] s1 (Hinv1 & Hdk1 & Hls1). apply log_inv_tx in Hinv1.
  pose proof (lsame_kept _ _ Hls1 Hdk1) as Hk1. pose proof (kept_inodes _ _ Hk1) as Hin1.
  rewrite Hfip. destruct (ilock_run me d st nl 1 s1 ∅ None [] V F ip Hinv1) as [Hrun Ht2]; [by rewrite (kept_slock _ _ _ Hk1)|by rewrite Hin1, Hip|by rewrite Hin1, Hip|].
  apply wp_bind. eapply wp_ok; [exact Hrun|]. apply wp_bind, wp_ret, wp_bind, wp_gets. set (s2 := ilocked me ip s1) in *.
  assert (Hf2 : k_files s2 = k_files s) by (unfold s2; simpl; by rewrite (kept_files _ _ Hk1)). rewrite Hf2, (list_lookup_total_correct _ _ _ Hff).
  assert (Hm2 : k_mem s2 = k_mem s) by (unfold s2; simpl; by rewrite (kept_mem _ _ Hk1)).
  eapply wp_seq; [apply (write_inner kf s2 ip t V F i ff ib bs addr j [] Ht2 HV eq_refl); try done|].
  - unfold s2; simpl. by rewrite (kept_sb _ _ Hk1).
  - unfold s2; simpl. by rewrite Hin1.
  - unfold s2; simpl. by rewrite Hin1.
  - apply (space_kept me s); [done|done|]. apply Hk1.
  - lia.
  - by rewrite Hm2.
  - intros r s3 [-> (F' & i' & bl' & Ht3 & Hk3 & Hw & Hsz & Hfi' & Hrec & Hav')]. rewrite (proj2 (Z.ltb_lt 0 _)) by lia. cbn [when].
    apply wp_bind, wp_modify. set (s4 := set_k_files _ s3).
    assert (Ht4 : tx me d st nl 1 s4 ∅ None bl' F' F) by (by apply tx_set_files). pose proof (kept_inodes _ _ Hk3) as Hin3. simpl in Hin3.
    assert (Hi4 : k_inodes s4 !!! ip = i') by (unfold s4; simpl; rewrite Hin3; apply list_lookup_total_insert_eq; by rewrite Hin1).
    assert (Hmeta : iref i' = iref i /\ ivalid i' = ivalid i) by (by rewrite (wr_meta _ _ _ _ _ _ _ _ _ _ _ Hw)). destruct Hmeta as [Href' Hval'].
    assert (Hq4 : quiet (k_procs s1) (k_procs s4)) by apply Hk3.
    destruct (iunlock_run me d st nl 1 s4 ∅ None bl' F' F ip Ht4) as [Hrun4 Ht5].
    { rewrite (mine_quiet s1) by exact Hq4. change (k_slocks s4) with (k_slocks s3). rewrite (kept_slock _ _ _ Hk3). simpl. apply lookup_insert_eq. }
    { rewrite Hi4. lia. }
    apply wp_bind. eapply wp_ok; [exact Hrun4|]. set (s5 := iunlocked me ip s4) in *.
    assert (Hdk5 : k_disk s5 = k_disk s) by (change (k_disk s3 = k_disk s); destruct Hk3 as [_ Hdk3]; rewrite Hdk3; done).
    eapply wp_seq; [apply (end_op_crash s0 me d sb Hst ltac:(lia) Hnb Hd Hz Hlog0 s5 bl' F' F F F'); [by apply log_inv_tx|done|done]|].
    intros [] s6 ((V6 & Hinv6 & HV6) & Hls6 & w & Hdk6 & Hcr). rewrite Z.eqb_refl. cbn [negb]. apply wp_ret.
    assert (Hk6 : kept s5 (set_k_disk (k_disk s5) s6)) by (split; [exact Hls6|done]).
    assert (Hmem : k_mem s6 = k_mem s) by (rewrite <- Hm2; change (k_mem (set_k_disk (k_disk s5) s6) = k_mem s2); rewrite (kept_mem _ _ Hk6); apply (kept_mem _ _ Hk3)).
    assert (Hfl : k_files s6 = alter (fun ff => set_foff (u32 (foff ff + Z.of_nat (length bs))) ff) f (k_files s)).
    { change (k_files s6) with (k_files (set_k_disk (k_disk s5) s6)). rewrite (kept_files _ _ Hk6). change (k_files s5) with (k_files s4). unfold s4. simpl.
      rewrite (kept_files _ _ Hk3). change (k_files (with_ino ip i' s2)) with (k_files s2). by rewrite Hf2. }
    split_and!; [done|done|intros g Hg; by rewrite Hfl, list_lookup_alter_ne|]. exists F', i'. split_and!; [|done|done|done|done|done|exists w; split; [by rewrite Hdk6, Hdk5|by rewrite <- Hdk5]].
    assert (Hin6 : k_inodes s6 = k_inodes s4) by (change (k_inodes s6) with (k_inodes (set_k_disk (k_disk s5) s6)); by rewrite (kept_inodes _ _ Hk6)).
    split.
    + exists V6. split; [exact Hinv6|exact HV6].
    + change (k_sb (set_k_disk (k_disk s5) s6) = sb). rewrite (kept_sb _ _ Hk6). change (k_sb s3 = sb). rewrite (kept_sb _ _ Hk3). simpl. by rewrite (kept_sb _ _ Hk1).
    + by rewrite Hin6.
    + rewrite Hin6. change (k_inodes s4) with (k_inodes s3). by rewrite Hin3, length_insert, Hin1.
    + by rewrite Href', Hval'.
    + change (k_slocks s6) with (k_slocks (set_k_disk (k_disk s5) s6)). rewrite (kept_slock _ _ _ Hk6). apply lookup_delete_eq.
    + rewrite Hfl, list_lookup_alter, decide_True, Hff by done. simpl. rewrite wrap_small; [done|]. rewrite MAXFILE_val, BSZ_val in Hend. lia.
    + exact Hfip.
    + apply (space_kept me s); [done|done|]. eapply quiet_trans; [apply Hk1|]. eapply quiet_trans; [exact Hq4|]. eapply quiet_trans; [apply quiet_wake|apply Hls6].
Qed.

(** *** The loop *)

(** Chunks still to be written. *)
Definition left (n j : Z) : nat := Z.to_nat ((n - j + write_max - 1) / write_max).

Lemma left_step n j : 0 <= j < n -> S (left n (j + chunk n j)) = left n j.
Proof.
  intros Hj. unfold left, chunk. rewrite write_max_val. destruct (Z.ltb_spec 3072 (n - j)); Z.to_euclidean_division_equations; lia.
Qed.

(** Whenever the power fails during the writes [w], the file has a whole number of chunks of [bs], and an inode of the size that goes with them. *)
Definition crash_chunks (F : Z -> list Z) (i : inode) (ib off : Z) (bs : list Z) (dk : diskst) (w : writes) : Prop :=
  forall p, p `prefix_of` w -> exists m F' i', (m <= length bs)%nat /\ (m = length bs \/ (write_max | Z.of_nat m)) /\
    written (eq ib) F i F' i' off (take m bs) /\ isize i' = Z.max (isize i) (off + Z.of_nat m) /\ recorded ib F i F' i' /\
    survives s0 d sb F' (dapply dk p).

Definition progress (s : kstate) (f ip : nat) (t : ptab) (F : Z -> list Z) (i : inode) (ff : file) (ib : Z) (bs : list Z) (j : nat) (s' : kstate) : Prop :=
  k_mem s' = k_mem s /\ (forall g, g <> f -> k_files s' !! g = k_files s !! g) /\ (j = length bs \/ (write_max | Z.of_nat j)) /\
  exists F' i', opened s' f ip t F' i' (set_foff (foff ff + Z.of_nat j) ff) /\ fine F' i' ib /\ written (eq ib) F i F' i' (foff ff) (take j bs) /\
    isize i' = Z.max (isize i) (foff ff + Z.of_nat j) /\ recorded ib F i F' i' /\ avail sb F' (8 * left (Z.of_nat (length bs)) (Z.of_nat j)) /\
    exists w, k_disk s' = dapply (k_disk s) w /\ crash_chunks F i ib (foff ff) bs (k_disk s) w.

Lemma opened_survives s f ip t F i ff : opened s f ip t F i ff -> survives s0 d sb F (k_disk s).
Proof.
  intros [(V & Hinv & HV) _ _ _ _ _ _ _ _]. apply (tofs_survives s0 me d sb Hst ltac:(lia) Hnb Hd Hz Hlog0). eexists.
  eapply (inv_tofs me d sb ltac:(lia)); [exact Hinv|done].
Qed.

Lemma progress_start s f ip t F i ff ib bs :
  opened s f ip t F i ff -> fine F i ib -> 0 <= foff ff <= isize i -> avail sb F (8 * left (Z.of_nat (length bs)) 0) ->
  progress s f ip t F i ff ib bs 0 s.
Proof.
  intros Hop Hfi Hoff Hav. split_and!; [done|done|right; by apply Z.divide_0_r|]. exists F, i. rewrite Z.add_0_r.
  assert (Hnil : written (eq ib) F i F i (foff ff) []) by (apply written_nil; apply Hfi).
  split_and!; [by destruct ff|done|done|lia|apply recorded_refl|done|]. exists []. rewrite dapply_nil. split; [done|]. intros p ->%prefix_nil_inv. exists 0%nat, F, i. rewrite dapply_nil.
  split_and!; [lia|right; by apply Z.divide_0_r|done|lia|apply recorded_refl|by eapply opened_survives].
Qed.

Lemma progress_step s s1 f ip t F i ff ib bs addr j :
  progress s f ip t F i ff ib bs j s1 -> (j < length bs)%nat -> useen t (k_mem s) addr bs -> 0 <= addr -> addr + Z.of_nat (length bs) < 2 ^ 64 ->
  0 <= foff ff <= isize i -> foff ff + Z.of_nat (length bs) <= MAXFILE * BSZ ->
  wp (write_chunk f ff addr (Z.of_nat (length bs)) (Z.of_nat j)) (fun r s2 => exists j', (j < j' <= length bs)%nat /\ r = inl (Z.of_nat j') /\
    progress s f ip t F i ff ib bs j' s2 /\ S (left (Z.of_nat (length bs)) (Z.of_nat j')) = left (Z.of_nat (length bs)) (Z.of_nat j)) s1.
Proof.
  intros (Hm & Hfs & Hdiv & F1 & i1 & Hop & Hfi & Hw & Hsz & Hrec & Hav & w & Hdk & Hcr) Hj Hbs Ha1 Ha2 Hoff Hend.
  set (n := Z.of_nat (length bs)) in *. pose proof (left_step n (Z.of_nat j) ltac:(lia)) as Hl. set (c := chunk n (Z.of_nat j)) in *.
  assert (Hc : 0 < c <= write_max /\ Z.of_nat j + c <= n /\ (Z.of_nat j + c = n \/ c = write_max)).
  { unfold c, chunk. rewrite write_max_val. destruct (Z.ltb_spec 3072 (n - Z.of_nat j)); lia. }
  set (xs := sub j (Z.to_nat c) bs). assert (Hxs : Z.of_nat (length xs) = c) by (unfold xs; rewrite length_sub; lia).
  assert (Hj' : Z.of_nat (j + Z.to_nat c) = Z.of_nat j + c) by lia.
  change (write_chunk f ff addr n (Z.of_nat j)) with (write_chunk f (set_foff (foff ff + Z.of_nat j) ff) addr n (Z.of_nat j)).
  eapply wp_mono; [apply (write_chunk_spec (8 * left n (Z.of_nat j + c)) s1 f ip t F1 i1 (set_foff (foff ff + Z.of_nat j) ff) ib xs addr (Z.of_nat j) n Hop Hfi); simpl foff|].
  - lia.
  - exact Hxs.
  - lia.
  - lia.
  - rewrite Hm. by apply useen_sub.
  - lia.
  - lia.
  - eapply (avail_le sb); [exact Hav|lia].
  - intros r s2 (-> & Hm2 & Hfs2 & F2 & i2 & Hop2 & Hfi2 & Hw2 & Hsz2 & Hrec2 & Hav2 & w2 & Hdk2 & Hcr2). simpl foff in *. fold c in Hop2, Hsz2 |- *.
    assert (Hlt : length (take j bs) = j) by (rewrite length_take; lia).
    assert (Htk : take j bs ++ xs = take (j + Z.to_nat c) bs) by (unfold xs, sub; by rewrite take_take_drop).
    assert (Hw12 : written (eq ib) F i F2 i2 (foff ff) (take (j + Z.to_nat c) bs)).
    { rewrite <- Htk. apply (written_trans d st nl sb ib F i F1 i1); [exact Hw|rewrite Hlt; exact Hw2|lia|rewrite Hlt; lia]. }
    pose proof (recorded_trans _ _ _ _ _ _ _ Hrec Hrec2) as Hrec12.
    exists (j + Z.to_nat c)%nat. rewrite Hj'. split_and!; [lia|lia|done| |done]. split_and!; [congruence|intros g Hg; by rewrite Hfs2, Hfs| |].
    { destruct (proj2 (proj2 Hc)) as [He|He]; [left; lia|right]. destruct Hdiv as [|Hdiv]; [lia|]. rewrite Hj', He. by apply Z.divide_add_r. }
    exists F2, i2. rewrite Hj', Z.add_assoc. split_and!; [exact Hop2|done|done|lia|done|done|]. exists (w ++ w2). split; [by rewrite Hdk2, Hdk, dapply_app|].
    intros p Hp. apply prefix_app_cases in Hp as [[k ->]|(p' & -> & Hp')].
    + apply Hcr. exists (drop k w). by rewrite take_drop.
    + rewrite <- dapply_app, <- Hdk. destruct (Hcr2 p' Hp') as [Hs|Hs].
      * exists j, F1, i1. by split_and!; [lia|..].
      * exists (j + Z.to_nat c)%nat, F2, i2. split_and!; [lia| |done|lia|done|done].
        destruct (proj2 (proj2 Hc)) as [He|He]; [left; lia|right]. destruct Hdiv as [|Hdiv]; [lia|]. rewrite Hj', He. by apply Z.divide_add_r.
Qed.

Lemma filewrite_progress s f ip t F i ff ib bs addr :
  opened s f ip t F i ff -> fine F i ib -> ftype ff = FD_INODE -> fwritable ff = true ->
  useen t (k_mem s) addr bs -> 0 <= addr -> addr + Z.of_nat (length bs) < 2 ^ 64 ->
  0 <= foff ff <= isize i -> foff ff + Z.of_nat (length bs) <= MAXFILE * BSZ -> avail sb F (8 * left (Z.of_nat (length bs)) 0) ->
  wp (filewrite f addr (Z.of_nat (length bs))) (fun r s' => r = Z.of_nat (length bs) /\ progress s f ip t F i ff ib bs (length bs) s') s.
Proof.
  intros Hop Hfi Hty Hwr Hbs Ha1 Ha2 Hoff Hend Hav. unfold filewrite. apply wp_bind, wp_gets.
  rewrite (list_lookup_total_correct _ _ _ (op_file _ _ _ _ _ _ _ Hop)), Hwr, Hty. cbn [negb]. set (n := Z.of_nat (length bs)) in *.
  eapply (wp_seq _ _ (fun j s' => j = n /\ progress s f ip t F i ff ib bs (length bs) s')).
  - apply (wp_while OutOfFuel (fun x s' => exists j, x = Z.of_nat j /\ (j <= length bs)%nat /\ progress s f ip t F i ff ib bs j s') (fun x => left n x)).
    + exists 0%nat. split_and!; [done|lia|by apply progress_start].
    + unfold left. rewrite write_max_val. Z.to_euclidean_division_equations; lia.
    + intros x s1 (j & -> & Hj & Hpr). destruct (Z.ltb_spec (Z.of_nat j) n) as [Hl|Hl]; cbn [negb].
      * change (wp (write_chunk f ff addr n (Z.of_nat j)) (fun r s'' => match r with
          | inl y => (exists j', y = Z.of_nat j' /\ (j' <= length bs)%nat /\ progress s f ip t F i ff ib bs j' s'') /\ (left n y < left n (Z.of_nat j))%nat
          | inr b => b = n /\ progress s f ip t F i ff ib bs (length bs) s'' end) s1).
        eapply wp_mono; [apply (progress_step s s1 f ip t F i ff ib bs addr j Hpr); (done || lia)|].
        intros r s2 (j' & Hj' & -> & Hpr' & Hlt). split; [exists j'; split_and!; [done|lia|done]|]. fold n in Hlt. lia.
      * apply wp_ret. assert (j = length bs) as -> by lia. done.
  - intros j s1 [-> Hpr]. apply wp_ret. by rewrite Z.eqb_refl.
Qed.

(** What a power failure during the writes [w] leaves: a file system in which the file, as its inode on the disk describes it, has a whole number
    of chunks of [bs], or all of it, and its other bytes as they were. *)
Definition crash_file (F : Z -> list Z) (i : inode) (ib off : Z) (bs : list Z) (dk : diskst) (w : writes) : Prop :=
  forall p, p `prefix_of` w -> exists m F' i', (m <= length bs)%nat /\ (m = length bs \/ (write_max | Z.of_nat m)) /\
    written (eq ib) F i F' i' off (take m bs) /\ isize i' = Z.max (isize i) (off + Z.of_nat m) /\ stored F' i' ib /\ beside ib F i F' /\
    survives s0 d sb F' (dapply dk p).

(** C2: [filewrite] to a file is durable, and atomic chunk by chunk.  A process writes [bs] from its memory to an inode, at an offset within
    the file; the disk has room, and the inode in memory is the one on the disk.  The call returns the number of bytes.  Then the inode on the disk,
    as [ilock] reads it, is that of a file which has [bs] at the offset and its other bytes
    as they were, and is as long as that requires; the other inodes in its block have not changed, and no other block outside the log and the bit map has; the offset
    has moved; all that the file system promises of the inode and the bit map holds again.  And when the power fails after
    any prefix of the block writes the disk was given, the machine comes up with a file system in which the inode on the disk describes the file with
    a prefix of [bs] written: all of it, or a whole number of chunks. *)
Theorem filewrite_durable s f ip t F i ff ib bs addr :
  opened s f ip t F i ff -> fine F i ib -> stored F i ib -> ftype ff = FD_INODE -> fwritable ff = true ->
  useen t (k_mem s) addr bs -> 0 <= addr -> addr + Z.of_nat (length bs) < 2 ^ 64 ->
  0 <= foff ff <= isize i -> foff ff + Z.of_nat (length bs) <= MAXFILE * BSZ -> avail sb F (8 * left (Z.of_nat (length bs)) 0) ->
  wp (filewrite f addr (Z.of_nat (length bs))) (fun r s' => r = Z.of_nat (length bs) /\ k_mem s' = k_mem s /\ (forall g, g <> f -> k_files s' !! g = k_files s !! g) /\
    exists F' i', opened s' f ip t F' i' (set_foff (foff ff + Z.of_nat (length bs)) ff) /\ fine F' i' ib /\ stored F' i' ib /\ beside ib F i F' /\
      written (eq ib) F i F' i' (foff ff) bs /\ isize i' = Z.max (isize i) (foff ff + Z.of_nat (length bs)) /\
      survives s0 d sb F' (k_disk s') /\
      exists w, k_disk s' = dapply (k_disk s) w /\ crash_file F i ib (foff ff) bs (k_disk s) w) s.
Proof.
  intros Hop Hfi Hst' Hty Hwr Hbs Ha1 Ha2 Hoff Hend Hav. eapply wp_mono; [by apply (filewrite_progress s f ip t F i ff ib bs addr)|].
  intros r s1 [-> (Hmem & Hfs & _ & F' & i' & Hop' & Hfi' & Hw & Hsz & (Hbe & _ & Hrec) & _ & w & Hdk & Hcr)]. rewrite take_ge in Hw by lia. split_and!; [done|done|done|].
  exists F', i'. split_and!; [done|done|by apply Hrec|done|done|done|by eapply opened_survives|]. exists w. split; [done|].
  intros p Hp. destruct (Hcr p Hp) as (m & F1 & i1 & H1 & H2 & H3 & H4 & (Hbe1 & _ & Hrec1) & H5). exists m, F1, i1. split_and!; try done. by apply Hrec1.
Qed.
End chunks.


(** ** A sample

    The disk has one block of bit map, in which the first 46 blocks are marked; the process writes the first eight bytes of its memory to
    an empty file, inode 1, which is in block 32. *)
Module SampleWrite.
Definition bitmap : list Z := replicate 5 255 ++ [63] ++ replicate 1018 0.

Definition i : inode := mkInode ROOTDEV 1 1 true 2 0 0 1 0 (replicate 13 0).
Definition disk : diskst := mkDisk {[45 := bitmap; 32 := put_dinode (dinode_off 1) i (replicate BSIZE 0)]} [].
Definition F : Z -> list Z := dblock disk.
Definition boot : kstate := SampleUser.state.
Definition mounted : kstate := match @mount one_round ROOTDEV sample_sb (powered boot disk) with Ok _ s => s | _ => boot end.
Definition ff : file := mkFile FD_INODE 1 true true 0 (Some 0%nat) 0 0.
Definition state : kstate := set_k_sb sample_sb (set_k_inodes [i] (set_k_files [ff] mounted)).
Definition bytes : list Z := replicate 8 0.

Local Abbreviation st := (sb_logstart sample_sb).
Local Abbreviation nl := (sb_nlog sample_sb).

Lemma zeroed : bzeroed boot 0 ROOTDEV.
Proof.
  split; [split_and!; [vm_compute; lia|by vm_compute|by vm_compute]|by vm_compute|by vm_compute|done|done|done|].
  intros b Hb. change (k_bufs boot) with (replicate (S NBUF) zero_buf). rewrite lookup_total_replicate_2 by lia. done.
Qed.

Lemma lay : layout st nl sample_sb.
Proof.
  assert (HB : forall b, 0 <= b < 2000 -> b / BPB = 0) by (intros b Hb; rewrite BPB_val; apply Z.div_small; lia).
  split; simpl; [lia|lia|intros b Hb; rewrite HB by done; lia|]. intros b Hb. unfold BBLOCK, in_log. simpl. rewrite HB by done. vm_compute. intros [? ?]. done.
Qed.

Lemma map_at b : 0 <= b < sb_size sample_sb -> BBLOCK b sample_sb = 45.
Proof. intros Hb. unfold BBLOCK. rewrite BPB_val, Z.div_small by (simpl in Hb; lia). reflexivity. Qed.

Lemma used_iff b : 0 <= b < sb_size sample_sb -> used sample_sb F b = (b <? 46).
Proof.
  intros Hb. unfold used. rewrite map_at by done. change (F 45) with bitmap. rewrite BPB_val, Z.mod_small by (simpl in Hb; lia). unfold bm_bit, bm_byte.
  assert (Hk : forallb (fun b => Bool.eqb (Z.testbit (bitmap !!! Z.to_nat (b / 8)) (b mod 8)) (b <? 46)) (zrange 0 2000) = true) by (by vm_compute).
  rewrite forallb_forall in Hk. apply eqb_prop, Hk. apply list_elem_of_In, (list_elem_of_lookup_2 _ (Z.to_nat b)). simpl in Hb. rewrite zrange_lookup by lia. f_equal. lia.
Qed.


Lemma inv_mounted : exists V, log_inv 0 ROOTDEV st nl mounted 0 [] V F /\ forall bn, ~ in_log st nl bn -> V bn = F bn.
Proof.
  assert (Ht : tofs sample_sb (dblock disk) (dblock disk) []).
  { split_and!; [split_and!; [simpl; lia|simpl; lia|constructor|apply NoDup_nil_2]|split; [done|by intros k bn]|done|done|done]. }
  destruct (proj1 (wp_run _ _ _) (@mount_inv one_round boot 0 ROOTDEV sample_sb ltac:(simpl; lia) ltac:(simpl; lia) ltac:(by vm_compute)
    ltac:(unfold ROOTDEV; lia) zeroed eq_refl disk Ht)) as ([] & s & Hrun & V & Hinv & HV & _).
  exists V. unfold mounted. rewrite Hrun. exact (conj Hinv HV).
Qed.
Local Opaque mounted.

Lemma mem_state v v' v'' s : k_mem (set_k_sb v (set_k_inodes v' (set_k_files v'' s))) = k_mem s.
Proof. done. Qed.

Lemma is_opened : @opened sample_layout 0 ROOTDEV sample_sb state 0 0 Sample.mapped_pt F i ff.
Proof.
  destruct inv_mounted as (V & Hinv & HV). split.
  - exists V. split; [|exact HV]. apply log_inv_tx. apply tx_set_sb, tx_set_inodes, tx_set_files. apply log_inv_tx. exact Hinv.
  - exact eq_refl.
  - exact eq_refl.
  - simpl. lia.
  - split; [exact eq_refl|simpl; lia].
  - vm_compute. exact eq_refl.
  - exact eq_refl.
  - exact eq_refl.
  - split_and!; [vm_compute; exact eq_refl| |exact sample_upages]. assert (Hm : k_mem mounted = Sample.mapped_mem) by (apply (bool_decide_unpack _); vm_compute; exact I).
    unfold state. rewrite mem_state, Hm. exact Sample.mapped_rep.
Qed.

Lemma is_fine : @fine ROOTDEV sample_sb F i 32.
Proof.
  assert (Hz : forall m, baddr F i m = 0).
  { intros m. unfold baddr. change (ind i) with 0. destruct (Z.ltb_spec m NDIRECT) as [Hm|]; [|done]. unfold addr_at. change (iaddrs i) with (replicate 13 0).
    apply lookup_total_replicate_2. change NDIRECT with 12 in Hm. lia. }
  split.
  - split; [done|done|done|intros m Hm; by rewrite Hz|intros m m' Hm Hm'; by rewrite Hz].
  - split; [intros b Hb; by rewrite map_at|]. intros c Hc. rewrite used_iff by done. intros Hlt. apply Z.ltb_ge in Hlt. split.
    + unfold in_log. simpl. lia.
    + intros (c' & Hc' & ->). rewrite map_at in Hlt by done. lia.
  - unfold boot_used. rewrite used_iff by (simpl; lia). done.
  - split_and!; [by vm_compute| |done|intros m Hm; by rewrite Hz]. split; [simpl; lia|rewrite used_iff by (simpl; lia); done|unfold in_log; simpl; lia| |done].
    intros (c' & Hc' & He). rewrite map_at in He by done. lia.
  - by vm_compute.
Qed.

Lemma is_stored : stored F i 32.
Proof. by split; vm_compute. Qed.

Lemma is_avail : avail sample_sb F 8.
Proof.
  exists (zrange 46 8). split_and!; [apply (bool_decide_unpack _); by vm_compute|by rewrite zrange_length|]. intros c Hc. apply list_elem_of_lookup in Hc as [k Hk].
  assert (Hlt : (k < 8)%nat) by (apply lookup_lt_Some in Hk; by rewrite zrange_length in Hk). rewrite zrange_lookup in Hk by done. simplify_eq.
  split; [simpl; lia|]. rewrite used_iff by (simpl; lia). apply Z.ltb_ge. lia.
Qed.

Lemma is_seen : useen Sample.mapped_pt (k_mem state) 0 bytes.
Proof.
  intros k b Hb. assert (Hk : (k < 8)%nat) by (by apply lookup_lt_Some in Hb). assert (b = 0) as -> by (by apply lookup_replicate in Hb as [-> _]).
  assert (Hall : forallb (fun k => bool_decide (uview (k_mem state) Sample.mapped_pt (0 + Z.of_nat k) = Some 0)) (seq 0 8) = true) by (vm_compute; exact eq_refl).
  rewrite forallb_forall in Hall. apply (bool_decide_unpack _), Is_true_true_2, Hall, in_seq. lia.
Qed.
End SampleWrite.

Lemma filewrite_durable_witness :
  wp (@filewrite one_round 0 0 8) (fun r s' => r = 8 /\ exists F' i', isize i' = 8 /\ di_size (dinode_off (State.inum i')) (F' 32) = isize i' /\ fbytes F' i' 0 8 = SampleWrite.bytes /\
    @survives one_round SampleWrite.boot ROOTDEV sample_sb F' (k_disk s')) SampleWrite.state.
Proof.
  eapply wp_mono; [apply (@filewrite_durable one_round sample_layout SampleWrite.boot 0 ROOTDEV sample_sb ltac:(simpl; lia) ltac:(simpl; lia) ltac:(by vm_compute)
    ltac:(unfold ROOTDEV; lia) SampleWrite.zeroed eq_refl SampleWrite.lay SampleWrite.state 0 0 Sample.mapped_pt SampleWrite.F SampleWrite.i SampleWrite.ff 32
    SampleWrite.bytes 0 SampleWrite.is_opened SampleWrite.is_fine SampleWrite.is_stored eq_refl eq_refl)|].
  - exact SampleWrite.is_seen.
  - lia.
  - simpl. lia.
  - simpl. lia.
  - by vm_compute.
  - exact SampleWrite.is_avail.
  - intros r s' (-> & _ & _ & F' & i' & _ & _ & Hso & _ & Hw & Hsz & Hsv & _). split; [done|]. exists F', i'. split_and!; [exact Hsz|exact (so_size _ _ _ Hso)| |exact Hsv].
    apply (written_bytes _ _ _ _ _ _ _ _ _ _ _ Hw); [done|by vm_compute].
Defined.
