(* ===== verification/FsRead.v ===== *)
(** Reading a file: [fileread] on an inode, from the disk to the memory of a process; and reading back what was written. *)
From S2P Require Import Prelude Machine Riscv State Spinlock KString Kalloc Vm Sched Copy User Uart Printf Block Bio BufCache Log LogSpec LogOps LogCrash Fs FsTx FsBlock FsInode FsFile Pipe FsWrite.
From Stdlib Require Import ZArith Lia.
From stdpp Require Import base strings numbers gmap list.
Local Open Scope Z_scope.
Local Open Scope m_scope.

Lemma kept_set_mem s s' m : kept s s' -> kept (set_k_mem m s) (set_k_mem m s').
Proof.
  intros [[Hs Hq] Hdk]. split; [|done]. split; [|done].
  change (lscrub (set_k_mem m ?t)) with (set_k_mem m (lscrub t)). by rewrite Hs.
Qed.

Section reading.
Context `{Patience} `{Layout}.
Variables (me : nat) (d st nl out : Z).
Hypothesis Hd : 0 <= d < 2 ^ 32.
Hypothesis Hnb : nl <= Z.of_nat NBUF.
Variable sb : superblock.

Local Abbreviation tx := (tx me d st nl out).
Local Abbreviation ino_ok := (ino_ok d st nl sb).

(** [bs] has been put at [va] in the memory of the process; nothing but that, the cache and the log differs from [s]. *)
Definition delivered (t : ptab) (va : Z) (s : kstate) (bs : list Z) (s' : kstate) : Prop :=
  uwritten t (k_mem s) va bs (k_mem s') /\ kept (set_k_mem (k_mem s') s) s'.

Lemma delivered_kept t va s bs s1 s2 : delivered t va s bs s1 -> kept s1 s2 -> delivered t va s bs s2.
Proof. intros [Hw Hk] Hk2. pose proof (kept_mem _ _ Hk2) as Hm. split; rewrite Hm; [done|by eapply kept_trans]. Qed.

Lemma delivered_space t va s bs s' : delivered t va s bs s' -> space me s t -> space me s' t.
Proof.
  intros [Hw [[_ Hq] _]] (H1 & H2 & H3). destruct (quiet_at _ _ me Hq) as [stt Hme]. split_and!; [by rewrite Hme|apply Hw|done].
Qed.

(** One piece of a read: copied out to memory that can be written. *)
Lemma put_user t va s bs s1 held x bl V F xs :
  tx s1 held x bl V F -> space me s t -> delivered t va s bs s1 -> 0 <= va -> va + Z.of_nat (length bs) + Z.of_nat (length xs) < 2 ^ 64 ->
  (forall k, 0 <= k < Z.of_nat (length bs + length xs) -> writable t (va + k) = true) ->
  wp (put_dst (RUser va) (Z.of_nat (length bs)) xs) (fun r s2 => r = 0 /\ tx s2 held x bl V F /\ delivered t va s (bs ++ xs) s2 /\ k_bufs s2 = k_bufs s1) s1.
Proof.
  intros Ht Hsp Hdl Hva Hmax Hwr. pose proof (tx_uproc me d st nl out _ _ _ _ _ _ _ Ht (delivered_space _ _ _ _ _ Hdl Hsp)) as Hu.
  unfold put_dst. rewrite wrap_small by lia.
  eapply wp_mono; [apply (either_copyout_spec s1 me t (va + Z.of_nat (length bs)) xs Hu ltac:(lia))|].
  intros r s2 (k & m' & -> & Hk & Hw & _ & Hcase). assert (k = length xs /\ r = 0) as [-> ->].
  { destruct Hcase as [[-> ->]|(_ & Hlt & Hno)]; [done|]. replace (va + Z.of_nat (length bs) + Z.of_nat k) with (va + Z.of_nat (length bs + k)) in Hno by lia.
    rewrite Hwr in Hno by lia. done. }
  rewrite take_ge in Hw by lia. split_and!; [done|by apply tx_set_mem, tx_settle| |done].
  destruct Hdl as [Hw1 Hk1]. split; [by eapply uwritten_app|].
  change (k_mem (set_k_mem m' (settle s1))) with m'. apply (kept_trans _ (set_k_mem m' s1)).
  - apply (kept_set_mem _ _ m') in Hk1. exact Hk1.
  - apply kept_set_mem, kept_settle.
Qed.

(** [readi] to the memory of the process. *)
Lemma readi_user s bl V F ip i t va off n :
  tx s ∅ None bl V F -> k_inodes s !!! ip = i -> ino_ok V i -> dense V i -> isize i <= MAXFILE * BSZ -> 0 <= off < 2 ^ 32 -> 0 <= n < 2 ^ 32 ->
  space me s t -> 0 <= va -> va + n < 2 ^ 64 -> (forall k, 0 <= k < readable i off n -> writable t (va + k) = true) ->
  wp (readi ip (RUser va) off n) (fun r s' => r = (readable i off n, fbytes V i off (Z.to_nat (readable i off n))) /\
    tx s' ∅ None bl V F /\ delivered t va s (fbytes V i off (Z.to_nat (readable i off n))) s') s.
Proof.
  intros Ht Hip Hi Hde Hsz Hoff Hn Hsp Hva Hmax Hwr. assert (Hrn : readable i off n <= n).
  { unfold readable. destruct (_ || _); lia. }
  apply (readi_run me d st nl out Hd Hnb sb s bl V F ip i (RUser va) off n (delivered t va s)); try done.
  - split; [apply uwritten_nil, Hsp|]. replace (set_k_mem (k_mem s) s) with s by (by destruct s). apply kept_refl.
  - intros bs s' [_ Hk]. rewrite (kept_inodes _ _ Hk). exact Hip.
  - intros bs s1 s2. apply delivered_kept.
  - intros bs xs s1 held Ht1 Hdl Hle. apply (put_user t va s bs s1 held None bl V F xs); try done; [lia|]. intros k Hk. apply Hwr. lia.
Qed.
End reading.

(** ** [fileread] *)

Section fileread.
Context `{Patience} `{Layout}.
Variables (me : nat) (d : Z) (sb : superblock).

Local Abbreviation st := (sb_logstart sb).
Local Abbreviation nl := (sb_nlog sb).
Local Abbreviation opened := (opened me d sb).

Hypothesis Hd : 0 <= d < 2 ^ 32.
Hypothesis Hnb : nl <= Z.of_nat NBUF.
Hypothesis Hly : layout st nl sb.

Lemma so_fbytes V F i off n : (forall bn, ~ in_log st nl bn -> V bn = F bn) -> ino_ok d st nl sb F i -> 0 <= off -> ((0 < n)%nat -> off + Z.of_nat n <= MAXFILE * BSZ) ->
  fbytes V i off n = fbytes F i off n.
Proof.
  intros Hs Hi Hoff Hn. apply list_fmap_ext. intros k x Hx. assert (Hk : (k < n)%nat) by (apply lookup_lt_Some in Hx; by rewrite zrange_length in Hx).
  rewrite zrange_lookup in Hx by done. simplify_eq. apply fbyte_fblock; [lia|]. intros m Hm. by apply (so_fblock d st nl sb).
Qed.

Lemma readable_bound i off n : 0 <= off -> 0 <= n -> 0 <= readable i off n /\ off + readable i off n <= Z.max off (isize i).
Proof. intros Hoff Hn. unfold readable. destruct (Z.ltb_spec (isize i) off); cbn [orb]; [lia|]. destruct (_ <=? _); lia. Qed.

Lemma fileread_spec s f ip t F i ff ib addr n :
  opened s f ip t F i ff -> fine d sb F i ib -> dense F i -> ftype ff = FD_INODE -> freadable ff = true ->
  0 <= foff ff < 2 ^ 31 -> 0 <= n < 2 ^ 31 -> 0 <= addr -> addr + n < 2 ^ 64 ->
  (forall k, 0 <= k < readable i (foff ff) n -> writable t (addr + k) = true) ->
  wp (fileread f addr n) (fun r s' => r = readable i (foff ff) n /\
    opened s' f ip t F i (set_foff (foff ff + readable i (foff ff) n) ff) /\ k_disk s' = k_disk s /\
    uwritten t (k_mem s) addr (fbytes F i (foff ff) (Z.to_nat (readable i (foff ff) n))) (k_mem s')) s.
Proof.
  intros [(V & Hinv & HV) Hsb Hip Hlt [Hval Href] Hsl Hff Hfip Hsp] [Hi Hfs Hb0 Hib Hsz] Hde Hty Hrd Hoff Hn Ha1 Ha2 Hwr.
  set (N := readable i (foff ff) n) in *. destruct (readable_bound i (foff ff) n ltac:(lia) ltac:(lia)) as [HN1 HN2]. fold N in HN1, HN2.
  assert (H32 : MAXFILE * BSZ < 2 ^ 31) by (rewrite MAXFILE_val, BSZ_val; lia).
  unfold fileread. apply wp_bind, wp_gets. rewrite (list_lookup_total_correct _ _ _ Hff), Hrd, Hty, Hfip. cbn [negb].
  apply log_inv_tx in Hinv. destruct (ilock_run me d st nl 0 s ∅ None [] V F ip Hinv) as [Hrun Ht1]; [done|by rewrite Hip|by rewrite Hip|].
  apply wp_bind. eapply wp_ok; [exact Hrun|]. apply wp_bind, wp_ret, wp_bind, wp_gets. set (s1 := ilocked me ip s) in *.
  change (k_files s1) with (k_files s). rewrite (list_lookup_total_correct _ _ _ Hff), wrap_small by lia.
  eapply wp_seq; [apply (readi_user me d st nl 0 Hd Hnb sb s1 [] V F ip i t addr (foff ff) n Ht1 Hip); try done; try lia|].
  - by apply (so_ino d st nl sb Hly F V).
  - intros k Hk. rewrite (so_baddr d st nl sb F V HV i _ Hi). by apply Hde.
  - intros r s2 (-> & Ht2 & [Hw2 Hk2]). fold N in Hw2 |- *.
    pose proof (kept_inodes _ _ Hk2) as Hin2. simpl in Hin2. pose proof (kept_files _ _ Hk2) as Hfl2. simpl in Hfl2.
    assert (Hq2 : quiet (k_procs s) (k_procs s2)) by apply Hk2.
    eapply (wp_seq _ _ (fun _ s' => exists v, s' = set_k_files v s2 /\ v !! f = Some (set_foff (foff ff + N) ff))).
    { destruct (Z.ltb_spec 0 N) as [HN|HN]; cbn [when].
      - apply wp_modify. eexists. split; [reflexivity|]. rewrite list_lookup_alter, decide_True, Hfl2, Hff by done. simpl. by rewrite wrap_small by lia.
      - apply wp_ret. exists (k_files s2). split; [by destruct s2|]. rewrite Hfl2, Hff. replace N with 0 by lia. rewrite Z.add_0_r. by destruct ff. }
    intros [] s3 (v & -> & Hv). set (s3 := set_k_files v s2).
    assert (Ht3 : tx me d st nl 0 s3 ∅ None [] V F) by (by apply tx_set_files).
    destruct (iunlock_run me d st nl 0 s3 ∅ None [] V F ip Ht3) as [Hrun3 Ht4].
    { rewrite (mine_quiet me s s3) by exact Hq2. change (k_slocks s3) with (k_slocks s2). rewrite (kept_slock _ _ _ Hk2). simpl. apply lookup_insert_eq. }
    { change (k_inodes s3) with (k_inodes s2). rewrite Hin2, Hip. lia. }
    rewrite Hfip. apply wp_bind. eapply wp_ok; [exact Hrun3|]. apply wp_ret. split_and!; [done| |by destruct Hk2|].
    + split.
      * exists V. split; [by apply log_inv_tx|done].
      * change (k_sb s2 = sb). by rewrite (kept_sb _ _ Hk2).
      * change (k_inodes s2 !!! ip = i). by rewrite Hin2.
      * change (ip < length (k_inodes s2))%nat. by rewrite Hin2.
      * done.
      * apply lookup_delete_eq.
      * exact Hv.
      * exact Hfip.
      * destruct Hsp as (H1 & H2 & H3). destruct (quiet_at _ _ me (quiet_trans _ _ _ Hq2 (quiet_wake (C_sleeplock (SL_inode ip)) (Some me) (k_procs s2)))) as [stt Hme].
        split_and!; [|apply Hw2|done]. change (ppagetable (wake_all (C_sleeplock (SL_inode ip)) (Some me) (k_procs s2) !!! me) = pt_root t). by rewrite Hme.
    + rewrite (so_fbytes V F i) in Hw2; [exact Hw2|done|done|lia|]. intros HN. lia.
Qed.
End fileread.

(** ** Reading back *)

Section roundtrip.
Context `{Patience} `{Layout}.
Variables (s0 : kstate) (me : nat) (d : Z) (sb : superblock).

Local Abbreviation st := (sb_logstart sb).
Local Abbreviation nl := (sb_nlog sb).
Local Abbreviation opened := (opened me d sb).
Local Abbreviation fine := (fine d sb).

Hypothesis Hst : 0 <= st.
Hypothesis Hnl : 25 < nl /\ st + nl < 2 ^ 31.
Hypothesis Hnb : nl <= Z.of_nat NBUF.
Hypothesis Hd : 0 <= d < 2 ^ 32.
Hypothesis Hz : bzeroed s0 me d.
Hypothesis Hlog0 : k_log s0 = zero_log.
Hypothesis Hly : layout st nl sb.

(** Another file of the same inode. *)
Lemma opened_other s f ip t F i ff g gg : opened s f ip t F i ff -> k_files s !! g = Some gg -> fip gg = Some ip -> opened s g ip t F i gg.
Proof. intros [] Hg Hip. by split. Qed.

Lemma opened_set_files s f ip t F i ff v g gg : opened s f ip t F i ff -> v !! g = Some gg -> fip gg = Some ip -> opened (set_k_files v s) g ip t F i gg.
Proof. intros [(V & Hinv & HV) H1 H2 H3 H4 H5 H6 H7 H8] Hg Hip. split; try done. exists V. split; [by apply log_inv_tx, tx_set_files, log_inv_tx|done]. Qed.

(** C3: what is written to a file is read back.  The file has no holes, the offset is within it, what is written does not exceed the largest size of a file and the disk has room for it.
    A process writes [bs] from its memory to an inode through one open file, and then reads as
    many bytes through another one at the same offset into another place of its memory.  Both calls return the number of
    bytes, and the second place then has [bs]; the rest of its memory is as it was.  This goes through the whole file system: the file layer, the
    inode, its direct and indirect blocks, the bit map, the log, the buffer cache and the disk. *)
Theorem filewrite_fileread s f g ip t F i ff gg ib bs addr dst :
  opened s f ip t F i ff -> fine F i ib -> dense F i -> ftype ff = FD_INODE -> fwritable ff = true ->
  k_files s !! g = Some gg -> g <> f -> fip gg = Some ip -> ftype gg = FD_INODE -> freadable gg = true -> foff gg = foff ff ->
  useen t (k_mem s) addr bs -> 0 <= addr -> addr + Z.of_nat (length bs) < 2 ^ 64 ->
  0 <= dst -> dst + Z.of_nat (length bs) < 2 ^ 64 -> (forall k, 0 <= k < Z.of_nat (length bs) -> writable t (dst + k) = true) ->
  0 <= foff ff <= isize i -> foff ff + Z.of_nat (length bs) <= MAXFILE * BSZ -> avail sb F (8 * left (Z.of_nat (length bs)) 0) ->
  wp (n <- filewrite f addr (Z.of_nat (length bs)) ;; m <- fileread g dst (Z.of_nat (length bs)) ;; ret (n, m)) (fun r s' =>
    r = (Z.of_nat (length bs), Z.of_nat (length bs)) /\ uwritten t (k_mem s) dst bs (k_mem s')) s.
Proof.
  intros Hop Hfi Hde Hty Hwr Hgg Hne Hgip Hgty Hgrd Hgoff Hbs Ha1 Ha2 Hd1 Hd2 Hdw Hoff Hend Hav.
  assert (H32 : MAXFILE * BSZ < 2 ^ 31) by (rewrite MAXFILE_val, BSZ_val; lia).
  eapply wp_seq; [by apply (filewrite_progress s0 me d sb Hst Hnl Hnb Hd Hz Hlog0 Hly s f ip t F i ff ib bs addr)|].
  intros n s1 [-> (Hm1 & Hf1 & _ & F1 & i1 & Hop1 & Hfi1 & Hw & Hsz & _)]. rewrite take_ge in Hw by lia.
  assert (Hop2 : opened s1 g ip t F1 i1 gg) by (eapply opened_other; [exact Hop1|by rewrite Hf1|done]).
  assert (Hrd : readable i1 (foff gg) (Z.of_nat (length bs)) = Z.of_nat (length bs)).
  { unfold readable. rewrite Hgoff, Hsz, (proj2 (Z.ltb_ge _ (foff ff))), (proj2 (Z.leb_gt (2 ^ 32) _)) by lia. cbn [orb]. lia. }
  eapply wp_seq; [apply (fileread_spec me d sb Hd Hnb Hly s1 g ip t F1 i1 gg ib dst (Z.of_nat (length bs)) Hop2 Hfi1); try done; try lia|].
  - eapply (written_dense d st nl Hd); [exact Hw|done|done|done|apply Hfi|done].
  - by rewrite Hrd.
  - rewrite Hrd, Hgoff, Nat2Z.id, Hm1. intros m s2 (-> & _ & _ & Hu). apply wp_ret. split; [done|].
    by rewrite (written_bytes _ _ _ _ _ _ _ _ _ _ _ Hw) in Hu by lia.
Qed.
End roundtrip.

Lemma mem_files v s : k_mem (set_k_files v s) = k_mem s.
Proof. done. Qed.

Lemma filewrite_fileread_witness :
  wp (n <- @filewrite one_round 0 0 8 ;; m <- @fileread one_round 1 100 8 ;; ret (n, m)) (fun r s' => r = (8, 8) /\
    forall k, (k < 8)%nat -> uview (k_mem s') Sample.mapped_pt (100 + Z.of_nat k) = SampleWrite.bytes !! k)
    (set_k_files [SampleWrite.ff; SampleWrite.ff] SampleWrite.state).
Proof.
  eapply wp_mono; [apply (@filewrite_fileread one_round sample_layout SampleWrite.boot 0 ROOTDEV sample_sb ltac:(simpl; lia) ltac:(simpl; lia) ltac:(by vm_compute)
    ltac:(unfold ROOTDEV; lia) SampleWrite.zeroed eq_refl SampleWrite.lay (set_k_files [SampleWrite.ff; SampleWrite.ff] SampleWrite.state) 0 1 0 Sample.mapped_pt
    SampleWrite.F SampleWrite.i SampleWrite.ff SampleWrite.ff 32 SampleWrite.bytes 0 100)|].
  - exact (@opened_set_files sample_layout 0 ROOTDEV sample_sb _ _ _ _ _ _ _ [SampleWrite.ff; SampleWrite.ff] 0 SampleWrite.ff SampleWrite.is_opened eq_refl eq_refl).
  - exact SampleWrite.is_fine.
  - intros k Hk. simpl in Hk. lia.
  - exact eq_refl.
  - exact eq_refl.
  - exact eq_refl.
  - lia.
  - exact eq_refl.
  - exact eq_refl.
  - exact eq_refl.
  - exact eq_refl.
  - rewrite mem_files. exact SampleWrite.is_seen.
  - lia.
  - simpl. lia.
  - lia.
  - simpl. lia.
  - intros k Hk. simpl in Hk. apply SampleUser.writable_page. unfold PGSIZE. lia.
  - simpl. lia.
  - by vm_compute.
  - exact SampleWrite.is_avail.
  - intros r s' [-> Hu]. split; [exact eq_refl|]. intros k Hk. rewrite (uw_view _ _ _ _ _ Hu) by lia. rewrite decide_True by (simpl; lia). f_equal. lia.
Defined.
