(* ===== verification/FileTable.v ===== *)
(** The file table of [kernel/file.c] and the life of a pipe of [kernel/pipe.c]: allocation of files,
    reference counts, and that a pipe's page and files are given back. *)
From S2P Require Import Prelude Machine Riscv State Spinlock Ring KString Kalloc Vm Sched Copy User Handover Uart Printf Console Block Bio Log Fs Pipe.
From Stdlib Require Import ZArith Lia.
From stdpp Require Import base strings numbers gmap list.
Local Open Scope Z_scope.
Local Open Scope m_scope.

(** [r] is the first file of the table that nothing refers to. *)
Definition lowest_free (fs : list file) (r : option nat) : Prop :=
  match r with
  | Some i => (i < NFILE)%nat /\ fref (fs !!! i) = 0 /\ forall j, (j < i)%nat -> fref (fs !!! j) <> 0
  | None => forall j, (j < NFILE)%nat -> fref (fs !!! j) <> 0
  end.

(** The file table after [filealloc]. *)
Definition allocated (r : option nat) (s : kstate) : kstate :=
  match r with Some i => set_k_files (alter (set_fref 1) i (k_files s)) s | None => s end.

(** [filealloc] allocates the first file of the table with no reference and gives
    it one, and touches no other file; it fails only when every file is in use. *)
Lemma filealloc_spec s :
  hart_ok s -> lock_free L_ftable s ->
  wp filealloc (fun r s' => lowest_free (k_files s) r /\ s' = allocated r (settle s)) s.
Proof.
  intros Hok Hf. unfold filealloc. apply wp_bind, wp_acquire; [done|done|]. apply wp_bind.
  apply (wp_for_ret (fun pre s' => s' = acquired L_ftable s /\ forall j, j ∈ pre -> fref (k_files s !!! j) <> 0)).
  - split; [done|]. intros j Hj. by apply not_elem_of_nil in Hj.
  - intros pre i post s' Hsplit [-> Hpre]. apply wp_bind, wp_gets. cbv beta. change (k_files (acquired L_ftable s)) with (k_files s).
    destruct (Z.eqb_spec (fref (k_files s !!! i)) 0) as [H0|Hne].
    + apply wp_bind, wp_modify. apply wp_bind, wp_release; [hart_tac|hart_tac|hart_tac|]. apply wp_ret, wp_ret.
      assert (Hi : seq 0 NFILE !! length pre = Some i) by (rewrite Hsplit; by rewrite list_lookup_middle).
      apply lookup_seq in Hi as [-> Hi]. split; [split_and!; [done|done|]|].
      * intros j Hj. apply Hpre. assert (Hj' : seq 0 NFILE !! j = Some j) by (apply lookup_seq; lia).
        rewrite Hsplit, lookup_app_l in Hj' by done. by eapply list_elem_of_lookup_2.
      * change (released L_ftable (set_k_files ?v (acquired L_ftable s))) with (set_k_files v (released L_ftable (acquired L_ftable s))).
        by rewrite released_acquired.
    + apply wp_ret. split; [done|]. intros j. rewrite elem_of_app, list_elem_of_singleton. intros [Hj| ->]; [by apply Hpre|done].
  - intros s' [-> Hall]. apply wp_bind, wp_release; [hart_tac|hart_tac|hart_tac|]. apply wp_ret. rewrite released_acquired by done.
    split; [|done]. intros j Hj. apply Hall, elem_of_seq. lia.
Qed.


(** ** Reference counts *)

Section close.
Context `{Layout} `{Patience} `{Garbage}.

(** A file that nothing refers to any more. *)
Definition retired (f : file) : file := set_ftype FD_NONE (set_fref 0 f).

(** What [fileclose] does when the last reference goes. *)
Definition finish_close (ff : file) : K unit :=
  match ftype ff with
  | FD_PIPE => pipeclose (fpipe ff) (fwritable ff)
  | FD_INODE | FD_DEVICE => begin_op ;; ip <- deref (fip ff) ;; iput ip ;; end_op
  | FD_NONE => ret tt
  end.

Section runs.
Variables (f : nat) (s : kstate).
Hypothesis Hok : hart_ok s.
Hypothesis Hfree : lock_free L_ftable s.
Hypothesis Hf : (f < length (k_files s))%nat.

Lemma filedup_run :
  1 <= fref (k_files s !!! f) ->
  filedup f s = Ok f (set_k_files (alter (fun ff => set_fref (fref ff + 1) ff) f (k_files s)) (settle s)).
Proof.
  intros Hr. unfold filedup. erewrite bind_ok; [|by apply acquire_run]. erewrite bind_ok; [|reflexivity].
  change (k_files (acquired L_ftable s)) with (k_files s). rewrite (proj2 (Z.ltb_ge _ _)) by lia.
  erewrite bind_ok; [|reflexivity]. erewrite bind_ok; [|apply release_run; hart_tac].
  change (k_files (acquired L_ftable s)) with (k_files s).
  change (released L_ftable (set_k_files ?v (acquired L_ftable s))) with (set_k_files v (released L_ftable (acquired L_ftable s))).
  by rewrite released_acquired.
Qed.

Lemma fileclose_shared :
  1 < fref (k_files s !!! f) ->
  fileclose f s = Ok tt (set_k_files (alter (fun ff => set_fref (fref ff - 1) ff) f (k_files s)) (settle s)).
Proof.
  intros Hr. unfold fileclose. erewrite bind_ok; [|by apply acquire_run]. erewrite bind_ok; [|reflexivity].
  change (k_files (acquired L_ftable s)) with (k_files s). rewrite (proj2 (Z.ltb_ge _ _)) by lia.
  erewrite bind_ok; [|reflexivity]. erewrite bind_ok; [|reflexivity]. change (k_files (acquired L_ftable s)) with (k_files s).
  change (k_files (set_k_files ?v (acquired L_ftable s))) with v. rewrite list_lookup_total_alter_eq by done. rewrite (proj2 (Z.ltb_lt _ _)) by (simpl; lia).
  rewrite release_run by hart_tac. f_equal.
  change (released L_ftable (set_k_files ?v (acquired L_ftable s))) with (set_k_files v (released L_ftable (acquired L_ftable s))).
  by rewrite released_acquired.
Qed.

Lemma fileclose_last :
  fref (k_files s !!! f) = 1 ->
  fileclose f s = finish_close (k_files s !!! f) (set_k_files (alter retired f (k_files s)) (settle s)).
Proof.
  intros Hr. unfold fileclose. erewrite bind_ok; [|by apply acquire_run]. erewrite bind_ok; [|reflexivity].
  change (k_files (acquired L_ftable s)) with (k_files s). rewrite (proj2 (Z.ltb_ge _ _)) by lia.
  erewrite bind_ok; [|reflexivity]. erewrite bind_ok; [|reflexivity]. change (k_files (acquired L_ftable s)) with (k_files s).
  change (k_files (set_k_files ?v (acquired L_ftable s))) with v. rewrite list_lookup_total_alter_eq by done. rewrite (proj2 (Z.ltb_ge _ _)) by (simpl; lia).
  erewrite bind_ok; [|reflexivity]. erewrite bind_ok; [|reflexivity]. erewrite bind_ok; [|apply release_run; hart_tac].
  change (released L_ftable (set_k_files ?v _)) with (set_k_files v (released L_ftable (acquired L_ftable s))).
  rewrite released_acquired by done. simpl k_files. rewrite !list_alter_alter_eq. unfold finish_close. destruct (k_files s !!! f). done.
Qed.
End runs.

(** ** Allocation of a pipe *)

Lemma list_alter_swap {A} (g h : A -> A) i j (l : list A) : i <> j -> alter g i (alter h j l) = alter h j (alter g i l).
Proof.
  intros Hne. apply list_eq. intros k. rewrite !list_lookup_alter.
  repeat case_decide; subst; try done; by destruct (l !! k).
Qed.

(** One end of a new pipe. *)
Definition pipe_end (rd : bool) (pi : Z) (f : file) : file :=
  set_fpipe pi (set_fwritable (negb rd) (set_freadable rd (set_ftype FD_PIPE (set_fref 1 f)))).
Definition new_pipe : pipe := mkPipe (replicate (Z.to_nat PIPESIZE) 5) 0 0 true true.

(** No file has a kind without a reference. *)
Definition ftable_ok (fs : list file) : Prop :=
  length fs = NFILE /\ forall i, fref (fs !!! i) = 0 -> ftype (fs !!! i) = FD_NONE.

Lemma retired_fresh fs i : ftable_ok fs -> fref (fs !!! i) = 0 -> alter retired i (alter (set_fref 1) i fs) = fs.
Proof.
  intros [_ Hok] Hr. rewrite list_alter_alter_eq. apply alter_id_at. simpl. unfold retired. pose proof (Hok i Hr) as Ht.
  destruct (fs !!! i). simpl in *. by subst.
Qed.

Section alloc.
Variables (s : kstate) (F : gset Z).
Hypothesis Hk : kmem_free s F.
Hypothesis Hft : lock_free L_ftable s.
Hypothesis Hfs : ftable_ok (k_files s).
Hypothesis Hpl : forall a, a ∈ F -> lock_free (L_pipe a) s.

(** Closing a file that has only just been allocated. *)
Lemma fileclose_fresh i s1 :
  hart_ok s1 -> lock_free L_ftable s1 -> length (k_files s1) = NFILE -> (i < NFILE)%nat ->
  fref (k_files s1 !!! i) = 1 -> ftype (k_files s1 !!! i) = FD_NONE ->
  fileclose i s1 = Ok tt (set_k_files (alter retired i (k_files s1)) (settle s1)).
Proof. intros Hok Hf Hl Hi Hr Ht. rewrite fileclose_last by (done || lia). unfold finish_close. by rewrite Ht. Qed.

(** The state after a successful [pipealloc]. *)
Record piped (f0 f1 : nat) (pi : Z) (s' : kstate) : Prop := {
  pd_page : pi ∈ F;
  pd_free : kmem_free s' (F ∖ {[pi]});
  pd_f0 : (f0 < NFILE)%nat /\ fref (k_files s !!! f0) = 0;
  pd_f1 : (f1 < NFILE)%nat /\ fref (k_files s !!! f1) = 0;
  pd_ne : f0 <> f1;
  pd_state : exists m fl, (forall x, ~ in_page pi x -> ld8 m x = ld8 (k_mem s) x) /\
    s' = set_k_pipes (<[pi := new_pipe]> (k_pipes s)) (set_k_files
      (alter (pipe_end false pi) f1 (alter (pipe_end true pi) f0 (k_files s))) (set_k_mem m (set_k_freelist fl (settle s))))
}.

(** Both files back in the table. *)
Lemma close_both f0 f1 s1 :
  (f0 < NFILE)%nat -> (f1 < NFILE)%nat -> f0 <> f1 -> fref (k_files s !!! f0) = 0 -> fref (k_files s !!! f1) = 0 ->
  s1 = set_k_files (alter (set_fref 1) f1 (alter (set_fref 1) f0 (k_files s))) (settle s) ->
  wp (fileclose f0 ;; fileclose f1 ;; ret (@None (nat * nat))) (fun r s' => r = None /\ s' = settle s) s1.
Proof.
  intros Hi0 Hi1 Hne Hr0 Hr1 ->. pose proof Hk as (Hok & _). pose proof Hfs as [Hlen Hnone].
  apply wp_bind. eapply wp_ok; [apply fileclose_fresh; try done; try hart_tac; try (simpl; by rewrite !length_alter)|];
    [simpl; rewrite list_lookup_total_alter_ne, list_lookup_total_alter_eq by (done || lia); simpl; auto..|].
  rewrite settle_set_files, settle_settle. simpl k_files. rewrite (list_alter_swap _ _ f0 f1), retired_fresh by done.
  apply wp_bind. eapply wp_ok; [apply fileclose_fresh; try done; try hart_tac; try (simpl; by rewrite !length_alter)|];
    [simpl; rewrite list_lookup_total_alter_eq by lia; simpl; auto..|].
  apply wp_ret. split; [done|]. simpl. rewrite retired_fresh by done. rewrite settle_set_files, settle_set_files, !settle_settle. by destruct s.
Qed.

(** No pipe can be made: there is no free page, or all files but at most one are in use. *)
Definition no_pipe : Prop := F = ∅ \/ exists i, forall j, (j < NFILE)%nat -> j <> i -> fref (k_files s !!! j) <> 0.

Lemma pipealloc_spec :
  wp pipealloc (fun r s' => match r with
    | None => s' = settle s /\ no_pipe
    | Some (f0, f1) => exists pi, piped f0 f1 pi s'
    end) s.
Proof.
  pose proof Hk as (Hok & Hkl & _). pose proof Hfs as [Hlen Hnone]. unfold pipealloc. apply wp_bind. eapply wp_mono; [by apply filealloc_spec|].
  intros [f0|] s' [Hlo ->]; [|repeat apply wp_bind, wp_ret; apply wp_ret; split; [done|right; exists 0%nat; auto]]. destruct Hlo as (Hi0 & Hr0 & _). simpl allocated.
  set (s1 := set_k_files _ (settle s)). assert (Hok1 : hart_ok s1) by (unfold s1; hart_tac).
  assert (Hset1 : settle s1 = s1) by (unfold s1; by rewrite settle_set_files, settle_settle).
  apply wp_bind. simpl is_some. cbv iota. eapply wp_mono; [by apply filealloc_spec|]. rewrite Hset1.
  assert (Hf0 : k_files s1 !!! f0 = set_fref 1 (k_files s !!! f0)) by (simpl; by rewrite list_lookup_total_alter_eq by lia).
  intros [f1|] s' [Hlo ->].
  2:{ apply wp_bind, wp_ret. apply wp_bind. eapply wp_ok; [apply (fileclose_fresh f0 s1); [done|done|simpl; by rewrite length_alter|done|by rewrite Hf0|rewrite Hf0; by apply Hnone]|].
      apply wp_ret. split; [rewrite Hset1; simpl; rewrite retired_fresh by done; by destruct s|]. right. exists f0. intros j Hj Hn. specialize (Hlo j Hj).
      simpl in Hlo. by rewrite list_lookup_total_alter_ne in Hlo. }
  destruct Hlo as (Hi1 & Hr1 & _). simpl allocated. set (s2 := set_k_files _ s1).
  assert (Hne : f0 <> f1) by (intros <-; by rewrite Hf0 in Hr1).
  simpl in Hr1. rewrite list_lookup_total_alter_ne in Hr1 by done.
  assert (Hset2 : settle s2 = s2) by (unfold s2; by rewrite settle_set_files, Hset1).
  assert (Hk2 : kmem_free s2 F).
  { destruct Hk as (_ & _ & l & Hl & HF). split_and!; [unfold s2; hart_tac|done|]. exists l. split; [|done]. by eapply kmem_inv_ext. }
  simpl is_some. simpl andb. cbv iota. apply wp_bind. eapply wp_mono; [apply (kalloc_law s2 F Hk2)|].
  intros pi s3 [(-> & HF & -> & _)|(HpF & Hk3 & Hst & Hmem)].
  - eapply wp_mono; [by apply (close_both f0 f1); [..|rewrite Hset2]|]. intros r s' [-> ->]. split; [done|by left].
  - rewrite Hset2 in Hst. rewrite (proj2 (Z.eqb_neq _ _)) by exact (good_page_nonzero _ (kmem_free_good _ _ _ Hk HpF)).
    apply wp_bind, wp_modify. apply wp_bind, wp_initlock. do 8 (apply wp_bind, wp_modify). apply wp_ret. exists pi.
    match goal with |- piped _ _ _ ?x => assert (Hx : x = set_k_pipes (<[pi := new_pipe]> (k_pipes s)) (set_k_files
      (alter (pipe_end false pi) f1 (alter (pipe_end true pi) f0 (k_files s))) (set_k_mem (k_mem s3) (set_k_freelist (k_freelist s3) (settle s))))) end.
    { rewrite Hst. simpl. rewrite (delete_id _ _ (Hpl pi HpF)), !list_alter_alter_eq.
      rewrite (list_alter_swap _ _ f0 f1), !list_alter_alter_eq by done. done. }
    rewrite Hx. destruct Hk3 as (Hok3 & _ & l & Hl & HF). split; try done.
    + split_and!; [hart_tac|done|]. exists l. split; [|done]. by eapply kmem_inv_ext.
    + by exists (k_mem s3), (k_freelist s3).
Qed.
End alloc.

(** ** Closing a pipe *)

Section closing.
Variables (s : kstate) (F : gset Z) (pi : Z) (p : pipe).
Hypothesis Hk : kmem_free s F.
Hypothesis Hpl : plocks_free s.
Hypothesis Hps : length (k_procs s) = NPROC.
Hypothesis Hl : lock_free (L_pipe pi) s.
Hypothesis Hp : k_pipes s !! pi = Some p.
Hypothesis Hpage : good_page pi /\ pi ∉ F.

Definition end_closed (w : bool) (p : pipe) : pipe := if w then set_writeopen false p else set_readopen false p.

(** The state of a pipe that is still open at the other end. *)
Definition half_closed (w : bool) (s' : kstate) : Prop :=
  exists ps, quiet (k_procs s) ps /\ s' = set_k_procs ps (set_k_pipes (<[pi := end_closed w p]> (k_pipes s)) (settle s)).

Lemma pipeclose_wakes (w : bool) :
  exists ps, quiet (k_procs s) ps /\
  (if w then upd_pipe pi (set_writeopen false) ;; wakeup (C_pipe_nread pi)
   else upd_pipe pi (set_readopen false) ;; wakeup (C_pipe_nwrite pi)) (acquired (L_pipe pi) s) =
  Ok tt (acquired (L_pipe pi) (set_k_procs ps (set_k_pipes (<[pi := end_closed w p]> (k_pipes s)) s))).
Proof.
  pose proof Hk as (Hok & _). exists (wake_all (if w then C_pipe_nread pi else C_pipe_nwrite pi) (cproc (cur s)) (k_procs s)).
  split; [apply quiet_wake|]. assert (Hupd : forall f, upd_pipe pi f (acquired (L_pipe pi) s) =
    Ok tt (acquired (L_pipe pi) (set_k_pipes (<[pi := f p]> (k_pipes s)) s))).
  { intros f. unfold upd_pipe, get_pipe, bind, gets. simpl. by rewrite Hp. }
  destruct w; (erewrite bind_ok; [|apply Hupd]); rewrite wakeup_run;
    try (by apply hart_ok_acquired); try done; try (intros j; apply lock_free_acquired; [discriminate|apply Hpl]);
    (rewrite settle_acquired by done; rewrite cproc_acquired by done; done).
Qed.

Lemma pipeclose_spec w :
  wp (pipeclose pi w) (fun _ s' =>
    if (if w then readopen p else writeopen p) then half_closed w s'
    else kmem_free s' ({[pi]} ∪ F) /\ exists m fl ps, quiet (k_procs s) ps /\ (forall x, ~ in_page pi x -> ld8 m x = ld8 (k_mem s) x) /\
      s' = set_k_mem m (set_k_freelist fl (set_k_procs ps (set_k_pipes (delete pi (k_pipes s)) (settle s))))) s.
Proof.
  pose proof Hk as (Hok & Hkl & l & Hkm & HF). destruct (pipeclose_wakes w) as (ps & Hq & Hrun). unfold pipeclose.
  apply wp_bind, wp_acquire; [done|done|]. apply wp_bind. eapply wp_ok; [exact Hrun|]. cbv beta.
  set (s1 := set_k_procs ps _). assert (Hok1 : hart_ok s1) by (unfold s1; hart_tac).
  assert (Hget : get_pipe pi (acquired (L_pipe pi) s1) = Ok (end_closed w p) (acquired (L_pipe pi) s1)).
  { unfold get_pipe, bind, gets. simpl. by rewrite lookup_insert_eq. }
  apply wp_bind. eapply wp_ok; [exact Hget|]. cbv beta.
  assert (Hrel : release (L_pipe pi) (acquired (L_pipe pi) s1) = Ok tt (settle s1)).
  { rewrite release_run by hart_tac. by rewrite released_acquired. }
  replace (negb (readopen (end_closed w p)) && negb (writeopen (end_closed w p))) with (negb (if w then readopen p else writeopen p))
    by (destruct w; simpl; by rewrite ?andb_true_r).
  destruct (if w then readopen p else writeopen p); simpl negb; cbv iota.
  - eapply wp_ok; [exact Hrel|]. by exists ps.
  - apply wp_bind. eapply wp_ok; [exact Hrel|]. cbv beta. apply wp_bind, wp_modify.
    match goal with |- wp _ _ ?x => assert (Hx : x = set_k_procs ps (set_k_pipes (delete pi (k_pipes s)) (settle s))) end.
    { unfold s1, set_k_pipes. simpl. by rewrite delete_insert_eq. }
    rewrite Hx. set (s2 := set_k_procs _ _). eapply wp_mono; [apply (kfree_law s2 F); [|apply Hpage|apply Hpage]|].
    + split_and!; [unfold s2; hart_tac|done|]. exists l. split; [|done]. by eapply kmem_inv_ext.
    + intros [] s' (Hk' & Hst & Hmem). split; [done|]. exists (k_mem s'), (k_freelist s'), ps. split_and!; [done|exact Hmem|].
      rewrite Hst at 1. unfold s2. by rewrite settle_set_procs, settle_set_pipes, settle_settle.
Qed.
End closing.

(** Closing the last reference to an end of a pipe. *)
Lemma fileclose_pipe_end s f pi w Q :
  hart_ok s -> lock_free L_ftable s -> (f < length (k_files s))%nat -> fref (k_files s !!! f) = 1 ->
  ftype (k_files s !!! f) = FD_PIPE -> fpipe (k_files s !!! f) = pi -> fwritable (k_files s !!! f) = w ->
  wp (pipeclose pi w) Q (set_k_files (alter retired f (k_files s)) (settle s)) -> wp (fileclose f) Q s.
Proof.
  intros Hok Hl Hf Hr Ht <- <- Hq. unfold wp. rewrite fileclose_last by done. unfold finish_close. by rewrite Ht.
Qed.

Lemma kmem_free_frame s s' F :
  kmem_free s F -> hart_ok s' -> k_locks s' = k_locks s -> k_freelist s' = k_freelist s -> k_mem s' = k_mem s -> kmem_free s' F.
Proof.
  intros (_ & Hl & l & Hi & HF) Hok Hlk Hfl Hm. split_and!; [done|unfold lock_free; by rewrite Hlk|]. exists l. split; [|done].
  eapply kmem_inv_ext; [done| |done]. intros. by rewrite Hm.
Qed.

(** The table after both ends of a pipe have come and gone. *)
Lemma ends_retired fs f0 f1 pi i :
  let fs' := alter retired f1 (alter retired f0 (alter (pipe_end false pi) f1 (alter (pipe_end true pi) f0 fs))) in
  f0 <> f1 -> (f0 < length fs)%nat -> (f1 < length fs)%nat ->
  if decide (i = f0 \/ i = f1) then fref (fs' !!! i) = 0 /\ ftype (fs' !!! i) = FD_NONE else fs' !!! i = fs !!! i.
Proof.
  intros fs' Hne H0' H1'. unfold fs'. rewrite (list_alter_swap retired _ f0 f1), !list_alter_alter_eq by done.
  destruct (decide (i = f1)) as [->|Hn1].
  - rewrite decide_True by auto. by rewrite list_lookup_total_alter_eq by (by rewrite length_alter).
  - rewrite list_lookup_total_alter_ne by done. destruct (decide (i = f0)) as [->|Hn0].
    + rewrite decide_True by auto. by rewrite list_lookup_total_alter_eq.
    + rewrite decide_False by naive_solver. by rewrite list_lookup_total_alter_ne.
Qed.

(** The two files of a new pipe. *)
Lemma new_ends fs f0 f1 pi :
  f0 <> f1 -> (f0 < length fs)%nat -> (f1 < length fs)%nat ->
  let fs' := alter (pipe_end false pi) f1 (alter (pipe_end true pi) f0 fs) in
  length fs' = length fs /\ fs' !!! f0 = pipe_end true pi (fs !!! f0) /\ fs' !!! f1 = pipe_end false pi (fs !!! f1).
Proof.
  intros Hne Hi0 Hi1 fs'. unfold fs'. split_and!; [by rewrite !length_alter| |].
  - rewrite list_lookup_total_alter_ne by done. by rewrite list_lookup_total_alter_eq.
  - rewrite list_lookup_total_alter_eq by (by rewrite length_alter). by rewrite list_lookup_total_alter_ne.
Qed.

(** What a pipe that has come and gone leaves behind. *)
Definition same_resources (F : gset Z) (s s' : kstate) : Prop :=
  kmem_free s' F /\ k_pipes s' = k_pipes s /\ ftable_ok (k_files s') /\
  (forall i, fref (k_files s' !!! i) = fref (k_files s !!! i)) /\
  (exists pi, pi ∈ F /\ forall x, ~ in_page pi x -> ld8 (k_mem s') x = ld8 (k_mem s) x).

Lemma close_ends s F f0 f1 pi s1 :
  piped s F f0 f1 pi s1 -> kmem_free s F -> plocks_free s -> length (k_procs s) = NPROC -> lock_free L_ftable s ->
  ftable_ok (k_files s) -> lock_free (L_pipe pi) s -> k_pipes s !! pi = None ->
  wp (fileclose f0 ;; fileclose f1) (fun _ s' => same_resources F s s') s1.
Proof.
  intros [HpF Hk1 [Hi0 Hr0] [Hi1 Hr1] Hne (m & fl & Hm & Hs1)] Hk Hpl Hps Hft [Hlen Hkinds] Hlk Hnone.
  pose proof (kmem_free_good _ _ _ Hk HpF) as Hgood. pose proof Hk as (Hok & _).
  pose proof (new_ends (k_files s) f0 f1 pi Hne ltac:(lia) ltac:(lia)) as (Hlfs & Hf0 & Hf1). cbv zeta in Hlfs, Hf0, Hf1.
  set (fs := alter (pipe_end false pi) f1 (alter (pipe_end true pi) f0 (k_files s))) in *.
  assert (Hks : forall g v, kmem_free (set_k_files g (set_k_pipes v s1)) (F ∖ {[pi]}))
    by (intros g v; eapply kmem_free_frame; [exact Hk1|subst s1; hart_tac|done..]).
  assert (Hpi : good_page pi /\ pi ∉ F ∖ {[pi]}) by (split; [done|set_solver]).
  apply wp_bind. apply (fileclose_pipe_end s1 f0 pi false); subst s1; [hart_tac|done|by simpl; lia|simpl; rewrite Hf0; done..|].
  autorewrite with kst. simpl k_files.
  eapply wp_mono; [apply (pipeclose_spec _ (F ∖ {[pi]}) pi new_pipe); [exact (Hks _ _)|exact Hpl|exact Hps|exact Hlk|apply lookup_insert_eq|exact Hpi]|].
  cbv beta iota. intros [] s2 (ps & Hq & ->). autorewrite with kst. simpl k_procs. simpl k_pipes. rewrite insert_insert_eq.
  apply (fileclose_pipe_end _ f1 pi true); [hart_tac|exact Hft|simpl; rewrite length_alter; lia| | | | |];
    try (simpl; rewrite list_lookup_total_alter_ne by done; rewrite Hf1; reflexivity).
  autorewrite with kst. simpl k_files. eapply wp_mono; [apply (pipeclose_spec _ (F ∖ {[pi]}) pi (end_closed false new_pipe));
    [|exact Hpl|simpl; by rewrite (quiet_length _ _ Hq)|exact Hlk|apply lookup_insert_eq|exact Hpi]|].
  { eapply kmem_free_frame; [exact (Hks fs ∅)|hart_tac|reflexivity..]. }
  cbv beta iota. intros [] s3 (Hk3 & m3 & fl3 & ps3 & Hq3 & Hm3 & ->).
  replace ({[pi]} ∪ F ∖ {[pi]}) with F in Hk3 by (apply leibniz_equiv; intros x; destruct (decide (x = pi)); set_solver).
  split_and!; [exact Hk3|simpl; by rewrite delete_insert_id| | |exists pi; split; [done|]].
  - simpl. split; [by rewrite !length_alter, Hlfs|]. intros i Hi. pose proof (ends_retired (k_files s) f0 f1 pi i Hne ltac:(lia) ltac:(lia)) as Hend.
    cbv zeta in Hend. case_decide; [apply Hend|]. fold fs in Hend. rewrite Hend in Hi |- *. by apply Hkinds.
  - intros i. simpl. pose proof (ends_retired (k_files s) f0 f1 pi i Hne ltac:(lia) ltac:(lia)) as Hend. cbv zeta in Hend.
    case_decide as Hd; fold fs in Hend; [|by rewrite Hend]. rewrite (proj1 Hend). by destruct Hd as [-> | ->].
  - intros x Hx. simpl. rewrite Hm3 by done. simpl. by apply Hm.
Qed.

(** Files [f0] and [f1], which were free, are the two ends of a new, empty pipe at [pi]: what is written to [f1] is read from [f0]. *)
Record pipe_made (F : gset Z) (s : kstate) (f0 f1 : nat) (pi : Z) (s' : kstate) : Prop := {
  pm_free : (f0 < NFILE)%nat /\ (f1 < NFILE)%nat /\ f0 <> f1 /\ fref (k_files s !!! f0) = 0 /\ fref (k_files s !!! f1) = 0;
  pm_refs : forall f, f = f0 \/ f = f1 -> let ff := k_files s' !!! f in fref ff = 1 /\ ftype ff = FD_PIPE /\ fpipe ff = pi;
  pm_read : freadable (k_files s' !!! f0) = true /\ fwritable (k_files s' !!! f0) = false;
  pm_write : freadable (k_files s' !!! f1) = false /\ fwritable (k_files s' !!! f1) = true;
  pm_pipe : exists p, k_pipes s' !! pi = Some p /\ nread p = 0 /\ nwrite p = 0 /\ readopen p = true /\ writeopen p = true /\ length (pdata p) = Z.to_nat PIPESIZE;
  pm_page : pi ∈ F /\ kmem_free s' (F ∖ {[pi]}) /\ lock_free (L_pipe pi) s';
  pm_others : (forall f, f <> f0 -> f <> f1 -> k_files s' !!! f = k_files s !!! f) /\ (forall a, a <> pi -> k_pipes s' !! a = k_pipes s !! a) /\
    k_procs s' = k_procs s /\ forall x, ~ in_page pi x -> ld8 (k_mem s') x = ld8 (k_mem s) x
}.

Lemma piped_made s F f0 f1 pi s1 : piped s F f0 f1 pi s1 -> length (k_files s) = NFILE -> lock_free (L_pipe pi) s -> pipe_made F s f0 f1 pi s1.
Proof.
  intros [HpF Hk1 [Hi0 Hr0] [Hi1 Hr1] Hne (m & fl & Hm & ->)] Hlen Hlk.
  pose proof (new_ends (k_files s) f0 f1 pi Hne ltac:(lia) ltac:(lia)) as (Hlfs & Hf0 & Hf1). cbv zeta in Hlfs, Hf0, Hf1.
  split; cbn [k_files k_pipes k_mem set_k_pipes set_k_files set_k_mem set_k_freelist]; rewrite ?Hf0, ?Hf1; try done.
  - intros f [-> | ->]; cbv zeta; by rewrite ?Hf0, ?Hf1.
  - exists new_pipe. split_and!; try done. apply lookup_insert_eq.
  - split_and!; [|intros a Ha; by apply lookup_insert_ne|done|exact Hm]. intros f Hn0 Hn1. by rewrite !list_lookup_total_alter_ne.
Qed.

(** C25: A pipe is made whole and leaks nothing.  [pipealloc] either fails, only when no page is free or fewer than two files are, and leaves the state as it
    was, or turns two free files into the read end and the write end of a new, empty pipe in a page that was free, and changes no other file or
    pipe; after closing the read end and then the write end, every page that
    was free is free again, every file has the references it had, the pipe is gone
    and memory outside the pipe's page is unchanged. *)
Theorem pipe_leaks_nothing s F :
  kmem_free s F -> plocks_free s -> length (k_procs s) = NPROC -> lock_free L_ftable s -> ftable_ok (k_files s) ->
  (forall a, a ∈ F -> lock_free (L_pipe a) s /\ k_pipes s !! a = None) ->
  wp pipealloc (fun r s1 => match r with
    | Some (f0, f1) => (exists pi, pipe_made F s f0 f1 pi s1) /\ wp (fileclose f0 ;; fileclose f1) (fun _ s' => same_resources F s s') s1
    | None => s1 = settle s /\ no_pipe s F
    end) s.
Proof.
  intros Hk Hpl Hps Hft Hfs Hpipes. eapply wp_mono; [apply (pipealloc_spec s F Hk Hft Hfs); intros a Ha; by apply Hpipes|].
  intros [[f0 f1]|] s1; [|done]. intros (pi & Hp). destruct (Hpipes pi (pd_page _ _ _ _ _ _ Hp)) as [Hlk Hnone].
  split; [exists pi; apply piped_made; [done|apply Hfs|done]|by apply (close_ends s F f0 f1 pi s1)].
Qed.
End close.

Lemma boot_ftable : ftable_ok (k_files boot_state).
Proof. split; [done|]. intros i _. destruct (decide (i < NFILE)%nat) as [Hi|Hi].
  - change (k_files boot_state) with (replicate NFILE zero_file). by rewrite lookup_total_replicate_2.
  - rewrite list_lookup_total_alt, lookup_ge_None_2; [done|]. change (length (k_files boot_state)) with NFILE. lia.
Qed.

(** A machine with four free pages. *)
Lemma pipe_leaks_nothing_witness :
  let F := list_to_set [Sample.page 1; Sample.page 2; Sample.page 3; Sample.page 4] in
  wp (@pipealloc sample_layout one_round) (fun r s1 => match r with
    | Some (f0, f1) => wp (@fileclose sample_layout one_round f0 ;; @fileclose sample_layout one_round f1) (fun _ s' => @same_resources sample_layout F Sample.vm s') s1
    | None => False
    end) Sample.vm.
Proof.
  intros F. eapply wp_mono; [apply (@pipe_leaks_nothing sample_layout one_round Sample.vm _ Sample.free_vm);
    [intros i; exact eq_refl|done|done|exact boot_ftable|intros a _; by split]|].
  intros [[f0 f1]|] s1; [by intros [_ Hc]|]. intros (_ & [Hn|(i & Hi)]); [set_solver|].
  destruct i as [|i]; [apply (Hi 1%nat)|apply (Hi 0%nat)]; first [done|apply Nat.ltb_lt; reflexivity].
Defined.
