(* ===== verification/Proc.v ===== *)
(** Process creation and termination, [kernel/proc.c] (the scheduling half is [Sched.v]),
    and the layout of [struct trapframe] of [kernel/proc.h].

    A trapframe is a page of memory; its fields are read and written at their offsets. *)
From S2P Require Import Prelude Machine Riscv State Spinlock KString Kalloc Vm Sched Uart Printf Console Block Bio Log Fs Pipe.
From Stdlib Require Import ZArith Lia.
From stdpp Require Import base strings numbers gmap list.
Local Open Scope Z_scope.
Local Open Scope m_scope.

(** ** struct trapframe *)

Inductive tfreg : Type :=
| tf_kernel_satp | tf_kernel_sp | tf_kernel_trap | tf_epc | tf_kernel_hartid
| tf_ra | tf_sp | tf_gp | tf_tp | tf_t0 | tf_t1 | tf_t2 | tf_s0 | tf_s1
| tf_a0 | tf_a1 | tf_a2 | tf_a3 | tf_a4 | tf_a5 | tf_a6 | tf_a7
| tf_s2 | tf_s3 | tf_s4 | tf_s5 | tf_s6 | tf_s7 | tf_s8 | tf_s9 | tf_s10 | tf_s11
| tf_t3 | tf_t4 | tf_t5 | tf_t6.

Definition tf_off (r : tfreg) : Z :=
  match r with
  | tf_kernel_satp => 0 | tf_kernel_sp => 8 | tf_kernel_trap => 16 | tf_epc => 24 | tf_kernel_hartid => 32
  | tf_ra => 40 | tf_sp => 48 | tf_gp => 56 | tf_tp => 64 | tf_t0 => 72 | tf_t1 => 80 | tf_t2 => 88
  | tf_s0 => 96 | tf_s1 => 104
  | tf_a0 => 112 | tf_a1 => 120 | tf_a2 => 128 | tf_a3 => 136 | tf_a4 => 144 | tf_a5 => 152 | tf_a6 => 160 | tf_a7 => 168
  | tf_s2 => 176 | tf_s3 => 184 | tf_s4 => 192 | tf_s5 => 200 | tf_s6 => 208 | tf_s7 => 216 | tf_s8 => 224
  | tf_s9 => 232 | tf_s10 => 240 | tf_s11 => 248
  | tf_t3 => 256 | tf_t4 => 264 | tf_t5 => 272 | tf_t6 => 280
  end.
Definition sizeof_trapframe : nat := 288.

(** [p->trapframe->r]. *)
Definition get_tf (tf : Z) (r : tfreg) : K Z := get64 (tf + tf_off r).
Definition set_tf (tf : Z) (r : tfreg) (v : Z) : K unit := set64 (tf + tf_off r) v.

Definition allocpid : K Z :=
  acquire L_pid ;;
  pid <- gets k_nextpid ;;
  modify (fun s => set_k_nextpid (s32 (k_nextpid s + 1)) s) ;;
  release L_pid ;;
  ret pid.

Definition procinit : K unit :=
  initlock L_pid ;;
  initlock L_wait ;;
  for_each (seq 0 NPROC) (fun i =>
    initlock (L_proc i) ;;
    upd_proc i (set_pstate UNUSED) ;;
    upd_proc i (set_pkstack (KSTACK (Z.of_nat i)))).

(** The program of the first process. *)
Definition initcode : list Z :=
  [0x17; 0x05; 0x00; 0x00; 0x13; 0x05; 0x45; 0x02;
   0x97; 0x05; 0x00; 0x00; 0x93; 0x85; 0x35; 0x02;
   0x93; 0x08; 0x70; 0x00; 0x73; 0x00; 0x00; 0x00;
   0x93; 0x08; 0x20; 0x00; 0x73; 0x00; 0x00; 0x00;
   0xef; 0xf0; 0x9f; 0xff; 0x2f; 0x69; 0x6e; 0x69;
   0x74; 0x00; 0x00; 0x24; 0x00; 0x00; 0x00; 0x00;
   0x00; 0x00; 0x00; 0x00].

(** [safestrcpy(p->name, t, sizeof(p->name))]. *)
Definition set_name (i : nat) (t : list Z) : K unit :=
  match safestrcpy t 16 with
  | Some bs => upd_proc i (fun p => set_pname (splice 0 bs (pname p)) p)
  | None => stop (Fault "safestrcpy")
  end.

(** The channel a process pointer stands for. *)
Definition proc_chan (p : option nat) : chan := match p with Some i => C_proc i | None => C_null end.

Section proc.
Context `{Layout} `{Patience} `{Garbage}.

Definition proc_pagetable (i : nat) : K Z :=
  pagetable <- uvmcreate ;;
  if pagetable =? 0 then ret 0 else
  r <- mappages pagetable TRAMPOLINE PGSIZE trampoline (Z.lor PTE_R PTE_X) ;;
  if r <? 0 then
    uvmfree pagetable 0 ;;
    ret 0
  else
  p <- get_proc i ;;
  r <- mappages pagetable TRAPFRAME PGSIZE (ptrapframe p) (Z.lor PTE_R PTE_W) ;;
  if r <? 0 then
    uvmunmap pagetable TRAMPOLINE 1 false ;;
    uvmfree pagetable 0 ;;
    ret 0
  else ret pagetable.

Definition proc_freepagetable (pagetable sz : Z) : K unit :=
  uvmunmap pagetable TRAMPOLINE 1 false ;;
  uvmunmap pagetable TRAPFRAME 1 false ;;
  uvmfree pagetable sz.

Definition freeproc (i : nat) : K unit :=
  p <- get_proc i ;;
  when (negb (ptrapframe p =? 0)) (kfree (ptrapframe p)) ;;
  upd_proc i (set_ptrapframe 0) ;;
  p <- get_proc i ;;
  when (negb (ppagetable p =? 0)) (proc_freepagetable (ppagetable p) (psz p)) ;;
  upd_proc i (set_ppagetable 0) ;;
  upd_proc i (set_psz 0) ;;
  upd_proc i (set_ppid 0) ;;
  upd_proc i (set_pparent None) ;;
  upd_proc i (fun p => set_pname (<[0%nat := 0]> (pname p)) p) ;;
  upd_proc i (set_pchan C_null) ;;
  upd_proc i (set_pkilled 0) ;;
  upd_proc i (set_pxstate 0) ;;
  upd_proc i (set_pstate UNUSED).

Definition allocproc : K (option nat) :=
  r <- for_ret (seq 0 NPROC) (fun i =>
    acquire (L_proc i) ;;
    p <- get_proc i ;;
    if decide (pstate p = UNUSED) then ret (Some i) else
    release (L_proc i) ;;
    ret None) ;;
  match r with
  | None => ret None
  | Some i =>
      pid <- allocpid ;;
      upd_proc i (set_ppid pid) ;;
      upd_proc i (set_pstate USED) ;;
      tf <- kalloc ;;
      upd_proc i (set_ptrapframe tf) ;;
      if tf =? 0 then
        freeproc i ;;
        release (L_proc i) ;;
        ret None
      else
      pt <- proc_pagetable i ;;
      upd_proc i (set_ppagetable pt) ;;
      if pt =? 0 then
        freeproc i ;;
        release (L_proc i) ;;
        ret None
      else
      upd_proc i (set_pctx_ra forkret_addr) ;;
      upd_proc i (fun p => set_pctx_sp (u64 (pkstack p + PGSIZE)) p) ;;
      ret (Some i)
  end.

Definition userinit : K unit :=
  p <- allocproc ;;
  modify (set_k_initproc p) ;;
  i <- deref p ;;
  p <- get_proc i ;;
  uvmfirst (ppagetable p) initcode ;;
  upd_proc i (set_psz PGSIZE) ;;
  p <- get_proc i ;;
  set_tf (ptrapframe p) tf_epc 0 ;;
  set_tf (ptrapframe p) tf_sp PGSIZE ;;
  set_name i (c_string "initcode") ;;
  ip <- namei (s2b "/") ;;
  upd_proc i (set_pcwd ip) ;;
  upd_proc i (set_pstate RUNNABLE) ;;
  release (L_proc i).

Definition growproc (n : Z) : K Z :=
  i <- curproc ;;
  p <- get_proc i ;;
  let sz := psz p in
  if 0 <? n then
    sz <- uvmalloc (ppagetable p) sz (u64 (sz + n)) PTE_W ;;
    if sz =? 0 then ret (-1) else
    upd_proc i (set_psz sz) ;;
    ret 0
  else if n <? 0 then
    sz <- uvmdealloc (ppagetable p) sz (u64 (sz + n)) ;;
    upd_proc i (set_psz sz) ;;
    ret 0
  else
    upd_proc i (set_psz sz) ;;
    ret 0.

Definition fork : K Z :=
  p <- myproc ;;
  r <- allocproc ;;
  match r with
  | None => ret (-1)
  | Some np =>
      i <- deref p ;;
      me <- get_proc i ;;
      n <- get_proc np ;;
      r <- uvmcopy (ppagetable me) (ppagetable n) (psz me) ;;
      if r <? 0 then
        freeproc np ;;
        release (L_proc np) ;;
        ret (-1)
      else
      upd_proc np (set_psz (psz me)) ;;
      tf <- get_bytes (ptrapframe me) sizeof_trapframe ;;
      put_bytes (ptrapframe n) tf ;;
      set_tf (ptrapframe n) tf_a0 0 ;;
      for_each (seq 0 NOFILE) (fun fd =>
        me <- get_proc i ;;
        match pofile me !!! fd with
        | Some f =>
            f' <- filedup f ;;
            upd_proc np (fun n => set_pofile (<[fd := Some f']> (pofile n)) n)
        | None => ret tt
        end) ;;
      me <- get_proc i ;;
      cwd <- deref (pcwd me) ;;
      cwd' <- idup cwd ;;
      upd_proc np (set_pcwd (Some cwd')) ;;
      me <- get_proc i ;;
      set_name np (pname me) ;;
      n <- get_proc np ;;
      let pid := ppid n in
      release (L_proc np) ;;
      acquire L_wait ;;
      upd_proc np (set_pparent (Some i)) ;;
      release L_wait ;;
      acquire (L_proc np) ;;
      upd_proc np (set_pstate RUNNABLE) ;;
      release (L_proc np) ;;
      ret pid
  end.

Definition reparent (p : nat) : K unit :=
  for_each (seq 0 NPROC) (fun pp =>
    q <- get_proc pp ;;
    when (bool_decide (pparent q = Some p))
      (init <- gets k_initproc ;;
       upd_proc pp (set_pparent init) ;;
       wakeup (proc_chan init))).

Definition exit (status : Z) : K unit :=
  p <- myproc ;;
  init <- gets k_initproc ;;
  if decide (p = init) then panic "init exiting" else
  i <- deref p ;;
  for_each (seq 0 NOFILE) (fun fd =>
    me <- get_proc i ;;
    match pofile me !!! fd with
    | Some f =>
        fileclose f ;;
        upd_proc i (fun p => set_pofile (<[fd := None]> (pofile p)) p)
    | None => ret tt
    end) ;;
  begin_op ;;
  me <- get_proc i ;;
  cwd <- deref (pcwd me) ;;
  iput cwd ;;
  end_op ;;
  upd_proc i (set_pcwd None) ;;
  acquire L_wait ;;
  reparent i ;;
  me <- get_proc i ;;
  wakeup (proc_chan (pparent me)) ;;
  acquire (L_proc i) ;;
  upd_proc i (set_pxstate status) ;;
  upd_proc i (set_pstate ZOMBIE) ;;
  release L_wait ;;
  sched ;;
  panic "zombie exit".

(** The scan of [wait]: [inl] is what [wait] returns, [inr] whether there are children. *)
Fixpoint wait_scan (i : nat) (addr : Z) (l : list nat) (havekids : bool) : K (Z + bool) :=
  match l with
  | [] => ret (inr havekids)
  | pp :: l' =>
      q <- get_proc pp ;;
      if negb (bool_decide (pparent q = Some i)) then wait_scan i addr l' havekids else
      acquire (L_proc pp) ;;
      q <- get_proc pp ;;
      if decide (pstate q = ZOMBIE) then
        let pid := ppid q in
        p <- get_proc i ;;
        r <- (if addr =? 0 then ret 0 else copyout (ppagetable p) addr (le_bytes 4 (pxstate q))) ;;
        if r <? 0 then
          release (L_proc pp) ;;
          release L_wait ;;
          ret (inl (-1))
        else
          freeproc pp ;;
          release (L_proc pp) ;;
          release L_wait ;;
          ret (inl pid)
      else
        release (L_proc pp) ;;
        wait_scan i addr l' true
  end.

Definition wait (addr : Z) : K Z :=
  i <- curproc ;;
  acquire L_wait ;;
  while_fuel OutOfFuel (S patience) (fun _ : unit =>
    r <- wait_scan i addr (seq 0 NPROC) false ;;
    match r with
    | inl v => ret (inr v)
    | inr havekids =>
        k <- (if havekids : bool then killed i else ret 1) ;;
        if negb (k =? 0) then
          release L_wait ;;
          ret (inr (-1))
        else
          sleep (C_proc i) L_wait ;;
          ret (inl tt)
    end) tt.
End proc.
