(* ===== verification/ProcSpace.v ===== *)
(** The memory of a process: [proc_pagetable], [proc_freepagetable], [freeproc] and
    [allocproc] of [kernel/proc.c].

    [pspace] is what a process owns: its page table, with the trampoline and its trap frame
    at the top, its user pages and the page of the trap frame.  Every one of these pages comes from the
    allocator when the process is made and goes back when it is freed. *)
From S2P Require Import Prelude Machine Riscv State Spinlock KString Kalloc Vm Uvm UvmLife Sched Uart Printf Console Block Bio Log Fs Pipe Proc.
From Stdlib Require Import ZArith Lia.
From stdpp Require Import base strings numbers gmap list.
Local Open Scope Z_scope.
Local Open Scope m_scope.

(** ** States that differ in memory *)

Section frames.
Context `{Layout}.

Lemma frame_procs s s' : frame s s' -> k_procs s' = k_procs s.
Proof. intros Hf. by apply (f_equal k_procs) in Hf. Qed.

Lemma frame_locks s s' : frame s s' -> k_locks s' = k_locks s.
Proof. intros Hf. by apply (f_equal k_locks) in Hf. Qed.

(** Inside a critical section nothing but memory and the free list changes. *)
Lemma frame_exact s s' :
  hart_ok s -> 0 < noff (cur s) -> hart_ok s' -> frame s s' ->
  s' = set_k_mem (k_mem s') (set_k_freelist (k_freelist s') s).
Proof.
  intros Hok Hn Hok' Hf. unfold frame in Hf. rewrite (settle_nested s) in Hf by done.
  rewrite (settle_nested s') in Hf; [done|done|]. rewrite <- noff_settle, Hf by done. exact Hn.
Qed.

Lemma frame_set_procs f s s' : frame s s' -> frame (set_k_procs f s) (set_k_procs f s').
Proof. unfold frame. intros Hf. rewrite !settle_set_procs, Hf. done. Qed.

Lemma kmem_free_set_procs s F f : kmem_free s F -> kmem_free (set_k_procs f s) F.
Proof. done. Qed.

Lemma vm_inv_set_procs s F t f : vm_inv s F t -> vm_inv (set_k_procs f s) F t.
Proof. done. Qed.

Lemma uspace_set_procs s F t n f : uspace s F t n -> uspace (set_k_procs f s) F t n.
Proof. by intros []. Qed.
End frames.

(** ** The top of an address space *)

Definition VTRAMP : Z := TRAMPOLINE / PGSIZE.

Lemma UTOP_frame : UTOP * PGSIZE = TRAPFRAME.
Proof. done. Qed.

Lemma VTRAMP_top : VTRAMP = UTOP + 1.
Proof. done. Qed.

Section space.
Context `{Layout}.

(** Entries above user memory do not matter to a user address space. *)
Lemma uspace_top s F t n s' t' :
  uspace s F t n -> vm_inv s' F t' -> tbl t' = tbl t -> (forall w, w < UTOP -> lf t' !! w = lf t !! w) -> uspace s' F t' n.
Proof.
  intros [Hinv Htop Hmap Hnd Hown Habove] Hinv' Htbl Hlf.
  assert (Hlp : leaf_pages (lf t') 0 n = leaf_pages (lf t) 0 n) by (apply leaf_pages_ext; intros w Hw; apply Hlf; lia).
  split; [done|done| |by rewrite Hlp| |].
  - intros w Hw. rewrite Hlf by lia. by apply Hmap.
  - rewrite Hlp. eapply Forall_impl; [exact Hown|]. unfold freeable, pt_pages. by rewrite Htbl.
  - intros w Hw. rewrite Hlf by lia. by apply Habove.
Qed.

(** What a process of [n] pages with the trap frame [tf] owns besides the free pages. *)
Record pspace (s : kstate) (F : gset Z) (t : ptab) (n : nat) (tf : Z) : Prop := {
  sp_us : uspace s F t n;
  sp_tf : freeable F t tf;
  sp_tf_own : tf ∉ leaf_pages (lf t) 0 n;
  sp_tramp : lf t !! VTRAMP = Some (mkpte trampoline (Z.lor (Z.lor PTE_R PTE_X) PTE_V));
  sp_frame : lf t !! UTOP = Some (mkpte tf (Z.lor (Z.lor PTE_R PTE_W) PTE_V));
  sp_only : forall w, is_Some (lf t !! w) -> 0 <= w < Z.of_nat n \/ w = VTRAMP \/ w = UTOP
}.

Definition space_pages (t : ptab) (n : nat) : gset Z := pt_pages t ∪ list_to_set (leaf_pages (lf t) 0 n).
Definition proc_pages (t : ptab) (n : nat) (tf : Z) : gset Z := {[tf]} ∪ space_pages t n.

Lemma all_space F t n : all_pages F t n = F ∪ space_pages t n.
Proof. unfold all_pages, space_pages. by rewrite union_assoc_L. Qed.

Lemma space_good s F t n a : uspace s F t n -> a ∈ space_pages t n -> good_page a.
Proof.
  intros Hus. pose proof (us_inv _ _ _ _ Hus) as (HF & Hr & Hd). unfold space_pages. rewrite elem_of_union, elem_of_list_to_set. intros [Ha|Ha].
  - apply elem_of_pt_pages in Ha as [x Hx]. by eapply pr_good.
  - pose proof (us_own _ _ _ _ Hus) as Hown. rewrite Forall_forall in Hown. by apply Hown.
Qed.

Lemma space_apart s F t n : uspace s F t n -> space_pages t n ## F.
Proof.
  intros Hus. pose proof (us_inv _ _ _ _ Hus) as (HF & Hr & Hd). pose proof (us_own _ _ _ _ Hus) as Hown. rewrite Forall_forall in Hown.
  intros a Ha HaF. unfold space_pages in Ha. rewrite elem_of_union, elem_of_list_to_set in Ha. destruct Ha as [Ha|Ha]; [set_solver|].
  by destruct (Hown a Ha) as (_ & ? & _).
Qed.

Lemma top_range : 0 <= UTOP /\ UTOP * PGSIZE + 2 * PGSIZE = MAXVA.
Proof. done. Qed.

(** One page at the top of the address space is unmapped. *)
Lemma unmap_top s F t n va w :
  uspace s F t n -> va = w * PGSIZE -> UTOP <= w <= VTRAMP -> is_Some (lf t !! w) ->
  let t' := set_lf (delete w (lf t)) t in
  wp (uvmunmap (pt_root t) va 1 false) (fun _ s' => uspace s' F t' n /\ frame s s' /\ mem_out (pt_pages t) (k_mem s) (k_mem s')) s.
Proof.
  intros Hus -> Hw Hs t'. pose proof top_range as [H0 Htop]. rewrite VTRAMP_top in Hw.
  eapply wp_mono; [apply (uvmunmap_spec s F t (w * PGSIZE) 1 false)|].
  - apply Hus.
  - unfold PGSIZE. lia.
  - by exists w.
  - unfold PGSIZE in *. lia.
  - rewrite Z.div_mul by done. intros v Hv. by replace v with w by lia.
  - done.
  - rewrite Z.div_mul by done. simpl. rewrite Z.add_0_r, union_empty_l_L. intros [] s' (Hinv & Hfr & Hout). split_and!; [|done|done].
    eapply uspace_top; [exact Hus|exact Hinv|done|]. intros v Hv. simpl. by rewrite lookup_delete_ne by lia.
Qed.

(** [proc_freepagetable] gives back the page table and the user pages. *)
Lemma proc_freepagetable_spec s F t sz :
  uspace s F t (npg sz) -> 0 <= sz <= UTOP * PGSIZE -> is_Some (lf t !! VTRAMP) -> is_Some (lf t !! UTOP) ->
  (forall w, is_Some (lf t !! w) -> 0 <= w < Z.of_nat (npg sz) \/ w = VTRAMP \/ w = UTOP) ->
  wp (proc_freepagetable (pt_root t) sz) (fun _ s' => kmem_free s' (F ∪ space_pages t (npg sz)) /\ frame s s' /\
    mem_out (space_pages t (npg sz)) (k_mem s) (k_mem s')) s.
Proof.
  intros Hus Hsz Htr Htf Honly. unfold proc_freepagetable. pose proof VTRAMP_top as Hv. pose proof (us_top _ _ _ _ Hus) as Hn.
  eapply wp_seq; [apply (unmap_top s F t (npg sz) TRAMPOLINE VTRAMP Hus); [done|lia|done]|]. cbv beta. intros [] s1 (Hus1 & Hf1 & Ho1).
  set (t1 := set_lf _ t) in *. change (pt_root t) with (pt_root t1).
  eapply wp_seq; [apply (unmap_top s1 F t1 (npg sz) TRAPFRAME UTOP Hus1); [done|lia|simpl; by rewrite lookup_delete_ne by lia]|].
  cbv beta. intros [] s2 (Hus2 & Hf2 & Ho2). set (t2 := set_lf _ t1) in *. change (pt_root t1) with (pt_root t2).
  assert (Hlf : forall w, 0 <= w < Z.of_nat (npg sz) -> lf t2 !! w = lf t !! w) by (intros w Hw; simpl; by rewrite !lookup_delete_ne by lia).
  assert (Hsp : space_pages t2 (npg sz) = space_pages t (npg sz)).
  { unfold space_pages. f_equal. f_equal. apply leaf_pages_ext. intros w Hw. apply Hlf. lia. }
  eapply wp_mono; [apply (uvmfree_frees_all s2 F t2 sz Hus2 Hsz)|].
  - intros w [e He]. simpl in He. rewrite !lookup_delete_Some in He. destruct He as (Hn1 & Hn2 & He). destruct (Honly w); [eauto|done|lia].
  - intros [] s' (HF & Hfr & Hout). fold (space_pages t2 (npg sz)) in Hout. rewrite all_space, Hsp in *. split_and!; [done|eapply frame_trans; [exact Hf1|]; by eapply frame_trans|].
    assert (Hsub : pt_pages t ⊆ space_pages t (npg sz)) by (unfold space_pages; apply union_subseteq_l).
    eapply mem_out_trans; [eapply mem_out_mono; [exact Hsub|exact Ho1]|]. eapply mem_out_trans; [eapply mem_out_mono; [exact Hsub|exact Ho2]|exact Hout].
Qed.

(** ** Making a page table *)

Lemma uvmcreate_spec s F :
  kmem_free s F ->
  wp uvmcreate (fun r s' => frame s s' /\ mem_out F (k_mem s) (k_mem s') /\
    ((r = 0 /\ kmem_free s' F) \/ (r <> 0 /\ r ∈ F /\ uspace s' (F ∖ {[r]}) (empty_pt r) 0))) s.
Proof.
  intros HF. unfold uvmcreate. apply wp_bind. eapply wp_mono; [by apply kalloc_law|]. intros r s1 [(-> & _ & -> & Hk)|(HrF & Hk & Hon)].
  - apply wp_ret. split_and!; [apply frame_settle|apply mem_out_refl|by left].
  - pose proof (kmem_free_good _ _ _ HF HrF) as Hg. pose proof (good_page_nonzero _ Hg) as Hnz. rewrite (proj2 (Z.eqb_neq _ _)) by done.
    apply wp_bind, wp_memset, wp_ret. split_and!; [by apply frame_set_mem, (frame_kmem_only r)| |right; split_and!; [done|done|]].
    + eapply mem_out_trans; [by apply (kmem_only_out r)|]. by apply (mem_out_fill r).
    + assert (Hp : pt_pages (empty_pt r) = {[r]}) by (unfold pt_pages; simpl; apply map_img_singleton_L).
      split; [|apply top_range|intros; lia|apply NoDup_nil_2|apply Forall_nil_2|intros; apply lookup_empty]. split_and!; [| |rewrite Hp; set_solver].
      * apply (kmem_free_out s1 _ {[r]}); [done|set_solver|set_solver|]. apply (mem_out_fill r). set_solver.
      * apply empty_rep; [done|]. intros i Hi. by apply ld64_zero_page.
Qed.

(** One page is mapped at the top of an address space without user pages. *)
Lemma map_top s F t va w pa perm :
  uspace s F t 0 -> va = w * PGSIZE -> UTOP <= w <= VTRAMP -> lf t !! w = None -> 0 <= pa -> pa + PGSIZE <= 2 ^ 56 -> perm_ok perm ->
  wp (mappages (pt_root t) va PGSIZE pa perm) (fun r s' => exists F' t', uspace s' F' t' 0 /\ frame s s' /\
    mem_out (F ∪ pt_pages t) (k_mem s) (k_mem s') /\ pt_root t' = pt_root t /\ F' ⊆ F /\ F' ∪ pt_pages t' = F ∪ pt_pages t /\
    ((r = 0 /\ lf t' = <[w := mkpte pa (Z.lor perm PTE_V)]> (lf t)) \/ (r = -1 /\ lf t' = lf t))) s.
Proof.
  intros Hus -> Hw Hnone Hpa Hpa2 Hperm. pose proof top_range as [H0 Htop]. rewrite VTRAMP_top in Hw. pose proof (mappages_spec s F t (w * PGSIZE) 1 pa perm) as Hmap.
  replace (Z.of_nat 1 * PGSIZE) with PGSIZE in Hmap by done.
  eapply wp_mono; [apply Hmap|].
  - apply Hus.
  - unfold PGSIZE. lia.
  - by exists w.
  - lia.
  - unfold PGSIZE in *. lia.
  - done.
  - done.
  - done.
  - rewrite Z.div_mul by done. intros v Hv. by replace v with w by lia.
  - rewrite Z.div_mul by done. intros r s' (F' & t' & j & [Hinv Hfr Hroot _ Hsub Htot Hout] & Hlf & Hres). exists F', t'.
    assert (Hab : forall v, v < UTOP -> lf t' !! v = lf t !! v).
    { intros v Hv. rewrite Hlf, map_range_lookup, decide_False; [done|]. destruct Hres as [[_ ->]|(_ & ? & _)]; lia. }
    split_and!; try done.
    + split; [done|apply Hus|intros; lia|apply NoDup_nil_2|apply Forall_nil_2|]. intros v Hv. rewrite Hab by lia. apply (us_above _ _ _ _ Hus). lia.
    + destruct Hres as [[-> ->]|(-> & Hj & _)]; [left|right]; (split; [done|]); rewrite Hlf; simpl.
      * by rewrite Z.add_0_r, Z.mul_0_l, Z.add_0_r.
      * by replace j with 0%nat by lia.
Qed.

(** A page table without user pages is given back. *)
Lemma uvmfree_empty s F t :
  uspace s F t 0 -> lf t = ∅ ->
  wp (uvmfree (pt_root t) 0) (fun _ s' => kmem_free s' (F ∪ pt_pages t) /\ frame s s' /\ mem_out (pt_pages t) (k_mem s) (k_mem s')) s.
Proof.
  intros Hus Hlf. eapply wp_mono; [apply (uvmfree_frees_all s F t 0 Hus); [split; [lia|apply Z.mul_nonneg_nonneg; [apply top_range|done]]|]|].
  - intros w [e He]. by rewrite Hlf in He.
  - change (npg 0) with 0%nat. intros [] s' (HF & Hfr & Hout). rewrite all_space in HF. unfold space_pages in HF. simpl in HF, Hout. by rewrite union_empty_r_L in HF, Hout.
Qed.

Section pagetable.
Variables (s : kstate) (F : gset Z) (i : nat) (tf : Z).
Hypothesis HF : kmem_free s F.
Hypothesis Htf : ptrapframe (k_procs s !!! i) = tf.
Hypothesis Hg : good_page tf.
Hypothesis HtfF : tf ∉ F.

(** A page table under construction: which pages it takes, and its leaves. *)
Record building (t : ptab) (F1 : gset Z) (s1 : kstate) : Prop := {
  bd_us : uspace s1 F1 t 0;
  bd_frame : frame s s1;
  bd_out : mem_out F (k_mem s) (k_mem s1);
  bd_total : F1 ∪ pt_pages t = F
}.

Definition undone (s1 : kstate) : Prop := kmem_free s1 F /\ frame s s1 /\ mem_out F (k_mem s) (k_mem s1).

Lemma building_free t F1 s1 :
  building t F1 s1 -> lf t = ∅ -> wp (uvmfree (pt_root t) 0 ;; ret 0) (fun r s' => r = 0 /\ undone s') s1.
Proof.
  intros [Hus Hfr Hout Htot] Hlf. apply wp_bind. eapply wp_mono; [by apply uvmfree_empty|]. intros [] s2 (HF2 & Hf2 & Ho2). apply wp_ret.
  rewrite Htot in HF2. split; [done|]. split_and!; [done|by eapply frame_trans|]. eapply mem_out_trans; [exact Hout|]. eapply mem_out_mono; [|exact Ho2].
  rewrite <- Htot. apply union_subseteq_r.
Qed.

Lemma building_map t F1 s1 va w pa perm :
  building t F1 s1 -> va = w * PGSIZE -> UTOP <= w <= VTRAMP -> lf t !! w = None -> 0 <= pa -> pa + PGSIZE <= 2 ^ 56 -> perm_ok perm ->
  wp (mappages (pt_root t) va PGSIZE pa perm) (fun r s' => exists F' t', building t' F' s' /\ pt_root t' = pt_root t /\
    ((r = 0 /\ lf t' = <[w := mkpte pa (Z.lor perm PTE_V)]> (lf t)) \/ (r = -1 /\ lf t' = lf t))) s1.
Proof.
  intros [Hus Hfr Hout Htot] Hva Hw Hn Hpa Hpa2 Hperm. eapply wp_mono; [by apply (map_top s1 F1 t va w)|].
  intros r s' (F' & t' & Hus' & Hfr' & Hout' & Hroot & _ & Htot' & Hres). exists F', t'. split_and!; [|done|done]. rewrite Htot in *.
  split; [done|by eapply frame_trans|by eapply mem_out_trans|done].
Qed.

(** [proc_pagetable] makes a page table with the trampoline and the trap frame and no
    user pages, or it fails and has given back every page it took. *)
Lemma proc_pagetable_spec :
  wp (proc_pagetable i) (fun r s' =>
    (r = 0 /\ undone s') \/
    (r <> 0 /\ exists F' t, r = pt_root t /\ building t F' s' /\ pspace s' F' t 0 tf)) s.
Proof.
  pose proof trampoline_range as [Htr1 Htr2]. pose proof kend_range as (Htr0 & Htr3 & Htr4). pose proof VTRAMP_top as Hv.
  pose proof Hg as [_ Hg2]. assert (Hphys : PHYSTOP + PGSIZE <= 2 ^ 56 /\ PHYSTOP <= 2 ^ 56 /\ 0 <= KERNBASE) by done.
  unfold proc_pagetable. eapply wp_seq; [by apply uvmcreate_spec|]. cbv beta. intros r s1 (Hf1 & Ho1 & [[-> Hk1]|(Hnz & HrF & Hus1)]).
  { apply wp_ret. left. done. }
  rewrite (proj2 (Z.eqb_neq _ _)) by done. set (t := empty_pt r) in *.
  assert (Hb1 : building t (F ∖ {[r]}) s1).
  { split; try done. change (pt_pages t) with (map_img (SA := gset Z) ({[(2%nat, 0) := r]} : gmap (nat * Z) Z)). rewrite map_img_singleton_L. apply leibniz_equiv. intros x. destruct (decide (x = r)); set_solver. }
  change r with (pt_root t). eapply wp_seq; [apply (building_map t _ s1 TRAMPOLINE VTRAMP trampoline _ Hb1); [done|lia|done|lia|lia|done]|]. cbv beta.
  intros r2 s2 (F2 & t2 & Hb2 & Hroot & [[-> Hlf2]|[-> Hlf2]]); rewrite <- Hroot.
  2:{ cbn [Z.ltb Z.compare]. eapply wp_mono; [by apply (building_free t2 F2)|]. intros v s' [-> Hu]. by left. }
  cbn [Z.ltb Z.compare]. apply wp_bind, wp_gets. rewrite (frame_procs _ _ (bd_frame _ _ _ Hb2)), Htf.
  assert (Hnone : lf t2 !! UTOP = None) by (rewrite Hlf2; rewrite lookup_insert_ne by lia; apply lookup_empty).
  eapply wp_seq; [apply (building_map t2 _ s2 TRAPFRAME UTOP tf _ Hb2); [done|lia|done|lia|lia|done]|]. cbv beta.
  intros r3 s3 (F3 & t3 & Hb3 & Hroot3 & [[-> Hlf3]|[-> Hlf3]]); rewrite <- Hroot3; cbn [Z.ltb Z.compare].
  - apply wp_ret. right. split; [by rewrite Hroot3, Hroot|]. exists F3, t3. split_and!; [done|done|]. pose proof (bd_total _ _ _ Hb3) as Htot.
    split; [apply Hb3|split_and!; [done|set_solver|set_solver]|apply not_elem_of_nil| | |].
    + rewrite Hlf3, lookup_insert_ne, Hlf2 by lia. apply lookup_insert_eq.
    + rewrite Hlf3. apply lookup_insert_eq.
    + intros w. rewrite Hlf3, Hlf2. destruct (decide (w = UTOP)), (decide (w = VTRAMP)); [by auto..|]. rewrite !lookup_insert_ne by done. intros [? He]. change (lf t) with (∅ : gmap Z Z) in He. by rewrite lookup_empty in He.
  - destruct Hb3 as [Hus3 Hf3 Ho3 Ht3].
    eapply wp_seq; [apply (unmap_top s3 F3 t3 0 TRAMPOLINE VTRAMP Hus3); [done|lia|rewrite Hlf3, Hlf2, lookup_insert_eq; eauto]|]. cbv beta.
    intros [] s4 (Hus4 & Hf4 & Ho4). set (t4 := set_lf _ t3) in *. change (pt_root t3) with (pt_root t4).
    eapply wp_mono; [apply (building_free t4 F3)|].
    + split; [done|by eapply frame_trans| |done]. eapply mem_out_trans; [exact Ho3|]. eapply mem_out_mono; [|exact Ho4]. rewrite <- Ht3. apply union_subseteq_r.
    + simpl. rewrite Hlf3, Hlf2, delete_insert_eq. apply (delete_empty (M := gmap Z)).
    + intros v s' [-> Hu]. by left.
Qed.
End pagetable.

(** ** [freeproc] *)

(** A slot of the process table that [freeproc] has emptied. *)
Definition cleared (p : proc) : proc :=
  set_pstate UNUSED (set_pxstate 0 (set_pkilled 0 (set_pchan C_null (set_pname (<[0%nat := 0]> (pname p))
    (set_pparent None (set_ppid 0 (set_psz 0 (set_ppagetable 0 (set_ptrapframe 0 p))))))))).

(** What a slot owns: nothing, a trap frame only, or a whole space. *)
Definition owns (s : kstate) (F : gset Z) (p : proc) (R : gset Z) : Prop :=
  (ptrapframe p = 0 /\ ppagetable p = 0 /\ R = ∅) \/
  (good_page (ptrapframe p) /\ (ptrapframe p ∉ F) /\ ppagetable p = 0 /\ R = {[ptrapframe p]}) \/
  (exists t, pspace s F t (npg (psz p)) (ptrapframe p) /\ ppagetable p = pt_root t /\ 0 <= psz p <= UTOP * PGSIZE /\
     R = proc_pages t (npg (psz p)) (ptrapframe p)).

Lemma pt_root_nonzero m t : pt_rep m t -> pt_root t <> 0.
Proof. intros Hr. apply good_page_nonzero. exact (pr_good _ _ Hr _ _ (pr_root _ _ Hr)). Qed.

(** A page of the process goes back to the allocator. *)
Lemma uspace_kfree s F t n a :
  uspace s F t n -> freeable F t a -> a ∉ leaf_pages (lf t) 0 n ->
  wp (kfree a) (fun _ s' => uspace s' ({[a]} ∪ F) t n /\ frame s s' /\ mem_out {[a]} (k_mem s) (k_mem s')) s.
Proof.
  intros Hus Ha Hni. eapply wp_mono; [apply (vm_inv_kfree s F t); [apply Hus|done]|]. intros [] s' [Hinv Hon].
  split_and!; [|by eapply frame_kmem_only|apply (kmem_only_out a); [set_solver|done]].
  destruct Hus as [_ Htop Hmap Hnd Hown Hab]. split; try done. rewrite Forall_forall in Hown |- *. intros b Hb. destruct (Hown b Hb) as (? & ? & ?).
  split_and!; [done| |done]. rewrite not_elem_of_union, not_elem_of_singleton. split; [by intros ->|done].
Qed.

(** The end of [freeproc], from the page table on. *)
Local Definition clear_slot (i : nat) : K unit :=
  upd_proc i (set_ppagetable 0) ;; upd_proc i (set_psz 0) ;; upd_proc i (set_ppid 0) ;; upd_proc i (set_pparent None) ;;
  upd_proc i (fun p => set_pname (<[0%nat := 0]> (pname p)) p) ;; upd_proc i (set_pchan C_null) ;; upd_proc i (set_pkilled 0) ;;
  upd_proc i (set_pxstate 0) ;; upd_proc i (set_pstate UNUSED).

Lemma clear_slot_run i ps s : k_procs s = alter (set_ptrapframe 0) i ps -> clear_slot i s = Ok tt (set_k_procs (alter cleared i ps) s).
Proof.
  intros Hps. unfold clear_slot. do 8 (erewrite bind_ok; [|reflexivity]). unfold upd_proc, modify. simpl k_procs. rewrite Hps, !list_alter_alter_eq. reflexivity.
Qed.

Section freeing.
Variables (s : kstate) (F R : gset Z) (i : nat).
Hypothesis HF : kmem_free s F.
Hypothesis Hi : (i < length (k_procs s))%nat.

Local Definition freed (s' : kstate) : Prop :=
  kmem_free s' (R ∪ F) /\ frame (set_k_procs (alter cleared i (k_procs s)) s) s' /\ mem_out R (k_mem s) (k_mem s').

Lemma clear_slot_freed s2 :
  kmem_free s2 (R ∪ F) -> frame (set_k_procs (alter (set_ptrapframe 0) i (k_procs s)) s) s2 -> mem_out R (k_mem s) (k_mem s2) ->
  wp (clear_slot i) (fun _ s' => freed s') s2.
Proof.
  intros HF2 Hf2 Ho2. eapply wp_ok; [apply (clear_slot_run i (k_procs s)), (frame_procs _ _ Hf2)|].
  split_and!; [exact HF2| |exact Ho2]. apply (frame_set_procs (alter cleared i (k_procs s))) in Hf2. exact Hf2.
Qed.

(** A slot without a page table. *)
Lemma clear_slot_bare s1 :
  ppagetable (k_procs s !!! i) = 0 ->
  kmem_free s1 (R ∪ F) -> frame (set_k_procs (alter (set_ptrapframe 0) i (k_procs s)) s) s1 -> mem_out R (k_mem s) (k_mem s1) ->
  wp (p <- get_proc i ;; when (negb (ppagetable p =? 0)) (proc_freepagetable (ppagetable p) (psz p)) ;; clear_slot i) (fun _ s' => freed s') s1.
Proof.
  intros Hpt HF1 Hf1 Ho1. apply wp_bind, wp_gets. rewrite (frame_procs _ _ Hf1). simpl k_procs. rewrite list_lookup_total_alter_eq by done.
  simpl ppagetable. rewrite Hpt. simpl. apply wp_bind, wp_ret. by apply clear_slot_freed.
Qed.

(** [freeproc] empties the slot and gives back all that the process owns. *)
Lemma freeproc_spec : owns s F (k_procs s !!! i) R -> wp (freeproc i) (fun _ s' => freed s') s.
Proof.
  intros Hown. set (p := k_procs s !!! i) in *. unfold freeproc. fold (clear_slot i). apply wp_bind, wp_gets. fold p.
  assert (Hp1 : alter (set_ptrapframe 0) i (k_procs s) !!! i = set_ptrapframe 0 p) by (by rewrite list_lookup_total_alter_eq).
  destruct Hown as [(Ht & Hpt & Hr)|[(Hg & HtF & Hpt & Hr)|(t & [Hus Hfr Hni Htr Htfr Honly] & Hpt & Hsz & Hr)]].
  - rewrite Ht. simpl. apply wp_bind, wp_ret. apply wp_bind, wp_modify. apply clear_slot_bare; [done|by rewrite Hr, union_empty_l_L|apply frame_refl|apply mem_out_refl].
  - rewrite (proj2 (Z.eqb_neq _ _)) by by apply good_page_nonzero. simpl when. apply wp_bind. eapply wp_mono; [by apply kfree_law|]. intros [] s1 [HF1 Hon].
    apply wp_bind, wp_modify. rewrite (frame_procs s s1) by by eapply frame_kmem_only. 
    apply clear_slot_bare; [done|by rewrite Hr|apply frame_set_procs; by eapply frame_kmem_only|]. apply (kmem_only_out (ptrapframe p) _ s s1); [set_solver|done].
  - rewrite (proj2 (Z.eqb_neq _ _)) by (apply good_page_nonzero, Hfr). simpl when. apply wp_bind. eapply wp_mono; [by apply (uspace_kfree s F t (npg (psz p)))|].
    intros [] s1 (Hus1 & Hf1 & Ho1). apply wp_bind, wp_modify. rewrite (frame_procs s s1) by done.  apply wp_bind, wp_gets. simpl k_procs. rewrite Hp1. simpl ppagetable. simpl psz.
    assert (Hnz : pt_root t <> 0) by (eapply pt_root_nonzero, Hus). rewrite Hpt, (proj2 (Z.eqb_neq _ _)) by done. simpl when. apply wp_bind.
    eapply wp_mono; [apply (proc_freepagetable_spec (set_k_procs (alter (set_ptrapframe 0) i (k_procs s)) s1) ({[ptrapframe p]} ∪ F) t (psz p)); [by apply uspace_set_procs|done|eauto|eauto|done]|].
    intros [] s2 (HF2 & Hf2 & Ho2). apply clear_slot_freed; rewrite ?Hr; unfold proc_pages.
    + by replace ({[ptrapframe p]} ∪ space_pages t (npg (psz p)) ∪ F) with ({[ptrapframe p]} ∪ F ∪ space_pages t (npg (psz p))) by set_solver.
    + eapply frame_trans; [by apply frame_set_procs, Hf1|exact Hf2].
    + eapply mem_out_trans; [eapply mem_out_mono; [|exact Ho1]; set_solver|]. eapply mem_out_mono; [|exact Ho2]. set_solver.
Qed.
End freeing.

(** ** Critical sections around changes of memory *)

Lemma acquired_settle l s : acquired l (settle s) = acquired l s.
Proof.
  unfold acquired, pushed, settle. unfold set_k_locks, set_k_cpus, set_k_hart. simpl. f_equal. rewrite list_alter_alter_eq. apply list_alter_ext; [|done].
  intros k _. unfold k_sie. simpl. unfold push_cpu. destruct (noff k =? 0) eqn:E; simpl; by rewrite E.
Qed.

(** The lock is released after memory has changed. *)
Lemma release_frame l y s F :
  hart_ok y -> lock_free l y -> l <> L_kmem -> kmem_free s F -> frame (acquired l y) s ->
  wp (release l) (fun _ s' => kmem_free s' F /\ frame y s' /\ k_mem s' = k_mem s) s.
Proof.
  intros Hok Hl Hne Hk Hfr. pose proof Hk as (Hok' & Hlk & fl & Hinv & HF).
  pose proof (frame_exact _ _ (hart_ok_acquired _ _ Hok) (noff_acquired l _ Hok) Hok' Hfr) as Hex.
  assert (Hrel : released l s = set_k_mem (k_mem s) (set_k_freelist (k_freelist s) (settle y))).
  { rewrite Hex at 1. rewrite released_set_mem, released_set_freelist, released_acquired by done. done. }
  apply wp_release; [done|rewrite Hex; by apply noff_acquired|rewrite Hex; apply lock_held_acquired|]. rewrite Hrel. split_and!; [| |done].
  - split_and!; [apply (hart_ok_settle _ Hok)| |].
    + unfold lock_free in *. rewrite Hex in Hlk. simpl in *. by rewrite lookup_insert_ne in Hlk.
    + exists fl. split; [|done]. by eapply kmem_inv_ext.
  - unfold frame. simpl k_mem. simpl k_freelist. rewrite settle_set_mem, settle_set_freelist, settle_settle. done.
Qed.

Lemma allocpid_run s :
  hart_ok s -> lock_free L_pid s -> allocpid s = Ok (k_nextpid s) (set_k_nextpid (s32 (k_nextpid s + 1)) (settle s)).
Proof.
  intros Hok Hl. unfold allocpid. erewrite bind_ok; [|by apply acquire_run]. erewrite bind_ok; [|reflexivity]. erewrite bind_ok; [|reflexivity].
  erewrite bind_ok; [|apply release_run; hart_tac]. unfold ret. f_equal.
  change (k_nextpid (acquired L_pid s)) with (k_nextpid s). rewrite released_set_nextpid, released_acquired by done. done.
Qed.

(** ** [allocproc] *)

(** An unused slot is as [freeproc] leaves it, with no open files. *)
Definition clean (p : proc) : Prop := cleared p = p /\ pofile p = replicate NOFILE None.
Definition unused_clean (ps : list proc) : Prop := forall i, (i < NPROC)%nat -> pstate (ps !!! i) = UNUSED -> clean (ps !!! i).

Definition newborn (pid tf root : Z) (p : proc) : proc :=
  set_pctx_sp (u64 (pkstack p + PGSIZE)) (set_pctx_ra forkret_addr (set_ppagetable root (set_ptrapframe tf (set_pstate USED (set_ppid pid p))))).

(** A process has been made in slot [i]: its lock is held, and a number has been used up. *)
Definition with_child (i : nat) (f : proc -> proc) (s : kstate) : kstate :=
  acquired (L_proc i) (set_k_nextpid (s32 (k_nextpid s + 1)) (set_k_procs (alter f i (k_procs s)) s)).

Lemma cleared_over pid tf root p : cleared (set_ppagetable root (set_ptrapframe tf (set_pstate USED (set_ppid pid p)))) = cleared p.
Proof. done. Qed.

Section alloc.
Variables (s : kstate) (F : gset Z).
Hypothesis HF : kmem_free s F.
Hypothesis Hpl : plocks_free s.
Hypothesis Hpid : lock_free L_pid s.
Hypothesis Hlen : length (k_procs s) = NPROC.
Hypothesis Hclean : unused_clean (k_procs s).

Lemma find_unused :
  wp (for_ret (seq 0 NPROC) (fun i =>
    acquire (L_proc i) ;;
    p <- get_proc i ;;
    if decide (pstate p = UNUSED) then ret (Some i) else
    release (L_proc i) ;;
    ret None)) (fun r s' => match r with
      | Some i => (i < NPROC)%nat /\ pstate (k_procs s !!! i) = UNUSED /\ s' = acquired (L_proc i) s
      | None => s' = s \/ s' = settle s
      end) s.
Proof.
  pose proof HF as (Hok & _). apply (wp_for_ret (fun _ s' => s' = s \/ s' = settle s)); [by left| |done].
  intros pre i post s' Hsplit Hs'. assert (Hi : (i < NPROC)%nat) by (assert (Hin : i ∈ seq 0 NPROC) by (rewrite Hsplit; set_solver); apply elem_of_seq in Hin; lia).
  assert (Hok' : hart_ok s') by (destruct Hs' as [-> | ->]; [done|by apply hart_ok_settle]).
  assert (Hl' : lock_free (L_proc i) s') by (destruct Hs' as [-> | ->]; apply Hpl).
  assert (Hacq : acquired (L_proc i) s' = acquired (L_proc i) s) by (destruct Hs' as [-> | ->]; [done|apply acquired_settle]).
  apply wp_bind, wp_acquire; [done|done|]. rewrite Hacq. apply wp_bind, wp_gets. case_decide as Hu.
  - apply wp_ret. by split_and!.
  - apply wp_bind, wp_release; [hart_tac|hart_tac|hart_tac|]. apply wp_ret. rewrite released_acquired by (done || apply Hpl). by right.
Qed.

(** *** While the slot [i] is being filled *)
Section slot.
Variable i : nat.
Hypothesis Hi : (i < NPROC)%nat.

Lemma kmem_free_child f : kmem_free (with_child i f s) F.
Proof.
  destruct HF as (Hok & Hl & l & Hinv & HFl). split_and!; [unfold with_child; hart_tac|unfold with_child; hart_tac|]. exists l. split; [|done].
  by eapply kmem_inv_ext.
Qed.

Lemma child_at f s1 : frame (with_child i f s) s1 -> k_procs s1 !!! i = f (k_procs s !!! i).
Proof. intros Hf. rewrite (frame_procs _ _ Hf). simpl. by rewrite list_lookup_total_alter_eq by lia. Qed.

Lemma child_upd f g s1 :
  frame (with_child i f s) s1 -> frame (with_child i (fun p => g (f p)) s) (set_k_procs (alter g i (k_procs s1)) s1).
Proof.
  intros Hf. rewrite (frame_procs _ _ Hf). change (k_procs (with_child i f s)) with (alter f i (k_procs s)). rewrite list_alter_alter_eq.
  apply (frame_set_procs (alter (fun p => g (f p)) i (k_procs s))) in Hf. exact Hf.
Qed.

(** The process is given up again. *)
Lemma child_abandon {A} f s1 F1 R P (a : A) :
  frame (with_child i f s) s1 -> kmem_free s1 F1 -> owns s1 F1 (f (k_procs s !!! i)) R -> R ∪ F1 = F -> mem_out P (k_mem s) (k_mem s1) -> R ⊆ P ->
  wp (freeproc i ;; release (L_proc i) ;; ret a) (fun r s' => r = a /\ kmem_free s' F /\
    frame (set_k_nextpid (s32 (k_nextpid s + 1)) (set_k_procs (alter (fun p => cleared (f p)) i (k_procs s)) s)) s' /\ mem_out P (k_mem s) (k_mem s')) s1.
Proof.
  intros Hf HF1 Hown HR Hout Hsub. pose proof HF as (Hok & _).
  eapply wp_seq; [apply (freeproc_spec s1 F1 R i HF1)|]; [rewrite (frame_procs _ _ Hf); simpl; rewrite length_alter; lia|by rewrite (child_at _ _ Hf)|].
  cbv beta. intros [] s2 (HF2 & Hf2 & Ho2). rewrite HR in HF2. set (y := set_k_nextpid _ _).
  assert (Hfy : frame (acquired (L_proc i) y) s2).
  { eapply frame_trans; [|exact Hf2]. rewrite (frame_procs _ _ Hf). change (k_procs (with_child i f s)) with (alter f i (k_procs s)). rewrite list_alter_alter_eq.
    apply (frame_set_procs (alter (fun p => cleared (f p)) i (k_procs s))) in Hf. exact Hf. }
  eapply wp_seq; [apply (release_frame (L_proc i) y s2 F); [exact Hok|apply Hpl|done|done|done]|]. cbv beta. intros [] s3 (HF3 & Hf3 & Hm3).
  apply wp_ret. split_and!; [done|done|done|]. rewrite Hm3. eapply mem_out_trans; [exact Hout|]. by eapply mem_out_mono.
Qed.

(** ... before the context has been set: nothing is left of it. *)
Lemma child_unmade {A} f s1 F1 R P (a : A) :
  frame (with_child i f s) s1 -> kmem_free s1 F1 -> owns s1 F1 (f (k_procs s !!! i)) R -> R ∪ F1 = F -> mem_out P (k_mem s) (k_mem s1) -> R ⊆ P ->
  pstate (k_procs s !!! i) = UNUSED -> cleared (f (k_procs s !!! i)) = cleared (k_procs s !!! i) ->
  wp (freeproc i ;; release (L_proc i) ;; ret a) (fun r s' => r = a /\ kmem_free s' F /\ frame (set_k_nextpid (s32 (k_nextpid s + 1)) s) s' /\
    mem_out P (k_mem s) (k_mem s')) s1.
Proof.
  intros Hf HF1 Hown HR Hout Hsub Hun Hcl. destruct (Hclean i Hi Hun) as [Hc _]. eapply wp_mono; [by apply (child_abandon f s1 F1 R P a)|].
  intros r s' (-> & HF' & Hf' & Ho'). rewrite (alter_id_at _ i (fun p => cleared (f p))), set_k_procs_id in Hf' by (by rewrite Hcl). done.
Qed.
End slot.

Definition made (i : nat) (s' : kstate) : Prop :=
  (i < NPROC)%nat /\ pstate (k_procs s !!! i) = UNUSED /\ exists tf t F',
    pspace s' F' t 0 tf /\ proc_pages t 0 tf ∪ F' = F /\ frame (with_child i (newborn (k_nextpid s) tf (pt_root t)) s) s' /\ mem_out F (k_mem s) (k_mem s').

(** Nothing has been made. *)
Definition unmade (s' : kstate) : Prop :=
  kmem_free s' F /\ (exists pid, frame (set_k_nextpid pid s) s') /\ mem_out F (k_mem s) (k_mem s').

(** [allocproc] makes a process with a trap frame and a page table in the first unused slot, or it fails
    and every page is free again. *)
Lemma allocproc_spec : wp allocproc (fun r s' => match r with Some i => made i s' | None => unmade s' end) s.
Proof.
  pose proof HF as (Hok & _). unfold allocproc. eapply wp_seq; [exact find_unused|]. cbv beta. intros [i|] s1 Hs1.
  2:{ apply wp_ret. assert (Hun : settle s1 = settle s /\ k_mem s1 = k_mem s /\ kmem_free s1 F).
      { destruct Hs1 as [-> | ->]; split_and!; try done; [apply settle_settle|]. destruct HF as (? & ? & l & ? & ?). split_and!; [by apply hart_ok_settle|done|]. by exists l. }
      destruct Hun as (Hse & Hm & Hk). split_and!; [done| |rewrite Hm; apply mem_out_refl]. exists (k_nextpid s). unfold frame. rewrite settle_set_nextpid, Hse, Hm.
      destruct Hs1 as [-> | ->]; by destruct s. }
  destruct Hs1 as (Hi & Hun & ->). set (pid := k_nextpid s). set (p := k_procs s !!! i) in *. destruct (Hclean i Hi Hun) as [Hc _]. fold p in Hc.
  assert (Hpt0 : ppagetable p = 0) by exact (eq_sym (f_equal ppagetable Hc)).
  apply wp_bind. eapply wp_ok; [apply allocpid_run; hart_tac|]. cbv beta. rewrite settle_acquired by done. change (k_nextpid (acquired (L_proc i) s)) with pid.
  do 2 apply wp_bind, wp_modify. match goal with |- wp _ _ ?x => assert (Hx : x = with_child i (fun p => set_pstate USED (set_ppid pid p)) s) end.
  { unfold with_child. simpl k_procs. by rewrite list_alter_alter_eq. }
  rewrite Hx. clear Hx. set (f1 := fun p => set_pstate USED (set_ppid pid p)). set (s1 := with_child i f1 s).
  apply wp_bind. eapply wp_mono; [apply (kalloc_law s1 F), kmem_free_child|]. intros tf s2 Hka. apply wp_bind, wp_modify.
  assert (Hf2 : frame s1 s2) by (destruct Hka as [(_ & _ & -> & _)|(_ & _ & Hon)]; [apply frame_settle|by eapply frame_kmem_only]).
  assert (Ho2 : mem_out F (k_mem s) (k_mem s2)) by (destruct Hka as [(_ & _ & -> & _)|(HtF & _ & Hon)]; [apply mem_out_refl|by apply (kmem_only_out tf F s1)]).
  pose proof (child_upd i f1 (set_ptrapframe tf) s2 Hf2) as Hf3. set (s3 := set_k_procs _ s2) in *.
  destruct Hka as [(-> & HF0 & _ & HF2)|(HtF & HF2 & Hon)].
  { simpl Z.eqb. cbv iota. eapply wp_mono; [apply (child_unmade i Hi _ s3 F ∅ F None Hf3); [done|left; split_and!; [done|exact Hpt0|done]|set_solver|done|set_solver|done|done]|].
    intros r s' (-> & HF' & Hf' & Ho'). split_and!; eauto. }
  pose proof (kmem_free_good _ _ _ HF HtF) as Hg. rewrite (proj2 (Z.eqb_neq _ _)) by by apply good_page_nonzero.
  set (f2 := fun p => set_ptrapframe tf (f1 p)) in *.
  eapply wp_seq; [apply (proc_pagetable_spec s3 (F ∖ {[tf]}) i tf); [done|by rewrite (child_at i Hi f2 s3 Hf3)|done|set_solver]|]. cbv beta.
  assert (HFt : {[tf]} ∪ F ∖ {[tf]} = F) by (apply leibniz_equiv; intros x; destruct (decide (x = tf)); set_solver).
  intros r s4 [(-> & HF4 & Hf4 & Ho4)|(Hnz & F' & t & -> & [Hus4 Hf4 Ho4 Ht4] & Hsp)]; apply wp_bind, wp_modify.
  - pose proof (child_upd i f2 (set_ppagetable 0) s4 (frame_trans _ _ _ Hf3 Hf4)) as Hf5. set (s5 := set_k_procs _ s4) in *.
    simpl Z.eqb. cbv iota. eapply wp_mono; [apply (child_unmade i Hi _ s5 (F ∖ {[tf]}) {[tf]} F None Hf5); [done| |done| |set_solver|done|done]|].
    + right. left. split_and!; [done|simpl; set_solver|done|done].
    + eapply mem_out_trans; [exact Ho2|]. eapply mem_out_mono; [|exact Ho4]. set_solver.
    + intros r s' (-> & HF' & Hf' & Ho'). split_and!; eauto.
  - pose proof (child_upd i f2 (set_ppagetable (pt_root t)) s4 (frame_trans _ _ _ Hf3 Hf4)) as Hf5. set (s5 := set_k_procs _ s4) in *.
    rewrite (proj2 (Z.eqb_neq _ _)) by done. apply wp_bind, wp_modify. apply (child_upd i _ (set_pctx_ra forkret_addr)) in Hf5. set (s6 := set_k_procs _ s5) in *.
    apply wp_bind, wp_modify. apply (child_upd i _ (fun p => set_pctx_sp (u64 (pkstack p + PGSIZE)) p)) in Hf5. set (s7 := set_k_procs _ s6) in *.
    apply wp_ret. split_and!; [done|done|]. exists tf, t, F'. split_and!; [| |exact Hf5|].
    + destruct Hsp as [Hus Ha Hb Hc' Hd He]. split; try done. by destruct Hus.
    + unfold proc_pages, space_pages. simpl. rewrite union_empty_r_L, <- union_assoc_L, (union_comm_L (pt_pages t)), Ht4. done.
    + eapply mem_out_trans; [exact Ho2|]. eapply mem_out_mono; [|exact Ho4]. set_solver.
Qed.
End alloc.
End space.
