(* ===== verification/ProcSample.v ===== *)
(** Concrete processes: page tables with the trampoline, a trap frame and one page of user memory, laid out
    in seven pages each, for the states at which the theorems about processes are instantiated. *)
From S2P Require Import Prelude Machine Riscv State Spinlock KString Kalloc Vm Uvm UvmLife Sched Uart Printf Console Block Bio Log Fs Pipe Proc ProcSpace.
From Stdlib Require Import ZArith Lia.
From stdpp Require Import base strings numbers gmap list.
Local Open Scope Z_scope.
Local Open Scope m_scope.

Module SampleProc.
#[local] Existing Instance sample_layout.

Abbreviation pg := Sample.page.

Lemma pg_good i : 0 <= i < 64 -> good_page (pg i).
Proof.
  intros Hi. split; [exists (0x80040 + i); unfold pg, KERNBASE, PGSIZE; lia|]. simpl. unfold pg, PHYSTOP, KERNBASE, PGSIZE. lia.
Qed.

(** A node and a leaf more. *)
Definition link (l : nat) (k i a : Z) (t : ptab) : ptab := set_tbl (<[(l, k * 512 + i) := a]> (tbl t)) t.
Definition leaf (va e : Z) (t : ptab) : ptab := set_lf (partial_alter (fun _ => Some e) (va / PGSIZE) (lf t)) t.

Definition user_pte (b : Z) : Z := mkpte (pg (b + 5)) (Z.lor 0x1e PTE_V).
Definition tramp_pte : Z := mkpte trampoline (Z.lor (Z.lor PTE_R PTE_X) PTE_V).
Definition frame_pte (b : Z) : Z := mkpte (pg (b + 6)) (Z.lor (Z.lor PTE_R PTE_W) PTE_V).

(** The page table rooted in page [b]; pages [b + 5] and [b + 6] are the user memory and the trap frame. *)
Definition nodes (b : Z) : ptab :=
  link 0 255 511 (pg (b + 4)) (link 1 0 255 (pg (b + 3)) (link 0 0 0 (pg (b + 2)) (link 1 0 0 (pg (b + 1)) (empty_pt (pg b))))).
Definition pt (b : Z) : ptab := leaf TRAPFRAME (frame_pte b) (leaf TRAMPOLINE tramp_pte (leaf 0 (user_pte b) (nodes b))).

Definition nodes_mem (b : Z) (m : mem) : mem :=
  linked (pg (b + 4)) (pg (b + 3)) 511 (linked (pg (b + 3)) (pg b) 255 (linked (pg (b + 2)) (pg (b + 1)) 0 (linked (pg (b + 1)) (pg b) 0 m))).
Definition build (b : Z) (m : mem) : mem :=
  st64 (st64 (st64 (nodes_mem b m) (pg (b + 2) + 8 * PX 0 0) (user_pte b)) (pg (b + 4) + 8 * PX 0 TRAMPOLINE) tramp_pte) (pg (b + 4) + 8 * PX 0 TRAPFRAME) (frame_pte b).

Definition table_pages (b : Z) : gset Z := {[pg (b + 4)]} ∪ ({[pg (b + 3)]} ∪ ({[pg (b + 2)]} ∪ ({[pg (b + 1)]} ∪ {[pg b]}))).

Ltac pages := rewrite ?not_elem_of_union, ?not_elem_of_singleton; unfold pg, KERNBASE, PGSIZE; lia.

Lemma pt_pages_empty a : pt_pages (empty_pt a) = {[a]}.
Proof. unfold pt_pages. simpl. apply map_img_singleton_L. Qed.

Lemma nodes_pages b : pt_pages (nodes b) = table_pages b.
Proof. unfold nodes, link, table_pages. rewrite !pt_pages_insert by reflexivity. by rewrite pt_pages_empty. Qed.

Lemma nodes_rep b m : 0 <= b < 32 -> (forall i, 0 <= i < 512 -> ld64 m (pg b + 8 * i) = 0) -> pt_rep (nodes_mem b m) (nodes b).
Proof.
  intros Hb Hz. unfold nodes, link, nodes_mem.
  apply (linked_rep _ _ (pg (b + 4)) 0 255); [|apply pg_good; lia|rewrite !pt_pages_insert, pt_pages_empty by reflexivity; pages|reflexivity|lia|reflexivity].
  apply (linked_rep _ _ (pg (b + 3)) 1 0); [|apply pg_good; lia|rewrite !pt_pages_insert, pt_pages_empty by reflexivity; pages|reflexivity|lia|reflexivity].
  apply (linked_rep _ _ (pg (b + 2)) 0 0); [|apply pg_good; lia|rewrite !pt_pages_insert, pt_pages_empty by reflexivity; pages|reflexivity|lia|reflexivity].
  apply (linked_rep _ _ (pg (b + 1)) 1 0); [|apply pg_good; lia|rewrite pt_pages_empty by reflexivity; pages|reflexivity|lia|reflexivity].
  apply empty_rep; [apply pg_good; lia|done].
Qed.

Lemma pg_range i : 0 <= i < 64 -> 0 <= pg i < 2 ^ 56.
Proof. intros Hi. unfold pg, KERNBASE, PGSIZE. lia. Qed.

Lemma leaf_step m t va q e :
  pt_rep m t -> tbl t !! (0%nat, key 0 va) = Some q -> leaf_pte e -> pt_rep (st64 m (q + 8 * PX 0 va) e) (leaf va e t).
Proof. intros Hr Hq He. apply (leaf_write m t va q (Some e) Hr Hq). by intros e' [= <-]. Qed.

Lemma user_leaf_ok b : 0 <= b < 32 -> leaf_pte (user_pte b).
Proof.
  intros Hb. unfold user_pte. assert (Hr : 0 <= pg (b + 5) < 2 ^ 56) by (apply pg_range; lia).
  apply leaf_pte_mkpte; [exact Hr|]. split; [lia|discriminate].
Qed.

Lemma frame_leaf_ok b : 0 <= b < 32 -> leaf_pte (frame_pte b).
Proof.
  intros Hb. unfold frame_pte. assert (Hr : 0 <= pg (b + 6) < 2 ^ 56) by (apply pg_range; lia).
  apply leaf_pte_mkpte; [exact Hr|]. split; [by vm_compute|discriminate].
Qed.

Lemma tramp_leaf_ok : leaf_pte tramp_pte.
Proof. apply leaf_pte_mkpte; [by vm_compute|]. split; [by vm_compute|discriminate]. Qed.

Lemma build_rep b m : 0 <= b < 32 -> (forall i, 0 <= i < 512 -> ld64 m (pg b + 8 * i) = 0) -> pt_rep (build b m) (pt b).
Proof.
  intros Hb Hz. assert (H0 := nodes_rep b m Hb Hz). unfold build, pt. revert H0. generalize (nodes_mem b m). intros m0 H0.
  assert (Hu := user_leaf_ok b Hb). assert (Hf := frame_leaf_ok b Hb). assert (Ht := tramp_leaf_ok).
  revert Hu Hf Ht. generalize (user_pte b), (frame_pte b), tramp_pte. intros u f r Hu Hf Ht.
  apply leaf_step; [|reflexivity|done]. apply leaf_step; [|reflexivity|done]. by apply leaf_step.
Qed.

Lemma linked_out P a p i m : a ∈ P -> p ∈ P -> 0 <= i < 512 -> mem_out P m (linked a p i m).
Proof. intros Ha Hp Hi. unfold linked. eapply mem_out_trans; [by apply (mem_out_fill a)|by apply mem_out_slot]. Qed.

Lemma table_in b i : 0 <= i < 5 -> pg (b + i) ∈ table_pages b.
Proof.
  intros Hi. unfold table_pages. rewrite !elem_of_union, !elem_of_singleton.
  assert (i = 0 \/ i = 1 \/ i = 2 \/ i = 3 \/ i = 4) as [-> | [-> | [-> | [-> | ->]]]] by lia; rewrite ?Z.add_0_r; tauto.
Qed.

Lemma build_out b m : mem_out (table_pages b) m (build b m).
Proof.
  assert (H0 : pg b ∈ table_pages b) by (rewrite <- (Z.add_0_r b) at 1; by apply table_in).
  assert (Hn : mem_out (table_pages b) m (nodes_mem b m)).
  { unfold nodes_mem. do 4 (eapply mem_out_trans; [|apply linked_out; [apply table_in; lia|first [exact H0|apply table_in; lia]|lia]]). apply mem_out_refl. }
  unfold build. do 3 (eapply mem_out_trans; [|apply mem_out_slot; [apply table_in; lia|by vm_compute]]). exact Hn.
Qed.

(** Process 0 runs; process 1 is its child and has exited.  Ten pages are free. *)
Definition free_pages : list Z := pg <$> zrange 16 10.
Definition F : gset Z := list_to_set free_pages.
Definition free_mem : mem := foldr (fun i m => st64 m (pg i) (if i =? 25 then 0 else pg (i + 1))) ∅ (zrange 16 10).
Definition memory : mem := build 0 (build 8 free_mem).

Definition a_proc (b : Z) (p : proc) : proc := set_psz PGSIZE (set_ptrapframe (pg (b + 6)) (set_ppagetable (pg b) p)).
Definition procs : list proc :=
  set_ppid 1 (set_pcwd (Some 0%nat) (set_pstate RUNNING (a_proc 0 zero_proc)))
  :: set_ppid 2 (set_pparent (Some 0%nat) (set_pstate ZOMBIE (a_proc 8 zero_proc))) :: replicate (NPROC - 2) zero_proc.
Definition state : kstate :=
  set_k_mem memory (set_k_freelist (pg 16) (set_k_procs procs (set_k_nextpid 3
    (set_k_cpus (alter (set_cproc (Some 0%nat)) 0%nat (k_cpus boot_state)) boot_state)))).

Lemma free_good a : a ∈ F -> exists i, a = pg i /\ 16 <= i < 26.
Proof. intros Ha. unfold F, free_pages in Ha. apply elem_of_list_to_set, list_elem_of_fmap in Ha as (i & -> & Hi). apply elem_of_zrange in Hi. exists i. split; [done|lia]. Qed.

Lemma table_is b a : a ∈ table_pages b -> exists i, a = pg i /\ b <= i < b + 5.
Proof.
  unfold table_pages. rewrite !elem_of_union, !elem_of_singleton. intros [->|[->|[->|[->| ->]]]]; eexists; (split; [reflexivity|lia]).
Qed.

Lemma pg_inj i j : pg i = pg j -> i = j.
Proof. unfold pg, KERNBASE, PGSIZE. lia. Qed.

Lemma list_ok : kmem_free state F.
Proof.
  split_and!; [split_and!; [vm_compute; lia|by vm_compute|by vm_compute]|done|]. exists free_pages. split; [|done]. split_and!.
  - vm_compute. tauto.
  - apply (bool_decide_eq_true_1 (NoDup free_pages)). by vm_compute.
  - apply Forall_fmap, Forall_forall. intros i Hi. apply elem_of_zrange in Hi. apply pg_good. lia.
Qed.

(** Memory outside the pages that have been written is still zero. *)
Lemma out_page P m m' i j :
  mem_out P m m' -> (forall a, a ∈ P -> exists k, a = pg k /\ k <> i) -> 0 <= j < 512 -> ld64 m' (pg i + 8 * j) = ld64 m (pg i + 8 * j).
Proof.
  intros Ho Hp Hj. apply ld64_ext. intros x Hx. apply Ho. intros a Ha. destruct (Hp a Ha) as (k & -> & Hk).
  unfold in_page, pg, KERNBASE, PGSIZE in *. lia.
Qed.

Lemma chain_out l m P :
  (forall i, i ∈ l -> pg i ∈ P) -> mem_out P m (foldr (fun i m => st64 m (pg i) (if i =? 25 then 0 else pg (i + 1))) m l).
Proof.
  induction l as [|i l IH]; intros Hl; simpl; [apply mem_out_refl|]. eapply mem_out_trans; [apply IH; intros; apply Hl; set_solver|].
  rewrite <- (Z.add_0_r (pg i)) at 1. apply (mem_out_slot (pg i) P _ 0); [apply Hl; set_solver|lia].
Qed.

Lemma free_out : mem_out F ∅ free_mem.
Proof. apply chain_out. intros i Hi. unfold F, free_pages. apply elem_of_list_to_set. by apply list_elem_of_fmap_2. Qed.

Lemma rep8 : pt_rep (build 8 free_mem) (pt 8).
Proof.
  apply build_rep; [lia|]. intros i Hi. rewrite (out_page _ _ _ 8 i free_out); [done| |done].
  intros a Ha. destruct (free_good a Ha) as (k & -> & ?). exists k. split; [done|lia].
Qed.

Lemma leaf_tables va e t : pt_pages (leaf va e t) = pt_pages t.
Proof. reflexivity. Qed.

Lemma pt_is b : pt_pages (pt b) = table_pages b.
Proof. unfold pt. rewrite !leaf_tables. apply nodes_pages. Qed.

Lemma rep_state b : b = 0 \/ b = 8 -> pt_rep memory (pt b).
Proof.
  intros [-> | ->].
  - apply build_rep; [lia|]. intros i Hi. rewrite (out_page _ _ _ 0 i (build_out 8 free_mem)); [|intros a Ha; destruct (table_is 8 a Ha) as (k & -> & ?); exists k; split; [done|lia]|done].
    rewrite (out_page _ _ _ 0 i free_out); [done|intros a Ha; destruct (free_good a Ha) as (k & -> & ?); exists k; split; [done|lia]|done].
  - eapply pt_rep_out; [exact rep8| | |apply build_out].
    + rewrite pt_is. intros a Ha Hb. apply table_is in Ha as (i & -> & ?), Hb as (j & Hij & ?). apply pg_inj in Hij. lia.
    + intros a Ha. apply table_is in Ha as (i & -> & ?). apply pg_good. lia.
Qed.

Lemma pt_leaves b w : lf (pt b) !! w = if decide (w = UTOP) then Some (frame_pte b) else if decide (w = VTRAMP) then Some tramp_pte else if decide (w = 0) then Some (user_pte b) else None.
Proof.
  unfold pt, leaf. cbn [lf set_lf]. change (TRAPFRAME / PGSIZE) with UTOP. change (TRAMPOLINE / PGSIZE) with VTRAMP. change (0 / PGSIZE) with 0.
  case_decide as H1; [subst; by rewrite lookup_partial_alter_eq|]. rewrite lookup_partial_alter_ne by done.
  case_decide as H2; [subst; by rewrite lookup_partial_alter_eq|]. rewrite lookup_partial_alter_ne by done.
  case_decide as H3; [subst; by rewrite lookup_partial_alter_eq|]. by rewrite lookup_partial_alter_ne by done.
Qed.

Lemma pt_user b : b = 0 \/ b = 8 -> leaf_pages (lf (pt b)) 0 1 = [pg (b + 5)].
Proof. by intros [-> | ->]; vm_compute. Qed.

Lemma page_ok b i : b = 0 \/ b = 8 -> i = 5 \/ i = 6 -> freeable F (pt b) (pg (b + i)).
Proof.
  intros Hb Hi. split_and!; [apply pg_good; lia| |rewrite pt_is].
  - intros Ha. apply free_good in Ha as (k & Hk & ?). apply pg_inj in Hk. lia.
  - intros Ha. apply table_is in Ha as (k & Hk & ?). apply pg_inj in Hk. lia.
Qed.

Lemma space b : b = 0 \/ b = 8 -> pspace state F (pt b) 1 (pg (b + 6)).
Proof.
  intros Hb. split; [split| | | | |].
  - split_and!; [apply list_ok|by apply rep_state|]. rewrite pt_is. intros a Ha Hf. apply table_is in Ha as (i & -> & ?). apply free_good in Hf as (j & Hij & ?). apply pg_inj in Hij. lia.
  - by vm_compute.
  - intros w Hw. replace w with 0 by lia. rewrite pt_leaves. by eexists.
  - rewrite pt_user by done. apply NoDup_singleton.
  - rewrite pt_user by done. apply Forall_singleton. apply page_ok; [done|lia].
  - intros w Hw. rewrite pt_leaves. rewrite !decide_False; [done|lia| |lia]. intros ->. assert (UTOP < VTRAMP) by (by vm_compute). lia.
  - apply page_ok; [done|lia].
  - rewrite pt_user by done. rewrite list_elem_of_singleton. intros Heq%pg_inj. lia.
  - by rewrite pt_leaves.
  - by rewrite pt_leaves.
  - intros w Hw. rewrite pt_leaves in Hw. repeat case_decide; subst; [tauto|tauto|left; lia|by destruct Hw].
Qed.

Lemma owned b a : b = 0 \/ b = 8 -> a ∈ proc_pages (pt b) 1 (pg (b + 6)) -> exists i, a = pg i /\ b <= i < b + 7.
Proof.
  intros Hb Ha. unfold proc_pages, space_pages in Ha. rewrite pt_is, pt_user in Ha by done.
  rewrite !elem_of_union, elem_of_singleton, elem_of_list_to_set, list_elem_of_singleton in Ha.
  destruct Ha as [->|[Ha| ->]]; [eexists; split; [done|lia]| |eexists; split; [done|lia]].
  destruct (table_is b a Ha) as (i & -> & ?). exists i. split; [done|lia].
Qed.

Lemma owned_apart : proc_pages (pt 0) 1 (pg 6) ## proc_pages (pt 8) 1 (pg 14).
Proof.
  intros a Ha Hb. destruct (owned 0 a (or_introl eq_refl) Ha) as (i & -> & ?). destruct (owned 8 _ (or_intror eq_refl) Hb) as (j & Hij & ?).
  apply pg_inj in Hij. lia.
Qed.
End SampleProc.
