(* ===== verification/ProcLife.v ===== *)
(** The life of a process: [fork] and [wait] of [kernel/proc.c].

    [fork] is shown to make a process that owns pages of its own and sees exactly the memory, the
    registers and the files of its parent; [wait] to hand the status of a child that has exited to its
    parent and to return every page the child owned to the allocator. *)
From S2P Require Import Prelude Machine Riscv State Spinlock KString Kalloc Vm Uvm UvmLife Sched Copy Uart Printf Console Block Bio Log Fs Pipe FileTable Proc ProcSpace ProcSample.
From Stdlib Require Import ZArith Lia.
From stdpp Require Import base strings numbers gmap list.
Local Open Scope Z_scope.
Local Open Scope m_scope.

#[export] Instance tfreg_eq_dec : EqDecision tfreg.
Proof. solve_decision. Defined.

Section life.
Context `{Layout} `{Patience} `{Garbage}.

(** ** Spaces and changes of memory *)

Lemma uspace_out s F t n P m :
  uspace s F t n -> P ## F -> P ## space_pages t n -> (forall b, b ∈ P -> good_page b) -> mem_out P (k_mem s) m -> uspace (set_k_mem m s) F t n.
Proof.
  intros [Hinv Htop Hmap Hnd Hown Hab] HPF HPt HP Hout. destruct Hinv as (HF & Hr & Hd). split; try done. split_and!; [by eapply kmem_free_out| |done].
  eapply (pt_rep_out _ _ _ P); [done| |done|done]. unfold space_pages in HPt. set_solver.
Qed.

Lemma pspace_out s F t n tf P m :
  pspace s F t n tf -> P ## F -> P ## space_pages t n -> (forall b, b ∈ P -> good_page b) -> mem_out P (k_mem s) m -> pspace (set_k_mem m s) F t n tf.
Proof. intros [Hus H1' H2 H3 H4 H5] HPF HPt HP Hout. split; try done. by eapply uspace_out. Qed.

(** A state in which only other things than memory differ. *)
Lemma pspace_ext s s' F t n tf : pspace s F t n tf -> kmem_free s' F -> k_mem s' = k_mem s -> pspace s' F t n tf.
Proof.
  intros [[Hinv Htop Hmap Hnd Hown Hab] H1' H2 H3 H4 H5] HF Hm. split; try done. split; try done. destruct Hinv as (_ & Hr & Hd). split_and!; [done| |done]. by rewrite Hm.
Qed.

Lemma pspace_good s F t n tf a : pspace s F t n tf -> a ∈ proc_pages t n tf -> good_page a.
Proof.
  intros [Hus Hf _ _ _ _]. unfold proc_pages. rewrite elem_of_union, elem_of_singleton. intros [->|Ha]; [apply Hf|by eapply space_good].
Qed.

Lemma pspace_apart s F t n tf : pspace s F t n tf -> proc_pages t n tf ## F.
Proof.
  intros [Hus (_ & Hf & _) _ _ _ _]. pose proof (space_apart _ _ _ _ Hus). unfold proc_pages. set_solver.
Qed.

(** The free pages of a process that goes on while others are taken. *)
Lemma pspace_taken s F t n tf s' F' :
  pspace s F t n tf -> kmem_free s' F' -> F' ⊆ F -> mem_out F (k_mem s) (k_mem s') -> pspace s' F' t n tf.
Proof.
  intros Hps HF' Hsub Hout. pose proof (pspace_apart _ _ _ _ _ Hps) as Hap.
  assert (HFg : forall b, b ∈ F -> good_page b) by (intros b; eapply kmem_free_good, (us_inv _ _ _ _ (sp_us _ _ _ _ _ Hps))).
  destruct Hps as [[Hinv Htop Hmap Hnd Hown Hab] H1' H2 H3 H4 H5]. destruct Hinv as (HF & Hr & Hd).
  assert (Hfr : forall a, freeable F t a -> freeable F' t a) by (intros a (? & ? & ?); split_and!; [done|set_solver|done]).
  split; try done; [|by apply Hfr]. split; try done.
  - split_and!; [done| |set_solver]. by eapply (pt_rep_out _ _ _ F).
  - eapply Forall_impl; [exact Hown|exact Hfr].
Qed.

Lemma pspace_parent s F t n tf P :
  pspace s F t n tf -> P ⊆ F -> parent (k_mem s) t n P.
Proof.
  intros [[Hinv Htop Hmap Hnd Hown Hab] _ _ _ _ _] Hsub. destruct Hinv as (HF & Hr & Hd). rewrite Forall_forall in Hown.
  assert (Hin : forall w, 0 <= w < Z.of_nat n -> freeable F t (leaf_page (lf t) w)).
  { intros w Hw. apply Hown, elem_of_leaf_pages. exists w. split; [lia|done]. }
  split; try done.
  - intros w Hw. by apply (Hin w).
  - intros w Hw. destruct (Hin w Hw) as (_ & ? & _). set_solver.
  - set_solver.
  - intros a Ha. eapply kmem_free_good; [exact HF|set_solver].
Qed.

(** ** The child's copy *)

(** The pages of a process after its address space has changed. *)
Lemma pspace_new s F t tf s' F' t' n :
  pspace s F t 0 tf -> uspace s' F' t' n -> all_pages F' t' n = all_pages F t 0 ->
  (forall w, ~ (0 <= w < Z.of_nat n) -> lf t' !! w = lf t !! w) -> pspace s' F' t' n tf.
Proof.
  intros [Hus (Hg & HtF & Htp) _ Htr Hfr Honly] Hus' Htot Hold. pose proof VTRAMP_top as Hv. pose proof (us_top _ _ _ _ Hus') as Hn. pose proof top_range as [Ht0 _].
  assert (Hni : tf ∉ all_pages F' t' n) by (rewrite Htot; unfold all_pages; simpl; set_solver). unfold all_pages in Hni.
  rewrite !not_elem_of_union, not_elem_of_list_to_set in Hni. destruct Hni as [[HaF Hap] Hal].
  split; [done|by split_and!|done|by rewrite Hold by lia|by rewrite Hold by lia|].
  intros w Hw. destruct (decide (0 <= w < Z.of_nat n)); [by left|]. rewrite Hold in Hw by done. destruct (Honly w Hw); [lia|by right].
Qed.

Section copying.
Variables (s : kstate) (F : gset Z) (t0 t : ptab) (sz tf0 tf : Z) (s1 : kstate) (F1 : gset Z).
Hypothesis Hsz : 0 <= sz <= UTOP * PGSIZE.
(** The parent, before anything was allocated; and the child's empty space. *)
Hypothesis Hpar : pspace s F t0 (npg sz) tf0.
Hypothesis Hnew : pspace s1 F1 t 0 tf.
Hypothesis Hpages : proc_pages t 0 tf ∪ F1 = F.
Hypothesis Hout : mem_out F (k_mem s) (k_mem s1).

(** The child sees the parent's memory. *)
Definition same_view (m : mem) (t : ptab) (m' : mem) (t' : ptab) : Prop :=
  forall va, 0 <= va -> uview m' t' va = uview m t va /\ writable t' va = writable t va.

Record cloned (s2 : kstate) (F2 : gset Z) (t2 : ptab) : Prop := {
  cl_space : pspace s2 F2 t2 (npg sz) tf;
  cl_root : pt_root t2 = pt_root t;
  cl_frame : frame s1 s2;
  cl_total : proc_pages t2 (npg sz) tf ∪ F2 = F;
  cl_out : mem_out F (k_mem s) (k_mem s2);
  cl_view : same_view (k_mem s) t0 (k_mem s2) t2
}.

Lemma page_byte m m' a a' o : page_bytes m' a' = page_bytes m a -> 0 <= o < PGSIZE -> ld8 m' (a' + o) = ld8 m (a + o).
Proof.
  intros Hb Ho. apply (f_equal (fun l => l !! Z.to_nat o)) in Hb. unfold page_bytes in Hb. pose proof PGSIZE_nat_Z.
  rewrite !ld_bytes_lookup in Hb by lia. rewrite !Z2Nat.id in Hb by lia. congruence.
Qed.

(** Entries of the two page tables for the same page. *)
Definition alike (m m' : mem) (o o' : option Z) : Prop :=
  match o, o' with
  | None, None => True
  | Some e, Some e' => (has e PTE_U = false /\ has e' PTE_U = false) \/
      (PTE_FLAGS e' = PTE_FLAGS e /\ page_bytes m' (PTE2PA e') = page_bytes m (PTE2PA e))
  | _, _ => False
  end.

Lemma alike_view m t1 m' t2 : (forall w, 0 <= w -> alike m m' (lf t1 !! w) (lf t2 !! w)) -> same_view m t1 m' t2.
Proof.
  intros Hal va Hva. specialize (Hal (va / PGSIZE) ltac:(apply Z.div_pos; [done|by vm_compute])). unfold uview, writable, uentry.
  destruct (va <? MAXVA); [|done]. destruct (lf t1 !! (va / PGSIZE)) as [e|], (lf t2 !! (va / PGSIZE)) as [e'|]; try done.
  destruct Hal as [[HU HU']|[Hf Hb]]; [by rewrite HU, HU'|]. 
  assert (Hk : forall k, 0 <= k < 10 -> has e' (Z.shiftl 1 k) = has e (Z.shiftl 1 k)) by (intros k Hk; by rewrite (has_flags e' k), (has_flags e k), Hf by lia).
  unfold PTE_U, PTE_W. rewrite (Hk 4) by lia. destruct (has e (Z.shiftl 1 4)); [|split; reflexivity]. simpl. split; [|by rewrite (Hk 2) by lia]. f_equal. unfold upa. apply page_byte; [done|]. apply Z.mod_pos_bound. by vm_compute.
Qed.

Lemma top_not_user pa perm : good_page pa \/ pa = trampoline -> 0 <= perm < 2 ^ 10 -> has perm PTE_U = false -> has (mkpte pa perm) PTE_U = false.
Proof.
  intros Hpa Hp HU. pose proof trampoline_range. pose proof kend_range. assert (0 <= KERNBASE /\ PHYSTOP <= 2 ^ 56) by done.
  assert (0 < PGSIZE) by done. assert (Hr : 0 <= pa < 2 ^ 56) by (destruct Hpa as [[_ ?]| ->]; lia).
  unfold PTE_U in *. rewrite (has_flags _ 4) by lia. unfold mkpte. rewrite PTE_FLAGS_mkpte by (done || lia). done.
Qed.

Lemma uvmcopy_clones :
  wp (uvmcopy (pt_root t0) (pt_root t) sz) (fun r s2 =>
    (r = 0 /\ exists F2 t2, cloned s2 F2 t2) \/
    (r = -1 /\ frame s1 s2 /\ mem_out F (k_mem s) (k_mem s2) /\ exists F2 t2, pspace s2 F2 t2 0 tf /\ pt_root t2 = pt_root t /\ proc_pages t2 0 tf ∪ F2 = F)) s1.
Proof.
  assert (Hsub : F1 ∪ pt_pages t ⊆ F) by (rewrite <- Hpages; unfold proc_pages, space_pages; set_solver).
  assert (Htot : forall F2 t2 n, all_pages F2 t2 n = all_pages F1 t 0 -> proc_pages t2 n tf ∪ F2 = F).
  { intros F2 t2 n. rewrite !all_space. intros Ha. rewrite <- Hpages. unfold proc_pages. rewrite <- !union_assoc_L, !(union_comm_L (space_pages _ _)). by rewrite Ha. }
  assert (Ho : forall s2, mem_out (F1 ∪ pt_pages t) (k_mem s1) (k_mem s2) -> mem_out F (k_mem s) (k_mem s2)).
  { intros s2 Ho. eapply mem_out_trans; [exact Hout|]. by eapply mem_out_mono. }
  assert (Hpar1 : parent (k_mem s1) t0 (npg sz) (F1 ∪ pt_pages t)).
  { pose proof (pspace_parent _ _ _ _ _ F Hpar ltac:(done)) as Hp. pose proof (parent_out _ _ _ _ _ Hp Hout) as [? ? ? Ha ? Hg]. split; try done; [|set_solver|]; intros w Hw.
    - specialize (Ha w Hw). set_solver.
    - apply Hg. set_solver. }
  eapply wp_mono; [apply (uvmcopy_run s1 F1 t t0 sz); [apply Hnew|done|done]|].
  intros r s2 (F2 & t2 & [[-> Hgr]|(-> & (Hus & Hroot & Hlf & Hfr & Hall & Hout2) & _)]).
  - left. split; [done|]. exists F2, t2. destruct Hgr as [Hus Hfr Hroot _ Hall _ _ Hout2 Hold Hcopy]. rewrite union_empty_l_L in Hall.
    assert (Hold' : forall w, ~ (0 <= w < Z.of_nat (npg sz)) -> lf t2 !! w = lf t !! w) by (intros w Hw; apply Hold; lia).
    assert (Hsp : pspace s2 F2 t2 (npg sz) tf) by (by eapply pspace_new).
    split; [done|done|done|by apply Htot|by apply Ho|]. apply alike_view. intros w Hw.
    destruct (decide (w < Z.of_nat (npg sz))) as [Hlt|Hge].
    + destruct (Hcopy w) as [_ [Hf Hb]]; [lia|]. destruct (us_mapped _ _ _ _ (sp_us _ _ _ _ _ Hpar) w ltac:(lia)) as [e He], (us_mapped _ _ _ _ Hus w ltac:(lia)) as [e' He'].
      unfold leaf_page in Hb. rewrite He, He' in *. simpl in *. right. split; [done|]. rewrite Hb. apply (page_bytes_out F); [| | |done].
      * pose proof (pa_good _ _ _ _ Hpar1 w ltac:(lia)) as Hg. unfold leaf_page in Hg. by rewrite He in Hg.
      * pose proof (pspace_parent _ _ _ _ _ F Hpar ltac:(done)) as [_ _ _ Ha _ _]. specialize (Ha w ltac:(lia)). unfold leaf_page in Ha. by rewrite He in Ha.
      * intros b. eapply kmem_free_good, (us_inv _ _ _ _ (sp_us _ _ _ _ _ Hpar)).
    + rewrite Hold' by lia. destruct Hpar as [_ (Hg0 & _) _ Htr0 Hfr0 Honly0], Hnew as [_ (Hg & _) _ Htr Htf Honly].
      destruct (decide (w = VTRAMP)) as [->|Hn1]; [rewrite Htr0, Htr; left; split; (apply top_not_user; [by right|done|done])|].
      destruct (decide (w = UTOP)) as [->|Hn2]; [rewrite Hfr0, Htf; left; split; (apply top_not_user; [by left|done|done])|].
      destruct (lf t0 !! w) eqn:E0; [by destruct (Honly0 w) as [?|[?|?]]; [eauto|lia|..]|]. destruct (lf t !! w) eqn:E1; [by destruct (Honly w) as [?|[?|?]]; [eauto|lia|..]|]. done.
  - right. split_and!; [done|done|by apply Ho|]. exists F2, t2. split_and!; [|done|by apply Htot]. eapply pspace_new; [done|done|done|]. intros w _. by rewrite Hlf.
Qed.
End copying.

(** ** The trap frame *)

Lemma ld64_copied m a b o :
  0 <= o -> o + 8 <= Z.of_nat sizeof_trapframe -> ld64 (st_bytes m a (ld_bytes m b sizeof_trapframe)) (a + o) = ld64 m (b + o).
Proof.
  intros Ho Hlt. unfold ld64. f_equal. apply list_eq. intros i. destruct (decide (i < 8)%nat) as [Hi|Hi].
  - rewrite !ld_bytes_lookup by done. f_equal. replace (a + o + Z.of_nat i) with (a + Z.of_nat (Z.to_nat o + i)) by lia.
    apply ld8_st_inside. rewrite ld_bytes_lookup by lia. f_equal. f_equal. lia.
  - rewrite !lookup_ge_None_2; [done|rewrite length_ld_bytes; lia..].
Qed.

Lemma tf_off_range r : 0 <= tf_off r /\ tf_off r + 8 <= Z.of_nat sizeof_trapframe.
Proof. destruct r; done. Qed.

Lemma tf_off_a0 r : r <> tf_a0 -> tf_off r + 8 <= tf_off tf_a0 \/ tf_off tf_a0 + 8 <= tf_off r.
Proof. intros Hr. destruct r; simpl; try lia. done. Qed.

(** The registers in a trap frame. *)
Definition tf_reg (m : mem) (tf : Z) (r : tfreg) : Z := ld64 m (tf + tf_off r).

(** What [fork] writes to the child's trap frame. *)
Definition child_frame (m : mem) (tf0 tf : Z) : mem := st64 (st_bytes m tf (ld_bytes m tf0 sizeof_trapframe)) (tf + tf_off tf_a0) 0.

Lemma child_frame_reg m tf0 tf r : tf_reg (child_frame m tf0 tf) tf r = if decide (r = tf_a0) then 0 else tf_reg m tf0 r.
Proof.
  unfold tf_reg, child_frame. case_decide as Hr; [subst; by rewrite ld64_st64_same|]. rewrite ld64_st64_disjoint by (pose proof (tf_off_a0 r Hr); lia).
  by apply ld64_copied; apply tf_off_range.
Qed.

Lemma child_frame_out m tf0 tf : mem_out {[tf]} m (child_frame m tf0 tf).
Proof.
  pose proof (mem_out_st_bytes tf {[tf]} m 0 (ld_bytes m tf0 sizeof_trapframe)) as Ho. rewrite Z.add_0_r, length_ld_bytes in Ho.
  unfold child_frame, st64. generalize dependent (ld_bytes m tf0 sizeof_trapframe). intros bs Ho. eapply mem_out_trans.
  - apply Ho; [by apply elem_of_singleton_2|done|done].
  - apply mem_out_st_bytes; [by apply elem_of_singleton_2|done|done].
Qed.

(** ** Open files *)

Definition dup_files (ofs : list (option nat)) (fs : list file) : list file :=
  foldl (fun fs o => match o with Some f => alter (fun ff => set_fref (fref ff + 1) ff) f fs | None => fs end) fs ofs.

Lemma length_dup_files ofs fs : length (dup_files ofs fs) = length fs.
Proof. revert fs. induction ofs as [|[f|] ofs IH]; intros fs; [done|simpl..]; unfold dup_files in *; simpl; rewrite IH; by rewrite ?length_alter. Qed.

Lemma dup_files_ge ofs fs f : fref (fs !!! f) <= fref (dup_files ofs fs !!! f).
Proof.
  revert fs. induction ofs as [|[g|] ofs IH]; intros fs; [done|simpl..]; unfold dup_files in *; simpl; [|apply IH].
  etrans; [|apply IH]. destruct (decide (g = f)) as [->|Hne]; [|by rewrite list_lookup_total_alter_ne].
  destruct (decide (f < length fs)%nat) as [Hlt|Hge]; [rewrite list_lookup_total_alter_eq by done; simpl; lia|].
  rewrite !list_lookup_total_alt, !lookup_ge_None_2; [done|rewrite length_alter; lia|lia].
Qed.

Section files.
Variables (s : kstate) (me np : nat) (ofs : list (option nat)).
Hypothesis Hok : hart_ok s.
Hypothesis Hn : 0 < noff (cur s).
Hypothesis Hft : lock_free L_ftable s.
Hypothesis Hne : me <> np.
Hypothesis Hnp : (np < length (k_procs s))%nat.
Hypothesis Hofs : pofile (k_procs s !!! me) = ofs.
Hypothesis Hlen : length ofs = NOFILE.
Hypothesis Hempty : pofile (k_procs s !!! np) = replicate NOFILE None.
Hypothesis Hopen : forall f, Some f ∈ ofs -> (f < length (k_files s))%nat /\ 1 <= fref (k_files s !!! f).

Local Definition upto (j : nat) : kstate :=
  set_k_files (dup_files (take j ofs) (k_files s))
    (set_k_procs (alter (set_pofile (take j ofs ++ replicate (NOFILE - j) None)) np (k_procs s)) s).

Lemma dup_round j :
  (j < NOFILE)%nat ->
  (me <- get_proc me ;;
   match pofile me !!! j with
   | Some f =>
       f' <- filedup f ;;
       upd_proc np (fun n => set_pofile (<[j := Some f']> (pofile n)) n)
   | None => ret tt
   end) (upto j) = Ok tt (upto (S j)).
Proof.
  intros Hj. destruct (lookup_lt_is_Some_2 ofs j) as [o Ho]; [lia|]. unfold upto. erewrite bind_ok; [|reflexivity].
  change (k_procs (set_k_files ?a (set_k_procs ?b ?c))) with b. rewrite list_lookup_total_alter_ne, Hofs by done.
  rewrite (list_lookup_total_correct _ _ _ Ho). rewrite (take_S_r _ _ _ Ho). unfold dup_files at 2. rewrite foldl_app. fold (dup_files (take j ofs) (k_files s)). simpl foldl.
  assert (Hl : length (take j ofs) = j) by (rewrite length_take; lia). replace (NOFILE - j)%nat with (S (NOFILE - S j)) by lia. destruct o as [f|].
  - destruct (Hopen f) as [Hf Hr]; [by eapply list_elem_of_lookup_2|]. erewrite bind_ok.
    2:{ apply filedup_run; [done|done|simpl; by rewrite length_dup_files|]. simpl. etrans; [exact Hr|apply dup_files_ge]. }
    rewrite settle_set_files, settle_set_procs, settle_nested by done. unfold upd_proc, modify.
    change (k_procs (set_k_files ?a (set_k_files ?d (set_k_procs ?b ?c)))) with b. rewrite list_alter_alter_eq.
    rewrite (list_alter_ext _ (set_pofile ((take j ofs ++ [Some f]) ++ replicate (NOFILE - S j) None)) (k_procs s) (k_procs s) np); [reflexivity| |done].
    intros p _. unfold set_pofile. simpl. f_equal. rewrite insert_app_r_alt, Hl, Nat.sub_diag by lia. simpl. by rewrite <- app_assoc.
  - unfold ret. simpl replicate. by rewrite <- app_assoc.
Qed.

Lemma dup_all :
  for_each (seq 0 NOFILE) (fun fd =>
    me <- get_proc me ;;
    match pofile me !!! fd with
    | Some f =>
        f' <- filedup f ;;
        upd_proc np (fun n => set_pofile (<[fd := Some f']> (pofile n)) n)
    | None => ret tt
    end) s = Ok tt (set_k_files (dup_files ofs (k_files s)) (set_k_procs (alter (set_pofile ofs) np (k_procs s)) s)).
Proof.
  assert (H0' : upto 0 = s).
  { unfold upto. rewrite alter_id_at; [by destruct s|]. rewrite Nat.sub_0_r, take_0, app_nil_l, <- Hempty. by destruct (k_procs s !!! np). }
  rewrite <- H0' at 1. rewrite (for_each_seq_run upto _ 0 NOFILE) by (intros j Hj; apply dup_round; lia). unfold upto. rewrite Nat.add_0_l, Nat.sub_diag, app_nil_r.
  by rewrite take_ge by lia.
Qed.
End files.

(** ** [fork] *)

Lemma frame_set_files v s s' : frame s s' -> frame (set_k_files v s) (set_k_files v s').
Proof. unfold frame. intros Hf. by rewrite !settle_set_files, Hf. Qed.
Lemma frame_set_inodes v s s' : frame s s' -> frame (set_k_inodes v s) (set_k_inodes v s').
Proof. unfold frame. intros Hf. by rewrite !settle_set_inodes, Hf. Qed.
Lemma frame_from_settle s s' : frame (settle s) s' -> frame s s'.
Proof. unfold frame. by rewrite settle_settle. Qed.

(** A field of a process is set under a lock. *)
Lemma crit_frame l y s F i g :
  kmem_free s F -> frame y s -> hart_ok y -> lock_free l y -> l <> L_kmem ->
  wp (acquire l ;; upd_proc i g ;; release l) (fun _ s' => kmem_free s' F /\ frame (set_k_procs (alter g i (k_procs y)) y) s' /\ k_mem s' = k_mem s) s.
Proof.
  intros Hk Hf Hoy Hl Hne. pose proof Hk as (Hok & Hlk & fl & Hinv & HF). assert (Hl' : lock_free l s) by (unfold lock_free; by rewrite (frame_locks _ _ Hf)).
  apply wp_bind, wp_acquire; [done|done|]. apply wp_bind, wp_modify. apply wp_release; [hart_tac|hart_tac|hart_tac|].
  rewrite released_set_procs, released_acquired by done. split_and!; [| |done].
  - split_and!; [hart_tac|hart_tac|]. exists fl. split; [|done]. by eapply kmem_inv_ext.
  - change (k_procs (acquired l s)) with (k_procs s). rewrite (frame_procs _ _ Hf). apply frame_set_procs. eapply frame_trans; [exact Hf|apply frame_settle].
Qed.

Lemma wp_assoc3 {A} (a b c : K unit) (k : K A) Q s : wp (a ;; b ;; c) (fun _ s' => wp k Q s') s -> wp (a ;; b ;; c ;; k) Q s.
Proof. intros Hw. apply wp_bind_inv in Hw. apply wp_bind. eapply wp_mono; [exact Hw|]. intros [] s1 Hw1. apply wp_bind_inv in Hw1. apply wp_bind. eapply wp_mono; [exact Hw1|]. intros [] s2 Hw2. by apply wp_bind. Qed.

(** Process [me] runs, with its working directory [cwd], and can be copied. *)
Record forker (s : kstate) (F : gset Z) (me : nat) (t0 : ptab) (cwd : nat) : Prop := {
  fk_runs : runs me s;
  fk_state : pstate (k_procs s !!! me) = RUNNING;
  fk_space : pspace s F t0 (npg (psz (k_procs s !!! me))) (ptrapframe (k_procs s !!! me));
  fk_root : ppagetable (k_procs s !!! me) = pt_root t0;
  fk_size : 0 <= psz (k_procs s !!! me) <= UTOP * PGSIZE;
  fk_procs : length (k_procs s) = NPROC;
  fk_clean : unused_clean (k_procs s);
  fk_plocks : plocks_free s;
  fk_locks : lock_free L_pid s /\ lock_free L_wait s /\ lock_free L_ftable s /\ lock_free L_itable s;
  fk_ofile : length (pofile (k_procs s !!! me)) = NOFILE;
  fk_open : forall f, Some f ∈ pofile (k_procs s !!! me) -> (f < length (k_files s))%nat /\ 1 <= fref (k_files s !!! f);
  fk_cwd : pcwd (k_procs s !!! me) = Some cwd;
  fk_name : is_Some (strlen (pname (k_procs s !!! me)))
}.

(** The child of process [me], which is [q], in a slot that was [p]. *)
Definition child_of (me : nat) (q : proc) (pid tf root : Z) (name : list Z) (p : proc) : proc :=
  set_pstate RUNNABLE (set_pparent (Some me) (set_pname name (set_pcwd (pcwd q) (set_pofile (pofile q) (set_psz (psz q) (newborn pid tf root p)))))).

Definition with_fork (s : kstate) (me np cwd : nat) (tf root : Z) (name : list Z) : kstate :=
  set_k_inodes (alter (fun ip => set_iref (iref ip + 1) ip) cwd (k_inodes s))
    (set_k_files (dup_files (pofile (k_procs s !!! me)) (k_files s))
      (set_k_nextpid (s32 (k_nextpid s + 1))
        (set_k_procs (alter (child_of me (k_procs s !!! me) (k_nextpid s) tf root name) np (k_procs s)) s))).

Record forked (s : kstate) (F : gset Z) (me : nat) (t0 : ptab) (cwd np : nat) (t : ptab) (tf : Z) (name : list Z) (s' : kstate) : Prop := {
  fd_slot : (np < NPROC)%nat /\ pstate (k_procs s !!! np) = UNUSED;
  fd_frame : frame (with_fork s me np cwd tf (pt_root t) name) s';
  fd_name : cstr name = take 15 (cstr (pname (k_procs s !!! me)));
  fd_pages : exists F', pspace s' F' t (npg (psz (k_procs s !!! me))) tf /\
    pspace s' F' t0 (npg (psz (k_procs s !!! me))) (ptrapframe (k_procs s !!! me)) /\
    proc_pages t (npg (psz (k_procs s !!! me))) tf ∪ F' = F;
  fd_view : same_view (k_mem s) t0 (k_mem s') t;
  fd_regs : forall r, tf_reg (k_mem s') tf r = if decide (r = tf_a0) then 0 else tf_reg (k_mem s) (ptrapframe (k_procs s !!! me)) r;
  fd_out : mem_out F (k_mem s) (k_mem s')
}.

Lemma cstr_splice bs old : (exists pre, bs = pre ++ [0]) -> cstr (splice 0 bs old) = cstr bs.
Proof.
  intros [pre ->]. unfold splice. simpl. rewrite <- app_assoc. generalize (drop (length (pre ++ [0])) old). intros l. change ([0] ++ l) with (0 :: l).
  induction pre as [|c pre IH]; [done|]. simpl. destruct (c =? 0); [done|]. by rewrite IH.
Qed.

Lemma idup_run ip s : hart_ok s -> lock_free L_itable s -> idup ip s = Ok ip (set_k_inodes (alter (fun i => set_iref (iref i + 1) i) ip (k_inodes s)) (settle s)).
Proof.
  intros Hok Hl. unfold idup. erewrite bind_ok; [|by apply acquire_run]. erewrite bind_ok; [|reflexivity]. erewrite bind_ok; [|apply release_run; hart_tac].
  unfold ret. f_equal. rewrite released_set_inodes, released_acquired by done. done.
Qed.

Section finish.
Variables (s0 : kstate) (me np cwd : nat) (F : gset Z) (q : proc) (f : proc -> proc).
Hypothesis Hok : hart_ok s0.
Hypothesis Hpl : plocks_free s0.
Hypothesis Hwl : lock_free L_wait s0.
Hypothesis Hft : lock_free L_ftable s0.
Hypothesis Hil : lock_free L_itable s0.
Hypothesis Hlen : length (k_procs s0) = NPROC.
Hypothesis Hnp : (np < NPROC)%nat.
Hypothesis Hne : me <> np.
Hypothesis Hq : k_procs s0 !!! me = q.
Hypothesis Hofile : length (pofile q) = NOFILE.
Hypothesis Hopen : forall g, Some g ∈ pofile q -> (g < length (k_files s0))%nat /\ 1 <= fref (k_files s0 !!! g).
Hypothesis Hcwd : pcwd q = Some cwd.
Hypothesis Hname : is_Some (strlen (pname q)).
Hypothesis Hbare : pofile (f (k_procs s0 !!! np)) = replicate NOFILE None.

Local Definition full (name : list Z) (p : proc) : proc :=
  set_pstate RUNNABLE (set_pparent (Some me) (set_pname name (set_pcwd (Some cwd) (set_pofile (pofile q) (f p))))).

Local Definition finished (name : list Z) : kstate :=
  set_k_inodes (alter (fun ip => set_iref (iref ip + 1) ip) cwd (k_inodes s0))
    (set_k_files (dup_files (pofile q) (k_files s0))
      (set_k_nextpid (s32 (k_nextpid s0 + 1)) (set_k_procs (alter (full name) np (k_procs s0)) s0))).

(** The rest of [fork] once the child's memory and trap frame are there. *)
Lemma fork_finish s1 :
  frame (with_child np f s0) s1 -> kmem_free s1 F ->
  wp (for_each (seq 0 NOFILE) (fun fd =>
        me <- get_proc me ;;
        match pofile me !!! fd with
        | Some f =>
            f' <- filedup f ;;
            upd_proc np (fun n => set_pofile (<[fd := Some f']> (pofile n)) n)
        | None => ret tt
        end) ;;
      me' <- get_proc me ;;
      cwd <- deref (pcwd me') ;;
      cwd' <- idup cwd ;;
      upd_proc np (set_pcwd (Some cwd')) ;;
      me' <- get_proc me ;;
      set_name np (pname me') ;;
      n <- get_proc np ;;
      let pid := ppid n in
      release (L_proc np) ;;
      acquire L_wait ;;
      upd_proc np (set_pparent (Some me)) ;;
      release L_wait ;;
      acquire (L_proc np) ;;
      upd_proc np (set_pstate RUNNABLE) ;;
      release (L_proc np) ;;
      ret pid) (fun r s' => r = ppid (f (k_procs s0 !!! np)) /\ k_mem s' = k_mem s1 /\ kmem_free s' F /\
        exists name, cstr name = take 15 (cstr (pname q)) /\ frame (finished name) s') s1.
Proof.
  intros Hf1 HF1. pose proof HF1 as (Hok1 & Hlk1 & fl1 & Hinv1 & HFl1). set (y0 := set_k_nextpid (s32 (k_nextpid s0 + 1)) (set_k_procs (alter f np (k_procs s0)) s0)) in *.
  assert (Hex : s1 = set_k_mem (k_mem s1) (set_k_freelist (k_freelist s1) (with_child np f s0))) by (apply frame_exact; [unfold with_child; hart_tac|unfold with_child; hart_tac|done|done]).
  assert (Hn1 : 0 < noff (cur s1)) by (rewrite Hex; unfold with_child; hart_tac).
  assert (Hps1 : k_procs s1 = alter f np (k_procs s0)) by exact (frame_procs _ _ Hf1).
  assert (Hme1 : k_procs s1 !!! me = q) by (rewrite Hps1, list_lookup_total_alter_ne by done; done).
  assert (Hnp1 : k_procs s1 !!! np = f (k_procs s0 !!! np)) by (rewrite Hps1, list_lookup_total_alter_eq by lia; done).
  apply wp_bind. eapply wp_ok; [apply (dup_all s1 me np (pofile q)); try done|].
  { rewrite Hex. unfold with_child. hart_tac. }
  { rewrite Hps1, length_alter. lia. }
  { by rewrite Hme1. }
  { by rewrite Hnp1. }
  { intros g Hg. replace (k_files s1) with (k_files s0) by (rewrite Hex; done). by apply Hopen. }
  cbv beta. set (ofs := pofile q) in *. set (D := dup_files ofs (k_files s1)).
  assert (HD : D = dup_files ofs (k_files s0)) by (unfold D; rewrite Hex; done).
  apply wp_bind, wp_gets. change (k_procs (set_k_files ?a (set_k_procs ?b ?c))) with b. rewrite list_lookup_total_alter_ne, Hme1, Hcwd by done.
  apply wp_bind, wp_ret. apply wp_bind. eapply wp_ok; [apply idup_run; [done|rewrite Hex; unfold with_child; hart_tac]|]. cbv beta.
  rewrite settle_set_files, settle_set_procs, settle_nested by done. change (k_inodes (set_k_files ?a (set_k_procs ?b ?c))) with (k_inodes c).
  apply wp_bind, wp_modify. apply wp_bind, wp_gets. match goal with |- context [k_procs ?x !!! me] => change (k_procs x) with (alter (set_pcwd (Some cwd)) np (alter (set_pofile ofs) np (k_procs s1))) end.
  rewrite !list_lookup_total_alter_ne, Hme1 by done. destruct (safestrcpy_terminates (pname q) 16) as (bs & Hbs & _ & Hpre & Hc); [done|done|].
  unfold set_name. rewrite Hbs. apply wp_bind, wp_modify. set (name := splice 0 bs (pname (f (k_procs s0 !!! np)))).
  match goal with |- wp _ _ ?x => assert (Hx : x = set_k_inodes (alter (fun i => set_iref (iref i + 1) i) cwd (k_inodes s0)) (set_k_files (dup_files ofs (k_files s0))
    (set_k_procs (alter (fun p => set_pname name (set_pcwd (Some cwd) (set_pofile ofs (f p)))) np (k_procs s0)) s1))) end.
  { rewrite HD. replace (k_inodes s1) with (k_inodes s0) by (rewrite Hex; done).
    match goal with |- context [set_k_procs (alter ?g np (k_procs ?x)) _] => change (k_procs x) with (alter (set_pcwd (Some cwd)) np (alter (set_pofile ofs) np (k_procs s1))) end.
    rewrite Hps1, !list_alter_alter_eq. rewrite (alter_ext_at' (k_procs s0) np _ (fun p => set_pname name (set_pcwd (Some cwd) (set_pofile ofs (f p))))); [|done]. reflexivity. }
  rewrite Hx. clear Hx. set (g1 := fun p => set_pname name (set_pcwd (Some cwd) (set_pofile ofs (f p)))).
  set (y1 := set_k_inodes (alter (fun i => set_iref (iref i + 1) i) cwd (k_inodes s0)) (set_k_files (dup_files ofs (k_files s0)) (set_k_nextpid (s32 (k_nextpid s0 + 1)) (set_k_procs (alter g1 np (k_procs s0)) s0)))).
  set (s2 := set_k_inodes _ _). assert (Hf2 : frame (acquired (L_proc np) y1) s2).
  { apply (frame_set_procs (alter g1 np (k_procs s0))), (frame_set_files (dup_files ofs (k_files s0))), (frame_set_inodes (alter (fun i => set_iref (iref i + 1) i) cwd (k_inodes s0))) in Hf1. exact Hf1. }
  apply wp_bind, wp_gets. change (k_procs s2) with (alter g1 np (k_procs s0)). rewrite list_lookup_total_alter_eq by lia. change (ppid (g1 ?p)) with (ppid (f p)).
  cbv zeta. apply wp_bind. eapply wp_mono; [apply (release_frame (L_proc np) y1 s2 F); [exact Hok|apply Hpl|done|exact HF1|exact Hf2]|]. intros [] s3 (HF3 & Hf3 & Hm3).
  apply wp_assoc3. eapply wp_mono; [apply (crit_frame L_wait y1 s3 F np); [done|done|exact Hok|exact Hwl|done]|]. intros [] s4 (HF4 & Hf4 & Hm4).
  apply wp_assoc3. set (y2 := set_k_procs _ y1) in *. eapply wp_mono; [apply (crit_frame (L_proc np) y2 s4 F np); [done|done|exact Hok|exact (Hpl np)|done]|]. intros [] s5 (HF5 & Hf5 & Hm5).
  apply wp_ret. split_and!; [done|by rewrite Hm5, Hm4, Hm3|done|]. exists name. split; [unfold name; by rewrite cstr_splice|].
  match type of Hf5 with frame ?x _ => assert (Hx : x = finished name) end.
  { unfold finished, y2, y1. simpl k_procs. rewrite !list_alter_alter_eq. reflexivity. }
  by rewrite <- Hx.
Qed.
End finish.

Lemma kmem_free_settle s F : kmem_free s F -> kmem_free (settle s) F.
Proof. intros (Hok & Hl & l & Hinv & HF). split_and!; [by apply hart_ok_settle|done|]. by exists l. Qed.

(** A user entry of a process's page table is one of its pages. *)
Lemma user_leaf s F t n tf w e : pspace s F t n tf -> lf t !! w = Some e -> has e PTE_U = true -> 0 <= w < Z.of_nat n /\ PTE2PA e ∈ leaf_pages (lf t) 0 n.
Proof.
  intros [Hus (Hg & HtF & Htp) Hni Htr Hfr Honly] He HU. assert (Hw : 0 <= w < Z.of_nat n).
  { destruct (Honly w) as [?|[->| ->]]; [eauto|done|rewrite Htr in He|rewrite Hfr in He]; injection He as <-; (rewrite top_not_user in HU; [done|auto|done|done]). }
  split; [done|]. apply elem_of_leaf_pages. exists w. split; [lia|]. unfold leaf_page. by rewrite He.
Qed.

(** What a process sees does not change with memory that is not its own. *)
Lemma view_out s F t n tf W m m' :
  pspace s F t n tf -> W ## list_to_set (leaf_pages (lf t) 0 n) -> (forall b, b ∈ W -> good_page b) -> mem_out W m m' -> same_view m t m' t.
Proof.
  intros Hps HW Hg Hout va Hva. split; [|done]. unfold uview. destruct (uentry t va) as [e|] eqn:Hue; [|done]. simpl. f_equal.
  apply uentry_Some in Hue as (_ & He & HU). destruct (user_leaf _ _ _ _ _ _ _ Hps He HU) as [_ Hin].
  pose proof (us_own _ _ _ _ (sp_us _ _ _ _ _ Hps)) as Hown. rewrite Forall_forall in Hown. destruct (Hown _ Hin) as (Hge & _).
  apply (mem_out_page W _ _ (PTE2PA e)); [done| |done|done|].
  - intros HinW. apply (HW (PTE2PA e)); [done|]. by apply elem_of_list_to_set.
  - unfold in_page, upa. pose proof (Z.mod_pos_bound va PGSIZE ltac:(done)). lia.
Qed.

(** The trap frame is not part of what the process sees. *)
Lemma view_frame s F t n tf m : pspace s F t n tf -> mem_out {[tf]} (k_mem s) m -> same_view (k_mem s) t m t.
Proof.
  intros Hps Hout. apply (view_out s F t n tf {[tf]}); [done| | |done].
  - pose proof (sp_tf_own _ _ _ _ _ Hps). intros a. rewrite elem_of_singleton, elem_of_list_to_set. by intros ->.
  - intros b. rewrite elem_of_singleton. intros ->. apply (sp_tf _ _ _ _ _ Hps).
Qed.

Lemma same_view_trans m1 t1 m2 t2 m3 t3 : same_view m1 t1 m2 t2 -> same_view m2 t2 m3 t3 -> same_view m1 t1 m3 t3.
Proof. intros Ha Hb va Hva. destruct (Ha va Hva) as [<- <-], (Hb va Hva) as [<- <-]. done. Qed.

Lemma tf_reg_out P m m' tf r :
  good_page tf -> tf ∉ P -> (forall b, b ∈ P -> good_page b) -> mem_out P m m' -> tf_reg m' tf r = tf_reg m tf r.
Proof.
  intros Hg Hni HP Hout. apply ld64_ext. intros x Hx. apply (mem_out_page P _ _ tf); try done. unfold in_page. pose proof (tf_off_range r) as [? Hr].
  assert (Z.of_nat sizeof_trapframe <= PGSIZE) by done. lia.
Qed.

(** The process table is what it was, but for the saved context of an unused slot. *)
Definition table_kept (ps ps' : list proc) : Prop :=
  ps' = ps \/ exists i ra sp, pstate (ps !!! i) = UNUSED /\ ps' = alter (fun p => set_pctx_sp sp (set_pctx_ra ra p)) i ps.

(** C7: [fork] makes a copy of the process that calls it, or nothing at all.  When it returns the next process number, that is the number of a new process in a slot that
    was unused: it can run, its parent is the caller, and its memory, page for page of its own, shows at every user address what the caller's shows and may be
    written where the caller's may; its registers are the caller's except that [a0] is 0; it has the caller's open files, each counted once more,
    its directory and its name.  When [fork] returns -1, every page that was free is free and the process table is as it was, but for
    the saved context of a slot that is unused.  Memory
    outside the pages that were free, and with it the caller, does not change. *)
Theorem fork_duplicates s F me t0 cwd :
  forker s F me t0 cwd ->
  wp fork (fun r s' =>
    (r = -1 /\ kmem_free s' F /\ (exists pid ps, table_kept (k_procs s) ps /\ frame (set_k_nextpid pid (set_k_procs ps s)) s') /\ mem_out F (k_mem s) (k_mem s')) \/
    (r = k_nextpid s /\ exists np t tf name, forked s F me t0 cwd np t tf name s')) s.
Proof.
  intros [Hruns Hst Hsp0 Hroot Hsz Hlen Hclean Hpl (Hpid & Hwl & Hft & Hil) Hofile Hopen Hcwd Hname]. set (q := k_procs s !!! me) in *.
  pose proof (us_inv _ _ _ _ (sp_us _ _ _ _ _ Hsp0)) as (HF & Hr0 & _). pose proof HF as (Hok & _). unfold fork.
  apply wp_bind, wp_myproc; [done|]. rewrite Hruns. set (s0 := settle s). pose proof (kmem_free_settle s F HF) as HF0. fold s0 in HF0.
  apply wp_bind. eapply wp_mono; [apply (allocproc_spec s0 F HF0); [exact Hpl|exact Hpid|exact Hlen|exact Hclean]|]. intros [np|] s1 Hmade.
  2:{ apply wp_ret. left. destruct Hmade as (HF1 & [pid Hf1] & Ho1). split_and!; [done|done| |done]. exists pid, (k_procs s). split; [by left|].
      rewrite set_k_procs_id. apply frame_from_settle. by rewrite settle_set_nextpid. }
  destruct Hmade as (Hnp & Hun & tf & t & F1 & Hsp1 & Hpages & Hf1 & Ho1). change (k_procs s0) with (k_procs s) in *.
  assert (Hne : me <> np) by (intros <-; unfold q in Hst; congruence). destruct (Hclean np Hnp Hun) as [Hcl Hof]. set (p := k_procs s !!! np) in *.
  apply wp_bind, wp_ret. apply wp_bind, wp_gets. apply wp_bind, wp_gets. rewrite (frame_procs _ _ Hf1). simpl k_procs.
  rewrite list_lookup_total_alter_ne, list_lookup_total_alter_eq by (done || lia). fold q p. set (f0 := newborn (k_nextpid s0) tf (pt_root t)) in *.
  rewrite Hroot. change (ppagetable (f0 p)) with (pt_root t). change (ptrapframe (f0 p)) with tf.
  apply wp_bind. eapply wp_mono; [apply (uvmcopy_clones s F t0 t (psz q) (ptrapframe q) tf s1 F1); [done|done|done|done|exact Ho1]|]. intros r s2 [[-> (F2 & t2 & Hcl2)]|(-> & Hf2 & Ho2 & F2 & t2 & Hsp2 & Hroot2 & Htot2)].
  2:{ simpl Z.ltb. cbv iota. assert (Hpsz : psz p = 0) by exact (eq_sym (f_equal psz Hcl)). pose proof (frame_trans _ _ _ Hf1 Hf2) as Hf2'.
      eapply wp_mono; [apply (child_abandon s0 F HF0 Hpl Hlen np Hnp f0 s2 F2 (proc_pages t2 0 tf) F (-1) Hf2')|].
      - apply (us_inv _ _ _ _ (sp_us _ _ _ _ _ Hsp2)).
      - right. right. exists t2. change (k_procs s0 !!! np) with p. change (psz (f0 p)) with (psz p). rewrite Hpsz. change (npg 0) with 0%nat. split_and!; [done|by rewrite Hroot2|done|apply Z.mul_nonneg_nonneg; [apply top_range|done]|done].
      - done.
      - done.
      - rewrite <- Htot2. apply union_subseteq_l.
      - intros r s3 (-> & HF3 & Hf3 & Ho3). left. split_and!; [done|done| |done].
        exists (s32 (k_nextpid s + 1)). eexists. split; [|apply frame_from_settle; autorewrite with kst; exact Hf3].
        right. exists np, forkret_addr, (u64 (pkstack p + PGSIZE)). split; [done|]. apply alter_ext_at'. fold p.
        transitivity (set_pctx_sp (u64 (pkstack p + PGSIZE)) (set_pctx_ra forkret_addr (cleared p))); [done|by rewrite Hcl]. }
  simpl Z.ltb. cbv iota. destruct Hcl2 as [Hsp2 Hroot2 Hf2 Htot2 Ho2 Hview2]. pose proof (frame_trans _ _ _ Hf1 Hf2) as Hf2'.
  apply wp_bind, wp_modify. apply (child_upd s0 np f0 (set_psz (psz q))) in Hf2'. set (s3 := set_k_procs _ s2) in *.
  apply wp_bind, wp_gets. apply wp_bind, wp_modify. apply wp_bind, wp_modify.
  match goal with |- wp _ _ ?x => change x with (set_k_mem (child_frame (k_mem s2) (ptrapframe q) tf) s3) end.
  pose proof (sp_tf _ _ _ _ _ Hsp2) as (Hgt & HtF & _). set (m4 := child_frame _ _ _).
  assert (Hm4 : mem_out {[tf]} (k_mem s2) m4) by apply child_frame_out.
  assert (Htfsp : {[tf]} ## F2 /\ {[tf]} ## space_pages t2 (npg (psz q))).
  { pose proof (sp_tf _ _ _ _ _ Hsp2) as (_ & ? & ?). pose proof (sp_tf_own _ _ _ _ _ Hsp2). unfold space_pages. set_solver. }
  pose proof (pspace_out s2 F2 t2 _ tf {[tf]} m4 Hsp2 (proj1 Htfsp) (proj2 Htfsp) ltac:(set_solver) Hm4) as Hsp4.
  eapply wp_mono; [apply (fork_finish s0 me np cwd F2 q (fun p => set_psz (psz q) (f0 p)) (hart_ok_settle _ Hok) Hpl Hwl Hft Hil Hlen Hnp Hne eq_refl Hofile Hopen Hcwd Hname)|].
  { exact Hof. }
  { apply frame_set_mem, Hf2'. }
  { apply (us_inv _ _ _ _ (sp_us _ _ _ _ _ Hsp4)). }
  intros r s' (-> & Hm' & HF' & name & Hnm & Hfin). right. split; [done|]. exists np, t2, tf, name. change (k_mem (set_k_mem m4 s3)) with m4 in Hm'.
  assert (Htf : tf ∈ F) by (rewrite <- Htot2; apply elem_of_union_l, elem_of_union_l, elem_of_singleton_2; done). assert (HFg : forall b, b ∈ F -> good_page b) by (intros b; by eapply kmem_free_good).
  assert (Hout : mem_out F (k_mem s) (k_mem s')) by (rewrite Hm'; eapply mem_out_trans; [exact Ho2|]; eapply mem_out_mono; [|exact Hm4]; by apply singleton_subseteq_l).
  split; [done| |done| | | |done].
  - apply frame_from_settle. rewrite Hroot2. unfold with_fork, child_of. fold q. rewrite Hcwd. autorewrite with kst. exact Hfin.
  - exists F2. fold q. split_and!; [by apply (pspace_ext (set_k_mem m4 s2))| |done]. apply (pspace_taken s F); [done|done|rewrite <- Htot2; apply union_subseteq_r|done].
  - rewrite Hm'. eapply same_view_trans; [exact Hview2|]. by eapply view_frame.
  - intros r. rewrite Hm'. unfold m4. rewrite child_frame_reg. case_decide; [done|]. apply (tf_reg_out F); [apply (sp_tf _ _ _ _ _ Hsp0)|apply (sp_tf _ _ _ _ _ Hsp0)|done|done].
Qed.

(** ** [wait] *)

Lemma frame_mem_l m s s' : frame s s' -> frame (set_k_mem m s) s'.
Proof. done. Qed.

Lemma leaf_pa_tramp perm : 0 <= perm < 2 ^ 10 -> PTE2PA (mkpte trampoline perm) = trampoline.
Proof.
  intros Hp. pose proof trampoline_range. pose proof kend_range. assert (0 <= KERNBASE /\ PHYSTOP <= 2 ^ 56 /\ 0 < PGSIZE) by done.
  apply PTE2PA_mkpte; [lia|apply trampoline_aligned|done].
Qed.

Lemma leaf_pa_good pa perm : good_page pa -> 0 <= perm < 2 ^ 10 -> PTE2PA (mkpte pa perm) = pa.
Proof. intros Hg Hp. apply PTE2PA_mkpte; [apply good_page_pos in Hg; lia|apply Hg|done]. Qed.

Lemma pspace_upages s F t n tf : pspace s F t n tf -> upages_ok t.
Proof.
  intros Hps w e He HU. destruct (user_leaf _ _ _ _ _ _ _ Hps He HU) as [Hw Hin]. destruct Hps as [Hus (Hg & HtF & Htp) Hni Htr Hfr Honly].
  pose proof (us_own _ _ _ _ Hus) as Hown. rewrite Forall_forall in Hown. destruct (Hown _ Hin) as (Hge & _ & Hnp). split_and!; [done|done|].
  intros w' e' He' Heq. destruct (Honly w') as [Hw'|[->| ->]]; [eauto| | |].
  - apply (leaf_pages_inj (lf t) n); [apply Hus|done|done|]. unfold leaf_page. by rewrite He, He'.
  - rewrite Htr in He'. injection He' as <-. rewrite leaf_pa_tramp in Heq by done. pose proof trampoline_range. pose proof kend_range. assert (0 < PGSIZE) by done. destruct Hge as [_ ?]. lia.
  - rewrite Hfr in He'. injection He' as <-. rewrite leaf_pa_good in Heq by done. by rewrite <- Heq in Hin.
Qed.

(** Writes to user memory stay within the process's pages. *)
Lemma uwritten_out s F t n tf m va bs m' :
  pspace s F t n tf -> uwritten t m va bs m' -> mem_out (list_to_set (leaf_pages (lf t) 0 n)) m m'.
Proof.
  intros Hps [_ _ Hout] x Hx. apply Hout. intros a e Ha He _ ->. apply uentry_Some in He as (_ & He & HU).
  destruct (user_leaf _ _ _ _ _ _ _ Hps He HU) as [_ Hin]. apply (Hx (PTE2PA e)); [by apply elem_of_list_to_set|].
  unfold in_page, upa. pose proof (Z.mod_pos_bound a PGSIZE ltac:(done)). lia.
Qed.

(** Process [me], whose page table is [t0], has the child [c], which has exited; no child before it in the table has. *)
Record reaper (s : kstate) (F : gset Z) (me : nat) (t0 : ptab) (n0 : nat) (tf0 : Z) (c : nat) (t : ptab) : Prop := {
  re_runs : runs me s;
  re_plocks : plocks_free s;
  re_wlock : lock_free L_wait s;
  re_procs : length (k_procs s) = NPROC;
  re_me : ppagetable (k_procs s !!! me) = pt_root t0;
  re_space : pspace s F t0 n0 tf0;
  re_child : (c < NPROC)%nat /\ pparent (k_procs s !!! c) = Some me /\ pstate (k_procs s !!! c) = ZOMBIE;
  re_first : forall j, (j < c)%nat -> pparent (k_procs s !!! j) = Some me -> pstate (k_procs s !!! j) <> ZOMBIE;
  re_cspace : pspace s F t (npg (psz (k_procs s !!! c))) (ptrapframe (k_procs s !!! c));
  re_croot : ppagetable (k_procs s !!! c) = pt_root t;
  re_csize : 0 <= psz (k_procs s !!! c) <= UTOP * PGSIZE;
  re_apart : proc_pages t0 n0 tf0 ## proc_pages t (npg (psz (k_procs s !!! c))) (ptrapframe (k_procs s !!! c))
}.

(** The scan passes over the slots before the child. *)
Lemma wait_scan_skip me addr a pre l hk (Q : Z + bool -> kstate -> Prop) :
  hart_ok a -> 0 < noff (cur a) -> (forall j, j ∈ pre -> lock_free (L_proc j) a) ->
  (forall j, j ∈ pre -> pparent (k_procs a !!! j) = Some me -> pstate (k_procs a !!! j) <> ZOMBIE) ->
  (forall hk', wp (wait_scan me addr l hk') Q a) -> wp (wait_scan me addr (pre ++ l) hk) Q a.
Proof.
  intros Hok Hn Hfree Hnz Hl. revert hk. induction pre as [|j pre IH]; intros hk; [apply Hl|]. simpl wait_scan.
  assert (IH' : forall hk, wp (wait_scan me addr (pre ++ l) hk) Q a) by (apply IH; intros; [apply Hfree|apply Hnz]; set_solver).
  apply wp_bind, wp_gets. case_bool_decide as Hp; [|apply IH']. simpl negb. cbv iota. assert (Hj : lock_free (L_proc j) a) by (apply Hfree; set_solver).
  apply wp_bind, wp_acquire; [done|done|]. apply wp_bind, wp_gets. change (k_procs (acquired (L_proc j) a)) with (k_procs a).
  rewrite decide_False by (apply Hnz; [set_solver|done]). apply wp_bind, wp_release; [hart_tac|hart_tac|hart_tac|]. rewrite released_acquired, settle_nested by done. apply IH'.
Qed.

(** A process goes on while others give back their pages. *)
Lemma pspace_given s F t n tf s' R W :
  pspace s F t n tf -> kmem_free s' (R ∪ F) -> R ## proc_pages t n tf -> (forall b, b ∈ W -> good_page b) -> W ## pt_pages t ->
  mem_out W (k_mem s) (k_mem s') -> pspace s' (R ∪ F) t n tf.
Proof.
  intros [[(HF & Hr & Hd) Htop Hmap Hnd Hown Hab] Htf Hni H3 H4 H5] HF' HR HW HWt Hout. unfold proc_pages, space_pages in HR.
  assert (Hfr : forall a, a ∉ R -> freeable F t a -> freeable (R ∪ F) t a) by (intros a Ha (? & ? & ?); split_and!; [done|by apply not_elem_of_union|done]).
  split; try done.
  - split; try done; [split_and!; [done| |]|].
    + eapply (pt_rep_out _ _ _ W); [done| |done|done]. done.
    + intros a Ha. rewrite elem_of_union. intros [?|?]; [|by apply (Hd a)]. apply (HR a); [done|]. rewrite !elem_of_union. auto.
    + rewrite Forall_forall in Hown |- *. intros a Ha. apply Hfr; [|by apply Hown]. intros HaR. apply (HR a HaR). rewrite !elem_of_union, elem_of_list_to_set. auto.
  - apply Hfr; [|done]. intros HaR. apply (HR tf HaR). rewrite !elem_of_union, elem_of_singleton. auto.
Qed.

Section reap.
Variables (s : kstate) (F : gset Z) (me : nat) (t0 : ptab) (n0 : nat) (tf0 : Z) (c : nat) (t : ptab) (addr : Z).
Hypothesis Hre : reaper s F me t0 n0 tf0 c t.
Hypothesis Haddr : 0 <= addr.

Local Abbreviation q := (k_procs s !!! c).
Local Abbreviation pages := (proc_pages t (npg (psz q)) (ptrapframe q)).
Definition status_ok : Prop := addr = 0 \/ forall i, 0 <= i < 4 -> writable t0 (addr + i) = true.

Record reaped (s' : kstate) : Prop := {
  rp_free : kmem_free s' (pages ∪ F);
  rp_frame : frame (set_k_procs (alter cleared c (k_procs s)) s) s';
  rp_space : pspace s' (pages ∪ F) t0 n0 tf0;
  rp_view : forall va, 0 <= va -> uview (k_mem s') t0 va =
    if decide (addr <> 0 /\ addr <= va < addr + 4) then le_bytes 4 (pxstate q) !! Z.to_nat (va - addr) else uview (k_mem s) t0 va
}.

(** The status is copied out. *)
Lemma status_out b :
  k_mem b = k_mem s ->
  wp (if addr =? 0 then ret 0 else copyout (pt_root t0) addr (le_bytes 4 (pxstate q))) (fun r b' => exists m,
    b' = set_k_mem m b /\ mem_out (list_to_set (leaf_pages (lf t0) 0 n0)) (k_mem s) m /\
    ((r = 0 /\ status_ok /\ forall va, 0 <= va -> uview m t0 va =
        if decide (addr <> 0 /\ addr <= va < addr + 4) then le_bytes 4 (pxstate q) !! Z.to_nat (va - addr) else uview (k_mem s) t0 va) \/
     (r = -1 /\ ~ status_ok))) b.
Proof.
  intros Hm. pose proof (re_space _ _ _ _ _ _ _ _ Hre) as Hps. pose proof (us_inv _ _ _ _ (sp_us _ _ _ _ _ Hps)) as (_ & Hr & _).
  destruct (Z.eqb_spec addr 0) as [H0'|Hnz].
  - apply wp_ret. exists (k_mem s). split_and!; [rewrite <- Hm; by destruct b|apply mem_out_refl|left]. split_and!; [done|by left|]. intros va Hva. rewrite decide_False; [done|]. intros [Hx _]. by apply Hx.
  - eapply wp_mono; [apply (copyout_run t0 (pspace_upages _ _ _ _ _ Hps)); [by rewrite Hm|done]|]. rewrite Hm. intros r b' (k & m & -> & Hk & Hw & Hwr & Hres). exists m.
    split_and!; [done|by eapply uwritten_out|]. rewrite length_le_bytes in *. destruct Hres as [[-> ->]|(-> & Hlt & Hnw)]; [left|right].
    + split_and!; [done|by right|]. intros va Hva. rewrite (uw_view _ _ _ _ _ Hw va Hva), take_ge, length_le_bytes by (by rewrite length_le_bytes).
      change (Z.of_nat 4) with 4. destruct (decide (addr <= va < addr + 4)); [rewrite decide_True by done; done|rewrite decide_False by (by intros []); done].
    + split; [done|]. intros [?|Hall]; [done|]. rewrite Hall in Hnw; [done|lia].
Qed.

Lemma scan_child a post hk :
  frame (acquired L_wait (settle s)) a -> kmem_free a F -> k_mem a = k_mem s ->
  wp (wait_scan me addr (c :: post) hk) (fun r s' =>
    (r = inl (ppid q) /\ status_ok /\ reaped s') \/
    (r = inl (-1) /\ ~ status_ok /\ kmem_free s' F /\ frame s s')) a.
Proof.
  intros Hfa HFa Hma. destruct Hre as [Hruns Hpl Hwl Hlen Hme Hsp0 (Hc & Hpar & Hz) Hfirst Hspc Hroot Hsz Hap].
  pose proof (us_inv _ _ _ _ (sp_us _ _ _ _ _ Hsp0)) as (HF & _ & _). pose proof HF as (Hok & _). pose proof HFa as (Hoka & Hlka & _).
  assert (Hexa : a = set_k_mem (k_mem a) (set_k_freelist (k_freelist a) (acquired L_wait (settle s)))) by (apply frame_exact; [hart_tac|hart_tac|done|done]).
  assert (Hpa : k_procs a = k_procs s) by exact (frame_procs _ _ Hfa). assert (Hla : lock_free (L_proc c) a) by (rewrite Hexa; hart_tac; apply Hpl).
  assert (Hfs : k_locks a = k_locks (acquired L_wait s)) by exact (frame_locks _ _ Hfa).
  cbn [wait_scan]. apply wp_bind, wp_gets. rewrite Hpa, bool_decide_true by done. cbv beta. cbn [negb]. apply wp_bind, wp_acquire; [done|done|].
  apply wp_bind, wp_gets. change (k_procs (acquired (L_proc c) a)) with (k_procs a). rewrite Hpa, decide_True by done. set (b := acquired (L_proc c) a).
  apply wp_bind, wp_gets. change (k_procs b) with (k_procs a). rewrite Hpa, Hme.
  apply wp_bind. eapply wp_mono; [by apply (status_out b)|]. intros r b' (m & -> & Hout & Hr). set (P := list_to_set (leaf_pages (lf t0) 0 n0) : gset Z) in *.
  assert (HP : P ⊆ space_pages t0 n0) by (unfold space_pages; apply union_subseteq_r). assert (HPg : forall x, x ∈ P -> good_page x) by (intros x Hx; eapply space_good; [apply Hsp0|by apply HP]).
  assert (HPF : P ## F) by (pose proof (space_apart _ _ _ _ (sp_us _ _ _ _ _ Hsp0)); set_solver).
  assert (HFb0 : kmem_free b F).
  { destruct HFa as (_ & _ & l & Hl & HFl). split_and!; [unfold b; hart_tac|unfold b; hart_tac|]. exists l. split; [|done]. by eapply kmem_inv_ext. }
  assert (Hmb : mem_out P (k_mem b) m) by (change (k_mem b) with (k_mem a); by rewrite Hma).
  pose proof (kmem_free_out b F P m HFb0 HPF HPg Hmb) as HFb.
  destruct Hr as [(-> & Hst & Hview)|(-> & Hst)]; cbn [Z.ltb Z.compare].
  2:{ eapply wp_seq; [apply (release_frame (L_proc c) a _ F Hoka Hla); [done|exact HFb|apply frame_set_mem, frame_refl]|]. cbv beta. intros [] s2 (HF2 & Hf2 & _).
      eapply wp_seq; [apply (release_frame L_wait (settle s) s2 F); [by apply hart_ok_settle|done|done|done|by eapply frame_trans]|]. cbv beta. intros [] s3 (HF3 & Hf3 & _).
      apply wp_ret. right. split_and!; [done|done|done|by apply frame_from_settle]. }
  assert (Hdis : P ## pages) by (intros x Hx; apply Hap; unfold proc_pages; apply elem_of_union_r, HP, Hx).
  assert (Hspb : pspace (set_k_mem m b) F t (npg (psz q)) (ptrapframe q)).
  { apply (pspace_out b F t _ _ P); [by apply (pspace_ext s)|done| |done|done]. intros x Hx Hx'. apply (Hdis x Hx). unfold proc_pages. by apply elem_of_union_r. }
  eapply wp_seq; [apply (freeproc_spec (set_k_mem m b) F pages c HFb)|].
  { change (k_procs (set_k_mem m b)) with (k_procs a). rewrite Hpa. lia. }
  { change (k_procs (set_k_mem m b)) with (k_procs a). rewrite Hpa. right. right. by exists t. }
  cbv beta. intros [] s2 (HF2 & Hf2 & Ho2). change (k_procs (set_k_mem m b)) with (k_procs a) in Hf2. rewrite Hpa in Hf2. set (ps := alter cleared c (k_procs s)) in *.
  eapply wp_seq; [apply (release_frame (L_proc c) (set_k_procs ps a) s2 (pages ∪ F)); [exact Hoka|exact Hla|done|done|exact Hf2]|]. cbv beta. intros [] s3 (HF3 & Hf3 & Hm3).
  eapply wp_seq; [apply (release_frame L_wait (set_k_procs ps (settle s)) s3 (pages ∪ F)); [exact (hart_ok_settle _ Hok)|exact Hwl|done|done|]|].
  { eapply frame_trans; [|exact Hf3]. apply (frame_set_procs ps) in Hfa. exact Hfa. }
  cbv beta. intros [] s4 (HF4 & Hf4 & Hm4). apply wp_ret. left. split_and!; [done|done|]. rewrite Hm3 in Hm4. change (k_mem (set_k_mem m b)) with m in Ho2.
  assert (Hpg : forall x, x ∈ pages -> good_page x) by (intros x; by eapply pspace_good).
  split; [done|apply frame_from_settle; by rewrite settle_set_procs| |].
  - apply (pspace_given s F t0 n0 tf0 s4 pages (P ∪ pages)); [done|done|by apply disjoint_sym| | |].
    + intros x. rewrite elem_of_union. intros [?|?]; auto.
    + intros x. rewrite elem_of_union. intros [Hx|Hx] Hx'.
      * pose proof (us_own _ _ _ _ (sp_us _ _ _ _ _ Hsp0)) as Hown. rewrite Forall_forall in Hown. apply elem_of_list_to_set in Hx. by destruct (Hown x Hx) as (_ & _ & ?).
      * apply (Hap x); [|done]. unfold proc_pages, space_pages. apply elem_of_union_r, elem_of_union_l, Hx'.
    + rewrite Hm4. eapply mem_out_trans; [eapply mem_out_mono; [|exact Hout]; apply union_subseteq_l|]. eapply mem_out_mono; [|exact Ho2]. apply union_subseteq_r.
  - intros va Hva. rewrite Hm4, <- (Hview va Hva). apply (view_out s F t0 n0 tf0 pages m); [done|by apply disjoint_sym|done|done|done].
Qed.

Lemma wait_run :
  wp (wait addr) (fun r s' =>
    (r = ppid q /\ status_ok /\ reaped s') \/ (r = -1 /\ ~ status_ok /\ kmem_free s' F /\ frame s s')) s.
Proof.
  pose proof Hre as [Hruns Hpl Hwl Hlen Hme Hsp0 (Hc & Hpar & Hz) Hfirst Hspc Hroot Hsz Hap].
  pose proof (us_inv _ _ _ _ (sp_us _ _ _ _ _ Hsp0)) as (HF & _ & _). pose proof HF as (Hok & Hlk & l & Hl & HFl). unfold wait.
  apply wp_bind. eapply wp_ok; [by apply curproc_run|]. cbv beta. apply wp_bind, wp_acquire; [by apply hart_ok_settle|done|].
  set (a := acquired L_wait (settle s)). cbn [while_fuel]. apply wp_bind, wp_bind.
  eapply (wp_mono _ (fun r s' => (r = inl (ppid q) /\ status_ok /\ reaped s') \/ (r = inl (-1) /\ ~ status_ok /\ kmem_free s' F /\ frame s s'))).
  - replace (seq 0 NPROC) with (seq 0 c ++ c :: seq (S c) (NPROC - S c)) by (change (c :: seq (S c) (NPROC - S c)) with (seq (0 + c) (S (NPROC - S c))); rewrite <- seq_app; f_equal; lia).
    apply wait_scan_skip; [unfold a; hart_tac|unfold a; hart_tac| | |].
    + intros j _. unfold a. apply lock_free_acquired; [discriminate|apply Hpl].
    + intros j Hj. apply elem_of_seq in Hj. apply Hfirst. lia.
    + intros hk. apply scan_child; [apply frame_refl| |done]. split_and!; [unfold a; hart_tac|unfold a; hart_tac|]. exists l. split; [|done]. by eapply kmem_inv_ext.
  - intros r s' [(-> & Hres)|(-> & Hres)]; cbv beta iota; apply wp_ret, wp_ret; auto.
Qed.
End reap.

(** C8: [wait] reaps a child that has exited.  If the address it is given is 0 or writable, it returns the number of the first such child in the process table, the caller sees the
    child's status at that address and otherwise the memory it saw, the child's slot is empty, and every page the child owned, with those that were
    free before, is free; the caller still owns its own.  If the address is not writable, it returns -1 and the child stays as it is. *)
Theorem wait_reaps s F me t0 n0 tf0 c t addr :
  reaper s F me t0 n0 tf0 c t -> 0 <= addr ->
  wp (wait addr) (fun r s' =>
    (r = ppid (k_procs s !!! c) /\ status_ok t0 addr /\ reaped s F t0 n0 tf0 c t addr s') \/
    (r = -1 /\ ~ status_ok t0 addr /\ kmem_free s' F /\ frame s s')) s.
Proof. intros Hre Haddr. by eapply wait_run. Qed.
End life.

(** ** The theorems at the two processes of [SampleProc] *)

Module SampleLife.
#[local] Existing Instance sample_layout.

Lemma procs_idle i : (2 <= i < NPROC)%nat -> k_procs SampleProc.state !!! i = zero_proc.
Proof.
  intros Hi. do 2 (destruct i as [|i]; [lia|]). change (k_procs SampleProc.state) with SampleProc.procs. unfold SampleProc.procs.
  cbn [lookup_total list_lookup_total]. apply lookup_total_replicate_2. lia.
Qed.

Lemma forks : forker SampleProc.state SampleProc.F 0 (SampleProc.pt 0) 0.
Proof.
  split; [by vm_compute|done|apply (SampleProc.space 0); by left|done|by vm_compute|by vm_compute| |done|done|done| |done|by eexists].
  - intros i Hi Hu. destruct (decide (i < 2)%nat); [|rewrite procs_idle by lia; done].
    destruct i as [|[|i]]; [done|done|lia].
  - intros f Hf. apply list_elem_of_lookup in Hf as [i Hi]. by apply lookup_replicate_1 in Hi as [? _].
Qed.

Lemma reaps : reaper SampleProc.state SampleProc.F 0 (SampleProc.pt 0) 1 (SampleProc.pg 6) 1 (SampleProc.pt 8).
Proof.
  split; [by vm_compute|done|done|by vm_compute|done|apply (SampleProc.space 0); by left|split_and!; [vm_compute; lia|done|done]| |apply (SampleProc.space 8); by right|done|by vm_compute|].
  - intros j Hj. replace j with 0%nat by lia. done.
  - exact SampleProc.owned_apart.
Qed.

Lemma fork_duplicates_witness :
  wp (@fork sample_layout) (fun r s' =>
    r = -1 \/ r = 3 /\ exists np t tf name, @forked sample_layout SampleProc.state SampleProc.F 0 (SampleProc.pt 0) 0 np t tf name s') SampleProc.state.
Proof.
  eapply wp_mono; [exact (fork_duplicates SampleProc.state SampleProc.F 0 (SampleProc.pt 0) 0 forks)|]. intros r s' [[-> _]|[-> Hfd]]; [by left|by right].
Defined.

Lemma wait_reaps_witness :
  wp (@wait sample_layout one_round 0) (fun r s' => r = 2 /\ @reaped sample_layout SampleProc.state SampleProc.F (SampleProc.pt 0) 1 (SampleProc.pg 6) 1 (SampleProc.pt 8) 0 s') SampleProc.state.
Proof.
  eapply wp_mono; [exact (@wait_reaps sample_layout one_round SampleProc.state SampleProc.F 0 (SampleProc.pt 0) 1 (SampleProc.pg 6) 1 (SampleProc.pt 8) 0 reaps ltac:(lia))|].
  intros r s' [(-> & _ & Hr)|(_ & Hno & _)]; [done|]. exfalso. apply Hno. by left.
Defined.
End SampleLife.
