(* ===== verification/Exec.v ===== *)
(** Running a program, [kernel/exec.c], and the format of executables, [kernel/elf.h].

    A file's headers are read into local variables: they are lists of bytes here, with
    the fields of [struct elfhdr] and [struct proghdr] read at their offsets. *)
From S2P Require Import Prelude Machine Riscv State Spinlock KString Kalloc Vm Sched Uart Printf Console Block Bio Log Fs Pipe Proc.
From Stdlib Require Import ZArith Lia.
From stdpp Require Import base strings numbers gmap list.
Local Open Scope Z_scope.
Local Open Scope m_scope.

(** ** elf.h *)

Definition ELF_MAGIC : Z := 0x464C457F.
Definition ELF_PROG_LOAD : Z := 1.
Definition ELF_PROG_FLAG_EXEC : Z := 1.
Definition ELF_PROG_FLAG_WRITE : Z := 2.
Definition ELF_PROG_FLAG_READ : Z := 4.

Definition sizeof_elfhdr : Z := 64.
Definition elf_magic (x : list Z) : Z := rd32 0 x.
Definition elf_entry (x : list Z) : Z := rd 8 24 x.
Definition elf_phoff (x : list Z) : Z := rd 8 32 x.
Definition elf_phnum (x : list Z) : Z := rd16 56 x.

Definition sizeof_proghdr : Z := 56.
Definition ph_type (x : list Z) : Z := rd32 0 x.
Definition ph_flags (x : list Z) : Z := rd32 4 x.
Definition ph_off (x : list Z) : Z := rd 8 8 x.
Definition ph_vaddr (x : list Z) : Z := rd 8 16 x.
Definition ph_filesz (x : list Z) : Z := rd 8 32 x.
Definition ph_memsz (x : list Z) : Z := rd 8 40 x.

(** ** exec.c *)

Definition flags2perm (flags : Z) : Z :=
  let perm := if has flags 0x1 then PTE_X else 0 in
  if has flags 0x2 then Z.lor perm PTE_W else perm.

(** The string at a kernel address, without its NUL.  The strings [exec] is given lie in
    one page each. *)
Definition kstring (a : Z) : K (list Z) :=
  bs <- get_bytes a PGSIZE_nat ;;
  match strlen bs with
  | Some n => ret (take n bs)
  | None => stop (Fault "strlen")
  end.

(** What follows the last slash of a path. *)
Fixpoint last_elem (s last : list Z) : list Z :=
  match s with
  | [] => last
  | c :: s' => last_elem s' (if c =? 47 then s' else last)
  end.

Section exec.
Context `{Layout} `{Patience} `{Garbage}.

Definition loadseg (pagetable va : Z) (ip : nat) (offset sz : Z) : K Z :=
  while_fuel OutOfFuel (Z.to_nat (sz / PGSIZE + 2)) (fun i =>
    if negb (i <? sz) then ret (inr 0) else
    pa <- walkaddr pagetable (u64 (va + i)) ;;
    if pa =? 0 then panic "loadseg: address should exist" else
    let n := if sz - i <? PGSIZE then sz - i else PGSIZE in
    let! (r, _) := readi ip (RPhys pa) (u32 (offset + i)) n in
    if negb (r =? n) then ret (inr (-1)) else
    ret (inl (u32 (i + PGSIZE)))) 0.

(** The label [bad]. *)
Definition exec_bad (pagetable sz : Z) (ip : option nat) : K Z :=
  when (negb (pagetable =? 0)) (proc_freepagetable pagetable sz) ;;
  match ip with
  | Some ip => iunlockput ip ;; end_op
  | None => ret tt
  end ;;
  ret (-1).

(** The loop over the program headers: the size of the image, and whether to go on
    ([true]) or to [bad]. *)
Definition exec_load (pagetable : Z) (ip : nat) (elf : list Z) : K (Z * bool) :=
  while_fuel OutOfFuel (S (Z.to_nat (elf_phnum elf))) (fun '(i, off, sz) =>
    if negb (i <? elf_phnum elf) then ret (inr (sz, true)) else
    let next sz := inl (i + 1, s32 (off + sizeof_proghdr), sz) in
    let! (r, ph) := readi ip RLocal (u32 off) sizeof_proghdr in
    if negb (r =? sizeof_proghdr) then ret (inr (sz, false)) else
    if negb (ph_type ph =? ELF_PROG_LOAD) then ret (next sz) else
    if ph_memsz ph <? ph_filesz ph then ret (inr (sz, false)) else
    if u64 (ph_vaddr ph + ph_memsz ph) <? ph_vaddr ph then ret (inr (sz, false)) else
    if negb (ph_vaddr ph mod PGSIZE =? 0) then ret (inr (sz, false)) else
    sz1 <- uvmalloc pagetable sz (u64 (ph_vaddr ph + ph_memsz ph)) (flags2perm (ph_flags ph)) ;;
    if sz1 =? 0 then ret (inr (sz, false)) else
    r <- loadseg pagetable (ph_vaddr ph) ip (u32 (ph_off ph)) (u32 (ph_filesz ph)) ;;
    if r <? 0 then ret (inr (sz1, false)) else
    ret (next sz1)) (0, s32 (elf_phoff elf), 0).

(** The loop that pushes the argument strings: the stack pointer and the addresses of
    the strings, or [None] for [bad]. *)
Definition exec_args (pagetable stackbase sp : Z) (argv : list Z) : K (option (Z * list Z)) :=
  while_fuel OutOfFuel (S (length argv)) (fun '(argc, sp, ustack) =>
    match argv !! argc with
    | None => stop (Fault "argv")
    | Some a =>
        if a =? 0 then ret (inr (Some (sp, ustack))) else
        if (MAXARG <=? argc)%nat then ret (inr None) else
        str <- kstring a ;;
        let sp := u64 (sp - (Z.of_nat (length str) + 1)) in
        let sp := u64 (sp - sp mod 16) in
        if sp <? stackbase then ret (inr None) else
        r <- copyout pagetable sp (str ++ [0]) ;;
        if r <? 0 then ret (inr None) else
        ret (inl (S argc, sp, ustack ++ [sp]))
    end) (0%nat, sp, []).

Definition exec (path argv : list Z) : K Z :=
  p <- myproc ;;
  begin_op ;;
  ip <- namei path ;;
  match ip with
  | None => end_op ;; ret (-1)
  | Some ip =>
      ilock (Some ip) ;;
      let! (r, elf) := readi ip RLocal 0 sizeof_elfhdr in
      if negb (r =? sizeof_elfhdr) then exec_bad 0 0 (Some ip) else
      if negb (elf_magic elf =? ELF_MAGIC) then exec_bad 0 0 (Some ip) else
      i <- deref p ;;
      pagetable <- proc_pagetable i ;;
      if pagetable =? 0 then exec_bad 0 0 (Some ip) else
      let! (sz, ok) := exec_load pagetable ip elf in
      if negb ok then exec_bad pagetable sz (Some ip) else
      iunlockput ip ;;
      end_op ;;
      i <- curproc ;;
      pr <- get_proc i ;;
      let oldsz := psz pr in
      let sz := PGROUNDUP sz in
      sz1 <- uvmalloc pagetable sz (u64 (sz + (USERSTACK + 1) * PGSIZE)) PTE_W ;;
      if sz1 =? 0 then exec_bad pagetable sz None else
      let sz := sz1 in
      uvmclear pagetable (u64 (sz - (USERSTACK + 1) * PGSIZE)) ;;
      let stackbase := u64 (sz - USERSTACK * PGSIZE) in
      r <- exec_args pagetable stackbase sz argv ;;
      match r with
      | None => exec_bad pagetable sz None
      | Some (sp, ustack) =>
          let argc := length ustack in
          if (MAXARG <=? argc)%nat then stop (Fault "ustack") else
          let sp := u64 (sp - (Z.of_nat argc + 1) * 8) in
          let sp := u64 (sp - sp mod 16) in
          if sp <? stackbase then exec_bad pagetable sz None else
          r <- copyout pagetable sp (mjoin (le_bytes 8 <$> (ustack ++ [0]))) ;;
          if r <? 0 then exec_bad pagetable sz None else
          pr <- get_proc i ;;
          set_tf (ptrapframe pr) tf_a1 sp ;;
          set_name i (last_elem path path ++ [0]) ;;
          pr <- get_proc i ;;
          let oldpagetable := ppagetable pr in
          upd_proc i (set_ppagetable pagetable) ;;
          upd_proc i (set_psz sz) ;;
          set_tf (ptrapframe pr) tf_epc (elf_entry elf) ;;
          set_tf (ptrapframe pr) tf_sp sp ;;
          proc_freepagetable oldpagetable oldsz ;;
          ret (Z.of_nat argc)
      end
  end.
End exec.
