(* ===== verification/Sysfile.v ===== *)
(** System call arguments, [kernel/syscall.c], and the system calls on files,
    [kernel/sysfile.c].

    A [char] array that a path or a name is copied into is the list of the bytes copied;
    a path is its bytes before the NUL. *)
From S2P Require Import Prelude Machine Riscv State Spinlock KString Kalloc Vm Sched Uart Printf Console Block Bio Log Fs Pipe Proc Exec.
From Stdlib Require Import ZArith Lia.
From stdpp Require Import base strings numbers gmap list.
Local Open Scope Z_scope.
Local Open Scope m_scope.

(** ** fcntl.h *)
Definition O_RDONLY : Z := 0x000.
Definition O_WRONLY : Z := 0x001.
Definition O_RDWR : Z := 0x002.
Definition O_CREATE : Z := 0x200.
Definition O_TRUNC : Z := 0x400.

(** ** syscall.c: arguments *)

(** The result and the word at the address. *)
Definition fetchaddr (addr : Z) : K (Z * Z) :=
  i <- curproc ;;
  p <- get_proc i ;;
  if (psz p <=? addr) || (psz p <? u64 (addr + 8)) then ret (-1, 0) else
  let! (r, bs) := copyin (ppagetable p) addr 8 in
  if negb (r =? 0) then ret (-1, 0) else ret (0, le_val bs).

(** The result and the bytes copied to [buf]. *)
Definition fetchstr (addr : Z) (max : nat) : K (Z * list Z) :=
  i <- curproc ;;
  p <- get_proc i ;;
  let! (r, bs) := copyinstr (ppagetable p) addr max in
  if r <? 0 then ret (-1, bs) else
  match strlen bs with
  | Some n => ret (Z.of_nat n, bs)
  | None => stop (Fault "strlen")
  end.

Definition argraw (n : Z) : K Z :=
  i <- curproc ;;
  p <- get_proc i ;;
  if n =? 0 then get_tf (ptrapframe p) tf_a0
  else if n =? 1 then get_tf (ptrapframe p) tf_a1
  else if n =? 2 then get_tf (ptrapframe p) tf_a2
  else if n =? 3 then get_tf (ptrapframe p) tf_a3
  else if n =? 4 then get_tf (ptrapframe p) tf_a4
  else if n =? 5 then get_tf (ptrapframe p) tf_a5
  else panic "argraw".

Definition argint (n : Z) : K Z := v <- argraw n ;; ret (s32 v).

Definition argaddr (n : Z) : K Z := argraw n.

Definition argstr (n : Z) (max : nat) : K (Z * list Z) :=
  addr <- argaddr n ;;
  fetchstr addr max.

(** ** sysfile.c: descriptors *)

(** The descriptor and its file, or [None] for [-1]. *)
Definition argfd (n : Z) : K (option (nat * nat)) :=
  fd <- argint n ;;
  if (fd <? 0) || (Z.of_nat NOFILE <=? fd) then ret None else
  i <- curproc ;;
  p <- get_proc i ;;
  match pofile p !!! Z.to_nat fd with
  | None => ret None
  | Some f => ret (Some (Z.to_nat fd, f))
  end.

Definition set_ofile (i fd : nat) (f : option nat) : K unit :=
  upd_proc i (fun p => set_pofile (<[fd := f]> (pofile p)) p).

(** The descriptor, or [None] for [-1]. *)
Definition fdalloc (f : nat) : K (option nat) :=
  i <- curproc ;;
  for_ret (seq 0 NOFILE) (fun fd =>
    p <- get_proc i ;;
    match pofile p !!! fd with
    | None => set_ofile i fd (Some f) ;; ret (Some fd)
    | Some _ => ret None
    end).

Definition sys_dup : K Z :=
  r <- argfd 0 ;;
  match r with
  | None => ret (-1)
  | Some (_, f) =>
      fd <- fdalloc f ;;
      match fd with
      | None => ret (-1)
      | Some fd => filedup f ;; ret (Z.of_nat fd)
      end
  end.

Section sysfile.
Context `{Layout} `{Patience} `{Garbage}.

Definition sys_read : K Z :=
  p <- argaddr 1 ;;
  n <- argint 2 ;;
  r <- argfd 0 ;;
  match r with
  | None => ret (-1)
  | Some (_, f) => fileread f p n
  end.

Definition sys_write : K Z :=
  p <- argaddr 1 ;;
  n <- argint 2 ;;
  r <- argfd 0 ;;
  match r with
  | None => ret (-1)
  | Some (_, f) => filewrite f p n
  end.

Definition sys_close : K Z :=
  r <- argfd 0 ;;
  match r with
  | None => ret (-1)
  | Some (fd, f) =>
      i <- curproc ;;
      set_ofile i fd None ;;
      fileclose f ;;
      ret 0
  end.

Definition sys_fstat : K Z :=
  st <- argaddr 1 ;;
  r <- argfd 0 ;;
  match r with
  | None => ret (-1)
  | Some (_, f) => filestat f st
  end.

(** ** sysfile.c: names *)

(** [ip->nlink++], [ip->nlink--]. *)
Definition add_nlink (ip : nat) (d : Z) : K unit :=
  upd_ino ip (fun i => set_inlink (s16 (inlink i + d)) i).

(** The label [bad] of [sys_link]. *)
Definition link_bad (ip : nat) : K Z :=
  ilock (Some ip) ;;
  add_nlink ip (-1) ;;
  iupdate ip ;;
  iunlockput ip ;;
  end_op ;;
  ret (-1).

Definition sys_link : K Z :=
  let! (r, old) := argstr 0 MAXPATH in
  if r <? 0 then ret (-1) else
  let! (r, new) := argstr 1 MAXPATH in
  if r <? 0 then ret (-1) else
  begin_op ;;
  ip <- namei (cstr old) ;;
  match ip with
  | None => end_op ;; ret (-1)
  | Some ip =>
      ilock (Some ip) ;;
      i <- get_ino ip ;;
      if itype i =? T_DIR then
        iunlockput ip ;;
        end_op ;;
        ret (-1)
      else
      add_nlink ip 1 ;;
      iupdate ip ;;
      iunlock (Some ip) ;;
      let! (dp, name) := nameiparent (cstr new) (replicate DIRSIZ 0) in
      match dp with
      | None => link_bad ip
      | Some dp =>
          ilock (Some dp) ;;
          d <- get_ino dp ;;
          i <- get_ino ip ;;
          r <- (if negb (idev d =? idev i) then ret (-1) else dirlink dp name (State.inum i)) ;;
          if r <? 0 then
            iunlockput dp ;;
            link_bad ip
          else
            iunlockput dp ;;
            iput ip ;;
            end_op ;;
            ret 0
      end
  end.

Definition sys_ttyraw : K Z :=
  on <- argint 0 ;;
  console_set_rawmode on ;;
  ret 0.

Definition isdirempty (dp : nat) : K bool :=
  d <- get_ino dp ;;
  r <- for_ret (drop 2 (dir_offs (isize d))) (fun off =>
    let! (r, de) := readi dp RLocal off sizeof_dirent in
    if negb (r =? sizeof_dirent) then panic "isdirempty: readi" else
    if negb (de_inum de =? 0) then ret (Some false) else ret None) ;;
  ret (default true r).

(** The label [bad] of [sys_unlink]. *)
Definition unlink_bad (dp : nat) : K Z :=
  iunlockput dp ;;
  end_op ;;
  ret (-1).

Definition sys_unlink : K Z :=
  let! (r, path) := argstr 0 MAXPATH in
  if r <? 0 then ret (-1) else
  begin_op ;;
  let! (dp, name) := nameiparent (cstr path) (replicate DIRSIZ 0) in
  match dp with
  | None => end_op ;; ret (-1)
  | Some dp =>
      ilock (Some dp) ;;
      c <- namecmp name (c_string ".") ;;
      c <- (if c =? 0 then ret 0 else namecmp name (c_string "..")) ;;
      if c =? 0 then unlink_bad dp else
      r <- dirlookup dp name ;;
      match r with
      | None => unlink_bad dp
      | Some (ip, off) =>
          ilock (Some ip) ;;
          i <- get_ino ip ;;
          if inlink i <? 1 then panic "unlink: nlink < 1" else
          empty <- (if itype i =? T_DIR then isdirempty ip else ret true) ;;
          if negb empty then
            iunlockput ip ;;
            unlink_bad dp
          else
          w <- writei dp (WLocal (replicate (Z.to_nat sizeof_dirent) 0)) off sizeof_dirent ;;
          if negb (w =? sizeof_dirent) then panic "unlink: writei" else
          i <- get_ino ip ;;
          when (itype i =? T_DIR) (add_nlink dp (-1) ;; iupdate dp) ;;
          iunlockput dp ;;
          add_nlink ip (-1) ;;
          iupdate ip ;;
          iunlockput ip ;;
          end_op ;;
          ret 0
      end
  end.

(** The label [fail] of [create]. *)
Definition create_fail (ip dp : nat) : K (option nat) :=
  upd_ino ip (set_inlink 0) ;;
  iupdate ip ;;
  iunlockput ip ;;
  iunlockput dp ;;
  ret None.

Definition create (path : list Z) (type major minor : Z) : K (option nat) :=
  let! (dp, name) := nameiparent path (replicate DIRSIZ 0) in
  match dp with
  | None => ret None
  | Some dp =>
      ilock (Some dp) ;;
      r <- dirlookup dp name ;;
      match r with
      | Some (ip, _) =>
          iunlockput dp ;;
          ilock (Some ip) ;;
          i <- get_ino ip ;;
          if (type =? T_FILE) && ((itype i =? T_FILE) || (itype i =? T_DEVICE)) then ret (Some ip) else
          iunlockput ip ;;
          ret None
      | None =>
          d <- get_ino dp ;;
          r <- ialloc (idev d) type ;;
          match r with
          | None => iunlockput dp ;; ret None
          | Some ip =>
              ilock (Some ip) ;;
              upd_ino ip (set_imajor major) ;;
              upd_ino ip (set_iminor minor) ;;
              upd_ino ip (set_inlink 1) ;;
              iupdate ip ;;
              r <- (if type =? T_DIR then
                      i <- get_ino ip ;;
                      r <- dirlink ip (c_string ".") (State.inum i) ;;
                      if r <? 0 then ret (-1) else
                      d <- get_ino dp ;;
                      dirlink ip (c_string "..") (State.inum d)
                    else ret 0) ;;
              if r <? 0 then create_fail ip dp else
              i <- get_ino ip ;;
              r <- dirlink dp name (State.inum i) ;;
              if r <? 0 then create_fail ip dp else
              when (type =? T_DIR) (add_nlink dp 1 ;; iupdate dp) ;;
              iunlockput dp ;;
              ret (Some ip)
          end
      end
  end.

(** The inode [sys_open] works on, locked, or [None] after the end of the transaction. *)
Definition open_inode (path : list Z) (omode : Z) : K (option nat) :=
  if has omode O_CREATE then
    ip <- create path T_FILE 0 0 ;;
    match ip with
    | None => end_op ;; ret None
    | Some ip => ret (Some ip)
    end
  else
    ip <- namei path ;;
    match ip with
    | None => end_op ;; ret None
    | Some ip =>
        ilock (Some ip) ;;
        i <- get_ino ip ;;
        if (itype i =? T_DIR) && negb (omode =? O_RDONLY) then
          iunlockput ip ;;
          end_op ;;
          ret None
        else ret (Some ip)
    end.

Definition sys_open : K Z :=
  omode <- argint 1 ;;
  let! (n, path) := argstr 0 MAXPATH in
  if n <? 0 then ret (-1) else
  begin_op ;;
  ip <- open_inode (cstr path) omode ;;
  match ip with
  | None => ret (-1)
  | Some ip =>
      i <- get_ino ip ;;
      if (itype i =? T_DEVICE) && ((imajor i <? 0) || (NDEV <=? imajor i)) then
        iunlockput ip ;;
        end_op ;;
        ret (-1)
      else
      f <- filealloc ;;
      fd <- (match f with Some f => fdalloc f | None => ret None end) ;;
      match f, fd with
      | Some f, Some fd =>
          i <- get_ino ip ;;
          (if itype i =? T_DEVICE then
             upd_file f (set_ftype FD_DEVICE) ;;
             upd_file f (set_fmajor (imajor i))
           else
             upd_file f (set_ftype FD_INODE) ;;
             upd_file f (set_foff 0)) ;;
          upd_file f (set_fip (Some ip)) ;;
          upd_file f (set_freadable (negb (has omode O_WRONLY))) ;;
          upd_file f (set_fwritable (has omode O_WRONLY || has omode O_RDWR)) ;;
          when (has omode O_TRUNC && (itype i =? T_FILE)) (itrunc ip) ;;
          iunlock (Some ip) ;;
          end_op ;;
          ret (Z.of_nat fd)
      | _, _ =>
          match f with Some f => fileclose f | None => ret tt end ;;
          iunlockput ip ;;
          end_op ;;
          ret (-1)
      end
  end.

Definition sys_mkdir : K Z :=
  begin_op ;;
  let! (r, path) := argstr 0 MAXPATH in
  ip <- (if r <? 0 then ret None else create (cstr path) T_DIR 0 0) ;;
  match ip with
  | None => end_op ;; ret (-1)
  | Some ip =>
      iunlockput ip ;;
      end_op ;;
      ret 0
  end.

Definition sys_mknod : K Z :=
  begin_op ;;
  major <- argint 1 ;;
  minor <- argint 2 ;;
  let! (r, path) := argstr 0 MAXPATH in
  ip <- (if r <? 0 then ret None else create (cstr path) T_DEVICE (s16 major) (s16 minor)) ;;
  match ip with
  | None => end_op ;; ret (-1)
  | Some ip =>
      iunlockput ip ;;
      end_op ;;
      ret 0
  end.

Definition sys_chdir : K Z :=
  p <- myproc ;;
  begin_op ;;
  let! (r, path) := argstr 0 MAXPATH in
  ip <- (if r <? 0 then ret None else namei (cstr path)) ;;
  match ip with
  | None => end_op ;; ret (-1)
  | Some ip =>
      ilock (Some ip) ;;
      i <- get_ino ip ;;
      if negb (itype i =? T_DIR) then
        iunlockput ip ;;
        end_op ;;
        ret (-1)
      else
      iunlock (Some ip) ;;
      me <- deref p ;;
      q <- get_proc me ;;
      cwd <- deref (pcwd q) ;;
      iput cwd ;;
      end_op ;;
      upd_proc me (set_pcwd (Some ip)) ;;
      ret 0
  end.

(** ** sysfile.c: programs and pipes *)

(** The loop of [sys_exec]: the pages it has filled with arguments, and whether it ended
    with a null pointer ([true]) or goes to [bad]. *)
Definition exec_argv (uargv : Z) : K (list Z * bool) :=
  while_fuel OutOfFuel (S MAXARG) (fun argv =>
    let i := length argv in
    if (MAXARG <=? i)%nat then ret (inr (argv, false)) else
    let! (r, uarg) := fetchaddr (u64 (uargv + 8 * Z.of_nat i)) in
    if r <? 0 then ret (inr (argv, false)) else
    if uarg =? 0 then ret (inr (argv, true)) else
    a <- kalloc ;;
    if a =? 0 then ret (inr (argv, false)) else
    let! (r, bs) := fetchstr uarg PGSIZE_nat in
    put_bytes a bs ;;
    if r <? 0 then ret (inr (argv ++ [a], false)) else
    ret (inl (argv ++ [a]))) [].

Definition sys_exec : K Z :=
  uargv <- argaddr 1 ;;
  let! (r, path) := argstr 0 MAXPATH in
  if r <? 0 then ret (-1) else
  let! (argv, ok) := exec_argv uargv in
  if negb ok then
    for_each argv kfree ;;
    ret (-1)
  else
    r <- exec (cstr path) (argv ++ replicate (MAXARG - length argv) 0) ;;
    for_each argv kfree ;;
    ret r.

Definition sys_pipe : K Z :=
  p <- myproc ;;
  fdarray <- argaddr 0 ;;
  r <- pipealloc ;;
  match r with
  | None => ret (-1)
  | Some (rf, wf) =>
      i <- deref p ;;
      let undo (fds : list nat) : K Z :=
        for_each fds (fun fd => set_ofile i fd None) ;;
        fileclose rf ;;
        fileclose wf ;;
        ret (-1) in
      fd0 <- fdalloc rf ;;
      match fd0 with
      | None => undo []
      | Some fd0 =>
          fd1 <- fdalloc wf ;;
          match fd1 with
          | None => undo [fd0]
          | Some fd1 =>
              me <- get_proc i ;;
              r <- copyout (ppagetable me) fdarray (le_bytes 4 (Z.of_nat fd0)) ;;
              if r <? 0 then undo [fd0; fd1] else
              r <- copyout (ppagetable me) (u64 (fdarray + 4)) (le_bytes 4 (Z.of_nat fd1)) ;;
              if r <? 0 then undo [fd0; fd1] else
              ret 0
          end
      end
  end.
End sysfile.
