(* ===== verification/Virtio.v ===== *)
(** The disk driver, [kernel/virtio_disk.c].

    [k_virtio] is [struct disk], with the registers of the device; the field [reserved] of a
    command header, always 0, is left out.  What the device does is not the driver's
    code: VirtioSpec.v says how it reads a request and what it may do meanwhile. *)
From S2P Require Import Prelude Machine Riscv State Spinlock KString Kalloc Vm Sched Bio.
From Stdlib Require Import ZArith Lia.
From stdpp Require Import base strings numbers gmap list.
Local Open Scope Z_scope.
Local Open Scope m_scope.

(** ** virtio.h *)

Definition VIRTIO_MMIO_MAGIC_VALUE : Z := 0x000.
Definition VIRTIO_MMIO_VERSION : Z := 0x004.
Definition VIRTIO_MMIO_DEVICE_ID : Z := 0x008.
Definition VIRTIO_MMIO_VENDOR_ID : Z := 0x00c.
Definition VIRTIO_MMIO_DEVICE_FEATURES : Z := 0x010.
Definition VIRTIO_MMIO_DRIVER_FEATURES : Z := 0x020.
Definition VIRTIO_MMIO_QUEUE_SEL : Z := 0x030.
Definition VIRTIO_MMIO_QUEUE_NUM_MAX : Z := 0x034.
Definition VIRTIO_MMIO_QUEUE_NUM : Z := 0x038.
Definition VIRTIO_MMIO_QUEUE_READY : Z := 0x044.
Definition VIRTIO_MMIO_QUEUE_NOTIFY : Z := 0x050.
Definition VIRTIO_MMIO_INTERRUPT_STATUS : Z := 0x060.
Definition VIRTIO_MMIO_INTERRUPT_ACK : Z := 0x064.
Definition VIRTIO_MMIO_STATUS : Z := 0x070.
Definition VIRTIO_MMIO_QUEUE_DESC_LOW : Z := 0x080.
Definition VIRTIO_MMIO_QUEUE_DESC_HIGH : Z := 0x084.
Definition VIRTIO_MMIO_DRIVER_DESC_LOW : Z := 0x090.
Definition VIRTIO_MMIO_DRIVER_DESC_HIGH : Z := 0x094.
Definition VIRTIO_MMIO_DEVICE_DESC_LOW : Z := 0x0a0.
Definition VIRTIO_MMIO_DEVICE_DESC_HIGH : Z := 0x0a4.

Definition VIRTIO_CONFIG_S_ACKNOWLEDGE : Z := 1.
Definition VIRTIO_CONFIG_S_DRIVER : Z := 2.
Definition VIRTIO_CONFIG_S_DRIVER_OK : Z := 4.
Definition VIRTIO_CONFIG_S_FEATURES_OK : Z := 8.

Definition VIRTIO_BLK_F_RO : Z := 5.
Definition VIRTIO_BLK_F_SCSI : Z := 7.
Definition VIRTIO_BLK_F_CONFIG_WCE : Z := 11.
Definition VIRTIO_BLK_F_MQ : Z := 12.
Definition VIRTIO_F_ANY_LAYOUT : Z := 27.
Definition VIRTIO_RING_F_INDIRECT_DESC : Z := 28.
Definition VIRTIO_RING_F_EVENT_IDX : Z := 29.

Definition VRING_DESC_F_NEXT : Z := 1.
Definition VRING_DESC_F_WRITE : Z := 2.
Definition VIRTIO_BLK_T_IN : Z := 0.
Definition VIRTIO_BLK_T_OUT : Z := 1.
Definition sizeof_virtio_blk_req : Z := 16.

Definition get_virtio : K virtst := gets k_virtio.
Definition upd_virtio (f : virtst -> virtst) : K unit :=
  modify (fun s => set_k_virtio (f (k_virtio s)) s).
Definition upd_desc (i : nat) (f : virtq_desc -> virtq_desc) : K unit :=
  upd_virtio (fun v => set_v_desc (alter f i (v_desc v)) v).

(** [*R(r)], read and written. *)
Definition read_reg (r : Z) : K Z := v <- get_virtio ;; ret (default 0 (v_mmio v !! r)).
Definition write_reg (r x : Z) : K unit :=
  upd_virtio (fun v => set_v_mmio
    (<[r := u32 (if r =? VIRTIO_MMIO_STATUS then Z.land x (v_status_mask v) else x)]> (v_mmio v)) v).

(** [features &= ~(1 << bit)]. *)
Definition without (bit features : Z) : Z := Z.land features (Z.lnot (Z.shiftl 1 bit)).

Section virtio.
Context `{Layout} `{Patience}.

Definition virtio_disk_init : K unit :=
  initlock L_vdisk ;;
  magic <- read_reg VIRTIO_MMIO_MAGIC_VALUE ;;
  version <- read_reg VIRTIO_MMIO_VERSION ;;
  device <- read_reg VIRTIO_MMIO_DEVICE_ID ;;
  vendor <- read_reg VIRTIO_MMIO_VENDOR_ID ;;
  if negb (magic =? 0x74726976) || negb (version =? 2) || negb (device =? 2) || negb (vendor =? 0x554d4551)
  then panic "could not find virtio disk" else
  let status := 0 in
  write_reg VIRTIO_MMIO_STATUS status ;;
  let status := Z.lor status VIRTIO_CONFIG_S_ACKNOWLEDGE in
  write_reg VIRTIO_MMIO_STATUS status ;;
  let status := Z.lor status VIRTIO_CONFIG_S_DRIVER in
  write_reg VIRTIO_MMIO_STATUS status ;;
  features <- read_reg VIRTIO_MMIO_DEVICE_FEATURES ;;
  write_reg VIRTIO_MMIO_DRIVER_FEATURES
    (without VIRTIO_RING_F_INDIRECT_DESC (without VIRTIO_RING_F_EVENT_IDX (without VIRTIO_F_ANY_LAYOUT
    (without VIRTIO_BLK_F_MQ (without VIRTIO_BLK_F_CONFIG_WCE (without VIRTIO_BLK_F_SCSI
    (without VIRTIO_BLK_F_RO features))))))) ;;
  let status := Z.lor status VIRTIO_CONFIG_S_FEATURES_OK in
  write_reg VIRTIO_MMIO_STATUS status ;;
  status <- read_reg VIRTIO_MMIO_STATUS ;;
  if negb (has status VIRTIO_CONFIG_S_FEATURES_OK) then panic "virtio disk FEATURES_OK unset" else
  write_reg VIRTIO_MMIO_QUEUE_SEL 0 ;;
  ready <- read_reg VIRTIO_MMIO_QUEUE_READY ;;
  if negb (ready =? 0) then panic "virtio disk should not be ready" else
  max <- read_reg VIRTIO_MMIO_QUEUE_NUM_MAX ;;
  if max =? 0 then panic "virtio disk has no queue 0" else
  if max <? Z.of_nat NUM then panic "virtio disk max queue too short" else
  desc <- kalloc ;;
  upd_virtio (set_v_desc_pa desc) ;;
  avail <- kalloc ;;
  upd_virtio (set_v_avail_pa avail) ;;
  used <- kalloc ;;
  upd_virtio (set_v_used_pa used) ;;
  if (desc =? 0) || (avail =? 0) || (used =? 0) then panic "virtio disk kalloc" else
  memset desc 0 PGSIZE_nat ;;
  upd_virtio (set_v_desc (replicate NUM zero_desc)) ;;
  memset avail 0 PGSIZE_nat ;;
  upd_virtio (fun v => set_v_avail_idx 0 (set_v_avail (replicate NUM 0) v)) ;;
  memset used 0 PGSIZE_nat ;;
  upd_virtio (fun v => set_v_used_dev 0 (set_v_used (replicate NUM 0) v)) ;;
  write_reg VIRTIO_MMIO_QUEUE_NUM (Z.of_nat NUM) ;;
  write_reg VIRTIO_MMIO_QUEUE_DESC_LOW desc ;;
  write_reg VIRTIO_MMIO_QUEUE_DESC_HIGH (Z.shiftr desc 32) ;;
  write_reg VIRTIO_MMIO_DRIVER_DESC_LOW avail ;;
  write_reg VIRTIO_MMIO_DRIVER_DESC_HIGH (Z.shiftr avail 32) ;;
  write_reg VIRTIO_MMIO_DEVICE_DESC_LOW used ;;
  write_reg VIRTIO_MMIO_DEVICE_DESC_HIGH (Z.shiftr used 32) ;;
  write_reg VIRTIO_MMIO_QUEUE_READY 0x1 ;;
  for_each (seq 0 NUM) (fun i => upd_virtio (fun v => set_v_free (<[i := true]> (v_free v)) v)) ;;
  write_reg VIRTIO_MMIO_STATUS (Z.lor status VIRTIO_CONFIG_S_DRIVER_OK).

(** The index, or [None] for [-1]. *)
Definition alloc_desc : K (option nat) :=
  for_ret (seq 0 NUM) (fun i =>
    v <- get_virtio ;;
    if (v_free v !!! i : bool) then
      upd_virtio (fun v => set_v_free (<[i := false]> (v_free v)) v) ;;
      ret (Some i)
    else ret None).

Definition free_desc (i : nat) : K unit :=
  if (NUM <=? i)%nat then panic "free_desc 1" else
  v <- get_virtio ;;
  if (v_free v !!! i : bool) then panic "free_desc 2" else
  upd_desc i (set_daddr A_null) ;;
  upd_desc i (set_dlen 0) ;;
  upd_desc i (set_dflags 0) ;;
  upd_desc i (set_dnext 0) ;;
  upd_virtio (fun v => set_v_free (<[i := true]> (v_free v)) v) ;;
  wakeup C_disk_free.

(** Each round frees a descriptor that was not free, so there are at most [NUM]. *)
Definition free_chain (i : nat) : K unit :=
  while_fuel OutOfFuel (S NUM) (fun i =>
    v <- get_virtio ;;
    let flag := dflags (v_desc v !!! i) in
    let nxt := dnext (v_desc v !!! i) in
    free_desc i ;;
    if has flag VRING_DESC_F_NEXT then ret (inl (Z.to_nat nxt)) else ret (inr tt)) i.

(** The array [idx], or [None] for [-1]. *)
Definition alloc3_desc : K (option (nat * nat * nat)) :=
  i0 <- alloc_desc ;;
  match i0 with None => ret None | Some i0 =>
  i1 <- alloc_desc ;;
  match i1 with None => free_desc i0 ;; ret None | Some i1 =>
  i2 <- alloc_desc ;;
  match i2 with None => free_desc i0 ;; free_desc i1 ;; ret None | Some i2 =>
  ret (Some (i0, i1, i2))
  end end end.

(** The descriptors of a transfer, and its entry in the available ring. *)
Definition virtio_submit (b : nat) (write : bool) (i0 i1 i2 : nat) (sector : Z) : K unit :=
  upd_virtio (fun v => set_v_op_type (<[i0 := if write then VIRTIO_BLK_T_OUT else VIRTIO_BLK_T_IN]> (v_op_type v)) v) ;;
  upd_virtio (fun v => set_v_op_sector (<[i0 := sector]> (v_op_sector v)) v) ;;
  upd_desc i0 (set_daddr (A_ops i0)) ;;
  upd_desc i0 (set_dlen sizeof_virtio_blk_req) ;;
  upd_desc i0 (set_dflags VRING_DESC_F_NEXT) ;;
  upd_desc i0 (set_dnext (Z.of_nat i1)) ;;
  upd_desc i1 (set_daddr (A_data b)) ;;
  upd_desc i1 (set_dlen (Z.of_nat BSIZE)) ;;
  upd_desc i1 (set_dflags (if write then 0 else VRING_DESC_F_WRITE)) ;;
  upd_desc i1 (fun d => set_dflags (Z.lor (dflags d) VRING_DESC_F_NEXT) d) ;;
  upd_desc i1 (set_dnext (Z.of_nat i2)) ;;
  upd_virtio (fun v => set_v_info_status (<[i0 := 0xff]> (v_info_status v)) v) ;;
  upd_desc i2 (set_daddr (A_status i0)) ;;
  upd_desc i2 (set_dlen 1) ;;
  upd_desc i2 (set_dflags VRING_DESC_F_WRITE) ;;
  upd_desc i2 (set_dnext 0) ;;
  upd_buf b (set_bdisk true) ;;
  upd_virtio (fun v => set_v_info_b (<[i0 := Some b]> (v_info_b v)) v) ;;
  upd_virtio (fun v => set_v_avail (<[Z.to_nat (v_avail_idx v mod Z.of_nat NUM) := Z.of_nat i0]> (v_avail v)) v) ;;
  upd_virtio (fun v => set_v_avail_idx (u16 (v_avail_idx v + 1)) v) ;;
  write_reg VIRTIO_MMIO_QUEUE_NOTIFY 0.

(** The loop that allocates the descriptors, sleeping while there are too few. *)
Definition virtio_alloc : K (nat * nat * nat) :=
  while_fuel OutOfFuel (S patience) (fun _ : unit =>
    r <- alloc3_desc ;;
    match r with
    | Some idx => ret (inr idx)
    | None => sleep C_disk_free L_vdisk ;; ret (inl tt)
    end) tt.

(** The loop that waits until the interrupt handler says that the request has finished. *)
Definition virtio_wait (b : nat) : K unit :=
  while_fuel OutOfFuel (S patience) (fun _ : unit =>
    bb <- get_buf b ;;
    if bdisk bb then sleep (C_buf b) L_vdisk ;; ret (inl tt) else ret (inr tt)) tt.

Definition virtio_disk_rw (b : nat) (write : bool) : K unit :=
  bb <- get_buf b ;;
  let sector := u32 (bblockno bb * (Z.of_nat BSIZE / 512)) in
  acquire L_vdisk ;;
  let! (i0, i1, i2) := virtio_alloc in
  virtio_submit b write i0 i1 i2 sector ;;
  virtio_wait b ;;
  upd_virtio (fun v => set_v_info_b (<[i0 := None]> (v_info_b v)) v) ;;
  free_chain i0 ;;
  release L_vdisk.
End virtio.

(** Each round takes one entry that the device has put in the used ring. *)
Definition virtio_disk_intr : K unit :=
  acquire L_vdisk ;;
  st <- read_reg VIRTIO_MMIO_INTERRUPT_STATUS ;;
  write_reg VIRTIO_MMIO_INTERRUPT_ACK (Z.land st 0x3) ;;
  v <- get_virtio ;;
  while_fuel OutOfFuel (S (Z.to_nat (u16 (v_used_dev v - v_used_idx v)))) (fun _ : unit =>
    v <- get_virtio ;;
    if v_used_idx v =? v_used_dev v then ret (inr tt) else
    let id := Z.to_nat (v_used v !!! Z.to_nat (v_used_idx v mod Z.of_nat NUM)) in
    if negb (v_info_status v !!! id =? 0) then panic "virtio_disk_intr status" else
    match v_info_b v !!! id with
    | None => panic "kerneltrap"
    | Some b =>
        upd_buf b (set_bdisk false) ;;
        wakeup (C_buf b) ;;
        upd_virtio (fun v => set_v_used_idx (u16 (v_used_idx v + 1)) v) ;;
        ret (inl tt)
    end) tt ;;
  release L_vdisk.
