(* ===== verification/VirtioSpec.v ===== *)
(** The disk driver keeps the contract of [disk_rw].

    A request is a chain of three descriptors; [decode] reads such a chain the way the
    virtio specification tells the device to.  The device has a state of its own ([virtdev]): how far it has read the
    available ring, and the chains it has taken from it.  A transfer by [virtio_disk_rw] puts into the
    available ring a chain that decodes to the request it was called for, and notifies the device; if the
    device performs the requests it finds in the ring and the rest of the machine leaves this one alone ([others]), the transfer ends with the
    buffer and the block of the disk equal and with its descriptors free again. *)
From S2P Require Import Prelude Machine Riscv State Spinlock KString Kalloc Vm Sched Copy User Handover Bio Virtio.
From Stdlib Require Import ZArith Lia.
From stdpp Require Import base strings numbers gmap list.
Local Open Scope Z_scope.
Local Open Scope m_scope.

(** ** Requests as the device reads them *)

Record request : Type := mkReq {
  rq_write : bool;
  rq_sector : Z;
  rq_buf : nat;
  rq_status : nat
}.

(** The request of the chain that starts at descriptor [head]: a header the device reads, the
    data of a block, which it reads or writes, and a status byte it writes. *)
Definition decode (v : virtst) (head : nat) : option request :=
  let d0 := v_desc v !!! head in
  let d1 := v_desc v !!! Z.to_nat (dnext d0) in
  let d2 := v_desc v !!! Z.to_nat (dnext d1) in
  match daddr d0, daddr d1, daddr d2 with
  | A_ops j, A_data b, A_status k =>
      let w := v_op_type v !!! j =? VIRTIO_BLK_T_OUT in
      if (dlen d0 =? sizeof_virtio_blk_req) && has (dflags d0) VRING_DESC_F_NEXT && negb (has (dflags d0) VRING_DESC_F_WRITE) &&
         (dlen d1 =? Z.of_nat BSIZE) && has (dflags d1) VRING_DESC_F_NEXT && Bool.eqb (has (dflags d1) VRING_DESC_F_WRITE) (negb w) &&
         (dlen d2 =? 1) && negb (has (dflags d2) VRING_DESC_F_NEXT) && has (dflags d2) VRING_DESC_F_WRITE
      then Some (mkReq w (v_op_sector v !!! j) b k)
      else None
  | _, _, _ => None
  end.

(** The driver's arrays have their length. *)
Record vwf (v : virtst) : Prop := {
  vw_desc : length (v_desc v) = NUM;
  vw_free : length (v_free v) = NUM;
  vw_info : length (v_info_b v) = NUM;
  vw_status : length (v_info_status v) = NUM;
  vw_type : length (v_op_type v) = NUM;
  vw_sector : length (v_op_sector v) = NUM;
  vw_avail : length (v_avail v) = NUM
}.

(** ** The device *)

(** The device has read the entries of the available ring before [dv_seen], and the chains that start at the
    descriptors [dv_taken] are in its hands. *)
Record virtdev : Type := mkVirtdev { dv_seen : Z; dv_taken : gset nat }.

(** The entries the driver has made available and the device has not read. *)
Definition unread (x : virtdev) (v : virtst) : Z := u16 (v_avail_idx v - dv_seen x).
Definition offered (x : virtdev) (v : virtst) (i : nat) : Prop :=
  exists k, 0 <= k < unread x v /\ v_avail v !!! Z.to_nat ((dv_seen x + k) mod Z.of_nat NUM) = Z.of_nat i.

(** The chains the device has, or finds when it reads on. *)
Definition visible (x : virtdev) (v : virtst) (i : nat) : Prop := i ∈ dv_taken x \/ offered x v i.

(** The driver has written the number of the queue, 0, to the register that notifies the device. *)
Definition rung (v : virtst) : Prop := v_mmio v !! VIRTIO_MMIO_QUEUE_NOTIFY = Some 0.

Definition second (v : virtst) (i : nat) : nat := Z.to_nat (dnext (v_desc v !!! i)).

(** The buffer a chain is about. *)
Definition target (v : virtst) (i : nat) : option nat :=
  match daddr (v_desc v !!! i), daddr (v_desc v !!! second v i) with A_ops _, A_data b => Some b | _, _ => None end.

(** The ring has room for one more entry, and the chains of the device are in descriptors that are not free. *)
Record ring_ok (x : virtdev) (v : virtst) : Prop := {
  ri_range : 0 <= v_avail_idx v < 2 ^ 16 /\ 0 <= dv_seen x < 2 ^ 16;
  ri_room : unread x v < Z.of_nat NUM;
  ri_busy : forall i, visible x v i -> v_free v !!! i = false /\ v_free v !!! second v i = false
}.

(** ** Descriptors *)





Section driver.
Context `{Layout} `{Patience}.
Variable me : nat.
Hypothesis Hme : (me < NPROC)%nat.
Local Abbreviation lk := L_vdisk.

(** Some processes have been woken, and the driver's state is [v]. *)
Definition vst (v : virtst) (ps : list proc) (s : kstate) : kstate := set_k_virtio v (set_k_procs ps s).




Lemma vst_id s : vst (k_virtio s) (k_procs s) s = s.
Proof. by destruct s. Qed.







(** ** Submitting a request *)

Section submit.
Variables (b : nat) (w : bool) (i0 i1 i2 : nat) (sector : Z).

(** The driver's state with the request in the available ring. *)
Definition submitted (v : virtst) : virtst := {|
  v_desc_pa := v_desc_pa v; v_avail_pa := v_avail_pa v; v_used_pa := v_used_pa v;
  v_desc :=
    alter (fun _ => mkDesc (A_status i0) 1 VRING_DESC_F_WRITE 0) i2
    (alter (fun _ => mkDesc (A_data b) (Z.of_nat BSIZE) (Z.lor (if w then 0 else VRING_DESC_F_WRITE) VRING_DESC_F_NEXT) (Z.of_nat i2)) i1
    (alter (fun _ => mkDesc (A_ops i0) sizeof_virtio_blk_req VRING_DESC_F_NEXT (Z.of_nat i1)) i0 (v_desc v)));
  v_avail_idx := u16 (v_avail_idx v + 1);
  v_avail := <[Z.to_nat (v_avail_idx v mod Z.of_nat NUM) := Z.of_nat i0]> (v_avail v);
  v_used_dev := v_used_dev v; v_used := v_used v; v_free := v_free v; v_used_idx := v_used_idx v;
  v_info_b := <[i0 := Some b]> (v_info_b v); v_info_status := <[i0 := 0xff]> (v_info_status v);
  v_op_type := <[i0 := if w then VIRTIO_BLK_T_OUT else VIRTIO_BLK_T_IN]> (v_op_type v);
  v_op_sector := <[i0 := sector]> (v_op_sector v);
  v_mmio := <[VIRTIO_MMIO_QUEUE_NOTIFY := 0]> (v_mmio v); v_status_mask := v_status_mask v |}.



Hypothesis Hi : (i0 < NUM)%nat /\ (i1 < NUM)%nat /\ (i2 < NUM)%nat.
Hypothesis Hne : i0 <> i1 /\ i1 <> i2 /\ i0 <> i2.

Local Abbreviation D0 := (mkDesc (A_ops i0) sizeof_virtio_blk_req VRING_DESC_F_NEXT (Z.of_nat i1)).
Local Abbreviation D1 := (mkDesc (A_data b) (Z.of_nat BSIZE) (Z.lor (if w then 0 else VRING_DESC_F_WRITE) VRING_DESC_F_NEXT) (Z.of_nat i2)).
Local Abbreviation D2 := (mkDesc (A_status i0) 1 VRING_DESC_F_WRITE 0).

(** The three descriptors of the request. *)
Definition chained (v : virtst) : Prop :=
  v_desc v !!! i0 = D0 /\ v_desc v !!! i1 = D1 /\ v_desc v !!! i2 = D2.

Lemma chained_submitted v : vwf v -> chained (submitted v).
Proof.
  intros [Hd _ _ _ _ _ _]. destruct Hi as (H0' & H1' & H2'), Hne as (H01 & H12 & H02). unfold chained. simpl. split_and!.
  - rewrite !list_lookup_total_alter_ne by done. by rewrite list_lookup_total_alter_eq by lia.
  - rewrite list_lookup_total_alter_ne by done. by rewrite list_lookup_total_alter_eq by (rewrite length_alter; lia).
  - by rewrite list_lookup_total_alter_eq by (rewrite !length_alter; lia).
Qed.

Lemma decode_chained v :
  chained v -> v_op_type v !!! i0 = (if w then VIRTIO_BLK_T_OUT else VIRTIO_BLK_T_IN) -> v_op_sector v !!! i0 = sector ->
  decode v i0 = Some (mkReq w sector b i0).
Proof.
  intros (E0 & E1 & E2) Ht Hs. unfold decode. rewrite E0. simpl. rewrite Nat2Z.id, E1. simpl. rewrite Nat2Z.id, E2. simpl.
  rewrite Ht, Hs. by destruct w.
Qed.

Lemma decode_submitted v : vwf v -> decode (submitted v) i0 = Some (mkReq w sector b i0).
Proof.
  intros Hw. apply decode_chained; [by apply chained_submitted|..]; destruct Hw, Hi as (? & _); simpl;
    by rewrite list_lookup_total_insert_eq by lia.
Qed.









(** Freeing the chain. *)
Definition taken (v : virtst) : Prop := v_free v !!! i0 = false /\ v_free v !!! i1 = false /\ v_free v !!! i2 = false.

End submit.

(** ** A transfer *)

Section transfer.
Variables (b : nat) (w : bool) (s0 : kstate).
Local Abbreviation B0 := (k_bufs s0 !!! b).
Local Abbreviation bno := (bblockno B0).
Hypothesis Hbno : 0 <= bno < 2 ^ 31.
Local Abbreviation sector := (2 * bno).

(** Request [r], whose chain starts at [i], is with the device: the device has taken it, or finds it in the available ring and has been
    notified; and the interrupt handler will find the buffer it is for. *)
Definition in_flight (x : virtdev) (v : virtst) (i : nat) (r : request) : Prop :=
  (i < NUM)%nat /\ visible x v i /\ (offered x v i -> rung v) /\ v_info_b v !!! i = Some (rq_buf r) /\ decode v i = Some r.

Definition chain (v : virtst) (i : nat) : list nat := [i; second v i; second v (second v i)].

(** What performing a request amounts to, on the block that starts at its sector. *)
Definition performed (r : request) (old new : list Z) (d : diskst) : Prop :=
  dblock d (rq_sector r / 2) = new /\ (rq_write r = true -> new = old).

(** The buffer of this process is not the device's. *)
Definition silent (x : virtdev) (v : virtst) : Prop :=
  (forall i, (i < NUM)%nat -> v_info_b v !!! i <> Some b) /\ forall i, visible x v i -> target v i <> Some b.

(** While this process sleeps: the device and the others keep the driver's arrays in
    shape, make no request for this process's buffer, and leave alone the buffer and the descriptors of this process's request, but
    for the device, which may perform it when it has been notified of it and, once it has, let [disk] be cleared. *)
Record others (x : virtdev) (s : kstate) (x' : virtdev) (s' : kstate) : Prop := {
  ot_handed : handed me s' /\ lock_free lk s';
  ot_wf : vwf (k_virtio s') /\ ring_ok x' (k_virtio s');
  ot_bufs : length (k_bufs s') = length (k_bufs s);
  ot_mine : forall i, v_info_b (k_virtio s') !!! i = Some b <-> v_info_b (k_virtio s) !!! i = Some b;
  ot_only : forall i, visible x' (k_virtio s') i -> target (k_virtio s') i = Some b -> visible x (k_virtio s) i /\ target (k_virtio s) i = Some b;
  ot_idle : silent x (k_virtio s) -> k_bufs s' !!! b = k_bufs s !!! b;
  ot_chain : forall i r j, in_flight x (k_virtio s) i r -> rq_buf r = b -> j ∈ chain (k_virtio s) i ->
    v_desc (k_virtio s') !!! j = v_desc (k_virtio s) !!! j /\ v_free (k_virtio s') !!! j = v_free (k_virtio s) !!! j;
  ot_apart : forall i r j, in_flight x (k_virtio s) i r -> rq_buf r = b -> visible x' (k_virtio s') j -> j <> i ->
    (j ∉ chain (k_virtio s) i) /\ (second (k_virtio s') j ∉ chain (k_virtio s) i);
  ot_header : forall i r, in_flight x (k_virtio s) i r -> rq_buf r = b ->
    v_op_type (k_virtio s') !!! i = v_op_type (k_virtio s) !!! i /\ v_op_sector (k_virtio s') !!! i = v_op_sector (k_virtio s) !!! i;
  ot_device : forall i r, in_flight x (k_virtio s) i r -> rq_buf r = b ->
    exists busy y, k_bufs s' !!! b = set_bdisk busy (set_bdata y (k_bufs s !!! b)) /\
      (busy = true -> visible x' (k_virtio s') i /\ (offered x' (k_virtio s') i -> rung (k_virtio s')) /\ (rq_write r = true -> y = bdata (k_bufs s !!! b))) /\
      (busy = false -> ~ visible x' (k_virtio s') i /\ performed r (bdata (k_bufs s !!! b)) y (k_disk s'))
}.


Record indisk (s : kstate) : Prop := {
  in_crit : critical me lk s;
  in_wf : vwf (k_virtio s);
  in_buf : (b < length (k_bufs s))%nat
}.

(** The chains of the device keep away from three descriptors. *)
Definition away (x : virtdev) (i0 i1 i2 : nat) (v : virtst) : Prop :=
  forall j, visible x v j -> (j ∉ [i0; i1; i2]) /\ (second v j ∉ [i0; i1; i2]).




(** The request has been told to the device; [busy] until it has been performed. *)
Record told (x : virtdev) (i0 i1 i2 : nat) (busy : bool) (s : kstate) : Prop := {
  to_in : indisk s;
  to_chain : chained b w i0 i1 i2 (k_virtio s);
  to_taken : taken i0 i1 i2 (k_virtio s);
  to_type : v_op_type (k_virtio s) !!! i0 = if w then VIRTIO_BLK_T_OUT else VIRTIO_BLK_T_IN;
  to_sector : v_op_sector (k_virtio s) !!! i0 = sector;
  to_info : forall i, (i < NUM)%nat -> v_info_b (k_virtio s) !!! i = Some b <-> i = i0;
  to_seen : busy = true -> visible x (k_virtio s) i0 /\ (offered x (k_virtio s) i0 -> rung (k_virtio s));
  to_gone : busy = false -> ring_ok x (k_virtio s) /\ ~ visible x (k_virtio s) i0 /\ away x i0 i1 i2 (k_virtio s);
  to_only : forall j, visible x (k_virtio s) j -> target (k_virtio s) j = Some b -> j = i0;
  to_buf : exists y, k_bufs s !!! b = set_bdisk busy (set_bdata y B0) /\ (busy = true -> w = true -> y = bdata B0) /\
    (busy = false -> performed (mkReq w sector b i0) (bdata B0) y (k_disk s))
}.

Lemma told_in_flight x i0 i1 i2 s : (i0 < NUM)%nat -> told x i0 i1 i2 true s -> in_flight x (k_virtio s) i0 (mkReq w sector b i0).
Proof.
  intros Hi [Hin Hch _ Ht Hs Hinfo Hsee _ _ _]. destruct (Hsee eq_refl). split_and!; [done|done|done|by apply Hinfo|]. by eapply decode_chained.
Qed.









(** The contract can be kept: from any state in which this process sleeps for the device, the device
    may read the whole ring, perform the request and have nothing left to do, and the scheduler resume the process. *)
Definition served (s : kstate) : kstate :=
  set_k_procs (alter (set_pstate RUNNING) me (k_procs s))
    (set_k_bufs (alter (fun bb => set_bdisk false (set_bdata (if w then bdata bb else dblock (k_disk s) bno) bb)) b (k_bufs s))
    (set_k_disk (if w then mkDisk (<[bno := bdata (k_bufs s !!! b)]> (dblocks (k_disk s))) (dtrace (k_disk s)) else k_disk s) s)).

Definition finished (s : kstate) : virtdev := mkVirtdev (v_avail_idx (k_virtio s)) ∅.

Lemma others_served x i0 i1 i2 s :
  (i0 < NUM)%nat -> parked me s -> lock_free lk s -> told x i0 i1 i2 true s -> 0 <= v_avail_idx (k_virtio s) < 2 ^ 16 ->
  others x s (finished s) (served s) /\ bdisk (k_bufs (served s) !!! b) = false.
Proof.
  intros Hi [Hwl _] Hf Hto Hidx. pose proof (told_in_flight _ _ _ _ _ Hi Hto) as Hfl. destruct Hto as [[_ Hw Hl] _ _ _ _ Hinfo _ _ _ _].
  assert (Hbuf : k_bufs (served s) !!! b = set_bdisk false (set_bdata (if w then bdata (k_bufs s !!! b) else dblock (k_disk s) bno) (k_bufs s !!! b)))
    by (simpl; by rewrite list_lookup_total_alter_eq).
  assert (Hun : unread (finished s) (k_virtio (served s)) = 0) by (unfold unread; simpl; by rewrite Z.sub_diag).
  assert (Hnv : forall j, ~ visible (finished s) (k_virtio (served s)) j) by (intros j [Hj|(k & Hk & _)]; [by apply not_elem_of_empty in Hj|rewrite Hun in Hk; lia]).
  split; [|by rewrite Hbuf]. split; try done.
  - split; [|done]. destruct Hwl. split; [split; try done|]; simpl; [by rewrite length_alter|by rewrite list_lookup_total_alter_eq by lia].
  - split; [done|]. split; [done|rewrite Hun; done|]. intros j Hj. by apply Hnv in Hj.
  - simpl. by rewrite length_alter.
  - intros j Hj. by apply Hnv in Hj.
  - intros [Hno _]. exfalso. apply (Hno i0 Hi), Hinfo; done.
  - intros i r j _ _ Hj. by apply Hnv in Hj.
  - intros i r (Hir & _ & _ & Hbr & Hdr) Hr. rewrite Hr in Hbr. apply Hinfo in Hbr; [|done]. subst i.
    destruct Hfl as (_ & _ & _ & _ & Hd). rewrite Hd in Hdr. injection Hdr as <-. eexists false, _. split_and!; [exact Hbuf|done|]. intros _. split; [apply Hnv|].
    unfold performed. simpl. replace (sector / 2) with bno by (rewrite Z.mul_comm, Z.div_mul; lia). destruct w; [|done].
    unfold dblock. simpl. by rewrite lookup_insert_eq.
Qed.
End transfer.
End driver.




