(* ===== verification/Trap.v ===== *)
(** Traps and system calls: [kernel/sysproc.c], the dispatch of [kernel/syscall.c],
    [kernel/trap.c], [kernel/plic.c], [forkret] of [kernel/proc.c] and [kernel/main.c].

    The path back to user space ends with a jump to [userret] in the trampoline:
    [usertrapret] returns the address it jumps to and the argument it passes. *)
From S2P Require Import Prelude Machine Riscv State Spinlock KString Kalloc Vm Sched Uart Printf Console Block Bio Log Fs Pipe Proc Exec Sysfile Virtio.
From Stdlib Require Import ZArith Lia.
From stdpp Require Import base strings numbers gmap list.
Local Open Scope Z_scope.
Local Open Scope m_scope.

(** ** riscv.h: trap registers *)

Definition upd_hart (f : hart -> hart) : K unit := modify (fun s => set_k_hart (f (k_hart s)) s).
Definition r_sepc : K Z := gets (fun s => sepc (k_hart s)).
Definition w_sepc (x : Z) : K unit := upd_hart (set_sepc x).
Definition r_scause : K Z := gets (fun s => scause (k_hart s)).
Definition r_stval : K Z := gets (fun s => stval (k_hart s)).
Definition r_satp : K Z := gets (fun s => satp (k_hart s)).
Definition r_tp : K Z := gets (fun s => Z.of_nat (tp (k_hart s))).
Definition w_stvec (x : Z) : K unit := upd_hart (set_stvec x).

Definition get_dev : K devst := gets k_dev.
Definition upd_dev (f : devst -> devst) : K unit := modify (fun s => set_k_dev (f (k_dev s)) s).
Definition r_time : K Z := d <- get_dev ;; ret (rtime d).
Definition w_stimecmp (x : Z) : K unit := upd_dev (fun d => set_stimecmp (stimecmp d ++ [u64 x]) d).

(** ** plic.c *)

Definition PLIC_SENABLE (hart : Z) : Z := PLIC + 0x2080 + hart * 0x100.
Definition PLIC_SPRIORITY (hart : Z) : Z := PLIC + 0x201000 + hart * 0x2000.
Definition PLIC_SCLAIM (hart : Z) : Z := PLIC + 0x201004 + hart * 0x2000.

Definition plic_write (a x : Z) : K unit := upd_dev (fun d => set_plic_regs (plic_regs d ++ [(a, u32 x)]) d).

Definition plicinit : K unit :=
  plic_write (PLIC + UART0_IRQ * 4) 1 ;;
  plic_write (PLIC + VIRTIO0_IRQ * 4) 1.

Definition plicinithart : K unit :=
  hart <- cpuid ;;
  plic_write (PLIC_SENABLE (Z.of_nat hart)) (Z.lor (Z.shiftl 1 UART0_IRQ) (Z.shiftl 1 VIRTIO0_IRQ)) ;;
  plic_write (PLIC_SPRIORITY (Z.of_nat hart)) 0.

(** Reading the claim register takes the next pending interrupt, 0 when there is none. *)
Definition plic_claim : K Z :=
  d <- get_dev ;;
  match plic_irqs d with
  | irq :: l => upd_dev (set_plic_irqs l) ;; ret irq
  | [] => ret 0
  end.

Definition plic_complete (irq : Z) : K unit :=
  hart <- cpuid ;;
  plic_write (PLIC_SCLAIM (Z.of_nat hart)) irq.

Section traps.
Context `{Layout} `{Patience} `{Garbage}.

(** ** sysproc.c *)

Definition sys_exit : K Z :=
  n <- argint 0 ;;
  exit n ;;
  ret 0.

Definition sys_getpid : K Z :=
  i <- curproc ;;
  p <- get_proc i ;;
  ret (ppid p).

Definition sys_fork : K Z := fork.

Definition sys_wait : K Z :=
  p <- argaddr 0 ;;
  wait p.

Definition sys_sbrk : K Z :=
  n <- argint 0 ;;
  i <- curproc ;;
  p <- get_proc i ;;
  let addr := psz p in
  r <- growproc n ;;
  if r <? 0 then ret (-1) else ret addr.

Definition sys_sleep : K Z :=
  n <- argint 0 ;;
  let n := if n <? 0 then 0 else n in
  acquire L_ticks ;;
  ticks0 <- gets k_ticks ;;
  while_fuel OutOfFuel (S patience) (fun _ : unit =>
    t <- gets k_ticks ;;
    if u32 (t - ticks0) <? n then
      i <- curproc ;;
      k <- killed i ;;
      if negb (k =? 0) then
        release L_ticks ;;
        ret (inr (-1))
      else
        sleep C_ticks L_ticks ;;
        ret (inl tt)
    else
      release L_ticks ;;
      ret (inr 0)) tt.

Definition sys_kill : K Z :=
  pid <- argint 0 ;;
  kill pid.

Definition sys_uptime : K Z :=
  acquire L_ticks ;;
  xticks <- gets k_ticks ;;
  release L_ticks ;;
  ret xticks.

(** ** syscall.c: dispatch *)

Definition SYS_fork : Z := 1.
Definition SYS_exit : Z := 2.
Definition SYS_wait : Z := 3.
Definition SYS_pipe : Z := 4.
Definition SYS_read : Z := 5.
Definition SYS_kill : Z := 6.
Definition SYS_exec : Z := 7.
Definition SYS_fstat : Z := 8.
Definition SYS_chdir : Z := 9.
Definition SYS_dup : Z := 10.
Definition SYS_getpid : Z := 11.
Definition SYS_sbrk : Z := 12.
Definition SYS_sleep : Z := 13.
Definition SYS_uptime : Z := 14.
Definition SYS_open : Z := 15.
Definition SYS_write : Z := 16.
Definition SYS_mknod : Z := 17.
Definition SYS_unlink : Z := 18.
Definition SYS_link : Z := 19.
Definition SYS_mkdir : Z := 20.
Definition SYS_close : Z := 21.
Definition SYS_ttyraw : Z := 22.

Definition syscalls : list (Z * K Z) :=
  [(SYS_fork, sys_fork); (SYS_exit, sys_exit); (SYS_wait, sys_wait); (SYS_pipe, sys_pipe);
   (SYS_read, sys_read); (SYS_kill, sys_kill); (SYS_exec, sys_exec); (SYS_fstat, sys_fstat);
   (SYS_chdir, sys_chdir); (SYS_dup, sys_dup); (SYS_getpid, sys_getpid); (SYS_sbrk, sys_sbrk);
   (SYS_sleep, sys_sleep); (SYS_uptime, sys_uptime); (SYS_open, sys_open); (SYS_write, sys_write);
   (SYS_mknod, sys_mknod); (SYS_unlink, sys_unlink); (SYS_link, sys_link); (SYS_mkdir, sys_mkdir);
   (SYS_close, sys_close); (SYS_ttyraw, sys_ttyraw)].

(** The entry of the array, [None] where there is none. *)
Definition sys_entry (num : Z) : option (K Z) :=
  snd <$> List.find (fun e => fst e =? num) syscalls.

Definition syscall : K unit :=
  i <- curproc ;;
  p <- get_proc i ;;
  a7 <- get_tf (ptrapframe p) tf_a7 ;;
  let num := s32 a7 in
  match sys_entry num with
  | Some f =>
      r <- f ;;
      p <- get_proc i ;;
      set_tf (ptrapframe p) tf_a0 (u64 r)
  | None =>
      printf (s2b "%d %s: unknown sys call %d" ++ newline) [VInt (ppid p); VStr (Some (cstr (pname p))); VInt num] ;;
      p <- get_proc i ;;
      set_tf (ptrapframe p) tf_a0 (u64 (-1))
  end.

(** ** trap.c *)

Definition trapinit : K unit := initlock L_ticks.

Definition trapinithart : K unit := w_stvec kernelvec_addr.

Definition clockintr : K unit :=
  c <- cpuid ;;
  when (c =? 0)%nat
    (acquire L_ticks ;;
     modify (fun s => set_k_ticks (u32 (k_ticks s + 1)) s) ;;
     wakeup C_ticks ;;
     release L_ticks) ;;
  t <- r_time ;;
  w_stimecmp (t + 1000000).

Definition devintr : K Z :=
  scause <- r_scause ;;
  if scause =? 0x8000000000000009 then
    irq <- plic_claim ;;
    (if irq =? UART0_IRQ then uartintr
     else if irq =? VIRTIO0_IRQ then virtio_disk_intr
     else if negb (irq =? 0) then printf (s2b "unexpected interrupt irq=%d" ++ newline) [VInt irq] ;; ret tt
     else ret tt) ;;
    when (negb (irq =? 0)) (plic_complete irq) ;;
    ret 1
  else if scause =? 0x8000000000000005 then
    clockintr ;;
    ret 2
  else ret 0.

Definition usertrapret : K (Z * Z) :=
  i <- curproc ;;
  intr_off ;;
  w_stvec (TRAMPOLINE + uservec_off) ;;
  p <- get_proc i ;;
  x <- r_satp ;;
  set_tf (ptrapframe p) tf_kernel_satp x ;;
  set_tf (ptrapframe p) tf_kernel_sp (u64 (pkstack p + PGSIZE)) ;;
  set_tf (ptrapframe p) tf_kernel_trap usertrap_addr ;;
  x <- r_tp ;;
  set_tf (ptrapframe p) tf_kernel_hartid x ;;
  x <- r_sstatus ;;
  w_sstatus (Z.lor (Z.land x (Z.lnot SSTATUS_SPP)) SSTATUS_SPIE) ;;
  epc <- get_tf (ptrapframe p) tf_epc ;;
  w_sepc epc ;;
  ret (TRAMPOLINE + userret_off, MAKE_SATP (ppagetable p)).

Definition usertrap : K (Z * Z) :=
  x <- r_sstatus ;;
  if has x SSTATUS_SPP then panic "usertrap: not from user mode" else
  w_stvec kernelvec_addr ;;
  i <- curproc ;;
  p <- get_proc i ;;
  x <- r_sepc ;;
  set_tf (ptrapframe p) tf_epc x ;;
  cause <- r_scause ;;
  which_dev <- (if cause =? 8 then
      k <- killed i ;;
      when (negb (k =? 0)) (exit (-1)) ;;
      epc <- get_tf (ptrapframe p) tf_epc ;;
      set_tf (ptrapframe p) tf_epc (u64 (epc + 4)) ;;
      intr_on ;;
      syscall ;;
      ret 0
    else
      w <- devintr ;;
      when (w =? 0)
        (cause <- r_scause ;;
         printf (s2b "usertrap(): unexpected scause 0x%lx pid=%d" ++ newline) [VInt cause; VInt (ppid p)] ;;
         x <- r_sepc ;;
         v <- r_stval ;;
         printf (s2b "            sepc=0x%lx stval=0x%lx" ++ newline) [VInt x; VInt v] ;;
         setkilled i) ;;
      ret w) ;;
  k <- killed i ;;
  when (negb (k =? 0)) (exit (-1)) ;;
  when (which_dev =? 2) yield ;;
  usertrapret.

Definition kerneltrap : K unit :=
  x <- r_sepc ;;
  st <- r_sstatus ;;
  cause <- r_scause ;;
  if negb (has st SSTATUS_SPP) then panic "kerneltrap: not from supervisor mode" else
  on <- intr_get ;;
  if on : bool then panic "kerneltrap: interrupts enabled" else
  which_dev <- devintr ;;
  if which_dev =? 0 then
    x <- r_sepc ;;
    v <- r_stval ;;
    printf (s2b "scause=0x%lx sepc=0x%lx stval=0x%lx" ++ newline) [VInt cause; VInt x; VInt v] ;;
    panic "kerneltrap"
  else
  (if which_dev =? 2 then
     p <- myproc ;;
     match p with Some _ => yield | None => ret tt end
   else ret tt) ;;
  w_sepc x ;;
  w_sstatus st.

(** ** proc.c: the first switch to a process *)

Definition forkret : K (Z * Z) :=
  i <- curproc ;;
  release (L_proc i) ;;
  first <- gets k_first ;;
  when first
    (fsinit ROOTDEV ;;
     modify (set_k_first false)) ;;
  usertrapret.

(** ** main.c *)

Definition main : K unit :=
  c <- cpuid ;;
  (if (c =? 0)%nat then
     consoleinit ;;
     printfinit ;;
     printf newline [] ;;
     printf (s2b "xv6 kernel is booting" ++ newline) [] ;;
     printf newline [] ;;
     kinit ;;
     kvminit ;;
     kvminithart ;;
     procinit ;;
     trapinit ;;
     trapinithart ;;
     plicinit ;;
     plicinithart ;;
     binit ;;
     iinit ;;
     fileinit ;;
     virtio_disk_init ;;
     userinit ;;
     upd_dev (set_started true)
   else
     d <- get_dev ;;
     if negb (started d) then spin else
     c <- cpuid ;;
     printf (s2b "hart %d starting" ++ newline) [VInt (Z.of_nat c)] ;;
     kvminithart ;;
     trapinithart ;;
     plicinithart) ;;
  scheduler.
End traps.
