(* ===== verification/Hart.v ===== *)
(** What is below C: the assembly of [kernel/entry.S], [trampoline.S], [kernelvec.S] and [swtch.S], and [kernel/start.c], which runs in machine mode.

    A hart has registers, control and status registers, a privilege mode and the memory; the
    instructions are those the sources use.  Addresses go through [translate], the address translation of the hardware for a value of
    [satp].  A call names the address it returns to, that of the instruction after it.  What a control register holds after a write is up to the hardware ([warl]): a field may be hard-wired. *)
From S2P Require Import Prelude Machine Riscv.
From Stdlib Require Import ZArith Lia.
From stdpp Require Import base strings numbers gmap list.
Local Open Scope Z_scope.
Local Open Scope m_scope.

Module Hart.

Inductive reg : Type :=
| ra | sp | gp | tp | t0 | t1 | t2 | s0 | s1 | a0 | a1 | a2 | a3 | a4 | a5 | a6 | a7
| s2 | s3 | s4 | s5 | s6 | s7 | s8 | s9 | s10 | s11 | t3 | t4 | t5 | t6.
#[export] Instance reg_eq_dec : EqDecision reg.
Proof. solve_decision. Defined.

Inductive csr : Type :=
| mhartid | mstatus | mepc | medeleg | mideleg | mie | menvcfg | mcounteren | pmpcfg0 | pmpaddr0 | stimecmp | time | satp | sscratch | sepc.
#[export] Instance csr_eq_dec : EqDecision csr.
Proof. solve_decision. Defined.

Inductive mode : Type := User | Supervisor | Machine.

Class Hardware := {
  warl : csr -> Z -> Z;
  translate : Z -> Z -> Z
}.

Record hart : Type := mkHart {
  regs : reg -> Z;
  csrs : csr -> Z;
  hmem : mem;
  priv : mode;
  pc : Z
}.

Definition fset {A} `{EqDecision A} (k : A) (v : Z) (f : A -> Z) : A -> Z := fun x => if decide (x = k) then v else f x.
Definition set_reg (r : reg) (v : Z) (h : hart) : hart := mkHart (fset r v (regs h)) (csrs h) (hmem h) (priv h) (pc h).
Definition set_csr (c : csr) (v : Z) (h : hart) : hart := mkHart (regs h) (fset c v (csrs h)) (hmem h) (priv h) (pc h).
Definition set_hmem (m : mem) (h : hart) : hart := mkHart (regs h) (csrs h) m (priv h) (pc h).
Definition set_priv (m : mode) (h : hart) : hart := mkHart (regs h) (csrs h) (hmem h) m (pc h).
Definition set_pc (a : Z) (h : hart) : hart := mkHart (regs h) (csrs h) (hmem h) (priv h) a.

Inductive instr : Type :=
| Sd (rs : reg) (off : Z) (base : reg)
| Ld (rd : reg) (off : Z) (base : reg)
| Li (rd : reg) (imm : Z)
| La (rd : reg) (addr : Z)
| Addi (rd rs : reg) (imm : Z)
| Add (rd rs rt : reg)
| Mul (rd rs rt : reg)
| Csrw (c : csr) (rs : reg)
| Csrr (rd : reg) (c : csr)
| Sfence
| Jr (rs : reg)
| Call (addr ret : Z)
| Sret
| Mret.

(** [mstatus] after [sret] and [mret]: the interrupt enable is what it was before the trap, the previous mode is the least. *)
Definition pop_status (ie pie : Z) (x : Z) : Z := Z.setbit (if Z.testbit x pie then Z.setbit x ie else Z.clearbit x ie) pie.
Definition sret (h : hart) : hart :=
  let x := csrs h mstatus in
  set_pc (csrs h sepc) (set_priv (if Z.testbit x 8 then Supervisor else User) (set_csr mstatus (Z.clearbit (pop_status 1 5 x) 8) h)).
Definition mret (h : hart) : hart :=
  let x := csrs h mstatus in
  let mpp := Z.land (Z.shiftr x 11) 3 in
  set_pc (csrs h mepc) (set_priv (if mpp =? 3 then Machine else if mpp =? 1 then Supervisor else User)
    (set_csr mstatus (Z.clearbit (Z.clearbit (pop_status 3 7 x) 11) 12) h)).

Section hardware.
Context `{Hardware}.

Definition vaddr (h : hart) (off : Z) (base : reg) : Z := translate (csrs h satp) (u64 (regs h base + off)).

Definition write_csr (c : csr) (v : Z) (h : hart) : hart := set_csr c (warl c (u64 v)) h.

Definition step (i : instr) (h : hart) : hart :=
  match i with
  | Sd rs off base => set_hmem (st64 (hmem h) (vaddr h off base) (regs h rs)) h
  | Ld rd off base => set_reg rd (ld64 (hmem h) (vaddr h off base)) h
  | Li rd imm => set_reg rd (u64 imm) h
  | La rd addr => set_reg rd (u64 addr) h
  | Addi rd rs imm => set_reg rd (u64 (regs h rs + imm)) h
  | Add rd rs rt => set_reg rd (u64 (regs h rs + regs h rt)) h
  | Mul rd rs rt => set_reg rd (u64 (regs h rs * regs h rt)) h
  | Csrw c rs => write_csr c (regs h rs) h
  | Csrr rd c => set_reg rd (csrs h c) h
  | Sfence => h
  | Jr rs => set_pc (regs h rs) h
  | Call addr ret => set_pc addr (set_reg ra (u64 ret) h)
  | Sret => sret h
  | Mret => mret h
  end.

Definition run (l : list instr) (h : hart) : hart := foldl (fun h i => step i h) h l.

(** ** trampoline.S *)

Definition uservec : list instr :=
  [ Csrw sscratch a0;
    Li a0 TRAPFRAME;
    Sd ra 40 a0; Sd sp 48 a0; Sd gp 56 a0; Sd tp 64 a0; Sd t0 72 a0; Sd t1 80 a0; Sd t2 88 a0;
    Sd s0 96 a0; Sd s1 104 a0;
    Sd a1 120 a0; Sd a2 128 a0; Sd a3 136 a0; Sd a4 144 a0; Sd a5 152 a0; Sd a6 160 a0; Sd a7 168 a0;
    Sd s2 176 a0; Sd s3 184 a0; Sd s4 192 a0; Sd s5 200 a0; Sd s6 208 a0; Sd s7 216 a0; Sd s8 224 a0;
    Sd s9 232 a0; Sd s10 240 a0; Sd s11 248 a0;
    Sd t3 256 a0; Sd t4 264 a0; Sd t5 272 a0; Sd t6 280 a0;
    Csrr t0 sscratch;
    Sd t0 112 a0;
    Ld sp 8 a0;
    Ld tp 32 a0;
    Ld t0 16 a0;
    Ld t1 0 a0;
    Sfence;
    Csrw satp t1;
    Sfence;
    Jr t0 ].

Definition userret : list instr :=
  [ Sfence;
    Csrw satp a0;
    Sfence;
    Li a0 TRAPFRAME;
    Ld ra 40 a0; Ld sp 48 a0; Ld gp 56 a0; Ld tp 64 a0; Ld t0 72 a0; Ld t1 80 a0; Ld t2 88 a0;
    Ld s0 96 a0; Ld s1 104 a0;
    Ld a1 120 a0; Ld a2 128 a0; Ld a3 136 a0; Ld a4 144 a0; Ld a5 152 a0; Ld a6 160 a0; Ld a7 168 a0;
    Ld s2 176 a0; Ld s3 184 a0; Ld s4 192 a0; Ld s5 200 a0; Ld s6 208 a0; Ld s7 216 a0; Ld s8 224 a0;
    Ld s9 232 a0; Ld s10 240 a0; Ld s11 248 a0;
    Ld t3 256 a0; Ld t4 264 a0; Ld t5 272 a0; Ld t6 280 a0;
    Ld a0 112 a0;
    Sret ].

(** ** kernelvec.S: up to the call of [kerneltrap], and from its return to [back] *)

Definition kernelvec (kerneltrap back : Z) : list instr :=
  [ Addi sp sp (-256);
    Sd ra 0 sp; Sd sp 8 sp; Sd gp 16 sp; Sd tp 24 sp; Sd t0 32 sp; Sd t1 40 sp; Sd t2 48 sp;
    Sd a0 72 sp; Sd a1 80 sp; Sd a2 88 sp; Sd a3 96 sp; Sd a4 104 sp; Sd a5 112 sp; Sd a6 120 sp; Sd a7 128 sp;
    Sd t3 216 sp; Sd t4 224 sp; Sd t5 232 sp; Sd t6 240 sp;
    Call kerneltrap back ].

Definition kernelvec_return : list instr :=
  [ Ld ra 0 sp; Ld sp 8 sp; Ld gp 16 sp; Ld t0 32 sp; Ld t1 40 sp; Ld t2 48 sp;
    Ld a0 72 sp; Ld a1 80 sp; Ld a2 88 sp; Ld a3 96 sp; Ld a4 104 sp; Ld a5 112 sp; Ld a6 120 sp; Ld a7 128 sp;
    Ld t3 216 sp; Ld t4 224 sp; Ld t5 232 sp; Ld t6 240 sp;
    Addi sp sp 256;
    Sret ].

(** ** swtch.S *)

Definition swtch : list instr :=
  [ Sd ra 0 a0; Sd sp 8 a0; Sd s0 16 a0; Sd s1 24 a0; Sd s2 32 a0; Sd s3 40 a0; Sd s4 48 a0;
    Sd s5 56 a0; Sd s6 64 a0; Sd s7 72 a0; Sd s8 80 a0; Sd s9 88 a0; Sd s10 96 a0; Sd s11 104 a0;
    Ld ra 0 a1; Ld sp 8 a1; Ld s0 16 a1; Ld s1 24 a1; Ld s2 32 a1; Ld s3 40 a1; Ld s4 48 a1;
    Ld s5 56 a1; Ld s6 64 a1; Ld s7 72 a1; Ld s8 80 a1; Ld s9 88 a1; Ld s10 96 a1; Ld s11 104 a1;
    Jr ra ].

(** ** entry.S *)

Definition entry (stack0 start spin : Z) : list instr :=
  [ La sp stack0;
    Li a0 (1024 * 4);
    Csrr a1 mhartid;
    Addi a1 a1 1;
    Mul a0 a0 a1;
    Add sp sp a0;
    Call start spin ].

(** ** start.c *)

Definition Boot (A : Type) : Type := M unit hart A.

Definition r_mhartid : Boot Z := gets (fun h => csrs h mhartid).
Definition r_mstatus : Boot Z := gets (fun h => csrs h mstatus).
Definition w_mstatus (x : Z) : Boot unit := modify (write_csr mstatus x).
Definition w_mepc (x : Z) : Boot unit := modify (write_csr mepc x).
(** [sie] shows the bits of [mie] that are delegated. *)
Definition r_sie : Boot Z := gets (fun h => Z.land (csrs h mie) (csrs h mideleg)).
Definition w_sie (x : Z) : Boot unit := modify (fun h => write_csr mie (Z.lor (Z.land (csrs h mie) (Z.lnot (csrs h mideleg))) (Z.land x (csrs h mideleg))) h).
Definition r_mie : Boot Z := gets (fun h => csrs h mie).
Definition w_mie (x : Z) : Boot unit := modify (write_csr mie x).
Definition w_medeleg (x : Z) : Boot unit := modify (write_csr medeleg x).
Definition w_mideleg (x : Z) : Boot unit := modify (write_csr mideleg x).
Definition w_stimecmp (x : Z) : Boot unit := modify (write_csr stimecmp x).
Definition r_menvcfg : Boot Z := gets (fun h => csrs h menvcfg).
Definition w_menvcfg (x : Z) : Boot unit := modify (write_csr menvcfg x).
Definition w_pmpcfg0 (x : Z) : Boot unit := modify (write_csr pmpcfg0 x).
Definition w_pmpaddr0 (x : Z) : Boot unit := modify (write_csr pmpaddr0 x).
Definition w_satp (x : Z) : Boot unit := modify (write_csr satp x).
Definition r_mcounteren : Boot Z := gets (fun h => csrs h mcounteren).
Definition w_mcounteren (x : Z) : Boot unit := modify (write_csr mcounteren x).
Definition r_time : Boot Z := gets (fun h => csrs h time).
Definition w_tp (x : Z) : Boot unit := modify (set_reg tp (u64 x)).

Definition MSTATUS_MPP_MASK : Z := Z.shiftl 3 11.
Definition MSTATUS_MPP_S : Z := Z.shiftl 1 11.
Definition SIE_SEIE : Z := Z.shiftl 1 9.
Definition SIE_STIE : Z := Z.shiftl 1 5.
Definition SIE_SSIE : Z := Z.shiftl 1 1.
Definition MIE_STIE : Z := Z.shiftl 1 5.

Definition timerinit : Boot unit :=
  x <- r_mie ;;
  w_mie (Z.lor x MIE_STIE) ;;
  x <- r_menvcfg ;;
  w_menvcfg (Z.lor x (Z.shiftl 1 63)) ;;
  x <- r_mcounteren ;;
  w_mcounteren (Z.lor x 2) ;;
  x <- r_time ;;
  w_stimecmp (x + 1000000).

(** [start] never returns, so the stack frame the compiler gives it stays below the stack of [main]; [enter] is the compiler's code at the entry of [start]. *)
Definition start (enter : hart -> hart) (main : Z) : Boot unit :=
  modify enter ;;
  x <- r_mstatus ;;
  let x := Z.land x (Z.lnot MSTATUS_MPP_MASK) in
  let x := Z.lor x MSTATUS_MPP_S in
  w_mstatus x ;;
  w_mepc main ;;
  w_satp 0 ;;
  w_medeleg 0xffff ;;
  w_mideleg 0xffff ;;
  x <- r_sie ;;
  w_sie (Z.lor (Z.lor (Z.lor x SIE_SEIE) SIE_STIE) SIE_SSIE) ;;
  w_pmpaddr0 0x3fffffffffffff ;;
  w_pmpcfg0 0xf ;;
  timerinit ;;
  id <- r_mhartid ;;
  w_tp (s32 id) ;;
  modify mret.

(** ** Saving and restoring *)

Definition saves (l : list (reg * Z)) (b : reg) : list instr := (fun ro => Sd ro.1 ro.2 b) <$> l.
Definition loads (l : list (reg * Z)) (b : reg) : list instr := (fun ro => Ld ro.1 ro.2 b) <$> l.

(** The memory after the registers [l] have been stored at [P]. *)
Definition stored (P : Z) (rs : reg -> Z) (l : list (reg * Z)) (m : mem) : mem := foldl (fun m ro => st64 m (P + ro.2) (rs ro.1)) m l.

(** Where [l] stores a register. *)
Fixpoint slot (l : list (reg * Z)) (r : reg) : option Z :=
  match l with
  | [] => None
  | (r', o) :: l' => if decide (r = r') then Some o else slot l' r
  end.

(** The slots are words that do not overlap, within [n] bytes. *)
Fixpoint separate (n : Z) (l : list (reg * Z)) : bool :=
  match l with
  | [] => true
  | (r, o) :: l' => (0 <=? o) && (o + 8 <=? n) && forallb (fun ro => ((o + 8 <=? ro.2) || (ro.2 + 8 <=? o)) && negb (bool_decide (ro.1 = r))) l' && separate n l'
  end.

Lemma run_app l l' h : run (l ++ l') h = run l' (run l h).
Proof. apply foldl_app. Qed.

Lemma separate_cons n r o l : separate n ((r, o) :: l) = true ->
  0 <= o /\ o + 8 <= n /\ (forall ro, ro ∈ l -> (o + 8 <= ro.2 \/ ro.2 + 8 <= o) /\ ro.1 <> r) /\ separate n l = true.
Proof.
  simpl. rewrite !andb_true_iff, !Z.leb_le, forallb_forall. intros [[[H1 H2] H3] H4]. split_and!; try done.
  intros ro Hro. specialize (H3 ro ltac:(by apply list_elem_of_In)). apply andb_true_iff in H3 as [H3 H5]. apply orb_true_iff in H3. rewrite !Z.leb_le in H3.
  split; [lia|]. apply negb_true_iff, bool_decide_eq_false in H5. done.
Qed.

Lemma slot_in l r o : slot l r = Some o -> (r, o) ∈ l.
Proof.
  induction l as [|[r' o'] l IH]; simpl; [done|]. case_decide as Hd; [intros [= <-]; subst; left|]. intros Hs. right. by apply IH.
Qed.

Lemma slot_none l r : slot l r = None -> forall ro, ro ∈ l -> ro.1 <> r.
Proof.
  induction l as [|[r' o'] l IH]; simpl; [intros _ ro Hro; by apply not_elem_of_nil in Hro|]. case_decide as Hd; [done|]. intros Hs ro [->|Hro]%elem_of_cons; [simpl; congruence|by apply IH].
Qed.

Lemma stored_out P rs l a m : (forall ro, ro ∈ l -> a < P + ro.2 \/ P + ro.2 + 8 <= a) -> ld8 (stored P rs l m) a = ld8 m a.
Proof.
  revert m. induction l as [|ro l IH]; intros m Hl; [done|]. unfold stored in *. simpl. rewrite IH by (intros x Hx; apply Hl; by right). apply ld8_st64_disjoint. apply Hl. left.
Qed.

Lemma stored_word P rs l a m : (forall ro, ro ∈ l -> a + 8 <= P + ro.2 \/ P + ro.2 + 8 <= a) -> ld64 (stored P rs l m) a = ld64 m a.
Proof. intros Hl. apply ld64_ext. intros x Hx. apply stored_out. intros ro Hro. specialize (Hl ro Hro). lia. Qed.

Lemma stored_get n P rs l r o m : separate n l = true -> slot l r = Some o -> ld64 (stored P rs l m) (P + o) = u64 (rs r).
Proof.
  revert m. induction l as [|[r' o'] l IH]; intros m Hs Hr; [done|]. apply separate_cons in Hs as (H1 & H2 & Hd & Hs). unfold stored in *. simpl in *. case_decide as Hdec.
  - simplify_eq. etrans; [apply (stored_word P rs l)|apply ld64_st64_same]. intros ro Hro. destruct (Hd ro Hro) as [? _]. lia.
  - by apply IH.
Qed.

(** The words of a structure of [n] bytes at [base] are those at [P] in memory. *)
Definition mapped (s base n P : Z) : Prop := forall o, 0 <= o < n -> translate s (u64 (base + o)) = P + o.

Lemma separate_in n l ro : separate n l = true -> ro ∈ l -> 0 <= ro.2 /\ ro.2 + 8 <= n.
Proof.
  induction l as [|[r o] l IH]; intros Hs Hro; [by apply not_elem_of_nil in Hro|]. apply separate_cons in Hs as (H1 & H2 & _ & Hs). apply elem_of_cons in Hro as [->|Hro]; [done|by apply IH].
Qed.

Lemma run_saves n P l b h : separate n l = true -> mapped (csrs h satp) (regs h b) n P ->
  run (saves l b) h = set_hmem (stored P (regs h) l (hmem h)) h.
Proof.
  intros Hs Hm. assert (Hg : forall l' m, (forall ro, ro ∈ l' -> ro ∈ l) -> run (saves l' b) (set_hmem m h) = set_hmem (stored P (regs h) l' m) h).
  { induction l' as [|ro l' IH]; intros m Hin; [done|]. destruct (separate_in n l ro Hs (Hin ro ltac:(left))) as [H1 H2].
    unfold run, saves, stored in *. cbn [fmap list_fmap foldl]. unfold step at 2. unfold vaddr. cbn [csrs regs hmem set_hmem]. rewrite Hm by lia.
    apply (IH (st64 m (P + ro.2) (regs h ro.1))). intros x Hx. apply Hin. by right. }
  rewrite <- (Hg l (hmem h)) by done. by destruct h.
Qed.

(** What the loads of [l] leave: the other registers and all else are as they were. *)
Record loaded (P : Z) (l : list (reg * Z)) (h h' : hart) : Prop := {
  lo_regs : forall r, regs h' r = match slot l r with Some o => ld64 (hmem h) (P + o) | None => regs h r end;
  lo_csrs : csrs h' = csrs h;
  lo_mem : hmem h' = hmem h;
  lo_priv : priv h' = priv h;
  lo_pc : pc h' = pc h
}.

Lemma loaded_trans P l l' h h1 h2 : (forall ro, ro ∈ l' -> slot l ro.1 = None) -> loaded P l h h1 -> loaded P l' h1 h2 -> loaded P (l ++ l') h h2.
Proof.
  intros Hd [R1 C1 M1 P1 K1] [R2 C2 M2 P2 K2]. split; [|congruence..]. intros r. rewrite R2, M1, R1.
  assert (Hs : slot (l ++ l') r = match slot l r with Some o => Some o | None => slot l' r end).
  { clear. induction l as [|[r' o] l IH]; simpl; [done|]. by case_decide. }
  rewrite Hs. destruct (slot l' r) as [o'|] eqn:E'; [|by destruct (slot l r)]. pose proof (Hd _ (slot_in _ _ _ E')) as Hn. simpl in Hn. by rewrite Hn.
Qed.

(** The base may be among the registers loaded, if it is loaded with what it is. *)
Lemma run_loads n P l b h : separate n l = true -> mapped (csrs h satp) (regs h b) n P -> (forall o, slot l b = Some o -> ld64 (hmem h) (P + o) = regs h b) ->
  loaded P l h (run (loads l b) h).
Proof.
  revert h. induction l as [|[r o] l IH]; intros h Hs Hm Hb; [by split|]. apply separate_cons in Hs as (H1 & H2 & Hd & Hs).
  set (h1 := step (Ld r o b) h). assert (Hh1 : loaded P [(r, o)] h h1).
  { unfold h1. cbn [step]. unfold vaddr. rewrite Hm by lia. split; try done. intros r'. simpl. unfold fset. by case_decide. }
  assert (Hbase : regs h1 b = regs h b).
  { rewrite (lo_regs _ _ _ _ Hh1). simpl in Hb |- *. case_decide as Hdec; [by apply Hb|done]. }
  change (run (loads ((r, o) :: l) b) h) with (run (loads l b) h1). change ((r, o) :: l) with ([(r, o)] ++ l). eapply loaded_trans; [|exact Hh1|apply IH].
  - intros ro Hro. simpl. destruct (Hd ro Hro) as [_ Hne]. by rewrite decide_False.
  - done.
  - by rewrite Hbase, (lo_csrs _ _ _ _ Hh1).
  - rewrite Hbase, (lo_mem _ _ _ _ Hh1). intros o' Ho'. apply Hb. simpl. rewrite decide_False; [done|]. intros <-. destruct (Hd _ (slot_in _ _ _ Ho')) as [_ Hne]. done.
Qed.

(** *** The trap frame *)

(** [struct trapframe]: the offset of the copy of a register. *)
Definition tf_slot (r : reg) : Z :=
  match r with
  | ra => 40 | sp => 48 | gp => 56 | tp => 64 | t0 => 72 | t1 => 80 | t2 => 88 | s0 => 96 | s1 => 104
  | a0 => 112 | a1 => 120 | a2 => 128 | a3 => 136 | a4 => 144 | a5 => 152 | a6 => 160 | a7 => 168
  | s2 => 176 | s3 => 184 | s4 => 192 | s5 => 200 | s6 => 208 | s7 => 216 | s8 => 224 | s9 => 232 | s10 => 240 | s11 => 248
  | t3 => 256 | t4 => 264 | t5 => 272 | t6 => 280
  end.

Definition slots (l : list reg) : list (reg * Z) := (fun r => (r, tf_slot r)) <$> l.
(** In the order of the assembly, [a0] last. *)
Definition but_a0 : list reg := [ra; sp; gp; tp; t0; t1; t2; s0; s1; a1; a2; a3; a4; a5; a6; a7; s2; s3; s4; s5; s6; s7; s8; s9; s10; s11; t3; t4; t5; t6].
Definition user_regs : list reg := but_a0 ++ [a0].

Lemma user_slot r : slot (slots user_regs) r = Some (tf_slot r).
Proof. by destruct r. Qed.

Lemma stored_ext P rs rs' l m : (forall ro, ro ∈ l -> rs ro.1 = rs' ro.1) -> stored P rs l m = stored P rs' l m.
Proof.
  revert m. induction l as [|ro l IH]; intros m Hl; [done|]. unfold stored in *. simpl. rewrite (Hl ro ltac:(left)). apply IH. intros x Hx. apply Hl. by right.
Qed.

Lemma stored_kernel P rs m o : 0 <= o -> o + 8 <= 40 -> ld64 (stored P rs (slots user_regs) m) (P + o) = ld64 m (P + o).
Proof.
  intros H1 H2. apply stored_word. intros ro Hro. apply list_elem_of_fmap in Hro as (r & -> & _). simpl. destruct r; simpl; lia.
Qed.

(** A hart whose registers hold 64 bits. *)
Definition in_range (h : hart) : Prop := forall r, 0 <= regs h r < 2 ^ 64.

Lemma uservec_run h P : mapped (csrs h satp) TRAPFRAME 288 P -> warl sscratch (regs h a0) = regs h a0 -> in_range h ->
  let m := stored P (regs h) (slots user_regs) (hmem h) in let h1 := run uservec h in
  hmem h1 = m /\ pc h1 = ld64 (hmem h) (P + 16) /\ regs h1 sp = ld64 (hmem h) (P + 8) /\ regs h1 tp = ld64 (hmem h) (P + 32) /\
  csrs h1 satp = warl satp (u64 (ld64 (hmem h) (P + 0))) /\ csrs h1 sepc = csrs h sepc /\ priv h1 = priv h.
Proof.
  intros Hm Hw Hr m. set (h' := set_reg a0 TRAPFRAME (set_csr sscratch (regs h a0) h)).
  assert (E1 : run [Csrw sscratch a0; Li a0 TRAPFRAME] h = h').
  { unfold run. cbn [foldl step]. unfold write_csr. rewrite (wrap_small 64 (regs h a0)) by apply Hr. by rewrite Hw. }
  change uservec with ([Csrw sscratch a0; Li a0 TRAPFRAME] ++ saves (slots but_a0) a0 ++ [Csrr t0 sscratch; Sd t0 112 a0; Ld sp 8 a0; Ld tp 32 a0; Ld t0 16 a0; Ld t1 0 a0; Sfence; Csrw satp t1; Sfence; Jr t0]).
  rewrite !run_app, E1, (run_saves 288 P (slots but_a0) a0 h') by done.
  assert (Hm1 : forall m0, st64 (stored P (regs h') (slots but_a0) m0) (P + 112) (regs h a0) = stored P (regs h) (slots user_regs) m0).
  { reflexivity. }
  assert (Ht : forall o, 0 <= o < 288 -> translate (csrs h satp) (u64 (TRAPFRAME + o)) = P + o) by exact Hm.
  assert (HM : hmem h' = hmem h) by done. rewrite HM. specialize (Hm1 (hmem h)). fold m in Hm1. set (M0 := stored P (regs h') (slots but_a0) (hmem h)) in *.
  set (last := [Csrr t0 sscratch; Sd t0 112 a0; Ld sp 8 a0; Ld tp 32 a0; Ld t0 16 a0; Ld t1 0 a0; Sfence; Csrw satp t1; Sfence; Jr t0]).
  assert (Hk : forall o, 0 <= o -> o + 8 <= 40 -> ld64 (st64 M0 (translate (csrs h satp) (u64 (TRAPFRAME + 112))) (regs h a0)) (translate (csrs h satp) (u64 (TRAPFRAME + o))) = ld64 (hmem h) (P + o)).
  { intros o H1 H2. rewrite !Ht, Hm1 by lia. by apply stored_kernel. }
  split_and!.
  - change (st64 M0 (translate (csrs h satp) (u64 (TRAPFRAME + 112))) (regs h a0) = m). by rewrite Ht.
  - exact (Hk 16 ltac:(lia) ltac:(lia)).
  - exact (Hk 8 ltac:(lia) ltac:(lia)).
  - exact (Hk 32 ltac:(lia) ltac:(lia)).
  - rewrite <- (Hk 0) by lia. reflexivity.
  - reflexivity.
  - reflexivity.
Qed.

Lemma userret_run h P us : regs h a0 = us -> 0 <= us < 2 ^ 64 -> warl satp us = us -> mapped us TRAPFRAME 288 P ->
  let h1 := run userret h in
  (forall r, regs h1 r = ld64 (hmem h) (P + tf_slot r)) /\ csrs h1 satp = us /\ hmem h1 = hmem h /\ pc h1 = csrs h sepc /\ priv h1 = (if Z.testbit (csrs h mstatus) 8 then Supervisor else User).
Proof.
  intros Ha Hu Hw Hm. set (h' := set_reg a0 TRAPFRAME (set_csr satp us h)).
  assert (E1 : run [Sfence; Csrw satp a0; Sfence; Li a0 TRAPFRAME] h = h').
  { unfold run. cbn [foldl step]. unfold write_csr. by rewrite Ha, (wrap_small 64 us), Hw. }
  change userret with ([Sfence; Csrw satp a0; Sfence; Li a0 TRAPFRAME] ++ loads (slots but_a0) a0 ++ [Ld a0 112 a0; Sret]). rewrite !run_app, E1.
  pose proof (run_loads 288 P (slots but_a0) a0 h' eq_refl Hm ltac:(done)) as Hl. set (h2 := run (loads (slots but_a0) a0) h') in *.
  assert (Hb : regs h2 a0 = TRAPFRAME) by (by rewrite (lo_regs _ _ _ _ Hl)). assert (Hs : csrs h2 satp = us) by (by rewrite (lo_csrs _ _ _ _ Hl)).
  split_and!.
  - intros r. change (fset a0 (ld64 (hmem h2) (translate (csrs h2 satp) (u64 (regs h2 a0 + 112)))) (regs h2) r = ld64 (hmem h) (P + tf_slot r)). rewrite Hb, Hs, (Hm 112), (lo_mem _ _ _ _ Hl) by lia.
    unfold fset. case_decide as Hd; [by subst r|]. rewrite (lo_regs _ _ _ _ Hl). by destruct r.
  - exact Hs.
  - exact (lo_mem _ _ _ _ Hl).
  - change (csrs h2 sepc = csrs h sepc). by rewrite (lo_csrs _ _ _ _ Hl).
  - change ((if Z.testbit (csrs h2 mstatus) 8 then Supervisor else User) = if Z.testbit (csrs h mstatus) 8 then Supervisor else User). by rewrite (lo_csrs _ _ _ _ Hl).
Qed.

(** *** Contexts *)

(** [struct context], in the order of its fields. *)
Definition context : list (reg * Z) := [(ra, 0); (sp, 8); (s0, 16); (s1, 24); (s2, 32); (s3, 40); (s4, 48); (s5, 56); (s6, 64); (s7, 72); (s8, 80); (s9, 88); (s10, 96); (s11, 104)].

Lemma swtch_run h old new : regs h a0 = old -> regs h a1 = new -> mapped (csrs h satp) old 112 old -> mapped (csrs h satp) new 112 new -> old + 112 <= new \/ new + 112 <= old ->
  let h1 := run swtch h in
  hmem h1 = stored old (regs h) context (hmem h) /\ csrs h1 = csrs h /\ priv h1 = priv h /\ pc h1 = ld64 (hmem h) new /\
  forall r, regs h1 r = match slot context r with Some o => ld64 (hmem h) (new + o) | None => regs h r end.
Proof.
  intros H0 H1 Hm0 Hm1 Hd. change swtch with (saves context a0 ++ loads context a1 ++ [Jr ra]). rewrite !run_app, (run_saves 112 old context a0 h) by (rewrite ?H0; done).
  set (h' := set_hmem _ h). pose proof (run_loads 112 new context a1 h' eq_refl ltac:(change (regs h' a1) with (regs h a1); by rewrite H1) ltac:(done)) as [R C Me Pr K].
  assert (Hw : forall o, 0 <= o -> o + 8 <= 112 -> ld64 (hmem h') (new + o) = ld64 (hmem h) (new + o)).
  { intros o Ho1 Ho2. apply stored_word. intros ro Hro. destruct (separate_in 112 context ro eq_refl Hro). lia. }
  assert (Hr : forall r, regs (run (loads context a1) h') r = match slot context r with Some o => ld64 (hmem h) (new + o) | None => regs h r end).
  { intros r. rewrite R. destruct (slot context r) as [o|] eqn:E; [|done]. destruct (separate_in 112 context _ eq_refl (slot_in _ _ _ E)). by apply Hw. }
  clear R K. revert Me C Pr Hr. generalize (run (loads context a1) h'). intros h4 Me C Pr Hr.
  split_and!; [exact Me|exact C|exact Pr| |exact Hr]. change (regs h4 ra = ld64 (hmem h) new). rewrite Hr. simpl. f_equal. lia.
Qed.
End hardware.

(** C5: A trap from user space and the return from it lose no register.  [uservec] stores every one of the 31 registers in its field of the trap frame and
    nothing else; it goes on at [kernel_trap] with the kernel's stack, hart number and page table, all
    taken from the frame.  [userret], from whatever state the kernel is then in, gives every register the value of its field, installs the
    page table it is passed and continues at [sepc], in user mode when [usertrapret] has cleared SPP. *)
Theorem user_trap_roundtrip `{Hardware} (h h2 : hart) (P us : Z) :
  in_range h -> csrs h satp = us -> 0 <= us < 2 ^ 64 -> mapped us TRAPFRAME 288 P ->
  warl sscratch (regs h a0) = regs h a0 -> warl satp us = us -> regs h2 a0 = us -> Z.testbit (csrs h2 mstatus) 8 = false ->
  let h1 := run uservec h in let h3 := run userret h2 in
  (forall r, ld64 (hmem h1) (P + tf_slot r) = regs h r) /\ (forall a, a < P + 40 \/ P + 288 <= a -> ld8 (hmem h1) a = ld8 (hmem h) a) /\
  pc h1 = ld64 (hmem h) (P + 16) /\ regs h1 sp = ld64 (hmem h) (P + 8) /\ regs h1 tp = ld64 (hmem h) (P + 32) /\ csrs h1 satp = warl satp (u64 (ld64 (hmem h) (P + 0))) /\
  (forall r, regs h3 r = ld64 (hmem h2) (P + tf_slot r)) /\ csrs h3 satp = us /\ pc h3 = csrs h2 sepc /\ priv h3 = User.
Proof.
  intros Hr Hs Hu Hm Hw Hws Ha Hspp h1 h3. rewrite <- Hs in Hm at 1. destruct (uservec_run h P Hm Hw Hr) as (Hmem & Hpc & Hsp & Htp & Hsatp & _ & _). rewrite Hs in Hm.
  destruct (userret_run h2 P us Ha Hu Hws Hm) as (Hr3 & Hs3 & _ & Hpc3 & Hp3). fold h1 in Hmem, Hpc, Hsp, Htp, Hsatp. fold h3 in Hr3, Hs3, Hpc3, Hp3. rewrite Hspp in Hp3.
  split_and!; try done.
  - intros r. rewrite Hmem, (stored_get 288 P (regs h) _ r (tf_slot r)) by (done || apply user_slot). apply wrap_small, Hr.
  - intros a Ha'. rewrite Hmem. apply stored_out. intros ro Hro. apply list_elem_of_fmap in Hro as (r & -> & _). destruct r; simpl; lia.
Qed.

(** C6: A thread that gives up the processor with [swtch] continues where it was.  [swtch(old, new)] stores the return address, the stack pointer and the
    callee-saved registers in [old], and changes no other memory; the thread of [new] runs on at its return address with its
    registers.  When a hart, this one or another, later switches back to [old], from any thread, it continues at the
    return address of the first call, with the stack and the callee-saved registers of that time. *)
Theorem swtch_resumes `{Hardware} (h h2 : hart) (old new other : Z) :
  in_range h -> regs h a0 = old -> regs h a1 = new -> mapped (csrs h satp) old 112 old -> mapped (csrs h satp) new 112 new -> old + 112 <= new \/ new + 112 <= old ->
  regs h2 a0 = other -> regs h2 a1 = old -> mapped (csrs h2 satp) old 112 old -> mapped (csrs h2 satp) other 112 other -> other + 112 <= old \/ old + 112 <= other ->
  let h1 := run swtch h in let h3 := run swtch h2 in
  (forall a, old <= a < old + 112 -> ld8 (hmem h2) a = ld8 (hmem h1) a) ->
  pc h1 = ld64 (hmem h) new /\ (forall r o, slot context r = Some o -> regs h1 r = ld64 (hmem h) (new + o)) /\ (forall a, a < old \/ old + 112 <= a -> ld8 (hmem h1) a = ld8 (hmem h) a) /\
  pc h3 = regs h ra /\ forall r, regs h3 r = if decide (r ∈ context.*1) then regs h r else regs h2 r.
Proof.
  intros Hr H0 H1 Hm0 Hm1 Hd H2 H3 Hm2 Hm3 Hd2 h1 h3 Hsame. destruct (swtch_run h old new H0 H1 Hm0 Hm1 Hd) as (Hmem & _ & _ & Hpc & Hregs).
  destruct (swtch_run h2 other old H2 H3 Hm3 Hm2 Hd2) as (_ & _ & _ & Hpc3 & Hregs3). fold h1 in Hmem, Hpc, Hregs. fold h3 in Hpc3, Hregs3.
  assert (Hw : forall r o, slot context r = Some o -> ld64 (hmem h2) (old + o) = regs h r).
  { intros r o E. destruct (separate_in 112 context _ eq_refl (slot_in _ _ _ E)) as [Ho1 Ho2]. simpl in Ho1, Ho2. rewrite (ld64_ext (hmem h2) (hmem h1)) by (intros x Hx; apply Hsame; lia).
    rewrite Hmem, (stored_get 112 old (regs h) context r o) by done. apply wrap_small, Hr. }
  split_and!; [done|intros r o E; by rewrite Hregs, E| | |].
  - intros a Ha. rewrite Hmem. apply stored_out. intros ro Hro. destruct (separate_in 112 context ro eq_refl Hro). lia.
  - rewrite Hpc3. rewrite <- (Hw ra 0) by done. f_equal. lia.
  - intros r. rewrite Hregs3. case_decide as Hin; destruct (slot context r) as [o|] eqn:E; [by apply Hw| | |done].
    + exfalso. apply list_elem_of_fmap in Hin as (ro & -> & Hro). by apply (slot_none _ _ E ro Hro).
    + exfalso. apply Hin. apply list_elem_of_fmap. exists (r, o). split; [done|]. by apply slot_in.
Qed.

(** *** Traps in the kernel *)

Definition kv_saved : list (reg * Z) :=
  [(ra, 0); (sp, 8); (gp, 16); (tp, 24); (t0, 32); (t1, 40); (t2, 48); (a0, 72); (a1, 80); (a2, 88); (a3, 96); (a4, 104); (a5, 112); (a6, 120); (a7, 128); (t3, 216); (t4, 224); (t5, 232); (t6, 240)].
Definition kv_restored : list (reg * Z) := filter (fun ro => ro.1 <> tp) kv_saved.

(** What [kerneltrap] keeps, as any C function: the callee-saved registers; and [tp], which is that of the hart it returns on. *)
Definition kept_by_c : list reg := [tp; s0; s1; s2; s3; s4; s5; s6; s7; s8; s9; s10; s11].

Lemma sp_not_kept : sp ∉ kept_by_c.
Proof. refine (bool_decide_unpack _ _). vm_compute. exact I. Qed.

Lemma kept_or_saved r : r <> sp ->
  (r ∈ kept_by_c /\ slot kv_restored r = None) \/ ((r ∉ kept_by_c) /\ exists o, slot kv_restored r = Some o /\ slot kv_saved r = Some o).
Proof.
  intros Hne. destruct (slot kv_restored r) as [o|] eqn:E; [right|left]; (split; [refine (bool_decide_unpack _ _)|]); revert E; destruct r; vm_compute; intros; simplify_eq; try exact I; try done; eauto.
Qed.

Section kernel_traps.
Context `{Hardware}.

Lemma kernelvec_run h ktrap back : 256 <= regs h sp < 2 ^ 64 -> mapped (csrs h satp) (regs h sp - 256) 256 (regs h sp - 256) ->
  let h1 := run (kernelvec ktrap back) h in
  hmem h1 = stored (regs h sp - 256) (fset sp (regs h sp - 256) (regs h)) kv_saved (hmem h) /\ pc h1 = ktrap /\ regs h1 ra = u64 back /\ regs h1 sp = regs h sp - 256 /\ csrs h1 = csrs h.
Proof.
  intros Hr Hm. change (kernelvec ktrap back) with ([Addi sp sp (-256)] ++ saves kv_saved sp ++ [Call ktrap back]). rewrite !run_app.
  assert (E1 : run [Addi sp sp (-256)] h = set_reg sp (regs h sp - 256) h) by (unfold run; cbn [foldl step]; rewrite (wrap_small 64) by lia; done).
  rewrite E1, (run_saves 256 (regs h sp - 256) kv_saved sp) by done. set (m := stored _ _ _ _). split_and!; reflexivity.
Qed.

Lemma kernelvec_return_run h base : regs h sp = base -> 0 <= base < 2 ^ 63 -> mapped (csrs h satp) base 256 base -> ld64 (hmem h) (base + 8) = base ->
  let h1 := run kernelvec_return h in
  (forall r, r <> sp -> regs h1 r = match slot kv_restored r with Some o => ld64 (hmem h) (base + o) | None => regs h r end) /\ regs h1 sp = base + 256 /\
  hmem h1 = hmem h /\ pc h1 = csrs h sepc /\ priv h1 = (if Z.testbit (csrs h mstatus) 8 then Supervisor else User).
Proof.
  intros Hsp Hb Hm Hs. change kernelvec_return with (loads kv_restored sp ++ [Addi sp sp 256; Sret]). rewrite run_app.
  pose proof (run_loads 256 base kv_restored sp h eq_refl ltac:(by rewrite Hsp) ltac:(intros o [= <-]; by rewrite Hsp)) as [R C Me Pr K].
  revert R C Me. generalize (run (loads kv_restored sp) h). intros h4 R C Me.
  assert (H4 : regs h4 sp = base) by (rewrite R; exact Hs). set (h5 := set_reg sp (base + 256) h4).
  assert (E5 : run [Addi sp sp 256; Sret] h4 = sret h5) by (unfold run; cbn [foldl step]; rewrite H4, (wrap_small 64) by lia; done). rewrite E5. split_and!.
  - intros r Hne. change (fset sp (base + 256) (regs h4) r = match slot kv_restored r with Some o => ld64 (hmem h) (base + o) | None => regs h r end). unfold fset. rewrite decide_False by done. apply R.
  - reflexivity.
  - exact Me.
  - change (csrs h4 sepc = csrs h sepc). by rewrite C.
  - change ((if Z.testbit (csrs h4 mstatus) 8 then Supervisor else User) = if Z.testbit (csrs h mstatus) 8 then Supervisor else User). by rewrite C.
Qed.
End kernel_traps.

(** C21: A trap in the kernel is invisible to the code it interrupts.  [kernelvec] writes only the 256 bytes below the stack pointer and calls [kerneltrap], to return behind the call; if that
    returns as a C function does, with the stack pointer and those bytes as they were, every register but [tp] and the callee-saved ones has
    again the value it had, and execution continues at [sepc], in supervisor mode when [kerneltrap] has put back SPP.  The callee-saved registers and [tp] are those of [kerneltrap]'s return. *)
Theorem kernel_trap_transparent `{Hardware} (h h2 : hart) (kerneltrap back : Z) :
  in_range h -> 256 <= regs h sp < 2 ^ 63 -> let base := regs h sp - 256 in mapped (csrs h satp) base 256 base ->
  let h1 := run (kernelvec kerneltrap back) h in let h3 := run kernelvec_return h2 in
  regs h2 sp = base -> csrs h2 satp = csrs h satp -> (forall a, base <= a < base + 256 -> ld8 (hmem h2) a = ld8 (hmem h1) a) -> Z.testbit (csrs h2 mstatus) 8 = true ->
  pc h1 = kerneltrap /\ regs h1 ra = u64 back /\ (forall a, a < base \/ base + 256 <= a -> ld8 (hmem h1) a = ld8 (hmem h) a) /\
  (forall r, regs h3 r = if decide (r ∈ kept_by_c) then regs h2 r else regs h r) /\ hmem h3 = hmem h2 /\ pc h3 = csrs h2 sepc /\ priv h3 = Supervisor.
Proof.
  intros Hr Hsp base Hm h1 h3 Hsp2 Hsatp Hsame Hspp. destruct (kernelvec_run h kerneltrap back ltac:(lia) Hm) as (Hmem & Hpc & Hra & _ & _). fold h1 in Hmem, Hpc, Hra. fold base in Hmem.
  assert (Hw : forall r o, slot kv_saved r = Some o -> ld64 (hmem h2) (base + o) = fset sp base (regs h) r).
  { intros r o E. destruct (separate_in 256 kv_saved _ eq_refl (slot_in _ _ _ E)) as [Ho1 Ho2]. simpl in Ho1, Ho2. rewrite (ld64_ext (hmem h2) (hmem h1)) by (intros x Hx; apply Hsame; lia).
    rewrite Hmem, (stored_get 256 base _ kv_saved r o) by done. apply wrap_small. unfold fset. case_decide; [lia|apply Hr]. }
  destruct (kernelvec_return_run h2 base Hsp2 ltac:(lia) ltac:(by rewrite Hsatp) ltac:(by apply (Hw sp 8))) as (R & S & M & K & Pv). fold h3 in R, S, M, K, Pv. rewrite Hspp in Pv.
  split_and!; try done.
  - intros a Ha. rewrite Hmem. apply stored_out. intros ro Hro. destruct (separate_in 256 kv_saved ro eq_refl Hro). lia.
  - intros r. destruct (decide (r = sp)) as [->|Hne]; [rewrite S, decide_False by exact sp_not_kept; lia|]. rewrite R by done.
    assert (Hc : forall o, slot kv_saved r = Some o -> ld64 (hmem h2) (base + o) = regs h r) by (intros o E; rewrite (Hw r o E); unfold fset; by rewrite decide_False).
    destruct (kept_or_saved r Hne) as [[Hin Hno]|(Hin & o & Ho & Ho')]; [by rewrite Hno, decide_True|]. rewrite Ho, decide_False by done. by apply Hc.
Qed.

(** *** The start of a hart *)

(** The hardware has bit [b] of [c]. *)
Definition implements `{Hardware} (c : csr) (b : Z) : Prop := forall v, Z.testbit (warl c v) b = Z.testbit v b.

(** The interrupts of supervisor mode: software, timer and external. *)
Definition sirq (b : Z) : Prop := b = 1 \/ b = 5 \/ b = 9.
(** The exceptions [usertrap] expects: the system call, and the faults of fetch, load and store. *)
Definition sexc (b : Z) : Prop := b = 8 \/ b = 12 \/ b = 13 \/ b = 15.

(** What [start] relies on. *)
Record suitable `{Hardware} (main : Z) : Prop := {
  su_mpp : implements mstatus 11 /\ implements mstatus 12;
  su_pc : 0 <= main < 2 ^ 64 /\ warl mepc main = main;
  su_satp : warl satp 0 = 0;
  su_deleg : (forall b, sirq b -> implements mideleg b /\ implements mie b) /\ (forall b, sexc b -> implements medeleg b);
  su_sstc : implements menvcfg 63 /\ implements mcounteren 1 /\ forall v, warl stimecmp v = v;
  su_pmp : warl pmpaddr0 0x3fffffffffffff = 0x3fffffffffffff /\ warl pmpcfg0 0xf = 0xf
}.

(** A hart that has left machine mode. *)
Record started `{Hardware} (h : hart) (main id now : Z) : Prop := {
  st_priv : priv h = Supervisor;
  st_pc : pc h = main;
  st_satp : csrs h satp = 0;
  st_tp : regs h tp = id;
  st_irq : forall b, sirq b -> Z.testbit (csrs h mideleg) b = true /\ Z.testbit (csrs h mie) b = true;
  st_exc : forall b, sexc b -> Z.testbit (csrs h medeleg) b = true;
  st_all : forall b, 0 <= b < 16 -> (implements mideleg b -> Z.testbit (csrs h mideleg) b = true) /\ (implements medeleg b -> Z.testbit (csrs h medeleg) b = true);
  st_timer : csrs h stimecmp = u64 (now + 1000000) /\ Z.testbit (csrs h menvcfg) 63 = true /\ Z.testbit (csrs h mcounteren) 1 = true;
  st_pmp : csrs h pmpaddr0 = 0x3fffffffffffff /\ csrs h pmpcfg0 = 0xf
}.

Lemma u64_bit v b : 0 <= b < 64 -> Z.testbit (u64 v) b = Z.testbit v b.
Proof. intros Hb. unfold wrap. apply Z.mod_pow2_bits_low. lia. Qed.

Lemma mpp_one x : Z.testbit x 11 = true -> Z.testbit x 12 = false -> Z.land (Z.shiftr x 11) 3 = 1.
Proof.
  intros H1 H2. apply Z.bits_inj'. intros n Hn. rewrite Z.land_spec, Z.shiftr_spec by done. destruct (decide (n = 0)) as [->|]; [change (0 + 11) with 11; by rewrite H1|].
  destruct (decide (n = 1)) as [->|]; [change (1 + 11) with 12; by rewrite H2|].
  assert (H3 : Z.testbit 3 n = false) by (apply (Z.bits_above_log2 3 n); [lia|change (Z.log2 3) with 1; lia]). assert (H4 : Z.testbit 1 n = false) by (apply (Z.bits_above_log2 1 n); [lia|change (Z.log2 1) with 0; lia]).
  by rewrite H3, H4, andb_false_r.
Qed.

(** What the compiler's code at the entry of a function does, whatever it stores in the [frame] bytes of stack it takes. *)
Record prologue (frame : Z) (enter : hart -> hart) : Prop := {
  pr_size : 0 <= frame <= 4096 /\ frame mod 16 = 0;
  pr_sp : forall h, frame <= regs h sp -> regs (enter h) sp = regs h sp - frame;
  pr_csrs : forall h, csrs (enter h) = csrs h;
  pr_mem : forall h a, a < regs h sp - frame \/ regs h sp <= a -> ld8 (hmem (enter h)) a = ld8 (hmem h) a
}.

Section boot.
Context `{Hardware}.
Variables (main : Z) (enter : hart -> hart).
Hypothesis Hsu : suitable main.

Lemma started_run h : 0 <= csrs h mhartid < Z.of_nat NCPU ->
  wp (start id main) (fun _ h' => started h' main (csrs h mhartid) (csrs h time) /\ regs h' sp = regs h sp /\ hmem h' = hmem h) h.
Proof.
  intros Hid.
  destruct Hsu as [[M1 M2] [Pc1 Pc2] Sa [Irq Exc] (Env & Cnt & Cmp) [Pa Pg]]. unfold start, timerinit. cbv zeta. repeat first [apply wp_bind|apply wp_gets|apply wp_modify]. cbv beta delta [id]. change (Z.of_nat NCPU) with 8 in Hid. split; [|split; reflexivity].
  set (dl := warl mideleg (u64 0xffff)). set (x := warl mstatus (u64 (Z.lor (Z.land (csrs h mstatus) (Z.lnot MSTATUS_MPP_MASK)) MSTATUS_MPP_S))).
  set (i1 := warl mie (u64 (Z.lor (Z.land (csrs h mie) (Z.lnot dl)) (Z.land (Z.lor (Z.lor (Z.lor (Z.land (csrs h mie) dl) SIE_SEIE) SIE_STIE) SIE_SSIE) dl)))).
  assert (Hx : Z.land (Z.shiftr x 11) 3 = 1).
  { apply mpp_one; unfold x; [rewrite M1|rewrite M2]; rewrite u64_bit, Z.lor_spec, Z.land_spec by lia; [apply orb_true_r|]. rewrite Z.lnot_spec by lia. by rewrite andb_false_r. }
  assert (Hdl : forall b, sirq b -> Z.testbit dl b = true) by (intros b Hb; unfold dl; rewrite (proj1 (Irq b Hb)); by destruct Hb as [->|[->| ->]]).
  split.
  - change ((if Z.land (Z.shiftr x 11) 3 =? 3 then Machine else if Z.land (Z.shiftr x 11) 3 =? 1 then Supervisor else User) = Supervisor). by rewrite Hx.
  - change (warl mepc (u64 main) = main). by rewrite wrap_small.
  - change (warl satp (u64 0) = 0). exact Sa.
  - change (u64 (s32 (csrs h mhartid)) = csrs h mhartid). by rewrite swrap_small, wrap_small by (simpl; lia).
  - intros b Hb. split; [by apply Hdl|]. change (Z.testbit (warl mie (u64 (Z.lor i1 MIE_STIE))) b = true). assert (Hr : 0 <= b < 64) by (unfold sirq in Hb; lia).
    assert (H1 : Z.testbit i1 b = true).
    { unfold i1. rewrite (proj2 (Irq b Hb)), u64_bit, Z.lor_spec, (Z.land_spec _ dl), (Hdl b Hb), andb_true_r by done. apply orb_true_iff. right.
      rewrite !Z.lor_spec. destruct Hb as [->|[->| ->]]; by rewrite ?orb_true_r. }
    rewrite (proj2 (Irq b Hb)), u64_bit, Z.lor_spec, H1 by done. done.
  - intros b Hb. change (Z.testbit (warl medeleg (u64 0xffff)) b = true). rewrite (Exc b Hb). by destruct Hb as [->|[->|[->| ->]]].
  - intros b Hb. assert (H16 : Z.testbit 0xffff b = true) by (apply (Z.ones_spec_low 16 b); lia). split; intros Him;
      [change (Z.testbit (warl mideleg (u64 0xffff)) b = true)|change (Z.testbit (warl medeleg (u64 0xffff)) b = true)]; rewrite Him, u64_bit by lia; exact H16.
  - split_and!; [change (warl stimecmp (u64 (csrs h time + 1000000)) = u64 (csrs h time + 1000000)); apply Cmp| |].
    + change (Z.testbit (warl menvcfg (u64 (Z.lor (csrs h menvcfg) (Z.shiftl 1 63)))) 63 = true). rewrite Env, u64_bit, Z.lor_spec by lia. apply orb_true_r.
    + change (Z.testbit (warl mcounteren (u64 (Z.lor (csrs h mcounteren) 2))) 1 = true). rewrite Cnt, u64_bit, Z.lor_spec by lia. apply orb_true_r.
  - split; [exact Pa|exact Pg].
Qed.

Lemma start_run h : csrs (enter h) = csrs h -> 0 <= csrs h mhartid < Z.of_nat NCPU ->
  wp (start enter main) (fun _ h' => started h' main (csrs h mhartid) (csrs h time) /\ regs h' sp = regs (enter h) sp /\ hmem h' = hmem (enter h)) h.
Proof. intros Hc Hid. pose proof (started_run (enter h)) as Hr. rewrite Hc in Hr. exact (Hr Hid). Qed.
End boot.

(** C22: A hart that enters the kernel in machine mode at [_entry] reaches [main] in supervisor mode, without paging, with [tp] holding its number and on a stack of its own:
    whatever frame the compiler gives [start], [sp] is a multiple of 16 within the hart's 4096 bytes of [stack0], and no byte outside of them has been written.  The software, timer and external interrupts of supervisor mode and the exceptions
    of user code are delegated, as are all others that the hardware lets be, and the interrupts are enabled; the first timer interrupt is due a million cycles later, and
    physical memory protection lets the kernel at all of memory. *)
Theorem boot_enters_main `{Hardware} (h : hart) (enter : hart -> hart) (frame stack0 start_addr spin main_addr : Z) :
  suitable main_addr -> prologue frame enter -> 0 <= csrs h mhartid < Z.of_nat NCPU -> 0 <= stack0 -> stack0 mod 16 = 0 -> stack0 + 4096 * Z.of_nat NCPU < 2 ^ 64 ->
  let id := csrs h mhartid in let bottom := stack0 + 4096 * id in let h1 := run (entry stack0 start_addr spin) h in
  pc h1 = start_addr /\ regs h1 sp = bottom + 4096 /\ regs h1 ra = u64 spin /\ hmem h1 = hmem h /\
  wp (start enter main_addr) (fun _ h' => started h' main_addr id (csrs h time) /\
    regs h' sp = bottom + 4096 - frame /\ bottom <= regs h' sp /\ regs h' sp mod 16 = 0 /\
    forall a, a < bottom \/ bottom + 4096 <= a -> ld8 (hmem h') a = ld8 (hmem h) a) h1.
Proof.
  intros Hsu [[Hf0 Hf16] Hsp Hcs Hmem] Hid H0 H16 Htop id bottom h1. fold id in Hid. change (Z.of_nat NCPU) with 8 in *.
  assert (Hsp1 : regs h1 sp = bottom + 4096).
  { change (u64 (u64 stack0 + u64 (u64 (1024 * 4) * u64 (id + 1))) = bottom + 4096). rewrite (wrap_small 64 (1024 * 4)), (wrap_small 64 (id + 1)), (wrap_small 64 stack0) by lia.
    rewrite (wrap_small 64 (1024 * 4 * (id + 1))), wrap_small by lia. lia. }
  assert (Hal : (bottom + 4096 - frame) mod 16 = 0).
  { apply Z.mod_divide in H16 as [u Hu], Hf16 as [k Hk]; [|done..]. apply Z.mod_divide; [done|]. exists (u + 256 * id + 256 - k). unfold bottom. lia. }
  split_and!; [done|done|done|done|]. eapply wp_mono; [apply (start_run main_addr enter Hsu h1 (Hcs h1) Hid)|]. intros [] h' (Hst & Hsp' & Hm').
  assert (Hs' : regs h' sp = bottom + 4096 - frame) by (rewrite Hsp', Hsp, Hsp1 by lia; done).
  split_and!; [exact Hst|done|lia|by rewrite Hs'|]. intros a Ha. rewrite Hm', Hmem by lia. done.
Qed.

(** *** A machine *)

Module Sample.
(** Registers that hold what is written, and a map of the trap frame alone. *)
Definition P : Z := 0x87f00000.
#[export] Instance machine : Hardware := {| warl := fun _ v => v; translate := fun _ a => if TRAPFRAME <=? a then a - TRAPFRAME + P else a |}.
Definition user_satp : Z := 0x8000000000087eff.
Definition h : hart := mkHart (fun r => 1000 + tf_slot r) (fun c => match c with satp => user_satp | mhartid => 2 | _ => 0 end) ∅ Supervisor TRAMPOLINE.
Definition returning (m : mem) : hart := mkHart (fset a0 user_satp (fun _ => 1)) (fun _ => 0) m Supervisor TRAMPOLINE.
(** Threads with contexts at 0x80010000 and at 0x80020000. *)
Definition thread (old new : Z) (m : mem) : hart := mkHart (fset a0 old (fset a1 new (fun r => 1000 + tf_slot r))) (fun _ => 0) m Supervisor 0x80001000.
Definition k1 : hart := thread 0x80010000 0x80020000 ∅.
Lemma after_swtch : {m | m = hmem (run swtch k1)}.
Proof. by eexists. Qed.
Definition k2 : hart := thread 0x80020000 0x80010000 (proj1_sig after_swtch).
(** Interrupted code, and [kerneltrap] about to return. *)
Definition i1 : hart := mkHart (fset sp 0x80031000 (fun r => 1000 + tf_slot r)) (fun _ => 0) ∅ Supervisor 0x80001000.
Lemma after_kernelvec : {m | m = hmem (run (kernelvec 0x80002000 0x80001050) i1)}.
Proof. by eexists. Qed.
Definition i2 : hart := mkHart (fset sp (0x80031000 - 256) (fun _ => 1)) (fset mstatus 256 (fun _ => 0)) (proj1_sig after_kernelvec) Supervisor 0x80002000.

Lemma low_mapped s base n : 0 <= base -> base + n <= TRAPFRAME -> mapped s base n base.
Proof.
  intros Hb Ht o Ho. assert (TRAPFRAME < 2 ^ 64) by done. unfold translate, machine. rewrite wrap_small by lia. by rewrite (proj2 (Z.leb_gt _ _)) by lia.
Qed.
Lemma frame_mapped s : mapped s TRAPFRAME 288 P.
Proof.
  intros o Ho. assert (TRAPFRAME < 2 ^ 63) by done. assert (0 <= TRAPFRAME) by done. unfold translate, machine. rewrite wrap_small by lia. rewrite (proj2 (Z.leb_le _ _)) by lia. lia.
Qed.
Lemma slots_range r : 0 <= 1000 + tf_slot r < 2 ^ 64.
Proof. destruct r; simpl; lia. Qed.
Lemma range_set r v f c m p k : in_range (mkHart f c m p k) -> 0 <= v < 2 ^ 64 -> in_range (mkHart (fset r v f) c m p k).
Proof. intros Hf Hv x. cbn [regs]. unfold fset. case_decide; [done|]. apply Hf. Qed.
(** A compiler that takes 16 bytes and saves the return address and the frame pointer there. *)
Definition enter (h : hart) : hart :=
  set_reg s0 (regs h sp) (set_reg sp (regs h sp - 16) (set_hmem (st64 (st64 (hmem h) (regs h sp - 8) (regs h ra)) (regs h sp - 16) (regs h s0)) h)).
Lemma enter_prologue : prologue 16 enter.
Proof.
  split; [split; [lia|reflexivity]|done|done|]. intros h' a Ha. unfold enter. cbn [hmem set_reg set_hmem]. by rewrite !ld8_st64_disjoint by lia.
Qed.
End Sample.
#[local] Existing Instance Sample.machine.

Lemma user_trap_roundtrip_witness :
  ld64 (hmem (run uservec Sample.h)) (Sample.P + tf_slot s11) = 1248 /\ regs (run userret (Sample.returning (st64 ∅ (Sample.P + tf_slot s11) 5))) s11 = 5.
Proof.
  destruct (user_trap_roundtrip Sample.h (Sample.returning (st64 ∅ (Sample.P + tf_slot s11) 5)) Sample.P Sample.user_satp Sample.slots_range eq_refl ltac:(unfold Sample.user_satp; lia)
    (Sample.frame_mapped _) eq_refl eq_refl eq_refl eq_refl) as (Hst & _ & _ & _ & _ & _ & Hld & _).
  split; [exact (Hst s11)|]. rewrite Hld. vm_compute. reflexivity.
Defined.

Lemma swtch_resumes_witness : pc (run swtch Sample.k2) = 1040 /\ regs (run swtch Sample.k2) s0 = 1096.
Proof.
  assert (Hr1 : in_range Sample.k1) by (apply Sample.range_set; [|lia]; apply Sample.range_set; [|lia]; exact Sample.slots_range).
  assert (Hm : forall s b, 0 <= b <= 0x80030000 -> mapped s b 112 b) by (intros; apply Sample.low_mapped; [lia|]; assert (0x80031000 < TRAPFRAME) by done; lia).
  pose proof (fun s => Hm s 0x80010000 ltac:(lia)) as Ha. pose proof (fun s => Hm s 0x80020000 ltac:(lia)) as Hb.
  assert (Hd1 : 0x80010000 + 112 <= 0x80020000 \/ 0x80020000 + 112 <= 0x80010000) by lia. assert (Hd2 : 0x80020000 + 112 <= 0x80010000 \/ 0x80010000 + 112 <= 0x80020000) by lia.
  assert (Hsame : forall a, 0x80010000 <= a < 0x80010000 + 112 -> ld8 (proj1_sig Sample.after_swtch) a = ld8 (hmem (run swtch Sample.k1)) a) by (intros; by rewrite (proj2_sig Sample.after_swtch)).
  destruct (swtch_resumes Sample.k1 Sample.k2 0x80010000 0x80020000 0x80020000 Hr1 eq_refl eq_refl (Ha _) (Hb _) Hd1 eq_refl eq_refl
    (Ha _) (Hb _) Hd2 Hsame) as (_ & _ & _ & Hpc & Hr).
  split; [exact Hpc|]. rewrite Hr. reflexivity.
Defined.

Lemma kernel_trap_transparent_witness : regs (run kernelvec_return Sample.i2) a5 = 1152 /\ regs (run kernelvec_return Sample.i2) s1 = 1.
Proof.
  assert (Hr1 : in_range Sample.i1) by (apply Sample.range_set; [exact Sample.slots_range|lia]).
  assert (Hsp : 256 <= regs Sample.i1 sp < 2 ^ 63) by (change (regs Sample.i1 sp) with 0x80031000; lia).
  assert (Hm : mapped 0 0x80030f00 256 0x80030f00) by (apply Sample.low_mapped; [lia|]; assert (0x80031000 < TRAPFRAME) by done; lia).
  assert (Hsame : forall a, 0x80030f00 <= a < 0x80030f00 + 256 -> ld8 (proj1_sig Sample.after_kernelvec) a = ld8 (hmem (run (kernelvec 0x80002000 0x80001050) Sample.i1)) a) by (intros; by rewrite (proj2_sig Sample.after_kernelvec)).
  destruct (kernel_trap_transparent Sample.i1 Sample.i2 0x80002000 0x80001050 Hr1 Hsp Hm eq_refl eq_refl Hsame eq_refl) as (_ & _ & _ & Hr & _).
  split; rewrite Hr; reflexivity.
Defined.

Lemma boot_enters_main_witness :
  wp (start Sample.enter 0x80000100) (fun _ h' => started h' 0x80000100 2 0 /\ regs h' sp = 0x8000aff0) (run (entry 0x80008000 0x80000060 0x8000001a) Sample.h).
Proof.
  eapply wp_mono; [apply (boot_enters_main Sample.h Sample.enter 16 0x80008000 0x80000060 0x8000001a 0x80000100)|intros [] h' (Hst & Hsp & _); exact (conj Hst Hsp)].
  - split; repeat split; intros; try reflexivity; lia.
  - exact Sample.enter_prologue.
  - change (0 <= 2 < 8). lia.
  - lia.
  - reflexivity.
  - change (0x80008000 + 4096 * 8 < 2 ^ 64). lia.
Defined.
End Hart.
