(* ===== verification/Usys.v ===== *)
(** User programs: what they are made of.

    A program of [user/] runs against a kernel that it sees only through the system calls of
    [user/user.h].  [Kernel W] is that interface over a world [W] of open files and
    processes; a program is a computation ([U]) on the world and on its own global
    variables that ends by returning, by [exit] or by a successful [exec].  [fork] returns
    on both sides: [0] makes the run that of the child, a positive number that of the parent.

    [Stream] states what a program that reads a file, a pipe or the console and prints
    relies on: every [read] delivers at least one of the bytes not yet read, in order, and no more than
    asked for, until there are none; [write] appends to what has been printed. *)
From S2P Require Import Prelude Machine.
From Stdlib Require Import ZArith Lia.
From stdpp Require Import base strings numbers gmap list.
Local Open Scope Z_scope.
Local Open Scope m_scope.

(** The fields of [struct stat]. *)
Record ustat : Type := mkUstat { us_dev : Z; us_ino : Z; us_type : Z; us_nlink : Z; us_size : Z }.
Definition no_stat : ustat := mkUstat 0 0 0 0 0.

(** The system calls.  [sc_read] also gives the bytes it stores, [sc_pipe] the two descriptors,
    [sc_wait] the status, [sc_fstat] the structure; [sc_exec] gives nothing when it succeeds. *)
Class Kernel (W : Type) := {
  sc_fork : W -> Z * W;
  sc_wait : W -> (Z * Z) * W;
  sc_pipe : W -> (Z * Z * Z) * W;
  sc_read : Z -> Z -> W -> (Z * list Z) * W;
  sc_write : Z -> list Z -> W -> Z * W;
  sc_close : Z -> W -> Z * W;
  sc_kill : Z -> W -> Z * W;
  sc_exec : list Z -> list (list Z) -> W -> option (Z * W);
  sc_open : list Z -> Z -> W -> Z * W;
  sc_mknod : list Z -> Z -> Z -> W -> Z * W;
  sc_unlink : list Z -> W -> Z * W;
  sc_fstat : Z -> W -> (Z * ustat) * W;
  sc_link : list Z -> list Z -> W -> Z * W;
  sc_mkdir : list Z -> W -> Z * W;
  sc_chdir : list Z -> W -> Z * W;
  sc_dup : Z -> W -> Z * W;
  sc_getpid : W -> Z * W;
  sc_sbrk : Z -> W -> Z * W;
  sc_sleep : Z -> W -> Z * W;
  sc_uptime : W -> Z * W;
  sc_ttyraw : Z -> W -> Z * W
}.

(** A program's state: the world and its global variables. *)
Record ust (W G : Type) : Type := mkUst { world : W; glob : G }.
Arguments mkUst {W G} _ _.
Arguments world {W G} _.
Arguments glob {W G} _.

(** How a run ends other than by returning: [exit], [exec], an access outside an array, or
    a bound of the model. *)
Inductive ustop (W G : Type) : Type :=
| UExit (code : Z) (s : ust W G)
| UExec (path : list Z) (argv : list (list Z)) (s : ust W G)
| UFault (what : string)
| UFuel.
Arguments UExit {W G} code s.
Arguments UExec {W G} path argv s.
Arguments UFault {W G} what.
Arguments UFuel {W G}.

Definition U (W G A : Type) : Type := M (ustop W G) (ust W G) A.

(** How many rounds a loop that waits for input goes in the model. *)
Class Rounds := rounds : nat.

Section calls.
Context {W : Type} `{Kernel W} {G : Type}.

Definition sys {A} (f : W -> A * W) : U W G A := fun s => let (a, w) := f (world s) in Ok a (mkUst w (glob s)).
Definition exit {A} (code : Z) : U W G A := fun s => Stop (UExit code s).
Definition exec (path : list Z) (argv : list (list Z)) : U W G Z := fun s =>
  match sc_exec path argv (world s) with
  | None => Stop (UExec path argv s)
  | Some (r, w) => Ok r (mkUst w (glob s))
  end.

Definition fork : U W G Z := sys sc_fork.
Definition wait : U W G (Z * Z) := sys sc_wait.
Definition pipe : U W G (Z * Z * Z) := sys sc_pipe.
Definition read (fd n : Z) : U W G (Z * list Z) := sys (sc_read fd n).
Definition write (fd : Z) (bs : list Z) : U W G Z := sys (sc_write fd bs).
Definition close (fd : Z) : U W G Z := sys (sc_close fd).
Definition kill (pid : Z) : U W G Z := sys (sc_kill pid).
Definition open (path : list Z) (mode : Z) : U W G Z := sys (sc_open path mode).
Definition mknod (path : list Z) (major minor : Z) : U W G Z := sys (sc_mknod path major minor).
Definition unlink (path : list Z) : U W G Z := sys (sc_unlink path).
Definition fstat (fd : Z) : U W G (Z * ustat) := sys (sc_fstat fd).
Definition link (old new : list Z) : U W G Z := sys (sc_link old new).
Definition mkdir (path : list Z) : U W G Z := sys (sc_mkdir path).
Definition chdir (path : list Z) : U W G Z := sys (sc_chdir path).
Definition dup (fd : Z) : U W G Z := sys (sc_dup fd).
Definition getpid : U W G Z := sys sc_getpid.
Definition sbrk (n : Z) : U W G Z := sys (sc_sbrk n).
Definition sleep (n : Z) : U W G Z := sys (sc_sleep n).
Definition uptime : U W G Z := sys sc_uptime.
Definition ttyraw (on : Z) : U W G Z := sys (sc_ttyraw on).

Definition get_glob {A} (f : G -> A) : U W G A := gets (fun s => f (glob s)).
Definition upd_glob (f : G -> G) : U W G unit := modify (fun s => mkUst (world s) (f (glob s))).

Lemma sys_run {A} (f : W -> A * W) w g a w' : f w = (a, w') -> sys f (mkUst w g) = Ok a (mkUst w' g).
Proof. unfold sys. simpl. by intros ->. Qed.

(** [m] ends by [exit] with a status and a state that satisfy [Q]. *)
Definition ends {A} (m : U W G A) (Q : Z -> ust W G -> Prop) (s : ust W G) : Prop :=
  match m s with Stop (UExit c s') => Q c s' | _ => False end.

Lemma ends_bind {A B} (m : U W G A) (k : A -> U W G B) Q s :
  wp m (fun a s' => ends (k a) Q s') s -> ends (bind m k) Q s.
Proof. unfold wp, ends, bind. by destruct (m s). Qed.

Lemma ends_exit {A} code (Q : Z -> ust W G -> Prop) s : Q code s -> ends (@exit A code) Q s.
Proof. done. Qed.
End calls.

(** [O_RDONLY], ... of [kernel/fcntl.h], the file types of [kernel/stat.h] and the constants of
    [kernel/fs.h] and [kernel/param.h] that user programs use. *)
Definition O_RDONLY : Z := 0x000.
Definition O_WRONLY : Z := 0x001.
Definition O_RDWR : Z := 0x002.
Definition O_CREATE : Z := 0x200.
Definition O_TRUNC : Z := 0x400.
Definition T_DIR : Z := 1.
Definition T_FILE : Z := 2.
Definition T_DEVICE : Z := 3.
Definition DIRSIZ : nat := 14.
Definition MAXARG : nat := 32.

(** ** Streams *)

Class Stream (W : Type) `{Kernel W} (fd : Z) := {
  (** the bytes not yet read at [fd], and those printed on descriptor 1 *)
  unread : W -> list Z;
  printed : W -> list Z;
  read_law : forall w n, 0 < n -> exists k w', sc_read fd n w = ((Z.of_nat k, take k (unread w)), w') /\
    (k <= length (unread w))%nat /\ Z.of_nat k <= n /\ (unread w <> [] -> (0 < k)%nat) /\
    unread w' = drop k (unread w) /\ printed w' = printed w;
  write_law : forall w bs, exists w', sc_write 1 bs w = (Z.of_nat (length bs), w') /\
    unread w' = unread w /\ printed w' = printed w ++ bs
}.

(** *** An instance: descriptors that deliver their input in chunks of any size *)

Module Chunks.
Record world : Type := mkWorld {
  chunks : gmap Z (list (list Z));
  out : list (Z * list Z)
}.

(** What the next [read] of at most [n] bytes delivers, and the chunks left; empty chunks are passed over. *)
Fixpoint next (n : nat) (cs : list (list Z)) : list Z * list (list Z) :=
  match cs with
  | [] => ([], [])
  | [] :: cs' => next n cs'
  | c :: cs' => (take n c, match drop n c with [] => cs' | r => r :: cs' end)
  end.

Definition read (fd n : Z) (w : world) : (Z * list Z) * world :=
  let (bs, cs) := next (Z.to_nat n) (default [] (chunks w !! fd)) in
  ((Z.of_nat (length bs), bs), mkWorld (<[fd := cs]> (chunks w)) (out w)).
Definition write (fd : Z) (bs : list Z) (w : world) : Z * world :=
  (Z.of_nat (length bs), mkWorld (chunks w) (out w ++ [(fd, bs)])).

(** The calls that have nothing to do with streams fail. *)
Definition fails (w : world) : Z * world := (-1, w).

#[export] Instance kernel : Kernel world := {|
  sc_fork := fails; sc_wait := fun w => ((-1, 0), w); sc_pipe := fun w => ((-1, 0, 0), w);
  sc_read := read; sc_write := write; sc_close := fun _ => fails; sc_kill := fun _ => fails;
  sc_exec := fun _ _ w => Some (fails w); sc_open := fun _ _ => fails; sc_mknod := fun _ _ _ => fails;
  sc_unlink := fun _ => fails; sc_fstat := fun _ w => ((-1, no_stat), w); sc_link := fun _ _ => fails;
  sc_mkdir := fun _ => fails; sc_chdir := fun _ => fails; sc_dup := fun _ => fails; sc_getpid := fails;
  sc_sbrk := fun _ => fails; sc_sleep := fun _ => fails; sc_uptime := fails; sc_ttyraw := fun _ => fails |}.

Definition unread_at (fd : Z) (w : world) : list Z := concat (default [] (chunks w !! fd)).
Definition printed_on (w : world) : list Z := concat (snd <$> filter (fun p => p.1 = 1) (out w)).

Lemma length_take_le' {A} (l : list A) n : (length (take n l) <= n)%nat.
Proof. rewrite length_take. lia. Qed.

Lemma next_spec n cs :
  (0 < n)%nat -> let (bs, cs') := next n cs in
  bs = take (length bs) (concat cs) /\ concat cs' = drop (length bs) (concat cs) /\ (length bs <= length (concat cs))%nat /\
  (length bs <= n)%nat /\ (concat cs <> [] -> (0 < length bs)%nat).
Proof.
  intros Hn. induction cs as [|c cs IH]; simpl; [split_and!; (done || lia)|]. destruct c as [|x c]; [done|]. destruct n as [|n]; [lia|].
  cbn [take drop]. pose proof (take_drop n c) as Hc. pose proof (length_take_le' c n) as Ht.
  generalize dependent (drop n c). generalize dependent (take n c). intros t Ht r <-.
  replace (match r with [] => cs | z :: l => (z :: l) :: cs end) with (match r with [] => [] | _ => [r] end ++ cs) by (by destruct r).
  rewrite concat_app. assert (Hr : concat (match r with [] => [] | _ => [r] end) = r) by (destruct r; simpl; by rewrite ?app_nil_r).
  rewrite Hr. simpl. rewrite <- app_assoc, take_app_length, drop_app_length.
  split_and!; [done|done|rewrite length_app; lia|lia|lia].
Qed.

#[export] Instance stream fd : Stream world fd.
Proof.
  refine {| unread := unread_at fd; printed := printed_on |}.
  - intros w n Hn. unfold sc_read, kernel, read, unread_at. pose proof (next_spec (Z.to_nat n) (default [] (chunks w !! fd)) ltac:(lia)) as Hnx.
    destruct (next _ _) as [bs cs]. destruct Hnx as (Ht & Hc & Hl & Hle & Hpos). exists (length bs). eexists.
    split_and!; [by rewrite <- Ht|done|lia|done|simpl; by rewrite lookup_insert_eq|done].
  - intros w bs. eexists. split_and!; [reflexivity|done|]. unfold printed_on. simpl. rewrite filter_app. simpl.
    rewrite fmap_app, concat_app. simpl. by rewrite app_nil_r.
Defined.
End Chunks.
