(* ===== verification/Umalloc.v ===== *)
(** The user allocator: [malloc] and [free] of [user/umalloc.c].

    The memory of the process is modelled byte by byte, so that what the program stores in its blocks and the
    headers of the allocator share one store.  A [Header *] is the address of
    a header of 16 bytes: a pointer, and the size of the block in units of 16 bytes, header included.
    The free blocks form a circular list in the order of their addresses, in which the static header
    [base] comes first.  [Brk] states what the allocator relies on of [sbrk]: it fails, or it gives memory that starts at
    the old end of the process. *)
From S2P Require Import Prelude Machine Usys.
From Stdlib Require Import ZArith Lia.
From stdpp Require Import base strings numbers gmap list.
Local Open Scope Z_scope.
Local Open Scope m_scope.

Module Umalloc.

(** [freep], and the memory that holds [base], the heap and all else. *)
Record heap : Type := mkHeap { freep : Z; umem : mem }.

Definition sizeof_Header : Z := 16.

Section malloc.
Context {W : Type} `{Kernel W} `{Rounds}.
(** [&base] *)
Variable base : Z.

(** [p->s.ptr] and [p->s.size]. *)
Definition hptr (p : Z) : U W heap Z := get_glob (fun g => ld64 (umem g) p).
Definition hsize (p : Z) : U W heap Z := get_glob (fun g => ld32 (umem g) (p + 8)).
Definition set_hptr (p v : Z) : U W heap unit := upd_glob (fun g => mkHeap (freep g) (st64 (umem g) p v)).
Definition set_hsize (p v : Z) : U W heap unit := upd_glob (fun g => mkHeap (freep g) (st32 (umem g) (p + 8) v)).
Definition get_freep : U W heap Z := get_glob freep.
Definition set_freep (p : Z) : U W heap unit := upd_glob (fun g => mkHeap p (umem g)).

(** [p + n] for a [Header *]. *)
Definition hadd (p n : Z) : Z := u64 (p + sizeof_Header * n).

Definition free (ap : Z) : U W heap unit :=
  let bp := hadd ap (-1) in
  p <- get_freep ;;
  p <- while_fuel UFuel rounds (fun p =>
    next <- hptr p ;;
    if (p <? bp) && (bp <? next) then ret (inr p) else
    if (next <=? p) && ((p <? bp) || (bp <? next)) then ret (inr p) else
    ret (inl next)) p ;;
  size <- hsize bp ;;
  next <- hptr p ;;
  (if hadd bp size =? next then
     nsize <- hsize next ;;
     set_hsize bp (u32 (size + nsize)) ;;
     nnext <- hptr next ;;
     set_hptr bp nnext
   else set_hptr bp next) ;;
  psize <- hsize p ;;
  (if hadd p psize =? bp then
     size <- hsize bp ;;
     set_hsize p (u32 (psize + size)) ;;
     next <- hptr bp ;;
     set_hptr p next
   else set_hptr p bp) ;;
  set_freep p.

Definition morecore (nu : Z) : U W heap Z :=
  let nu := if nu <? 4096 then 4096 else nu in
  p <- sbrk (s32 (nu * sizeof_Header)) ;;
  if p =? -1 then ret 0 else
  set_hsize p nu ;;
  free (hadd p 1) ;;
  get_freep.

Definition units (nbytes : Z) : Z := u32 ((nbytes + sizeof_Header - 1) / sizeof_Header + 1).

Definition malloc (nbytes : Z) : U W heap Z :=
  let nunits := units nbytes in
  prevp <- get_freep ;;
  prevp <- (if prevp =? 0 then
              set_freep base ;;
              set_hptr base base ;;
              set_hsize base 0 ;;
              ret base
            else ret prevp) ;;
  p <- hptr prevp ;;
  while_fuel UFuel rounds (fun '(prevp, p) =>
    size <- hsize p ;;
    if nunits <=? size then
      p <- (if size =? nunits then
              next <- hptr p ;;
              set_hptr prevp next ;;
              ret p
            else
              set_hsize p (u32 (size - nunits)) ;;
              size <- hsize p ;;
              let p := hadd p size in
              set_hsize p nunits ;;
              ret p) ;;
      set_freep prevp ;;
      ret (inr (hadd p 1))
    else
      fp <- get_freep ;;
      if p =? fp then
        p <- morecore nunits ;;
        if p =? 0 then ret (inr 0) else
        next <- hptr p ;;
        ret (inl (p, next))
      else
        next <- hptr p ;;
        ret (inl (p, next))) (prevp, p).
End malloc.

(** ** Headers in memory *)

Lemma ld32_ext m m' a : (forall x, a <= x < a + 4 -> ld8 m x = ld8 m' x) -> ld32 m a = ld32 m' a.
Proof. intros Hm. unfold ld32. f_equal. apply ld_bytes_ext. intros x Hx. apply Hm. lia. Qed.
Lemma ld32_st32_same m a v : ld32 (st32 m a v) a = u32 v.
Proof.
  unfold ld32, st32. pose proof (ld_bytes_st_same m a (le_bytes 4 v)) as Hs. rewrite length_le_bytes in Hs. rewrite Hs. apply le_val_le_bytes.
Qed.
Lemma ld8_st32_disjoint m a v x : x < a \/ a + 4 <= x -> ld8 (st32 m a v) x = ld8 m x.
Proof. intros Hx. unfold st32. apply ld8_st_outside. rewrite length_le_bytes. lia. Qed.

(** [m'] is [m] outside the header at [p]. *)
Definition but_header (p : Z) (m m' : mem) : Prop := forall x, x < p \/ p + 12 <= x -> ld8 m' x = ld8 m x.

Lemma but_header_trans p m m1 m2 : but_header p m m1 -> but_header p m1 m2 -> but_header p m m2.
Proof. intros H1 H2 x Hx. by rewrite H2, H1. Qed.

Lemma but_header_ptr p m v : but_header p m (st64 m p v).
Proof. intros x Hx. apply ld8_st64_disjoint. lia. Qed.
Lemma but_header_size p m v : but_header p m (st32 m (p + 8) v).
Proof. intros x Hx. apply ld8_st32_disjoint. lia. Qed.

Lemma ptr_but q p m m' : but_header q m m' -> p + 12 <= q \/ q + 12 <= p -> ld64 m' p = ld64 m p.
Proof. intros Hm Hp. apply ld64_ext. intros x Hx. apply Hm. lia. Qed.
Lemma size_but q p m m' : but_header q m m' -> p + 12 <= q \/ q + 12 <= p -> ld32 m' (p + 8) = ld32 m (p + 8).
Proof. intros Hm Hp. apply ld32_ext. intros x Hx. apply Hm. lia. Qed.
Lemma ptr_set_size p m v : ld64 (st32 m (p + 8) v) p = ld64 m p.
Proof. apply ld64_ext. intros x Hx. apply ld8_st32_disjoint. lia. Qed.
Lemma size_set_ptr p m v : ld32 (st64 m p v) (p + 8) = ld32 m (p + 8).
Proof. apply ld32_ext. intros x Hx. apply ld8_st64_disjoint. lia. Qed.

(** ** The free list *)

(** A block: the address of its header and its size in units. *)
Abbreviation block := (Z * Z)%type.
Definition bend (x : block) : Z := x.1 + 16 * x.2.

Definition nxt (l : list block) (q : Z) : Z := match l with [] => q | x :: _ => x.1 end.

(** The headers of the blocks [l] are in memory; each points to the next one, and the last one to [q]. *)
Fixpoint links (m : mem) (l : list block) (q : Z) : Prop :=
  match l with
  | [] => True
  | x :: l' => ld64 m x.1 = nxt l' q /\ ld32 m (x.1 + 8) = x.2 /\ links m l' q
  end.

(** The blocks [l] are in order between [lo] and [hi], and no two of them are adjacent. *)
Fixpoint spaced (lo : Z) (l : list block) (hi : Z) : Prop :=
  match l with
  | [] => lo <= hi
  | x :: l' => lo < x.1 /\ 0 < x.2 /\ spaced (bend x) l' hi
  end.

Definition apart (x y : block) : Prop := bend x <= y.1 \/ bend y <= x.1.

Lemma nxt_app l l' q : nxt (l ++ l') q = nxt l (nxt l' q).
Proof. by destruct l. Qed.

Lemma links_app m l l' q : links m (l ++ l') q <-> links m l (nxt l' q) /\ links m l' q.
Proof. induction l as [|x l IH]; simpl; [naive_solver|]. rewrite IH, nxt_app. naive_solver. Qed.

Lemma links_frame m m' l q : links m l q -> (forall x, x ∈ l -> ld64 m' x.1 = ld64 m x.1 /\ ld32 m' (x.1 + 8) = ld32 m (x.1 + 8)) -> links m' l q.
Proof.
  induction l as [|x l IH]; simpl; [done|]. intros (H1 & H2 & H3) Hm. destruct (Hm x ltac:(apply elem_of_cons; by left)) as [-> ->]. split_and!; [done|done|].
  apply IH; [done|]. intros y Hy. apply Hm. by right.
Qed.

(** The end of the last block. *)
Fixpoint lst (lo : Z) (l : list block) : Z := match l with [] => lo | x :: l' => lst (bend x) l' end.

Lemma lst_app lo l l' : lst lo (l ++ l') = lst (lst lo l) l'.
Proof. revert lo. induction l as [|x l IH]; intros lo; [done|apply IH]. Qed.

Lemma spaced_app lo l l' hi : spaced lo (l ++ l') hi <-> spaced lo l (lst lo l) /\ spaced (lst lo l) l' hi.
Proof. revert lo. induction l as [|x l IH]; intros lo; simpl; [|rewrite IH; naive_solver]. split; [intros; split; [lia|done]|by intros [_ ?]]. Qed.

Lemma spaced_le lo l hi : spaced lo l hi -> lo <= hi.
Proof. revert lo. induction l as [|x l IH]; intros lo; simpl; [done|]. intros (H1 & H2 & H3). apply IH in H3. unfold bend in H3. lia. Qed.

Lemma spaced_in lo l hi x : spaced lo l hi -> x ∈ l -> lo < x.1 /\ 0 < x.2 /\ bend x <= hi.
Proof.
  revert lo. induction l as [|y l IH]; intros lo Hs Hx; [by apply not_elem_of_nil in Hx|]. destruct Hs as (H1 & H2 & H3). apply elem_of_cons in Hx as [->|Hx].
  - split_and!; [done|done|by eapply spaced_le].
  - destruct (IH _ H3 Hx) as (H4 & H5 & H6). unfold bend in H4. split_and!; [lia|done|done].
Qed.

Lemma spaced_hi lo l hi hi' : spaced lo l hi -> hi <= hi' -> spaced lo l hi'.
Proof. revert lo. induction l as [|x l IH]; intros lo; simpl; [lia|naive_solver]. Qed.

(** ** Going round the list *)

Section circle.
Context {W : Type} `{Kernel W} `{Rounds}.
Variables (base : Z) (fl : list block) (m : mem) (hi : Z).
Local Abbreviation nodes := ((base, 0) :: fl).
Hypothesis Hlinks : links m nodes base.
Hypothesis Hsp : spaced (base + 16) fl hi.

Definition succ (N k : nat) : nat := if (S k <? N)%nat then S k else 0.
(** Steps from [k] to [t]. *)
Definition dist (N k t : nat) : nat := if (k <=? t)%nat then t - k else N - k + t.

Lemma dist_succ N k t : (k < N)%nat -> (t < N)%nat -> k <> t -> S (dist N (succ N k) t) = dist N k t.
Proof. unfold dist, succ. intros Hk Ht Hne. destruct (Nat.ltb_spec (S k) N), (Nat.leb_spec k t); [| |lia|]; repeat case_match; try lia; rewrite ?Nat.leb_le, ?Nat.leb_gt in *; lia. Qed.

Lemma dist_le N k t : (k < N)%nat -> (t < N)%nat -> (dist N k t < N)%nat.
Proof. unfold dist. intros Hk Ht. destruct (Nat.leb_spec k t); lia. Qed.

Lemma links_at l q k x : links m l q -> l !! k = Some x -> ld64 m x.1 = nxt (drop (S k) l) q /\ ld32 m (x.1 + 8) = x.2.
Proof. revert k. induction l as [|y l IH]; intros k Hl Hk; [done|]. destruct Hl as (H1 & H2 & H3). destruct k as [|k]; simpl in Hk; [by simplify_eq|by apply IH]. Qed.

Lemma nodes_next k x : nodes !! k = Some x -> exists y, nodes !! succ (length nodes) k = Some y /\ ld64 m x.1 = y.1 /\ ld32 m (x.1 + 8) = x.2.
Proof.
  intros Hk. destruct (links_at _ _ _ _ Hlinks Hk) as [H1 H2]. unfold succ. destruct (Nat.ltb_spec (S k) (length nodes)) as [Hl|Hl].
  - destruct (lookup_lt_is_Some_2 nodes (S k) Hl) as [y Hy]. exists y. split_and!; [done| |done]. rewrite H1. by erewrite drop_S.
  - exists (base, 0). split_and!; [done| |done]. rewrite H1, drop_ge by lia. done.
Qed.

Lemma spaced_lookup lo l j k x y : spaced lo l hi -> l !! j = Some x -> l !! k = Some y -> (j < k)%nat -> bend x < y.1.
Proof.
  revert lo j k. induction l as [|z l IH]; intros lo j k Hs Hj Hk Hlt; [done|]. destruct k as [|k]; [lia|]. destruct Hs as (H1 & H2 & H3). simpl in Hk.
  destruct j as [|j]; simpl in Hj; [|by apply (IH (bend z) j k); try done; lia]. simplify_eq.
  apply list_elem_of_lookup_2 in Hk. by destruct (spaced_in _ _ _ _ H3 Hk).
Qed.

Lemma nodes_lt j k x y : nodes !! j = Some x -> nodes !! k = Some y -> (j < k)%nat -> x.1 + 16 < y.1 /\ (0 < x.2 -> bend x < y.1).
Proof.
  intros Hj Hk Hlt. destruct k as [|k]; [lia|]. simpl in Hk. destruct j as [|j]; simpl in Hj.
  - simplify_eq. destruct (spaced_in _ _ _ _ Hsp (list_elem_of_lookup_2 _ _ _ Hk)). simpl. lia.
  - pose proof (spaced_lookup _ _ _ _ _ _ Hsp Hj Hk ltac:(lia)). destruct (spaced_in _ _ _ _ Hsp (list_elem_of_lookup_2 _ _ _ Hj)) as (_ & Hpos & _). unfold bend in *. lia.
Qed.

(** Where a block belongs. *)
Lemma nodes_split bp : base < bp -> (forall x, x ∈ fl -> x.1 <> bp) -> exists A x B, nodes = A ++ x :: B /\ x.1 < bp /\ forall y, y ∈ B -> bp < y.1.
Proof.
  intros Hbp Hne. assert (Hgen : forall lo l z, spaced lo l hi -> z.1 < bp -> (forall x, x ∈ l -> x.1 <> bp) ->
    exists A x B, z :: l = A ++ x :: B /\ x.1 < bp /\ forall y, y ∈ B -> bp < y.1).
  { clear. intros lo l. revert lo. induction l as [|y l IH]; intros lo z Hs Hz Hne.
    - exists [], z, []. split_and!; [done|done|]. by intros y ?%not_elem_of_nil.
    - destruct Hs as (H1 & H2 & H3). destruct (decide (y.1 < bp)) as [Hy|Hy].
      + destruct (IH (bend y) y H3 Hy) as (A & x & B & HAB & Hx & HB); [intros x Hx; apply Hne; by right|].
        exists (z :: A), x, B. rewrite HAB. done.
      + exists [], z, (y :: l). split_and!; [done|done|]. intros x [->|Hx]%elem_of_cons.
        * assert (y.1 <> bp) by (apply Hne; by left). lia.
        * destruct (spaced_in _ _ _ _ H3 Hx) as (H4 & _). unfold bend in H4. assert (y.1 <> bp) by (apply Hne; by left). lia. }
  by apply (Hgen (base + 16) fl (base, 0)).
Qed.

(** The loop of [free] finds it. *)
Lemma free_find (s : ust W heap) bp j y A x B :
  umem (glob s) = m -> nodes = A ++ x :: B -> base < bp -> x.1 < bp -> (forall z, z ∈ B -> bp < z.1) ->
  nodes !! j = Some y -> (length nodes < rounds)%nat ->
  wp (while_fuel UFuel rounds (fun p =>
    next <- hptr p ;;
    if (p <? bp) && (bp <? next) then ret (inr p) else
    if (next <=? p) && ((p <? bp) || (bp <? next)) then ret (inr p) else
    ret (inl next)) y.1) (fun p s' => p = x.1 /\ s' = s) s.
Proof.
  intros Hm HAB Hbp Hx HB Hj Hr. set (N := length nodes). set (t := length A).
  assert (HlenN : N = (t + S (length B))%nat) by (unfold N, t; rewrite HAB, length_app; done).
  assert (Ht : nodes !! t = Some x) by (rewrite HAB; by apply list_lookup_middle).
  assert (Hgo : forall n k z, nodes !! k = Some z -> (dist N k t < n)%nat ->
    wp (while_fuel UFuel n (fun p =>
      next <- hptr p ;;
      if (p <? bp) && (bp <? next) then ret (inr p) else
      if (next <=? p) && ((p <? bp) || (bp <? next)) then ret (inr p) else
      ret (inl next)) z.1) (fun p s' => p = x.1 /\ s' = s) s).
  2: { apply (Hgo rounds j y Hj). pose proof (dist_le N j t ltac:(by eapply lookup_lt_Some) ltac:(lia)). unfold N in *. lia. }
  induction n as [|n IH]; intros k z Hk Hd; [lia|]. cbn [while_fuel]. destruct (nodes_next k z Hk) as (y' & Hy' & Hptr & _).
  apply wp_bind, wp_bind, wp_gets. rewrite Hm, Hptr. pose proof (lookup_lt_Some _ _ _ Hk) as HkN. fold N in HkN, Hy'. unfold succ in Hy'.
  destruct (decide (k = t)) as [->|Hne].
  - assert (z = x) as -> by congruence.
    assert (Hstop : (x.1 <? bp) && (bp <? y'.1) = true \/ (y'.1 <=? x.1) && ((x.1 <? bp) || (bp <? y'.1)) = true).
    { rewrite (proj2 (Z.ltb_lt x.1 bp) Hx). destruct (Nat.ltb_spec (S t) N) as [Hl|Hl].
      - left. apply Z.ltb_lt, HB. apply list_elem_of_lookup. exists 0%nat. rewrite HAB, lookup_app_r in Hy' by (unfold t; lia).
        replace (S t - length A)%nat with 1%nat in Hy' by (unfold t; lia). done.
      - right. simpl in Hy'. simplify_eq. rewrite andb_true_r. apply Z.leb_le. simpl. destruct t as [|t'] eqn:Et.
        + simpl in Ht. by simplify_eq.
        + pose proof (nodes_lt 0 (S t') (base, 0) x eq_refl Ht ltac:(lia)) as [Hlt _]. simpl in Hlt. lia. }
    destruct ((x.1 <? bp) && (bp <? y'.1)) eqn:E1; [by apply wp_ret, wp_ret|]. destruct Hstop as [|E2]; [done|]. rewrite E2. by apply wp_ret, wp_ret.
  - assert (Hgo : (z.1 <? bp) && (bp <? y'.1) = false /\ (y'.1 <=? z.1) && ((z.1 <? bp) || (bp <? y'.1)) = false).
    { destruct (decide (k < t)%nat) as [Hlt|Hge].
      - rewrite (proj2 (Nat.ltb_lt (S k) N)) in Hy' by lia. destruct (nodes_lt _ _ _ _ Hk Hy' ltac:(lia)) as [Hzy _].
        assert (Hyx : y'.1 <= x.1). { destruct (decide (S k = t)) as [He|He]; [rewrite He, Ht in Hy'; by simplify_eq|]. destruct (nodes_lt _ _ _ _ Hy' Ht ltac:(lia)). lia. }
        rewrite (proj2 (Z.ltb_ge bp y'.1)), (proj2 (Z.leb_gt y'.1 z.1)), andb_false_r by lia. done.
      - assert (Hz : bp < z.1). { apply HB. apply list_elem_of_lookup. exists (k - S t)%nat. rewrite HAB, lookup_app_r in Hk by (unfold t in *; lia).
          destruct (k - length A)%nat as [|e] eqn:Ee; [unfold t in *; lia|]. replace (k - S t)%nat with e by (unfold t; lia). done. }
        rewrite (proj2 (Z.ltb_ge z.1 bp)) by lia. cbn [andb orb]. split; [done|]. destruct (Nat.ltb_spec (S k) N) as [Hl|Hl].
        + destruct (nodes_lt _ _ _ _ Hk Hy' ltac:(lia)) as [Hzy _]. by rewrite (proj2 (Z.leb_gt y'.1 z.1)) by lia.
        + simpl in Hy'. simplify_eq. simpl. rewrite (proj2 (Z.ltb_ge bp base)) by lia. by rewrite andb_false_r. }
    destruct Hgo as [-> ->]. apply wp_ret. apply (IH (succ N k) y'); [exact Hy'|]. pose proof (dist_succ N k t HkN ltac:(lia) Hne). lia.
Qed.
End circle.

(** ** [free] *)

Definition total (l : list block) : Z := foldr (fun x t => x.2 + t) 0 l.

Lemma total_app l l' : total (l ++ l') = total l + total l'.
Proof. induction l as [|x l IH]; simpl; [done|]. rewrite IH. lia. Qed.

(** The block [b] has been added to the free blocks [fl] in memory [m]: now they are [fl']. *)
Record freed (base hi : Z) (fl : list block) (b : block) (m : mem) (g' : heap) (fl' : list block) : Prop := {
  fr_links : links (umem g') ((base, 0) :: fl') base;
  fr_spaced : spaced (base + 16) fl' hi;
  fr_freep : exists k x, ((base, 0) :: fl') !! k = Some x /\ freep g' = x.1;
  fr_apart : forall y, 0 < y.2 -> (forall x, x ∈ fl -> apart y x) -> apart y b -> forall x, x ∈ fl' -> apart y x;
  fr_mem : forall a, (forall x, x ∈ b :: (base, 0) :: fl -> a < x.1 \/ x.1 + 12 <= a) -> ld8 (umem g') a = ld8 m a;
  fr_len : (length fl' <= S (length fl))%nat;
  fr_total : total fl' = total fl + b.2;
  fr_here : exists z, z ∈ fl' /\ z.1 <= b.1 /\ bend b <= bend z /\ (freep g' = z.1 \/ ld64 (umem g') (freep g') = z.1)
}.

Section free_ok.
Context {W : Type} `{Kernel W} `{Rounds}.
Variables (base hi : Z).
Hypothesis Hbase : 0 < base.
Hypothesis Hhi : hi <= 2 ^ 36.

Lemma hadd_small p n : 0 <= p + 16 * n <= 2 ^ 36 -> hadd p n = p + 16 * n.
Proof. intros Hp. unfold hadd, sizeof_Header. apply wrap_small. lia. Qed.

Lemma nxt_range lo l : spaced lo l hi -> 0 <= lo -> 0 <= nxt l base <= Z.max base hi.
Proof. intros Hs Hlo. destruct l as [|x l]; simpl; [lia|]. destruct Hs as (H1' & H2' & H3'). apply spaced_le in H3'. unfold bend in H3'. lia. Qed.

(** The block is joined with the one after it, when it is adjacent to it. *)
Lemma free_right (s : ust W heap) p B b n (k : U W heap unit) Q :
  ld64 (umem (glob s)) p = nxt B base -> ld32 (umem (glob s)) (b + 8) = n -> links (umem (glob s)) B base -> base + 16 < b -> 0 < n -> b + 16 * n <= hi ->
  (forall y, y ∈ B -> b < y.1 /\ apart (b, n) y) -> spaced b B hi ->
  (forall m1 y B', but_header b (umem (glob s)) m1 -> links m1 (y :: B') base -> y.1 = b -> n <= y.2 -> spaced (bend y) B' hi ->
    (forall z, 0 < z.2 -> apart z (b, n) -> (forall x, x ∈ B -> apart z x) -> forall x, x ∈ y :: B' -> apart z x) ->
    (forall z, z ∈ B' -> z ∈ B) -> (length B' <= length B)%nat -> total (y :: B') = n + total B ->
    wp k Q (mkUst (world s) (mkHeap (freep (glob s)) m1))) ->
  wp (size <- hsize b ;;
      next <- hptr p ;;
      (if hadd b size =? next then
         nsize <- hsize next ;;
         set_hsize b (u32 (size + nsize)) ;;
         nnext <- hptr next ;;
         set_hptr b nnext
       else set_hptr b next) ;; k) Q s.
Proof.
  intros Hp Hn HB Hlo Hpos Hend Hap Hsp Hk. apply wp_bind, wp_gets, wp_bind, wp_gets. rewrite Hn, Hp, hadd_small by lia. destruct B as [|[a2 n2] B']; simpl nxt.
  - rewrite (proj2 (Z.eqb_neq _ base)) by lia. apply wp_bind, wp_modify. simpl in Hsp. apply (Hk _ (b, n) []).
    + apply but_header_ptr.
    + simpl. rewrite ld64_st64_same, size_set_ptr. split_and!; [apply wrap_small; lia|done|done].
    + done.
    + simpl. lia.
    + simpl. unfold bend. simpl. lia.
    + intros z Hz1 Hz2 _ x [->|Hx]%elem_of_cons; [done|by apply not_elem_of_nil in Hx].
    + done.
    + simpl. lia.
    + simpl. lia.
  - destruct (Hap (a2, n2) ltac:(apply elem_of_cons; by left)) as [Ha2 Hap2]. simpl in Ha2. unfold apart, bend in Hap2. simpl in Hap2. destruct HB as (HB1 & HB2 & HB3). simpl in HB1, HB2.
    destruct Hsp as (Hs1 & Hs2 & Hs3). simpl in Hs1, Hs2. pose proof (spaced_le _ _ _ Hs3) as Hs4. unfold bend in Hs3, Hs4. simpl in Hs3, Hs4.
    assert (Ha2' : b + 16 * n <= a2) by lia.
    destruct (Z.eqb_spec (b + 16 * n) a2) as [He|Hne].
    + apply wp_bind, wp_bind, wp_gets. apply wp_bind, wp_modify, wp_bind, wp_gets, wp_modify. simpl umem.
      rewrite HB2, (ptr_but b a2 (umem (glob s)) _ (but_header_size _ _ _)) by lia. rewrite HB1, (wrap_small 32) by lia.
      assert (Hbh : but_header b (umem (glob s)) (st64 (st32 (umem (glob s)) (b + 8) (n + n2)) b (nxt B' base)))
        by (eapply but_header_trans; [apply but_header_size|apply but_header_ptr]).
      apply (Hk _ (b, n + n2) B').
      * exact Hbh.
      * split_and!; [rewrite ld64_st64_same; apply wrap_small; pose proof (nxt_range _ _ Hs3 ltac:(lia)); lia|
          rewrite size_set_ptr, ld32_st32_same; apply wrap_small; simpl; lia|].
        eapply links_frame; [exact HB3|]. intros z Hz. destruct (spaced_in _ _ _ _ Hs3 Hz) as (Hz1 & _).
        split; [eapply ptr_but; [exact Hbh|lia]|eapply size_but; [exact Hbh|lia]].
      * done.
      * simpl. lia.
      * unfold bend. simpl. replace (b + 16 * (n + n2)) with (a2 + 16 * n2) by lia. done.
      * intros z Hz1 Hz2 Hz3 x [->|Hx]%elem_of_cons; [|apply Hz3; by right]. specialize (Hz3 (a2, n2) ltac:(apply elem_of_cons; by left)).
        unfold apart, bend in *. simpl in *. lia.
      * intros z Hz. by right.
      * simpl. lia.
      * simpl. lia.
    + apply wp_bind, wp_modify. assert (Hbh : but_header b (umem (glob s)) (st64 (umem (glob s)) b a2)) by apply but_header_ptr.
      apply (Hk _ (b, n) ((a2, n2) :: B')); try done.
      * split_and!; [rewrite ld64_st64_same; apply wrap_small; simpl; lia|rewrite size_set_ptr; done|].
        assert (Hln : links (umem (glob s)) ((a2, n2) :: B') base) by done. eapply links_frame; [exact Hln|]. intros z Hz.
        assert (Hz1 : b + 16 * n <= z.1).
        { apply elem_of_cons in Hz as [->|Hz]; [done|]. destruct (spaced_in _ _ _ _ Hs3 Hz) as (Hz1 & _). lia. }
        split; [eapply ptr_but; [exact Hbh|lia]|eapply size_but; [exact Hbh|lia]].
      * unfold bend. simpl. split_and!; [lia|done|done].
      * intros z Hz1 Hz2 Hz3 x [->|Hx]%elem_of_cons; [done|by apply Hz3].
Qed.


(** Where the list is cut: [p] is the node before the block. *)
Lemma free_cut fl A x B b : (base, 0) :: fl = A ++ x :: B -> spaced (base + 16) fl hi -> x.1 < b -> base + 16 < b ->
  (A = [] /\ x = (base, 0) /\ fl = B) \/ (exists A', A = (base, 0) :: A' /\ fl = A' ++ x :: B /\ 0 < x.2 /\ base + 16 < x.1).
Proof.
  intros HAB Hsp Hx Hb. destruct A as [|z A]; simplify_eq/=; [by left|]. right. exists A. split_and!; [done|done| |];
  by destruct (spaced_in _ _ _ x Hsp ltac:(set_solver)) as (? & ? & _).
Qed.

Lemma links_cut m A x B q : links m (A ++ x :: B) q <-> links m A x.1 /\ ld64 m x.1 = nxt B q /\ ld32 m (x.1 + 8) = x.2 /\ links m B q.
Proof. by rewrite links_app. Qed.

(** The block is joined with the one before it, when that is adjacent to it. *)
Lemma free_left (s : ust W heap) (m0 : mem) fl A x B b n y B' (Q : unit -> ust W heap -> Prop) :
  (base, 0) :: fl = A ++ x :: B -> spaced (base + 16) fl hi -> x.1 < b -> base + 16 < b -> 0 < n -> apart (b, n) x \/ x = (base, 0) ->
  links (umem (glob s)) A x.1 -> ld32 (umem (glob s)) (x.1 + 8) = x.2 ->
  but_header b m0 (umem (glob s)) -> links (umem (glob s)) (y :: B') base -> y.1 = b -> n <= y.2 -> spaced (bend y) B' hi ->
  (forall z, 0 < z.2 -> apart z (b, n) -> (forall x, x ∈ B -> apart z x) -> forall x, x ∈ y :: B' -> apart z x) ->
  (length B' <= length B)%nat -> total (y :: B') = n + total B ->
  (forall g' fl', freed base hi fl (b, n) m0 g' fl' -> Q tt (mkUst (world s) g')) ->
  wp (psize <- hsize x.1 ;;
      (if hadd x.1 psize =? b then
         size <- hsize b ;;
         set_hsize x.1 (u32 (psize + size)) ;;
         next <- hptr b ;;
         set_hptr x.1 next
       else set_hptr x.1 b) ;;
      set_freep x.1) Q s.
Proof.
  intros HAB Hsp Hx Hb Hn Hap HA Hxs Hbh Hy Hyb Hny HspB Hyap Hlen Htot HQ. pose proof (spaced_le _ _ _ HspB) as Hye. unfold bend in Hye. rewrite Hyb in Hye.
  pose proof (free_cut fl A x B b HAB Hsp Hx Hb) as Hcut. destruct Hy as (Hy1 & Hy2 & Hy3). rewrite Hyb in Hy1, Hy2.
  assert (Hx0 : base <= x.1 /\ 0 <= x.2 /\ x.1 + 16 <= b).
  { destruct Hcut as [(_ & -> & _)|(A' & _ & _ & Hx2 & Hx1)]; simpl; [lia|]. destruct Hap as [Hap| ->]; [|simpl in *; lia]. unfold apart, bend in Hap. simpl in Hap. lia. }
  assert (HAx : forall z, z ∈ A -> z.1 + 16 <= x.1).
  { intros z Hz. destruct Hcut as [(-> & _)|(A' & -> & -> & Hx2 & Hx1)]; [by apply not_elem_of_nil in Hz|].
    apply elem_of_cons in Hz as [->|Hz]; [simpl; lia|]. apply spaced_app in Hsp as [Hs1 Hs2]. destruct Hs2 as (Hs2 & _ & _).
    destruct (spaced_in _ _ _ _ Hs1 Hz) as (_ & Hz2 & Hz3). unfold bend in Hz3. lia. }
  assert (HB'x : forall z, z ∈ B' -> x.1 + 16 <= z.1 /\ b + 16 <= z.1).
  { intros z Hz. destruct (spaced_in _ _ _ _ HspB Hz) as (Hz1 & _). unfold bend in Hz1. rewrite Hyb in Hz1. lia. }
  apply wp_bind, wp_gets. rewrite Hxs. destruct (Z.eqb_spec (hadd x.1 x.2) b) as [He|Hne].
  - assert (Hxn : x.1 + 16 * x.2 = b) by (rewrite hadd_small in He; [done|]; destruct Hcut as [(_ & -> & _)|(A' & _ & _ & Hx2 & Hx1)]; simpl; [lia|];
      destruct Hap as [Hap| ->]; [|simpl in *; lia]; unfold apart, bend in Hap; simpl in Hap; lia).
    destruct Hcut as [(_ & -> & _)|(A' & -> & -> & Hx2 & Hx1)]; [simpl in Hxn; lia|].
    apply wp_bind, wp_bind, wp_gets. apply wp_bind, wp_modify, wp_bind, wp_gets, wp_modify, wp_modify. simpl umem. simpl freep. simpl world.
    rewrite Hy2, (ptr_but x.1 b (umem (glob s)) _ (but_header_size _ _ _)), Hy1, (wrap_small 32) by lia. set (m2 := st64 _ x.1 _).
    assert (Hb2 : but_header x.1 (umem (glob s)) m2) by (eapply but_header_trans; [apply but_header_size|apply but_header_ptr]).
    assert (Hfr : forall z : block, z.1 + 16 <= x.1 \/ x.1 + 16 <= z.1 -> ld64 m2 z.1 = ld64 (umem (glob s)) z.1 /\ ld32 m2 (z.1 + 8) = ld32 (umem (glob s)) (z.1 + 8))
      by (intros z Hz; split; [eapply ptr_but; [exact Hb2|lia]|eapply size_but; [exact Hb2|lia]]).
    apply spaced_app in Hsp as [Hs1 (Hs2 & Hs3 & Hs4)]. apply (HQ _ (A' ++ (x.1, x.2 + y.2) :: B')). split; simpl umem; simpl freep.
    + change (links m2 (((base, 0) :: A') ++ (x.1, x.2 + y.2) :: B') base). apply links_cut. cbn [fst snd]. split_and!.
      * eapply links_frame; [exact HA|]. intros z Hz. apply Hfr. left. by apply HAx.
      * unfold m2. rewrite ld64_st64_same. apply wrap_small. pose proof (nxt_range _ _ HspB ltac:(unfold bend; lia)). lia.
      * unfold m2. rewrite size_set_ptr, ld32_st32_same. apply wrap_small. lia.
      * eapply links_frame; [exact Hy3|]. intros z Hz. apply Hfr. right. by apply HB'x.
    + apply spaced_app. split; [exact Hs1|]. split_and!; [done|simpl; lia|]. replace (bend (x.1, x.2 + y.2)) with (bend y); [done|]. unfold bend. simpl. lia.
    + exists (length ((base, 0) :: A')), (x.1, x.2 + y.2). split; [|done]. change (((base, 0) :: A') ++ (x.1, x.2 + y.2) :: B') with (((base, 0) :: A') ++ [(x.1, x.2 + y.2)] ++ B').
      by apply list_lookup_middle.
    + intros z Hz Hzf Hzb q [Hq|[->|Hq]%elem_of_cons]%elem_of_app; [apply Hzf; set_solver| |apply Hyap; [done|done|set_solver|by right]].
      assert (H1' : apart z x) by (apply Hzf; set_solver). assert (H2' : apart z y) by (apply Hyap; [done|done|set_solver|by left]).
      unfold apart, bend in *. simpl. lia.
    + intros a Ha. rewrite Hb2 by (apply Ha; set_solver). apply Hbh. apply (Ha (b, n)). set_solver.
    + rewrite !length_app. simpl. lia.
    + rewrite !total_app. simpl. simpl in Htot. lia.
    + exists (x.1, x.2 + y.2). split_and!; [set_solver|simpl; lia|unfold bend; simpl; lia|by left].
  - apply wp_bind, wp_modify, wp_modify. simpl umem. simpl freep. simpl world. set (m2 := st64 _ x.1 _).
    assert (Hb2 : but_header x.1 (umem (glob s)) m2) by apply but_header_ptr.
    assert (Hfr : forall z : block, z.1 + 16 <= x.1 \/ x.1 + 16 <= z.1 -> ld64 m2 z.1 = ld64 (umem (glob s)) z.1 /\ ld32 m2 (z.1 + 8) = ld32 (umem (glob s)) (z.1 + 8))
      by (intros z Hz; split; [eapply ptr_but; [exact Hb2|lia]|eapply size_but; [exact Hb2|lia]]).
    assert (Hln : forall A', A = A' -> links m2 (A' ++ x :: y :: B') base).
    { intros ? <-. apply links_cut. split_and!.
      - eapply links_frame; [exact HA|]. intros z Hz. apply Hfr. left. by apply HAx.
      - unfold m2. rewrite ld64_st64_same. simpl. rewrite Hyb. apply wrap_small. lia.
      - unfold m2. by rewrite size_set_ptr.
      - destruct (Hfr y ltac:(lia)) as [Hf1 Hf2]. split_and!; [by rewrite Hf1, Hyb|by rewrite Hf2, Hyb|].
        eapply links_frame; [exact Hy3|]. intros z Hz. apply Hfr. right. by apply HB'x. }
    assert (Hptr : ld64 m2 x.1 = y.1) by (unfold m2; rewrite ld64_st64_same, Hyb; apply wrap_small; lia).
    assert (Hmem : forall a, (forall q, q ∈ (b, n) :: (base, 0) :: fl -> a < q.1 \/ q.1 + 12 <= a) -> ld8 m2 a = ld8 m0 a).
    { intros a Ha. rewrite Hb2; [apply Hbh, (Ha (b, n)); set_solver|]. apply Ha. right. rewrite HAB. set_solver. }
    destruct Hcut as [(-> & -> & ->)|(A' & -> & -> & Hx2 & Hx1)].
    + apply (HQ _ (y :: B')). split; simpl umem; simpl freep.
      * exact (Hln [] eq_refl).
      * split_and!; [lia|lia|done].
      * by exists 0%nat, (base, 0).
      * intros z Hz Hzf Hzb. by apply Hyap.
      * exact Hmem.
      * simpl. lia.
      * cbn [snd]. simpl in Htot |- *. lia.
      * exists y. split_and!; [set_solver|simpl; lia|unfold bend; simpl; lia|by right].
    + apply spaced_app in Hsp as [Hs1 (Hs2 & Hs3 & Hs4)]. assert (Hxb : bend x < b).
      { destruct Hap as [Hap| ->]; [|simpl in *; lia]. unfold apart, bend in *. simpl in Hap. rewrite hadd_small in Hne by lia. lia. }
      apply (HQ _ (A' ++ x :: y :: B')). split; simpl umem; simpl freep.
      * exact (Hln _ eq_refl).
      * apply spaced_app. split; [exact Hs1|]. split_and!; [done|done|split_and!; [by rewrite Hyb|lia|done]].
      * exists (length ((base, 0) :: A')), x. split; [|done]. exact (list_lookup_middle ((base, 0) :: A') (y :: B') x _ eq_refl).
      * intros z Hz Hzf Hzb q [Hq|[->|Hq]%elem_of_cons]%elem_of_app; [apply Hzf; set_solver|apply Hzf; set_solver|apply Hyap; [done|done|set_solver|done]].
      * exact Hmem.
      * rewrite !length_app. simpl. lia.
      * rewrite !total_app. simpl. simpl in Htot. lia.
      * exists y. split_and!; [set_solver|simpl; lia|unfold bend; simpl; lia|by right].
Qed.

Lemma free_spec (s : ust W heap) fl j y b n (Q : unit -> ust W heap -> Prop) :
  links (umem (glob s)) ((base, 0) :: fl) base -> spaced (base + 16) fl hi -> ((base, 0) :: fl) !! j = Some y -> freep (glob s) = y.1 ->
  base + 16 < b -> 0 < n -> b + 16 * n <= hi -> ld32 (umem (glob s)) (b + 8) = n -> (forall x, x ∈ fl -> apart (b, n) x) -> (S (length fl) < rounds)%nat ->
  (forall g' fl', freed base hi fl (b, n) (umem (glob s)) g' fl' -> Q tt (mkUst (world s) g')) ->
  wp (free (b + 16)) Q s.
Proof.
  intros Hln Hsp Hj Hfp Hb Hn Hend Hsz Hap Hr HQ. unfold free. replace (hadd (b + 16) (-1)) with b by (rewrite hadd_small; lia).
  destruct (nodes_split base fl hi Hsp b ltac:(lia)) as (A & x & B & HAB & Hx & HB).
  { intros z Hz Hzb. specialize (Hap z Hz). destruct (spaced_in _ _ _ _ Hsp Hz) as (_ & Hz2 & _). unfold apart, bend in Hap. simpl in Hap. lia. }
  apply wp_bind, wp_gets. rewrite Hfp. eapply wp_seq; [apply (free_find base fl (umem (glob s)) hi Hln Hsp s b j y A x B); try done; lia|].
  intros p s' [-> ->]. pose proof Hln as Hln'. rewrite HAB in Hln'. apply links_cut in Hln' as (HA & Hxp & Hxs & HlB).
  assert (HBfl : forall z, z ∈ B -> z ∈ fl) by (intros z Hz; destruct A as [|? A]; simplify_eq/=; set_solver).
  assert (Hxap : apart (b, n) x \/ x = (base, 0)) by (destruct A as [|? A]; simplify_eq/=; [by right|left; apply Hap; set_solver]).
  assert (HspB : spaced b B hi).
  { destruct B as [|z B]; [simpl; lia|]. assert (Hz : spaced (bend z) B hi /\ 0 < z.2).
    { destruct A as [|? A]; simplify_eq/=; [by destruct Hsp as (_ & ? & ?)|]. apply spaced_app in Hsp as [_ (_ & _ & _ & ? & ?)]. done. }
    specialize (HB z ltac:(set_solver)). specialize (Hap z (HBfl z ltac:(set_solver))). unfold apart, bend in Hap. simpl in Hap. split_and!; [lia|apply Hz|apply Hz]. }
  apply (free_right s x.1 B b n _ _ Hxp Hsz HlB Hb Hn Hend); [intros z Hz; split; [by apply HB|by apply Hap, HBfl]|done|].
  intros m1 y1 B' Hbh Hy Hyb Hny HspB' Hyap _ Hlen Htot.
  assert (Hxlt : x.1 + 16 <= b).
  { destruct Hxap as [Hxa| ->]; [|simpl; lia]. destruct A as [|? A]; simplify_eq/=; [lia|]. destruct (spaced_in _ _ _ x Hsp ltac:(set_solver)) as (_ & ? & _).
    unfold apart, bend in Hxa. simpl in Hxa. lia. }
  eapply (free_left _ (umem (glob s)) fl A x B b n y1 B'); try done; simpl.
  - eapply links_frame; [exact HA|]. intros z Hz. assert (Hzx : z.1 + 16 <= b).
    { apply list_elem_of_lookup in Hz as [k Hk]. destruct (nodes_lt base fl hi Hsp k (length A) z x) as [Hlt _]; [rewrite HAB; by apply lookup_app_l_Some|
        rewrite HAB; by apply list_lookup_middle|by eapply lookup_lt_Some|lia]. }
    split; [eapply ptr_but; [exact Hbh|lia]|eapply size_but; [exact Hbh|lia]].
  - rewrite (size_but b x.1 (umem (glob s)) m1 Hbh) by lia. done.
Qed.
End free_ok.

(** ** [malloc] *)

(** [sbrk] fails, or gives the memory from the old end of the process on. *)
Class Brk (W : Type) `{Kernel W} := {
  brk : W -> Z;
  brk_max : forall w, brk w <= 2 ^ 36;
  brk_law : forall n w, 0 < n < 2 ^ 31 -> exists r w', sc_sbrk n w = (r, w') /\
    (r = -1 /\ brk w' = brk w \/ r = brk w /\ brk w' = brk w + n)
}.

Section malloc_ok.
Context {W : Type} `{Brk W} `{Rounds}.
Variable base : Z.
Hypothesis Hbase : 0 < base.

Local Abbreviation nodes fl := ((base, 0) :: fl).

(** The free list, in a heap that ends at [hi]. *)
Record flist (hi : Z) (g : heap) (fl : list block) : Prop := {
  fl_links : links (umem g) (nodes fl) base;
  fl_spaced : spaced (base + 16) fl hi;
  fl_freep : exists k x, nodes fl !! k = Some x /\ freep g = x.1
}.

(** Blocks that are not on the list stay off it, and their bytes stay as they are. *)
Definition keeps (hi : Z) (m : mem) (fl : list block) (m' : mem) (fl' : list block) : Prop :=
  forall y : block, 0 < y.2 -> base + 16 < y.1 -> bend y <= hi -> (forall x, x ∈ fl -> apart y x) ->
    (forall x, x ∈ fl' -> apart y x) /\ (forall a, y.1 <= a < bend y -> ld8 m' a = ld8 m a).

Lemma keeps_refl hi m fl : keeps hi m fl m fl.
Proof. intros y _ _ _ Hy. by split. Qed.
Lemma keeps_trans hi hi' m fl m1 fl1 m2 fl2 : hi <= hi' -> keeps hi m fl m1 fl1 -> keeps hi' m1 fl1 m2 fl2 -> keeps hi m fl m2 fl2.
Proof.
  intros Hhi K1 K2 y H1' H2' H3' H4'. destruct (K1 y H1' H2' H3' H4') as [Ha Hm]. destruct (K2 y H1' H2' ltac:(lia) Ha) as [Ha2 Hm2].
  split; [done|]. intros a Ha'. by rewrite Hm2, Hm.
Qed.

(** Changing the header of a node does not touch the other blocks. *)
Lemma keeps_header hi m fl m' fl' (x : block) :
  but_header x.1 m m' -> (x = (base, 0) \/ (x ∈ fl /\ 0 < x.2)) -> (forall y : block, 0 < y.2 -> (forall x, x ∈ fl -> apart y x) -> forall x, x ∈ fl' -> apart y x) ->
  keeps hi m fl m' fl'.
Proof.
  intros Hbh Hx Hap y Hy1 Hy2 Hy3 Hy4. split; [by apply Hap|]. intros a Ha. apply Hbh. destruct Hx as [->|[Hx Hx2]]; [simpl; lia|].
  specialize (Hy4 x Hx). unfold apart, bend in *. lia.
Qed.

(** [sbrk] has been asked for [nu] units, or for 4096 if that is more, and has refused. *)
Definition refused (nu : Z) (w w' : W) : Prop := sc_sbrk (16 * Z.max nu 4096) w = (-1, w').

(** What a call of [malloc] for [nu] units leaves: a free list; and nothing, when [sbrk] has refused, or a new block. *)
Definition mresult (w : W) (m : mem) (fl : list block) (nu : Z) (r : Z) (s' : ust W heap) : Prop :=
  exists fl', brk w <= brk (world s') /\ flist (brk (world s')) (glob s') fl' /\ (length fl' <= S (length fl))%nat /\ keeps (brk w) m fl (umem (glob s')) fl' /\
    (r = 0 /\ refused nu w (world s') \/ exists b, r = b + 16 /\ base + 16 < b /\ bend (b, nu) <= brk (world s') /\ ld32 (umem (glob s')) (b + 8) = nu /\ (forall x, x ∈ fl' -> apart (b, nu) x) /\
      forall y : block, 0 < y.2 -> base + 16 < y.1 -> bend y <= brk w -> (forall x, x ∈ fl -> apart y x) -> apart y (b, nu)).

Lemma spaced_lo lo lo' l hi : spaced lo l hi -> lo' <= lo -> spaced lo' l hi.
Proof. destruct l; simpl; intros; [lia|]. split_and!; [lia|naive_solver|naive_solver]. Qed.

(** Taking a block from the list, or the end of one. *)
Definition carve (nunits prevp p size : Z) : U W heap (Z * Z + Z) :=
  p <- (if size =? nunits then
          next <- hptr p ;;
          set_hptr prevp next ;;
          ret p
        else
          set_hsize p (u32 (size - nunits)) ;;
          size <- hsize p ;;
          let p := hadd p size in
          set_hsize p nunits ;;
          ret p) ;;
  set_freep prevp ;;
  ret (inr (hadd p 1)).

(** A block that keeps off the blocks of the list keeps off their parts. *)
Lemma apart_part (y x z : block) : apart y x -> 0 < y.2 -> 0 < z.2 -> x.1 <= z.1 -> bend z <= bend x -> apart y z.
Proof. unfold apart, bend. lia. Qed.

Lemma nodes_last (A : list block) y : nodes A !! length A = Some y -> exists A0, nodes A = A0 ++ [y].
Proof.
  intros Hy. exists (take (length A) (nodes A)). rewrite <- (take_drop (length A) (nodes A)) at 1. f_equal. erewrite drop_S by exact Hy. by rewrite drop_ge by (simpl; lia).
Qed.

Section carve_ok.
Variables (s : ust W heap) (w : W) (m0 : mem) (fl0 A : list block) (y x : block) (B : list block) (nu : Z).
Local Abbreviation m := (umem (glob s)).
Local Abbreviation hi := (brk (world s)).
Hypothesis Hfl : flist hi (glob s) (A ++ x :: B).
Hypothesis Hy : nodes A !! length A = Some y.
Hypothesis Hnu : 0 < nu <= x.2.
Hypothesis Hbrk : brk w <= hi.
Hypothesis Hlen : (length (A ++ x :: B) <= S (length fl0))%nat.
Hypothesis Hkeep : keeps (brk w) m0 fl0 m (A ++ x :: B).

Lemma carve_bounds : base <= y.1 /\ y.1 + 16 < x.1 /\ base + 16 < x.1 /\ bend x <= hi /\ hi <= 2 ^ 36 /\ (y = (base, 0) \/ (y ∈ A /\ 0 < y.2)).
Proof.
  destruct Hfl as [_ Hsp _]. pose proof (brk_max (world s)). destruct (spaced_in _ _ _ x Hsp ltac:(set_solver)) as (H1' & H2' & H3').
  pose proof (nodes_lt base (A ++ x :: B) hi Hsp (length A) (S (length A)) y x) as [Hlt _]; [|simpl; by apply list_lookup_middle|lia|].
  { change (nodes (A ++ x :: B)) with (nodes A ++ x :: B). by apply lookup_app_l_Some. }
  assert (Hy' : y = (base, 0) \/ y ∈ A). { destruct A as [|z A']; simpl in Hy; [by simplify_eq; left|]. right. by eapply list_elem_of_lookup_2. }
  destruct Hy' as [->|Hy']; [simpl in *; split_and!; (done || lia || by left)|].
  destruct (spaced_in _ _ _ y Hsp ltac:(set_solver)) as (H4' & H5' & _). split_and!; (done || lia || by right).
Qed.

(** The parts of the list before [y], [y] itself, [x] and the rest. *)
Lemma carve_parts : exists A0, nodes A = A0 ++ [y] /\ links m A0 y.1 /\ ld64 m y.1 = x.1 /\ ld32 m (y.1 + 8) = y.2 /\ ld64 m x.1 = nxt B base /\ ld32 m (x.1 + 8) = x.2 /\
  links m B base /\ (forall z, z ∈ A0 -> z.1 + 16 <= y.1) /\ (forall z, z ∈ B -> bend x < z.1).
Proof.
  destruct (nodes_last A y Hy) as (A0 & HA0). destruct Hfl as [Hln Hsp _]. change (nodes (A ++ x :: B)) with (nodes A ++ x :: B) in Hln. rewrite HA0 in Hln.
  apply links_cut in Hln as (HA & Hxp & Hxs & HB). apply links_app in HA as [HA (Hyp & Hys & _)]. exists A0. split_and!; try done.
  - intros z Hz. apply list_elem_of_lookup in Hz as [k Hk]. destruct (nodes_lt base (A ++ x :: B) hi Hsp k (length A) z y) as [Hlt _]; [| | |lia].
    + change (nodes (A ++ x :: B)) with (nodes A ++ x :: B). rewrite HA0, <- app_assoc. by apply lookup_app_l_Some.
    + change (nodes (A ++ x :: B)) with (nodes A ++ x :: B). by apply lookup_app_l_Some.
    + apply lookup_lt_Some in Hk. apply (f_equal length) in HA0. rewrite length_app in HA0. simpl in HA0. lia.
  - intros z Hz. apply spaced_app in Hsp as [_ (_ & _ & HsB)]. by destruct (spaced_in _ _ _ _ HsB Hz).
Qed.

Lemma carve_spec : wp (carve nu y.1 x.1 x.2) (fun r s' => exists v, r = inr v /\ mresult w m0 fl0 nu v s') s.
Proof.
  destruct carve_bounds as (Hb1 & Hb2 & Hb3 & Hb4 & Hmax & Hyin). destruct carve_parts as (A0 & HA0 & HlA & Hyp & Hys & Hxp & Hxs & HlB & HA0y & HBx).
  destruct Hfl as [_ Hsp _]. apply spaced_app in Hsp as [HsA (Hx1 & Hx2 & HsB)]. unfold bend in Hb4.
  assert (Hnx : 0 <= nxt B base <= 2 ^ 36) by (pose proof (nxt_range base hi Hbase _ _ HsB ltac:(unfold bend; lia)); lia).
  unfold carve. destruct (Z.eqb_spec x.2 nu) as [He|Hne].
  - apply wp_bind, wp_bind, wp_gets, wp_bind, wp_modify, wp_ret, wp_bind, wp_modify, wp_ret. rewrite Hxp, hadd_small by lia. exists (x.1 + 16 * 1). split; [done|].
    set (m1 := st64 m y.1 (nxt B base)). assert (Hbh : but_header y.1 m m1) by apply but_header_ptr. exists (A ++ B). cbn [world glob umem freep].
    assert (Hkp : keeps (brk w) m0 fl0 m1 (A ++ B)).
    { eapply keeps_trans; [|exact Hkeep|]; [reflexivity|]. apply (keeps_header _ _ _ _ _ y Hbh); [destruct Hyin as [|[? ?]]; [by left|right; set_solver]|]. set_solver. }
    split_and!; [done| | |exact Hkp|].
    + split; cbn [umem freep].
      * change (nodes (A ++ B)) with (nodes A ++ B). rewrite HA0, <- app_assoc. apply links_cut. split_and!.
        -- eapply links_frame; [exact HlA|]. intros z Hz. specialize (HA0y z Hz). split; [eapply ptr_but; [exact Hbh|lia]|eapply size_but; [exact Hbh|lia]].
        -- unfold m1. rewrite ld64_st64_same. apply wrap_small. lia.
        -- unfold m1. by rewrite size_set_ptr.
        -- eapply links_frame; [exact HlB|]. intros z Hz. specialize (HBx z Hz). unfold bend in HBx. split; [eapply ptr_but; [exact Hbh|lia]|eapply size_but; [exact Hbh|lia]].
      * apply spaced_app. split; [done|]. eapply spaced_lo; [exact HsB|]. unfold bend. lia.
      * exists (length A), y. split; [|done]. change (nodes (A ++ B)) with (nodes A ++ B). by apply lookup_app_l_Some.
    + rewrite length_app in *. simpl in Hlen. lia.
    + right. exists x.1. split_and!; [lia|done|unfold bend; simpl; lia| | |].
      * rewrite (size_but y.1 x.1 m m1 Hbh) by lia. lia.
      * intros q [Hq|Hq]%elem_of_app; unfold apart, bend; simpl.
        -- right. destruct (spaced_in _ _ _ _ HsA Hq) as (_ & _ & Hq3). unfold bend in Hq3. lia.
        -- left. specialize (HBx q Hq). unfold bend in HBx. lia.
      * intros q Hq1 Hq2 Hq3 Hq4. destruct (Hkeep q Hq1 Hq2 Hq3 Hq4) as [Hap _]. rewrite <- He, <- surjective_pairing. apply Hap. set_solver.
  - set (k := x.2 - nu). apply wp_bind, wp_bind, wp_modify, wp_bind, wp_gets. cbn [umem glob]. rewrite ld32_st32_same, !(wrap_small 32 k) by (unfold k; lia).
    set (b := x.1 + 16 * k). rewrite (hadd_small x.1 k) by (unfold k; lia). fold b. cbv zeta.
    apply wp_bind, wp_modify, wp_ret, wp_bind, wp_modify, wp_ret. rewrite hadd_small by (unfold b, k; lia). exists (b + 16 * 1). split; [done|].
    set (m1 := st32 m (x.1 + 8) k). cbn [world glob umem freep]. set (m2 := st32 m1 (b + 8) nu).
    assert (Hb1' : but_header x.1 m m1) by apply but_header_size. assert (Hb2' : but_header b m1 m2) by apply but_header_size.
    assert (Hfr : forall z : block, z.1 + 16 <= x.1 \/ bend x <= z.1 -> ld64 m2 z.1 = ld64 m z.1 /\ ld32 m2 (z.1 + 8) = ld32 m (z.1 + 8)).
    { intros z Hz. unfold bend in Hz. split; [rewrite (ptr_but b z.1 m1 m2 Hb2') by (unfold b, k; lia); eapply ptr_but; [exact Hb1'|lia]|
        rewrite (size_but b z.1 m1 m2 Hb2') by (unfold b, k; lia); eapply size_but; [exact Hb1'|lia]]. }
    exists (A ++ (x.1, k) :: B). cbn [world glob umem freep]. split_and!; [done| | | |].
    + split; cbn [umem freep].
      * change (nodes (A ++ (x.1, k) :: B)) with (nodes A ++ (x.1, k) :: B). apply links_cut. cbn [fst snd]. split_and!.
        -- rewrite HA0. apply links_app. cbn [nxt links]. split; [|split_and!; [|by rewrite (proj2 (Hfr y ltac:(lia)))|done]].
           ++ eapply links_frame; [exact HlA|]. intros z Hz. apply Hfr. specialize (HA0y z Hz). lia.
           ++ rewrite (proj1 (Hfr y ltac:(lia))). exact Hyp.
        -- rewrite (ptr_but b x.1 m1 m2 Hb2') by (unfold b, k; lia). unfold m1. by rewrite ptr_set_size.
        -- rewrite (size_but b x.1 m1 m2 Hb2') by (unfold b, k; lia). unfold m1. rewrite ld32_st32_same. apply wrap_small. unfold k. lia.
        -- eapply links_frame; [exact HlB|]. intros z Hz. apply Hfr. specialize (HBx z Hz). lia.
      * apply spaced_app. split; [done|]. split_and!; [done|simpl; unfold k; lia|]. eapply spaced_lo; [exact HsB|]. unfold bend, k. simpl. lia.
      * exists (length A), y. split; [|done]. change (nodes (A ++ (x.1, k) :: B)) with (nodes A ++ (x.1, k) :: B). by apply lookup_app_l_Some.
    + rewrite length_app in *. simpl in *. lia.
    + intros q Hq1 Hq2 Hq3 Hq4. destruct (Hkeep q Hq1 Hq2 Hq3 Hq4) as [Hap Hmm]. assert (Hqx : apart q x) by (apply Hap; set_solver). split.
      * intros z [Hz|[->|Hz]%elem_of_cons]%elem_of_app; [apply Hap; set_solver| |apply Hap; set_solver].
        eapply apart_part; [exact Hqx|done|simpl; unfold k; lia|simpl; lia|unfold bend, k; simpl; lia].
      * intros a Ha. rewrite Hb2', Hb1'; [by apply Hmm| |]; unfold apart, bend in *; unfold b, k; lia.
    + right. exists b. split_and!; [lia|unfold b, k; lia|unfold bend, b, k; simpl; lia| | |].
      * unfold m2. rewrite ld32_st32_same. apply wrap_small. lia.
      * intros q [Hq|[->|Hq]%elem_of_cons]%elem_of_app; unfold apart, bend; simpl.
        -- right. destruct (spaced_in _ _ _ _ HsA Hq) as (_ & _ & Hq3). unfold bend in Hq3. unfold b, k. lia.
        -- right. unfold b. lia.
        -- left. specialize (HBx q Hq). unfold bend in HBx. unfold b, k. lia.
      * intros q Hq1 Hq2 Hq3 Hq4. destruct (Hkeep q Hq1 Hq2 Hq3 Hq4) as [Hap _]. apply (apart_part q x); [apply Hap; set_solver|done|simpl; lia|simpl; unfold b, k; lia|].
        unfold bend, b, k. simpl. lia.
Qed.
End carve_ok.

Lemma wp_sbrk n (Q : Z -> ust W heap -> Prop) (s : ust W heap) : 0 < n < 2 ^ 31 ->
  (forall w', sc_sbrk n (world s) = (-1, w') -> brk w' = brk (world s) -> Q (-1) (mkUst w' (glob s))) -> (forall w', brk w' = brk (world s) + n -> Q (brk (world s)) (mkUst w' (glob s))) ->
  wp (sbrk n) Q s.
Proof.
  intros Hn H1' H2'. destruct (brk_law n (world s) Hn) as (r & w' & Hr & Hcase). unfold wp, sbrk, sys. rewrite Hr.
  destruct Hcase as [[-> Hb]|[-> Hb]]; [by apply H1'; [rewrite Hr|]|by apply H2'].
Qed.

(** What [morecore] leaves: nothing new; or a free list with a block that is large enough, at or after [freep]. *)
Definition grown (s : ust W heap) (fl : list block) (nu p : Z) (s' : ust W heap) : Prop :=
  exists fl' z, flist (brk (world s')) (glob s') fl' /\ brk (world s) <= brk (world s') /\ p = freep (glob s') /\ (length fl' <= S (length fl))%nat /\
    keeps (brk (world s)) (umem (glob s)) fl (umem (glob s')) fl' /\ z ∈ fl' /\ nu <= z.2 /\ (p = z.1 \/ ld64 (umem (glob s')) p = z.1).

Lemma flist_in hi g fl x : flist hi g fl -> x ∈ nodes fl -> base <= x.1 /\ (base + 16 < hi -> x.1 + 16 <= hi).
Proof.
  intros [_ Hsp _] [->|Hx]%elem_of_cons; [simpl; lia|]. destruct (spaced_in _ _ _ _ Hsp Hx) as (H1' & H2' & H3'). unfold bend in H3'. lia.
Qed.

Lemma morecore_spec (s : ust W heap) fl nu :
  flist (brk (world s)) (glob s) fl -> base + 16 < brk (world s) -> 0 < nu < 2 ^ 27 -> (S (length fl) < rounds)%nat ->
  wp (morecore nu) (fun p s' => (p = 0 /\ glob s' = glob s /\ brk (world s') = brk (world s) /\ refused nu (world s) (world s')) \/ grown s fl nu p s') s.
Proof.
  intros Hfl Hbk Hnu Hr. unfold morecore. cbv zeta. set (n := if nu <? 4096 then 4096 else nu).
  assert (Hn : nu <= n < 2 ^ 27 /\ 0 < n /\ n = Z.max nu 4096) by (unfold n; destruct (Z.ltb_spec nu 4096); lia). clearbody n. unfold sizeof_Header.
  rewrite swrap_small by lia. apply wp_bind, wp_sbrk; [lia| |].
  - intros w' Hre Hw'. apply wp_ret. left. split_and!; [done|done|done|]. unfold refused. cbn [world]. rewrite <- Hre. f_equal. lia.
  - intros w' Hw'. set (b := brk (world s)) in *. rewrite (proj2 (Z.eqb_neq b (-1))) by lia. apply wp_bind, wp_modify. cbn [world glob].
    set (g1 := mkHeap (freep (glob s)) (st32 (umem (glob s)) (b + 8) n)). pose proof (brk_max w') as Hmax.
    assert (Hbh : but_header b (umem (glob s)) (umem g1)) by apply but_header_size. rewrite hadd_small by lia. replace (b + 16 * 1) with (b + 16) by lia.
    destruct Hfl as [Hln Hsp (j & y & Hj & Hfp)] eqn:E. clear E.
    assert (Hln1 : links (umem g1) (nodes fl) base).
    { eapply links_frame; [exact Hln|]. intros x Hx. destruct (flist_in _ _ _ x Hfl Hx) as [_ Hx2]. specialize (Hx2 Hbk). fold b in Hx2.
      split; [eapply ptr_but; [exact Hbh|lia]|eapply size_but; [exact Hbh|lia]]. }
    apply wp_bind. apply (free_spec base (brk w') Hbase Hmax (mkUst w' g1) fl j y b n); cbn [world glob]; try done.
    + eapply spaced_hi; [exact Hsp|lia].
    + lia.
    + lia.
    + simpl. rewrite ld32_st32_same. apply wrap_small. lia.
    + intros x Hx. right. by destruct (spaced_in _ _ _ _ Hsp Hx) as (_ & _ & ?).
    + intros g' fl' Hfr. apply wp_gets. right. destruct (fr_here _ _ _ _ _ _ _ Hfr) as (z & Hz & Hz1 & Hz2 & Hz3). exists fl', z.
      cbn [world glob]. split_and!; [split; apply Hfr|lia|done|apply Hfr| |done| |done].
      * intros q Hq1 Hq2 Hq3 Hq4. split.
        -- apply (fr_apart _ _ _ _ _ _ _ Hfr); [done|done|]. left. done.
        -- intros a Ha. unfold bend in Hq3. rewrite (fr_mem _ _ _ _ _ _ _ Hfr).
           ++ apply Hbh. unfold bend in Ha. lia.
           ++ intros x [->|[->|Hx]%elem_of_cons]%elem_of_cons; [simpl; unfold bend in Ha; lia|simpl; lia|].
              specialize (Hq4 x Hx). destruct (spaced_in _ _ _ _ Hsp Hx) as (_ & ? & _). unfold apart, bend in *. lia.
      * unfold bend in Hz2. simpl in Hz1, Hz2. lia.
Qed.

(** A round of the loop of [malloc]. *)
Definition scan (nunits : Z) : Z * Z -> U W heap (Z * Z + Z) := fun '(prevp, p) =>
  size <- hsize p ;;
  if nunits <=? size then carve nunits prevp p size
  else
    fp <- get_freep ;;
    if p =? fp then
      p <- morecore nunits ;;
      if p =? 0 then ret (inr 0) else
      next <- hptr p ;;
      ret (inl (p, next))
    else
      next <- hptr p ;;
      ret (inl (p, next)).

Lemma nodes_inj hi fl j k (x y : block) : spaced (base + 16) fl hi -> nodes fl !! j = Some x -> nodes fl !! k = Some y -> x.1 = y.1 -> j = k.
Proof.
  intros Hsp Hj Hk He. destruct (lt_eq_lt_dec j k) as [[Hl| ->]|Hl]; [|done|].
  - destruct (nodes_lt base fl hi Hsp _ _ _ _ Hj Hk Hl). lia.
  - destruct (nodes_lt base fl hi Hsp _ _ _ _ Hk Hj Hl). lia.
Qed.

(** The node before an element of the list. *)
Lemma nodes_pred (fl : list block) j (y x : block) : nodes fl !! j = Some y -> nodes fl !! succ (length (nodes fl)) j = Some x -> 0 < x.2 ->
  exists A B, fl = A ++ x :: B /\ nodes A !! length A = Some y.
Proof.
  intros Hj Hx Hpos. unfold succ in Hx. destruct (Nat.ltb_spec (S j) (length (nodes fl))) as [Hl|Hl]; [|simpl in Hx; simplify_eq; simpl in Hpos; lia].
  simpl in Hx. exists (take j fl), (drop (S j) fl). split; [by rewrite take_drop_middle|].
  assert (Hlj : length (take j fl) = j) by (rewrite length_take; apply lookup_lt_Some in Hx; lia). rewrite Hlj.
  change (nodes (take j fl)) with (take (S j) (nodes fl)). rewrite lookup_take_lt by lia. done.
Qed.

Section scans.
Variables (w : W) (m0 : mem) (fl0 : list block) (nu : Z).
Hypothesis Hnu : 0 < nu < 2 ^ 27.

(** What holds of the list while [malloc] goes round it. *)
Definition scanning (s : ust W heap) (fl : list block) : Prop :=
  flist (brk (world s)) (glob s) fl /\ brk w <= brk (world s) /\ (length fl <= S (length fl0))%nat /\ keeps (brk w) m0 fl0 (umem (glob s)) fl.

(** With a block that is large enough at [freep] or at the current position. *)
Lemma scan_found n s fl j k f (y x z : block) :
  scanning s fl -> nodes fl !! j = Some y -> k = succ (length (nodes fl)) j -> nodes fl !! k = Some x -> nodes fl !! f = Some z -> freep (glob s) = z.1 ->
  nu <= z.2 \/ nu <= x.2 -> (dist (length (nodes fl)) k f < n)%nat ->
  wp (while_fuel UFuel n (scan nu) (y.1, x.1)) (mresult w m0 fl0 nu) s.
Proof.
  revert j k y x. induction n as [|n IH]; intros j k y x Hsc Hj Hk Hx Hf Hfp Hbig Hd; [lia|]. pose proof Hsc as (Hfl & Hbk & Hlen & Hkeep). cbn [while_fuel].
  pose proof Hfl as [Hln Hsp _]. destruct (nodes_next base fl (umem (glob s)) Hln k x Hx) as (x' & Hx' & Hptr & Hsz).
  unfold scan at 1. apply wp_bind, wp_bind, wp_gets. rewrite Hsz. destruct (Z.leb_spec nu x.2) as [Hle|Hgt].
  - destruct (nodes_pred fl j y x Hj ltac:(by rewrite <- Hk) ltac:(lia)) as (A & B & -> & HyA).
    eapply wp_mono; [apply (carve_spec s w m0 fl0 A y x B nu); try done; lia|]. intros r s' (v & -> & Hres). by apply wp_ret.
  - destruct Hbig as [Hbig|]; [|lia]. apply wp_bind, wp_gets. rewrite Hfp, (proj2 (Z.eqb_neq x.1 z.1)).
    2: { intros He. pose proof (nodes_inj _ _ _ _ _ _ Hsp Hx Hf He) as ->. rewrite Hx in Hf. simplify_eq. lia. }
    apply wp_bind, wp_gets. rewrite Hptr. apply wp_ret. apply (IH k (succ (length (nodes fl)) k) x x'); try done; [by left|].
    pose proof (dist_succ (length (nodes fl)) k f ltac:(by eapply lookup_lt_Some) ltac:(by eapply lookup_lt_Some)) as Hds.
    assert (k <> f) by (intros ->; rewrite Hx in Hf; simplify_eq; lia). specialize (Hds ltac:(done)). lia.
Qed.

(** From the start. *)
Lemma scan_spec n s fl j k f (y x z : block) :
  scanning s fl -> world s = w -> (length fl <= length fl0)%nat -> base + 16 < brk (world s) -> (S (length fl0) < rounds)%nat ->
  nodes fl !! j = Some y -> k = succ (length (nodes fl)) j -> nodes fl !! k = Some x -> nodes fl !! f = Some z -> freep (glob s) = z.1 ->
  (dist (length (nodes fl)) k f + length fl0 + 3 < n)%nat ->
  wp (while_fuel UFuel n (scan nu) (y.1, x.1)) (mresult w m0 fl0 nu) s.
Proof.
  revert j k y x. induction n as [|n IH]; intros j k y x Hsc Hws Hle0 Hb16 Hr Hj Hk Hx Hf Hfp Hd; [lia|]. pose proof Hsc as (Hfl & Hbk & Hlen & Hkeep). cbn [while_fuel].
  pose proof Hfl as [Hln Hsp _]. destruct (nodes_next base fl (umem (glob s)) Hln k x Hx) as (x' & Hx' & Hptr & Hsz).
  unfold scan at 1. apply wp_bind, wp_bind, wp_gets. rewrite Hsz. destruct (Z.leb_spec nu x.2) as [Hle|Hgt].
  { destruct (nodes_pred fl j y x Hj ltac:(by rewrite <- Hk) ltac:(lia)) as (A & B & -> & HyA).
    eapply wp_mono; [apply (carve_spec s w m0 fl0 A y x B nu); try done; lia|]. intros r s' (v & -> & Hres). by apply wp_ret. }
  apply wp_bind, wp_gets. rewrite Hfp. destruct (Z.eqb_spec x.1 z.1) as [He|Hne].
  - eapply wp_seq; [apply (morecore_spec s fl nu Hfl Hb16 Hnu); lia|]. intros p s1 [(-> & Hg & Hb1 & Hre)|(fl' & q & Hfl' & Hb1 & -> & Hlen' & Hkeep' & Hq & Hqn & Hqw)].
    + apply wp_ret, wp_ret. exists fl. rewrite Hg, Hb1. split_and!; [done|done|lia|done|left; by rewrite <- Hws].
    + destruct (fl_freep _ _ _ Hfl') as (f' & z' & Hf' & Hfp'). destruct (flist_in _ _ _ z' Hfl' ltac:(by eapply list_elem_of_lookup_2)) as [Hz' _].
      rewrite Hfp', (proj2 (Z.eqb_neq z'.1 0)) by lia. apply wp_bind, wp_gets.
      destruct (nodes_next base fl' (umem (glob s1)) (fl_links _ _ _ Hfl') f' z' Hf') as (x2 & Hx2 & Hptr2 & _). rewrite Hptr2. apply wp_ret.
      assert (Hsc' : scanning s1 fl').
      { split_and!; [done|lia|lia|]. eapply keeps_trans; [|exact Hkeep|exact Hkeep']. done. }
      apply (scan_found n s1 fl' f' (succ (length (nodes fl')) f') f' z' x2 z'); try done.
      * rewrite Hfp', Hptr2 in Hqw. apply list_elem_of_lookup in Hq as [kq Hkq]. destruct Hqw as [Hq1|Hq1].
        -- left. pose proof (nodes_inj _ _ f' (S kq) z' q (fl_spaced _ _ _ Hfl') Hf' Hkq Hq1) as ->. simpl in Hf'. rewrite Hkq in Hf'. by simplify_eq.
        -- right. pose proof (nodes_inj _ _ _ (S kq) x2 q (fl_spaced _ _ _ Hfl') Hx2 Hkq Hq1) as Hs. rewrite Hs in Hx2. simpl in Hx2. rewrite Hkq in Hx2. by simplify_eq.
      * pose proof (dist_le (length (nodes fl')) (succ (length (nodes fl')) f') f' ltac:(by eapply lookup_lt_Some) ltac:(by eapply lookup_lt_Some)) as Hdl. simpl in Hdl |- *. lia.
  - apply wp_bind, wp_gets. rewrite Hptr. apply wp_ret. apply (IH k (succ (length (nodes fl)) k) x x'); try done.
    assert (k <> f) by (intros ->; rewrite Hx in Hf; by simplify_eq).
    pose proof (dist_succ (length (nodes fl)) k f ltac:(by eapply lookup_lt_Some) ltac:(by eapply lookup_lt_Some) ltac:(done)). lia.
Qed.
End scans.

Lemma units_small nbytes : 0 <= nbytes <= 2 ^ 31 - 32 -> 0 < units nbytes < 2 ^ 27 /\ nbytes <= 16 * (units nbytes - 1) /\ units nbytes = (nbytes + 15) / 16 + 1.
Proof.
  intros Hn. unfold units, sizeof_Header. replace (nbytes + 16 - 1) with (nbytes + 15) by lia. rewrite wrap_small; Z.to_euclidean_division_equations; lia.
Qed.

(** The list before the first call, and after it. *)
Definition listed (hi : Z) (g : heap) (fl : list block) : Prop := (freep g = 0 /\ fl = []) \/ flist hi g fl.

Lemma malloc_spec (s : ust W heap) fl nbytes :
  listed (brk (world s)) (glob s) fl -> base + 16 < brk (world s) -> 0 <= nbytes <= 2 ^ 31 - 32 -> (2 * length fl + 5 < rounds)%nat ->
  wp (malloc base nbytes) (mresult (world s) (umem (glob s)) fl (units nbytes)) s.
Proof.
  intros Hli Hb16 Hn Hr. destruct (units_small nbytes Hn) as (Hnu & _). unfold malloc. cbv zeta.
  eapply (wp_seq _ _ (fun fp s' => fp = freep (glob s) /\ s' = s)); [by apply wp_gets|]. intros fp s' [-> ->].
  eapply (wp_seq _ _ (fun prevp s1 => world s1 = world s /\ flist (brk (world s)) (glob s1) fl /\ prevp = freep (glob s1) /\
    keeps (brk (world s)) (umem (glob s)) fl (umem (glob s1)) fl)).
  { destruct Hli as [[Hz ->]|Hfl].
    - rewrite Hz. cbn [Z.eqb]. apply wp_bind, wp_modify, wp_bind, wp_modify, wp_bind, wp_modify, wp_ret. cbn [world glob umem freep].
      assert (Hmax : base < 2 ^ 64) by (pose proof (brk_max (world s)); lia).
      assert (Hbh : but_header base (umem (glob s)) (st32 (st64 (umem (glob s)) base base) (base + 8) 0)) by (eapply but_header_trans; [apply but_header_ptr|apply but_header_size]).
      split_and!; [done| |done|apply (keeps_header _ _ _ _ _ (base, 0)); [exact Hbh|by left|done]]. split; cbn [umem freep].
      + simpl. rewrite ptr_set_size, ld64_st64_same, ld32_st32_same, wrap_small by lia. done.
      + simpl. lia.
      + by exists 0%nat, (base, 0).
    - destruct (fl_freep _ _ _ Hfl) as (k & x & Hk & Hfp). destruct (flist_in _ _ _ x Hfl ltac:(by eapply list_elem_of_lookup_2)) as [Hx _].
      rewrite Hfp, (proj2 (Z.eqb_neq x.1 0)) by lia. apply wp_ret. split_and!; [done|done|done|apply keeps_refl]. }
  intros prevp s1 (Hw1 & Hfl & -> & Hkeep). destruct (fl_freep _ _ _ Hfl) as (f & z & Hf & Hfp). rewrite Hfp. apply wp_bind, wp_gets.
  destruct (nodes_next base fl (umem (glob s1)) (fl_links _ _ _ Hfl) f z Hf) as (x & Hx & Hptr & _). rewrite Hptr.
  change (wp (while_fuel UFuel rounds (scan (units nbytes)) (z.1, x.1)) (mresult (world s) (umem (glob s)) fl (units nbytes)) s1).
  apply (scan_spec (world s) (umem (glob s)) fl (units nbytes) Hnu rounds s1 fl f (succ (length (nodes fl)) f) f z x z); try done; rewrite ?Hw1; try done; try lia.
  - split_and!; rewrite ?Hw1; try done. lia.
  - pose proof (dist_le (length (nodes fl)) (succ (length (nodes fl)) f) f ltac:(by eapply lookup_lt_Some) ltac:(by eapply lookup_lt_Some)) as Hdl. simpl in Hdl |- *. lia.
Qed.
End malloc_ok.
End Umalloc.
