(* ===== verification/UmallocUse.v ===== *)
(** Programs that use the allocator of [Umalloc.v].

    A client is any sequence of calls of [malloc] and [free]: it stores bytes of its own in what [malloc]
    gives it, and frees blocks it still has.  The blocks it holds never overlap, lie inside the memory of the process, and
    keep their bytes until they are freed; and no call goes round the free list for ever.  [Break] is a process
    whose end [sbrk] moves, up to a limit. *)
From S2P Require Import Prelude Machine Usys Umalloc.
From Stdlib Require Import ZArith Lia.
From stdpp Require Import base strings numbers gmap list.
Local Open Scope Z_scope.
Local Open Scope m_scope.
Import Umalloc.

Module UmallocUse.

(** A block a client holds: what [malloc] returned, what it was asked for, and what is stored there. *)
Record held : Type := mkHeld { h_ptr : Z; h_asked : Z; h_bytes : list Z }.

Inductive request : Type :=
| RMalloc (nbytes : Z) (bs : list Z)
| RFree (i : nat).

Section client.
Context {W : Type} `{Kernel W} `{Rounds}.
Variable base : Z.

Definition store (p : Z) (bs : list Z) : U W heap unit := upd_glob (fun g => mkHeap (freep g) (st_bytes (umem g) p bs)).

(** The client keeps the blocks it holds, and for each call that returned 0 what it asked for and the world before and after the call. *)
Fixpoint client (rs : list request) (hs : list held) (zs : list (Z * W * W)) : U W heap (list held * list (Z * W * W)) :=
  match rs with
  | [] => ret (hs, zs)
  | RMalloc nbytes bs :: rs' =>
      w <- gets world ;;
      p <- malloc base nbytes ;;
      w' <- gets world ;;
      if p =? 0 then client rs' hs ((nbytes, w, w') :: zs) else
      store p bs ;;
      client rs' (mkHeld p nbytes bs :: hs) zs
  | RFree i :: rs' =>
      match hs !! i with
      | None => client rs' hs zs
      | Some h => free (h_ptr h) ;; client rs' (delete i hs) zs
      end
  end.
End client.

(** The client stores no more than it asked for, and asks for what fits in an [int] with a header. *)
Definition fair (r : request) : Prop :=
  match r with
  | RMalloc nbytes bs => Z.of_nat (length bs) <= nbytes <= 2 ^ 31 - 32
  | RFree _ => True
  end.

Definition separate (h h' : held) : Prop := h_ptr h + h_asked h <= h_ptr h' \/ h_ptr h' + h_asked h' <= h_ptr h.

(** ** The invariant *)

(** The block of [h], header included. *)
Definition blk (h : held) : block := (h_ptr h - 16, units (h_asked h)).

Section client_ok.
Context {W : Type} `{Brk W} `{Rounds}.
Variable base : Z.
Hypothesis Hbase : 0 < base.

(** [h] is a block in use: inside the process, off the free list, with its header and its bytes in memory. *)
Record holds (hi : Z) (m : mem) (fl : list block) (h : held) : Prop := {
  ho_asked : Z.of_nat (length (h_bytes h)) <= h_asked h <= 2 ^ 31 - 32;
  ho_low : base + 16 < h_ptr h - 16;
  ho_high : bend (blk h) <= hi;
  ho_size : ld32 m (h_ptr h - 16 + 8) = units (h_asked h);
  ho_free : forall x, x ∈ fl -> apart (blk h) x;
  ho_bytes : ld_bytes m (h_ptr h) (length (h_bytes h)) = h_bytes h
}.

Definition disjoint (hs : list held) : Prop := forall i j h h', hs !! i = Some h -> hs !! j = Some h' -> i <> j -> apart (blk h) (blk h').

Definition heap_ok (s : ust W heap) (fl : list block) (hs : list held) : Prop :=
  base + 16 < brk (world s) /\ ((freep (glob s) = 0 /\ fl = [] /\ hs = []) \/ flist base (brk (world s)) (glob s) fl) /\
  (forall h, h ∈ hs -> holds (brk (world s)) (umem (glob s)) fl h) /\ disjoint hs.

Lemma blk_units hi m fl h : holds hi m fl h -> 0 < (blk h).2 < 2 ^ 27 /\ h_asked h <= 16 * ((blk h).2 - 1).
Proof. intros Hh. pose proof (ho_asked _ _ _ _ Hh). pose proof (units_small (h_asked h) ltac:(lia)). simpl. lia. Qed.

(** A block that its surroundings keep off is still held. *)
Lemma holds_frame hi hi' m fl m' fl' h :
  holds hi m fl h -> hi <= hi' -> (forall x, x ∈ fl' -> apart (blk h) x) -> (forall a, (blk h).1 <= a < bend (blk h) -> ld8 m' a = ld8 m a) ->
  holds hi' m' fl' h.
Proof.
  intros Hh Hhi Hfl Hm. pose proof (blk_units _ _ _ _ Hh) as Hu. destruct Hh as [Ha Hlo Hhg Hs Hf Hb]. unfold bend, blk in *. simpl in *. split; try done.
  - unfold bend, blk. simpl. lia.
  - rewrite <- Hs. apply ld32_ext. intros x Hx. apply Hm. lia.
  - etrans; [|exact Hb]. apply ld_bytes_ext. intros x Hx. apply Hm. lia.
Qed.

Lemma keeps_holds hi hi' m fl m' fl' h : holds hi m fl h -> keeps base hi m fl m' fl' -> hi <= hi' -> holds hi' m' fl' h.
Proof.
  intros Hh Hk Hhi. pose proof (blk_units _ _ _ _ Hh) as Hu. destruct (Hk (blk h)) as [Ha Hm]; [lia|apply Hh|apply Hh|apply Hh|].
  by apply (holds_frame hi hi' m fl).
Qed.

Lemma flist_store hi g fl p bs : flist base hi g fl -> base + 16 <= p -> (forall x, x ∈ fl -> p + Z.of_nat (length bs) <= x.1 \/ x.1 + 16 <= p) ->
  flist base hi (mkHeap (freep g) (st_bytes (umem g) p bs)) fl.
Proof.
  intros [Hl Hs Hf] Hp Hx. split; [|done|done]. cbn [umem]. eapply links_frame; [exact Hl|]. intros x [->|Hin]%elem_of_cons.
  - simpl. split; [apply ld64_ext|apply ld32_ext]; intros a Ha; rewrite ld8_st_outside by lia; done.
  - specialize (Hx x Hin). split; [apply ld64_ext|apply ld32_ext]; intros a Ha; rewrite ld8_st_outside by lia; done.
Qed.

Lemma disjoint_cons h hs : (forall h', h' ∈ hs -> apart (blk h') (blk h)) -> disjoint hs -> disjoint (h :: hs).
Proof.
  intros Hh Hd [|i] [|j] x y Hx Hy Hij; simplify_eq/=; [| |eapply Hd; [exact Hx|exact Hy|congruence]].
  - specialize (Hh y ltac:(by eapply list_elem_of_lookup_2)). unfold apart in *. lia.
  - apply Hh. by eapply list_elem_of_lookup_2.
Qed.

(** What [malloc] gives can be filled and held. *)
Lemma client_malloc s fl hs nbytes bs :
  heap_ok s fl hs -> fair (RMalloc nbytes bs) -> (2 * length fl + 5 < rounds)%nat ->
  wp (malloc base nbytes) (fun p s' => exists fl', (length fl' <= S (length fl))%nat /\
    (p = 0 /\ heap_ok s' fl' hs /\ refused (units nbytes) (world s) (world s') \/
     p <> 0 /\ heap_ok (mkUst (world s') (mkHeap (freep (glob s')) (st_bytes (umem (glob s')) p bs))) fl' (mkHeld p nbytes bs :: hs))) s.
Proof.
  intros (Hb & Hli & Hho & Hdis) Hfair Hr. simpl in Hfair. eapply wp_mono.
  { apply (malloc_spec base Hbase s fl nbytes); [|done|lia|done]. destruct Hli as [(? & ? & ?)|?]; [by left|by right]. }
  intros p s' (fl' & Hbrk & Hfl & Hlen & Hk & Hres). exists fl'. split; [done|].
  assert (Hho' : forall h, h ∈ hs -> holds (brk (world s')) (umem (glob s')) fl' h) by (intros h Hh; by eapply keeps_holds; [apply Hho|..]).
  destruct Hres as [[-> Hre]|(b & -> & Hlo & Hhi & Hsz & Hap & Hnew)]; [left; split; [done|]; split; [|done]; split_and!; [lia|by right|done|done]|].
  right. split; [lia|]. destruct (units_small nbytes ltac:(lia)) as (Hu & Hun & _). unfold bend in Hhi. simpl in Hhi.
  assert (Hfree : forall h, h ∈ hs -> apart (blk h) (b, units nbytes)).
  { intros h Hh. specialize (Hho h Hh). apply Hnew; [by apply (blk_units _ _ _ _ Hho)|apply Hho..]. }
  split_and!; cbn [world glob umem freep]; [lia| | |].
  - right. apply flist_store; [done|lia|]. intros x Hx. specialize (Hap x Hx). destruct (spaced_in _ _ _ _ (fl_spaced _ _ _ _ Hfl) Hx) as (_ & ? & _). unfold apart, bend in Hap. simpl in Hap. lia.
  - intros h [->|Hh]%elem_of_cons.
    + split; unfold blk, bend; cbn [h_ptr h_asked h_bytes fst snd]; try lia.
      * replace (b + 16 - 16 + 8) with (b + 8) by lia. rewrite <- Hsz. apply ld32_ext. intros x Hx. apply ld8_st_outside. lia.
      * intros x Hx. replace (b + 16 - 16) with b by lia. by apply Hap.
      * apply ld_bytes_st_same.
    + specialize (Hfree h Hh). specialize (Hho' h Hh). eapply holds_frame; [exact Hho'|done|apply Hho'|]. intros a Ha. apply ld8_st_outside.
      unfold apart, bend in Hfree, Ha. simpl in Hfree, Ha. lia.
  - apply disjoint_cons; [|done]. intros h Hh. specialize (Hfree h Hh). unfold blk at 2. simpl. by replace (b + 16 - 16) with b by lia.
Qed.

Lemma disjoint_delete i hs : disjoint hs -> disjoint (delete i hs).
Proof.
  intros Hd j k x y Hx Hy Hjk. rewrite list_lookup_delete in Hx, Hy. eapply Hd; [exact Hx|exact Hy|]. repeat case_decide; lia.
Qed.

(** [free] puts a held block back, and the others stay. *)
Lemma client_free s fl hs i h :
  heap_ok s fl hs -> hs !! i = Some h -> (S (length fl) < rounds)%nat ->
  wp (free (h_ptr h)) (fun _ s' => exists fl', (length fl' <= S (length fl))%nat /\ heap_ok s' fl' (delete i hs)) s.
Proof.
  intros (Hb & Hli & Hho & Hdis) Hi Hr. destruct Hli as [(_ & _ & ->)|Hfl]; [done|].
  pose proof (Hho h ltac:(by eapply list_elem_of_lookup_2)) as Hh. pose proof (blk_units _ _ _ _ Hh) as Hu. destruct (fl_freep _ _ _ _ Hfl) as (k & x & Hk & Hfp).
  replace (h_ptr h) with (h_ptr h - 16 + 16) by lia.
  apply (free_spec base (brk (world s)) Hbase (brk_max (world s)) s fl k x (h_ptr h - 16) (units (h_asked h))); try apply Hfl; try apply Hh; try done; try apply Hu.
  intros g' fl' Hf. exists fl'. split; [apply Hf|]. split_and!; cbn [world glob]; [done|right; split; apply Hf| |by apply disjoint_delete].
  intros h' Hh'. apply list_elem_of_lookup in Hh' as [j Hj]. rewrite list_lookup_delete in Hj.
  set (j' := if decide (j < i)%nat then j else S j) in *. assert (Hji : j' <> i) by (subst j'; case_decide; lia).
  pose proof (Hho h' ltac:(by eapply list_elem_of_lookup_2)) as Hh'. pose proof (blk_units _ _ _ _ Hh') as Hu'. pose proof (Hdis j' i h' h Hj Hi Hji) as Hap.
  eapply holds_frame; [exact Hh'|done|apply (fr_apart _ _ _ _ _ _ _ Hf); [lia|apply Hh'|exact Hap]|].
  intros a Ha. apply (fr_mem _ _ _ _ _ _ _ Hf). intros y [->|[->|Hy]%elem_of_cons]%elem_of_cons.
  - change (h_ptr h - 16, units (h_asked h)) with (blk h). unfold apart, bend in *. lia.
  - pose proof (ho_low _ _ _ _ Hh'). unfold blk in Ha. simpl in *. lia.
  - pose proof (ho_free _ _ _ _ Hh' y Hy) as Hay. destruct (spaced_in _ _ _ _ (fl_spaced _ _ _ _ Hfl) Hy) as (_ & ? & _). unfold apart, bend in *. lia.
Qed.

(** Every call that returned 0 did so because [sbrk] refused. *)
Definition all_refused (zs : list (Z * W * W)) : Prop := Forall (fun '(nbytes, w, w') => refused (units nbytes) w w') zs.

Lemma client_spec rs : forall s fl hs zs,
  heap_ok s fl hs -> all_refused zs -> Forall fair rs -> (2 * (length fl + length rs) + 6 < rounds)%nat ->
  wp (client base rs hs zs) (fun r s' => all_refused r.2 /\ exists fl', heap_ok s' fl' r.1) s.
Proof.
  induction rs as [|r rs IH]; intros s fl hs zs Hok Hzs Hf Hr; [apply wp_ret; split; [done|by exists fl]|]. apply Forall_cons in Hf as [Hr1 Hf]. simpl in Hr.
  destruct r as [nbytes bs|i]; cbn [client].
  - apply wp_bind, wp_gets. eapply wp_seq; [apply (client_malloc s fl hs nbytes bs Hok Hr1); lia|].
    intros p s1 (fl1 & Hlen & [(-> & Hok1 & Hre)|[Hp Hok1]]); cbv beta; apply wp_bind, wp_gets.
    + cbn [Z.eqb]. apply (IH s1 fl1); [done|by constructor|done|lia].
    + rewrite (proj2 (Z.eqb_neq p 0)) by done. apply wp_bind, wp_modify. apply (IH _ fl1); [done|done|done|lia].
  - destruct (hs !! i) as [h|] eqn:Hi; [|apply (IH s fl); [done|done|done|lia]].
    eapply wp_seq; [apply (client_free s fl hs i h Hok Hi); lia|]. intros [] s1 (fl1 & Hlen & Hok1). apply (IH s1 fl1); [done|done|done|lia].
Qed.

(** What a client sees of the invariant. *)
Definition intact (s : ust W heap) (hs : list held) : Prop :=
  (forall i h, hs !! i = Some h -> base + 16 < h_ptr h /\ h_ptr h + h_asked h <= brk (world s) /\
    ld_bytes (umem (glob s)) (h_ptr h) (length (h_bytes h)) = h_bytes h) /\
  (forall i j h h', hs !! i = Some h -> hs !! j = Some h' -> i <> j -> separate h h').

Lemma heap_ok_intact s fl hs : heap_ok s fl hs -> intact s hs.
Proof.
  intros (_ & _ & Hho & Hdis). assert (Hin : forall i h, hs !! i = Some h -> holds (brk (world s)) (umem (glob s)) fl h) by (intros i h Hi; by apply Hho, (list_elem_of_lookup_2 _ i)).
  split.
  - intros i h Hi. specialize (Hin i h Hi). pose proof (blk_units _ _ _ _ Hin). destruct Hin. unfold bend, blk in *. simpl in *. split_and!; [lia|lia|done].
  - intros i j h h' Hi Hj Hij. pose proof (blk_units _ _ _ _ (Hin i h Hi)). pose proof (blk_units _ _ _ _ (Hin j h' Hj)). pose proof (Hdis i j h h' Hi Hj Hij) as Hap.
    unfold apart, separate, bend, blk in *. simpl in *. lia.
Qed.
End client_ok.

(** C9: A program makes any sequence of [malloc]s, of at most 2^31 - 32 bytes each, and [free]s of blocks it has, from a heap not yet used, and stores in each block no
    more than it asked for.  Every
    call returns: neither walk round the free list goes on for ever, however [sbrk] answers; and [malloc] returns 0 only when [sbrk] refuses.  At the end of the sequence the
    blocks the program holds lie inside the memory of the process and beyond the static header, no two of them overlap, and each
    still holds the bytes the program stored in it: nothing the allocator did since - splitting, coalescing, extending
    the heap - wrote there. *)
Theorem malloc_keeps_blocks {W} `{Brk W} `{Rounds} (base : Z) (rs : list request) (s : ust W heap) :
  0 < base -> base + 16 < brk (world s) -> freep (glob s) = 0 -> Forall fair rs -> (2 * length rs + 6 < rounds)%nat ->
  wp (client base rs [] []) (fun '(hs, zs) s' => intact base s' hs /\ all_refused zs) s.
Proof.
  intros Hbase Hb Hfp Hf Hr. eapply wp_mono.
  - apply (client_spec base Hbase rs s [] [] []); [|constructor|done|simpl; lia]. split_and!; [done|by left|set_solver|]. intros i j h h' Hi. done.
  - intros [hs zs] s' [Hzs [fl Hok]]. split; [by eapply heap_ok_intact|done].
Qed.

(** ** A process whose end moves *)

Module Break.
(** The end of the process. *)
Definition world : Type := Z.
Definition limit : Z := 2 ^ 36.

Definition sbrk (n : Z) (w : world) : Z * world := if (0 <=? w + n) && (w + n <=? limit) then (w, w + n) else (-1, w).

(** The other calls fail. *)
Definition fails (w : world) : Z * world := (-1, w).

#[export] Instance kernel : Kernel world := {|
  sc_fork := fails; sc_wait := fun w => ((-1, 0), w); sc_pipe := fun w => ((-1, 0, 0), w);
  sc_read := fun _ _ w => ((-1, []), w); sc_write := fun _ _ => fails; sc_close := fun _ => fails; sc_kill := fun _ => fails;
  sc_exec := fun _ _ w => Some (fails w); sc_open := fun _ _ => fails; sc_mknod := fun _ _ _ => fails;
  sc_unlink := fun _ => fails; sc_fstat := fun _ w => ((-1, no_stat), w); sc_link := fun _ _ => fails;
  sc_mkdir := fun _ => fails; sc_chdir := fun _ => fails; sc_dup := fun _ => fails; sc_getpid := fails;
  sc_sbrk := sbrk; sc_sleep := fun _ => fails; sc_uptime := fails; sc_ttyraw := fun _ => fails |}.

#[export] Instance brk_ok : Brk world.
Proof.
  refine {| brk := fun w => Z.min w limit |}.
  - intros w. unfold limit. lia.
  - intros n w Hn. unfold sc_sbrk, kernel, sbrk. destruct (Z.leb_spec 0 (w + n)), (Z.leb_spec (w + n) limit); simpl;
      [exists w, (w + n); split; [done|right; unfold limit in *; lia]|exists (-1), w; split; [done|by left]..].
Defined.

#[export] Instance rounds_ok : Rounds := 40%nat.

(** A process of two pages that has not called [malloc] yet. *)
Definition start : ust world heap := mkUst 0x2000 (mkHeap 0 ∅).
Definition requests : list request := [RMalloc 100 [1; 2; 3]; RMalloc 70000 [4; 5]; RFree 1; RMalloc 24 [6; 7; 8; 9]; RFree 0; RMalloc 40 [10]].
End Break.

Import Break.

Lemma malloc_keeps_blocks_witness : wp (client 0x1000 requests [] []) (fun '(hs, zs) s' => intact 0x1000 s' hs /\ all_refused zs) start.
Proof.
  apply (malloc_keeps_blocks 0x1000 requests start); [lia|done|done| |simpl; unfold rounds, rounds_ok; lia].
  repeat constructor; simpl; lia.
Defined.

(** The client of the witness ends with two blocks. *)
Lemma requests_run : match client 0x1000 requests [] [] start with Ok (hs, zs) _ => (length hs =? 2)%nat && (length zs =? 0)%nat | _ => false end = true.
Proof. vm_compute. reflexivity. Qed.

(** The bound on a fair request is needed: [morecore] passes [nu * sizeof(Header)] to the [int] of
    [sbrk], and for a request of [0xffffffff] bytes the product wraps round to 16.  The process grows by 16 bytes, and [malloc] returns a
    pointer to the end of it as if 4 gigabytes followed. *)
Lemma malloc_wraps_request :
  exists s', malloc 0x1000 0xffffffff start = Ok 0x2010 s' /\ brk (Usys.world start) = 0x2000 /\ brk (Usys.world s') = 0x2010.
Proof. eexists. split; [vm_compute; reflexivity|split; reflexivity]. Qed.
End UmallocUse.
