(* ===== verification/Mkfs.v ===== *)
(** [mkfs/mkfs.c], the program that makes the file-system image on the host.

    The image is the list of its blocks; a block written past the end of the file extends it, and the hole reads as zeros.
    [Host] is the computer [mkfs] runs on: its byte order, the files it can open with
    what the successive calls of [read] give, whether the image can be created, and the blocks it
    cannot store.  An [int] in memory is in the byte order of the host, and [xint] and [xshort] are what
    turns it into that of the target.  What [mkfs] prints is left out. *)
From S2P Require Import Prelude Machine Usys State Block Riscv Fs.
From Stdlib Require Import ZArith Lia.
From stdpp Require Import base strings numbers gmap list.
Local Open Scope Z_scope.
Local Open Scope m_scope.

Module Mkfs.

Class Host := {
  big_endian : bool;
  creates : list Z -> bool;
  opens : list Z -> option (list (list Z));
  refuses : Z -> bool
}.

Abbreviation image := (list (list Z)).

(** The global variables that [main] sets. *)
Record globals : Type := mkGlobals {
  nmeta : Z;
  nblocks : Z;
  gsb : superblock;
  freeinode : Z;
  freeblock : Z
}.

Definition set_gsb (b : superblock) (g : globals) : globals := mkGlobals (nmeta g) (nblocks g) b (freeinode g) (freeblock g).
Definition set_freeinode (n : Z) (g : globals) : globals := mkGlobals (nmeta g) (nblocks g) (gsb g) n (freeblock g).
Definition set_freeblock (n : Z) (g : globals) : globals := mkGlobals (nmeta g) (nblocks g) (gsb g) (freeinode g) n.

Definition init_globals : globals := mkGlobals 0 0 (mkSuperblock 0 0 0 0 0 0 0 0) 1 0.

Definition NINODES : Z := 200.
Definition nbitmap : Z := FSSIZE / BPB + 1.
Definition ninodeblocks : Z := NINODES / IPB + 1.
Definition nlog : Z := LOGSIZE.

(** [struct dinode], in variables of the host. *)
Record dinode : Type := mkDinode {
  d_type : Z;
  d_major : Z;
  d_minor : Z;
  d_nlink : Z;
  d_size : Z;
  d_addrs : list Z
}.

Definition set_size (n : Z) (d : dinode) : dinode := mkDinode (d_type d) (d_major d) (d_minor d) (d_nlink d) n (d_addrs d).
Definition set_addr (k v : Z) (d : dinode) : dinode := mkDinode (d_type d) (d_major d) (d_minor d) (d_nlink d) (d_size d) (<[Z.to_nat k := v]> (d_addrs d)).
Definition addr_of (d : dinode) (k : Z) : Z := d_addrs d !!! Z.to_nat k.

Definition zeroes : list Z := replicate BSIZE 0.

(** [lseek] to block [k] of the image and [write]. *)
Definition put_block (k : nat) (buf : list Z) (img : image) : image :=
  if (k <? length img)%nat then <[k := buf]> img else img ++ replicate (k - length img) zeroes ++ [buf].

Section mkfs.
Context `{Host}.

(** Integers in the memory of the host. *)
Definition host_bytes (n : nat) (v : Z) : list Z := if big_endian then rev (le_bytes n v) else le_bytes n v.
Definition host_val (bs : list Z) : Z := if big_endian then le_val (rev bs) else le_val bs.
Definition hrd (n off : nat) (x : list Z) : Z := host_val (sub off n x).

Definition xshort (x : Z) : Z := host_val (le_bytes 2 x).
Definition xint (x : Z) : Z := host_val (le_bytes 4 x).

Definition bytes_of_sb (b : superblock) : list Z :=
  host_bytes 4 (sb_magic b) ++ host_bytes 4 (sb_size b) ++ host_bytes 4 (sb_nblocks b) ++ host_bytes 4 (sb_ninodes b) ++
  host_bytes 4 (sb_nlog b) ++ host_bytes 4 (sb_logstart b) ++ host_bytes 4 (sb_inodestart b) ++ host_bytes 4 (sb_bmapstart b).

Definition bytes_of_dinode (d : dinode) : list Z :=
  host_bytes 2 (d_type d) ++ host_bytes 2 (d_major d) ++ host_bytes 2 (d_minor d) ++ host_bytes 2 (d_nlink d) ++
  host_bytes 4 (d_size d) ++ mjoin (host_bytes 4 <$> d_addrs d).

Definition dinode_at (o : nat) (x : list Z) : dinode :=
  mkDinode (s16 (hrd 2 o x)) (s16 (hrd 2 (o + 2) x)) (s16 (hrd 2 (o + 4) x)) (s16 (hrd 2 (o + 6) x)) (hrd 4 (o + 8) x)
    ((fun k => hrd 4 (o + 12 + 4 * k) x) <$> seq 0 13).

(** [struct dirent]: [bzero], [inum] and [name]. *)
Definition bytes_of_dirent (inum : Z) (name : list Z) : list Z := host_bytes 2 inum ++ name.

Definition strncpy_name (s : list Z) : list Z := take DIRSIZ s ++ replicate (DIRSIZ - length s) 0.

Definition die {A} : U image globals A := exit 1.
Definition assert (b : bool) : U image globals unit := fun s => if b then Ok tt s else Stop (UFault "assert").

Definition wsect (sec : Z) (buf : list Z) : U image globals unit :=
  let off := u32 (sec * BSZ) in
  if refuses (off / BSZ) then die else
  modify (fun s => mkUst (put_block (Z.to_nat (off / BSZ)) buf (world s)) (glob s)).

Definition rsect (sec : Z) : U image globals (list Z) :=
  let off := u32 (sec * BSZ) in
  img <- gets world ;;
  match img !! Z.to_nat (off / BSZ) with
  | Some buf => ret buf
  | None => die
  end.

Definition winode (inum : Z) (ip : dinode) : U image globals unit :=
  sb <- get_glob gsb ;;
  let bn := IBLOCK inum sb in
  buf <- rsect bn ;;
  wsect bn (splice (dinode_off inum) (bytes_of_dinode ip) buf).

Definition rinode (inum : Z) : U image globals dinode :=
  sb <- get_glob gsb ;;
  let bn := IBLOCK inum sb in
  buf <- rsect bn ;;
  ret (dinode_at (dinode_off inum) buf).

Definition ialloc (type : Z) : U image globals Z :=
  inum <- get_glob freeinode ;;
  upd_glob (set_freeinode (u32 (inum + 1))) ;;
  winode inum (mkDinode (s16 (xshort type)) 0 0 (s16 (xshort 1)) (xint 0) (replicate 13 0)) ;;
  ret inum.

(** The bit map of a disk whose first [used] blocks are in use. *)
Definition bitmap (used : Z) : list Z :=
  foldl (fun buf i => set_bm_byte i (u8 (Z.lor (bm_byte i buf) (Z.shiftl 1 (i mod 8)))) buf) zeroes (zrange 0 (Z.to_nat used)).

Definition balloc (used : Z) : U image globals unit :=
  assert (used <? BPB) ;;
  sb <- get_glob gsb ;;
  wsect (sb_bmapstart sb) (bitmap used).

(** [freeblock++] *)
Definition next_block : U image globals Z :=
  b <- get_glob freeblock ;;
  upd_glob (set_freeblock (u32 (b + 1))) ;;
  ret b.

(** The block that holds block [fbn] of the file [din], which gets one if it has none. *)
Definition block_of (fbn : Z) (din : dinode) : U image globals (dinode * Z) :=
  if fbn <? NDIRECT then
    din <- (if xint (addr_of din fbn) =? 0 then
              b <- next_block ;;
              ret (set_addr fbn (xint b) din)
            else ret din) ;;
    ret (din, xint (addr_of din fbn))
  else
    din <- (if xint (addr_of din NDIRECT) =? 0 then
              b <- next_block ;;
              ret (set_addr NDIRECT (xint b) din)
            else ret din) ;;
    indirect <- rsect (xint (addr_of din NDIRECT)) ;;
    let o := Z.to_nat (4 * (fbn - NDIRECT)) in
    indirect <- (if hrd 4 o indirect =? 0 then
                   b <- next_block ;;
                   let indirect := splice o (host_bytes 4 (xint b)) indirect in
                   wsect (xint (addr_of din NDIRECT)) indirect ;;
                   ret indirect
                 else ret indirect) ;;
    ret (din, xint (hrd 4 o indirect)).

Definition iappend (inum : Z) (xp : list Z) : U image globals unit :=
  din <- rinode inum ;;
  let! (off, din) := while_fuel UFuel (S (length xp)) (fun '(p, off, din) =>
    if negb (0 <? Z.of_nat (length p)) then ret (inr (off, din)) else
    let fbn := off / BSZ in
    assert (fbn <? MAXFILE) ;;
    let! (din, x) := block_of fbn din in
    let n1 := Z.min (Z.of_nat (length p)) ((fbn + 1) * BSZ - off) in
    buf <- rsect x ;;
    wsect x (splice (Z.to_nat (off - fbn * BSZ)) (take (Z.to_nat n1) p) buf) ;;
    ret (inl (drop (Z.to_nat n1) p, u32 (off + n1), din))) (xp, xint (d_size din), din) in
  winode inum (set_size (xint off) din).

(** The loop that copies what [read] gives, until it gives nothing. *)
Fixpoint copy_file (inum : Z) (reads : list (list Z)) : U image globals unit :=
  match reads with
  | [] => ret tt
  | buf :: reads' =>
      if Z.of_nat (length buf) <=? 0 then ret tt else
      iappend inum buf ;;
      copy_file inum reads'
  end.

(** The name a host file gets in the image. *)
Definition strip_user (path : list Z) : list Z := if bool_decide (take 5 path = s2b "user/") then drop 5 path else path.
Definition strip_underscore (name : list Z) : list Z := match name with c :: name' => if c =? 95 then name' else name | [] => [] end.

(** One file of the command line. *)
Definition add_file (rootino : Z) (path : list Z) : U image globals unit :=
  let shortname := strip_user path in
  assert (bool_decide (47 ∉ shortname)) ;;
  match opens path with
  | None => die
  | Some reads =>
      let shortname := strip_underscore shortname in
      assert (Z.of_nat (length shortname) <=? Z.of_nat DIRSIZ) ;;
      inum <- ialloc T_FILE ;;
      iappend rootino (bytes_of_dirent (xshort inum) (strncpy_name shortname)) ;;
      copy_file inum reads
  end.

Definition main (argv : list (list Z)) : U image globals unit :=
  match argv with
  | _ :: img :: files =>
      assert (BSZ mod sizeof_dinode =? 0) ;;
      assert (BSZ mod sizeof_dirent =? 0) ;;
      if negb (creates img) then die else
      modify (fun s => mkUst [] (glob s)) ;;
      let nm := 2 + nlog + ninodeblocks + nbitmap in
      let nb := FSSIZE - nm in
      let sb := mkSuperblock FSMAGIC (xint FSSIZE) (xint nb) (xint NINODES) (xint nlog) (xint 2) (xint (2 + nlog)) (xint (2 + nlog + ninodeblocks)) in
      upd_glob (fun g => mkGlobals nm nb sb (freeinode g) nm) ;;
      for_each (zrange 0 (Z.to_nat FSSIZE)) (fun i => wsect i zeroes) ;;
      wsect 1 (splice 0 (bytes_of_sb sb) zeroes) ;;
      rootino <- ialloc T_DIR ;;
      assert (rootino =? ROOTINO) ;;
      iappend rootino (bytes_of_dirent (xshort rootino) (strncpy_name (s2b "."))) ;;
      iappend rootino (bytes_of_dirent (xshort rootino) (strncpy_name (s2b ".."))) ;;
      for_each files (add_file rootino) ;;
      din <- rinode rootino ;;
      let off := xint (d_size din) in
      let off := u32 ((off / BSZ + 1) * BSZ) in
      winode rootino (set_size (xint off) din) ;;
      fb <- get_glob freeblock ;;
      balloc fb ;;
      exit 0
  | _ => exit 1
  end.
End mkfs.
End Mkfs.
