(* ===== verification/MkfsSpec.v ===== *)
(** What [mkfs] makes is a file system in the sense of the kernel.

    While [mkfs] runs, the bit map block of the image is still empty: the blocks in use are those below
    [freeblock].  [view] shows the image as it will be once [balloc] has written the map, so that taking the
    next block is an allocation as the kernel's [balloc] makes it, and appending to a file is a
    write as [FsFile.written] describes it. *)
From S2P Require Import Prelude Machine Usys Riscv State Block BufCache LogSpec Fs FsBlock FsInode FsFile FsWrite Mkfs.
From Stdlib Require Import ZArith Lia.
From stdpp Require Import base strings numbers gmap list.
Local Open Scope Z_scope.
Local Open Scope m_scope.
Import Mkfs.

Module MkfsSpec.

(** The super block of the image. *)
Definition SB : superblock := mkSuperblock FSMAGIC 2000 1954 200 30 2 32 45.

(** The blocks of an image. *)
Definition blockat (img : image) (b : Z) : list Z := if decide (0 <= b) then default [] (img !! Z.to_nat b) else [].

(** ** Places *)

Lemma bblock b : 0 <= b < 2000 -> BBLOCK b SB = 45.
Proof. intros Hb. unfold BBLOCK. rewrite BPB_val. simpl. rewrite Z.div_small by lia. reflexivity. Qed.

Lemma is_map_45 b : is_map SB b <-> b = 45.
Proof.
  split; [intros (c & Hc & ->); by apply bblock|]. intros ->. exists 0. split; [simpl; lia|]. by rewrite bblock by lia.
Qed.

Lemma layout_SB : layout 2 30 SB.
Proof.
  split; simpl; [lia|lia| |].
  - intros b Hb. rewrite BPB_val, Z.div_small by lia. lia.
  - intros b Hb. rewrite bblock by lia. unfold in_log. lia.
Qed.

Lemma iblock u : 0 <= u < 208 -> IBLOCK u SB = 32 + u / 16 /\ 32 <= IBLOCK u SB < 45.
Proof. intros Hu. unfold IBLOCK. change IPB with 16. simpl. rewrite wrap_small; Z.to_euclidean_division_equations; lia. Qed.

Lemma dinode_off_val u : dinode_off u = Z.to_nat (64 * (u mod 16)).
Proof. reflexivity. Qed.

(** ** The bit map *)

Lemma length_bitmap n : length (bitmap n) = BSIZE.
Proof.
  unfold bitmap. assert (Hg : forall l x, length x = BSIZE ->
    length (foldl (fun buf i => set_bm_byte i (u8 (Z.lor (bm_byte i buf) (Z.shiftl 1 (i mod 8)))) buf) x l) = BSIZE).
  { induction l as [|i l IH]; intros x Hx; [done|]. cbn [foldl]. apply IH. unfold set_bm_byte. by rewrite length_insert. }
  apply Hg. unfold zeroes. apply length_replicate.
Qed.

Lemma bitmap_bytes n : Forall is_byte (bitmap n).
Proof.
  unfold bitmap. assert (Hg : forall l x, Forall is_byte x ->
    Forall is_byte (foldl (fun buf i => set_bm_byte i (u8 (Z.lor (bm_byte i buf) (Z.shiftl 1 (i mod 8)))) buf) x l)).
  { induction l as [|i l IH]; intros x Hx; [done|]. cbn [foldl]. apply IH. unfold set_bm_byte. apply Forall_insert; [done|]. unfold is_byte. apply wrap_range. lia. }
  apply Hg. unfold zeroes. apply Forall_replicate. unfold is_byte. lia.
Qed.

Lemma wrap_lor n a b : 0 <= n -> wrap n (Z.lor a b) = Z.lor (wrap n a) (wrap n b).
Proof. intros Hn. unfold wrap. rewrite <- !Z.land_ones by done. apply Z.land_lor_distr_l. Qed.

Lemma byte_in n x : 0 <= n < 2000 -> Forall is_byte x -> length x = BSIZE -> is_byte (bm_byte n x).
Proof.
  intros Hn Hf Hl. unfold bm_byte. rewrite Forall_forall in Hf. apply Hf, list_elem_of_lookup_total_2. rewrite Hl. change BSIZE with 1024%nat.
  Z.to_euclidean_division_equations; lia.
Qed.

Lemma bitmap_succ n : 0 <= n < 2000 -> bitmap (n + 1) = set_bm_byte n (Z.lor (bm_byte n (bitmap n)) (bit n)) (bitmap n).
Proof.
  intros Hn. unfold bitmap at 1. replace (Z.to_nat (n + 1)) with (Z.to_nat n + 1)%nat by lia. rewrite zrange_app, foldl_app. fold (bitmap n).
  rewrite zrange_S. cbn [foldl zrange fmap list_fmap seq]. replace (0 + Z.of_nat (Z.to_nat n)) with n by lia. f_equal. change (Z.shiftl 1 (n mod 8)) with (bit n).
  pose proof (byte_in n _ Hn (bitmap_bytes n) (length_bitmap n)) as Hb. pose proof (Z.mod_pos_bound n 8 ltac:(lia)) as Hm.
  rewrite wrap_lor by lia. f_equal; apply wrap_small; [done|]. unfold bit. rewrite Z.shiftl_mul_pow2, Z.mul_1_l by lia. split; [lia|]. apply Z.pow_lt_mono_r; lia.
Qed.

Lemma bitmap_bit n c : 0 <= n <= 2000 -> 0 <= c < 2000 -> bm_bit c (bitmap n) = (c <? n).
Proof.
  intros Hn Hc. assert (Hg : forall k, (k <= 2000)%nat -> bm_bit c (bitmap (Z.of_nat k)) = (c <? Z.of_nat k)).
  { induction k as [|k IH]; intros Hk.
    - rewrite (proj2 (Z.ltb_ge c (Z.of_nat 0))) by lia. change (bitmap (Z.of_nat 0)) with (replicate BSIZE 0). unfold bm_bit, bm_byte. rewrite list_lookup_total_alt, lookup_replicate_2; [apply Z.bits_0|].
      change BSIZE with 1024%nat. Z.to_euclidean_division_equations; lia.
    - replace (Z.of_nat (S k)) with (Z.of_nat k + 1) by lia. rewrite bitmap_succ, bm_bit_or, IH by first [lia | rewrite length_bitmap; change BSIZE with 1024%nat; Z.to_euclidean_division_equations; lia].
      destruct (Z.eqb_spec c (Z.of_nat k)), (Z.ltb_spec c (Z.of_nat k)), (Z.ltb_spec c (Z.of_nat k + 1)); (done || lia). }
  replace n with (Z.of_nat (Z.to_nat n)) by lia. apply Hg. lia.
Qed.

(** ** The image with the bit map it will get *)

Record view (V : Z -> list Z) (fb : Z) (img : image) : Prop := {
  vw_len : length img = 2000%nat;
  vw_at : forall b, V b = if b =? 45 then bitmap fb else blockat img b;
  vw_fb : 46 <= fb <= 2000;
  vw_zero : forall b, fb <= b < 2000 -> V b = zeroes;
  vw_size : forall b, 0 <= b < 2000 -> length (V b) = BSIZE
}.

Lemma view_used V fb img c : view V fb img -> 0 <= c < 2000 -> used SB V c = (c <? fb).
Proof.
  intros Hv Hc. unfold used. rewrite bblock by done. rewrite (vw_at _ _ _ Hv). simpl. rewrite BPB_val, Z.mod_small by lia.
  apply bitmap_bit; [|done]. pose proof (vw_fb _ _ _ Hv). lia.
Qed.

Lemma view_fs_ok V fb img : view V fb img -> fs_ok 2 30 SB V.
Proof.
  intros Hv. split.
  - intros b Hb. simpl in Hb. rewrite bblock by lia. apply (vw_size _ _ _ Hv). lia.
  - intros c Hc Hu. simpl in Hc. rewrite (view_used _ _ _ _ Hv) in Hu by lia. apply Z.ltb_ge in Hu. pose proof (vw_fb _ _ _ Hv). rewrite is_map_45. unfold in_log. lia.
Qed.

Lemma view_boot V fb img : view V fb img -> boot_used SB V.
Proof. intros Hv. unfold boot_used. rewrite (view_used _ _ _ _ Hv) by lia. apply Z.ltb_lt. pose proof (vw_fb _ _ _ Hv). lia. Qed.

Lemma view_first_free V fb img : view V fb img -> fb < 2000 -> first_free SB V fb.
Proof.
  intros Hv Hfb. pose proof (vw_fb _ _ _ Hv). split_and!; [simpl; lia|simpl; lia| |].
  - rewrite (view_used _ _ _ _ Hv) by lia. apply Z.ltb_irrefl.
  - intros c Hc. rewrite (view_used _ _ _ _ Hv) by lia. apply Z.ltb_lt. lia.
Qed.

(** A block of the image below the free ones. *)
Lemma view_blk_ok V fb img b : view V fb img -> 32 <= b < fb -> b <> 45 -> blk_ok 2 30 SB V b.
Proof.
  intros Hv Hb Hne. pose proof (vw_fb _ _ _ Hv). split; [simpl; lia|rewrite (view_used _ _ _ _ Hv) by lia; apply Z.ltb_lt; lia|unfold in_log; lia|by rewrite is_map_45|].
  apply (vw_size _ _ _ Hv). lia.
Qed.

Lemma view_alloc V fb img : view V fb img -> fb < 2000 -> view (allocated SB fb V) (fb + 1) img.
Proof.
  intros Hv Hfb. pose proof (vw_fb _ _ _ Hv) as Hr. assert (Hal : forall b, allocated SB fb V b = if b =? 45 then bitmap (fb + 1) else V b).
  { intros b. unfold allocated, mark, vupd. rewrite bblock by lia. rewrite BPB_val, Z.mod_small by lia. destruct (Z.eqb_spec b 45) as [->|Hne].
    - rewrite decide_False, decide_True, (vw_at _ _ _ Hv) by lia. simpl. by rewrite bitmap_succ by lia.
    - case_decide as Hd; [subst b; symmetry; apply (vw_zero _ _ _ Hv); lia|]. by rewrite decide_False by congruence. }
  split; [apply Hv| |lia| |].
  - intros b. rewrite Hal. destruct (Z.eqb_spec b 45) as [->|Hne]; [done|]. rewrite (vw_at _ _ _ Hv). by rewrite (proj2 (Z.eqb_neq b 45)).
  - intros b Hb. rewrite Hal, (proj2 (Z.eqb_neq b 45)) by lia. apply (vw_zero _ _ _ Hv). lia.
  - intros b Hb. rewrite Hal. destruct (b =? 45); [apply length_bitmap|by apply (vw_size _ _ _ Hv)].
Qed.

Lemma blockat_lookup img b : 0 <= b < Z.of_nat (length img) -> img !! Z.to_nat b = Some (blockat img b).
Proof.
  intros Hb. unfold blockat. rewrite decide_True by lia. destruct (img !! Z.to_nat b) eqn:E; [done|]. apply lookup_ge_None in E. lia.
Qed.

Lemma blockat_insert img b x c : 0 <= b < Z.of_nat (length img) -> blockat (<[Z.to_nat b := x]> img) c = vupd (blockat img) b x c.
Proof.
  intros Hb. unfold blockat, vupd. destruct (decide (0 <= c)) as [Hc|Hc]; [|by rewrite decide_False by lia]. destruct (decide (b = c)) as [->|Hne].
  - rewrite list_lookup_insert_eq by lia. done.
  - by rewrite list_lookup_insert_ne by lia.
Qed.

(** ** Sectors *)

Section runs.
Context `{Host}.
Hypothesis Hle : big_endian = false.
Hypothesis Hdisk : forall b, refuses b = false.

Lemma host_bytes_le n v : host_bytes n v = le_bytes n v.
Proof. unfold host_bytes. by rewrite Hle. Qed.
Lemma hrd_le n o x : hrd n o x = rd n o x.
Proof. unfold hrd, host_val. by rewrite Hle. Qed.
Lemma xint_small x : 0 <= x < 2 ^ 32 -> xint x = x.
Proof. intros Hx. unfold xint, host_val. rewrite Hle, le_val_le_bytes. apply Z.mod_small. simpl. lia. Qed.
Lemma xshort_small x : 0 <= x < 2 ^ 16 -> xshort x = x.
Proof. intros Hx. unfold xshort, host_val. rewrite Hle, le_val_le_bytes. apply Z.mod_small. simpl. lia. Qed.

Lemma sector b : 0 <= b < 2000 -> u32 (b * BSZ) / BSZ = b.
Proof. intros Hb. rewrite BSZ_val, wrap_small by lia. apply Z.div_mul. lia. Qed.

Lemma rsect_run V fb img g b : view V fb img -> 0 <= b < 2000 -> b <> 45 -> rsect b (mkUst img g) = Ok (V b) (mkUst img g).
Proof.
  intros Hv Hb Hne. unfold rsect, bind, gets. cbn [after world]. rewrite sector, blockat_lookup by (rewrite ?(vw_len _ _ _ Hv); lia).
  rewrite (vw_at _ _ _ Hv), (proj2 (Z.eqb_neq b 45)) by done. done.
Qed.

Lemma wsect_run (img : image) g b x : length img = 2000%nat -> 0 <= b < 2000 -> wsect b x (mkUst img g) = Ok tt (mkUst (<[Z.to_nat b := x]> img) g).
Proof.
  intros Hl Hb. unfold wsect. rewrite Hdisk, sector by done. unfold modify, put_block. cbn [world glob]. by rewrite (proj2 (Nat.ltb_lt _ _)) by lia.
Qed.

Lemma view_write V fb img b x : view V fb img -> 0 <= b < fb -> b <> 45 -> length x = BSIZE -> view (vupd V b x) fb (<[Z.to_nat b := x]> img).
Proof.
  intros Hv Hb Hne Hx. pose proof (vw_fb _ _ _ Hv). split; [rewrite length_insert; apply Hv| |done| |].
  - intros c. rewrite blockat_insert by (rewrite (vw_len _ _ _ Hv); lia). unfold vupd. case_decide as Hd; [subst c; by rewrite (proj2 (Z.eqb_neq b 45))|apply Hv].
  - intros c Hc. unfold vupd. rewrite decide_False by lia. by apply Hv.
  - intros c Hc. unfold vupd. case_decide; [done|by apply Hv].
Qed.

(** ** The blocks of a file *)

Definition G (fi fb : Z) : globals := mkGlobals 46 1954 SB fi fb.

(** An inode as the kernel has it once it has read it. *)
Definition to_inode (u : Z) (d : dinode) : inode := mkInode ROOTDEV u 1 true (d_type d) (d_major d) (d_minor d) (d_nlink d) (d_size d) (d_addrs d).

Local Abbreviation ino_ok := (ino_ok ROOTDEV 2 30 SB).
Local Abbreviation grown := (grown ROOTDEV 2 30 SB).

Lemma next_block_run (img : image) fi fb : 0 <= fb < 2000 -> next_block (mkUst img (G fi fb)) = Ok fb (mkUst img (G fi (fb + 1))).
Proof. intros Hfb. unfold next_block, bind, get_glob, gets, upd_glob, modify, ret. cbn [after world glob]. unfold set_freeblock, G. cbn. by rewrite wrap_small by lia. Qed.

Lemma blk_range V b : blk_ok 2 30 SB V b -> 0 < b < 2000 /\ b <> 45.
Proof. intros [Hr _ _ Hm _]. rewrite is_map_45 in Hm. simpl in Hr. lia. Qed.

Lemma blk_below V fb img b : view V fb img -> blk_ok 2 30 SB V b -> b < fb.
Proof.
  intros Hv Hb. destruct (blk_range _ _ Hb) as [Hr _]. pose proof (bk_used _ _ _ _ _ Hb) as Hu. rewrite (view_used _ _ _ _ Hv) in Hu by lia. by apply Z.ltb_lt.
Qed.

Lemma addr_range V i k : ino_ok V i -> 0 <= k <= 12 -> 0 <= addr_at i k < 2000.
Proof.
  intros Hi Hk. destruct (decide (addr_at i k = 0)) as [->|Hz]; [lia|]. destruct (decide (k = 12)) as [->|Hne].
  - pose proof (blk_range _ _ (io_ind _ _ _ _ _ _ Hi Hz)) as Hr. change (ind i) with (addr_at i 12) in Hr. lia.
  - destruct (io_blk _ _ _ _ _ _ Hi k) as [Hb _]; [rewrite MAXFILE_val; lia| |]; unfold baddr in *; change NDIRECT with 12 in *; rewrite (proj2 (Z.ltb_lt k 12)) in * by lia; [done|].
    apply blk_range in Hb. lia.
Qed.

Lemma baddr_range V i n : ino_ok V i -> 0 <= n < MAXFILE -> 0 <= baddr V i n < 2000 /\ baddr V i n <> 45.
Proof.
  intros Hi Hn. destruct (decide (baddr V i n = 0)) as [->|Hz]; [lia|]. destruct (io_blk _ _ _ _ _ _ Hi n Hn Hz) as [Hb _]. apply blk_range in Hb. lia.
Qed.

(** The blocks that reaching block [n] of the file takes. *)
Definition need (V : Z -> list Z) (i : inode) (n : Z) : Z :=
  (if baddr V i n =? 0 then 1 else 0) + (if (NDIRECT <=? n) && (ind i =? 0) then 1 else 0).

Definition found (u : Z) (V : Z -> list Z) (i : inode) (n fi fb : Z) (r : dinode * Z) (s' : ust image globals) : Prop :=
  exists V' img', s' = mkUst img' (G fi (fb + need V i n)) /\ view V' (fb + need V i n) img' /\ grown V i V' (to_inode u r.1) /\
    r.2 = baddr V' (to_inode u r.1) n /\ r.2 <> 0 /\ (forall m, 0 <= m < MAXFILE -> m <> n -> baddr V' (to_inode u r.1) m = baddr V i m) /\
    (ind (to_inode u r.1) = 0 <-> ind i = 0 /\ n < NDIRECT).

Section block.
Variables (u : Z) (V : Z -> list Z) (din : dinode) (n fi fb : Z) (img : image).
Local Abbreviation i := (to_inode u din).
Hypothesis Hv : view V fb img.
Hypothesis Hi : ino_ok V i.
Hypothesis Hspace : fb + need V i n <= 2000.

Lemma found_here : ino_ok V i -> grown V i V i.
Proof. intros. apply grown_refl; [done|by eapply view_fs_ok|by eapply view_boot]. Qed.

Lemma block_direct : 0 <= n < NDIRECT -> wp (block_of n din) (found u V i n fi fb) (mkUst img (G fi fb)).
Proof.
  intros Hn. unfold block_of. rewrite (proj2 (Z.ltb_lt n NDIRECT)) by lia. assert (Hb : baddr V i n = addr_at i n) by (unfold baddr; by rewrite (proj2 (Z.ltb_lt n NDIRECT)) by lia).
  assert (Hn12 : 0 <= n < 12) by done. pose proof (addr_range V i n Hi ltac:(lia)) as Hr. pose proof (vw_fb _ _ _ Hv) as Hfb.
  assert (Hneed : need V i n = if addr_at i n =? 0 then 1 else 0) by (unfold need; rewrite Hb, (proj2 (Z.leb_gt NDIRECT n)) by lia; simpl; lia).
  change (addr_of din n) with (addr_at i n). rewrite xint_small by lia. unfold found. rewrite Hneed in *. destruct (Z.eqb_spec (addr_at i n) 0) as [Hz|Hz].
  - apply wp_bind, wp_bind. eapply wp_ok; [apply next_block_run; lia|]. apply wp_ret, wp_ret. rewrite xint_small by lia. cbn [fst snd].
    set (din' := set_addr n fb din). change (addr_of din' n) with (addr_at (set_iaddrs (<[Z.to_nat n := fb]> (iaddrs i)) i) n).
    pose proof (view_first_free _ _ _ Hv ltac:(lia)) as Hff. pose proof (view_fs_ok _ _ _ Hv) as Hfs. pose proof (view_boot _ _ _ Hv) as Hbo.
    pose proof (grow_direct ROOTDEV 2 30 SB layout_SB V i fb Hfs Hbo Hi Hff n Hn Hz) as Hg.
    pose proof (fun m => baddr_direct ROOTDEV 2 30 SB V i fb Hi Hff n m Hn) as Hbd. pose proof (ind_direct ROOTDEV 2 30 SB V i fb Hi n Hn) as Hid.
    assert (Hx : addr_at (set_iaddrs (<[Z.to_nat n := fb]> (iaddrs i)) i) n = fb).
    { rewrite addr_at_insert by (first [apply (io_len _ _ _ _ _ _ Hi)|lia]). by rewrite Z.eqb_refl. }
    rewrite Hx, xint_small by lia. exists (allocated SB fb V), img. split_and!; [done|apply view_alloc; [done|lia]|exact Hg| |lia| |].
    + symmetry. etrans; [apply Hbd; rewrite MAXFILE_val; lia|]. by rewrite Z.eqb_refl.
    + intros m Hm Hne. etrans; [by apply Hbd|]. by rewrite (proj2 (Z.eqb_neq m n)).
    + change (ind (to_inode u din')) with (ind (set_iaddrs (<[Z.to_nat n := fb]> (iaddrs i)) i)). rewrite Hid. lia.
  - apply wp_bind, wp_ret, wp_ret. cbn [fst snd]. change (addr_of din n) with (addr_at i n). rewrite xint_small, Z.add_0_r by lia. exists V, img. split_and!; [done|done|by apply found_here|done|done|done|lia].
Qed.

Lemma block_ind : fb + (if ind i =? 0 then 1 else 0) <= 2000 ->
  wp (if xint (addr_of din NDIRECT) =? 0 then b <- next_block ;; ret (set_addr NDIRECT (xint b) din) else ret din)
    (fun din1 s' => let fb1 := fb + (if ind i =? 0 then 1 else 0) in exists V1, s' = mkUst img (G fi fb1) /\ view V1 fb1 img /\ grown V i V1 (to_inode u din1) /\
      ind (to_inode u din1) <> 0 /\ forall m, 0 <= m < MAXFILE -> baddr V1 (to_inode u din1) m = baddr V i m)
    (mkUst img (G fi fb)).
Proof.
  intros Hsp. change (addr_of din NDIRECT) with (ind i). pose proof (addr_range V i 12 Hi ltac:(lia)) as Hr. change (addr_at i 12) with (ind i) in Hr. pose proof (vw_fb _ _ _ Hv) as Hfb.
  rewrite xint_small by lia. destruct (Z.eqb_spec (ind i) 0) as [Hz|Hz].
  - apply wp_bind. eapply wp_ok; [apply next_block_run; lia|]. apply wp_ret. rewrite xint_small by lia. cbv zeta.
    pose proof (view_first_free _ _ _ Hv ltac:(lia)) as Hff. pose proof (view_fs_ok _ _ _ Hv) as Hfs. pose proof (view_boot _ _ _ Hv) as Hbo.
    exists (allocated SB fb V). split_and!; [done|apply view_alloc; [done|lia]|exact (grow_ind ROOTDEV 2 30 SB layout_SB V i fb Hfs Hbo Hi Hff Hz)| |].
    + change (ind (set_iaddrs (<[Z.to_nat NDIRECT := fb]> (iaddrs i)) i) <> 0). rewrite (ind_ind ROOTDEV 2 30 SB V i fb Hi). lia.
    + intros m Hm. exact (baddr_ind ROOTDEV 2 30 SB V i fb Hbo Hi Hff m Hz Hm).
  - apply wp_ret. cbv zeta. rewrite Z.add_0_r. exists V. split_and!; [done|done|by apply found_here|done|done].
Qed.
End block.

(** An entry of the indirect block, there already. *)
Lemma block_entry u V din n fi fb img : view V fb img -> ino_ok V (to_inode u din) -> ind (to_inode u din) <> 0 -> NDIRECT <= n < MAXFILE ->
  fb + (if baddr V (to_inode u din) n =? 0 then 1 else 0) <= 2000 ->
  wp (indirect <- rsect (xint (addr_of din NDIRECT)) ;;
      let o := Z.to_nat (4 * (n - NDIRECT)) in
      indirect <- (if hrd 4 o indirect =? 0 then
                     b <- next_block ;;
                     let indirect := splice o (host_bytes 4 (xint b)) indirect in
                     wsect (xint (addr_of din NDIRECT)) indirect ;;
                     ret indirect
                   else ret indirect) ;;
      ret (din, xint (hrd 4 o indirect))) (found u V (to_inode u din) n fi fb) (mkUst img (G fi fb)).
Proof.
  set (i := to_inode u din). intros Hv Hi Hnz Hn Hsp. change (addr_of din NDIRECT) with (ind i). pose proof (vw_fb _ _ _ Hv) as Hfb.
  destruct (blk_range _ _ (io_ind _ _ _ _ _ _ Hi Hnz)) as [Hr Hr45]. pose proof (blk_below _ _ _ _ Hv (io_ind _ _ _ _ _ _ Hi Hnz)) as Hlt. rewrite xint_small by lia. pose proof Hn as Hn'. change NDIRECT with 12 in Hn'. rewrite MAXFILE_val in Hn'.
  apply wp_bind. eapply wp_ok; [apply (rsect_run V fb img); [done|lia|done]|]. cbv zeta. rewrite hrd_le.
  assert (Hb : baddr V i n = rd 4 (Z.to_nat (4 * (n - NDIRECT))) (V (ind i))) by (unfold baddr; by rewrite (proj2 (Z.ltb_ge n NDIRECT)), (proj2 (Z.eqb_neq (ind i) 0)) by (done || lia)).
  assert (Hneed : need V i n = if baddr V i n =? 0 then 1 else 0) by (unfold need; rewrite (proj2 (Z.eqb_neq (ind i) 0)), andb_false_r by done; lia).
  pose proof (baddr_range V i n Hi ltac:(lia)) as [Hbr _]. unfold found. rewrite Hneed, <- Hb in *. destruct (Z.eqb_spec (baddr V i n) 0) as [Hz|Hz].
  - pose proof (view_first_free _ _ _ Hv ltac:(lia)) as Hff. pose proof (view_fs_ok _ _ _ Hv) as Hfs. pose proof (view_boot _ _ _ Hv) as Hbo.
    pose proof (grow_entry ROOTDEV 2 30 SB layout_SB V i fb Hfs Hbo Hi Hff n Hn Hnz ltac:(unfold a_get; by rewrite <- Hb)) as Hg.
    pose proof (fun m => baddr_entry ROOTDEV 2 30 SB layout_SB V i fb Hfs Hbo Hi Hff n m Hn Hnz) as Hbe.
    rewrite (alloc_keeps 2 30 SB V fb Hff (ind i) (io_ind _ _ _ _ _ _ Hi Hnz)) in Hg, Hbe.
    apply wp_bind, wp_bind. eapply wp_ok; [apply next_block_run; lia|]. cbv zeta. rewrite xint_small, host_bytes_le by lia.
    change (splice (Z.to_nat (4 * (n - NDIRECT))) (le_bytes 4 fb) (V (ind i))) with (a_set (n - NDIRECT) fb (V (ind i))).
    assert (Hl : length (V (ind i)) = BSIZE) by (apply Hv; lia). assert (Hln : length (a_set (n - NDIRECT) fb (V (ind i))) = BSIZE) by (apply length_a_set; [done|change NINDIRECT with 256; change NDIRECT with 12; lia]).
    apply wp_bind. eapply wp_ok; [apply wsect_run; [apply Hv|lia]|]. apply wp_ret, wp_ret. rewrite hrd_le. change (rd 4 (Z.to_nat (4 * (n - NDIRECT)))) with (a_get (n - NDIRECT)).
    rewrite a_get_set, Z.eqb_refl, xint_small by first [lia | change NINDIRECT with 256; change NDIRECT with 12; lia | done]. cbn [fst snd]. fold i.
    eexists _, _. split_and!; [done|apply view_write; [apply view_alloc; [done|lia]|lia|done|done]|exact Hg| |lia| |lia].
    + symmetry. etrans; [by apply Hbe; lia|]. by rewrite Z.eqb_refl.
    + intros m Hm Hne. etrans; [by apply Hbe|]. by rewrite (proj2 (Z.eqb_neq m n)).
  - apply wp_bind, wp_ret, wp_ret. rewrite hrd_le, <- Hb, xint_small, Z.add_0_r by lia. cbn [fst snd]. fold i. exists V, img.
    split_and!; [done|done|by apply (found_here u V din fb img)|done|done|done|lia].
Qed.

Lemma block_of_spec u V din n fi fb img : view V fb img -> ino_ok V (to_inode u din) -> 0 <= n < MAXFILE -> fb + need V (to_inode u din) n <= 2000 ->
  wp (block_of n din) (found u V (to_inode u din) n fi fb) (mkUst img (G fi fb)).
Proof.
  intros Hv Hi Hn Hsp. destruct (Z.ltb_spec n NDIRECT) as [Hlt|Hge]; [by apply block_direct; try lia|].
  unfold block_of. rewrite (proj2 (Z.ltb_ge n NDIRECT)) by done. unfold need in Hsp. rewrite (proj2 (Z.leb_le NDIRECT n)) in Hsp by done. simpl andb in Hsp.
  eapply wp_seq; [apply (block_ind u V din fi fb img Hv Hi); destruct (baddr V (to_inode u din) n =? 0); lia|]. intros din1 s1 (V1 & -> & Hv1 & Hg1 & Hnz & Hb1).
  eapply wp_mono; [apply (block_entry u V1 din1 n fi _ img Hv1); [apply Hg1|done|lia|rewrite Hb1 by done; lia]|].
  intros r s' (V2 & img2 & -> & Hv2 & Hg2 & Hx & Hxz & Hm & Hind). 
  assert (Hneed : need V1 (to_inode u din1) n = if baddr V (to_inode u din) n =? 0 then 1 else 0).
  { unfold need. rewrite Hb1, (proj2 (Z.eqb_neq (ind (to_inode u din1)) 0)), andb_false_r by done. lia. }
  assert (Hsum : fb + (if ind (to_inode u din) =? 0 then 1 else 0) + need V1 (to_inode u din1) n = fb + need V (to_inode u din) n).
  { rewrite Hneed. unfold need. rewrite (proj2 (Z.leb_le NDIRECT n)) by done. simpl andb. lia. }
  rewrite Hsum in Hv2 |- *. exists V2, img2. split_and!; [done|done|by eapply grown_trans|done|done| |lia].
  intros m Hmr Hne. by rewrite Hm, Hb1.
Qed.

(** ** Appending *)

Local Abbreviation written := (written ROOTDEV 2 30 SB).

(** The file has exactly the blocks that [sz] bytes take. *)
Definition tight (V : Z -> list Z) (i : inode) (sz : Z) : Prop :=
  (forall m, 0 <= m < MAXFILE -> baddr V i m = 0 <-> sz <= m * BSZ) /\ (ind i = 0 <-> sz <= NDIRECT * BSZ).

(** The number of blocks of a file of [sz] bytes, the indirect block included. *)
Definition cost (sz : Z) : Z := (sz + BSZ - 1) / BSZ + (if sz <=? NDIRECT * BSZ then 0 else 1).

Lemma need_cost V i o m : tight V i o -> 0 <= o < MAXFILE * BSZ -> 0 < m <= BSZ - o mod BSZ -> need V i (o / BSZ) = cost (o + m) - cost o.
Proof.
  intros [Hb Hi] Ho Hm. unfold need, cost. rewrite BSZ_val, MAXFILE_val in *. change NDIRECT with 12 in *.
  specialize (Hb (o / 1024) ltac:(Z.to_euclidean_division_equations; lia)).
  destruct (Z.eqb_spec (baddr V i (o / 1024)) 0), (Z.eqb_spec (ind i) 0), (Z.leb_spec 12 (o / 1024)), (Z.leb_spec (o + m) (12 * 1024)), (Z.leb_spec o (12 * 1024));
    cbn [andb]; Z.to_euclidean_division_equations; lia.
Qed.

Lemma tight_step V i V' i' o m x : tight V i o -> 0 <= o < MAXFILE * BSZ -> 0 < m <= BSZ - o mod BSZ ->
  x <> 0 -> (forall k, 0 <= k < MAXFILE -> baddr V' i' k = if k =? o / BSZ then x else baddr V i k) -> (ind i' = 0 <-> ind i = 0 /\ o / BSZ < NDIRECT) ->
  tight V' i' (o + m).
Proof.
  intros [Hb Hi] Ho Hm Hx Hb' Hi'. rewrite MAXFILE_val in *. split.
  - intros k Hk. rewrite Hb' by done. rewrite BSZ_val in *. specialize (Hb k Hk). destruct (Z.eqb_spec k (o / 1024)) as [->|Hne]; [Z.to_euclidean_division_equations; lia|].
    rewrite Hb. split; intros; Z.to_euclidean_division_equations; lia.
  - rewrite Hi', Hi. change NDIRECT with 12. rewrite BSZ_val in *. split; intros; Z.to_euclidean_division_equations; lia.
Qed.

(** What the loop of [iappend] leaves: [r] is the new size and the inode. *)
Definition appended (u fi : Z) (V : Z -> list Z) (i : inode) (fb off : Z) (bs : list Z) (r : Z * dinode) (s' : ust image globals) : Prop :=
  let o := off + Z.of_nat (length bs) in let fb' := fb + (cost o - cost off) in
  exists V' img', r.1 = o /\ s' = mkUst img' (G fi fb') /\ view V' fb' img' /\ written (fun _ => False) V i V' (to_inode u r.2) off bs /\ tight V' (to_inode u r.2) o.

Lemma cost_mono a b : 0 <= a <= b -> 0 <= cost a <= cost b.
Proof. intros Hab. unfold cost. rewrite BSZ_val. destruct (Z.leb_spec a (NDIRECT * 1024)), (Z.leb_spec b (NDIRECT * 1024)); Z.to_euclidean_division_equations; lia. Qed.

Lemma append_round u fi V i fb off bs p din s :
  0 <= off -> off + Z.of_nat (length (bs ++ p)) <= MAXFILE * BSZ -> fb + (cost (off + Z.of_nat (length (bs ++ p))) - cost off) <= 2000 -> p <> [] ->
  appended u fi V i fb off bs (off + Z.of_nat (length bs), din) s ->
  let o := off + Z.of_nat (length bs) in let fbn := o / BSZ in
  wp (assert (fbn <? MAXFILE) ;;
      let! (din, x) := block_of fbn din in
      let n1 := Z.min (Z.of_nat (length p)) ((fbn + 1) * BSZ - o) in
      buf <- rsect x ;;
      wsect x (splice (Z.to_nat (o - fbn * BSZ)) (take (Z.to_nat n1) p) buf) ;;
      ret (inl (drop (Z.to_nat n1) p, u32 (o + n1), din) : list Z * Z * dinode + Z * dinode))
    (fun r s' => exists k din', (0 < k <= length p)%nat /\ r = inl (drop k p, off + Z.of_nat (length (bs ++ take k p)), din') /\
       appended u fi V i fb off (bs ++ take k p) (off + Z.of_nat (length (bs ++ take k p)), din') s') s.
Proof.
  intros Hoff Hend Hsp Hp (V1 & img1 & _ & -> & Hv1 & Hw1 & Ht1) o fbn. cbn [fst snd] in Hw1, Ht1. rewrite length_app, Nat2Z.inj_add in Hend, Hsp.
  assert (Hpl : 0 < Z.of_nat (length p)) by (destruct p; [done|simpl; lia]). fold o in Hv1, Ht1 |- *.
  assert (Ho : 0 <= o < MAXFILE * BSZ) by lia. pose proof (Z.mod_pos_bound o BSZ ltac:(rewrite BSZ_val; lia)) as Hmod. pose proof (Z.div_mod o BSZ ltac:(rewrite BSZ_val; lia)) as Hdm.
  assert (Hfbn : 0 <= fbn < MAXFILE) by (subst fbn; rewrite BSZ_val, MAXFILE_val in *; Z.to_euclidean_division_equations; lia).
  set (n1 := Z.min (Z.of_nat (length p)) ((fbn + 1) * BSZ - o)). assert (Hn1 : 0 < n1 <= BSZ - o mod BSZ /\ n1 <= Z.of_nat (length p)) by (subst fbn; lia).
  set (k := Z.to_nat n1). assert (Hk : Z.of_nat k = n1) by lia. assert (Hlk : length (take k p) = k) by (rewrite length_take; lia).
  pose proof (need_cost V1 _ o n1 Ht1 Ho ltac:(lia)) as Hneed. pose proof (cost_mono (o + n1) (off + (Z.of_nat (length bs) + Z.of_nat (length p))) ltac:(lia)) as Hmono.
  apply wp_bind. eapply wp_ok; [unfold assert; by rewrite (proj2 (Z.ltb_lt fbn MAXFILE)) by lia|].
  eapply wp_seq; [apply (block_of_spec u V1 din fbn fi _ img1 Hv1); [apply Hw1|done|unfold fbn; rewrite Hneed; lia]|].
  intros [din2 x] s2 (V2 & img2 & -> & Hv2 & Hg2 & Hx & Hxz & Hothers & Hind). cbn [fst snd] in Hg2, Hx, Hxz, Hothers, Hind. fold fbn in Hneed. rewrite Hneed in Hv2 |- *. cbv zeta.
  pose proof (gr_ino _ _ _ _ _ _ _ _ Hg2) as Hi2. rewrite Hx in Hxz. destruct (io_blk _ _ _ _ _ _ Hi2 fbn Hfbn Hxz) as [Hblk _].
  destruct (blk_range _ _ Hblk) as [Hxr Hx45]. pose proof (blk_below _ _ _ _ Hv2 Hblk) as Hxb. rewrite Hx in *.
  apply wp_bind. eapply wp_ok; [apply (rsect_run _ _ _ _ _ Hv2); [lia|done]|].
  apply wp_bind. eapply wp_ok; [apply wsect_run; [apply Hv2|lia]|]. apply wp_ret. exists k, din2. split; [lia|].
  replace (o - fbn * BSZ) with (o mod BSZ) by (unfold fbn; lia). rewrite length_app, Hlk, Nat2Z.inj_add, Hk, Z.add_assoc. fold o.
  rewrite wrap_small by (rewrite BSZ_val, MAXFILE_val in *; lia). split; [done|].
  assert (Hlen : Z.of_nat (length (take k p)) <= BSZ - o mod BSZ) by lia.
  pose proof (step_len ROOTDEV 2 30 SB V1 _ off bs V2 _ (take k p) Hg2 Hoff Hlen ltac:(lia) Hxz) as Hsl.
  pose proof (written_step ROOTDEV 2 30 ltac:(unfold ROOTDEV; lia) SB layout_SB _ V i V1 _ off bs V2 _ (take k p) Hw1 Hg2 Hoff Hlen ltac:(lia) Hxz) as Hw3.
  unfold appended. rewrite length_app, Hlk, Nat2Z.inj_add, Hk, Z.add_assoc. fold o. cbv zeta. replace (fb + (cost (o + n1) - cost off)) with (fb + (cost o - cost off) + (cost (o + n1) - cost o)) by lia.
  eexists _, _. cbn [fst snd]. split_and!; [done|done|apply view_write; [done|lia|done|exact Hsl]|exact Hw3|].
  eapply (tight_step V1 _ _ _ o n1 _ Ht1 Ho ltac:(lia) Hxz); [|done]. intros m Hm. rewrite (fill_baddr ROOTDEV 2 30 SB) by done.
  destruct (Z.eqb_spec m (o / BSZ)) as [->|Hne]; [done|by apply Hothers].
Qed.

Lemma append_loop u fi V din fb off bs img :
  let i := to_inode u din in
  view V fb img -> ino_ok V i -> tight V i off -> 0 <= off -> off + Z.of_nat (length bs) <= MAXFILE * BSZ -> fb + (cost (off + Z.of_nat (length bs)) - cost off) <= 2000 ->
  wp (while_fuel UFuel (S (length bs)) (fun '(p, off, din) =>
      if negb (0 <? Z.of_nat (length p)) then ret (inr (off, din)) else
      let fbn := off / BSZ in
      assert (fbn <? MAXFILE) ;;
      let! (din, x) := block_of fbn din in
      let n1 := Z.min (Z.of_nat (length p)) ((fbn + 1) * BSZ - off) in
      buf <- rsect x ;;
      wsect x (splice (Z.to_nat (off - fbn * BSZ)) (take (Z.to_nat n1) p) buf) ;;
      ret (inl (drop (Z.to_nat n1) p, u32 (off + n1), din))) (bs, off, din)) (appended u fi V i fb off bs) (mkUst img (G fi fb)).
Proof.
  intros i Hv Hi Ht Hoff Hend Hsp.
  apply (wp_while _ (fun x s => exists bs1, bs = bs1 ++ x.1.1 /\ x.1.2 = off + Z.of_nat (length bs1) /\ appended u fi V i fb off bs1 (x.1.2, x.2) s) (fun x => length x.1.1)).
  - exists []. cbn [fst snd app length]. split_and!; [done|lia|]. exists V, img. cbn [fst snd length]. rewrite !Z.add_0_r, Z.sub_diag, Z.add_0_r.
    split_and!; [done|done|done|apply written_nil; [done|by eapply view_fs_ok|by eapply view_boot]|done].
  - simpl. lia.
  - intros [[p o] din1] s (bs1 & Hbs & Ho & Ha). cbn [fst snd] in *. subst o. destruct p as [|c p].
    + apply wp_ret. rewrite app_nil_r in Hbs. by subst bs1.
    + change (negb (0 <? Z.of_nat (length (c :: p)))) with false. cbv iota. rewrite Hbs in Hend, Hsp.
      eapply wp_mono; [apply (append_round u fi V i fb off bs1 (c :: p) din1 s Hoff Hend Hsp ltac:(done) Ha)|].
      intros r s' (k & din' & Hk & -> & Ha'). cbn [fst snd]. split; [|rewrite length_drop; lia].
      exists (bs1 ++ take k (c :: p)). split_and!; [by rewrite <- app_assoc, take_drop|done|done].
Qed.

(** ** Inodes on the disk *)

(** The inode [u] as the kernel's [ilock] reads it. *)
Definition load (V : Z -> list Z) (u : Z) : inode :=
  let x := V (IBLOCK u SB) in let o := dinode_off u in
  mkInode ROOTDEV u 1 true (di_type o x) (di_major o x) (di_minor o x) (di_nlink o x) (di_size o x) (di_addrs o x).

(** What fits in the fields of [struct dinode]. *)
Record storable (i : inode) : Prop := {
  sr_type : short (itype i);
  sr_major : short (imajor i);
  sr_minor : short (iminor i);
  sr_nlink : short (inlink i);
  sr_size : 0 <= isize i < 2 ^ 32;
  sr_len : length (iaddrs i) = 13%nat;
  sr_addrs : forall k, 0 <= k <= 12 -> 0 <= addr_at i k < 2 ^ 32
}.

Lemma length_bytes_of_dinode d : length (d_addrs d) = 13%nat -> length (bytes_of_dinode d) = 64%nat.
Proof.
  intros Hl. unfold bytes_of_dinode. rewrite !length_app. erewrite (list_fmap_ext (host_bytes 4)); [|intros; apply host_bytes_le].
  rewrite length_addrs, Hl, !host_bytes_le, !length_le_bytes. done.
Qed.

Lemma bytes_of_dinode_le d : bytes_of_dinode d = le_bytes 2 (d_type d) ++ le_bytes 2 (d_major d) ++ le_bytes 2 (d_minor d) ++ le_bytes 2 (d_nlink d) ++
  le_bytes 4 (d_size d) ++ mjoin (le_bytes 4 <$> d_addrs d).
Proof. unfold bytes_of_dinode. rewrite !host_bytes_le. do 6 f_equal. apply list_fmap_ext. intros. apply host_bytes_le. Qed.

Lemma load_put V u d y : storable (to_inode u d) -> length y = BSIZE -> V (IBLOCK u SB) = splice (dinode_off u) (bytes_of_dinode d) y -> load V u = to_inode u d.
Proof.
  intros [Ht Hma Hmi Hnl Hsz Hln Had] Hy HV. simpl in Ht, Hma, Hmi, Hnl, Hsz, Hln. unfold load. rewrite HV. pose proof (dinode_fits u) as Hf. pose proof (length_bytes_of_dinode d Hln) as Hl.
  change BSIZE with 1024%nat in Hy. assert (Hr : forall n j, (j + n <= 64)%nat -> rd n (dinode_off u + j) (splice (dinode_off u) (bytes_of_dinode d) y) = rd n j (bytes_of_dinode d)) by (intros; apply rd_splice; lia).
  unfold to_inode, di_type, di_major, di_minor, di_nlink, di_size, di_addrs. rewrite <- (Nat.add_0_r (dinode_off u)) at 1.
  rewrite !Hr by lia. rewrite bytes_of_dinode_le. f_equal.
  - rewrite rd_here. by apply s16_mod.
  - rewrite (rd_skip 2 2 _ 0), rd_here. by apply s16_mod.
  - rewrite (rd_skip 2 2 _ (2 + 0)), rd_skip, rd_here. by apply s16_mod.
  - rewrite (rd_skip 2 2 _ (2 + (2 + 0))), !rd_skip, rd_here. by apply s16_mod.
  - rewrite (rd_skip 4 2 _ (2 + (2 + (2 + 0)))), !rd_skip, rd_here. apply Z.mod_small. done.
  - apply list_eq. intros k. rewrite list_lookup_fmap. destruct (decide (k < 13)%nat) as [Hk|Hk].
    + rewrite lookup_seq_lt by done. cbn [fmap option_fmap option_map]. rewrite <- bytes_of_dinode_le, <- Nat.add_assoc, Hr, bytes_of_dinode_le by lia.
      change (12 + 4 * (0 + k))%nat with (2 + (2 + (2 + (2 + (4 + 4 * k)))))%nat. rewrite !rd_skip, rd_addrs by lia. rewrite (list_lookup_lookup_total_lt (d_addrs d)) by lia. f_equal. apply Z.mod_small.
      specialize (Had (Z.of_nat k) ltac:(lia)). unfold addr_at in Had. simpl in Had. by rewrite Nat2Z.id in Had.
    + rewrite !lookup_ge_None_2; [done|lia|rewrite length_seq; lia].
Qed.

Lemma rd_sub n o j x : (j + n <= 64)%nat -> rd n (o + j) x = rd n j (sub o 64 x).
Proof.
  intros Hj. unfold rd. f_equal. apply list_eq. intros k. destruct (decide (k < n)%nat) as [Hk|Hk].
  - rewrite !sub_lookup by lia. f_equal. lia.
  - unfold sub. by rewrite !lookup_take_ge by lia.
Qed.

(** An inode is what its 64 bytes say. *)
Lemma load_slot V V' u : sub (dinode_off u) 64 (V' (IBLOCK u SB)) = sub (dinode_off u) 64 (V (IBLOCK u SB)) -> load V' u = load V u.
Proof.
  intros Hs. unfold load, di_type, di_major, di_minor, di_nlink, di_size, di_addrs. set (x' := V' _) in *. set (x := V _) in *. set (o := dinode_off u) in *.
  assert (Hr : forall n j, (j + n <= 64)%nat -> rd n (o + j) x' = rd n (o + j) x) by (intros; rewrite !rd_sub, Hs by done; done).
  pose proof (Hr 2%nat 0%nat ltac:(lia)) as H0. rewrite Nat.add_0_r in H0. rewrite H0, !Hr by lia. f_equal.
  apply list_fmap_ext. intros k j Hk. apply lookup_seq in Hk. rewrite <- Nat.add_assoc. apply Hr. lia.
Qed.

Lemma load_other V V' u v xs : 0 <= u < 208 -> 0 <= v < 208 -> v <> u -> length xs = 64%nat -> length (V (IBLOCK u SB)) = BSIZE ->
  V' (IBLOCK u SB) = splice (dinode_off u) xs (V (IBLOCK u SB)) -> (IBLOCK v SB <> IBLOCK u SB -> V' (IBLOCK v SB) = V (IBLOCK v SB)) -> load V' v = load V v.
Proof.
  intros Hu Hv Hne Hl Hlen HV Hother. apply load_slot. destruct (decide (IBLOCK v SB = IBLOCK u SB)) as [He|Hd]; [|by rewrite Hother].
  rewrite He, HV. pose proof (dinode_fits u). apply sub_splice_ne; [rewrite Hlen; change BSIZE with 1024%nat; lia|]. rewrite Hl. rewrite !dinode_off_val.
  destruct (iblock u Hu) as [Eu _], (iblock v Hv) as [Ev _]. rewrite Eu, Ev in He. Z.to_euclidean_division_equations; lia.
Qed.

Lemma to_inode_at u V : to_inode u (dinode_at (dinode_off u) (V (IBLOCK u SB))) = load V u.
Proof.
  unfold to_inode, dinode_at, load. cbn [d_type d_major d_minor d_nlink d_size d_addrs]. rewrite !hrd_le. f_equal. apply list_fmap_ext. intros. apply hrd_le.
Qed.

Lemma load_storable V u : (forall k, 0 <= k <= 12 -> 0 <= addr_at (load V u) k < 2 ^ 32) -> 0 <= isize (load V u) < 2 ^ 32 -> storable (load V u).
Proof.
  intros Ha Hs. split; [apply (swrap_range 16); lia..|done|reflexivity|done].
Qed.

Lemma rinode_run u V fb img fi : view V fb img -> 0 <= u < 208 ->
  exists din, rinode u (mkUst img (G fi fb)) = Ok din (mkUst img (G fi fb)) /\ to_inode u din = load V u.
Proof.
  intros Hv Hu. destruct (iblock u Hu) as [_ Hr]. exists (dinode_at (dinode_off u) (V (IBLOCK u SB))). split; [|apply to_inode_at].
  unfold rinode, bind, get_glob, gets, ret. cbn [after world glob G gsb]. by rewrite (rsect_run V fb img) by (done || lia).
Qed.

Lemma winode_run u d V fb img fi : view V fb img -> 0 <= u < 208 -> length (d_addrs d) = 13%nat ->
  let x := splice (dinode_off u) (bytes_of_dinode d) (V (IBLOCK u SB)) in
  exists img', winode u d (mkUst img (G fi fb)) = Ok tt (mkUst img' (G fi fb)) /\ view (vupd V (IBLOCK u SB) x) fb img' /\ length x = BSIZE.
Proof.
  intros Hv Hu Hl x. destruct (iblock u Hu) as [_ Hr]. pose proof (vw_fb _ _ _ Hv) as Hfb. exists (<[Z.to_nat (IBLOCK u SB) := x]> img).
  assert (Hx : length x = BSIZE).
  { unfold x. pose proof (dinode_fits u). rewrite length_splice; rewrite (vw_size _ _ _ Hv) by lia; [done|]. rewrite (length_bytes_of_dinode d Hl). change BSIZE with 1024%nat. lia. }
  split_and!; [|apply view_write; (done || lia)|done]. unfold winode, bind, get_glob, gets. cbn [after world glob G gsb]. rewrite (rsect_run V fb img) by (done || lia). cbn [after].
  by rewrite wsect_run by (try apply Hv; lia).
Qed.

(** ** The files of the image *)

Record entry : Type := mkEntry { e_type : Z; e_bytes : list Z }.
Definition e_size (e : entry) : Z := Z.of_nat (length (e_bytes e)).

(** Block [b] belongs to the file. *)
Definition owns (V : Z -> list Z) (i : inode) (b : Z) : Prop := b <> 0 /\ (b = ind i \/ exists m, 0 <= m < MAXFILE /\ b = baddr V i m).

Record file_ok (V : Z -> list Z) (u : Z) (e : entry) : Prop := {
  fo_ino : ino_ok V (load V u);
  fo_low : forall b, owns V (load V u) b -> 46 <= b;
  fo_type : itype (load V u) = e_type e;
  fo_nlink : inlink (load V u) = 1;
  fo_size : isize (load V u) = e_size e;
  fo_max : e_size e <= MAXFILE * BSZ;
  fo_tight : tight V (load V u) (e_size e);
  fo_data : forall k, 0 <= k < MAXFILE * BSZ -> fbyte V (load V u) k = default 0 (e_bytes e !! Z.to_nat k)
}.

Lemma owns_blk V i b : ino_ok V i -> owns V i b -> blk_ok 2 30 SB V b.
Proof. intros Hi [Hz [->|(m & Hm & ->)]]; [by apply Hi|by apply (io_blk _ _ _ _ _ _ Hi)]. Qed.

(** A file whose inode and blocks are as before. *)
Lemma file_frame V V' fb fb' img img' v e : view V fb img -> view V' fb' img' -> fb <= fb' -> file_ok V v e -> load V' v = load V v ->
  (forall b, owns V (load V v) b -> V' b = V b) -> file_ok V' v e /\ forall b, owns V' (load V' v) b <-> owns V (load V v) b.
Proof.
  intros Hv Hv' Hfb [Hi Hlow Hty Hnl Hsz Hmax [Htb Hti] Hd] Hl Hsame. rewrite Hl. set (i := load V v) in *.
  assert (Hb : forall m, baddr V' i m = baddr V i m).
  { intros m. unfold baddr. destruct (m <? NDIRECT); [done|]. destruct (Z.eqb_spec (ind i) 0) as [|Hz]; [done|]. rewrite Hsame; [done|]. split; [done|by left]. }
  assert (Hown : forall b, owns V' i b <-> owns V i b) by (intros b; unfold owns; by setoid_rewrite Hb).
  assert (Hblk : forall b, owns V i b -> blk_ok 2 30 SB V' b).
  { intros b Ho. pose proof (owns_blk _ _ _ Hi Ho) as Hbk. pose proof (blk_below _ _ _ _ Hv Hbk). pose proof (Hlow b Ho). apply (view_blk_ok V' fb' img'); [done|lia|lia]. }
  split; [|done]. split; rewrite ?Hl; try done.
  - split; [apply Hi|apply Hi| | |].
    + intros Hz. apply Hblk. split; [done|by left].
    + intros m Hm. rewrite Hb. intros Hz. split; [apply Hblk; split; [done|right; by exists m]|by apply (io_blk _ _ _ _ _ _ Hi)].
    + intros n m Hn Hm. rewrite !Hb. by apply Hi.
  - intros b Ho. by apply Hlow, Hown.
  - split; [|done]. intros m Hm. rewrite Hb. by apply Htb.
  - intros k Hk. rewrite <- Hd by done. unfold fbyte, fblock. rewrite Hb. destruct (Z.eqb_spec (baddr V i (k / BSZ)) 0) as [|Hz]; [done|].
    rewrite Hsame; [done|]. split; [done|]. right. eexists. split; [|done]. rewrite BSZ_val, MAXFILE_val in *. Z.to_euclidean_division_equations; lia.
Qed.

(** The blocks in use by files. *)
Fixpoint spent (es : list entry) : Z :=
  match es with
  | [] => 0
  | e :: es' => cost (e_size e) + spent es'
  end.

Definition sb_block : list Z := splice 0 (bytes_of_sb SB) zeroes.

(** The number of the inode of the file at position [k]: the first is the root directory. *)
Local Abbreviation ino k := (Z.of_nat k + 1).

(** The image holds the files [es] and nothing else. *)
Record inv (V : Z -> list Z) (fb : Z) (img : image) (es : list entry) : Prop := {
  in_view : view V fb img;
  in_few : (length es < 200)%nat;
  in_spent : fb = 46 + spent es;
  in_sb : V 1 = sb_block;
  in_files : forall k e, es !! k = Some e -> file_ok V (ino k) e;
  in_apart : forall k k' b, (k < length es)%nat -> (k' < length es)%nat -> k <> k' -> owns V (load V (ino k)) b -> ~ owns V (load V (ino k')) b;
  in_free : forall u, Z.of_nat (length es) < u < 200 -> itype (load V u) = 0
}.

Lemma spent_insert es k e e' : es !! k = Some e -> spent (<[k := e']> es) = spent es + (cost (e_size e') - cost (e_size e)).
Proof. revert k. induction es as [|x es IH]; intros [|k] Hk; simplify_eq/=; [lia|]. rewrite (IH k) by done. lia. Qed.

Lemma spent_concat es es' : spent (es ++ es') = spent es + spent es'.
Proof. induction es as [|x es IH]; simpl; [lia|]. rewrite IH. lia. Qed.

Lemma spent_app es e : spent (es ++ [e]) = spent es + cost (e_size e).
Proof. rewrite spent_concat. cbn [spent]. lia. Qed.

Lemma spent_pos es : 0 <= spent es.
Proof. induction es as [|e es IH]; cbn [spent]; [lia|]. pose proof (cost_mono 0 (e_size e) ltac:(unfold e_size; lia)). lia. Qed.

Lemma file_inode_block V fb img u e : view V fb img -> 0 <= u < 208 -> file_ok V u e -> inode_block 2 30 SB V (load V u) (IBLOCK u SB).
Proof.
  intros Hv Hu He. destruct (iblock u Hu) as [_ Hr]. pose proof (vw_fb _ _ _ Hv). split_and!; [done|apply (view_blk_ok V fb img); (done || lia)| |].
  - intros Hi. pose proof (fo_low _ _ _ He (IBLOCK u SB) ltac:(split; [lia|by left])). lia.
  - intros m Hm Hb. pose proof (fo_low _ _ _ He (IBLOCK u SB) ltac:(split; [lia|right; by exists m])). lia.
Qed.

Section rewritten.
(** A write to the file at position [k] that makes it [e']. *)
Variables (V V' : Z -> list Z) (fb fb' : Z) (img img' : image) (es : list entry) (k : nat) (e : entry) (bs xs : list Z).
Local Abbreviation u := (ino k).
Local Abbreviation ib := (IBLOCK u SB).
Hypothesis Hinv : inv V fb img es.
Hypothesis Hk : es !! k = Some e.
Hypothesis Hv' : view V' fb' img'.
Hypothesis Hw : written (eq ib) V (load V u) V' (load V' u) (e_size e) bs.
Hypothesis Hxs : length xs = 64%nat /\ V' ib = splice (dinode_off u) xs (V ib).
Local Abbreviation e' := (mkEntry (e_type e) (e_bytes e ++ bs)).
Hypothesis Hfb : fb' = fb + (cost (e_size e') - cost (e_size e)).
Hypothesis Hsize : isize (load V' u) = e_size e' /\ e_size e' <= MAXFILE * BSZ.
Hypothesis Htight : tight V' (load V' u) (e_size e').

Lemma rw_u : 0 <= u < 200.
Proof. apply lookup_lt_Some in Hk. pose proof (in_few _ _ _ _ Hinv). lia. Qed.

Lemma rw_size : e_size e' = e_size e + Z.of_nat (length bs).
Proof. unfold e_size. simpl. rewrite length_app. lia. Qed.

Lemma rw_fb : fb <= fb'.
Proof. rewrite Hfb, rw_size. pose proof (cost_mono (e_size e) (e_size e + Z.of_nat (length bs)) ltac:(unfold e_size; lia)). lia. Qed.

(** The blocks of the file: those it had, and blocks that were free. *)
Lemma rw_owns b : owns V' (load V' u) b -> owns V (load V u) b \/ fb <= b < 2000.
Proof.
  intros [Hz Hb]. assert (Hfree : forall c, 0 < c < 2000 -> used SB V c = false -> fb <= c < 2000).
  { intros c Hc Hu. rewrite (view_used _ _ _ _ (in_view _ _ _ _ Hinv)) in Hu by lia. apply Z.ltb_ge in Hu. lia. }
  destruct Hb as [->|(m & Hm & ->)].
  - destruct (wr_ind _ _ _ _ _ _ _ _ _ _ _ Hw) as [He|[Hr Hu]]; [left; split; [done|left; done]|right; by apply Hfree].
  - destruct (wr_new _ _ _ _ _ _ _ _ _ _ _ Hw m Hm) as [He|[Hr Hu]]; [left; split; [done|right; by exists m]|right; by apply Hfree].
Qed.

(** What is neither the file's nor free is as it was. *)
Lemma rw_same b : 0 <= b < fb -> b <> 45 -> ~ (2 <= b < 32) -> b <> ib -> ~ owns V (load V u) b -> b <> 0 -> V' b = V b.
Proof.
  intros Hb H45 Hlog Hib Hown H0. apply (wr_others _ _ _ _ _ _ _ _ _ _ _ Hw); [unfold in_log; lia|by rewrite is_map_45| |].
  - intros Hr. rewrite (view_used _ _ _ _ (in_view _ _ _ _ Hinv)) by (simpl in Hr; lia). apply Z.ltb_lt. lia.
  - intros [Hi|[Hi|Hm]]; [apply Hown; split; [done|by left]|by apply Hib|apply Hown; split; [done|by right]].
Qed.

Lemma rw_not_owned b : b < 46 -> ~ owns V (load V u) b.
Proof. intros Hb Ho. pose proof (fo_low _ _ _ (in_files _ _ _ _ Hinv k e Hk) b Ho). lia. Qed.

Lemma rw_load v : 0 <= v < 208 -> v <> u -> load V' v = load V v.
Proof.
  intros Hv Hne. pose proof rw_u as Hu. pose proof (vw_fb _ _ _ (in_view _ _ _ _ Hinv)) as Hr. destruct (iblock u ltac:(lia)) as [_ Hru], (iblock v Hv) as [_ Hrv].
  destruct Hxs as [Hl HV]. apply (load_other V V' u v xs); try done; [lia|apply (in_view _ _ _ _ Hinv); lia|]. intros Hd. apply rw_same; (done || lia || apply rw_not_owned; lia).
Qed.

Lemma rw_other k2 e2 : es !! k2 = Some e2 -> k2 <> k -> file_ok V' (ino k2) e2 /\ forall b, owns V' (load V' (ino k2)) b <-> owns V (load V (ino k2)) b.
Proof.
  intros Hk2 Hne. pose proof (in_files _ _ _ _ Hinv k2 e2 Hk2) as Hf2. apply (file_frame V V' fb fb' img img'); try done; [apply Hinv|apply rw_fb| |].
  - apply rw_load; [|lia]. apply lookup_lt_Some in Hk2. pose proof (in_few _ _ _ _ Hinv). lia.
  - intros b Hb. pose proof (fo_low _ _ _ Hf2 b Hb) as Hlow. pose proof (blk_below _ _ _ _ (in_view _ _ _ _ Hinv) (owns_blk _ _ _ (fo_ino _ _ _ Hf2) Hb)).
    pose proof rw_u as Hu. destruct (iblock u ltac:(lia)) as [_ Hru].
    apply rw_same; try lia. intros Ho. apply lookup_lt_Some in Hk as Hlt. apply lookup_lt_Some in Hk2 as Hlt2. by apply (in_apart _ _ _ _ Hinv k2 k b).
Qed.

Lemma rw_file : file_ok V' u e'.
Proof.
  pose proof (in_files _ _ _ _ Hinv k e Hk) as Hf. pose proof (wr_meta _ _ _ _ _ _ _ _ _ _ _ Hw) as Hm. split; try done.
  - apply Hw.
  - intros b Hb. pose proof (vw_fb _ _ _ (in_view _ _ _ _ Hinv)). destruct (rw_owns b Hb) as [Ho|]; [by apply (fo_low _ _ _ Hf)|lia].
  - rewrite Hm. exact (fo_type _ _ _ Hf).
  - rewrite Hm. exact (fo_nlink _ _ _ Hf).
  - apply Hsize.
  - apply Hsize.
  - intros j Hj. rewrite (wr_byte _ _ _ _ _ _ _ _ _ _ _ Hw j Hj), (fo_data _ _ _ Hf j Hj). cbn [e_bytes]. unfold e_size.
    destruct (Z.leb_spec (Z.of_nat (length (e_bytes e))) j), (Z.ltb_spec j (Z.of_nat (length (e_bytes e)) + Z.of_nat (length bs))); cbn [andb].
    + rewrite lookup_app_r by lia. replace (Z.to_nat (j - Z.of_nat (length (e_bytes e)))) with (Z.to_nat j - length (e_bytes e))%nat by lia.
      by rewrite (list_lookup_lookup_total_lt bs) by lia.
    + rewrite !lookup_ge_None_2; [done|rewrite length_app; lia|lia].
    + by rewrite lookup_app_l by lia.
    + by rewrite lookup_app_l by lia.
Qed.

Lemma inv_rewritten : inv V' fb' img' (<[k := e']> es).
Proof.
  pose proof (lookup_lt_Some _ _ _ Hk) as Hlt. pose proof (in_few _ _ _ _ Hinv) as Hfew. pose proof (vw_fb _ _ _ (in_view _ _ _ _ Hinv)) as Hr. pose proof rw_u as Hu. destruct (iblock u ltac:(lia)) as [_ Hru].
  assert (Hnew : forall k2 b, (k2 < length es)%nat -> k2 <> k -> owns V' (load V' u) b -> ~ owns V' (load V' (ino k2)) b).
  { intros k2 b Hl2 Hne Ho Ho2. destruct (lookup_lt_is_Some_2 es k2 Hl2) as [e2 Hk2]. destruct (rw_other k2 e2 Hk2 Hne) as [_ Hoi]. apply Hoi in Ho2.
    pose proof (in_files _ _ _ _ Hinv k2 e2 Hk2) as Hf2. pose proof (blk_below _ _ _ _ (in_view _ _ _ _ Hinv) (owns_blk _ _ _ (fo_ino _ _ _ Hf2) Ho2)).
    destruct (rw_owns b Ho) as [Ho1|]; [|lia]. by apply (in_apart _ _ _ _ Hinv k2 k b). }
  split; [done|by rewrite length_insert| | | | |].
  - rewrite (spent_insert es k e) by done. rewrite Hfb, (in_spent _ _ _ _ Hinv). lia.
  - rewrite rw_same; [apply Hinv|lia|lia|lia|lia|apply rw_not_owned; lia|lia].
  - intros k2 e2. rewrite list_lookup_insert_Some. intros [(<- & <- & _)|[Hne Hk2]]; [apply rw_file|]. by apply rw_other.
  - intros k1 k2 b. rewrite length_insert. intros H1 H2 Hne Ho1. destruct (decide (k1 = k)) as [->|Hn1]; [by apply Hnew|]. destruct (decide (k2 = k)) as [->|Hn2]; [intros Ho2; by apply (Hnew k1 b)|].
    destruct (lookup_lt_is_Some_2 es k1 H1) as [x1 Hx1], (lookup_lt_is_Some_2 es k2 H2) as [x2 Hx2].
    rewrite (proj2 (rw_other k2 x2 Hx2 Hn2)). apply (proj2 (rw_other k1 x1 Hx1 Hn1)) in Ho1. by apply (in_apart _ _ _ _ Hinv k1 k2).
  - intros v. rewrite length_insert. intros Hv. rewrite rw_load by lia. apply (in_free _ _ _ _ Hinv). lia.
Qed.
End rewritten.

(** ** The operations *)

Definition holds_files (fi : Z) (es : list entry) (s : ust image globals) : Prop := exists V fb img, s = mkUst img (G fi fb) /\ inv V fb img es.

Lemma iappend_spec fi es k e bs s :
  let e' := mkEntry (e_type e) (e_bytes e ++ bs) in
  holds_files fi es s -> es !! k = Some e -> e_size e' <= MAXFILE * BSZ -> 46 + spent (<[k := e']> es) <= 2000 ->
  wp (iappend (ino k) bs) (fun _ => holds_files fi (<[k := e']> es)) s.
Proof.
  intros e' (V & fb & img & -> & Hinv) Hk Hmax Hsp. set (u := ino k). pose proof (in_view _ _ _ _ Hinv) as Hv. assert (Hf : file_ok V u e) by exact (in_files _ _ _ _ Hinv k e Hk).
  assert (Hu : 0 <= u < 208) by (apply lookup_lt_Some in Hk; pose proof (in_few _ _ _ _ Hinv); lia). destruct (iblock u Hu) as [_ Hib].
  assert (He' : e_size e' = e_size e + Z.of_nat (length bs)) by (unfold e_size, e'; simpl; rewrite length_app; lia).
  rewrite (spent_insert es k e) in Hsp by done. rewrite He' in Hsp, Hmax. pose proof (in_spent _ _ _ _ Hinv) as Hspent.
  destruct (rinode_run u V fb img fi Hv Hu) as (din & Hrd & Hdin). unfold iappend. apply wp_bind. eapply wp_ok; [exact Hrd|].
  assert (Hoff : d_size din = e_size e) by (change (d_size din) with (isize (to_inode u din)); rewrite Hdin; exact (fo_size _ _ _ Hf)).
  assert (Hsz : 0 <= e_size e) by (unfold e_size; lia). rewrite MAXFILE_val, BSZ_val in Hmax. rewrite Hoff, xint_small by lia.
  eapply wp_seq; [apply (append_loop u fi V din fb (e_size e) bs img Hv); rewrite ?Hdin; [exact (fo_ino _ _ _ Hf)|exact (fo_tight _ _ _ Hf)|lia|rewrite MAXFILE_val, BSZ_val; lia|lia]|].
  rewrite Hdin. intros [o din1] s1 (V1 & img1 & Ho & -> & Hv1 & Hw1 & Ht1). cbn [fst snd] in Ho, Hw1, Ht1. subst o. rewrite xint_small by lia. set (o := e_size e + Z.of_nat (length bs)) in *.
  set (fb1 := fb + (cost o - cost (e_size e))) in *. set (d2 := set_size o din1). pose proof (wr_ino _ _ _ _ _ _ _ _ _ _ _ Hw1) as Hi1. pose proof (wr_meta _ _ _ _ _ _ _ _ _ _ _ Hw1) as Hm1.
  destruct (winode_run u d2 V1 fb1 img1 fi Hv1 Hu (io_len _ _ _ _ _ _ Hi1)) as (img2 & Hwr & Hv2 & Hx). eapply wp_ok; [exact Hwr|].
  set (x := splice _ _ _) in *. pose proof (file_inode_block V fb img u e Hv Hu Hf) as Hibk.
  pose proof (written_finish ROOTDEV 2 30 ltac:(unfold ROOTDEV; lia) SB layout_SB V (load V u) V1 (to_inode u din1) (e_size e) bs (IBLOCK u SB) o x Hw1 Hibk Hx) as Hw2.
  pose proof (fun m => finish_baddr ROOTDEV 2 30 SB V (load V u) V1 (to_inode u din1) (e_size e) bs (IBLOCK u SB) o x Hw1 Hibk m) as Hfb2.
  destruct (written_ib ROOTDEV 2 30 SB _ _ _ _ _ _ _ Hw1 Hibk) as [_ HV1].
  set (V2 := vupd V1 (IBLOCK u SB) x) in *. assert (Hx2 : V2 (IBLOCK u SB) = splice (dinode_off u) (bytes_of_dinode d2) (V1 (IBLOCK u SB))) by (unfold V2, vupd; by rewrite decide_True).
  assert (Hload : load V2 u = set_isize o (to_inode u din1)).
  { change (set_isize o (to_inode u din1)) with (to_inode u d2). apply (load_put V2 u d2 (V1 (IBLOCK u SB))); [|apply (vw_size _ _ _ Hv1); lia|done].
    assert (Hst : storable (load V u)).
    { apply load_storable; [intros a Ha; pose proof (addr_range V (load V u) a (fo_ino _ _ _ Hf) Ha); lia|]. rewrite (fo_size _ _ _ Hf). lia. }
    assert (Hfld : to_inode u d2 = set_iaddrs (d_addrs din1) (set_isize o (load V u))) by (change (to_inode u d2) with (set_isize o (to_inode u din1)); by rewrite Hm1).
    rewrite Hfld. destruct Hst. split; try done; simpl; [unfold o; lia|apply (io_len _ _ _ _ _ _ Hi1)|].
    intros a Ha. pose proof (addr_range V1 _ a Hi1 Ha) as Hr. change (addr_at (to_inode u din1) a) with (d_addrs din1 !!! Z.to_nat a) in Hr. unfold addr_at. simpl. lia. }
  exists V2, fb1, img2. split; [done|]. apply (inv_rewritten V V2 fb fb1 img img2 es k e bs (bytes_of_dinode d2)); fold u; try done.
  - by rewrite Hload.
  - split; [apply length_bytes_of_dinode, Hi1|by rewrite Hx2, HV1].
  - fold e'. by rewrite He'.
  - rewrite Hload. fold e'. rewrite He'. split; [done|]. rewrite MAXFILE_val, BSZ_val. lia.
  - rewrite Hload. fold e'. rewrite He'. destruct Ht1 as [Hb Hi]. split; [|done]. intros m Hm. rewrite Hfb2. by apply Hb.
Qed.

(** An inode with no blocks. *)
Definition fresh_dinode (ty : Z) : dinode := mkDinode ty 0 0 1 0 (replicate 13 0).

Lemma fresh_addr u ty k : 0 <= k <= 12 -> addr_at (to_inode u (fresh_dinode ty)) k = 0.
Proof. intros Hk. unfold addr_at. cbn [iaddrs to_inode fresh_dinode d_addrs]. rewrite list_lookup_total_alt, lookup_replicate_2 by lia. done. Qed.

Lemma fresh_baddr V u ty m : 0 <= m < MAXFILE -> baddr V (to_inode u (fresh_dinode ty)) m = 0.
Proof.
  intros Hm. unfold baddr. change NDIRECT with 12. destruct (Z.ltb_spec m 12); [apply fresh_addr; lia|].
  unfold ind. change NDIRECT with 12. by rewrite fresh_addr by lia.
Qed.

Lemma fresh_owns V u ty b : ~ owns V (to_inode u (fresh_dinode ty)) b.
Proof. intros [Hz [->|(m & Hm & ->)]]; apply Hz; [by apply (fresh_addr u ty 12)|by apply fresh_baddr]. Qed.

Lemma fresh_file V u ty : load V u = to_inode u (fresh_dinode ty) -> file_ok V u (mkEntry ty []).
Proof.
  intros Hl. split; rewrite ?Hl; try done.
  - split; [done|done| | |].
    + intros Hz. exfalso. apply Hz. by apply (fresh_addr u ty 12).
    + intros n Hn Hz. exfalso. apply Hz. by apply fresh_baddr.
    + intros n m Hn Hm Hz. exfalso. apply Hz. by apply fresh_baddr.
  - intros b Ho. exfalso. by eapply fresh_owns.
  - split; [|split; [done|]; intros _; by apply (fresh_addr u ty 12)]. intros m Hm. rewrite fresh_baddr by done. rewrite BSZ_val. unfold e_size. simpl. split; [lia|done].
  - intros k Hk. unfold fbyte, fblock. rewrite fresh_baddr; [|rewrite BSZ_val, MAXFILE_val in *; Z.to_euclidean_division_equations; lia].
    rewrite Z.eqb_refl, list_lookup_total_alt, lookup_replicate_2; [done|]. pose proof (Z.mod_pos_bound k BSZ ltac:(rewrite BSZ_val; lia)). rewrite BSZ_val in *. change BSIZE with 1024%nat. lia.
Qed.

Lemma ialloc_spec es ty s :
  holds_files (ino (length es)) es s -> (S (length es) < 200)%nat -> 0 <= ty < 2 ^ 15 ->
  wp (ialloc ty) (fun u s' => u = ino (length es) /\ holds_files (ino (S (length es))) (es ++ [mkEntry ty []]) s') s.
Proof.
  intros (V & fb & img & -> & Hinv) Hfew Hty. set (u := ino (length es)). pose proof (in_view _ _ _ _ Hinv) as Hv. assert (Hu : 0 <= u < 208) by lia.
  destruct (iblock u Hu) as [_ Hib]. pose proof (vw_fb _ _ _ Hv) as Hr. unfold ialloc. apply wp_bind, wp_gets, wp_bind, wp_modify. cbn [world glob G freeinode].
  rewrite !xshort_small, xint_small, !swrap_small by (simpl; lia). change (mkDinode ty 0 0 1 0 (replicate 13 0)) with (fresh_dinode ty).
  replace (set_freeinode (u32 (u + 1)) (G u fb)) with (G (ino (S (length es))) fb) by (unfold set_freeinode, G; simpl; rewrite wrap_small by lia; f_equal; lia).
  destruct (winode_run u (fresh_dinode ty) V fb img (ino (S (length es))) Hv Hu eq_refl) as (img' & Hwr & Hv' & Hx). set (x := splice _ _ _) in *.
  apply wp_bind. eapply wp_ok; [exact Hwr|]. apply wp_ret. split; [done|]. set (V' := vupd V (IBLOCK u SB) x) in *. exists V', fb, img'. split; [done|].
  assert (HV' : V' (IBLOCK u SB) = x) by (unfold V', vupd; by rewrite decide_True). assert (Hsame : forall b, b <> IBLOCK u SB -> V' b = V b) by (intros b Hb; unfold V', vupd; by rewrite decide_False).
  assert (Hload : load V' u = to_inode u (fresh_dinode ty)).
  { apply (load_put V' u _ (V (IBLOCK u SB))); [|apply (vw_size _ _ _ Hv); lia|done]. split; try done; unfold short; simpl; try lia. intros k Hk. rewrite fresh_addr by done. lia. }
  assert (Hother : forall v, 0 <= v < 208 -> v <> u -> load V' v = load V v).
  { intros v Hv1 Hne. apply (load_other V V' u v (bytes_of_dinode (fresh_dinode ty))); try done; [apply length_bytes_of_dinode; done|apply (vw_size _ _ _ Hv); lia|]. intros Hd. by apply Hsame. }
  assert (Hfr : forall k e, es !! k = Some e -> file_ok V' (ino k) e /\ forall b, owns V' (load V' (ino k)) b <-> owns V (load V (ino k)) b).
  { intros k e Hk. pose proof (in_files _ _ _ _ Hinv k e Hk) as Hf. apply lookup_lt_Some in Hk. apply (file_frame V V' fb fb img img'); try done; [apply Hother; lia|].
    intros b Ho. apply Hsame. pose proof (fo_low _ _ _ Hf b Ho). lia. }
  assert (Hnew : forall b, ~ owns V' (load V' u) b) by (intros b; rewrite Hload; apply fresh_owns).
  split; [done|rewrite length_app; simpl; lia| | | | |].
  - rewrite spent_app. change (cost (e_size (mkEntry ty []))) with 0. rewrite Z.add_0_r. apply Hinv.
  - rewrite Hsame by lia. apply Hinv.
  - intros k e. rewrite lookup_app_Some. intros [Hk|[Hge Hk]]; [by apply Hfr|]. apply list_lookup_singleton_Some in Hk as [Hz <-]. replace (ino k) with u by lia. by apply fresh_file.
  - intros k k' b. rewrite length_app. simpl. intros Hk Hk' Hne Ho. destruct (decide (k = length es)) as [->|Hn]; [by apply Hnew in Ho|].
    destruct (decide (k' = length es)) as [->|Hn']; [apply Hnew|]. destruct (lookup_lt_is_Some_2 es k ltac:(lia)) as [y Hy], (lookup_lt_is_Some_2 es k' ltac:(lia)) as [y' Hy'].
    rewrite (proj2 (Hfr k' y' Hy')). apply (proj2 (Hfr k y Hy)) in Ho. apply (in_apart _ _ _ _ Hinv k k'); (done || lia).
  - intros v. rewrite length_app. cbn [length]. intros Hv1. rewrite Hother by lia. apply (in_free _ _ _ _ Hinv). lia.
Qed.

(** ** The command line *)

(** What [copy_file] copies. *)
Fixpoint file_bytes (reads : list (list Z)) : list Z :=
  match reads with
  | [] => []
  | buf :: reads' => if Z.of_nat (length buf) <=? 0 then [] else buf ++ file_bytes reads'
  end.

Definition contents (path : list Z) : list Z := file_bytes (default [] (opens path)).
Definition name_of (path : list Z) : list Z := strncpy_name (strip_underscore (strip_user path)).

(** The root directory, and all the files of the image. *)
Definition root_bytes (paths : list (list Z)) : list Z :=
  mk_dirent 1 (strncpy_name (s2b ".")) ++ mk_dirent 1 (strncpy_name (s2b "..")) ++ mjoin (imap (fun k path => mk_dirent (Z.of_nat k + 2) (name_of path)) paths).
Definition entries (paths : list (list Z)) : list entry := mkEntry T_DIR (root_bytes paths) :: ((fun path => mkEntry T_FILE (contents path)) <$> paths).

(** A file [mkfs] accepts. *)
Definition acceptable (path : list Z) : Prop :=
  is_Some (opens path) /\ (47 ∉ strip_user path) /\ (length (strip_underscore (strip_user path)) <= DIRSIZ)%nat /\ Z.of_nat (length (contents path)) <= MAXFILE * BSZ.

Lemma spent_grow es k e e' e'' : es !! k = Some e -> e_size e' <= e_size e'' -> spent (<[k := e']> es) <= spent (<[k := e'']> es).
Proof.
  intros Hk Hs. rewrite !(spent_insert es k e) by done. pose proof (cost_mono (e_size e') (e_size e'') ltac:(unfold e_size in *; lia)). lia.
Qed.

Lemma copy_file_spec fi reads : forall es k e s,
  let e' := mkEntry (e_type e) (e_bytes e ++ file_bytes reads) in
  holds_files fi es s -> es !! k = Some e -> e_size e' <= MAXFILE * BSZ -> 46 + spent (<[k := e']> es) <= 2000 ->
  wp (copy_file (ino k) reads) (fun _ => holds_files fi (<[k := e']> es)) s.
Proof.
  induction reads as [|buf reads IH]; intros es k e s e' Hh Hk Hmax Hsp; cbn [copy_file].
  - apply wp_ret. unfold e'. cbn [file_bytes]. rewrite app_nil_r. rewrite list_insert_id; [done|]. by destruct e.
  - cbn [file_bytes] in e'. destruct (Z.leb_spec (Z.of_nat (length buf)) 0) as [Hz|Hz].
    + apply wp_ret. unfold e'. rewrite app_nil_r. rewrite list_insert_id; [done|]. by destruct e.
    + set (e1 := mkEntry (e_type e) (e_bytes e ++ buf)). assert (Hs : e_size e1 <= e_size e') by (unfold e_size, e1, e'; cbn [e_bytes]; rewrite !length_app; lia).
      eapply wp_seq; [apply (iappend_spec fi es k e buf s Hh Hk); fold e1; [lia|pose proof (spent_grow es k e e1 e' Hk Hs); lia]|].
      intros [] s1 Hh1. fold e1 in Hh1. replace (<[k := e']> es) with (<[k := e']> (<[k := e1]> es)) in Hsp |- * by apply list_insert_insert_eq.
      replace e' with (mkEntry (e_type e1) (e_bytes e1 ++ file_bytes reads)) in Hsp, Hmax |- * by (unfold e', e1; cbn [e_type e_bytes]; by rewrite <- app_assoc).
      apply (IH (<[k := e1]> es) k e1); try done. apply list_lookup_insert_eq. by eapply lookup_lt_Some.
Qed.

Lemma add_file_spec es root path s :
  let dir := mkEntry (e_type root) (e_bytes root ++ mk_dirent (ino (length es)) (name_of path)) in let es' := <[0%nat := dir]> es ++ [mkEntry T_FILE (contents path)] in
  holds_files (ino (length es)) es s -> es !! 0%nat = Some root -> acceptable path -> (S (length es) < 200)%nat -> e_size dir <= MAXFILE * BSZ -> 46 + spent es' <= 2000 ->
  wp (add_file 1 path) (fun _ => holds_files (ino (S (length es))) es') s.
Proof.
  intros dir es' Hh H0 ([reads Hop] & Hsl & Hnm & Hct) Hfew Hmax Hsp. unfold add_file. cbv zeta.
  apply wp_bind. eapply wp_ok; [unfold assert; by rewrite bool_decide_true|]. rewrite Hop. apply wp_bind. eapply wp_ok; [unfold assert; by rewrite (proj2 (Z.leb_le _ _)) by lia|].
  eapply wp_seq; [apply (ialloc_spec es T_FILE s Hh Hfew); unfold T_FILE; lia|]. intros u s1 (-> & Hh1). set (es1 := es ++ [mkEntry T_FILE []]) in *.
  assert (Hlt : (0 < length es)%nat) by (by eapply lookup_lt_Some). assert (H01 : es1 !! 0%nat = Some root) by (by apply lookup_app_l_Some).
  rewrite xshort_small by lia. unfold bytes_of_dirent. rewrite host_bytes_le. change (le_bytes 2 (ino (length es)) ++ strncpy_name (strip_underscore (strip_user path))) with (mk_dirent (ino (length es)) (name_of path)).
  assert (Hes1 : <[0%nat := dir]> es1 = <[0%nat := dir]> es ++ [mkEntry T_FILE []]) by (unfold es1; by rewrite insert_app_l).
  assert (Hc : contents path = file_bytes reads) by (unfold contents; by rewrite Hop). unfold es' in Hsp. rewrite spent_app in Hsp.
  pose proof (cost_mono 0 (e_size (mkEntry T_FILE (contents path))) ltac:(unfold e_size; lia)) as Hcost.
  eapply wp_seq; [apply (iappend_spec _ es1 0 root _ s1 Hh1 H01 Hmax); fold dir; rewrite Hes1, spent_app; change (cost (e_size (mkEntry T_FILE []))) with 0; lia|].
  intros [] s2 Hh2. fold dir in Hh2. rewrite Hes1 in Hh2. set (es2 := <[0%nat := dir]> es) in *. assert (Hl2 : length es2 = length es) by apply length_insert.
  replace es' with (<[length es := mkEntry T_FILE ([] ++ file_bytes reads)]> (es2 ++ [mkEntry T_FILE []])).
  2: { rewrite <- Hl2. rewrite insert_app_r_alt, Nat.sub_diag by lia. unfold es'. by rewrite Hc. }
  apply (copy_file_spec (ino (S (length es))) reads _ (length es) (mkEntry T_FILE [])); try done.
  - rewrite <- Hl2. by rewrite lookup_app_r, Nat.sub_diag by lia.
  - unfold e_size. cbn [e_bytes e_type app]. by rewrite <- Hc.
  - cbn [e_bytes e_type app]. rewrite <- Hl2 at 1. rewrite insert_app_r_alt, Nat.sub_diag by lia. cbn [insert list_insert]. rewrite spent_app, <- Hc. lia.
Qed.

(** ** [main] *)

Definition zero_image : image := replicate (Z.to_nat FSSIZE) zeroes.

Lemma length_zero_image : length zero_image = 2000%nat.
Proof. apply length_replicate. Qed.

Lemma zero_fill g : wp (for_each (zrange 0 (Z.to_nat FSSIZE)) (fun i => wsect i zeroes)) (fun _ s' => s' = mkUst zero_image g) (mkUst [] g).
Proof.
  apply (wp_for_range (fun k s' => s' = mkUst (replicate k zeroes) g)); [done|]. intros k s' Hk ->. change (Z.to_nat FSSIZE) with 2000%nat in Hk.
  eapply wp_ok; [unfold wsect; rewrite Hdisk, sector by lia; done|]. unfold put_block. cbn [world glob]. rewrite length_replicate, (proj2 (Nat.ltb_ge _ _)) by lia.
  replace (Z.to_nat (0 + Z.of_nat k) - k)%nat with 0%nat by lia. cbn [replicate app]. f_equal. by rewrite <- replicate_S_end.
Qed.

Lemma blockat_zeroes b : 0 <= b < 2000 -> blockat zero_image b = zeroes.
Proof. intros Hb. unfold blockat, zero_image. rewrite decide_True, lookup_replicate_2 by (unfold FSSIZE; lia). done. Qed.

Lemma length_sb_block : length sb_block = BSIZE.
Proof. unfold sb_block, bytes_of_sb. rewrite !host_bytes_le. reflexivity. Qed.

Lemma rd_zeroes n o : rd n o zeroes = 0.
Proof. unfold rd, sub, zeroes. rewrite drop_replicate, take_replicate. apply le_val_zeros. Qed.

Lemma inv_empty : inv (fun b => if b =? 45 then bitmap 46 else blockat (<[1%nat := sb_block]> zero_image) b) 46 (<[1%nat := sb_block]> zero_image) [].
Proof.
  assert (Hat : forall b, 0 <= b < 2000 -> blockat (<[1%nat := sb_block]> zero_image) b = if b =? 1 then sb_block else zeroes).
  { intros b Hb. change 1%nat with (Z.to_nat 1). rewrite blockat_insert by (rewrite length_zero_image; lia). unfold vupd. rewrite blockat_zeroes by done.
    destruct (Z.eqb_spec b 1) as [->|Hne]; [by rewrite decide_True|by rewrite decide_False]. }
  split; [|simpl; lia|done|by rewrite Hat|done|simpl; lia|].
  - split; [by rewrite length_insert, length_zero_image|done|lia| |].
    + intros b Hb. rewrite (proj2 (Z.eqb_neq b 45)), Hat, (proj2 (Z.eqb_neq b 1)) by lia. done.
    + intros b Hb. destruct (b =? 45); [apply length_bitmap|]. rewrite Hat by done. destruct (b =? 1); [apply length_sb_block|apply length_replicate].
  - intros u Hu. cbn [length] in Hu. destruct (iblock u ltac:(lia)) as [_ Hr]. unfold load. cbn [itype]. rewrite (proj2 (Z.eqb_neq _ 45)), Hat, (proj2 (Z.eqb_neq _ 1)) by lia.
    unfold di_type. rewrite rd_zeroes. reflexivity.
Qed.

Lemma length_dirent u path : length (mk_dirent u (strncpy_name path)) = 16%nat.
Proof.
  unfold mk_dirent, strncpy_name. rewrite !length_app, length_le_bytes, length_take, length_replicate. change DIRSIZ with 14%nat. lia.
Qed.

Lemma root_app paths path : root_bytes (paths ++ [path]) = root_bytes paths ++ mk_dirent (ino (S (length paths))) (name_of path).
Proof.
  unfold root_bytes. rewrite imap_app. cbn [imap]. rewrite join_app. cbn [mjoin list_join]. rewrite app_nil_r, <- !app_assoc. do 4 f_equal. lia.
Qed.

Lemma length_root paths : Z.of_nat (length (root_bytes paths)) = 16 * (Z.of_nat (length paths) + 2).
Proof.
  induction paths as [|path paths IH] using rev_ind; [reflexivity|]. rewrite root_app, !length_app, Nat2Z.inj_add, IH. unfold name_of. rewrite length_dirent. cbn [length]. lia.
Qed.

Lemma entries_app paths path : entries (paths ++ [path]) =
  <[0%nat := mkEntry T_DIR (root_bytes paths ++ mk_dirent (ino (length (entries paths))) (name_of path))]> (entries paths) ++ [mkEntry T_FILE (contents path)].
Proof. unfold entries. rewrite root_app, fmap_app. cbn [insert list_insert app fmap list_fmap length]. by rewrite length_fmap. Qed.

Lemma spent_files paths paths' : spent ((fun path => mkEntry T_FILE (contents path)) <$> paths) <= spent ((fun path => mkEntry T_FILE (contents path)) <$> (paths ++ paths')).
Proof.
  rewrite fmap_app, spent_concat. pose proof (spent_pos ((fun path => mkEntry T_FILE (contents path)) <$> paths')). lia.
Qed.

Lemma spent_entries paths paths' : spent (entries paths) <= spent (entries (paths ++ paths')).
Proof.
  unfold entries. cbn [spent]. pose proof (spent_files paths paths'). assert (Hs : forall ps, e_size (mkEntry T_DIR (root_bytes ps)) = 16 * (Z.of_nat (length ps) + 2)) by apply length_root.
  rewrite !Hs, length_app. pose proof (cost_mono (16 * (Z.of_nat (length paths) + 2)) (16 * (Z.of_nat (length paths + length paths') + 2)) ltac:(lia)). lia.
Qed.

Lemma add_files paths s : holds_files 2 (entries []) s -> Forall acceptable paths -> (length paths <= 198)%nat -> 46 + spent (entries paths) <= 2000 ->
  wp (for_each paths (add_file 1)) (fun _ => holds_files (ino (S (length paths))) (entries paths)) s.
Proof.
  intros Hh Hacc Hn Hsp. apply (wp_for_each (fun pre => holds_files (ino (S (length pre))) (entries pre)) paths); [done|].
  intros pre path post s' Hp Hh'. rewrite Hp in Hacc, Hn, Hsp. apply Forall_app in Hacc as [_ [Hpath _]%Forall_cons]. rewrite length_app in Hn. cbn [length] in Hn.
  rewrite entries_app, length_app. cbn [length]. replace (ino (S (length pre + 1))) with (ino (S (length (entries pre)))) by (unfold entries; cbn [length]; rewrite length_fmap; lia).
  apply (add_file_spec (entries pre) (mkEntry T_DIR (root_bytes pre)) path s'); try done.
  - unfold entries. cbn [length]. rewrite length_fmap. done.
  - unfold entries. cbn [length]. rewrite length_fmap. lia.
  - unfold e_size. cbn [e_bytes]. unfold name_of. rewrite length_app, length_dirent, Nat2Z.inj_add, length_root, MAXFILE_val, BSZ_val. lia.
  - cbn [e_type e_bytes]. rewrite <- entries_app. pose proof (spent_entries (pre ++ [path]) post) as Hle'. rewrite <- app_assoc in Hle'. cbn [app] in Hle'. lia.
Qed.

(** ** The finished image *)

(** The size of the root directory, in whole blocks. *)
Definition root_size (paths : list (list Z)) : Z := (Z.of_nat (length (root_bytes paths)) / BSZ + 1) * BSZ.

(** [V] is a file system that holds the files of the command line. *)
Record filesystem (V : Z -> list Z) (paths : list (list Z)) : Prop := {
  fs_super : decode_sb (V 1) = SB;
  fs_layout : layout (sb_logstart SB) (sb_nlog SB) SB;
  fs_file : forall k path, paths !! k = Some path -> let u := Z.of_nat k + 2 in let i := load V u in
    fine ROOTDEV SB V i (IBLOCK u SB) /\ itype i = T_FILE /\ inlink i = 1 /\ isize i = Z.of_nat (length (contents path)) /\ dense V i /\
    fbytes V i 0 (length (contents path)) = contents path;
  fs_root : let i := load V ROOTINO in
    fine ROOTDEV SB V i (IBLOCK ROOTINO SB) /\ itype i = T_DIR /\ inlink i = 1 /\ isize i = root_size paths /\
    fbytes V i 0 (Z.to_nat (root_size paths)) = root_bytes paths ++ replicate (Z.to_nat (root_size paths) - length (root_bytes paths)) 0 /\
    (forall m, 0 <= m < MAXFILE -> baddr V i m = 0 <-> Z.of_nat (length (root_bytes paths)) <= m * BSZ);
  fs_apart : forall u v b, 1 <= u <= Z.of_nat (length paths) + 1 -> 1 <= v <= Z.of_nat (length paths) + 1 -> u <> v -> owns V (load V u) b -> ~ owns V (load V v) b;
  fs_inodes : forall u, Z.of_nat (length paths) + 1 < u < 200 -> itype (load V u) = 0;
  fs_blocks : forall c, 0 <= c < 2000 -> used SB V c = (c <? 46 + spent (entries paths))
}.

Lemma data_bytes V i bs n : (forall k, 0 <= k < MAXFILE * BSZ -> fbyte V i k = default 0 (bs !! Z.to_nat k)) -> (length bs <= n)%nat -> Z.of_nat n <= MAXFILE * BSZ ->
  fbytes V i 0 n = bs ++ replicate (n - length bs) 0.
Proof.
  intros Hd Hl Hn. apply list_eq. intros k. unfold fbytes. rewrite list_lookup_fmap. destruct (decide (k < n)%nat) as [Hk|Hk].
  - rewrite zrange_lookup by done. cbn [fmap option_fmap option_map]. rewrite Hd by lia. replace (Z.to_nat (0 + Z.of_nat k)) with k by lia.
    destruct (decide (k < length bs)%nat) as [Hb|Hb].
    + rewrite lookup_app_l by done. by destruct (lookup_lt_is_Some_2 bs k Hb) as [x ->].
    + rewrite lookup_app_r, (lookup_ge_None_2 bs), lookup_replicate_2 by lia. done.
  - rewrite !lookup_ge_None_2; [done|rewrite length_app, length_replicate; lia|rewrite zrange_length; lia].
Qed.

Lemma file_fine V fb img u e : view V fb img -> 0 <= u < 208 -> file_ok V u e -> fine ROOTDEV SB V (load V u) (IBLOCK u SB).
Proof.
  intros Hv Hu Hf. split; [apply Hf|by eapply view_fs_ok|by eapply view_boot|by eapply file_inode_block|]. rewrite (fo_size _ _ _ Hf). apply Hf.
Qed.

Lemma file_dense V u e : file_ok V u e -> dense V (load V u).
Proof.
  intros Hf k Hk. rewrite (fo_size _ _ _ Hf) in Hk. pose proof (fo_max _ _ _ Hf) as Hmax. destruct (fo_tight _ _ _ Hf) as [Hb _]. rewrite Hb; rewrite BSZ_val, MAXFILE_val in *; Z.to_euclidean_division_equations; lia.
Qed.

Lemma decode_sb_block : decode_sb sb_block = SB.
Proof. unfold sb_block, bytes_of_sb. rewrite !host_bytes_le. vm_compute. reflexivity. Qed.

Section finished.
(** The new size of the root directory is all that changes after the last file. *)
Variables (V : Z -> list Z) (fb : Z) (img img' : image) (paths : list (list Z)) (din : dinode).
Local Abbreviation d2 := (set_size (root_size paths) din).
Local Abbreviation ib := (IBLOCK ROOTINO SB).
Local Abbreviation x := (splice (dinode_off ROOTINO) (bytes_of_dinode d2) (V ib)).
Local Abbreviation V' := (vupd V ib x).
Hypothesis Hinv : inv V fb img (entries paths).
Hypothesis Hdin : to_inode ROOTINO din = load V ROOTINO.
Hypothesis Hv' : view V' fb img'.
Hypothesis Hfew : (length paths <= 198)%nat.

Lemma root_ok : file_ok V ROOTINO (mkEntry T_DIR (root_bytes paths)).
Proof. exact (in_files _ _ _ _ Hinv 0%nat _ eq_refl). Qed.

Lemma root_max : 0 <= root_size paths <= 4096 /\ Z.of_nat (length (root_bytes paths)) <= root_size paths.
Proof. unfold root_size. rewrite length_root, BSZ_val. Z.to_euclidean_division_equations; lia. Qed.

Lemma fin_ib : 32 <= ib < 45.
Proof. apply iblock. unfold ROOTINO. lia. Qed.

Lemma fin_same b : b <> ib -> V' b = V b.
Proof. intros Hb. unfold vupd. by rewrite decide_False by congruence. Qed.

Lemma fin_addrs : length (d_addrs din) = 13%nat.
Proof. change (d_addrs din) with (iaddrs (to_inode ROOTINO din)). rewrite Hdin. apply (fo_ino _ _ _ root_ok). Qed.

Lemma fin_len : length x = BSIZE.
Proof. pose proof (vw_size _ _ _ Hv' ib ltac:(pose proof fin_ib; lia)) as Hl. unfold vupd in Hl. by rewrite decide_True in Hl. Qed.

Lemma fin_root : load V' ROOTINO = set_isize (root_size paths) (load V ROOTINO).
Proof.
  rewrite <- Hdin. change (set_isize (root_size paths) (to_inode ROOTINO din)) with (to_inode ROOTINO d2). pose proof root_max as Hm. pose proof fin_ib.
  apply (load_put V' ROOTINO d2 (V ib)); [|apply (in_view _ _ _ _ Hinv); lia|unfold vupd; by rewrite decide_True]. pose proof root_ok as Hf.
  assert (Hst : storable (load V ROOTINO)).
  { apply load_storable; [intros a Ha; pose proof (addr_range V _ a (fo_ino _ _ _ Hf) Ha); lia|]. rewrite (fo_size _ _ _ Hf). unfold e_size. cbn [e_bytes]. lia. }
  rewrite <- Hdin in Hst. destruct Hst. split; try done. simpl. lia.
Qed.

Lemma fin_load u : 0 <= u < 208 -> u <> ROOTINO -> load V' u = load V u.
Proof.
  intros Hu Hne. pose proof fin_ib. apply (load_other V V' ROOTINO u (bytes_of_dinode d2)); [unfold ROOTINO; lia|done|done|apply length_bytes_of_dinode, fin_addrs|apply (in_view _ _ _ _ Hinv); lia|unfold vupd; by rewrite decide_True|].
  intros Hd. by apply fin_same.
Qed.

Lemma fin_file k e : entries paths !! k = Some e -> k <> 0%nat -> file_ok V' (ino k) e /\ forall b, owns V' (load V' (ino k)) b <-> owns V (load V (ino k)) b.
Proof.
  intros Hk Hne. pose proof (in_files _ _ _ _ Hinv k e Hk) as Hf. apply lookup_lt_Some in Hk. pose proof (in_few _ _ _ _ Hinv). pose proof fin_ib.
  apply (file_frame V V' fb fb img img'); [apply Hinv|done|done|done|apply fin_load; unfold ROOTINO; lia|]. intros b Ho. apply fin_same. pose proof (fo_low _ _ _ Hf b Ho). lia.
Qed.

Lemma fin_written : written (eq ib) V (load V ROOTINO) V' (load V' ROOTINO) 0 [].
Proof.
  rewrite fin_root. pose proof root_ok as Hf. pose proof (in_view _ _ _ _ Hinv) as Hv. apply written_finish; [unfold ROOTDEV; lia|apply layout_SB| |eapply file_inode_block; [exact Hv|unfold ROOTINO; lia|exact Hf]|apply fin_len].
  apply written_nil; [apply Hf|by eapply view_fs_ok|by eapply view_boot].
Qed.

Lemma fin_root_baddr m : baddr V' (load V' ROOTINO) m = baddr V (load V ROOTINO) m.
Proof.
  pose proof root_ok as Hf. pose proof fin_ib. rewrite fin_root. unfold baddr. change (addr_at (set_isize (root_size paths) (load V ROOTINO)) m) with (addr_at (load V ROOTINO) m).
  change (ind (set_isize (root_size paths) (load V ROOTINO))) with (ind (load V ROOTINO)). destruct (m <? NDIRECT); [done|]. destruct (Z.eqb_spec (ind (load V ROOTINO)) 0) as [|Hzi]; [done|].
  rewrite fin_same; [done|]. pose proof (fo_low _ _ _ Hf (ind (load V ROOTINO)) ltac:(split; [done|by left])). lia.
Qed.

Lemma fin_root_owns b : owns V' (load V' ROOTINO) b -> owns V (load V ROOTINO) b.
Proof.
  intros [Hz Hb]. split; [done|]. destruct Hb as [->|(m & Hm & ->)]; [left; by rewrite fin_root|]. right. exists m. by rewrite fin_root_baddr.
Qed.

Lemma fin_filesystem : filesystem V' paths.
Proof.
  pose proof root_ok as Hf. pose proof fin_written as Hw. pose proof fin_ib as Hib. destruct root_max as [Hrm Hrl]. pose proof (in_few _ _ _ _ Hinv) as Hn.
  assert (Hlen : length (entries paths) = S (length paths)) by (unfold entries; cbn [length]; by rewrite length_fmap).
  assert (Hk : forall u, 1 <= u <= Z.of_nat (length paths) + 1 -> u <> ROOTINO -> exists k e, u = ino k /\ entries paths !! k = Some e /\ k <> 0%nat).
  { intros u Hu Hne. destruct (lookup_lt_is_Some_2 (entries paths) (Z.to_nat (u - 1)) ltac:(lia)) as [e He]. exists (Z.to_nat (u - 1)), e. unfold ROOTINO in Hne. split_and!; [lia|done|lia]. }
  split.
  - rewrite fin_same, (in_sb _ _ _ _ Hinv) by lia. apply decode_sb_block.
  - apply layout_SB.
  - intros k path Hp u i. assert (He : entries paths !! S k = Some (mkEntry T_FILE (contents path))) by (unfold entries; rewrite lookup_cons_ne_0 by done; cbn [pred]; by rewrite list_lookup_fmap, Hp).
    destruct (fin_file (S k) _ He ltac:(done)) as [Hfk _]. replace (ino (S k)) with u in Hfk by lia. apply lookup_lt_Some in Hp. pose proof (fo_max _ _ _ Hfk) as Hmax. unfold e_size in Hmax. cbn [e_bytes] in Hmax.
    split_and!; [eapply file_fine; [exact Hv'|lia|exact Hfk]|apply (fo_type _ _ _ Hfk)|apply (fo_nlink _ _ _ Hfk)|apply (fo_size _ _ _ Hfk)|by eapply file_dense|].
    unfold i. rewrite (data_bytes V' _ (contents path)); [by rewrite Nat.sub_diag, app_nil_r|apply (fo_data _ _ _ Hfk)|done|done].
  - intros i. unfold i. split_and!.
    + split; [apply Hw|apply Hw|apply Hw| |rewrite fin_root, MAXFILE_val, BSZ_val; simpl; lia]. destruct (file_inode_block V fb img ROOTINO _ (in_view _ _ _ _ Hinv) ltac:(unfold ROOTINO; lia) Hf) as (H1 & H2 & H3 & H4).
      pose proof (vw_fb _ _ _ Hv'). split_and!; [done|apply (view_blk_ok V' fb img'); (done || lia)| |].
      * intros Hc. pose proof (fo_low _ _ _ Hf ib ltac:(apply fin_root_owns; split; [lia|by left])). lia.
      * intros m Hm Hc. pose proof (fo_low _ _ _ Hf ib ltac:(apply fin_root_owns; split; [lia|right; by exists m])). lia.
    + rewrite fin_root. apply (fo_type _ _ _ Hf).
    + rewrite fin_root. apply (fo_nlink _ _ _ Hf).
    + by rewrite fin_root.
    + apply data_bytes; [|lia|rewrite MAXFILE_val, BSZ_val; lia]. intros j Hj. rewrite (wr_byte _ _ _ _ _ _ _ _ _ _ _ Hw j Hj). cbn [length].
      destruct (Z.leb_spec 0 j), (Z.ltb_spec j (0 + Z.of_nat 0)); cbn [andb]; try lia. apply (fo_data _ _ _ Hf j Hj).
    + intros m Hm. rewrite fin_root_baddr. apply (fo_tight _ _ _ Hf). done.
  - assert (Hin : forall u b, 1 <= u <= Z.of_nat (length paths) + 1 -> owns V' (load V' u) b -> owns V (load V u) b).
    { intros u b Hu Ho. destruct (decide (u = ROOTINO)) as [->|Hne]; [by apply fin_root_owns|]. destruct (Hk u Hu Hne) as (k & e & -> & He & Hz). by apply (fin_file k e He Hz). }
    intros u v b Hu Hv Hne Hou Hov. apply Hin in Hou, Hov; [|done..]. replace u with (ino (Z.to_nat (u - 1))) in Hou by lia. replace v with (ino (Z.to_nat (v - 1))) in Hov by lia.
    apply (in_apart _ _ _ _ Hinv (Z.to_nat (u - 1)) (Z.to_nat (v - 1)) b); (done || lia).
  - intros u Hu. rewrite fin_load by (unfold ROOTINO; lia). apply (in_free _ _ _ _ Hinv). lia.
  - intros c Hc. rewrite (view_used _ _ _ _ Hv') by done. by rewrite (in_spent _ _ _ _ Hinv).
Qed.
End finished.

Lemma balloc_run V fb img fi : view V fb img -> exists img', balloc fb (mkUst img (G fi fb)) = Ok tt (mkUst img' (G fi fb)) /\ length img' = 2000%nat /\ forall b, V b = blockat img' b.
Proof.
  intros Hv. pose proof (vw_fb _ _ _ Hv) as Hr. pose proof (vw_len _ _ _ Hv) as Hl. exists (<[Z.to_nat 45 := bitmap fb]> img). split_and!; [|by rewrite length_insert|].
  - unfold balloc, bind, assert, get_glob, gets. rewrite (proj2 (Z.ltb_lt fb BPB)) by (rewrite BPB_val; lia). cbn [after world glob G gsb]. by apply wsect_run.
  - intros b. rewrite blockat_insert by (rewrite Hl; lia). unfold vupd. rewrite (vw_at _ _ _ Hv). destruct (Z.eqb_spec b 45) as [->|Hne]; [by rewrite decide_True|by rewrite decide_False by congruence].
Qed.

Lemma start_spec : wp (wsect 1 (splice 0 (bytes_of_sb SB) zeroes) ;; ialloc T_DIR) (fun u s' => u = ROOTINO /\ holds_files 2 [mkEntry T_DIR []] s') (mkUst zero_image (G 1 46)).
Proof.
  apply wp_bind. eapply wp_ok; [apply wsect_run; [apply length_zero_image|lia]|]. eapply wp_mono; [apply (ialloc_spec [] T_DIR); [|simpl; lia|unfold T_DIR; lia]|done].
  eexists _, _, _. split; [reflexivity|]. apply inv_empty.
Qed.

Lemma dots_spec s : holds_files 2 [mkEntry T_DIR []] s ->
  wp (iappend ROOTINO (bytes_of_dirent (xshort ROOTINO) (strncpy_name (s2b "."))) ;; iappend ROOTINO (bytes_of_dirent (xshort ROOTINO) (strncpy_name (s2b "..")))) (fun _ => holds_files 2 (entries [])) s.
Proof.
  intros Hh. unfold bytes_of_dirent. rewrite xshort_small, host_bytes_le by (unfold ROOTINO; lia). change (le_bytes 2 ROOTINO ++ ?x) with (mk_dirent 1 x).
  eapply wp_seq; [apply (iappend_spec 2 [mkEntry T_DIR []] 0 (mkEntry T_DIR [])); [exact Hh|done|by apply Z.leb_le|by apply Z.leb_le]|]. intros [] s1 Hh1.
  eapply wp_mono; [apply (iappend_spec 2 [mkEntry T_DIR (mk_dirent 1 (strncpy_name (s2b ".")))] 0 (mkEntry T_DIR (mk_dirent 1 (strncpy_name (s2b ".")))) (mk_dirent 1 (strncpy_name (s2b ".."))) s1 Hh1); [done|by apply Z.leb_le|by apply Z.leb_le]|].
  intros [] s2 Hh2. exact Hh2.
Qed.
End runs.

(** What a run of [mkfs] leaves. *)
Lemma main_spec `{Host} (prog img : list Z) (paths : list (list Z)) (s : ust image globals) :
  big_endian = false -> (forall b, refuses b = false) -> creates img = true -> glob s = init_globals ->
  Forall acceptable paths -> (length paths <= 198)%nat -> 46 + spent (entries paths) <= 2000 ->
  ends (main (prog :: img :: paths)) (fun code s' => code = 0 /\ length (world s') = 2000%nat /\
    exists V, (forall b, V b = blockat (world s') b) /\ filesystem V paths) s.
Proof.
  intros Hle Hdisk Hcr Hgl Hacc Hn Hsp. unfold main. do 2 (apply ends_bind; eapply wp_ok; [reflexivity|]). rewrite Hcr. cbn [negb]. apply ends_bind, wp_modify. cbv zeta.
  apply ends_bind, wp_modify. cbn [world glob]. rewrite Hgl. rewrite !(xint_small Hle) by (vm_compute; split; congruence). change (mkGlobals _ _ _ _ _) with (G 1 46).
  apply ends_bind. eapply wp_mono; [by apply zero_fill|]. intros [] s1 ->. apply ends_bind.
  pose proof (start_spec Hle Hdisk) as Hst. apply wp_bind_inv in Hst. eapply wp_mono; [exact Hst|]. intros [] s2 Hia. apply ends_bind. eapply wp_mono; [exact Hia|]. intros u s3 [-> Hh3].
  apply ends_bind. eapply wp_ok; [reflexivity|]. pose proof (dots_spec Hle Hdisk s3 Hh3) as Hdots. apply wp_bind_inv in Hdots. apply ends_bind. eapply wp_mono; [exact Hdots|].
  intros [] s4 Hd2. apply ends_bind. eapply wp_mono; [exact Hd2|]. intros [] s5 Hh5. apply ends_bind. eapply wp_mono; [by apply (add_files Hle Hdisk paths s5)|].
  intros [] s6 (V & fb & im & -> & Hinv). pose proof (in_view _ _ _ _ Hinv) as Hv. destruct (rinode_run Hle ROOTINO V fb im (Z.of_nat (S (length paths)) + 1) Hv ltac:(unfold ROOTINO; lia)) as (din & Hrd & Hdin).
  apply ends_bind. eapply wp_ok; [exact Hrd|]. assert (Hsz : d_size din = Z.of_nat (length (root_bytes paths))).
  { change (d_size din) with (isize (to_inode ROOTINO din)). rewrite Hdin. apply (fo_size _ _ _ (root_ok V fb im paths Hinv)). }
  destruct (root_max paths Hn) as [Hm1 Hm2]. rewrite Hsz, (xint_small Hle (Z.of_nat (length (root_bytes paths)))) by lia. fold (root_size paths). rewrite wrap_small, (xint_small Hle) by lia.
  pose proof (fin_addrs V fb im paths din Hinv Hdin) as Hal. destruct (winode_run Hle Hdisk ROOTINO (set_size (root_size paths) din) V fb im (Z.of_nat (S (length paths)) + 1) Hv ltac:(unfold ROOTINO; lia) Hal) as (im2 & Hwr & Hv2 & _).
  apply ends_bind. eapply wp_ok; [exact Hwr|]. apply ends_bind, wp_gets. cbn [glob G freeblock]. destruct (balloc_run Hdisk _ fb im2 (Z.of_nat (S (length paths)) + 1) Hv2) as (im3 & Hba & Hl3 & Hat).
  apply ends_bind. eapply wp_ok; [exact Hba|]. apply ends_exit. split_and!; [done|done|]. eexists. split; [exact Hat|]. by eapply fin_filesystem.
Qed.

(** C4: [mkfs], on a little-endian host that can open the files of the command line and store the image, makes a file system the kernel can use.  There are at most 198 files, with names and sizes that pass the assertions of the program, and their blocks fit the 2000 of the image.
    It exits with status 0.  The super block describes the layout.  Each file has an inode of its own, in the order of the command line, whose blocks hold the
    contents of the file; the root directory holds the names and the numbers of these inodes after its own two entries, and zeros up to its size.
    The inodes and the bit map are what [filewrite_durable] asks of a file ([fine]); no two
    files share a block; the other inodes are free, and the bit map marks exactly the blocks in use. *)
Theorem mkfs_makes_file_system `{Host} (prog img : list Z) (paths : list (list Z)) (s : ust image globals) :
  big_endian = false -> (forall b, refuses b = false) -> creates img = true -> glob s = init_globals ->
  Forall acceptable paths -> (length paths <= 198)%nat -> 46 + spent (entries paths) <= 2000 ->
  ends (main (prog :: img :: paths)) (fun code s' => code = 0 /\ length (world s') = 2000%nat /\
    exists V, (forall b, V b = blockat (world s') b) /\ filesystem V paths) s.
Proof. apply main_spec. Qed.

(** *** A host with two files *)

Module TwoFiles.
(** [user/_cat] comes in three pieces, [README] in one. *)
Definition opens (path : list Z) : option (list (list Z)) :=
  if bool_decide (path = s2b "user/_cat") then Some [replicate 1024 7; replicate 500 8; [9]] else
  if bool_decide (path = s2b "README") then Some [s2b "xv6"] else None.
Definition host : Host := {| big_endian := false; creates := fun _ => true; Mkfs.opens := opens; refuses := fun _ => false |}.
Definition paths : list (list Z) := [s2b "user/_cat"; s2b "README"].
Definition start : ust image globals := mkUst [] init_globals.
End TwoFiles.

Ltac accept := split; [by eexists|split; [refine (bool_decide_unpack _ _); vm_compute; exact I|split; [apply Nat.leb_le; vm_compute; reflexivity|apply Z.leb_le; vm_compute; reflexivity]]].

Lemma mkfs_makes_file_system_witness :
  ends (@main TwoFiles.host (s2b "mkfs" :: s2b "fs.img" :: TwoFiles.paths)) (fun code s' => code = 0 /\ length (world s') = 2000%nat /\
    exists V, (forall b, V b = blockat (world s') b) /\ @filesystem TwoFiles.host V TwoFiles.paths) TwoFiles.start.
Proof.
  apply (@mkfs_makes_file_system TwoFiles.host (s2b "mkfs") (s2b "fs.img") TwoFiles.paths TwoFiles.start); [reflexivity|reflexivity|reflexivity|reflexivity| |simpl; lia|apply Z.leb_le; vm_compute; reflexivity].
  apply Forall_cons. split; [accept|]. apply Forall_cons. split; [accept|done].
Defined.

(** C40: [mkfs] can leave a hole in the root directory.  When the entries of the root directory fill its last block, [mkfs] rounds its size up by a whole block more: in the image it makes, the size
    of the directory includes a block for which its inode has no address. *)
Theorem mkfs_root_hole `{Host} (prog img : list Z) (paths : list (list Z)) (s : ust image globals) :
  big_endian = false -> (forall b, refuses b = false) -> creates img = true -> glob s = init_globals ->
  Forall acceptable paths -> (length paths <= 198)%nat -> 46 + spent (entries paths) <= 2000 -> (Z.of_nat (length paths) + 2) mod 64 = 0 ->
  ends (main (prog :: img :: paths)) (fun _ s' => exists V, (forall b, V b = blockat (world s') b) /\ ~ dense V (load V ROOTINO)) s.
Proof.
  intros Hle Hdisk Hcr Hgl Hacc Hn Hsp Hmod. pose proof (main_spec prog img paths s Hle Hdisk Hcr Hgl Hacc Hn Hsp) as Hm. unfold ends in *.
  destruct (main _ s) as [|[code s'| | |]|]; try done. destruct Hm as (_ & _ & V & HV & Hfs). exists V. split; [done|]. intros Hd.
  destruct (fs_root _ _ Hfs) as (_ & _ & _ & Hsz & _ & Hb). pose proof (length_root paths) as Hl. specialize (Hd (Z.of_nat (length (root_bytes paths)))). unfold root_size in Hsz. rewrite Hl, BSZ_val in *.
  apply Hd; [|apply Hb]; rewrite ?MAXFILE_val; Z.to_euclidean_division_equations; lia.
Qed.

Lemma mkfs_root_hole_witness :
  ends (@main TwoFiles.host (s2b "mkfs" :: s2b "fs.img" :: replicate 62 (s2b "README"))) (fun _ s' => exists V, (forall b, V b = blockat (world s') b) /\ ~ dense V (load V ROOTINO)) TwoFiles.start.
Proof.
  apply (@mkfs_root_hole TwoFiles.host (s2b "mkfs") (s2b "fs.img") (replicate 62 (s2b "README")) TwoFiles.start);
    [reflexivity|reflexivity|reflexivity|reflexivity| |apply Nat.leb_le; reflexivity|apply Z.leb_le; vm_compute; reflexivity|reflexivity].
  apply Forall_replicate. accept.
Defined.

(** On a big-endian host the magic number is stored in the wrong order, and [IBLOCK] is given the swapped [inodestart]: the inodes go to block 0. *)
Lemma mkfs_big_endian :
  match @main {| big_endian := true; creates := fun _ => true; opens := fun _ => None; refuses := fun _ => false |} [s2b "mkfs"; s2b "fs.img"] TwoFiles.start with
  | Stop (UExit code s') => (code =? 0) && (sb_magic (decode_sb (blockat (world s') 1)) =? 0x40302010) && (itype (load (blockat (world s')) ROOTINO) =? 0)
  | _ => false
  end = true.
Proof. vm_compute. reflexivity. Qed.
End MkfsSpec.
