(* ===== verification/Ulib.v ===== *)
(** The user library: [user/ulib.c] and [user/string.c].

    A string is the list of its bytes before the NUL.  A destination is the array from the
    pointer to its end, and writing past the end is [None].  [memmove] works on the
    bytes of memory, where its two areas may overlap. *)
From Stdlib Require Import Ascii.
From S2P Require Import Prelude Machine Usys.
From Stdlib Require Import ZArith Lia.
From stdpp Require Import base strings numbers gmap list.
Local Open Scope Z_scope.
Local Open Scope m_scope.

(** A character of a C program. *)
Definition chr (a : ascii) : Z := byte_of_ascii a.

(** The string an array holds. *)
Fixpoint cstring (a : list Z) : list Z :=
  match a with
  | [] => []
  | c :: a' => if c =? 0 then [] else c :: cstring a'
  end.

Fixpoint strcpy (s t : list Z) {struct s} : option (list Z) :=
  match s, t with
  | [], _ => None
  | _ :: s', [] => Some (0 :: s')
  | _ :: s', c :: t' => (c ::.) <$> strcpy s' t'
  end.

Fixpoint strcmp (p q : list Z) : Z :=
  match p, q with
  | c :: p', d :: q' => if c =? d then strcmp p' q' else c - d
  | _, _ => hd 0 p - hd 0 q
  end.

Fixpoint strlen (s : list Z) : Z :=
  match s with
  | [] => 0
  | _ :: s' => strlen s' + 1
  end.

Fixpoint memset (dst : list Z) (c : Z) (n : nat) {struct n} : option (list Z) :=
  match n, dst with
  | O, _ => Some dst
  | S n', _ :: dst' => (u8 c ::.) <$> memset dst' c n'
  | S _, [] => None
  end.

(** The position of the first [c]. *)
Fixpoint strchr (s : list Z) (c : Z) : option nat :=
  match s with
  | [] => None
  | x :: s' => if x =? c then Some O else S <$> strchr s' c
  end.

Fixpoint atoi_loop (n : Z) (s : list Z) : Z :=
  match s with
  | [] => n
  | c :: s' => if (48 <=? c) && (c <=? 57) then atoi_loop (s32 (n * 10 + c - 48)) s' else n
  end.
Definition atoi (s : list Z) : Z := atoi_loop 0 s.

Fixpoint copy_forward (m : mem) (dst src : Z) (n : nat) : mem :=
  match n with
  | O => m
  | S n' => copy_forward (<[dst := ld8 m src]> m) (dst + 1) (src + 1) n'
  end.
Fixpoint copy_backward (m : mem) (dst src : Z) (n : nat) : mem :=
  match n with
  | O => m
  | S n' => copy_backward (<[dst - 1 := ld8 m (src - 1)]> m) (dst - 1) (src - 1) n'
  end.
Definition memmove (m : mem) (vdst vsrc n : Z) : mem :=
  if vdst <? vsrc then copy_forward m vdst vsrc (Z.to_nat n)
  else copy_backward m (vdst + n) (vsrc + n) (Z.to_nat n).

Fixpoint memcmp (s1 s2 : list Z) (n : nat) {struct n} : option Z :=
  match n, s1, s2 with
  | O, _, _ => Some 0
  | S n', a :: s1', b :: s2' => if negb (a =? b) then Some (a - b) else memcmp s1' s2' n'
  | _, _, _ => None
  end.

Definition memcpy (m : mem) (dst src n : Z) : mem := memmove m dst src n.

Fixpoint strncmp (p q : list Z) (n : nat) {struct n} : Z :=
  match n with
  | O => 0
  | S n' =>
      match p, q with
      | c :: p', d :: q' => if c =? d then strncmp p' q' n' else c - d
      | _, _ => hd 0 p - hd 0 q
      end
  end.

(** The [n] bytes stored. *)
Fixpoint strncpy (src : list Z) (n : nat) {struct n} : list Z :=
  match n with
  | O => []
  | S n' =>
      match src with
      | c :: src' => c :: strncpy src' n'
      | [] => 0 :: strncpy [] n'
      end
  end.

Section ulib.
Context {W : Type} `{Kernel W} {G : Type}.

(** [start]: a [main] that returns exits with [0]. *)
Definition start {A} (main : U W G A) : U W G unit :=
  main ;;
  exit 0.

(** The line read, without the NUL; at most [max - 1] bytes are read. *)
Definition gets (max : Z) : U W G (list Z) :=
  while_fuel UFuel (S (Z.to_nat max)) (fun buf =>
    if negb (Z.of_nat (length buf) + 1 <? max) then ret (inr buf) else
    let! (cc, bs) := read 0 1 in
    if cc <? 1 then ret (inr buf) else
    let c := hd 0 bs in
    let buf := buf ++ [c] in
    if (c =? 10) || (c =? 13) then ret (inr buf) else ret (inl buf)) [].

Definition stat (n : list Z) : U W G (Z * ustat) :=
  fd <- open n O_RDONLY ;;
  if fd <? 0 then ret (-1, no_stat) else
  let! (r, st) := fstat fd in
  close fd ;;
  ret (r, st).
End ulib.

(** ** Strings *)

Lemma strlen_length s : strlen s = Z.of_nat (length s).
Proof. induction s; simpl; lia. Qed.

Lemma strcpy_spec s t :
  strcpy s t = if decide (length t < length s)%nat then Some (t ++ 0 :: drop (S (length t)) s) else None.
Proof.
  revert t. induction s as [|x s IH]; intros t; [by rewrite decide_False by (simpl; lia)|]. destruct t as [|c t]; cbn [strcpy].
  - rewrite decide_True by (simpl; lia). simpl. by rewrite drop_0.
  - rewrite IH. simpl length. repeat case_decide; (done || lia).
Qed.

Lemma cstring_app t a : Forall (fun c => c <> 0) t -> cstring (t ++ 0 :: a) = t.
Proof. induction 1 as [|c t Hc _ IH]; simpl; [done|]. rewrite (proj2 (Z.eqb_neq _ _)) by done. by rewrite IH. Qed.

Lemma strcmp_zero p q :
  Forall (fun c => c <> 0) p -> Forall (fun c => c <> 0) q -> strcmp p q = 0 <-> p = q.
Proof.
  intros Hp. revert q. induction Hp as [|c p Hc _ IH]; intros q Hq; destruct Hq as [|d q Hd Hq]; simpl; [done| | |].
  - split; [lia|done].
  - split; [lia|done].
  - destruct (Z.eqb_spec c d) as [->|Hne].
    + rewrite IH by done. split; [by intros ->|by intros [= ->]].
    + split; [lia|congruence].
Qed.

Lemma strchr_spec s c :
  match strchr s c with
  | Some i => exists pre post, s = pre ++ c :: post /\ i = length pre /\ c ∉ pre
  | None => c ∉ s
  end.
Proof.
  induction s as [|x s IH]; simpl; [apply not_elem_of_nil|]. destruct (Z.eqb_spec x c) as [->|Hne].
  - exists [], s. split_and!; [done|done|apply not_elem_of_nil].
  - destruct (strchr s c) as [i|]; simpl.
    + destruct IH as (pre & post & -> & -> & Hni). exists (x :: pre), post. split_and!; [done|done|]. by apply not_elem_of_cons.
    + by apply not_elem_of_cons.
Qed.

(** ** memmove *)

Lemma copy_forward_spec m dst src n :
  dst <= src -> copy_forward m dst src n = st_bytes m dst (ld_bytes m src n).
Proof.
  revert m dst src. induction n as [|n IH]; intros m dst src Hle; simpl; [done|]. rewrite IH by lia. f_equal.
  apply ld_bytes_ext. intros x Hx. rewrite ld8_insert. by rewrite decide_False by lia.
Qed.

Lemma copy_backward_byte m dst src n x :
  src <= dst -> ld8 (copy_backward m dst src n) x =
    if decide (dst - Z.of_nat n <= x < dst) then ld8 m (x - dst + src) else ld8 m x.
Proof.
  revert m dst src. induction n as [|n IH]; intros m dst src Hle; cbn [copy_backward]; [by rewrite decide_False by lia|].
  rewrite IH by lia. rewrite !ld8_insert. destruct (decide (x = dst - 1)) as [->|Hne].
  - rewrite decide_False by lia. rewrite !decide_True by lia. f_equal. lia.
  - destruct (decide (dst - 1 - Z.of_nat n <= x < dst - 1)).
    + rewrite decide_False by lia. rewrite decide_True by lia. f_equal. lia.
    + rewrite !decide_False by lia. done.
Qed.

(** Overlapping or not, the bytes moved are those that were at the source. *)
Lemma ulib_memmove_byte m dst src n x :
  0 <= n -> ld8 (memmove m dst src n) x = if decide (dst <= x < dst + n) then ld8 m (x - dst + src) else ld8 m x.
Proof.
  intros Hn. unfold memmove. destruct (Z.ltb_spec dst src) as [Hlt|Hge].
  - rewrite copy_forward_spec by lia. destruct (decide (dst <= x < dst + n)) as [Hin|Hout].
    + unfold ld8 at 1. replace x with (dst + Z.of_nat (Z.to_nat (x - dst))) at 1 by lia.
      erewrite st_bytes_inside; [|apply ld_bytes_lookup; lia]. simpl. f_equal. lia.
    + apply ld8_st_outside. rewrite length_ld_bytes. lia.
  - rewrite copy_backward_byte by lia. replace (dst + n - Z.of_nat (Z.to_nat n)) with dst by lia.
    case_decide; [f_equal; lia|done].
Qed.
