(* ===== verification/Uprintf.v ===== *)
(** Formatted output of user programs, [user/printf.c]. *)
From Stdlib Require Import Ascii.
From S2P Require Import Prelude Machine Usys Ulib.
From Stdlib Require Import ZArith Lia.
From stdpp Require Import base strings numbers gmap list.
Local Open Scope Z_scope.
Local Open Scope m_scope.

Definition digits : list Z := s2b "0123456789ABCDEF".

(** The digits of a 32-bit number, least significant first: the loop ends after at most 32. *)
Fixpoint digits_of (fuel : nat) (x base : Z) : list Z :=
  match fuel with
  | O => []
  | S f =>
      let d := digits !!! Z.to_nat (x mod base) in
      if x / base =? 0 then [d] else d :: digits_of f (x / base) base
  end.

(** What [printint] stores in [buf], in the order in which it prints it. *)
Definition printint_chars (xx base : Z) (sgn : bool) : list Z :=
  let neg := sgn && (xx <? 0) in
  let x := if neg then u32 (- xx) else u32 xx in
  (if neg then [45] else []) ++ rev (digits_of 32 x base).

(** Hexadecimal digits of a 64-bit number from the top. *)
Fixpoint ptr_digits (n : nat) (x : Z) : list Z :=
  match n with
  | O => []
  | S n' => digits !!! Z.to_nat (Z.shiftr x 60) :: ptr_digits n' (u64 (Z.shiftl x 4))
  end.

(** A variable argument: an integer register or a string, which may be null. *)
Inductive uarg : Type :=
| UInt (v : Z)
| UStr (s : option (list Z)).

Section uprintf.
Context {W : Type} `{Kernel W} {G : Type}.

Definition putc (fd c : Z) : U W G unit := write fd [u8 c] ;; ret tt.

Definition printint (fd xx base : Z) (sgn : bool) : U W G unit :=
  let buf := printint_chars xx base sgn in
  if (16 <? length buf)%nat then stop (UFault "printint: buf") else
  for_each buf (putc fd).

Definition printptr (fd x : Z) : U W G unit :=
  putc fd 48 ;;
  putc fd 120 ;;
  for_each (ptr_digits 16 x) (putc fd).

Definition uva_int {A} (ap : list uarg) (k : Z -> list uarg -> U W G A) : U W G A :=
  match ap with UInt v :: ap' => k (s32 v) ap' | _ => stop (UFault "va_arg") end.
(** A [uint64] argument, passed on as the [int] that [printint] takes. *)
Definition uva_long {A} (ap : list uarg) (k : Z -> list uarg -> U W G A) : U W G A :=
  match ap with UInt v :: ap' => k (s32 v) ap' | _ => stop (UFault "va_arg") end.
Definition uva_uint64 {A} (ap : list uarg) (k : Z -> list uarg -> U W G A) : U W G A :=
  match ap with UInt v :: ap' => k (u64 v) ap' | _ => stop (UFault "va_arg") end.
Definition uva_str {A} (ap : list uarg) (k : option (list Z) -> list uarg -> U W G A) : U W G A :=
  match ap with UStr s :: ap' => k s ap' | _ => stop (UFault "va_arg") end.

Local Open Scope char_scope.
(** One round of the loop of [vprintf] at index [i]: [state] says whether a percent sign came
    before, [ap] are the arguments left. *)
Definition vprintf_round (fd : Z) (fmt : list Z) (x : Z * bool * list uarg) : U W G ((Z * bool * list uarg) + unit) :=
  let '(i, state, ap) := x in
  let at_ (j : Z) := default 0 (fmt !! Z.to_nat j) in
  let c0 := at_ i in
  if (c0 =? 0)%Z then ret (inr tt) else
  if negb state then
    if (c0 =? chr "%")%Z then ret (inl (i + 1, true, ap)%Z) else putc fd c0 ;; ret (inl (i + 1, false, ap)%Z)
  else
    let c1 := at_ (i + 1)%Z in
    let c2 := if (c1 =? 0)%Z then 0%Z else at_ (i + 2)%Z in
    let eqc (c : Z) (a : ascii) := (c =? chr a)%Z in
    let next (n : Z) (ap : list uarg) : U W G ((Z * bool * list uarg) + unit) := ret (inl (i + n + 1, false, ap)%Z) in
    if eqc c0 "d" then uva_int ap (fun v ap => printint fd v 10 true ;; next 0 ap)
    else if eqc c0 "l" && eqc c1 "d" then uva_long ap (fun v ap => printint fd v 10 true ;; next 1 ap)
    else if eqc c0 "l" && eqc c1 "l" && eqc c2 "d" then uva_long ap (fun v ap => printint fd v 10 true ;; next 2 ap)
    else if eqc c0 "u" then uva_int ap (fun v ap => printint fd v 10 false ;; next 0 ap)
    else if eqc c0 "l" && eqc c1 "u" then uva_long ap (fun v ap => printint fd v 10 false ;; next 1 ap)
    else if eqc c0 "l" && eqc c1 "l" && eqc c2 "u" then uva_long ap (fun v ap => printint fd v 10 false ;; next 2 ap)
    else if eqc c0 "x" then uva_int ap (fun v ap => printint fd v 16 false ;; next 0 ap)
    else if eqc c0 "l" && eqc c1 "x" then uva_long ap (fun v ap => printint fd v 16 false ;; next 1 ap)
    else if eqc c0 "l" && eqc c1 "l" && eqc c2 "x" then uva_long ap (fun v ap => printint fd v 16 false ;; next 2 ap)
    else if eqc c0 "p" then uva_uint64 ap (fun v ap => printptr fd v ;; next 0 ap)
    else if eqc c0 "s" then
      uva_str ap (fun s ap => for_each (default (s2b "(null)"%string) s) (putc fd) ;; next 0 ap)
    else if eqc c0 "c" then uva_int ap (fun v ap => putc fd (u8 v) ;; next 0 ap)
    else if eqc c0 "%" then putc fd (chr "%") ;; next 0 ap
    else putc fd (chr "%") ;; putc fd c0 ;; next 0 ap.
Local Close Scope char_scope.

(** Every round moves on by at least one character of the format. *)
Definition vprintf (fd : Z) (fmt : list Z) (ap : list uarg) : U W G unit :=
  while_fuel UFuel (S (length fmt)) (vprintf_round fd fmt) (0, false, ap).

Definition fprintf (fd : Z) (fmt : string) (ap : list uarg) : U W G unit := vprintf fd (s2b fmt) ap.
Definition printf (fmt : string) (ap : list uarg) : U W G unit := vprintf 1 (s2b fmt) ap.
End uprintf.

(** A format and a newline. *)
Definition nl (s : string) : string := String.append s (String (Ascii.ascii_of_nat 10) EmptyString).

(** ** What is printed *)

Local Open Scope char_scope.
(** The text that [vprintf] prints for a format, given the arguments; [None] when they do not
    match it.  [state] says whether a percent sign came before. *)
Fixpoint format (state : bool) (fmt : list Z) (ap : list uarg) : option (list Z) :=
  match fmt with
  | [] => Some []
  | c0 :: fmt0 =>
      let is_ (c : Z) (a : ascii) := (c =? chr a)%Z in
      let c1 := hd 0%Z fmt0 in
      let c2 := hd 0%Z (tail fmt0) in
      (** a number, after which [k] more characters are passed over *)
      let number (base : Z) (sgn : bool) (k : list uarg -> option (list Z)) :=
        match ap with UInt v :: ap' => (printint_chars (s32 v) base sgn ++.) <$> k ap' | _ => None end in
      let after0 := format false fmt0 in
      let after1 := match fmt0 with _ :: fmt1 => format false fmt1 | _ => fun _ => None end in
      let after2 := match fmt0 with _ :: _ :: fmt2 => format false fmt2 | _ => fun _ => None end in
      if negb state then
        if is_ c0 "%" then format true fmt0 ap else (u8 c0 ::.) <$> after0 ap
      else if is_ c0 "d" then number 10%Z true after0
      else if is_ c0 "l" && is_ c1 "d" then number 10%Z true after1
      else if is_ c0 "l" && is_ c1 "l" && is_ c2 "d" then number 10%Z true after2
      else if is_ c0 "u" then number 10%Z false after0
      else if is_ c0 "l" && is_ c1 "u" then number 10%Z false after1
      else if is_ c0 "l" && is_ c1 "l" && is_ c2 "u" then number 10%Z false after2
      else if is_ c0 "x" then number 16%Z false after0
      else if is_ c0 "l" && is_ c1 "x" then number 16%Z false after1
      else if is_ c0 "l" && is_ c1 "l" && is_ c2 "x" then number 16%Z false after2
      else if is_ c0 "p" then
        match ap with
        | UInt v :: ap' => (([48%Z; 120%Z] ++ ptr_digits 16 (u64 v)) ++.) <$> after0 ap'
        | _ => None
        end
      else if is_ c0 "s" then
        match ap with
        | UStr s :: ap' => ((u8 <$> default (s2b "(null)"%string) s) ++.) <$> after0 ap'
        | _ => None
        end
      else if is_ c0 "c" then match ap with UInt v :: ap' => (u8 (s32 v) ::.) <$> after0 ap' | _ => None end
      else if is_ c0 "%" then (chr "%" ::.) <$> after0 ap
      else (chr "%" ::.) <$> ((u8 c0 ::.) <$> after0 ap)
  end.
Local Close Scope char_scope.

Lemma digits_byte i : 0 <= i < 16 -> u8 (digits !!! Z.to_nat i) = digits !!! Z.to_nat i.
Proof.
  intros Hi. assert (Hall : Forall (fun i => u8 (digits !!! Z.to_nat i) = digits !!! Z.to_nat i) (zrange 0 16)) by (by apply (bool_decide_unpack _); vm_compute).
  rewrite Forall_forall in Hall. apply Hall, elem_of_zrange. lia.
Qed.

Lemma digits_of_byte f x base : 2 <= base <= 16 -> Forall (fun c => u8 c = c) (digits_of f x base).
Proof.
  intros Hb. revert x. induction f as [|f IH]; intros x; simpl; [done|].
  assert (Hd : u8 (digits !!! Z.to_nat (x mod base)) = digits !!! Z.to_nat (x mod base)) by (apply digits_byte; pose proof (Z.mod_pos_bound x base); lia).
  destruct (x / base =? 0); by auto.
Qed.

Lemma length_digits_of f x base n :
  2 <= base -> (0 < n)%nat -> 0 <= x < base ^ Z.of_nat n -> (length (digits_of f x base) <= n)%nat.
Proof.
  intros Hb. revert x n. induction f as [|f IH]; intros x n Hn Hx; simpl; [lia|].
  destruct (Z.eqb_spec (x / base) 0) as [|Hne]; simpl; [lia|]. destruct n as [|n]; [lia|].
  rewrite Nat2Z.inj_succ, Z.pow_succ_r in Hx by lia.
  assert (x / base < base ^ Z.of_nat n) by (apply Z.div_lt_upper_bound; lia). assert (0 <= x / base) by (apply Z.div_pos; lia).
  assert (n <> 0%nat) by (intros ->; simpl in *; lia). specialize (IH (x / base) n ltac:(lia) ltac:(lia)). lia.
Qed.

Lemma printint_chars_fit xx base sgn : 10 <= base <= 16 -> (length (printint_chars xx base sgn) <= 16)%nat.
Proof.
  intros Hb. unfold printint_chars. rewrite length_app, length_rev.
  assert (Hl : forall x, (length (digits_of 32 (u32 x) base) <= 10)%nat).
  { intros x. apply length_digits_of; [lia..|]. pose proof (wrap_range 32 x ltac:(lia)).
    assert (10 ^ Z.of_nat 10 <= base ^ Z.of_nat 10) by (apply Z.pow_le_mono_l; lia). lia. }
  destruct (sgn && (xx <? 0)); [specialize (Hl (- xx))|specialize (Hl xx)]; cbn [length]; lia.
Qed.

Lemma printint_chars_byte xx base sgn : 2 <= base <= 16 -> u8 <$> printint_chars xx base sgn = printint_chars xx base sgn.
Proof.
  intros Hb. rewrite <- (list_fmap_id (printint_chars xx base sgn)) at 2. apply list_fmap_ext. intros i c Hc.
  assert (Forall (fun c => u8 c = c) (printint_chars xx base sgn)) as Hall.
  { unfold printint_chars. apply Forall_app. split; [by destruct (_ && _); repeat constructor|]. apply Forall_rev. by apply digits_of_byte. }
  rewrite Forall_lookup in Hall. by apply (Hall i).
Qed.

Lemma ptr_digits_byte n x : 0 <= x < 2 ^ 64 -> u8 <$> ptr_digits n x = ptr_digits n x.
Proof.
  revert x. induction n as [|n IH]; intros x Hx; [done|]. cbn [ptr_digits]. rewrite fmap_cons, IH by (apply wrap_range; lia). f_equal.
  apply digits_byte. rewrite Z.shiftr_div_pow2 by lia. split; [apply Z.div_pos; lia|apply Z.div_lt_upper_bound; lia].
Qed.

Section prints.
Context {W : Type} `{Kernel W} {G R : Type}.
(** What has been printed on a descriptor, and what else there is to see of the world. *)
Variables (dst : Z) (shown : W -> list Z) (rest : W -> R).
Hypothesis write_shows : forall w bs, exists w', sc_write dst bs w = (Z.of_nat (length bs), w') /\ rest w' = rest w /\ shown w' = shown w ++ bs.

(** [m] returns, having printed [bs] and done nothing else. *)
Definition prints {A} (m : U W G A) (bs : list Z) : Prop := forall w g,
  wp m (fun _ s' => glob s' = g /\ rest (world s') = rest w /\
    shown (world s') = shown w ++ bs) (mkUst w g).

Lemma prints_ret {A} (a : A) : prints (ret a) [].
Proof. intros w g. apply wp_ret. simpl. by rewrite app_nil_r. Qed.

Lemma prints_seq {A B} (m : U W G A) (k : A -> U W G B) bs bs' : prints m bs -> (forall a, prints (k a) bs') -> prints (a <- m ;; k a) (bs ++ bs').
Proof.
  intros Hm Hk w g. apply wp_bind. eapply wp_mono; [apply Hm|]. intros a [w1 g1] (Hg & Hu & Hp). simpl in *. subst g1.
  eapply wp_mono; [apply Hk|]. intros b s2 (Hg2 & Hu2 & Hp2). by rewrite Hg2, Hu2, Hp2, Hu, Hp, app_assoc.
Qed.

Lemma write_text bs : prints (write dst bs) bs.
Proof.
  intros w g. destruct (write_shows w bs) as (w' & Hw & Hu & Hp). eapply wp_ok; [by apply sys_run|]. done.
Qed.

Lemma putc_text c : prints (putc dst c) [u8 c].
Proof. unfold putc. rewrite <- (app_nil_r [u8 c]). apply prints_seq; [apply write_text|intros; apply prints_ret]. Qed.

Lemma each_text l : prints (for_each l (putc dst)) (u8 <$> l).
Proof.
  induction l as [|c l IH]; [apply prints_ret|]. apply (prints_seq (putc dst c) _ [u8 c]); [apply putc_text|]. intros []. exact IH.
Qed.

Lemma printint_text xx base sgn : 10 <= base <= 16 -> prints (printint dst xx base sgn) (printint_chars xx base sgn).
Proof.
  intros Hb. unfold printint. rewrite (proj2 (Nat.ltb_ge _ _) (printint_chars_fit xx base sgn Hb)).
  rewrite <- (printint_chars_byte xx base sgn) at 2 by lia. apply each_text.
Qed.

Lemma printptr_text x : 0 <= x < 2 ^ 64 -> prints (printptr dst x) ([48; 120] ++ ptr_digits 16 x).
Proof.
  intros Hx. unfold printptr. change ([48; 120] ++ ptr_digits 16 x) with ([48] ++ [120] ++ ptr_digits 16 x).
  apply prints_seq; [apply putc_text|intros _]. apply prints_seq; [apply putc_text|intros _].
  pose proof (each_text (ptr_digits 16 x)) as He. by rewrite ptr_digits_byte in He.
Qed.

(** The end of a round of [vprintf], which has printed [bs] and left [out'] to be printed. *)
Definition round_ok (fmt : list Z) (i : Z) (out : list Z) (m : U W G ((Z * bool * list uarg) + unit)) : Prop := forall w g,
  wp m (fun r s' => exists i' state' ap' bs out', r = inl (i', state', ap') /\ i < i' /\
    format state' (drop (Z.to_nat i') fmt) ap' = Some out' /\ out = bs ++ out' /\
    glob s' = g /\ rest (world s') = rest w /\ shown (world s') = shown w ++ bs) (mkUst w g).

Lemma round_done {A} (m : U W G A) fmt i i' state' ap' bs out' out :
  prints m bs -> i < i' -> format state' (drop (Z.to_nat i') fmt) ap' = Some out' -> out = bs ++ out' ->
  round_ok fmt i out (m ;; ret (inl (i', state', ap'))).
Proof.
  intros Hm Hi Hf Ho w g. apply wp_bind. eapply wp_mono; [apply Hm|]. intros a s' (Hg & Hu & Hp). apply wp_ret.
  by exists i', state', ap', bs, out'.
Qed.

Lemma round_seq {A} (m : U W G A) k fmt i bs out : prints m bs -> round_ok fmt i out k -> round_ok fmt i (bs ++ out) (m ;; k).
Proof.
  intros Hm Hk w g. apply wp_bind. eapply wp_mono; [apply Hm|]. intros a [w1 g1] (Hg & Hu & Hp). simpl in *. subst g1.
  eapply wp_mono; [apply Hk|]. intros r s' (i' & st' & ap' & bs' & out' & -> & Hi & Hf & -> & Hg' & Hu' & Hp').
  exists i', st', ap', (bs ++ bs'), out'. by rewrite <- Hu, Hp', Hp, <- !app_assoc.
Qed.

Lemma drop_next {A} (l : list A) (i : Z) tl c k : 0 <= i -> drop (Z.to_nat i) l = c :: tl -> 0 <= k -> drop (Z.to_nat (i + k + 1)) l = drop (Z.to_nat k) tl.
Proof. intros Hi Hd Hk. replace (Z.to_nat (i + k + 1)) with (Z.to_nat i + S (Z.to_nat k))%nat by lia. by rewrite <- drop_drop, Hd. Qed.

Lemma at_next (l : list Z) (i : Z) tl c k : 0 <= i -> drop (Z.to_nat i) l = c :: tl -> 0 <= k -> default 0 (l !! Z.to_nat (i + k + 1)) = default 0 (tl !! Z.to_nat k).
Proof. intros Hi Hd Hk. rewrite <- (Nat.add_0_r (Z.to_nat (i + k + 1))), <- lookup_drop, (drop_next l i tl c k), lookup_drop by done. by rewrite Nat.add_0_r. Qed.

Lemma vprintf_round_text fmt i state ap c0 tl out :
  Forall (fun c => c <> 0) fmt -> 0 <= i -> drop (Z.to_nat i) fmt = c0 :: tl -> format state (c0 :: tl) ap = Some out ->
  round_ok fmt i out (vprintf_round dst fmt (i, state, ap)).
Proof.
  intros Hnz Hi Hd Hf. unfold vprintf_round.
  assert (Hc0 : default 0 (fmt !! Z.to_nat i) = c0) by (rewrite <- (Nat.add_0_r (Z.to_nat i)), <- lookup_drop, Hd; done).
  assert (Hnz' : Forall (fun c => c <> 0) (c0 :: tl)) by (rewrite <- Hd; by apply Forall_drop).
  pose proof (at_next fmt i tl c0 0 Hi Hd ltac:(lia)) as H1. pose proof (at_next fmt i tl c0 1 Hi Hd ltac:(lia)) as H2.
  pose proof (drop_next fmt i tl c0 0 Hi Hd ltac:(lia)) as D0. pose proof (drop_next fmt i tl c0 1 Hi Hd ltac:(lia)) as D1.
  pose proof (drop_next fmt i tl c0 2 Hi Hd ltac:(lia)) as D2.
  rewrite Z.add_0_r in H1. replace (i + 1 + 1) with (i + 2) in H2 by lia.
  assert (E1 : default 0 (fmt !! Z.to_nat (i + 1)) = hd 0 tl) by (rewrite H1; by destruct tl).
  assert (E2 : (if hd 0 tl =? 0 then 0 else default 0 (fmt !! Z.to_nat (i + 2))) = hd 0 (tail tl)).
  { rewrite H2. destruct tl as [|a [|b r]]; [done|by destruct (_ =? 0)|]. apply Forall_cons in Hnz' as [_ Hnz'].
    apply Forall_cons in Hnz' as [Ha _]. cbn. by rewrite (proj2 (Z.eqb_neq a 0)). }
  rewrite Hc0, E1, E2. apply Forall_cons in Hnz' as [Hc _]. rewrite (proj2 (Z.eqb_neq c0 0)) by done. cbn [format] in Hf.
  destruct state; cbn [negb] in *.
  - unfold uva_int, uva_long, uva_uint64, uva_str in *.
    repeat match type of Hf with (if ?b then _ else _) = _ => destruct b end;
      try (destruct ap as [|[v|v] ap']; try done);
      try (apply fmap_Some in Hf as (o & Ho & ->)).
    all: try (eapply round_done; [apply printint_text; lia|lia|rewrite D0; exact Ho|done]).
    all: try (destruct tl as [|a tl]; [done|]; eapply round_done; [apply printint_text; lia|lia|rewrite D1; exact Ho|done]).
    all: try (destruct tl as [|a [|b tl]]; [done..|]; eapply round_done; [apply printint_text; lia|lia|rewrite D2; exact Ho|done]).
    all: try (eapply round_done; [apply printptr_text, wrap_range; lia|lia|rewrite D0; exact Ho|done]).
    all: try (eapply round_done; [apply each_text|lia|rewrite D0; exact Ho|done]).
    all: try (eapply round_done; [apply putc_text|lia|rewrite D0; exact Ho|simpl; by rewrite ?wrap_wrap]).
    all: try (apply fmap_Some in Ho as (o' & Ho & ->); apply (round_seq (putc dst (chr "%")) _ _ _ [chr "%"]); [apply putc_text|];
      eapply round_done; [apply putc_text|lia|rewrite D0; exact Ho|done]).
  - rewrite Z.add_0_r in D0. destruct (c0 =? chr "%").
    + intros w g. apply wp_ret. exists (i + 1), true, ap, [], out. rewrite D0, app_nil_r. split_and!; (done || lia).
    + apply fmap_Some in Hf as (o & Ho & ->). eapply round_done; [apply putc_text|lia|rewrite D0; exact Ho|done].
Qed.

(** [vprintf] prints the text of the format. *)
Lemma vprintf_text fmt ap out : Forall (fun c => c <> 0) fmt -> format false fmt ap = Some out -> prints (vprintf dst fmt ap) out.
Proof.
  intros Hnz Hf w g. unfold vprintf.
  apply (wp_while UFuel (fun x (s : ust W G) => let '(i, state, ap) := x in 0 <= i /\ glob s = g /\ rest (world s) = rest w /\
    exists o, format state (drop (Z.to_nat i) fmt) ap = Some o /\ shown (world s) ++ o = shown w ++ out)
    (fun x => (length fmt - Z.to_nat x.1.1)%nat)); [|simpl; lia|].
  - split_and!; try done. by exists out.
  - intros [[i state] ap'] [ws gs] (Hi & Hg & Hu & o & Ho & Hp). simpl in Hg, Hu, Hp. subst gs.
    destruct (drop (Z.to_nat i) fmt) as [|c0 tl] eqn:Hd.
    + unfold vprintf_round. assert (Hlen : (length fmt <= Z.to_nat i)%nat) by (rewrite <- (take_drop (Z.to_nat i) fmt), Hd, app_nil_r, length_take; lia).
      rewrite lookup_ge_None_2 by done. apply wp_ret. simpl. simpl in Ho. simplify_eq. by rewrite app_nil_r in Hp.
    + eapply wp_mono; [by eapply (vprintf_round_text fmt i state ap' c0 tl o)|].
      intros r s' (i' & st' & ap'' & bs & o' & -> & Hlt & Hf' & -> & Hg' & Hu' & Hp').
      assert (Z.to_nat i < length fmt)%nat by (apply (f_equal length) in Hd; rewrite length_drop in Hd; simpl in Hd; lia).
      split; [|simpl; lia]. split_and!; [lia|done|by rewrite Hu'|]. exists o'. by rewrite Hp', <- app_assoc.
Qed.

Lemma fprintf_text fmt ap out : forallb (fun c => negb (c =? 0)) (s2b fmt) = true -> format false (s2b fmt) ap = Some out -> prints (fprintf dst fmt ap) out.
Proof.
  intros Hnz. apply vprintf_text. apply Forall_forall. intros c Hc.
  assert (Hx := proj1 (forallb_forall _ _) Hnz c (proj1 (list_elem_of_In _ _) Hc)). apply negb_true_iff, Z.eqb_neq in Hx. done.
Qed.
End prints.

(** On a stream: nothing is read. *)
Section stream.
Context {W : Type} `{Kernel W} {fd : Z} `{!Stream W fd} {G : Type}.
Local Abbreviation prints := (prints (G := G) (printed (fd := fd)) (unread (fd := fd))).

Lemma write_prints bs : prints (write 1 bs) bs.
Proof. apply (write_text 1), write_law. Qed.

Lemma printf_prints fmt ap out : forallb (fun c => negb (c =? 0)) (s2b fmt) = true -> format false (s2b fmt) ap = Some out -> prints (printf fmt ap) out.
Proof. apply (fprintf_text 1), write_law. Qed.
End stream.
