(* ===== verification/Grep.v ===== *)
(** [user/grep.c]: the regular-expression matcher and the loop that prints matching lines.

    A pattern and a text are strings, lists of bytes; the end of the list is where C reads the NUL. *)
From Stdlib Require Import Ascii.
From S2P Require Import Prelude Machine Usys Ulib Uprintf.
From Stdlib Require Import ZArith Lia.
From stdpp Require Import base strings numbers gmap list.
Local Open Scope Z_scope.
Local Open Scope m_scope.

(** ** The matcher *)

(** [matchstar(c, re, text)], where [here] is [matchhere(re, .)]. *)
Fixpoint matchstar (here : list Z -> bool) (c : Z) (text : list Z) : bool :=
  if here text then true else
  match text with
  | [] => false
  | x :: text' => if (x =? c) || (c =? chr ".") then matchstar here c text' else false
  end.

Fixpoint matchhere (re text : list Z) {struct re} : bool :=
  match re with
  | [] => true
  | c :: re1 =>
      match re1 with
      | d :: re2 =>
          if d =? chr "*" then matchstar (matchhere re2) c text else
          match text with
          | x :: text' => if (c =? chr ".") || (c =? x) then matchhere re1 text' else false
          | [] => false
          end
      | [] =>
          if c =? chr "$" then match text with [] => true | _ => false end else
          match text with
          | x :: text' => if (c =? chr ".") || (c =? x) then matchhere re1 text' else false
          | [] => false
          end
      end
  end.

(** The loop of [match] that tries every tail of the text. *)
Fixpoint match_tails (re text : list Z) : bool :=
  if matchhere re text then true else
  match text with
  | [] => false
  | _ :: text' => match_tails re text'
  end.

Definition match_ (re text : list Z) : bool :=
  match re with
  | c :: re' => if c =? chr "^" then matchhere re' text else match_tails re text
  | [] => match_tails re text
  end.

(** ** grep *)

Definition bufsize : Z := 1024.

Section grep.
Context {W : Type} `{Kernel W} {G : Type} `{Rounds}.

(** The loop over the lines in the buffer: [p] are the bytes from the pointer [p] to [buf + m]; those
    left when there is no more newline. *)
Definition grep_lines (pattern : list Z) (data : list Z) : U W G (list Z) :=
  while_fuel UFuel (S (length data)) (fun p =>
    match strchr (cstring p) 10 with
    | None => ret (inr p)
    | Some k =>
        when (match_ pattern (take k p)) (write 1 (take (S k) p) ;; ret tt) ;;
        ret (inl (drop (S k) p))
    end) data.

(** [data] are the first [m] bytes of [buf]. *)
Definition grep (pattern : list Z) (fd : Z) : U W G unit :=
  while_fuel UFuel (S rounds) (fun data =>
    let! (n, bs) := read fd (bufsize - Z.of_nat (length data) - 1) in
    if negb (0 <? n) then ret (inr tt) else
    rest <- grep_lines pattern (data ++ bs) ;;
    ret (inl rest)) [].

Definition grep_main (argv : list (list Z)) : U W G unit :=
  match argv with
  | [] | [_] =>
      fprintf 2 (nl "usage: grep pattern [file ...]") [] ;;
      exit 1
  | [_; pattern] =>
      grep pattern 0 ;;
      exit 0
  | _ :: pattern :: files =>
      for_each files (fun f =>
        fd <- open f O_RDONLY ;;
        if fd <? 0 then
          printf (nl "grep: cannot open %s") [UStr (Some f)] ;;
          exit 1
        else
        grep pattern fd ;;
        close fd ;;
        ret tt) ;;
      exit 0
  end.
End grep.

(** ** What a pattern means *)

(** A pattern is a sequence of items, between optional anchors; an item stands for one
    character, or for any number of them. *)
Inductive item : Type := One (c : Z) | Many (c : Z).

Definition fits (c x : Z) : Prop := c = chr "." \/ c = x.

Definition item_lang (i : item) (t : list Z) : Prop :=
  match i with
  | One c => exists x, t = [x] /\ fits c x
  | Many c => Forall (fits c) t
  end.

(** The texts a sequence of items stands for. *)
Fixpoint lang (its : list item) (t : list Z) : Prop :=
  match its with
  | [] => t = []
  | i :: its' => exists t1 t2, t = t1 ++ t2 /\ item_lang i t1 /\ lang its' t2
  end.

(** The items of a pattern after its first anchor, and whether it ends in the other. *)
Fixpoint items (re : list Z) : list item * bool :=
  match re with
  | [] => ([], false)
  | c :: re1 =>
      match re1 with
      | d :: re2 =>
          if d =? chr "*" then let (its, e) := items re2 in (Many c :: its, e)
          else let (its, e) := items re1 in (One c :: its, e)
      | [] => if c =? chr "$" then ([], true) else ([One c], false)
      end
  end.

(** The pattern as a whole: does it start with an anchor, its items, does it end with one. *)
Definition pattern_of (re : list Z) : bool * list item * bool :=
  match re with
  | c :: re' => if c =? chr "^" then (true, (items re').1, (items re').2) else (false, (items re).1, (items re).2)
  | [] => (false, [], false)
  end.

Lemma matchstar_iff here c text :
  matchstar here c text = true <-> exists t1 t2, text = t1 ++ t2 /\ Forall (fits c) t1 /\ here t2 = true.
Proof.
  induction text as [|x text IH]; simpl.
  - destruct (here []) eqn:E; split; try done.
    + intros _. by exists [], [].
    + intros (t1 & t2 & Heq & _ & Ht). symmetry in Heq. apply app_nil in Heq as [-> ->]. congruence.
  - destruct (here (x :: text)) eqn:E; [split; [|done]; intros _; by exists [], (x :: text)|].
    destruct ((x =? c) || (c =? chr ".")) eqn:Hf.
    + rewrite IH. split.
      * intros (t1 & t2 & -> & Hall & Ht). exists (x :: t1), t2. split_and!; [done| |done]. constructor; [|done].
        apply orb_true_iff in Hf as [Hf|Hf]; apply Z.eqb_eq in Hf; [by right|by left].
      * intros (t1 & t2 & Heq & Hall & Ht). destruct t1 as [|y t1]; simplify_eq/=; [congruence|].
        apply Forall_cons in Hall as [_ Hall]. by exists t1, t2.
    + split; [done|]. intros (t1 & t2 & Heq & Hall & Ht). destruct t1 as [|y t1]; simplify_eq/=; [congruence|].
      apply Forall_cons in Hall as [Hy _]. apply orb_false_iff in Hf as [Hf1 Hf2]. rewrite Z.eqb_neq in Hf1, Hf2.
      destruct Hy; congruence.
Qed.

(** Some beginning of the text is one the items stand for, all of it if [e]. *)
Definition begins (its : list item) (e : bool) (text : list Z) : Prop :=
  exists mid post, text = mid ++ post /\ lang its mid /\ (e = true -> post = []).

Lemma begins_one c its e (here : list Z -> bool) text :
  (forall t, here t = true <-> begins its e t) ->
  match text with x :: text' => if (c =? chr ".") || (c =? x) then here text' else false | [] => false end = true <->
  begins (One c :: its) e text.
Proof.
  intros Hh. split.
  - destruct text as [|x text]; [done|]. destruct ((c =? chr ".") || (c =? x)) eqn:Hf; [|done]. rewrite Hh.
    intros (mid & post & -> & Hl & He). exists (x :: mid), post. split_and!; [done| |done]. exists [x], mid. split_and!; [done| |done].
    exists x. split; [done|]. apply orb_true_iff in Hf as [Hf|Hf]; apply Z.eqb_eq in Hf; [by left|by right].
  - intros (mid & post & -> & (t1 & t2 & -> & (x & -> & Hf) & Hl) & He). simpl.
    replace ((c =? chr ".") || (c =? x)) with true.
    + apply Hh. by exists t2, post.
    + symmetry. apply orb_true_iff. rewrite !Z.eqb_eq. by destruct Hf; [left|right].
Qed.

Lemma begins_many c its e (here : list Z -> bool) text :
  (forall t, here t = true <-> begins its e t) -> matchstar here c text = true <-> begins (Many c :: its) e text.
Proof.
  intros Hh. rewrite matchstar_iff. split.
  - intros (t1 & t2 & -> & Hall & Ht). apply Hh in Ht as (mid & post & -> & Hl & He). exists (t1 ++ mid), post.
    split_and!; [by rewrite app_assoc|by exists t1, mid|done].
  - intros (mid & post & -> & (t1 & t2 & -> & Hall & Hl) & He). exists t1, (t2 ++ post). split_and!; [by rewrite app_assoc|done|].
    apply Hh. by exists t2, post.
Qed.

Lemma matchhere_iff re text : matchhere re text = true <-> begins (items re).1 (items re).2 text.
Proof.
  assert (Hind : forall n re, (length re < n)%nat -> forall text, matchhere re text = true <-> begins (items re).1 (items re).2 text);
    [|by apply (Hind (S (length re))); lia].
  clear re text. intros n. induction n as [|n IH]; intros re Hn; [lia|]. destruct re as [|c re1].
  { intros text. split; [|done]. intros _. by exists [], text. }
  destruct re1 as [|d re2].
  - intros text. cbn [matchhere items]. destruct (Z.eqb_spec c (chr "$")) as [->|Hc].
    + split; [destruct text; [|done]; intros _; by exists [], []|].
      intros (mid & post & -> & -> & He). by rewrite (He eq_refl).
    + apply (begins_one c [] false (matchhere [])). intros t. split; [|done]. intros _. by exists [], t.
  - intros text. change (matchhere (c :: d :: re2) text) with (if d =? chr "*" then matchstar (matchhere re2) c text else
      match text with x :: text' => if (c =? chr ".") || (c =? x) then matchhere (d :: re2) text' else false | [] => false end).
    change (items (c :: d :: re2)) with (if d =? chr "*" then let (its, e) := items re2 in (Many c :: its, e)
      else let (its, e) := items (d :: re2) in (One c :: its, e)).
    destruct (d =? chr "*").
    + pose proof (IH re2 ltac:(simpl in *; lia)) as IH2. destruct (items re2). by apply begins_many.
    + pose proof (IH (d :: re2) ltac:(simpl in *; lia)) as IH1. destruct (items (d :: re2)). by apply begins_one.
Qed.

Lemma match_tails_iff re text :
  match_tails re text = true <-> exists pre rest, text = pre ++ rest /\ matchhere re rest = true.
Proof.
  induction text as [|x text IH]; simpl.
  - destruct (matchhere re []) eqn:E; split; try done.
    + intros _. by exists [], [].
    + intros (pre & rest & Heq & Hr). symmetry in Heq. apply app_nil in Heq as [-> ->]. congruence.
  - destruct (matchhere re (x :: text)) eqn:E; [split; [|done]; intros _; by exists [], (x :: text)|]. rewrite IH. split.
    + intros (pre & rest & -> & Hr). by exists (x :: pre), rest.
    + intros ([|y pre] & rest & Heq & Hr); simplify_eq/=; [congruence|]. by exists pre, rest.
Qed.

(** C31: the matcher of [grep] decides the meaning of the pattern.  [match] succeeds on a
    text exactly when some part of it is a text the pattern's items stand for, a part
    that starts at the beginning if the pattern starts with a circumflex and ends at the end
    if it ends with a dollar sign; a dot stands for any character and a character followed by a
    star for any number of it.  It does so for every pattern and text, and always returns. *)
Theorem match_decides re text :
  let '(first, its, last) := pattern_of re in
  match_ re text = true <-> exists pre mid post, text = pre ++ mid ++ post /\ lang its mid /\
    (first = true -> pre = []) /\ (last = true -> post = []).
Proof.
  assert (Htails : match_tails re text = true <-> exists pre mid post, text = pre ++ mid ++ post /\ lang (items re).1 mid /\
    (false = true -> pre = []) /\ ((items re).2 = true -> post = [])).
  { rewrite match_tails_iff. split.
    - intros (pre & rest & -> & Hr). apply matchhere_iff in Hr as (mid & post & -> & Hl & He). by exists pre, mid, post.
    - intros (pre & mid & post & -> & Hl & _ & He). exists pre, (mid ++ post). split; [done|]. apply matchhere_iff. by exists mid, post. }
  destruct re as [|c re']; [exact Htails|]. unfold pattern_of, match_. destruct (c =? chr "^"); [|exact Htails].
  rewrite matchhere_iff. split.
  - intros (mid & post & -> & Hl & He). by exists [], mid, post.
  - intros (pre & mid & post & -> & Hl & Hpre & He). rewrite (Hpre eq_refl). by exists mid, post.
Qed.

(** ** What grep prints *)

(** The complete lines of a text, and what follows the last of them; [cur] is the line begun before it. *)
Fixpoint split_lines (cur text : list Z) : list (list Z) * list Z :=
  match text with
  | [] => ([], cur)
  | c :: text' =>
      if c =? 10 then let (ls, r) := split_lines [] text' in (cur :: ls, r)
      else split_lines (cur ++ [c]) text'
  end.

(** The matching lines, each with its newline. *)
Definition grep_output (pat : list Z) (ls : list (list Z)) : list Z :=
  concat ((fun l => l ++ [10]) <$> filter (fun l => match_ pat l = true) ls).

Lemma split_lines_app cur a b :
  split_lines cur (a ++ b) =
    let (ls, r) := split_lines cur a in let (ls', r') := split_lines r b in (ls ++ ls', r').
Proof.
  revert cur. induction a as [|c a IH]; intros cur; simpl; [by destruct (split_lines cur b)|].
  destruct (c =? 10); [|apply IH]. rewrite IH. destruct (split_lines [] a) as [ls r]. by destruct (split_lines r b).
Qed.

Lemma split_lines_plain cur a : 10 ∉ a -> split_lines cur a = ([], cur ++ a).
Proof.
  revert cur. induction a as [|c a IH]; intros cur Ha; simpl; [by rewrite app_nil_r|].
  apply not_elem_of_cons in Ha as [Hc Ha]. rewrite (proj2 (Z.eqb_neq _ _)) by done. rewrite IH by done. by rewrite <- app_assoc.
Qed.

Lemma split_lines_cons l a : 10 ∉ l -> split_lines [] (l ++ 10 :: a) = let (ls, r) := split_lines [] a in (l :: ls, r).
Proof. intros Hl. rewrite split_lines_app, split_lines_plain by done. simpl. by destruct (split_lines [] a). Qed.

Lemma split_lines_rest cur a : 10 ∉ cur -> 10 ∉ (split_lines cur a).2.
Proof.
  revert cur. induction a as [|c a IH]; intros cur Hc; simpl; [done|]. destruct (Z.eqb_spec c 10).
  - specialize (IH [] ltac:(apply not_elem_of_nil)). by destruct (split_lines [] a).
  - apply IH. rewrite not_elem_of_app, list_elem_of_singleton. auto.
Qed.

Lemma grep_output_cons pat l ls :
  grep_output pat (l :: ls) = (if match_ pat l then l ++ [10] else []) ++ grep_output pat ls.
Proof.
  unfold grep_output. rewrite filter_cons. destruct (match_ pat l) eqn:E.
  - by rewrite decide_True.
  - by rewrite decide_False by congruence.
Qed.

Lemma grep_output_app pat ls ls' : grep_output pat (ls ++ ls') = grep_output pat ls ++ grep_output pat ls'.
Proof. unfold grep_output. by rewrite filter_app, fmap_app, concat_app. Qed.

(** The line begun is part of a line of the whole. *)
Lemma split_lines_begun (P : list Z -> Prop) cur a :
  (forall l l', P (l ++ l') -> P l) -> Forall P (let (ls, r) := split_lines cur a in ls ++ [r]) -> P cur.
Proof.
  intros HP. revert cur. induction a as [|c a IH]; intros cur; simpl; [by rewrite Forall_singleton|].
  destruct (c =? 10).
  - destruct (split_lines [] a). simpl. by intros [Hc _]%Forall_cons.
  - intros Hf. apply IH in Hf. by eapply HP.
Qed.

Lemma split_lines_forall (P : Z -> Prop) cur a : Forall P cur -> Forall P a -> Forall P (split_lines cur a).2.
Proof.
  intros Hc Ha. revert cur Hc. induction Ha as [|c a Hx _ IH]; intros cur Hc; simpl; [done|]. destruct (c =? 10).
  - specialize (IH [] (Forall_nil_2 _)). by destruct (split_lines [] a).
  - apply IH. apply Forall_app. by rewrite Forall_singleton.
Qed.

Lemma cstring_nonzero s : Forall (fun c => c <> 0) s -> cstring s = s.
Proof. induction 1 as [|c s Hc _ IH]; simpl; [done|]. rewrite (proj2 (Z.eqb_neq _ _)) by done. by rewrite IH. Qed.

Section grep_stream.
Context {W : Type} `{Stream W fd} {G : Type} `{Rounds}.
Variables (pat : list Z) (g : G).
Local Abbreviation st := (ust W G).

(** The lines in the buffer are printed if they match, and what follows the last newline is left. *)
Lemma grep_lines_spec data (w : W) :
  Forall (fun c => c <> 0) data ->
  wp (grep_lines pat data) (fun r s' => r = (split_lines [] data).2 /\ glob s' = g /\ unread (fd := fd) (world s') = unread (fd := fd) w /\
    printed (fd := fd) (world s') = printed (fd := fd) w ++ grep_output pat (split_lines [] data).1) (mkUst w g).
Proof.
  intros Hnz. unfold grep_lines.
  apply (wp_while UFuel (fun p (s : st) => Forall (fun c => c <> 0) p /\ glob s = g /\ unread (fd := fd) (world s) = unread (fd := fd) w /\
    (split_lines [] p).2 = (split_lines [] data).2 /\
    printed (fd := fd) (world s) ++ grep_output pat (split_lines [] p).1 = printed (fd := fd) w ++ grep_output pat (split_lines [] data).1) length);
    [done|lia|].
  intros p s (Hp & Hg & Hu & Hrest & Hout). rewrite cstring_nonzero by done. pose proof (strchr_spec p 10) as Hs.
  destruct (strchr p 10) as [k|].
  - destruct Hs as (l & a & -> & -> & Hl). rewrite take_app_length.
    assert (Htk : take (S (length l)) (l ++ 10 :: a) = l ++ [10]).
    { replace (l ++ 10 :: a) with ((l ++ [10]) ++ a) by (by rewrite <- app_assoc). rewrite take_app_length'; [done|]. rewrite length_app. simpl. lia. }
    assert (Hdr : drop (S (length l)) (l ++ 10 :: a) = a).
    { replace (l ++ 10 :: a) with ((l ++ [10]) ++ a) by (by rewrite <- app_assoc). rewrite drop_app_length'; [done|]. rewrite length_app. simpl. lia. }
    rewrite Htk, Hdr. rewrite split_lines_cons in Hrest, Hout by done. apply Forall_app in Hp as [_ Hp]. apply Forall_cons in Hp as [_ Hp].
    destruct (split_lines [] a) as [ls r] eqn:Ea. simpl in Hrest, Hout. rewrite grep_output_cons in Hout.
    destruct (match_ pat l) eqn:Hm.
    + destruct (write_law (fd := fd) (world s) (l ++ [10])) as (w' & Hw & Hu' & Hp').
      apply wp_bind, wp_bind. destruct s as [ws gs]. eapply wp_ok; [by apply sys_run|]. apply wp_ret, wp_ret. simpl in *.
      split; [|rewrite length_app; simpl; lia]. rewrite Ea. simpl. split_and!; [done|done|by rewrite Hu'|done|].
      rewrite Hp', <- Hout. by rewrite <- app_assoc.
    + apply wp_bind, wp_ret, wp_ret. split; [|rewrite length_app; simpl; lia]. rewrite Ea. simpl. by split_and!.
  - apply wp_ret. rewrite split_lines_plain in Hrest, Hout by done. simpl in Hrest, Hout. split_and!; [done|done|done|].
    unfold grep_output in Hout at 1. simpl in Hout. by rewrite app_nil_r in Hout.
Qed.

(** C32: [grep] prints exactly the lines that match, however the input arrives.  If the text to be
    read has no NUL and no line of it, nor what follows the last, fills the buffer, then
    whatever number of bytes each [read] delivers, [grep] reads all of it, prints, in order, the
    lines that match the pattern, each with its newline, and returns.  What follows the last
    newline is not printed. *)
Theorem grep_prints_matches (w : W) text :
  unread (fd := fd) w = text -> Forall (fun c => c <> 0) text -> (length text <= rounds)%nat ->
  Forall (fun l => Z.of_nat (length l) < bufsize - 2) (let (ls, r) := split_lines [] text in ls ++ [r]) ->
  wp (grep pat fd) (fun _ s' => unread (fd := fd) (world s') = [] /\
    printed (fd := fd) (world s') = printed (fd := fd) w ++ grep_output pat (split_lines [] text).1) (mkUst w g).
Proof.
  intros Hu Hnz Hr Hshort. unfold grep.
  apply (wp_loop UFuel (fun data (s : st) => glob s = g /\ exists pre ls, text = pre ++ unread (fd := fd) (world s) /\
    split_lines [] pre = (ls, data) /\ printed (fd := fd) (world s) = printed (fd := fd) w ++ grep_output pat ls)
    (fun _ s => length (unread (fd := fd) (world s)))).
  - split; [done|]. exists [], []. simpl. rewrite Hu. unfold grep_output. simpl. by rewrite app_nil_r.
  - simpl. rewrite Hu. lia.
  - intros data [ws gs] (Hg & pre & ls & Htext & Hpre & Hp). simpl in Hg, Htext, Hp. subst gs.
    assert (Hlen : Z.of_nat (length data) < bufsize - 2).
    { apply (split_lines_begun (fun l => Z.of_nat (length l) < bufsize - 2) data (unread (fd := fd) ws)).
      - intros l l' Hl. rewrite length_app in Hl. lia.
      - rewrite Htext, split_lines_app, Hpre in Hshort. destruct (split_lines data _). rewrite <- app_assoc in Hshort.
        by apply Forall_app in Hshort as [_ Hshort]. }
    destruct (read_law (fd := fd) ws (bufsize - Z.of_nat (length data) - 1) ltac:(unfold bufsize in *; lia)) as (k & w' & Hrd & Hkl & Hkn & Hkp & Hu' & Hp').
    apply wp_bind. eapply wp_ok; [by apply sys_run|]. cbv beta iota. destruct (Z.ltb_spec 0 (Z.of_nat k)) as [Hk|Hk]; simpl negb; cbv iota.
    + set (bs := take k (unread (fd := fd) ws)) in *.
      assert (Hsp : unread (fd := fd) ws = bs ++ unread (fd := fd) w') by (rewrite Hu'; unfold bs; by rewrite take_drop).
      assert (Hnl : 10 ∉ data) by (pose proof (split_lines_rest [] pre ltac:(apply not_elem_of_nil)) as Hx; by rewrite Hpre in Hx).
      rewrite Htext, Hsp in Hnz. apply Forall_app in Hnz as [Hnz1 Hnz2]. apply Forall_app in Hnz2 as [Hnz2 _].
      assert (Hdata : Forall (fun c => c <> 0) (data ++ bs)).
      { apply Forall_app. split; [|done]. pose proof (split_lines_forall _ [] pre (Forall_nil_2 _) Hnz1) as Hx. by rewrite Hpre in Hx. }
      assert (Hjoin : split_lines [] (data ++ bs) = split_lines data bs) by (rewrite split_lines_app, split_lines_plain by done; by destruct (split_lines _ bs)).
      apply wp_bind. eapply wp_mono; [by apply grep_lines_spec|]. intros r [w2 g2] (-> & Hg2 & Hu2 & Hp2). rewrite Hjoin in *. simpl in Hg2, Hu2, Hp2.
      apply wp_ret. split; [|simpl; rewrite Hu2, Hu', length_drop; lia]. split; [done|]. simpl.
      exists (pre ++ bs), (ls ++ (split_lines data bs).1). split_and!.
      * rewrite Hu2, <- app_assoc, <- Hsp. exact Htext.
      * rewrite split_lines_app, Hpre. by destruct (split_lines data bs).
      * rewrite Hp2, Hp', Hp, grep_output_app, app_assoc. done.
    + assert (k = 0%nat) as -> by lia. apply wp_ret. simpl. rewrite Hu', drop_0, Hp'.
      assert (He : unread (fd := fd) ws = []) by (destruct (unread (fd := fd) ws); [done|]; exfalso; specialize (Hkp ltac:(done)); lia).
      rewrite He in Htext |- *. rewrite app_nil_r in Htext. subst pre. split; [done|]. by rewrite Hp, Hpre.
Qed.
End grep_stream.

(** Two lines in three chunks. *)
Definition sample_chunks : Chunks.world := Chunks.mkWorld {[ 0 := [s2b "ab"; s2b "c" ++ [10] ++ s2b "x"; s2b "yz" ++ [10]] ]} [].

Lemma grep_prints_matches_witness :
  wp (@grep Chunks.world Chunks.kernel unit (20%nat : Rounds) (s2b "b.*") 0) (fun _ s' =>
    Chunks.printed_on (world s') = s2b "abc" ++ [10]) (mkUst sample_chunks tt).
Proof.
  eapply wp_mono; [apply (@grep_prints_matches Chunks.world Chunks.kernel 0 (Chunks.stream 0) unit (20%nat : Rounds) (s2b "b.*") tt sample_chunks
    (s2b "abc" ++ [10] ++ s2b "xyz" ++ [10]))|].
  - by vm_compute.
  - apply (bool_decide_unpack _). by vm_compute.
  - by apply Nat.leb_le; vm_compute.
  - apply (bool_decide_unpack _). by vm_compute.
  - intros [] s' [_ Hp]. exact Hp.
Defined.
