(* ===== verification/Cmds.v ===== *)
(** The small user commands: a module per program of [user/], with the functions of the
    program under their own names.

    A loop that goes on until a system call says so goes [rounds] times at most in the model.
    The last part shows what [cat] and [wc] print. *)
From Stdlib Require Import Ascii.
From S2P Require Import Prelude Machine Usys Ulib Uprintf.
From Stdlib Require Import ZArith Lia.
From stdpp Require Import base strings numbers gmap list.
Local Open Scope Z_scope.
Local Open Scope m_scope.

(** [for(i = 1; i < argc; i++)] over the arguments of a command. *)
Definition args (argv : list (list Z)) : list (list Z) := tail argv.

(** [user/cat.c] *)
Module Cat.
Section program.
Context {W : Type} `{Kernel W} {G : Type} `{Rounds}.

Definition cat (fd : Z) : U W G unit :=
  n <- while_fuel UFuel (S rounds) (fun _ : unit =>
    let! (n, buf) := read fd 512 in
    if negb (0 <? n) then ret (inr n) else
    r <- write 1 buf ;;
    if negb (r =? n) then
      fprintf 2 (nl "cat: write error") [] ;;
      exit 1
    else ret (inl tt)) tt ;;
  if n <? 0 then
    fprintf 2 (nl "cat: read error") [] ;;
    exit 1
  else ret tt.

Definition main (argv : list (list Z)) : U W G unit :=
  if (length argv <=? 1)%nat then
    cat 0 ;;
    exit 0
  else
  for_each (args argv) (fun arg =>
    fd <- open arg O_RDONLY ;;
    if fd <? 0 then
      fprintf 2 (nl "cat: cannot open %s") [UStr (Some arg)] ;;
      exit 1
    else
    cat fd ;;
    close fd ;;
    ret tt) ;;
  exit 0.
End program.
End Cat.

(** [user/echo.c] *)
Module Echo.
Section program.
Context {W : Type} `{Kernel W} {G : Type}.

Definition main (argv : list (list Z)) : U W G unit :=
  for_each (zip (seq 1 (length argv - 1)) (args argv)) (fun x => let '(i, arg) := x in
    write 1 arg ;;
    if (i + 1 <? length argv)%nat then write 1 [32] ;; ret tt
    else write 1 [10] ;; ret tt) ;;
  exit 0.
End program.
End Echo.

(** [user/wc.c] *)
Module Wc.
(** [l], [w], [c] and [inword] *)
Record counts : Type := mkCounts { lines : Z; words : Z; chars : Z; inword : bool }.

Definition spaces : list Z := [32; 13; 9; 10; 11].

(** The body of the loop over [buf]. *)
Definition count (k : counts) (ch : Z) : counts :=
  let c := s32 (chars k + 1) in
  let l := if ch =? 10 then s32 (lines k + 1) else lines k in
  if is_some (strchr spaces ch) then mkCounts l (words k) c false
  else if negb (inword k) then mkCounts l (s32 (words k + 1)) c true
  else mkCounts l (words k) c (inword k).

Section program.
Context {W : Type} `{Kernel W} {G : Type} `{Rounds}.

Definition wc (fd : Z) (name : list Z) : U W G unit :=
  let! (n, k) := while_fuel UFuel (S rounds) (fun k =>
    let! (n, buf) := read fd 512 in
    if negb (0 <? n) then ret (inr (n, k)) else
    ret (inl (fold_left count buf k))) (mkCounts 0 0 0 false) in
  if n <? 0 then
    printf (nl "wc: read error") [] ;;
    exit 1
  else
  printf (nl "%d %d %d %s") [UInt (lines k); UInt (words k); UInt (chars k); UStr (Some name)].

Definition main (argv : list (list Z)) : U W G unit :=
  if (length argv <=? 1)%nat then
    wc 0 [] ;;
    exit 0
  else
  for_each (args argv) (fun arg =>
    fd <- open arg O_RDONLY ;;
    if fd <? 0 then
      printf (nl "wc: cannot open %s") [UStr (Some arg)] ;;
      exit 1
    else
    wc fd arg ;;
    close fd ;;
    ret tt) ;;
  exit 0.
End program.
End Wc.

(** [user/kill.c] *)
Module Kill.
Section program.
Context {W : Type} `{Kernel W} {G : Type}.

Definition main (argv : list (list Z)) : U W G unit :=
  when (length argv <? 2)%nat (
    fprintf 2 (nl "usage: kill pid...") [] ;;
    exit 1) ;;
  for_each (args argv) (fun arg => kill (atoi arg) ;; ret tt) ;;
  exit 0.
End program.
End Kill.

(** [user/ln.c] *)
Module Ln.
Section program.
Context {W : Type} `{Kernel W} {G : Type}.

Definition main (argv : list (list Z)) : U W G unit :=
  match argv with
  | [_; old; new] =>
      r <- link old new ;;
      when (r <? 0) (fprintf 2 (nl "link %s %s: failed") [UStr (Some old); UStr (Some new)]) ;;
      exit 0
  | _ =>
      fprintf 2 (nl "Usage: ln old new") [] ;;
      exit 1
  end.
End program.
End Ln.

(** [user/mkdir.c] *)
Module Mkdir.
Section program.
Context {W : Type} `{Kernel W} {G : Type}.

Definition main (argv : list (list Z)) : U W G unit :=
  when (length argv <? 2)%nat (
    fprintf 2 (nl "Usage: mkdir files...") [] ;;
    exit 1) ;;
  for_ret (args argv) (fun arg =>
    r <- mkdir arg ;;
    if r <? 0 then
      fprintf 2 (nl "mkdir: %s failed to create") [UStr (Some arg)] ;;
      ret (Some tt)
    else ret None) ;;
  exit 0.
End program.
End Mkdir.

(** [user/rm.c] *)
Module Rm.
Section program.
Context {W : Type} `{Kernel W} {G : Type}.

Definition main (argv : list (list Z)) : U W G unit :=
  when (length argv <? 2)%nat (
    fprintf 2 (nl "Usage: rm files...") [] ;;
    exit 1) ;;
  for_ret (args argv) (fun arg =>
    r <- unlink arg ;;
    if r <? 0 then
      fprintf 2 (nl "rm: %s failed to delete") [UStr (Some arg)] ;;
      ret (Some tt)
    else ret None) ;;
  exit 0.
End program.
End Rm.

(** [user/sleep.c] *)
Module Sleep.
Definition HZ : Z := 10.

Section program.
Context {W : Type} `{Kernel W} {G : Type}.

Definition main (argv : list (list Z)) : U W G unit :=
  match argv with
  | [_; seconds] =>
      let ticks := s32 (atoi seconds * HZ) in
      sleep ticks ;;
      exit 0
  | _ =>
      fprintf 2 (nl "Usage: sleep seconds") [] ;;
      exit 1
  end.
End program.
End Sleep.

(** [user/uptime.c] *)
Module Uptime.
Section program.
Context {W : Type} `{Kernel W} {G : Type}.

Definition main : U W G unit :=
  ticks <- uptime ;;
  let secs := Z.quot ticks 10 in
  let tenths := Z.rem ticks 10 in
  printf (nl "Uptime: %d ticks (~%d.%d seconds)") [UInt ticks; UInt secs; UInt tenths] ;;
  exit 0.
End program.
End Uptime.

(** [user/zombie.c] *)
Module Zombie.
Section program.
Context {W : Type} `{Kernel W} {G : Type}.

Definition main : U W G unit :=
  pid <- fork ;;
  when (0 <? pid) (sleep 5 ;; ret tt) ;;
  exit 0.
End program.
End Zombie.

(** [user/init.c] *)
Module Init.
Definition CONSOLE : Z := 1.
Definition argv : list (list Z) := [s2b "sh"].

Section program.
Context {W : Type} `{Kernel W} {G : Type} `{Rounds}.

(** Wait until the shell exits; other children are orphans. *)
Definition wait_for (pid : Z) : U W G unit :=
  while_fuel UFuel (S rounds) (fun _ : unit =>
    let! (wpid, _) := wait in
    if wpid =? pid then ret (inr tt)
    else if wpid <? 0 then
      printf (nl "init: wait returned an error") [] ;;
      exit 1
    else ret (inl tt)) tt.

Definition main : U W G unit :=
  r <- open (s2b "console") O_RDWR ;;
  when (r <? 0) (
    mknod (s2b "console") CONSOLE 0 ;;
    open (s2b "console") O_RDWR ;;
    ret tt) ;;
  dup 0 ;;
  dup 0 ;;
  while_fuel UFuel (S rounds) (fun _ : unit =>
    printf (nl "init: starting sh") [] ;;
    pid <- fork ;;
    if pid <? 0 then
      printf (nl "init: fork failed") [] ;;
      exit 1
    else if pid =? 0 then
      exec (s2b "sh") argv ;;
      printf (nl "init: exec sh failed") [] ;;
      exit 1
    else
    wait_for pid ;;
    ret (inl tt)) tt.
End program.
End Init.

(** ** Directories *)

(** The two fields of [struct dirent], 16 bytes. *)
Definition de_inum (de : list Z) : Z := le_val (take 2 de).
Definition de_name (de : list Z) : list Z := take DIRSIZ (drop 2 de).
Definition dirent_size : Z := 16.

(** The first character after the last slash: [p] is one more than the index looked at. *)
Fixpoint last_elem (path : list Z) (p : nat) : nat :=
  match p with
  | O => O
  | S i => if default 0 (path !! i) =? chr "/" then p else last_elem path i
  end.

(** [user/ls.c] *)
Module Ls.
(** [buf] is static: the bytes up to [DIRSIZ] are stored by every call and the NUL is never overwritten. *)
Definition fmtname (path : list Z) : list Z :=
  let p := drop (last_elem path (S (length path))) path in
  if (DIRSIZ <=? length p)%nat then p else
  p ++ replicate (DIRSIZ - length p) 32.

Section program.
Context {W : Type} `{Kernel W} {G : Type} `{Rounds}.

Definition print_entry (path : list Z) (st : ustat) : U W G unit :=
  printf (nl "%s %d %d %d") [UStr (Some (fmtname path)); UInt (us_type st); UInt (us_ino st); UInt (us_size st)].

(** The loop over the entries of the directory at [fd]. *)
Definition ls_entries (fd : Z) (path : list Z) : U W G unit :=
  while_fuel UFuel (S rounds) (fun _ : unit =>
    let! (n, de) := read fd dirent_size in
    if negb (n =? dirent_size) then ret (inr tt) else
    if de_inum de =? 0 then ret (inl tt) else
    let buf := path ++ [chr "/"] ++ cstring (de_name de) in
    let! (r, st) := stat buf in
    if r <? 0 then
      printf (nl "ls: cannot stat %s") [UStr (Some buf)] ;;
      ret (inl tt)
    else
    print_entry buf st ;;
    ret (inl tt)) tt.

Definition ls (path : list Z) : U W G unit :=
  fd <- open path O_RDONLY ;;
  if fd <? 0 then fprintf 2 (nl "ls: cannot open %s") [UStr (Some path)] else
  let! (r, st) := fstat fd in
  if r <? 0 then
    fprintf 2 (nl "ls: cannot stat %s") [UStr (Some path)] ;;
    close fd ;;
    ret tt
  else
  (if (us_type st =? T_DEVICE) || (us_type st =? T_FILE) then print_entry path st
   else if us_type st =? T_DIR then
     if (512 <? length path + 1 + DIRSIZ + 1)%nat then printf (nl "ls: path too long") []
     else ls_entries fd path
   else ret tt) ;;
  close fd ;;
  ret tt.

Definition main (argv : list (list Z)) : U W G unit :=
  if (length argv <? 2)%nat then
    ls (s2b ".") ;;
    exit 0
  else
  for_each (args argv) ls ;;
  exit 0.
End program.
End Ls.

(** [user/pingpong.c] *)
Module Pingpong.
Section program.
Context {W : Type} `{Kernel W} {G : Type}.

Definition fail {A} (msg : string) : U W G A :=
  fprintf 2 (nl msg) [] ;;
  exit 1.

Definition child (p2c c2p : Z * Z) : U W G unit :=
  close p2c.2 ;;
  close c2p.1 ;;
  let! (n, buf) := read p2c.1 1 in
  if negb (n =? 1) then fail "child read error" else
  me <- getpid ;;
  printf (nl "%d: received ping") [UInt me] ;;
  n <- write c2p.2 [chr "C"] ;;
  if negb (n =? 1) then fail "child write error" else
  close p2c.1 ;;
  close c2p.2 ;;
  exit 0.

Definition parent (p2c c2p : Z * Z) : U W G unit :=
  close p2c.1 ;;
  close c2p.2 ;;
  n <- write p2c.2 [chr "P"] ;;
  if negb (n =? 1) then fail "parent write error" else
  let! (n, buf) := read c2p.1 1 in
  if negb (n =? 1) then fail "parent read error" else
  me <- getpid ;;
  printf (nl "%d: received pong") [UInt me] ;;
  close p2c.2 ;;
  close c2p.1 ;;
  wait ;;
  exit 0.

Definition main : U W G unit :=
  let! (r1, p2c0, p2c1) := pipe in
  if r1 <? 0 then fail "pipe failed" else
  let! (r2, c2p0, c2p1) := pipe in
  if r2 <? 0 then fail "pipe failed" else
  let p2c := (p2c0, p2c1) in
  let c2p := (c2p0, c2p1) in
  pid <- fork ;;
  if pid <? 0 then fail "fork failed"
  else if pid =? 0 then child p2c c2p
  else parent p2c c2p.
End program.
End Pingpong.

(** [user/primes.c].  The only global is [report_wfd]. *)
Module Primes.
Section program.
Context {W : Type} `{Kernel W} `{Rounds}.

(** [None] is the return value [0]. *)
Definition read_int (fd : Z) : U W Z (option Z) :=
  let! (n, v) := read fd 4 in
  ret (if n =? 4 then Some (s32 (le_val v)) else None).

Definition write_int (fd v : Z) : U W Z unit :=
  write fd (le_bytes 4 v) ;;
  ret tt.

Definition filter_for_p (leftfd rightfd p : Z) : U W Z unit :=
  while_fuel UFuel (S rounds) (fun _ : unit =>
    r <- read_int leftfd ;;
    match r with
    | None => ret (inr tt)
    | Some x =>
        when (negb (Z.rem x p =? 0)) (write_int rightfd x) ;;
        ret (inl tt)
    end) tt ;;
  close leftfd ;;
  close rightfd ;;
  ret tt.

(** A child goes on as the next stage; [stages] bounds how many there are. *)
Fixpoint primes (stages : nat) (leftfd : Z) : U W Z unit :=
  match stages with
  | O => stop UFuel
  | S stages' =>
      r <- read_int leftfd ;;
      match r with
      | None =>
          close leftfd ;;
          report_wfd <- get_glob id ;;
          when (0 <=? report_wfd) (close report_wfd ;; ret tt) ;;
          exit 0
      | Some p =>
          report_wfd <- get_glob id ;;
          write_int report_wfd p ;;
          let! (_, right0, right1) := pipe in
          pid <- fork ;;
          if pid =? 0 then
            close right1 ;;
            close leftfd ;;
            primes stages' right0
          else
            close right0 ;;
            filter_for_p leftfd right1 p ;;
            close report_wfd ;;
            wait ;;
            exit 0
      end
  end.

(** The loop that collects what the stages report. *)
Definition collect (report0 : Z) : U W Z (list Z) :=
  while_fuel UFuel (S rounds) (fun buf =>
    let! (n, p) := read report0 4 in
    if negb (n =? 4) then ret (inr buf) else
    ret (inl (if (length buf <? 64)%nat then buf ++ [s32 (le_val p)] else buf))) [].

Definition main : U W Z unit :=
  let! (_, in0, in1) := pipe in
  let! (_, report0, report1) := pipe in
  upd_glob (fun _ => report1) ;;
  pid <- fork ;;
  if pid =? 0 then
    close in1 ;;
    close report0 ;;
    primes rounds in0
  else
    close in0 ;;
    close report1 ;;
    for_each (zrange 2 279) (write_int in1) ;;
    close in1 ;;
    buf <- collect report0 ;;
    close report0 ;;
    for_each buf (fun p => printf (nl "prime %d") [UInt p]) ;;
    wait ;;
    exit 0.
End program.
End Primes.

(** [user/forktest.c] *)
Module Forktest.
Definition N : nat := 1000.

Section program.
Context {W : Type} `{Kernel W} {G : Type}.

Definition print (s : string) : U W G unit :=
  write 1 (s2b s) ;;
  ret tt.

Definition forktest : U W G unit :=
  print (nl "fork test") ;;
  r <- for_ret (seq 0 N) (fun n =>
    pid <- fork ;;
    if pid <? 0 then ret (Some n)
    else if pid =? 0 then exit 0
    else ret None) ;;
  match r with
  | None =>
      print (nl "fork claimed to work N times!") ;;
      exit 1
  | Some n =>
      for_each (seq 0 n) (fun _ =>
        let! (r, _) := wait in
        when (r <? 0) (
          print (nl "wait stopped early") ;;
          exit 1)) ;;
      let! (r, _) := wait in
      if negb (r =? -1) then
        print (nl "wait got too many") ;;
        exit 1
      else print (nl "fork test OK")
  end.

Definition main : U W G unit :=
  forktest ;;
  exit 0.
End program.
End Forktest.

(** [user/stressfs.c] *)
Module Stressfs.
Section program.
Context {W : Type} `{Kernel W} {G : Type}.

Definition main : U W G unit :=
  let data := replicate 512 (chr "a") in
  printf (nl "stressfs starting") [] ;;
  r <- for_ret (zrange 0 4) (fun i =>
    pid <- fork ;;
    if 0 <? pid then ret (Some i) else ret None) ;;
  let i := default 4 r in
  printf (nl "write %d") [UInt i] ;;
  let path := s2b "stressfs" ++ [u8 (chr "0" + i)] in
  fd <- open path (Z.lor O_CREATE O_RDWR) ;;
  for_each (seq 0 20) (fun _ => write fd data ;; ret tt) ;;
  close fd ;;
  printf (nl "read") [] ;;
  fd <- open path O_RDONLY ;;
  for_each (seq 0 20) (fun _ => read fd 512 ;; ret tt) ;;
  close fd ;;
  wait ;;
  exit 0.
End program.
End Stressfs.

(** [user/xargs.c] *)
Module Xargs.
(** An element of [xargv]: a string of [argv], or a pointer into [buf]. *)
Inductive xarg : Type := Base (s : list Z) | At (off : nat).

(** The string such a pointer leads to. *)
Definition deref (buf : list Z) (a : xarg) : list Z :=
  match a with Base s => s | At off => cstring (drop off buf) end.

Section program.
Context {W : Type} `{Kernel W} {G : Type} `{Rounds}.

(** The loop of [parse_args] from the offset [p], where [rest] is what [line] holds from there
    on: what it holds in the end, and [args]. *)
Fixpoint parse_args_loop (p : nat) (rest : list Z) (args : list xarg) (inword : bool) : U W G (list Z * list xarg) :=
  match rest with
  | [] => stop (UFault "parse_args: line")
  | c :: rest' =>
      if c =? 0 then ret (rest, args)
      else if (c =? 32) || (c =? 9) then
        let! (r, args) := parse_args_loop (S p) rest' args false in ret (0 :: r, args)
      else if c =? 10 then ret (0 :: rest', args)
      else if inword then
        let! (r, args) := parse_args_loop (S p) rest' args true in ret (c :: r, args)
      else if (MAXARG - 1 <=? length args)%nat then
        fprintf 2 (nl "xargs: too many arguments") [] ;;
        exit 1
      else
        let! (r, args) := parse_args_loop (S p) rest' (args ++ [At p]) true in ret (c :: r, args)
  end.
Definition parse_args (line : list Z) (args : list xarg) : U W G (list Z * list xarg) :=
  parse_args_loop 0 line args false.

(** What [buf] holds at first does not matter: no byte of it is read before it is stored. *)
Definition main (argv : list (list Z)) : U W G unit :=
  if (length argv <? 2)%nat then
    fprintf 2 (nl "Usage: xargs command [args...]") [] ;;
    exit 1
  else
  while_fuel UFuel (S rounds) (fun x => let '(n, buf) := x in
    let! (r, c) := read 0 1 in
    if negb (r =? 1) then ret (inr tt) else
    let buf := <[n := hd 0 c]> buf in
    if hd 0 c =? 10 then
      let buf := <[(n + 1)%nat := 0]> buf in
      if (MAXARG <=? length (args argv))%nat then stop (UFault "xargs: xargv") else
      let xargv := Base <$> args argv in
      let! (buf, xargv) := parse_args buf xargv in
      let strings := deref buf <$> xargv in
      pid <- fork ;;
      if pid =? 0 then
        exec (hd [] strings) strings ;;
        fprintf 2 (nl "xargs: exec %s failed") [UStr (Some (hd [] strings))] ;;
        exit 1
      else
      wait ;;
      ret (inl (0%nat, buf))
    else
      let n := S n in
      if (510 <=? n)%nat then
        fprintf 2 (nl "xargs: input line too long") [] ;;
        exit 1
      else ret (inl (n, buf))) (0%nat, replicate 512 0) ;;
  exit 0.
End program.
End Xargs.

(** ** What [cat] and [wc] print *)

Lemma strchr_elem s c : is_some (strchr s c) = bool_decide (c ∈ s).
Proof.
  induction s as [|x s IH]; simpl; [done|]. destruct (Z.eqb_spec x c) as [->|Hne].
  - symmetry. apply bool_decide_eq_true. left.
  - transitivity (is_some (strchr s c)); [by destruct (strchr s c)|]. rewrite IH. apply bool_decide_ext. rewrite elem_of_cons. intuition congruence.
Qed.

(** The lines and the words of a text: a word starts at a character that is not white space,
    at the beginning or after white space. *)
Definition line_count (t : list Z) : nat := length (filter (fun c => c = 10) t).
Definition space (c : Z) : bool := bool_decide (c ∈ Wc.spaces).
Definition starts_word (t : list Z) (i : nat) : bool :=
  negb (space (t !!! i)) && match i with O => true | S j => space (t !!! j) end.
Definition word_count (t : list Z) : nat := length (filter (fun i => starts_word t i = true) (seq 0 (length t))).

Lemma line_count_snoc t c : line_count (t ++ [c]) = (line_count t + if (c =? 10)%Z then 1 else 0)%nat.
Proof.
  unfold line_count. rewrite filter_app, length_app. f_equal. destruct (Z.eqb_spec c 10) as [->|Hne]; [done|]. by rewrite filter_cons_False.
Qed.

Lemma filter_ext_elem {A} (P Q : A -> Prop) `{!forall x, Decision (P x), !forall x, Decision (Q x)} (l : list A) :
  (forall x, x ∈ l -> P x <-> Q x) -> filter P l = filter Q l.
Proof.
  induction l as [|x l IH]; intros Hl; [done|]. rewrite !filter_cons, IH by (intros; apply Hl; by right).
  apply decide_ext. apply Hl. left.
Qed.

Lemma word_count_snoc t c :
  word_count (t ++ [c]) = (word_count t + if negb (space c) && match last t with None => true | Some d => space d end then 1 else 0)%nat.
Proof.
  unfold word_count. rewrite length_app, Nat.add_1_r, seq_S, filter_app, length_app. f_equal.
  - f_equal. apply filter_ext_elem. intros i Hi. apply elem_of_seq in Hi. unfold starts_word.
    rewrite lookup_total_app_l by lia. destruct i as [|i]; [done|]. by rewrite lookup_total_app_l by lia.
  - assert (Hs : starts_word (t ++ [c]) (length t) = negb (space c) && match last t with None => true | Some d => space d end).
    { unfold starts_word. rewrite list_lookup_total_middle by done. destruct t as [|d t _] using rev_ind; [done|].
      rewrite last_snoc, length_app, Nat.add_1_r, lookup_total_app_l, list_lookup_total_middle by (rewrite ?length_app; simpl; lia). done. }
    cbn [Nat.add]. destruct (negb (space c) && _); [rewrite filter_cons_True by done|rewrite filter_cons_False by congruence]; done.
Qed.

(** The counters after a text of less than 2{^31} characters. *)
Lemma count_counts t :
  Z.of_nat (length t) < 2 ^ 31 ->
  fold_left Wc.count t (Wc.mkCounts 0 0 0 false) =
    Wc.mkCounts (Z.of_nat (line_count t)) (Z.of_nat (word_count t)) (Z.of_nat (length t))
      (match last t with None => false | Some d => negb (space d) end).
Proof.
  induction t as [|c t IH] using rev_ind; intros Hlen; [done|]. rewrite length_app in *. simpl in Hlen. cbn [length].
  rewrite fold_left_app, IH by lia. cbn [fold_left]. rewrite last_snoc, line_count_snoc, word_count_snoc.
  assert (Hl : (line_count t <= length t)%nat) by apply length_filter.
  assert (Hw : (word_count t <= length t)%nat) by (unfold word_count; etransitivity; [apply length_filter|by rewrite length_seq]).
  unfold Wc.count. cbn [Wc.lines Wc.words Wc.chars Wc.inword]. rewrite strchr_elem. fold (space c).
  assert (Hs : forall n, (n <= length t)%nat -> s32 (Z.of_nat n + 1) = Z.of_nat (n + 1)) by (intros n Hn; rewrite swrap_small; lia).
  rewrite !Hs by lia. rewrite negb_involutive_reverse with (b := match last t with None => false | Some d => negb (space d) end) at 2.
  assert (He : negb (match last t with None => false | Some d => negb (space d) end) = match last t with None => true | Some d => space d end).
  { destruct (last t); [by rewrite negb_involutive|done]. }
  rewrite He. destruct (c =? 10), (space c), (match last t with None => true | Some d => space d end); simpl; by rewrite ?Nat.add_0_r.
Qed.

Section streams.
Context {W : Type} `{Kernel W} {fd : Z} `{!Stream W fd} {G : Type} `{Rounds}.

(** [cat] copies.  Whatever number of bytes each [read] delivers, [cat] reads the
    whole of the file and prints its bytes in order, then returns. *)
Theorem cat_copies (w : W) (g : G) text :
  unread (fd := fd) w = text -> (length text <= rounds)%nat ->
  wp (Cat.cat fd) (fun _ s' => unread (fd := fd) (world s') = [] /\ printed (fd := fd) (world s') = printed (fd := fd) w ++ text) (mkUst w g).
Proof.
  intros Hu Hr. unfold Cat.cat. apply wp_bind.
  apply (wp_loop UFuel (fun _ (s : ust W G) => printed (fd := fd) (world s) ++ unread (fd := fd) (world s) = printed (fd := fd) w ++ text)
    (fun _ s => length (unread (fd := fd) (world s)))); [by simpl; rewrite Hu|simpl; rewrite Hu; lia|].
  intros [] [ws gs] Hinv. simpl in Hinv. destruct (read_law (fd := fd) ws 512 ltac:(lia)) as (k & w' & Hrd & Hk & _ & Hkp & Hu' & Hp').
  apply wp_bind. eapply wp_ok; [by apply sys_run|]. cbv beta iota. destruct (Z.ltb_spec 0 (Z.of_nat k)) as [Hpos|Hz]; simpl negb; cbv iota.
  - destruct (write_law (fd := fd) w' (take k (unread (fd := fd) ws))) as (w2 & Hw2 & Hu2 & Hp2). apply wp_bind. eapply wp_ok; [by apply sys_run|].
    rewrite length_take, Nat.min_l, Z.eqb_refl by done. apply wp_ret. simpl. rewrite Hu2, Hp2, Hu', Hp', <- app_assoc, take_drop, length_drop. split; [done|lia].
  - assert (k = 0%nat) as -> by lia. apply wp_ret. simpl. apply wp_ret. simpl. rewrite Hu', drop_0, Hp'.
    assert (He : unread (fd := fd) ws = []) by (destruct (unread (fd := fd) ws); [done|]; exfalso; specialize (Hkp ltac:(done)); lia).
    by rewrite He, app_nil_r in Hinv.
Qed.

(** [wc] counts.  Whatever number of bytes each [read] delivers, so wherever a word is cut
    in two, [wc] prints the number of newlines, of words and of characters of the file,
    in decimal, and its name. *)
Theorem wc_counts (w : W) (g : G) text name :
  unread (fd := fd) w = text -> (length text <= rounds)%nat -> Z.of_nat (length text) < 2 ^ 31 -> Forall is_byte name ->
  wp (Wc.wc fd name) (fun _ s' => unread (fd := fd) (world s') = [] /\ printed (fd := fd) (world s') = printed (fd := fd) w ++
    printint_chars (Z.of_nat (line_count text)) 10 true ++ [32] ++ printint_chars (Z.of_nat (word_count text)) 10 true ++ [32] ++
    printint_chars (Z.of_nat (length text)) 10 true ++ [32] ++ name ++ [10]) (mkUst w g).
Proof.
  intros Hu Hr Hlen Hname. unfold Wc.wc. apply wp_bind.
  apply (wp_loop UFuel (fun k (s : ust W G) => glob s = g /\ printed (fd := fd) (world s) = printed (fd := fd) w /\
    exists pre, text = pre ++ unread (fd := fd) (world s) /\ k = fold_left Wc.count pre (Wc.mkCounts 0 0 0 false))
    (fun _ s => length (unread (fd := fd) (world s)))); [simpl; rewrite Hu; split_and!; [done..|by exists []]|simpl; rewrite Hu; lia|].
  intros k [ws gs] (Hg & Hp & pre & Htext & ->). simpl in Hg, Hp, Htext. subst gs.
  destruct (read_law (fd := fd) ws 512 ltac:(lia)) as (k & w' & Hrd & Hk & _ & Hkp & Hu' & Hp').
  apply wp_bind. eapply wp_ok; [by apply sys_run|]. cbv beta iota. destruct (Z.ltb_spec 0 (Z.of_nat k)) as [Hpos|Hz]; simpl negb; cbv iota.
  - apply wp_ret. simpl. rewrite Hu', length_drop. split; [|lia]. split_and!; [done|by rewrite Hp'|].
    exists (pre ++ take k (unread (fd := fd) ws)). rewrite <- app_assoc, take_drop, fold_left_app. done.
  - assert (k = 0%nat) as -> by lia. apply wp_ret. rewrite drop_0 in Hu'.
    assert (He : unread (fd := fd) ws = []) by (destruct (unread (fd := fd) ws); [done|]; exfalso; specialize (Hkp ltac:(done)); lia).
    rewrite He, app_nil_r in Htext. subst pre. rewrite count_counts by done. cbn [Wc.lines Wc.words Wc.chars].
    assert (Hl : (line_count text <= length text)%nat) by apply length_filter.
    assert (Hw : (word_count text <= length text)%nat) by (unfold word_count; etransitivity; [apply length_filter|by rewrite length_seq]).
    eapply wp_mono; [eapply printf_prints; [done|reflexivity]|]. intros [] s' (_ & Hu2 & Hp2). rewrite Hu2, Hp2, Hu', Hp', Hp, He.
    rewrite !swrap_small by lia. assert (Hn : u8 <$> name = name).
    { rewrite <- (list_fmap_id name) at 2. apply list_fmap_ext. intros i c Hc. rewrite Forall_lookup in Hname. apply wrap_small. by apply (Hname i). }
    cbn [default from_option id]. rewrite Hn. done.
Qed.
End streams.

(** A text read in chunks that cut its words. *)
Definition split_words : Chunks.world := Chunks.mkWorld {[ 0 := [s2b "ab"; s2b "c d" ++ [10] ++ s2b "x"; s2b "yz" ++ [10]] ]} [].
Definition split_text : list Z := s2b "abc d" ++ [10] ++ s2b "xyz" ++ [10].

Lemma cat_copies_witness :
  wp (@Cat.cat Chunks.world Chunks.kernel unit (20%nat : Rounds) 0) (fun _ s' => Chunks.printed_on (world s') = split_text) (mkUst split_words tt).
Proof.
  eapply wp_mono; [apply (@cat_copies Chunks.world Chunks.kernel 0 (Chunks.stream 0) unit (20%nat : Rounds) split_words tt split_text)|].
  - by vm_compute.
  - by apply Nat.leb_le; vm_compute.
  - intros [] s' [_ Hp]. exact Hp.
Defined.

Lemma wc_counts_witness :
  wp (@Wc.wc Chunks.world Chunks.kernel unit (20%nat : Rounds) 0 (s2b "f")) (fun _ s' => Chunks.printed_on (world s') = s2b "2 3 10 f" ++ [10]) (mkUst split_words tt).
Proof.
  eapply wp_mono; [apply (@wc_counts Chunks.world Chunks.kernel 0 (Chunks.stream 0) unit (20%nat : Rounds) split_words tt split_text (s2b "f"))|].
  - by vm_compute.
  - by apply Nat.leb_le; vm_compute.
  - by apply Z.ltb_lt; vm_compute.
  - apply Forall_singleton. by vm_compute.
  - intros [] s' [_ Hp]. exact Hp.
Defined.

(** ** The words of a line of [xargs] *)

Definition blank (c : Z) : bool := (c =? 32) || (c =? 9).

(** A line cut at its blanks, and its words: the pieces that are not empty. *)
Fixpoint pieces (t : list Z) : list Z * list (list Z) :=
  match t with
  | [] => ([], [])
  | c :: t' => let (p, ps) := pieces t' in if blank c then ([], p :: ps) else (c :: p, ps)
  end.
Definition fields (t : list Z) : list (list Z) := let (p, ps) := pieces t in filter (fun f => f <> []) (p :: ps).

Section xargs.
Context {W : Type} `{Kernel W} {G : Type}.
Implicit Types s : ust W G.

Lemma parse_args_loop_fields t p junk args (inword : bool) s :
  Forall (fun c => c <> 0 /\ c <> 10) t ->
  let (p0, ps) := pieces t in
  let new := filter (fun f => f <> []) (if inword then ps else p0 :: ps) in
  (length args + length new < MAXARG)%nat ->
  exists r offs, Xargs.parse_args_loop p (t ++ 10 :: junk) args inword s = Ok (r, args ++ offs) s /\ cstring r = p0 /\
    forall buf, drop p buf = r -> Xargs.deref buf <$> offs = new.
Proof.
  intros Ht. revert p args inword. induction Ht as [|c t [Hc0 Hcn] _ IH]; intros p args inword.
  - intros Hlen. exists (0 :: junk), []. rewrite app_nil_r. by destruct inword.
  - cbn [pieces]. destruct (pieces t) as [p0 ps]. unfold blank. cbn [app Xargs.parse_args_loop].
    rewrite (proj2 (Z.eqb_neq c 0)), (proj2 (Z.eqb_neq c 10)) by done.
    assert (Hd : forall (buf : list Z) (x : Z) r, drop p buf = x :: r -> drop (S p) buf = r).
    { intros buf x r Hb. rewrite <- Nat.add_1_r, <- drop_drop, Hb. done. }
    destruct ((c =? 32) || (c =? 9)) eqn:Hb.
    + intros Hlen. destruct (IH (S p) args false) as (r & offs & Hrun & Hr & Hbuf); [destruct inword; exact Hlen|].
      exists (0 :: r), offs. rewrite (bind_ok _ _ _ _ _ Hrun). split_and!; [done|done|]. intros buf Hdr. rewrite (Hbuf buf) by (by eapply Hd). by destruct inword.
    + destruct inword; intros Hlen.
      * destruct (IH (S p) args true Hlen) as (r & offs & Hrun & Hr & Hbuf). exists (c :: r), offs. rewrite (bind_ok _ _ _ _ _ Hrun).
        split_and!; [done|simpl; by rewrite (proj2 (Z.eqb_neq c 0)), Hr|]. intros buf Hdr. apply Hbuf. by eapply Hd.
      * rewrite filter_cons_True in Hlen |- * by done. cbn [length] in Hlen.
        rewrite (proj2 (Nat.leb_gt _ _)) by (unfold MAXARG in *; lia).
        destruct (IH (S p) (args ++ [Xargs.At p]) true) as (r & offs & Hrun & Hr & Hbuf); [rewrite length_app; simpl; lia|].
        exists (c :: r), (Xargs.At p :: offs). rewrite (bind_ok _ _ _ _ _ Hrun), <- app_assoc.
        assert (Hcs : cstring (c :: r) = c :: p0) by (simpl; by rewrite (proj2 (Z.eqb_neq c 0)), Hr).
        split_and!; [done|done|]. intros buf Hdr. rewrite fmap_cons, (Hbuf buf) by (by eapply Hd). cbn [Xargs.deref]. by rewrite Hdr, Hcs.
Qed.

(** [xargs] splits a line into words.  [parse_args] overwrites the blanks and the newline with
    NULs, and the pointers it appends lead, in the line so changed, to the words of the
    line, in order, after the arguments of the command; the bytes after the newline,
    left there by a longer line, do not matter. *)
Theorem parse_args_fields t junk cmd s :
  Forall (fun c => c <> 0 /\ c <> 10) t -> (length cmd + length (fields t) < MAXARG)%nat ->
  wp (Xargs.parse_args (t ++ 10 :: junk) (Xargs.Base <$> cmd)) (fun '(buf, xargv) s' =>
    s' = s /\ Xargs.deref buf <$> xargv = cmd ++ fields t) s.
Proof.
  intros Ht Hlen. unfold Xargs.parse_args. pose proof (parse_args_loop_fields t 0 junk (Xargs.Base <$> cmd) false s Ht) as Hloop.
  unfold fields in *. destruct (pieces t) as [p0 ps]. destruct Hloop as (r & offs & Hrun & _ & Hbuf); [by rewrite length_fmap|].
  eapply wp_ok; [exact Hrun|]. split; [done|]. rewrite fmap_app, Hbuf by done. f_equal.
  rewrite <- list_fmap_compose. rewrite <- (list_fmap_id cmd) at 2. by apply list_fmap_ext.
Qed.
End xargs.

Lemma parse_args_fields_witness :
  wp (@Xargs.parse_args Chunks.world Chunks.kernel unit (s2b "  a  bc " ++ 10 :: s2b "old") (Xargs.Base <$> [s2b "echo"; s2b "x"])) (fun '(buf, xargv) s' =>
    Xargs.deref buf <$> xargv = s2b <$> ["echo"; "x"; "a"; "bc"]%string) (mkUst split_words tt).
Proof.
  eapply wp_mono; [apply (@parse_args_fields Chunks.world Chunks.kernel unit (s2b "  a  bc ") (s2b "old") [s2b "echo"; s2b "x"] (mkUst split_words tt))|].
  - apply (bool_decide_unpack _). by vm_compute.
  - by apply Nat.ltb_lt; vm_compute.
  - intros [buf xargv] s' [_ Hx]. exact Hx.
Defined.
