(* ===== verification/Find.v ===== *)
(** [user/find.c].

    [find] calls itself on every entry of a directory, with a longer path each time, and stops
    at a path too long for its buffer: so the depth of the calls is bounded, and the
    bound of the model on it is never met.  [Tree] states what the program relies on of a tree of directories; against it,
    the output of a whole run is [found]. *)
From Stdlib Require Import Ascii.
From S2P Require Import Prelude Machine Usys Ulib Uprintf Grep Cmds.
From Stdlib Require Import ZArith Lia.
From stdpp Require Import base strings numbers gmap list.
Local Open Scope Z_scope.
Local Open Scope m_scope.

Module Find.
(** The program has a copy of the matcher of [grep]. *)
Definition match_ : list Z -> list Z -> bool := Grep.match_.
Definition matchhere : list Z -> list Z -> bool := Grep.matchhere.
Definition matchstar : (list Z -> bool) -> Z -> list Z -> bool := Grep.matchstar.

(** The inner loop of [globmatch]: [here] at every tail of the text that is not empty. *)
Fixpoint glob_tails (here : list Z -> bool) (text : list Z) : bool :=
  match text with
  | [] => false
  | _ :: text' => if here text then true else glob_tails here text'
  end.

Fixpoint globmatch (pattern text : list Z) {struct pattern} : bool :=
  match pattern with
  | [] => match text with [] => true | _ => false end
  | c :: pattern1 =>
      if c =? chr "*" then
        match pattern1 with
        | d :: _ => if d =? chr "*" then globmatch pattern1 text else glob_tails (globmatch pattern1) text
        | [] => true
        end
      else if c =? chr "?" then
        match text with [] => false | _ :: text' => globmatch pattern1 text' end
      else
        match text with [] => false | x :: text' => if negb (c =? x) then false else globmatch pattern1 text' end
  end.

Definition fmtname (path : list Z) : list Z :=
  let p := drop (last_elem path (S (length path))) path in
  if (DIRSIZ <=? length p)%nat then p else
  p ++ replicate (DIRSIZ - length p) 32.

Section program.
Context {W : Type} `{Kernel W} {G : Type} `{Rounds}.

(** The loop over the entries of a directory, where [find] is the recursive call. *)
Definition find_entries (find : list Z -> U W G unit) (fd : Z) (path : list Z) : U W G unit :=
  while_fuel UFuel (S rounds) (fun _ : unit =>
    let! (n, de) := read fd dirent_size in
    if negb (n =? dirent_size) then ret (inr tt) else
    if de_inum de =? 0 then ret (inl tt) else
    let name := cstring (de_name de) in
    if (strcmp name (s2b ".") =? 0) || (strcmp name (s2b "..") =? 0) then ret (inl tt) else
    let buf := path ++ [chr "/"] ++ name in
    let! (r, _) := stat buf in
    if r <? 0 then
      printf (nl "find: cannot stat %s") [UStr (Some buf)] ;;
      ret (inl tt)
    else
    find buf ;;
    ret (inl tt)) tt.

(** [depth] bounds the calls of [find] by itself. *)
Fixpoint find (depth : nat) (pattern path : list Z) : U W G unit :=
  match depth with
  | O => stop UFuel
  | S depth' =>
      fd <- open path O_RDONLY ;;
      if fd <? 0 then fprintf 2 (nl "find: cannot open %s") [UStr (Some path)] else
      let! (r, st) := fstat fd in
      if r <? 0 then
        fprintf 2 (nl "find: cannot stat %s") [UStr (Some path)] ;;
        close fd ;;
        ret tt
      else
      (if (us_type st =? T_DEVICE) || (us_type st =? T_FILE) then
         let p := drop (last_elem path (S (length path))) path in
         when (match_ p pattern) (printf (nl "%s") [UStr (Some path)])
       else if us_type st =? T_DIR then
         if (512 <? length path + 1 + DIRSIZ + 1)%nat then printf (nl "find: path too long") []
         else find_entries (find depth' pattern) fd path
       else ret tt) ;;
      close fd ;;
      ret tt
  end.

(** A pattern that does not fit into [wrapped] is written past its end. *)
Definition main (argv : list (list Z)) : U W G unit :=
  match argv with
  | _ :: path :: name :: _ =>
      if (256 <? 3 + length name + 3 + 1)%nat then stop (UFault "find: wrapped") else
      let wrapped := s2b "^.*" ++ name ++ s2b ".*$" in
      find 512 wrapped path ;;
      exit 0
  | _ =>
      fprintf 2 (nl "usage: find <path> <name>") [] ;;
      exit 1
  end.
End program.
End Find.

(** ** The glob matcher *)

(** The texts a glob pattern stands for. *)
Fixpoint glob_lang (p t : list Z) : Prop :=
  match p with
  | [] => t = []
  | c :: p' =>
      if c =? chr "*" then exists t1 t2, t = t1 ++ t2 /\ glob_lang p' t2
      else exists x t', t = x :: t' /\ (c = chr "?" \/ c = x) /\ glob_lang p' t'
  end.

Lemma glob_tails_iff here t : Find.glob_tails here t = true <-> exists t1 t2, t = t1 ++ t2 /\ t2 <> [] /\ here t2 = true.
Proof.
  induction t as [|x t IH]; simpl.
  - split; [done|]. intros (t1 & t2 & Ht & Hne & _). symmetry in Ht. apply app_nil in Ht as [_ ->]. done.
  - destruct (here (x :: t)) eqn:Hh.
    + split; [|done]. intros _. by exists [], (x :: t).
    + rewrite IH. split.
      * intros (t1 & t2 & -> & Hne & H2). by exists (x :: t1), t2.
      * intros ([|y t1] & t2 & Ht & Hne & H2); simpl in Ht; [subst t2; congruence|]. simplify_eq. by exists t1, t2.
Qed.

(** the glob matcher of [find.c] accepts exactly the texts its pattern stands for, where a star
    stands for any text, also the empty one, a question mark for one character and any
    other character for itself.  Its loop does not try the empty tail of the text, and need not. *)
Theorem globmatch_decides p t : Find.globmatch p t = true <-> glob_lang p t.
Proof.
  revert t. induction p as [|c p IH]; intros t; cbn [Find.globmatch glob_lang].
  - by destruct t.
  - destruct (c =? chr "*") eqn:Hc.
    + destruct p as [|d p]; [split; [|done]; intros _; exists t, []; by rewrite app_nil_r|].
      destruct (d =? chr "*") eqn:Hd.
      * rewrite IH. cbn [glob_lang]. rewrite Hd. split.
        -- intros (t1 & t2 & -> & H2). by exists [], (t1 ++ t2); split; [|exists t1, t2].
        -- intros (t1 & t2 & -> & t3 & t4 & -> & H4). exists (t1 ++ t3), t4. by rewrite app_assoc.
      * rewrite glob_tails_iff. split.
        -- intros (t1 & t2 & -> & _ & H2). exists t1, t2. split; [done|]. by apply IH.
        -- intros (t1 & t2 & -> & H2). exists t1, t2. split_and!; [done| |by apply IH].
           cbn [glob_lang] in H2. rewrite Hd in H2. by destruct H2 as (x & t' & -> & _).
    + destruct (Z.eqb_spec c (chr "?")) as [->|Hq]; destruct t as [|x t].
      * split; [done|]. by intros (? & ? & ? & _).
      * rewrite IH. split; [intros Ht; exists x, t; split_and!; by auto|]. intros (? & ? & ? & _ & ?). by simplify_eq.
      * split; [done|]. by intros (? & ? & ? & _).
      * destruct (Z.eqb_spec c x) as [->|Hne]; simpl; [rewrite IH|].
        -- split; [intros Ht; exists x, t; split_and!; by auto|]. intros (? & ? & ? & _ & ?). by simplify_eq.
        -- split; [done|]. intros (? & ? & ? & [?|?] & ?); by simplify_eq.
Qed.

(** ** The depth of the calls *)

Section depth.
Context {W : Type} `{Kernel W} {G : Type} `{Rounds}.

Lemma find_entries_ext (f f' : list Z -> U W G unit) fd path s :
  (forall p s, (length path < length p)%nat -> f p s ≡ f' p s) -> Find.find_entries f fd path s ≡ Find.find_entries f' fd path s.
Proof.
  intros Hf. apply while_fuel_same. intros [] s1. apply bind_same. intros [n de] s2.
  destruct (negb (n =? dirent_size)); [done|]. destruct (de_inum de =? 0); [done|]. cbv zeta.
  destruct ((strcmp (cstring (de_name de)) (s2b ".") =? 0) || (strcmp (cstring (de_name de)) (s2b "..") =? 0)); [done|].
  apply bind_same. intros [r st] s3. destruct (r <? 0); [done|]. apply bind_same_l, Hf. rewrite length_app. simpl. lia.
Qed.

(** The recursion of [find] is bounded.  The path grows with every call and one that would not
    leave room for a name in the buffer of 512 bytes ends the recursion: a bound of 498
    on the depth of the calls, or any larger one, never changes what the program does, whatever
    the directories hold. *)
Theorem find_depth_bounded depth pattern path (s : ust W G) :
  (498 <= depth)%nat -> Find.find depth pattern path s ≡ Find.find 498 pattern path s.
Proof.
  cut (forall d' d path (s : ust W G), (1 <= d)%nat -> (498 <= d + length path)%nat -> (d <= d')%nat -> Find.find d' pattern path s ≡ Find.find d pattern path s).
  { intros Hgen Hd. apply Hgen; lia. }
  clear. induction d' as [|d' IH]; intros d path s H1 Hd Hle; [lia|]. destruct d as [|d]; [lia|]. cbn [Find.find].
  apply bind_same. intros fd s1. destruct (fd <? 0); [done|]. apply bind_same. intros [r st] s2. destruct (r <? 0); [done|].
  apply bind_same_l. destruct ((us_type st =? T_DEVICE) || (us_type st =? T_FILE)); [done|]. destruct (us_type st =? T_DIR); [|done].
  destruct (Nat.ltb_spec 512 (length path + 1 + DIRSIZ + 1)) as [|Hfit]; [done|]. unfold DIRSIZ in Hfit.
  apply find_entries_ext. intros p s3 Hp. apply IH; lia.
Qed.
End depth.

Lemma find_depth_bounded_witness :
  let find d := @Find.find Chunks.world Chunks.kernel unit (5%nat : Rounds) d (s2b "a") (s2b ".") (mkUst split_words tt) in
  find 512%nat ≡ find 498%nat.
Proof. apply (find_depth_bounded 512). lia. Defined.

(** ** What is found *)

(** A file or a device, or a directory, whose entries have an inode number, 0 when not in use, 14 bytes of name, and a node. *)
Inductive node : Type :=
| Leaf (type : Z)
| Dir (entries : list (Z * list Z * node)).

Definition entry : Type := Z * list Z * node.

(** An entry [find] passes over: unused, the directory itself or its parent. *)
Definition skipped (e : entry) : bool := let '(inum, name, _) := e in (inum =? 0) || bool_decide (cstring name = s2b ".") || bool_decide (cstring name = s2b "..").

Definition below (path name : list Z) : list Z := path ++ [chr "/"] ++ cstring name.

(** The part of a path after its last slash. *)
Definition basename (path : list Z) : list Z := foldl (fun acc c => if c =? chr "/" then [] else acc ++ [c]) [] path.

(** The output of [find] for the node at [path]: the paths of the files below it, in the order of the
    directories, whose own name, taken as a regular expression, matches the pattern. *)
Fixpoint found (pattern path : list Z) (n : node) : list Z :=
  match n with
  | Leaf _ => if Find.match_ (basename path) pattern then path ++ [10] else []
  | Dir es =>
      if (512 <? length path + 1 + DIRSIZ + 1)%nat then s2b "find: path too long" ++ [10]
      else flat_map (fun e => if skipped e then [] else let '(_, name, n') := e in found pattern (below path name) n') es
  end.

(** How many descriptors a walk of the node has open at once. *)
Fixpoint height (n : node) : nat :=
  match n with
  | Leaf _ => 1
  | Dir es => S (foldr (fun e h => let '(_, _, n') := e in Nat.max (height n') h) 0%nat es)
  end.

Definition node_type (n : node) : Z := match n with Leaf t => t | Dir _ => T_DIR end.
Definition dirent (e : entry) : list Z := let '(inum, name, _) := e in le_bytes 2 inum ++ name.

(** What [find] relies on: a tree of nodes that does not change ([resolve]), a table of open descriptors that has [limit] entries and
    tells how many entries of a directory have been read, and a [write] that prints. *)
Class Tree (W : Type) `{Kernel W} := {
  resolve : list Z -> option node;
  limit : nat;
  fds : W -> gmap Z (node * nat);
  shown : W -> list Z;
  open_tree : forall w path n, resolve path = Some n -> (size (fds w) < limit)%nat ->
    exists fd w', sc_open path O_RDONLY w = (fd, w') /\ 0 <= fd /\ fds w !! fd = None /\ fds w' = <[fd := (n, 0%nat)]> (fds w) /\ shown w' = shown w;
  fstat_tree : forall w fd n k, fds w !! fd = Some (n, k) ->
    exists st w', sc_fstat fd w = ((0, st), w') /\ us_type st = node_type n /\ fds w' = fds w /\ shown w' = shown w;
  read_tree : forall w fd (es : list entry) k, fds w !! fd = Some (Dir es, k) ->
    exists w', shown w' = shown w /\
      match es !! k with
      | Some e => sc_read fd dirent_size w = ((dirent_size, dirent e), w') /\ fds w' = <[fd := (Dir es, S k)]> (fds w)
      | None => sc_read fd dirent_size w = ((0, []), w') /\ fds w' = fds w
      end;
  close_tree : forall w fd n k, fds w !! fd = Some (n, k) -> exists w', sc_close fd w = (0, w') /\ fds w' = delete fd (fds w) /\ shown w' = shown w;
  write_tree : forall w bs, exists w', sc_write 1 bs w = (Z.of_nat (length bs), w') /\ fds w' = fds w /\ shown w' = shown w ++ bs
}.

(** *** The last element of a path *)

Lemma basename_snoc path c : basename (path ++ [c]) = if c =? chr "/" then [] else basename path ++ [c].
Proof. unfold basename. by rewrite foldl_app. Qed.

Lemma last_elem_app l r i : (i <= length l)%nat -> last_elem (l ++ r) i = last_elem l i.
Proof.
  induction i as [|i IH]; intros Hi; [done|]. cbn [last_elem]. rewrite lookup_app_l by lia. rewrite IH by lia. done.
Qed.

Lemma last_elem_le l i : (last_elem l i <= i)%nat.
Proof. induction i as [|i IH]; [done|]. cbn [last_elem]. destruct (_ =? _); lia. Qed.

Lemma basename_drop path : drop (last_elem path (S (length path))) path = basename path.
Proof.
  assert (Hg : drop (last_elem path (length path)) path = basename path).
  { induction path as [|c l IH] using rev_ind; [done|]. rewrite basename_snoc, length_app, Nat.add_1_r. cbn [last_elem].
    rewrite lookup_app_r, Nat.sub_diag by lia. simpl. pose proof (last_elem_le l (length l)). destruct (c =? chr "/"); [by rewrite drop_ge by (rewrite length_app; simpl; lia)|].
    rewrite last_elem_app, drop_app_le by lia. by rewrite IH. }
  cbn [last_elem]. rewrite (lookup_ge_None_2 path (length path)) by done. exact Hg.
Qed.

Section walk.
Context {W : Type} `{Tree W} {G : Type} `{Rounds}.

(** The node at [path], and those below it where their paths say; a directory has at most [rounds] entries. *)
Inductive placed : list Z -> node -> Prop :=
| placed_leaf path t : resolve path = Some (Leaf t) -> t = T_FILE \/ t = T_DEVICE -> placed path (Leaf t)
| placed_dir path es : resolve path = Some (Dir es) -> (length es <= rounds)%nat ->
    (forall inum name n, (inum, name, n) ∈ es -> 0 <= inum < 2 ^ 16 /\ length name = DIRSIZ /\ Forall is_byte name /\
      (skipped (inum, name, n) = false -> placed (below path name) n)) -> placed path (Dir es).

Lemma placed_resolve path n : placed path n -> resolve path = Some n.
Proof. by intros []. Qed.

(** [m] prints [bs], closes what it opens and returns. *)
Definition walks {A} (m : U W G A) (bs : list Z) (w : W) (g : G) : Prop :=
  wp m (fun _ s' => glob s' = g /\ fds (world s') = fds w /\ shown (world s') = shown w ++ bs) (mkUst w g).

Lemma path_prints (path : list Z) w g : Forall is_byte path -> walks (printf (nl "%s") [UStr (Some path)]) (path ++ [10]) w g.
Proof.
  intros Hb. apply (fprintf_text 1 shown fds write_tree); [reflexivity|]. assert (Hu : u8 <$> path = path).
  { rewrite <- (list_fmap_id path) at 2. apply list_fmap_ext. intros i c Hc. simpl. apply wrap_small. pose proof (proj1 (Forall_lookup _ _) Hb i c Hc) as Hc'. unfold is_byte in Hc'. lia. }
  transitivity (((u8 <$> path) ++.) <$> Some [10]); [reflexivity|by rewrite Hu].
Qed.

Definition heights (es : list entry) : nat := foldr (fun (e : entry) h => let '(_, _, n') := e in Nat.max (height n') h) 0%nat es.

Lemma height_dir es : height (Dir es) = S (heights es).
Proof. done. Qed.

Lemma height_entry (e : entry) es : e ∈ es -> (height e.2 <= heights es)%nat.
Proof. induction es as [|[[i nm] n] es IH]; [by intros ?%not_elem_of_nil|]. intros [->|He]%elem_of_cons; simpl; [lia|specialize (IH He); lia]. Qed.

(** [stat] of a path. *)
Lemma stat_tree path n (w : W) (g : G) : resolve path = Some n -> (size (fds w) < limit)%nat ->
  wp (stat path) (fun a s' => a.1 = 0 /\ glob s' = g /\ fds (world s') = fds w /\ shown (world s') = shown w) (mkUst w g).
Proof.
  intros Hr Hl. unfold stat. destruct (open_tree w path n Hr Hl) as (fd & w1 & E1 & Hfd & Hnew & F1 & S1). apply wp_bind. eapply wp_ok; [by apply sys_run|]. cbv beta.
  rewrite (proj2 (Z.ltb_ge _ _)) by done. destruct (fstat_tree w1 fd n 0) as (st & w2 & E2 & _ & F2 & S2); [by rewrite F1, lookup_insert_eq|].
  apply wp_bind. eapply wp_ok; [by apply sys_run|]. cbv beta iota. destruct (close_tree w2 fd n 0) as (w3 & E3 & F3 & S3); [by rewrite F2, F1, lookup_insert_eq|].
  apply wp_bind. eapply wp_ok; [by apply sys_run|]. apply wp_ret. simpl. split_and!; [done|done| |by rewrite S3, S2, S1]. by rewrite F3, F2, F1, delete_insert_id.
Qed.

Lemma dirent_fields inum name n : 0 <= inum < 2 ^ 16 -> length name = DIRSIZ -> de_inum (dirent (inum, name, n)) = inum /\ de_name (dirent (inum, name, n)) = name.
Proof.
  intros Hi Hn. unfold de_inum, de_name, dirent. assert (Hl : length (le_bytes 2 inum) = 2%nat) by apply length_le_bytes. split.
  - rewrite take_app_length' by done. rewrite le_val_le_bytes. apply Z.mod_small. lia.
  - rewrite drop_app_length' by done. by rewrite <- Hn, firstn_all.
Qed.

Lemma cstring_nul bs : Forall (fun c => c <> 0) (cstring bs).
Proof. induction bs as [|c bs IH]; simpl; [done|]. destruct (Z.eqb_spec c 0); [done|by constructor]. Qed.

Lemma strcmp_is bs q : forallb (fun c => negb (c =? 0)) q = true -> (strcmp (cstring bs) q =? 0) = bool_decide (cstring bs = q).
Proof.
  intros Hq. assert (Hz : Forall (fun c => c <> 0) q).
  { apply Forall_forall. intros c Hc. by apply Z.eqb_neq, negb_true_iff, (proj1 (forallb_forall _ _) Hq), list_elem_of_In. }
  pose proof (strcmp_zero _ _ (cstring_nul bs) Hz) as Hs. destruct (Z.eqb_spec (strcmp (cstring bs) q) 0) as [E|E]; symmetry; [apply bool_decide_eq_true|apply bool_decide_eq_false]; naive_solver.
Qed.

Lemma byte_below path name : Forall is_byte path -> Forall is_byte name -> Forall is_byte (below path name).
Proof.
  intros Hp Hn. unfold below. apply Forall_app. split; [done|]. apply Forall_app. split; [apply Forall_singleton; done|].
  induction Hn as [|c bs Hc _ IH]; simpl; [done|]. destruct (c =? 0); [done|by constructor].
Qed.

Section entries.
Variables (pattern path : list Z) (es : list entry) (find : list Z -> U W G unit) (fd : Z) (w : W) (g : G).
Local Abbreviation out e := (if skipped e then [] else let '(_, name, n') := e in found pattern (below path name) n').
Hypothesis Hent : forall inum name n, (inum, name, n) ∈ es -> 0 <= inum < 2 ^ 16 /\ length name = DIRSIZ /\ (skipped (inum, name, n) = false -> resolve (below path name) = Some n).
Hypothesis Hfind : forall inum name n w', (inum, name, n) ∈ es -> skipped (inum, name, n) = false -> (size (fds w') + height n <= limit)%nat ->
  walks (find (below path name)) (found pattern (below path name) n) w' g.
Hypothesis Hfd : fds w !! fd = Some (Dir es, 0%nat).
Hypothesis Hroom : (size (fds w) + heights es <= limit)%nat.

(** [k] entries have been read. *)
Definition read_up_to (k : nat) (s : ust W G) : Prop :=
  glob s = g /\ fds (world s) = <[fd := (Dir es, k)]> (fds w) /\ shown (world s) = shown w ++ flat_map (fun e => out e) (take k es).

Lemma size_read k : size (<[fd := (Dir es, k)]> (fds w)) = size (fds w).
Proof. apply map_size_insert_Some. by eexists. Qed.

Lemma find_entries_walk : (length es <= rounds)%nat -> wp (Find.find_entries find fd path) (fun _ s' => read_up_to (length es) s') (mkUst w g).
Proof.
  intros Hle. unfold Find.find_entries.
  set (left := fun (_ : unit) (s : ust W G) => match fds (world s) !! fd with Some (_, k) => (length es - k)%nat | None => 0%nat end).
  apply (wp_loop UFuel (fun _ s => exists k, (k <= length es)%nat /\ read_up_to k s) left).
  - exists 0%nat. split; [lia|]. split_and!; [done|simpl; by rewrite insert_id|simpl; by rewrite app_nil_r].
  - unfold left. simpl. rewrite Hfd. lia.
  - intros [] [w1 g1] (k & Hk & Hg & Hf & Hs). simpl in Hg, Hf, Hs. subst g1.
    destruct (read_tree w1 fd es k) as (w2 & S2 & Hr); [by rewrite Hf, lookup_insert_eq|]. apply wp_bind. revert Hr. destruct (es !! k) as [[[inum name] n]|] eqn:Ek; intros [E2 F2].
    2:{ eapply wp_ok; [by apply sys_run|]. cbv beta iota. simpl negb. cbv iota. apply wp_ret. apply lookup_ge_None in Ek. replace (length es) with k by lia.
        split_and!; [done|simpl; by rewrite F2|simpl; by rewrite S2]. }
    eapply wp_ok; [by apply sys_run|]. cbv beta iota. simpl negb. cbv iota. pose proof (list_elem_of_lookup_2 _ _ _ Ek) as Hin.
    pose proof (lookup_lt_Some _ _ _ Ek) as Hlt. destruct (Hent _ _ _ Hin) as (Hi & Hn & Hres). destruct (dirent_fields inum name n Hi Hn) as [-> ->].
    assert (F2' : fds w2 = <[fd := (Dir es, S k)]> (fds w)) by (by rewrite F2, Hf, insert_insert_eq).
    assert (Hdone : forall bs w3, bs = out (inum, name, n) -> fds w3 = fds w2 -> shown w3 = shown w2 ++ bs -> (exists k', (k' <= length es)%nat /\ read_up_to k' (mkUst w3 g)) /\ (left tt (mkUst w3 g) < left tt (mkUst w1 g))%nat).
    { intros bs w3 -> F3 S3. split.
      - exists (S k). split; [lia|]. split_and!; [done|simpl; by rewrite F3|]. simpl. rewrite S3, S2, Hs, (take_S_r _ _ _ Ek), flat_map_app, <- app_assoc. simpl. by rewrite app_nil_r.
      - unfold left. simpl. rewrite F3, F2', Hf, !lookup_insert_eq. lia. }
    rewrite !strcmp_is by done. destruct (inum =? 0) eqn:E0; [apply wp_ret, (Hdone []); [unfold skipped; by rewrite E0|done|by rewrite app_nil_r]|].
    destruct (bool_decide (cstring name = s2b ".") || bool_decide (cstring name = s2b "..")) eqn:Ed; [assert (Hsk : skipped (inum, name, n) = true) by (unfold skipped; rewrite E0; exact Ed); apply wp_ret, (Hdone []); [by rewrite Hsk|done|by rewrite app_nil_r]|].
    assert (Hsk : skipped (inum, name, n) = false) by (unfold skipped; rewrite E0; exact Ed). pose proof (height_entry _ _ Hin) as Hh. simpl in Hh. pose proof (size_read (S k)) as Hsz.
    cbv zeta. change (path ++ [chr "/"] ++ cstring name) with (below path name). assert (1 <= height n)%nat by (destruct n; simpl; lia).
    apply wp_bind. eapply wp_mono; [apply (stat_tree _ n w2 g (Hres Hsk)); rewrite F2'; lia|]. intros [r st] [w3 g3] (Hr & Hg3 & F3 & S3). simpl in Hr, Hg3, F3, S3. subst r g3. simpl Z.ltb. cbv iota.
    apply wp_bind. eapply wp_mono; [apply (Hfind inum name n w3 Hin Hsk); rewrite F3, F2'; lia|]. intros [] [w4 g4] (Hg4 & F4 & S4). simpl in Hg4, F4, S4. subst g4.
    apply wp_ret, (Hdone (found pattern (below path name) n)); [by rewrite Hsk|by rewrite F4|by rewrite S4, S3].
Qed.
End entries.

(** [find] at a node. *)
Lemma find_walk pattern depth : forall path n w g, (1 <= depth)%nat -> (498 <= depth + length path)%nat -> placed path n -> Forall is_byte path -> (size (fds w) + height n <= limit)%nat ->
  walks (Find.find depth pattern path) (found pattern path n) w g.
Proof.
  induction depth as [|depth IH]; intros path n w g H1' Hd Hpl Hb Hl; [lia|]. cbn [Find.find]. unfold walks.
  assert (1 <= height n)%nat by (destruct n; simpl; lia).
  destruct (open_tree w path n (placed_resolve _ _ Hpl) ltac:(lia)) as (fd & w1 & E1 & Hfd & Hnew & F1 & S1). apply wp_bind. eapply wp_ok; [by apply sys_run|]. cbv beta.
  rewrite (proj2 (Z.ltb_ge _ _)) by done. destruct (fstat_tree w1 fd n 0) as (st & w2 & E2 & Hty & F2 & S2); [by rewrite F1, lookup_insert_eq|].
  apply wp_bind. eapply wp_ok; [by apply sys_run|]. cbv beta iota. simpl Z.ltb. cbv iota. apply wp_bind.
  assert (Hclose : forall bs k s', glob s' = g -> fds (world s') = <[fd := (n, k)]> (fds w) -> shown (world s') = shown w ++ bs ->
    wp (close fd ;; ret tt) (fun _ s' => glob s' = g /\ fds (world s') = fds w /\ shown (world s') = shown w ++ bs) s').
  { intros bs k [w' g'] Hg Hf Hs. simpl in Hg, Hf, Hs. subst g'. destruct (close_tree w' fd n k) as (w3 & E3 & F3 & S3); [by rewrite Hf, lookup_insert_eq|].
    apply wp_bind. eapply wp_ok; [by apply sys_run|]. apply wp_ret. simpl. split_and!; [done| |by rewrite S3]. by rewrite F3, Hf, delete_insert_eq, delete_id. }
  rewrite Hty. destruct Hpl as [path t Hres Ht|path es Hres Hle Hes].
  - assert ((node_type (Leaf t) =? T_DEVICE) || (node_type (Leaf t) =? T_FILE) = true) as -> by (destruct Ht as [-> | ->]; done).
    cbv zeta. rewrite basename_drop. cbn [found]. destruct (Find.match_ (basename path) pattern); simpl when.
    + eapply wp_mono; [by apply path_prints|]. intros [] s' (Hg & Hf & Hs). eapply (Hclose _ 0%nat); [done|by rewrite Hf, F2, F1|by rewrite Hs, S2, S1].
    + apply wp_ret. eapply (Hclose [] 0%nat); simpl; [done|by rewrite F2, F1|by rewrite S2, S1, app_nil_r].
  - change ((node_type (Dir es) =? T_DEVICE) || (node_type (Dir es) =? T_FILE)) with false. change (node_type (Dir es) =? T_DIR) with true. cbv iota. cbn [found].
    destruct (Nat.ltb_spec 512 (length path + 1 + DIRSIZ + 1)) as [Hlong|Hfit].
    + eapply wp_mono; [apply (fprintf_text 1 shown fds write_tree); reflexivity|]. intros [] s' (Hg & Hf & Hs). eapply (Hclose _ 0%nat); [done|by rewrite Hf, F2, F1|by rewrite Hs, S2, S1].
    + assert (Hf2 : fds w2 !! fd = Some (Dir es, 0%nat)) by (by rewrite F2, F1, lookup_insert_eq). unfold DIRSIZ in Hfit.
      assert (Hsz : size (fds w2) = S (size (fds w))) by (rewrite F2, F1; by apply map_size_insert_None).
      eapply wp_mono; [apply (find_entries_walk pattern path es (Find.find depth pattern) fd w2 g); [| |done|rewrite height_dir in Hl; lia|done]|].
      * intros inum name n' Hin. destruct (Hes _ _ _ Hin) as (? & ? & _ & Hpl'). split_and!; [lia|lia|done|]. intros Hsk. by apply placed_resolve, Hpl'.
      * intros inum name n' w' Hin Hsk Hl'. destruct (Hes _ _ _ Hin) as (_ & _ & Hbn & Hpl').
        assert (Hlen : (length path < length (below path name))%nat) by (unfold below; rewrite !length_app; simpl; lia).
        apply IH; [lia|lia|by apply Hpl'|by apply byte_below|done].
      * intros [] s' (Hg & Hf & Hs). rewrite firstn_all in Hs. eapply (Hclose _ (length es)); [done|by rewrite Hf, F2, F1, insert_insert_eq|by rewrite Hs, S2, S1].
Qed.

(** C34: [find path name] walks the whole tree.  Run on a tree of files and directories that does not change while it runs, with enough descriptors for the
    depth of the tree, [find] exits with 0, has closed every descriptor it opened, and has printed exactly the paths of the files and devices at or below
    [path] whose name matches, each once, in the order of the directories; the entries [.] and [..] and unused ones are not followed, and a directory whose path leaves no room for a name in the buffer of 512 bytes is reported instead.
    What matches is the wrong way round: the name of the file is taken as the regular expression and [^.*name.*$] as the text. *)
Theorem find_prints_tree prog path name n (w : W) (g : G) :
  placed path n -> Forall is_byte path -> (length name <= 249)%nat -> (size (fds w) + height n <= limit)%nat ->
  ends (Find.main [prog; path; name]) (fun code s' => code = 0 /\ fds (world s') = fds w /\
    shown (world s') = shown w ++ found (s2b "^.*" ++ name ++ s2b ".*$") path n) (mkUst w g).
Proof.
  intros Hpl Hb Hn Hl. unfold Find.main. rewrite (proj2 (Nat.ltb_ge _ _)) by lia. apply ends_bind.
  eapply wp_mono; [apply (find_walk _ 512 path n w g); [lia|lia|done|done|done]|]. intros [] s' (_ & Hf & Hs). by apply ends_exit.
Qed.
End walk.

(** *** Ordinary names *)

(** A name none of whose characters mean anything in a pattern. *)
Definition ordinary (name : list Z) : Prop := Forall (fun c => c <> chr "^" /\ c <> chr "$" /\ c <> chr "." /\ c <> chr "*") name.

Lemma items_plain re : ordinary re -> items re = (One <$> re, false).
Proof.
  induction re as [|c re IH]; intros Hp; [done|]. apply Forall_cons in Hp as [(_ & Hd & _ & _) Hp]. specialize (IH Hp). destruct re as [|d re].
  - cbn [items]. by rewrite (proj2 (Z.eqb_neq _ _) Hd).
  - apply Forall_cons in Hp as [(_ & _ & _ & Hs) _]. change (items (c :: d :: re)) with (if d =? chr "*" then let (its, e) := items re in (Many c :: its, e) else let (its, e) := items (d :: re) in (One c :: its, e)).
    by rewrite (proj2 (Z.eqb_neq _ _) Hs), IH.
Qed.

Lemma lang_plain re mid : ordinary re -> lang (One <$> re) mid <-> mid = re.
Proof.
  revert mid. induction re as [|c re IH]; intros mid Hp; simpl; [done|]. apply Forall_cons in Hp as [(_ & _ & Hd & _) Hp]. split.
  - intros (t1 & t2 & -> & (x & -> & [?|<-]) & Hl); [done|]. by apply (IH _ Hp) in Hl as ->.
  - intros ->. exists [c], re. split_and!; [done|exists c; split; [done|by right]|by apply IH].
Qed.

Lemma match_plain re text : ordinary re -> Find.match_ re text = true <-> exists pre post, text = pre ++ re ++ post.
Proof.
  intros Hp. assert (Hh : forall t, matchhere re t = true <-> exists post, t = re ++ post).
  { intros t. rewrite matchhere_iff, items_plain by done. simpl. split.
    - intros (mid & post & -> & Hl & _). exists post. f_equal. by apply lang_plain.
    - intros (post & ->). exists re, post. split_and!; [done|by apply lang_plain|done]. }
  assert (Hm : Find.match_ re text = match_tails re text).
  { destruct re as [|c re]; [done|]. apply Forall_cons in Hp as [(Hc & _) _]. unfold Find.match_, match_. by rewrite (proj2 (Z.eqb_neq _ _) Hc). }
  rewrite Hm, match_tails_iff. split.
  - intros (pre & t & -> & (post & ->)%Hh). by exists pre, post.
  - intros (pre & post & ->). exists pre, (re ++ post). split; [done|]. apply Hh. by exists post.
Qed.

Section backwards.
Context {W : Type} `{Tree W} {G : Type} `{Rounds}.

(** C39: [find] passes the arguments of [match] in the wrong order.  For a file whose name is made of ordinary characters, [find path name] prints the path exactly when
    the name of the file is a part of [^.*name.*$], where [name] being a part of the name of the file is meant. *)
Theorem find_matches_backwards prog path name t (w : W) (g : G) :
  resolve path = Some (Leaf t) -> t = T_FILE \/ t = T_DEVICE -> Forall is_byte path -> ordinary (basename path) -> (length name <= 249)%nat -> (size (fds w) < limit)%nat ->
  ends (Find.main [prog; path; name]) (fun code s' => code = 0 /\
    exists bs, shown (world s') = shown w ++ bs /\ (bs = [] \/ bs = path ++ [10]) /\
      (bs <> [] <-> exists pre post, s2b "^.*" ++ name ++ s2b ".*$" = pre ++ basename path ++ post)) (mkUst w g).
Proof.
  intros Hr Ht Hb Hp Hn Hl. unfold Find.main. rewrite (proj2 (Nat.ltb_ge _ _)) by lia. cbv zeta. set (text := s2b "^.*" ++ name ++ s2b ".*$"). apply ends_bind.
  eapply wp_mono; [apply (find_walk text 512 path (Leaf t) w g); [lia|lia|by constructor|done|simpl; lia]|]. intros [] s' (_ & _ & Hs). apply ends_exit. split; [done|].
  exists (found text path (Leaf t)). split; [done|]. pose proof (match_plain (basename path) text Hp) as Hm. cbn [found]. rewrite <- Hm. destruct (Find.match_ (basename path) text).
  - split; [by right|]. split; [done|]. intros _ E. by apply app_nil in E as [_ ?].
  - split; [by left|]. by split.
Qed.
End backwards.

(** *** A tree *)

Module SampleTree.
Definition fname (s : string) : list Z := strncpy (s2b s) DIRSIZ.
Definition tree : node := Dir [(1, fname ".", Leaf T_FILE); (2, fname "xfoo", Leaf T_FILE); (3, fname "o", Leaf T_DEVICE); (0, fname "gone", Leaf T_FILE);
  (4, fname "sub", Dir [(4, fname ".", Leaf T_FILE); (1, fname "..", Leaf T_FILE); (5, fname "foo", Leaf T_FILE)])].

(** Every path of a tree with its node. *)
Fixpoint paths (path : list Z) (n : node) : list (list Z * node) :=
  (path, n) :: match n with
               | Leaf _ => []
               | Dir es => flat_map (fun e => if skipped e then [] else let '(_, name, n') := e in paths (below path name) n') es
               end.
Definition at_path (path : list Z) : option node := snd <$> head (filter (fun pn => pn.1 = path) (paths (s2b "d") tree)).

Record world : Type := mkWorld { handles : gmap Z (node * nat); out : list Z }.

(** [fdalloc] takes the first descriptor that is free. *)
Definition free_fd (m : gmap Z (node * nat)) : option Z := head (filter (fun fd => m !! fd = None) (seqZ 0 16)).
Definition open (path : list Z) (_ : Z) (w : world) : Z * world :=
  match at_path path, free_fd (handles w) with
  | Some n, Some fd => (fd, mkWorld (<[fd := (n, 0%nat)]> (handles w)) (out w))
  | _, _ => (-1, w)
  end.
Definition fstat (fd : Z) (w : world) : (Z * ustat) * world :=
  match handles w !! fd with Some (n, _) => ((0, mkUstat 1 1 (node_type n) 1 0), w) | None => ((-1, no_stat), w) end.
Definition read (fd n : Z) (w : world) : (Z * list Z) * world :=
  match handles w !! fd with
  | Some (Dir es, k) =>
      match (es : list entry) !! k with
      | Some e => ((n, dirent e), mkWorld (<[fd := (Dir es, S k)]> (handles w)) (out w))
      | None => ((0, []), w)
      end
  | _ => ((-1, []), w)
  end.
Definition close (fd : Z) (w : world) : Z * world := (0, mkWorld (delete fd (handles w)) (out w)).
Definition write (_ : Z) (bs : list Z) (w : world) : Z * world := (Z.of_nat (length bs), mkWorld (handles w) (out w ++ bs)).
Definition fails (w : world) : Z * world := (-1, w).

#[export] Instance kernel : Kernel world := {|
  sc_fork := fails; sc_wait := fun w => ((-1, 0), w); sc_pipe := fun w => ((-1, 0, 0), w);
  sc_read := read; sc_write := write; sc_close := close; sc_kill := fun _ => fails;
  sc_exec := fun _ _ w => Some (fails w); sc_open := open; sc_mknod := fun _ _ _ => fails;
  sc_unlink := fun _ => fails; sc_fstat := fstat; sc_link := fun _ _ => fails;
  sc_mkdir := fun _ => fails; sc_chdir := fun _ => fails; sc_dup := fun _ => fails; sc_getpid := fails;
  sc_sbrk := fun _ => fails; sc_sleep := fun _ => fails; sc_uptime := fails; sc_ttyraw := fun _ => fails |}.

Lemma free_fd_some m : (size m < 16)%nat -> exists fd, free_fd m = Some fd /\ 0 <= fd /\ m !! fd = None.
Proof.
  intros Hs. unfold free_fd. destruct (filter (fun fd => m !! fd = None) (seqZ 0 16)) as [|fd l] eqn:E.
  - exfalso. assert (Hsub : list_to_set (seqZ 0 16) ⊆ dom m).
    { intros fd Hfd%elem_of_list_to_set. apply elem_of_dom. destruct (m !! fd) eqn:Em; [done|]. exfalso. apply (not_elem_of_nil fd). rewrite <- E. by apply list_elem_of_filter. }
    apply subseteq_size in Hsub. rewrite size_list_to_set, size_dom, length_seqZ in Hsub by apply NoDup_seqZ. simpl in Hsub. lia.
  - assert (Hin : fd ∈ filter (fun fd => m !! fd = None) (seqZ 0 16)) by (rewrite E; left). apply list_elem_of_filter in Hin as [Hn Hin%elem_of_seqZ]. exists fd. split_and!; [done|lia|done].
Qed.

#[export] Instance tree_world : Tree world.
Proof.
  refine {| resolve := at_path; limit := 16; fds := handles; shown := out |}.
  - intros w path n Hr Hs. destruct (free_fd_some (handles w) Hs) as (fd & Hf & H0 & Hn). exists fd, (mkWorld (<[fd := (n, 0%nat)]> (handles w)) (out w)). split_and!; [|done|done|done|done].
    cbn. unfold open. by rewrite Hr, Hf.
  - intros w fd n k Hf. exists (mkUstat 1 1 (node_type n) 1 0), w. split_and!; [|done|done|done]. cbn. unfold fstat. by rewrite Hf.
  - intros w fd es k Hf. unfold sc_read, kernel, read. rewrite Hf. destruct (es !! k) as [e|] eqn:E; simpl; unfold entry in *; rewrite ?E; [|by exists w].
    by exists (mkWorld (<[fd := (Dir es, S k)]> (handles w)) (out w)).
  - intros w fd n k Hf. by exists (mkWorld (delete fd (handles w)) (out w)).
  - intros w bs. by exists (mkWorld (handles w) (out w ++ bs)).
Defined.

Definition start : world := mkWorld {[ 0 := (Leaf T_DEVICE, 0%nat); 1 := (Leaf T_DEVICE, 0%nat); 2 := (Leaf T_DEVICE, 0%nat) ]} [].
End SampleTree.

#[local] Existing Instances SampleTree.kernel SampleTree.tree_world.
#[local] Instance five : Rounds := 5%nat.

Definition good_entry (path : list Z) (e : entry) : Prop :=
  let '(inum, name, n) := e in 0 <= inum < 2 ^ 16 /\ length name = DIRSIZ /\ Forall is_byte name /\ (skipped e = false -> placed (W := SampleTree.world) (below path name) n).

Lemma placed_entries path es : resolve (W := SampleTree.world) path = Some (Dir es) -> (length es <= rounds)%nat -> Forall (good_entry path) es -> placed (W := SampleTree.world) path (Dir es).
Proof. intros Hr Hl He. constructor; [done|done|]. intros inum name n Hin. exact (proj1 (Forall_forall _ _) He _ Hin). Qed.

Lemma bytes_check bs : forallb (fun c => (0 <=? c) && (c <? 256)) bs = true -> Forall is_byte bs.
Proof.
  intros Hb. apply Forall_forall. intros c Hc%list_elem_of_In. apply (proj1 (forallb_forall _ _) Hb), andb_true_iff in Hc as [Hc1%Z.leb_le Hc2%Z.ltb_lt]. unfold is_byte. lia.
Qed.

Ltac good := split_and!; [lia|lia|reflexivity|apply bytes_check; reflexivity|].

Lemma sample_placed : placed (W := SampleTree.world) (s2b "d") SampleTree.tree.
Proof.
  apply placed_entries; [vm_compute; reflexivity|simpl; unfold rounds, five; lia|].
  apply Forall_cons; split; [good; by intros E; vm_compute in E|]. apply Forall_cons; split; [good; intros _; constructor; [vm_compute; reflexivity|by left]|].
  apply Forall_cons; split; [good; intros _; constructor; [vm_compute; reflexivity|by right]|]. apply Forall_cons; split; [good; by intros E; vm_compute in E|].
  apply Forall_cons; split; [good; intros _|apply Forall_nil_2]. apply placed_entries; [vm_compute; reflexivity|simpl; unfold rounds, five; lia|].
  do 2 (apply Forall_cons; split; [good; by intros E; vm_compute in E|]). apply Forall_cons; split; [|apply Forall_nil_2].
  good. intros _; constructor; [vm_compute; reflexivity|by left].
Qed.

Lemma find_prints_tree_witness :
  ends (Find.main [s2b "find"; s2b "d"; s2b "foo"]) (fun code s' => code = 0 /\ SampleTree.out (world s') = s2b "d/o" ++ [10] ++ s2b "d/sub/foo" ++ [10]) (mkUst SampleTree.start tt).
Proof.
  assert (Hf : found (s2b "^.*" ++ s2b "foo" ++ s2b ".*$") (s2b "d") SampleTree.tree = s2b "d/o" ++ [10] ++ s2b "d/sub/foo" ++ [10]) by (vm_compute; reflexivity).
  rewrite <- Hf. pose proof (find_prints_tree (s2b "find") (s2b "d") (s2b "foo") SampleTree.tree SampleTree.start tt sample_placed
    ltac:(apply bytes_check; reflexivity) ltac:(apply Nat.leb_le; reflexivity) ltac:(apply Nat.leb_le; vm_compute; reflexivity)) as H.
  revert H. unfold ends. destruct (Find.main _ _) as [|[code s'| | |]|]; try done. intros (Hc & _ & Ho). exact (conj Hc Ho).
Defined.

Lemma find_matches_backwards_witness :
  ends (Find.main [s2b "find"; s2b "d/xfoo"; s2b "foo"]) (fun code s' => code = 0 /\ exists bs, SampleTree.out (world s') = bs /\
    (bs <> [] <-> exists pre post, s2b "^.*foo.*$" = pre ++ s2b "xfoo" ++ post)) (mkUst SampleTree.start tt).
Proof.
  pose proof (@find_matches_backwards SampleTree.world SampleTree.kernel SampleTree.tree_world unit five (s2b "find") (s2b "d/xfoo") (s2b "foo") T_FILE SampleTree.start tt ltac:(vm_compute; reflexivity) ltac:(by left)
    ltac:(apply bytes_check; reflexivity) ltac:(repeat constructor; discriminate) ltac:(apply Nat.leb_le; reflexivity) ltac:(apply Nat.ltb_lt; vm_compute; reflexivity)) as H.
  revert H. unfold ends. destruct (Find.main _ _) as [|[code s'| | |]|]; try done. intros (Hc & bs & Ho & _ & Hb). exact (conj Hc (ex_intro _ bs (conj Ho Hb))).
Defined.
