(* ===== verification/Grind.v ===== *)
(** [user/grind.c]: system calls chosen at random, for ever.

    [go] and [main] never end of their own accord: in the model they go [rounds] times.  The random numbers are those
    of the Park-Miller generator: [do_rand] computes them without overflow. *)
From Stdlib Require Import Ascii.
From S2P Require Import Prelude Machine Usys Ulib Uprintf Cmds.
From Stdlib Require Import ZArith Lia.
From stdpp Require Import base strings numbers gmap list.
Local Open Scope Z_scope.
Local Open Scope m_scope.

Module Grind.

(** The static variables: [rand_next], and [buf] of [go]. *)
Record statics : Type := mkStatics { rand_next : Z; buf : list Z }.
Definition set_rand_next (x : Z) (g : statics) : statics := mkStatics x (buf g).

(** The arithmetic, on signed integers of [w] bits. *)
Definition do_rand_at (w ctx : Z) : Z :=
  let x := swrap w (ctx mod 0x7ffffffe + 1) in
  let hi := swrap w (Z.quot x 127773) in
  let lo := swrap w (Z.rem x 127773) in
  let x := swrap w (swrap w (16807 * lo) - swrap w (2836 * hi)) in
  let x := if x <? 0 then swrap w (x + 0x7fffffff) else x in
  swrap w (x - 1).
(** It is done on a [long]. *)
Definition do_rand (ctx : Z) : Z := do_rand_at 64 ctx.

Definition quoted (s : string) : string := String (Ascii.ascii_of_nat 34) (String.append s (String (Ascii.ascii_of_nat 34) EmptyString)).

Section program.
Context {W : Type} `{Kernel W} `{Rounds}.
Local Abbreviation P := (U W statics).

Definition rand : P Z :=
  ctx <- get_glob rand_next ;;
  let x := do_rand ctx in
  upd_glob (set_rand_next (u64 x)) ;;
  ret (s32 x).

Definition rw : Z := Z.lor O_CREATE O_RDWR.
Definition create_close (path : string) : P unit := fd <- open (s2b path) rw ;; close fd ;; ret tt.
Definition fail {A} (what : string) : P A := printf (nl what) [] ;; exit 1.

(** [fork] in its usual form: what the child does before it exits, what the parent does with its number. *)
Definition fork_do (child : P unit) (parent : Z -> P unit) : P unit :=
  pid <- fork ;;
  if pid =? 0 then child ;; exit 0 else
  if pid <? 0 then fail "grind: fork failed" else
  parent pid.
Definition wait0 : P unit := wait ;; ret tt.

Definition what17 : P unit :=
  fork_do (create_close "a")
    (fun pid =>
      r <- chdir (s2b "../grindir/..") ;;
      if negb (r =? 0) then fail "grind: chdir failed" else
      kill pid ;;
      wait0).

Definition what19 : P unit :=
  let! (r, fds0, fds1) := pipe in
  if r <? 0 then fail "grind: pipe failed" else
  fork_do
    (fork ;;
     fork ;;
     r <- write fds1 (s2b "x") ;;
     when (negb (r =? 1)) (printf (nl "grind: pipe write failed") []) ;;
     let! (r, _) := read fds0 1 in
     when (negb (r =? 1)) (printf (nl "grind: pipe read failed") []))
    (fun _ => close fds0 ;; close fds1 ;; wait0).

Definition what20 : P unit :=
  fork_do
    (unlink (s2b "a") ;;
     mkdir (s2b "a") ;;
     chdir (s2b "a") ;;
     unlink (s2b "../a") ;;
     open (s2b "x") rw ;;
     unlink (s2b "x") ;;
     ret tt)
    (fun _ => wait0).

Definition what21 : P unit :=
  unlink (s2b "c") ;;
  fd1 <- open (s2b "c") rw ;;
  if fd1 <? 0 then fail "grind: create c failed" else
  r <- write fd1 (s2b "x") ;;
  if negb (r =? 1) then fail "grind: write c failed" else
  let! (r, st) := fstat fd1 in
  if negb (r =? 0) then fail "grind: fstat failed" else
  if negb (us_size st =? 1) then printf (nl "grind: fstat reports wrong size %d") [UInt (s32 (us_size st))] ;; exit 1 else
  if 200 <? us_ino st then printf (nl "grind: fstat reports crazy i-number %d") [UInt (us_ino st)] ;; exit 1 else
  close fd1 ;;
  unlink (s2b "c") ;;
  ret tt.

(** [dup] of a descriptor that is to become [n]. *)
Definition dup_as (n fd code : Z) : P unit :=
  close n ;;
  r <- dup fd ;;
  if negb (r =? n) then fprintf 2 (nl "grind: dup failed") [] ;; exit code else
  close fd ;;
  ret tt.

Definition echo_child (aa0 aa1 bb0 bb1 : Z) : P unit :=
  close bb0 ;;
  close bb1 ;;
  close aa0 ;;
  dup_as 1 aa1 1 ;;
  exec (s2b "grindir/../echo") [s2b "echo"; s2b "hi"] ;;
  fprintf 2 (nl "grind: echo: not found") [] ;;
  exit 2.

Definition cat_child (aa0 aa1 bb0 bb1 : Z) : P unit :=
  close aa1 ;;
  close bb0 ;;
  dup_as 0 aa0 4 ;;
  dup_as 1 bb1 5 ;;
  exec (s2b "/cat") [s2b "cat"] ;;
  fprintf 2 (nl "grind: cat: not found") [] ;;
  exit 6.

(** [read(fd, buf + k, 1)] *)
Definition read_byte (fd : Z) (k : nat) (b : list Z) : P (list Z) :=
  let! (_, bs) := read fd 1 in
  ret (match bs with c :: _ => <[k := c]> b | [] => b end).

Definition what22 : P unit :=
  let! (r, aa0, aa1) := pipe in
  if r <? 0 then fprintf 2 (nl "grind: pipe failed") [] ;; exit 1 else
  let! (r, bb0, bb1) := pipe in
  if r <? 0 then fprintf 2 (nl "grind: pipe failed") [] ;; exit 1 else
  pid1 <- fork ;;
  if pid1 =? 0 then echo_child aa0 aa1 bb0 bb1 else
  if pid1 <? 0 then fprintf 2 (nl "grind: fork failed") [] ;; exit 3 else
  pid2 <- fork ;;
  if pid2 =? 0 then cat_child aa0 aa1 bb0 bb1 else
  if pid2 <? 0 then fprintf 2 (nl "grind: fork failed") [] ;; exit 7 else
  close aa0 ;;
  close aa1 ;;
  close bb1 ;;
  b <- read_byte bb0 0 [0; 0; 0; 0] ;;
  b <- read_byte bb0 1 b ;;
  b <- read_byte bb0 2 b ;;
  close bb0 ;;
  let! (_, st1) := wait in
  let! (_, st2) := wait in
  if negb (st1 =? 0) || negb (st2 =? 0) || negb (strcmp (cstring b) (s2b (nl "hi")) =? 0) then
    printf (nl (String.append "grind: exec pipeline failed %d %d " (quoted "%s"))) [UInt st1; UInt st2; UStr (Some (cstring b))] ;;
    exit 1
  else ret tt.

(** One round of [go]: the descriptor [fd] after it. *)
Definition act (what break0 fd : Z) : P Z :=
  match what with
  | 1 => create_close "grindir/../a" ;; ret fd
  | 2 => create_close "grindir/../grindir/../b" ;; ret fd
  | 3 => unlink (s2b "grindir/../a") ;; ret fd
  | 4 =>
      r <- chdir (s2b "grindir") ;;
      if negb (r =? 0) then fail "grind: chdir grindir failed" else
      unlink (s2b "../b") ;;
      chdir (s2b "/") ;;
      ret fd
  | 5 => close fd ;; open (s2b "/grindir/../a") rw
  | 6 => close fd ;; open (s2b "/./grindir/./../b") rw
  | 7 => b <- get_glob buf ;; write fd b ;; ret fd
  | 8 =>
      let! (_, bs) := read fd 999 in
      upd_glob (fun g => mkStatics (rand_next g) (bs ++ drop (length bs) (buf g))) ;;
      ret fd
  | 9 => mkdir (s2b "grindir/../a") ;; create_close "a/../a/./a" ;; unlink (s2b "a/a") ;; ret fd
  | 10 => mkdir (s2b "/../b") ;; create_close "grindir/../b/b" ;; unlink (s2b "b/b") ;; ret fd
  | 11 => unlink (s2b "b") ;; link (s2b "../grindir/./../a") (s2b "../b") ;; ret fd
  | 12 => unlink (s2b "../grindir/../a") ;; link (s2b ".././b") (s2b "/grindir/../a") ;; ret fd
  | 13 => fork_do (ret tt) (fun _ => wait0) ;; ret fd
  | 14 => fork_do (fork ;; fork ;; ret tt) (fun _ => wait0) ;; ret fd
  | 15 => sbrk 6011 ;; ret fd
  | 16 =>
      b <- sbrk 0 ;;
      (if break0 <? b then b <- sbrk 0 ;; sbrk (s32 (- (b - break0))) ;; ret tt else ret tt) ;;
      ret fd
  | 17 => what17 ;; ret fd
  | 18 => fork_do (pid <- getpid ;; kill pid ;; ret tt) (fun _ => wait0) ;; ret fd
  | 19 => what19 ;; ret fd
  | 20 => what20 ;; ret fd
  | 21 => what21 ;; ret fd
  | 22 => what22 ;; ret fd
  | _ => ret fd
  end.

Definition go (which_child : Z) : P unit :=
  break0 <- sbrk 0 ;;
  mkdir (s2b "grindir") ;;
  r <- chdir (s2b "grindir") ;;
  if negb (r =? 0) then fail "grind: chdir grindir failed" else
  chdir (s2b "/") ;;
  while_fuel UFuel rounds (fun '(fd, iters) =>
    let iters := u64 (iters + 1) in
    when (iters mod 500 =? 0) (write 1 (if which_child =? 0 then s2b "A" else s2b "B") ;; ret tt) ;;
    r <- rand ;;
    fd <- act (Z.rem r 23) break0 fd ;;
    ret (inl (fd, iters))) (-1, 0).

Definition iter : P unit :=
  unlink (s2b "a") ;;
  unlink (s2b "b") ;;
  pid1 <- fork ;;
  if pid1 <? 0 then fail "grind: fork failed" else
  if pid1 =? 0 then
    upd_glob (fun g => set_rand_next (Z.lxor (rand_next g) 31) g) ;;
    go 0 ;;
    exit 0
  else
  pid2 <- fork ;;
  if pid2 <? 0 then fail "grind: fork failed" else
  if pid2 =? 0 then
    upd_glob (fun g => set_rand_next (Z.lxor (rand_next g) 7177) g) ;;
    go 1 ;;
    exit 0
  else
  let! (r, st) := wait in
  let st1 := if r <? 0 then -1 else st in
  when (negb (st1 =? 0)) (kill pid1 ;; kill pid2 ;; ret tt) ;;
  wait ;;
  exit 0.

Definition main : P unit :=
  while_fuel UFuel rounds (fun _ : unit =>
    pid <- fork ;;
    if pid =? 0 then iter ;; exit 0 else
    when (0 <? pid) wait0 ;;
    sleep 20 ;;
    upd_glob (fun g => set_rand_next (u64 (rand_next g + 1)) g) ;;
    ret (inl tt)) tt.
End program.

(** ** The generator *)

Definition modulus : Z := 2 ^ 31 - 1.

(** The generator of the comment never gives 0. *)
Lemma lcg_nonzero x : 0 < x < modulus -> (16807 * x) mod modulus <> 0.
Proof.
  intros Hx Hz. assert (Hd : (modulus | 16807 * x)) by (apply Z.mod_divide; [done|exact Hz]).
  pose proof (Z.gauss _ _ _ Hd ltac:(reflexivity)) as Hr. apply Z.divide_pos_le in Hr; lia.
Qed.

(** Schrage's decomposition of the product. *)
Lemma schrage x : 0 < x < modulus ->
  let y := 16807 * (x mod 127773) - 2836 * (x / 127773) in (if y <? 0 then y + modulus else y) = (16807 * x) mod modulus.
Proof.
  intros Hx y. assert (Hy : y = 16807 * x - modulus * (x / 127773)) by (unfold y, modulus; pose proof (Z.div_mod x 127773 ltac:(lia)); lia).
  assert (Hb : - modulus < y < modulus) by (unfold y, modulus in *; Z.to_euclidean_division_equations; lia).
  assert (He : (16807 * x) mod modulus = y mod modulus) by (rewrite Hy; replace (16807 * x - modulus * (x / 127773)) with (16807 * x + (- (x / 127773)) * modulus) by lia; by rewrite Z.mod_add).
  rewrite He. destruct (Z.ltb_spec y 0); [|symmetry; apply Z.mod_small; lia]. rewrite <- (Z.mod_add y 1 modulus), Z.mul_1_l by done. symmetry. apply Z.mod_small. lia.
Qed.

Lemma do_rand_at_spec w ctx : 32 <= w -> do_rand_at w ctx + 1 = (16807 * (ctx mod 0x7ffffffe + 1)) mod modulus /\ 0 <= do_rand_at w ctx <= 0x7ffffffd.
Proof.
  intros Hw. unfold do_rand_at. cbv zeta. pose proof (Z.mod_pos_bound ctx 0x7ffffffe ltac:(lia)) as Hm. set (x := ctx mod 0x7ffffffe + 1) in *.
  assert (Hp : 2 ^ 31 <= 2 ^ (w - 1)) by (apply Z.pow_le_mono_r; lia). assert (Hs : forall v, - 2 ^ 31 <= v < 2 ^ 31 -> swrap w v = v) by (intros v Hv; apply swrap_small; lia).
  assert (Hx : 0 < x < modulus) by (unfold modulus; lia). pose proof (schrage x Hx) as Hsc. cbv zeta in Hsc. pose proof (lcg_nonzero x Hx) as Hnz. pose proof (Z.mod_pos_bound (16807 * x) modulus ltac:(done)) as Hr.
  rewrite (Hs x) by (unfold modulus in Hx; lia). rewrite Z.quot_div_nonneg, Z.rem_mod_nonneg by lia.
  assert (Hq : 0 <= x / 127773 <= 16807 /\ 0 <= x mod 127773 < 127773) by (unfold modulus in Hx; Z.to_euclidean_division_equations; lia).
  rewrite (Hs (x / 127773)), (Hs (x mod 127773)), (Hs (16807 * _)), (Hs (2836 * _)) by lia. rewrite (Hs (16807 * _ - _)) by lia. change 0x7fffffff with modulus in *.
  set (y := 16807 * (x mod 127773) - 2836 * (x / 127773)) in *. assert (Hy : - 2 ^ 31 <= y < 2 ^ 31) by (unfold y; lia).
  replace (if y <? 0 then swrap w (y + modulus) else y) with ((16807 * x) mod modulus).
  - unfold modulus in *. rewrite Hs by lia. lia.
  - rewrite <- Hsc. destruct (Z.ltb_spec y 0); [|done]. rewrite Hs; [done|]. unfold modulus. lia.
Qed.

(** C33: [do_rand] is the Park-Miller generator: from any state, with [x] the state brought into [1, 2^31 - 2], the new state is one less than [7^5 * x mod (2^31 - 1)], which is never 0;
    and as the comment says no step needs more than 32 bits, so that the same arithmetic on an [int] gives the same numbers. *)
Theorem do_rand_park_miller (ctx : Z) :
  do_rand ctx + 1 = (7 ^ 5 * (ctx mod 0x7ffffffe + 1)) mod (2 ^ 31 - 1) /\ 0 <= do_rand ctx <= 0x7ffffffd /\ do_rand_at 32 ctx = do_rand ctx.
Proof.
  destruct (do_rand_at_spec 64 ctx ltac:(lia)) as [H1 H2], (do_rand_at_spec 32 ctx ltac:(lia)) as [H3 H4]. change (7 ^ 5) with 16807. change (2 ^ 31 - 1) with modulus. unfold do_rand. split_and!; [done|lia|lia|lia].
Qed.
End Grind.
