(* ===== verification/Sh.v ===== *)
(** [user/sh.c]: the line editor, the parser of commands and the code that runs them.

    The parser works on the line typed, a string without its NUL, and keeps the index [s] as
    its state; a command holds the bounds of its words in the line.  [nulterminate] then
    stores a NUL at the end of every word.  [malloc] is taken to succeed: commands are values. *)
From Stdlib Require Import Ascii.
From S2P Require Import Prelude Machine Usys Ulib Uprintf Cmds.
From Stdlib Require Import ZArith Lia.
From stdpp Require Import base strings numbers gmap list.
Local Open Scope Z_scope.
Local Open Scope m_scope.

Module Sh.
Definition MAXARGS : nat := 10.
Definition MAX_HISTORY : Z := 16.
Definition MAX_LINE : nat := 128.
Definition nbuf : nat := 100.

(** ** Commands *)

(** A command over words of type [A]. *)
Inductive command (A : Type) : Type :=
| EXEC (argv : list A)
| REDIR (c : command A) (file : A) (mode fd : Z)
| PIPE (left right : command A)
| LIST (left right : command A)
| BACK (c : command A).
Arguments EXEC {A} argv.
Arguments REDIR {A} c file mode fd.
Arguments PIPE {A} left right.
Arguments LIST {A} left right.
Arguments BACK {A} c.

(** In the program a word is the pair of its bounds, [argv[i]] and [eargv[i]], or [file] and [efile]. *)
Definition cmd : Type := command (nat * nat).

(** What [parseredirs] puts around a command: the file, the mode and the descriptor. *)
Definition redir (A : Type) : Type := A * (Z * Z).
Definition redircmd {A} (c : command A) (r : redir A) : command A := REDIR c r.1 r.2.1 r.2.2.

(** ** The parser *)

(** How the parser ends other than by returning: a call of [panic], or the bound of the model. *)
Inductive perr : Type := Syntax (msg : string) | OutOfFuel.

Definition whitespace : list Z := [32; 9; 13; 10; 11].
Definition symbols : list Z := s2b "<|>&;()".
Definition is_white (c : Z) : bool := is_some (strchr whitespace c).
Definition is_symbol (c : Z) : bool := is_some (strchr symbols c).
Definition is_word (c : Z) : bool := negb (is_white c) && negb (is_symbol c).

(** [while(s < es && p( *s)) s++], as the number of steps from what follows [s]. *)
Fixpoint span (p : Z -> bool) (rest : list Z) : nat :=
  match rest with
  | [] => O
  | c :: rest' => if p c then S (span p rest') else O
  end.

Section parser.
Context (line : list Z).

Definition P (A : Type) : Type := M perr nat A.
Definition at_ (s : nat) : Z := default 0 (line !! s).
Definition skip (p : Z -> bool) (s : nat) : nat := (s + span p (drop s line))%nat.

(** The token, and where it starts and ends. *)
Definition gettoken : P (Z * (nat * nat)) :=
  s <- Prelude.gets id ;;
  let s := skip is_white s in
  let q := s in
  let c := at_ s in
  let '(r, s) :=
    if c =? 0 then (c, s)
    else if is_some (strchr (s2b "|();&<") c) then (c, S s)
    else if c =? chr ">" then
      if at_ (S s) =? chr ">" then (chr "+", S (S s)) else (c, S s)
    else (chr "a", skip is_word s) in
  let eq := s in
  modify (fun _ => skip is_white s) ;;
  ret (r, (q, eq)).

Definition peek (toks : string) : P bool :=
  s <- Prelude.gets id ;;
  let s := skip is_white s in
  modify (fun _ => s) ;;
  ret (negb (at_ s =? 0) && is_some (strchr (s2b toks) (at_ s))).

(** The loop of [parseredirs], which gives the redirections after those in [rs]. *)
Definition parseredirs (rs : list (redir (nat * nat))) : P (list (redir (nat * nat))) :=
  while_fuel OutOfFuel (S (length line)) (fun rs =>
    b <- peek "<>" ;;
    if negb b then ret (inr rs) else
    let! (tok, _) := gettoken in
    let! (a, file) := gettoken in
    if negb (a =? chr "a") then stop (Syntax "missing file for redirection") else
    ret (inl (rs ++ [(file,
      if tok =? chr "<" then (O_RDONLY, 0)
      else if tok =? chr ">" then (Z.lor (Z.lor O_WRONLY O_CREATE) O_TRUNC, 1)
      else (Z.lor O_WRONLY O_CREATE, 1))]))) rs.

(** A parenthesised command, where [parseline] is the recursive call. *)
Definition parseblock (parseline : P cmd) : P cmd :=
  b <- peek "(" ;;
  if negb b then stop (Syntax "parseblock") else
  gettoken ;;
  c <- parseline ;;
  b <- peek ")" ;;
  if negb b then stop (Syntax "syntax - missing )") else
  gettoken ;;
  rs <- parseredirs [] ;;
  ret (fold_left redircmd rs c).

(** A simple command: its words are stored in a structure around which the redirections
    have been put already, so the two are kept apart until the end. *)
Definition parseexec (parseline : P cmd) : P cmd :=
  b <- peek "(" ;;
  if b then parseblock parseline else
  rs <- parseredirs [] ;;
  let! (argv, rs) := while_fuel OutOfFuel (S (length line)) (fun x => let '(argv, rs) := x in
    b <- peek "|)&;" ;;
    if b then ret (inr (argv, rs)) else
    let! (tok, word) := gettoken in
    if tok =? 0 then ret (inr (argv, rs)) else
    if negb (tok =? chr "a") then stop (Syntax "syntax") else
    let argv := argv ++ [word] in
    if (MAXARGS <=? length argv)%nat then stop (Syntax "too many args") else
    rs <- parseredirs rs ;;
    ret (inl (argv, rs))) ([], rs) in
  ret (fold_left redircmd rs (EXEC argv)).

(** [fuel] bounds the depth of the calls. *)
Fixpoint parsepipe (parseline : P cmd) (fuel : nat) : P cmd :=
  match fuel with
  | O => stop OutOfFuel
  | S fuel' =>
      c <- parseexec parseline ;;
      b <- peek "|" ;;
      if b then
        gettoken ;;
        r <- parsepipe parseline fuel' ;;
        ret (PIPE c r)
      else ret c
  end.

(** [while(peek(ps, es, "&"))] *)
Definition parsebacks (c : cmd) : P cmd :=
  while_fuel OutOfFuel (S (length line)) (fun c =>
    b <- peek "&" ;;
    if negb b then ret (inr c) else
    gettoken ;;
    ret (inl (BACK c))) c.

Fixpoint parseline (fuel : nat) : P cmd :=
  match fuel with
  | O => stop OutOfFuel
  | S fuel' =>
      c <- parsepipe (parseline fuel') (S (length line)) ;;
      c <- parsebacks c ;;
      b <- peek ";" ;;
      if b then
        gettoken ;;
        r <- parseline fuel' ;;
        ret (LIST c r)
      else ret c
  end.

(** [parsecmd] without [nulterminate]; it stops with the index where the leftovers are. *)
Definition parse : P (cmd + nat) :=
  c <- parseline (S (length line)) ;;
  peek "" ;;
  s <- Prelude.gets id ;;
  if negb (s =? length line)%nat then ret (inr s) else
  ret (inl c).
End parser.

(** The array with a NUL stored at the end of every word. *)
Fixpoint nulterminate (buf : list Z) (c : cmd) : list Z :=
  match c with
  | EXEC argv => fold_left (fun b w => <[w.2 := 0]> b) argv buf
  | REDIR c file _ _ => <[file.2 := 0]> (nulterminate buf c)
  | PIPE l r => nulterminate (nulterminate buf l) r
  | LIST l r => nulterminate (nulterminate buf l) r
  | BACK c => nulterminate buf c
  end.

(** ** Running commands *)

Section run.
Context {W : Type} `{Kernel W} {G : Type}.

Definition panic {A} (s : string) : U W G A :=
  fprintf 2 (nl "%s") [UStr (Some (s2b s))] ;;
  exit 1.

Definition fork1 : U W G Z :=
  pid <- fork ;;
  if pid =? -1 then panic "fork" else ret pid.

(** The string a word is, in the array after [nulterminate]. *)
Definition word (buf : list Z) (w : nat * nat) : list Z := cstring (drop w.1 buf).

(** [runcmd] never returns, so what follows a call of it in the code is what the other side of
    the [fork] does. *)
Fixpoint runcmd (buf : list Z) (c : cmd) : U W G unit :=
  match c with
  | EXEC argv =>
      match argv with
      | [] => exit 1
      | a :: _ =>
          exec (word buf a) (word buf <$> argv) ;;
          fprintf 2 (nl "exec %s failed") [UStr (Some (word buf a))] ;;
          exit 0
      end
  | REDIR c file mode fd =>
      close fd ;;
      r <- open (word buf file) mode ;;
      if r <? 0 then
        fprintf 2 (nl "open %s failed") [UStr (Some (word buf file))] ;;
        exit 1
      else
      runcmd buf c ;;
      exit 0
  | LIST l r =>
      pid <- fork1 ;;
      when (pid =? 0) (runcmd buf l) ;;
      wait ;;
      runcmd buf r ;;
      exit 0
  | PIPE l r =>
      let! (n, p0, p1) := pipe in
      if n <? 0 then panic "pipe" else
      pid <- fork1 ;;
      when (pid =? 0) (
        close 1 ;;
        dup p1 ;;
        close p0 ;;
        close p1 ;;
        runcmd buf l) ;;
      pid <- fork1 ;;
      when (pid =? 0) (
        close 0 ;;
        dup p0 ;;
        close p0 ;;
        close p1 ;;
        runcmd buf r) ;;
      close p0 ;;
      close p1 ;;
      wait ;;
      wait ;;
      exit 0
  | BACK c =>
      pid <- fork1 ;;
      when (pid =? 0) (runcmd buf c) ;;
      exit 0
  end.

(** The command of the line in the array [buf], and the array after the words have been ended. *)
Definition parsecmd (buf : list Z) : U W G (list Z * cmd) :=
  let line := cstring buf in
  match parse line 0%nat with
  | Ok (inl c) _ => ret (nulterminate buf c, c)
  | Ok (inr s) _ =>
      fprintf 2 (nl "leftovers: %s") [UStr (Some (drop s line))] ;;
      panic "syntax"
  | Stop (Syntax msg) => panic msg
  | _ => stop UFuel
  end.
End run.

(** ** The line editor *)

(** [history], [history_count] and [history_index]; an entry is the string it holds. *)
Record shell : Type := mkShell { history : list (list Z); history_count : Z; history_index : Z }.
Definition shell0 : shell := mkShell (replicate 16 []) 0 0.

Section editor.
Context {W : Type} `{Kernel W} `{Rounds}.

Definition rubout : list Z := [8; 32; 8].

(** [while(n > 0)] rub out a character *)
Definition erase (n : nat) : U W shell unit := for_each (seq 0 n) (fun _ => write 1 rubout ;; ret tt).

(** The start of the word that ends before [j], the loop over [j]. *)
Fixpoint word_start (buf : list Z) (j : nat) : nat :=
  match j with
  | O => O
  | S k => if (default 0 (buf !! k) =? 32) || (default 0 (buf !! k) =? chr "/") then j else word_start buf k
  end.

(** The scan of the directory at [fd]: [found], and the first name that starts with the prefix. *)
Definition scan (fd : Z) (prefix : list Z) (len : nat) : U W shell (Z * list Z) :=
  while_fuel UFuel (S rounds) (fun x => let '(found, m) := x in
    let! (n, de) := read fd dirent_size in
    if negb (n =? dirent_size) then ret (inr (found, m)) else
    if de_inum de =? 0 then ret (inl (found, m)) else
    let name := cstring (de_name de) in
    if strncmp name prefix len =? 0 then
      if found =? 0 then ret (inl (1, name)) else ret (inr (2, m))
    else ret (inl (found, m))) (0, []).

(** [strcpy(buf + i, s)] *)
Definition copy_at (buf : list Z) (i : nat) (s : list Z) : U W shell (list Z) :=
  match strcpy (drop i buf) s with
  | Some b => ret (take i buf ++ b)
  | None => stop (UFault "strcpy: buf")
  end.

(** The array and the index after the completion. *)
Definition handle_tab_completion (buf : list Z) (i : nat) : U W shell (list Z * nat) :=
  let j := word_start buf i in
  let len := Nat.min (i - j) DIRSIZ in
  let prefix := cstring (strncpy (cstring (drop j buf)) len) in
  fd <- open (s2b ".") 0 ;;
  let! (found, m) := scan fd prefix len in
  close fd ;;
  if found =? 1 then
    erase (i - j) ;;
    buf <- copy_at buf j m ;;
    write 1 m ;;
    ret (buf, (j + length m)%nat)
  else if 1 <? found then
    write 1 ([10] ++ s2b "[ambiguous]" ++ [10]) ;;
    write 1 (take i buf) ;;
    ret (buf, i)
  else ret (buf, i).

Definition entry (k : Z) : U W shell (list Z) := get_glob (fun g => history g !!! Z.to_nat (Z.rem k MAX_HISTORY)).

(** Put the history entry [history_index] into the line. *)
Definition load_entry (buf : list Z) : U W shell (list Z * nat) :=
  k <- get_glob history_index ;;
  h <- entry k ;;
  buf <- copy_at buf 0 h ;;
  write 1 h ;;
  ret (buf, length h).

Definition set_index (f : Z -> Z) : U W shell unit :=
  upd_glob (fun g => mkShell (history g) (history_count g) (f (history_index g))).

(** The line is finished: it is saved unless it is empty or the same as the last one. *)
Definition save_line (buf : list Z) (cmd_len : nat) : U W shell unit :=
  count <- get_glob history_count ;;
  last <- entry (count - 1) ;;
  when ((0 <? cmd_len)%nat && ((count =? 0) || negb (strcmp (cstring buf) last =? 0))) (
    if (MAX_LINE <=? length (cstring buf))%nat then stop (UFault "strcpy: history") else
    upd_glob (fun g => mkShell (<[Z.to_nat (Z.rem count MAX_HISTORY) := cstring buf]> (history g)) (s32 (count + 1)) (history_index g))) ;;
  count <- get_glob history_count ;;
  set_index (fun _ => count).

(** An arrow key: [c] is the last character of the sequence. *)
Definition arrow (c : Z) (buf : list Z) (cmd_len : nat) : U W shell (list Z * nat) :=
  k <- get_glob history_index ;;
  count <- get_glob history_count ;;
  if c =? chr "A" then
    if 0 <? k then
      set_index (fun k => k - 1) ;;
      erase cmd_len ;;
      load_entry buf
    else ret (buf, cmd_len)
  else if c =? chr "B" then
    if k <? count then
      set_index (fun k => k + 1) ;;
      erase cmd_len ;;
      if k + 1 <? count then load_entry buf
      else ret (<[0%nat := 0]> buf, 0%nat)
    else ret (buf, cmd_len)
  else ret (buf, cmd_len).

(** [buf[cmd_len] = c], which must be inside the array *)
Definition put (buf : list Z) (i : nat) (c : Z) : U W shell (list Z) :=
  if (i <? length buf)%nat then ret (<[i := c]> buf) else stop (UFault "buf").

Definition readline (buf : list Z) (max : nat) : U W shell (list Z) :=
  buf <- put buf 0 0 ;;
  let! (buf, cmd_len) := while_fuel UFuel (S rounds) (fun x => let '(buf, cmd_len) := x in
    let! (n, cs) := read 0 1 in
    if negb (n =? 1) then ret (inr (buf, cmd_len)) else
    let c := hd 0 cs in
    if c =? 10 then
      buf <- put buf cmd_len 0 ;;
      printf (nl "") [] ;;
      save_line buf cmd_len ;;
      ret (inr (buf, cmd_len))
    else if c =? 0x1b then
      let! (n0, s0) := read 0 1 in
      if negb (n0 =? 1) then ret (inl (buf, cmd_len)) else
      let! (n1, s1) := read 0 1 in
      if negb (n1 =? 1) then ret (inl (buf, cmd_len)) else
      if hd 0 s0 =? chr "[" then
        x <- arrow (hd 0 s1) buf cmd_len ;;
        ret (inl x)
      else ret (inl (buf, cmd_len))
    else if (c =? 127) || (c =? 8) then
      if (0 <? cmd_len)%nat then
        write 1 rubout ;;
        ret (inl (buf, (cmd_len - 1)%nat))
      else ret (inl (buf, cmd_len))
    else if c =? 9 then
      x <- handle_tab_completion buf cmd_len ;;
      ret (inl x)
    else if (cmd_len <? max - 1)%nat then
      buf <- put buf cmd_len c ;;
      write 1 [c] ;;
      ret (inl (buf, S cmd_len))
    else ret (inl (buf, cmd_len))) (buf, 0%nat) in
  put buf cmd_len 0.

Definition isatty (fd : Z) : U W shell Z :=
  let! (r, st) := fstat fd in
  if r <? 0 then ret 0 else
  ret (if us_type st =? T_DEVICE then 1 else 0).

Definition getcmd : U W shell (Z * list Z) :=
  t <- isatty 0 ;;
  when (negb (t =? 0)) (fprintf 2 "$ " []) ;;
  let buf := replicate nbuf 0 in
  buf <- readline buf nbuf ;;
  ret (if hd 0 buf =? 0 then (-1, buf) else (0, buf)).

(** The first loop of [main]. *)
Definition open_console : U W shell unit :=
  while_fuel UFuel (S rounds) (fun _ : unit =>
    fd <- open (s2b "console") O_RDWR ;;
    if fd <? 0 then ret (inr tt)
    else if 3 <=? fd then close fd ;; ret (inr tt)
    else ret (inl tt)) tt.

Definition main : U W shell unit :=
  ttyraw 1 ;;
  open_console ;;
  while_fuel UFuel (S rounds) (fun _ : unit =>
    let! (r, buf) := getcmd in
    if r <? 0 then ret (inr tt) else
    if (buf !!! 0%nat =? chr "c") && (buf !!! 1%nat =? chr "d") && (buf !!! 2%nat =? 32) then
      let buf := <[(length (cstring buf) - 1)%nat := 0]> buf in
      let dir := cstring (drop 3 buf) in
      r <- chdir dir ;;
      when (r <? 0) (fprintf 2 (nl "cannot cd %s") [UStr (Some dir)]) ;;
      ret (inl tt)
    else
    pid <- fork1 ;;
    when (pid =? 0) (
      let! (buf, c) := parsecmd buf in
      runcmd buf c) ;;
    wait ;;
    ret (inl tt)) tt ;;
  exit 0.
End editor.
End Sh.
