(* ===== verification/ShRound.v ===== *)
(** A command written as a line is parsed to itself.

    [print] writes a command, over words that are strings, as tokens with a space after each, in
    parentheses where the grammar of the shell needs them: [;] binds least, then [&], then [|],
    then redirections. *)
From Stdlib Require Import Ascii.
From S2P Require Import Prelude Machine Usys Ulib Uprintf Cmds Sh ShParse.
From Stdlib Require Import ZArith Lia.
From stdpp Require Import base strings numbers gmap list.
Local Open Scope Z_scope.
Local Open Scope m_scope.
Import Sh.

(** ** Tokens and the text of a command *)

Inductive tok : Type := TSym (c : ascii) | TAppend | TWord (w : list Z).

Definition text (t : tok) : list Z :=
  match t with TSym c => [chr c] | TAppend => s2b ">>" | TWord w => w end.
(** what [gettoken] gives for it *)
Definition kind (t : tok) : Z :=
  match t with TSym c => chr c | TAppend => chr "+" | TWord _ => chr "a" end.

Definition flat (ts : list tok) : list Z := concat ((fun t => text t ++ [32]) <$> ts).

Definition tok_ok (t : tok) : Prop :=
  match t with
  | TSym c => c ∈ ["<"; "|"; ">"; "&"; ";"; "("; ")"]%char
  | TAppend => True
  | TWord w => w <> [] /\ Forall (fun c => c <> 0 /\ is_word c = true) w
  end.

(** The token of a redirection. *)
Definition op (mode : Z) : tok :=
  if mode =? O_RDONLY then TSym "<" else if mode =? Z.lor (Z.lor O_WRONLY O_CREATE) O_TRUNC then TSym ">" else TAppend.
Definition redir_toks (rs : list (redir (list Z))) : list tok := concat ((fun r => [op r.2.1; TWord r.1]) <$> rs).

Definition paren (b : bool) (ts : list tok) : list tok := if b then [TSym "("] ++ ts ++ [TSym ")"] else ts.

(** The tokens of a command where one is expected that binds at least as strongly as [level]. *)
Fixpoint toks (c : command (list Z)) (level : nat) : list tok :=
  match c with
  | LIST l r => paren (0 <? level)%nat (toks l 1 ++ [TSym ";"] ++ toks r 0)
  | BACK c => paren (1 <? level)%nat (toks c 1 ++ [TSym "&"])
  | PIPE l r => paren (2 <? level)%nat (toks l 3 ++ [TSym "|"] ++ toks r 2)
  | REDIR c file mode fd => toks c 3 ++ [op mode; TWord file]
  | EXEC argv => TWord <$> argv
  end.

Definition print (c : command (list Z)) : list Z := flat (toks c 0).

(** A command that can be typed: its words are not empty and have no white space and no symbols, there
    are fewer than ten to a simple command, and its redirections are those of the shell. *)
Definition word_fine (w : list Z) : Prop := w <> [] /\ Forall (fun c => c <> 0 /\ is_word c = true) w.
Definition redir_fine (mode fd : Z) : Prop :=
  (mode, fd) = (O_RDONLY, 0) \/ (mode, fd) = (Z.lor (Z.lor O_WRONLY O_CREATE) O_TRUNC, 1) \/ (mode, fd) = (Z.lor O_WRONLY O_CREATE, 1).
Fixpoint fine (c : command (list Z)) : Prop :=
  match c with
  | EXEC argv => (length argv < MAXARGS)%nat /\ Forall word_fine argv
  | REDIR c file mode fd => fine c /\ word_fine file /\ redir_fine mode fd
  | PIPE l r | LIST l r => fine l /\ fine r
  | BACK c => fine c
  end.

(** The command with the strings of its words. *)
Fixpoint resolve {A B} (f : A -> B) (c : command A) : command B :=
  match c with
  | EXEC argv => EXEC (f <$> argv)
  | REDIR c file mode fd => REDIR (resolve f c) (f file) mode fd
  | PIPE l r => PIPE (resolve f l) (resolve f r)
  | LIST l r => LIST (resolve f l) (resolve f r)
  | BACK c => BACK (resolve f c)
  end.

(** ** Reading tokens *)

Lemma flat_cons t ts : flat (t :: ts) = text t ++ 32 :: flat ts.
Proof. unfold flat. simpl. by rewrite <- app_assoc. Qed.

Lemma flat_app ts ts' : flat (ts ++ ts') = flat ts ++ flat ts'.
Proof. unfold flat. by rewrite fmap_app, concat_app. Qed.

Lemma tok_start t : tok_ok t -> exists c r, text t = c :: r /\ is_white c = false /\ c <> 0.
Proof.
  destruct t as [c| |w]; simpl.
  - intros Hc. exists (chr c), []. split; [done|]. set_unfold. destruct_or!; subst; by vm_compute.
  - intros _. by exists (chr ">"), [chr ">"].
  - intros [Hne Hall]. destruct w as [|c r]; [done|]. apply Forall_cons in Hall as [[Hz Hw] _]. exists c, r. split_and!; [done| |done].
    unfold is_word in Hw. by destruct (is_white c).
Qed.

Lemma span_app (p : Z -> bool) l r : Forall (fun c => p c = true) l -> match r with [] => True | c :: _ => p c = false end -> span p (l ++ r) = length l.
Proof. intros Hl Hr. induction Hl as [|c l Hc _ IH]; simpl; [destruct r as [|c r]; simpl; [done|by rewrite Hr]|]. by rewrite Hc, IH. Qed.

Lemma flat_white ts : Forall tok_ok ts -> span is_white (flat ts) = 0%nat.
Proof.
  intros Hts. destruct Hts as [|t ts Ht _]; [done|]. rewrite flat_cons. destruct (tok_start t Ht) as (c & r & -> & Hc & _). simpl. by rewrite Hc.
Qed.

Lemma at_drop (line : list Z) s c r : drop s line = c :: r -> Sh.at_ line s = c.
Proof. intros Hd. unfold Sh.at_. rewrite <- (Nat.add_0_r s), <- lookup_drop, Hd. done. Qed.

Lemma at_end (line : list Z) s : drop s line = [] -> Sh.at_ line s = 0.
Proof. intros Hd. unfold Sh.at_. by rewrite <- (Nat.add_0_r s), <- lookup_drop, Hd. Qed.

Section line.
Context (line : list Z).
Abbreviation len := (length line).
Implicit Types (s : nat) (ts : list tok).

(** The parser stands before the tokens [ts]. *)
Definition before (ts : list tok) (s : nat) : Prop := (s <= len)%nat /\ drop s line = flat ts /\ Forall tok_ok ts.

Lemma before_skip ts s : before ts s -> skip line is_white s = s.
Proof. intros (_ & Hd & Hok). unfold skip. rewrite Hd, flat_white by done. lia. Qed.

Lemma before_nil s : before [] s -> s = len.
Proof. intros (Hs & Hd & _). apply (f_equal length) in Hd. rewrite length_drop in Hd. simpl in Hd. lia. Qed.

(** Whether the first token is one of [cs]. *)
Definition first_in (cs : string) (ts : list tok) : bool :=
  match ts with [] => false | t :: _ => is_some (strchr (s2b cs) (hd 0 (text t))) end.

Lemma peek_before cs ts s : before ts s -> wp (peek line cs) (fun b s' => b = first_in cs ts /\ s' = s) s.
Proof.
  intros Hb. unfold peek. apply wp_bind, wp_gets. cbv zeta. unfold id. rewrite (before_skip ts s Hb). apply wp_bind, wp_modify, wp_ret. split; [|done].
  destruct Hb as (_ & Hd & Hok). destruct Hok as [|t ts Ht _].
  - by rewrite (at_end line s Hd).
  - rewrite flat_cons in Hd. destruct (tok_start t Ht) as (c & r & Hc & _ & Hz). rewrite Hc in Hd. simpl in Hd. rewrite (at_drop line s _ _ Hd).
    rewrite (proj2 (Z.eqb_neq c 0)) by done. simpl. by rewrite Hc.
Qed.

Lemma before_next t ts s : before (t :: ts) s ->
  skip line is_white (s + length (text t)) = S (s + length (text t)) /\ before ts (S (s + length (text t))) /\ sub line (s, (s + length (text t))%nat) = text t.
Proof.
  intros (Hs & Hd & Hok). apply Forall_cons in Hok as [Ht Hok]. rewrite flat_cons in Hd.
  assert (He : drop (s + length (text t)) line = 32 :: flat ts) by (rewrite <- drop_drop, Hd; apply drop_app_length).
  assert (Hl : (S (s + length (text t)) <= len)%nat) by (apply (f_equal length) in He; rewrite length_drop in He; simpl in He; lia).
  split_and!.
  - unfold skip. rewrite He. cbn [span]. change (is_white 32) with true. cbv iota. rewrite flat_white by done. lia.
  - split_and!; [done| |done]. rewrite <- Nat.add_1_r, <- drop_drop, He. done.
  - unfold sub. simpl. rewrite Hd. replace (s + length (text t) - s)%nat with (length (text t)) by lia. apply take_app_length.
Qed.

(** The token read, from the character it starts with. *)
Lemma gettoken_kind t ts s : before (t :: ts) s ->
  (if Sh.at_ line s =? 0 then (Sh.at_ line s, s)
   else if is_some (strchr (s2b "|();&<") (Sh.at_ line s)) then (Sh.at_ line s, S s)
   else if Sh.at_ line s =? chr ">" then
     if Sh.at_ line (S s) =? chr ">" then (chr "+", S (S s)) else (Sh.at_ line s, S s)
   else (chr "a", skip line is_word s)) = (kind t, (s + length (text t))%nat).
Proof.
  intros (Hs & Hd & Hok). apply Forall_cons in Hok as [Ht Hok]. rewrite flat_cons in Hd.
  destruct t as [c| |w].
  - rewrite (at_drop line s _ _ Hd). cbn [app] in Hd.
    assert (Hn : Sh.at_ line (S s) = 32) by (eapply at_drop; rewrite <- Nat.add_1_r, <- drop_drop, Hd; reflexivity).
    rewrite Hn. cbn [text kind length]. rewrite Nat.add_1_r. simpl in Ht. set_unfold. destruct_or!; subst; done.
  - rewrite (at_drop line s _ _ Hd).
    assert (Hn : Sh.at_ line (S s) = chr ">") by (eapply at_drop; rewrite <- Nat.add_1_r, <- drop_drop, Hd; reflexivity).
    rewrite Hn. cbn [text kind]. change (length (s2b ">>")) with 2%nat. f_equal. lia.
  - destruct Ht as [Hne Hw]. cbn [text kind] in *. assert (Hsk : skip line is_word s = (s + length w)%nat).
    { unfold skip. rewrite Hd, span_app; [done| |done]. eapply Forall_impl; [exact Hw|]. by intros c [_ Hc]. }
    rewrite Hsk. destruct w as [|c w]; [done|]. apply Forall_cons in Hw as [[Hz Hc] _]. rewrite (at_drop line s _ _ Hd).
    rewrite (proj2 (Z.eqb_neq c 0)) by done. unfold is_word in Hc. apply andb_true_iff in Hc as [_ Hc]. apply negb_true_iff in Hc. unfold is_symbol in Hc.
    rewrite strchr_elem in Hc |- *. apply bool_decide_eq_false in Hc.
    rewrite (bool_decide_eq_false_2 (c ∈ s2b "|();&<")) by (intros Hin; apply Hc; unfold symbols; set_unfold; naive_solver).
    rewrite (proj2 (Z.eqb_neq c (chr ">"))) by (intros ->; apply Hc; unfold symbols; set_unfold; naive_solver). done.
Qed.

Lemma gettoken_before t ts s : before (t :: ts) s ->
  wp (gettoken line) (fun '(r, w) s' => r = kind t /\ sub line w = text t /\ before ts s' /\ (s < s')%nat) s.
Proof.
  intros Hb. destruct (before_next t ts s Hb) as (Hsk & Hb' & Hsub). unfold gettoken. apply wp_bind, wp_gets. cbv zeta. unfold id.
  rewrite (before_skip _ s Hb), (gettoken_kind t ts s Hb). apply wp_bind, wp_modify, wp_ret. rewrite Hsk. split_and!; [done..|lia].
Qed.

Lemma gettoken_end s : before [] s -> wp (gettoken line) (fun '(r, w) s' => r = 0 /\ before [] s') s.
Proof.
  intros Hb. unfold gettoken. apply wp_bind, wp_gets. cbv zeta. unfold id. rewrite (before_skip _ s Hb).
  rewrite (at_end line s (proj1 (proj2 Hb))). apply wp_bind, wp_modify, wp_ret. by rewrite (before_skip _ s Hb).
Qed.

(** ** Redirections and simple commands *)

Abbreviation strings := (resolve (sub line)).
Definition redir_strings (rs : list (redir (nat * nat))) : list (redir (list Z)) := (fun r => (sub line r.1, r.2)) <$> rs.

Lemma strings_redirs rs c : strings (fold_left redircmd rs c) = fold_left redircmd (redir_strings rs) (strings c).
Proof. revert c. induction rs as [|r rs IH]; intros c; [done|]. simpl. by rewrite IH. Qed.

Definition redirs_fine (rs : list (redir (list Z))) : Prop := Forall (fun r => redir_fine r.2.1 r.2.2) rs.

Lemma op_redir mode fd : redir_fine mode fd ->
  first_in "<>" [op mode] = true /\
  (if kind (op mode) =? chr "<" then (O_RDONLY, 0)
   else if kind (op mode) =? chr ">" then (Z.lor (Z.lor O_WRONLY O_CREATE) O_TRUNC, 1) else (Z.lor O_WRONLY O_CREATE, 1)) = (mode, fd).
Proof. intros [H|[H|H]]; simplify_eq; done. Qed.

Lemma parseredirs_before rs0 rs ts s :
  first_in "<>" ts = false -> redirs_fine rs -> before (redir_toks rs ++ ts) s ->
  wp (parseredirs line rs0) (fun rs' s' => redir_strings rs' = redir_strings rs0 ++ rs /\ before ts s' /\ (s <= s')%nat) s.
Proof.
  intros Hts Hrs Hb. unfold parseredirs.
  apply (wp_loop OutOfFuel (fun x s' => exists rs1, redirs_fine rs1 /\ redir_strings x ++ rs1 = redir_strings rs0 ++ rs /\ before (redir_toks rs1 ++ ts) s' /\ (s <= s')%nat)
    (fun _ s' => (len - s')%nat)); [by exists rs|destruct Hb; lia|].
  intros x s1 (rs1 & Hfine & Heq & Hb1 & Hs1). eapply wp_seq; [by apply peek_before|]. intros b s2 [-> ->].
  destruct rs1 as [|[file [mode fd]] rs1].
  - cbn [redir_toks fmap list_fmap concat app] in Hb1 |- *. rewrite Hts. cbn [negb]. apply wp_ret. by rewrite app_nil_r in Heq.
  - apply Forall_cons in Hfine as [Hop Hfine]. simpl in Hop. destruct (op_redir _ _ Hop) as [Hf Hm]. unfold redir_toks in Hb1 |- *. cbn [fmap list_fmap concat app fst snd] in Hb1 |- *.
    change (first_in "<>" (op mode :: _)) with (first_in "<>" [op mode]). rewrite Hf. cbn [negb].
    eapply wp_seq; [by apply gettoken_before|]. intros [tok w] s2 (-> & _ & Hb2 & Hlt2).
    eapply wp_seq; [by apply gettoken_before|]. intros [a w'] s3 (-> & Hsub & Hb3 & Hlt3). cbn [kind]. rewrite Z.eqb_refl. cbn [negb]. rewrite Hm.
    apply wp_ret. split; [|destruct Hb2; lia]. exists rs1. split_and!; [done| |done|lia].
    rewrite <- Heq. unfold redir_strings. rewrite fmap_app, <- app_assoc. simpl. by rewrite Hsub.
Qed.

(** What may come after a command of some level: nothing, or one of the symbols [cs]. *)
Definition follows (cs : string) ts : Prop := ts = [] \/ first_in cs ts = true.

Lemma first_in_not cs cs' ts :
  forallb (fun c => negb (is_some (strchr (s2b cs') c))) (s2b cs) = true -> first_in cs ts = true -> first_in cs' ts = false.
Proof.
  intros Hdis Hin. destruct ts as [|t ts]; [done|]. simpl in *. rewrite strchr_elem in Hin. apply bool_decide_eq_true, list_elem_of_In in Hin.
  rewrite forallb_forall in Hdis. apply Hdis in Hin. by apply negb_true_iff in Hin.
Qed.

Lemma follows_not cs cs' ts :
  forallb (fun c => negb (is_some (strchr (s2b cs') c))) (s2b cs) = true -> follows cs ts -> first_in cs' ts = false.
Proof. intros Hdis [->|Hin]; [done|]. by eapply first_in_not. Qed.

Lemma follows_more cs cs' ts : forallb (fun c => is_some (strchr (s2b cs') c)) (s2b cs) = true -> follows cs ts -> follows cs' ts.
Proof.
  intros Hsub [->|Hin]; [by left|]. right. destruct ts as [|t ts]; [done|]. simpl in *. rewrite strchr_elem in Hin. apply bool_decide_eq_true, list_elem_of_In in Hin.
  rewrite forallb_forall in Hsub. by apply Hsub.
Qed.

Lemma first_in_word cs w ts : word_fine w -> forallb is_symbol (s2b cs) = true -> first_in cs (TWord w :: ts) = false.
Proof.
  intros [Hne Hw] Hcs. destruct w as [|c w]; [done|]. apply Forall_cons in Hw as [[_ Hc] _]. simpl.
  destruct (is_some (strchr (s2b cs) c)) eqn:Hin; [|done]. rewrite strchr_elem in Hin. apply bool_decide_eq_true, list_elem_of_In in Hin.
  rewrite forallb_forall in Hcs. apply Hcs in Hin. unfold is_word in Hc. rewrite Hin in Hc. by destruct (is_white c).
Qed.

Lemma first_in_op cs rs ts : redirs_fine rs -> forallb (fun c => negb (is_some (strchr (s2b "<>") c))) (s2b cs) = true ->
  first_in cs ts = false -> first_in cs (redir_toks rs ++ ts) = false.
Proof.
  intros Hrs Hcs Hts. destruct Hrs as [|[file [mode fd]] rs Hr _]; [done|]. simpl in Hr.
  destruct (op_redir _ _ Hr) as [Hf _]. destruct (first_in cs [op mode]) eqn:Hin; [|exact Hin].
  pose proof (first_in_not cs "<>" [op mode] Hcs Hin). congruence.
Qed.

(** A simple command and its redirections. *)
Lemma parseexec_words pl ws rs ts s :
  (length ws < MAXARGS)%nat -> Forall word_fine ws -> redirs_fine rs -> follows "|)&;" ts ->
  before ((TWord <$> ws) ++ redir_toks rs ++ ts) s ->
  wp (parseexec line pl) (fun c s' => strings c = fold_left redircmd rs (EXEC ws) /\ before ts s' /\ (s <= s')%nat) s.
Proof.
  intros Hlen Hws Hrs Hts Hb. unfold parseexec. eapply wp_seq; [by apply peek_before|]. intros b s1 [-> ->].
  assert (Hfirst : first_in "(" ((TWord <$> ws) ++ redir_toks rs ++ ts) = false).
  { destruct Hws as [|w ws Hw Hws]; [apply first_in_op; [done|done|by apply (follows_not "|)&;")]|by apply first_in_word]. }
  rewrite Hfirst. set (rem ws' := match ws' with [] => ts | _ => (TWord <$> ws') ++ redir_toks rs ++ ts end).
  assert (Hredirs : forall rs0 ws' s', Forall word_fine ws' -> before ((TWord <$> ws') ++ redir_toks rs ++ ts) s' ->
    wp (parseredirs line rs0) (fun rs' s'' => redir_strings rs' = redir_strings rs0 ++ match ws' with [] => rs | _ => [] end /\ before (rem ws') s'' /\ (s' <= s'')%nat) s').
  { intros rs0 ws' s' Hws' Hb'. destruct Hws' as [|w ws' Hw Hws']; simpl rem.
    - apply parseredirs_before; [by apply (follows_not "|)&;")|done|exact Hb'].
    - apply parseredirs_before; [by apply first_in_word|constructor|exact Hb']. }
  eapply wp_seq; [by apply Hredirs|]. intros rs1 s1 (Hrs1 & Hb1 & Hs1). simpl in Hrs1.
  apply wp_bind. apply (wp_loop OutOfFuel (fun x s' => exists ws', (sub line <$> x.1) ++ ws' = ws /\ before (rem ws') s' /\ (s <= s')%nat /\
    redir_strings x.2 = match ws' with [] => rs | _ => [] end) (fun _ s' => (len - s')%nat)); [by exists ws|destruct Hb; lia|].
  intros [argv rs2] s2 (ws' & Heq & Hb2 & Hs2 & Hrs2). simpl in Heq, Hrs2. eapply wp_seq; [by apply peek_before|]. intros b s3 [-> ->].
  assert (Hleave : ws' = [] -> wp (E := perr) (ret (fold_left redircmd rs2 (EXEC argv))) (fun c s' => strings c = fold_left redircmd rs (EXEC ws) /\ before ts s' /\ (s <= s')%nat) s2).
  { intros ->. rewrite app_nil_r in Heq. apply wp_ret. rewrite strings_redirs, Hrs2. simpl. rewrite Heq. done. }
  destruct ws' as [|w ws'].
  - destruct (first_in "|)&;" (rem [])) eqn:Hf; [apply wp_ret; by apply Hleave|].
    destruct Hts as [->|Hts]; [|by simpl in Hf; rewrite Hf in Hts]. pose proof (before_nil s2 Hb2) as Hend.
    eapply wp_seq; [by apply gettoken_end|]. intros [tok w] s4 [-> Hb4]. pose proof (before_nil s4 Hb4) as Hend4. rewrite Hend4, <- Hend. apply wp_ret. by apply Hleave.
  - assert (Hw : Forall word_fine (w :: ws')) by (rewrite <- Heq in Hws; by apply Forall_app in Hws as [_ Hws]). apply Forall_cons in Hw as [Hw Hws'].
    simpl rem in *. rewrite (first_in_word _ w) by done. eapply wp_seq; [by apply gettoken_before|]. intros [tok x] s4 (-> & Hsub & Hb4 & Hlt4).
    cbn [kind]. change (chr "a" =? 0) with false. rewrite Z.eqb_refl. cbn [negb]. cbv zeta.
    assert (Hargc : (length (argv ++ [x]) < MAXARGS)%nat) by (rewrite <- Heq, length_app, length_fmap in Hlen; rewrite length_app; simpl in *; lia).
    rewrite (proj2 (Nat.leb_gt _ _)) by done. eapply wp_seq; [by apply Hredirs|]. intros rs3 s5 (Hrs3 & Hb5 & Hs5). apply wp_ret.
    split; [|destruct Hb5, Hb4; simpl; lia]. exists ws'. simpl. rewrite fmap_app, <- app_assoc. simpl. rewrite Hsub. split_and!; [done|done|lia|].
    rewrite Hrs3, Hrs2. done.
Qed.

(** ** The levels of the grammar *)

Definition reads (m : P cmd) ts (c : command (list Z)) s : Prop := wp m (fun r s' => strings r = c /\ before ts s' /\ (s <= s')%nat) s.

Implicit Types c : command (list Z).

(** What each function of the parser makes of the tokens of [c] at its level. *)
Definition exec_reads c : Prop := forall n rs ts s, redirs_fine rs -> follows "|)&;" ts -> before (toks c 3 ++ redir_toks rs ++ ts) s -> (len - s <= n)%nat ->
  reads (parseexec line (parseline line n)) ts (fold_left redircmd rs c) s.
Definition pipe_reads c : Prop := forall n k ts s, follows ")&;" ts -> before (toks c 2 ++ ts) s -> (len - s <= n)%nat -> (len - s < k)%nat ->
  reads (parsepipe line (parseline line n) k) ts c s.
Definition back_reads c : Prop := forall n j ts s, follows ");" ts -> before (toks c 1 ++ replicate j (TSym "&") ++ ts) s -> (len - s <= n)%nat ->
  reads (c <- parsepipe line (parseline line n) (S len) ;; parsebacks line c) ts (Nat.iter j BACK c) s.
Definition line_reads c : Prop := forall n ts s, follows ")" ts -> before (toks c 0 ++ ts) s -> (len - s < n)%nat ->
  reads (parseline line n) ts c s.

Lemma exec_pipe c : toks c 2 = toks c 3 -> exec_reads c -> pipe_reads c.
Proof.
  intros Ht He n k ts s Hts Hb Hn Hk. destruct k as [|k]; [lia|]. cbn [parsepipe]. rewrite Ht in Hb.
  eapply wp_seq; [apply (He n [] ts s); [constructor|by apply (follows_more ")&;")|done|done]|]. intros r s1 (Hr & Hb1 & Hs1).
  eapply wp_seq; [by apply peek_before|]. intros b s2 [-> ->]. rewrite (follows_not ")&;" "|" ts) by done. by apply wp_ret.
Qed.

Lemma parsebacks_before j ts r s : follows ");" ts -> before (replicate j (TSym "&") ++ ts) s ->
  reads (parsebacks line r) ts (Nat.iter j BACK (strings r)) s.
Proof.
  intros Hts Hb. unfold parsebacks, reads.
  apply (wp_loop OutOfFuel (fun x s' => exists i, before (replicate i (TSym "&") ++ ts) s' /\ Nat.iter i BACK (strings x) = Nat.iter j BACK (strings r) /\ (s <= s')%nat)
    (fun _ s' => (len - s')%nat)); [by exists j|destruct Hb; lia|].
  intros x s1 (i & Hb1 & Heq & Hs1). eapply wp_seq; [by apply peek_before|]. intros b s2 [-> ->]. destruct i as [|i].
  - simpl in Hb1 |- *. rewrite (follows_not ");" "&" ts) by done. cbn [negb]. by apply wp_ret.
  - cbn [replicate app] in Hb1 |- *. change (first_in "&" (TSym "&" :: _)) with true. cbn [negb].
    eapply wp_seq; [by apply gettoken_before|]. intros [tok w] s2 (-> & _ & Hb2 & Hlt). apply wp_ret. split; [|destruct Hb2; lia].
    exists i. split_and!; [done| |lia]. rewrite <- Heq, Nat.iter_succ_r. done.
Qed.

Lemma follows_backs j ts : follows ");" ts -> follows ")&;" (replicate j (TSym "&") ++ ts).
Proof. intros Hts. destruct j as [|j]; [by apply (follows_more ");")|by right]. Qed.

Lemma pipe_back c : toks c 1 = toks c 2 -> pipe_reads c -> back_reads c.
Proof.
  intros Ht Hp n j ts s Hts Hb Hn. rewrite Ht in Hb. eapply wp_seq; [eapply Hp; [by apply follows_backs|done|done|lia]|].
  intros r s1 (<- & Hb1 & Hs1). eapply wp_mono; [by apply parsebacks_before|]. intros r' s2 (Hr & Hb2 & Hs2). split_and!; [done..|lia].
Qed.

Lemma back_line c : toks c 0 = toks c 1 -> back_reads c -> line_reads c.
Proof.
  intros Ht Hc n ts s Hts Hb Hn. destruct n as [|n]; [lia|]. cbn [parseline]. rewrite Ht in Hb.
  pose proof (Hc n 0%nat ts s ltac:(by apply (follows_more ")")) Hb ltac:(lia)) as Hr. apply wp_bind_inv in Hr.
  apply wp_bind. eapply wp_mono; [exact Hr|]. intros r s1 Hr1. apply wp_bind. eapply wp_mono; [exact Hr1|]. intros r2 s2 (Hr2 & Hb2 & Hs2).
  eapply wp_seq; [by apply peek_before|]. intros b s3 [-> ->]. rewrite (follows_not ")" ";" ts) by done. by apply wp_ret.
Qed.

Lemma line_exec c : toks c 3 = paren true (toks c 0) -> line_reads c -> exec_reads c.
Proof.
  intros Ht Hl n rs ts s Hrs Hts Hb Hn. unfold reads, parseexec. rewrite Ht in Hb. unfold paren in Hb. rewrite <- !app_assoc in Hb. cbn [app] in Hb.
  eapply wp_seq; [by apply peek_before|]. intros b s1 [-> ->]. change (first_in "(" (TSym "(" :: _)) with true. cbv iota. unfold parseblock.
  eapply wp_seq; [by apply peek_before|]. intros b s1 [-> ->]. change (first_in "(" (TSym "(" :: _)) with true. cbn [negb].
  eapply wp_seq; [by apply gettoken_before|]. intros [tok w] s1 (_ & _ & Hb1 & Hlt1).
  eapply wp_seq; [eapply Hl; [|exact Hb1|destruct Hb1; lia]; by right|]. intros r s2 (<- & Hb2 & Hs2).
  eapply wp_seq; [by apply peek_before|]. intros b s3 [-> ->]. change (first_in ")" (TSym ")" :: _)) with true. cbn [negb].
  eapply wp_seq; [by apply gettoken_before|]. intros [tok' w'] s3 (_ & _ & Hb3 & Hlt3).
  eapply wp_seq; [apply (parseredirs_before [] rs ts); [by apply (follows_not "|)&;")|done|done]|]. intros rs' s4 (Hrs' & Hb4 & Hs4).
  apply wp_ret. rewrite strings_redirs, Hrs'. split_and!; [done..|lia].
Qed.

Lemma list_line l r : back_reads l -> line_reads r -> line_reads (LIST l r).
Proof.
  intros Hl Hr n ts s Hts Hb Hn. destruct n as [|n]; [lia|]. cbn [parseline]. cbn [toks Nat.ltb Nat.leb paren] in Hb. rewrite <- !app_assoc in Hb. cbn [app] in Hb.
  pose proof (Hl n 0%nat (TSym ";" :: toks r 0 ++ ts) s ltac:(by right) Hb ltac:(lia)) as Hrun. apply wp_bind_inv in Hrun.
  apply wp_bind. eapply wp_mono; [exact Hrun|]. intros c1 s1 Hrun1. apply wp_bind. eapply wp_mono; [exact Hrun1|]. intros c2 s2 (Hc2 & Hb2 & Hs2).
  eapply wp_seq; [by apply peek_before|]. intros b s3 [-> ->]. change (first_in ";" (TSym ";" :: _)) with true. cbv iota.
  eapply wp_seq; [by apply gettoken_before|]. intros [tok w] s3 (_ & _ & Hb3 & Hlt3).
  eapply wp_seq; [eapply Hr; [exact Hts|exact Hb3|destruct Hb3; lia]|]. intros c4 s4 (Hc4 & Hb4 & Hs4). apply wp_ret. simpl in *. rewrite Hc2, Hc4. split_and!; [done..|lia].
Qed.

Lemma pipe_pipe l r : exec_reads l -> pipe_reads r -> pipe_reads (PIPE l r).
Proof.
  intros Hl Hr n k ts s Hts Hb Hn Hk. destruct k as [|k]; [lia|]. cbn [parsepipe]. cbn [toks Nat.ltb Nat.leb paren] in Hb. rewrite <- !app_assoc in Hb. cbn [app] in Hb.
  eapply wp_seq; [apply (Hl n [] (TSym "|" :: toks r 2 ++ ts) s); [constructor|by right|exact Hb|done]|]. intros c1 s1 (Hc1 & Hb1 & Hs1).
  eapply wp_seq; [by apply peek_before|]. intros b s2 [-> ->]. change (first_in "|" (TSym "|" :: _)) with true. cbv iota.
  eapply wp_seq; [by apply gettoken_before|]. intros [tok w] s2 (_ & _ & Hb2 & Hlt2).
  eapply wp_seq; [eapply (Hr n k); [exact Hts|exact Hb2|destruct Hb2; lia|destruct Hb2; lia]|]. intros c3 s3 (Hc3 & Hb3 & Hs3). apply wp_ret. simpl in *. rewrite Hc1, Hc3.
  split_and!; [done..|lia].
Qed.

Lemma back_back c : back_reads c -> back_reads (BACK c).
Proof.
  intros Hc n j ts s Hts Hb Hn. pose proof (Hc n (S j) ts s Hts) as Hr. cbn [toks Nat.ltb Nat.leb paren] in Hb. rewrite <- !app_assoc in Hb.
  specialize (Hr Hb Hn). by rewrite Nat.iter_succ_r in Hr.
Qed.

Lemma redir_exec c file mode fd : word_fine file -> redir_fine mode fd -> exec_reads c -> exec_reads (REDIR c file mode fd).
Proof.
  intros Hw Hr Hc n rs ts s Hrs Hts Hb Hn. cbn [toks] in Hb. rewrite <- !app_assoc in Hb.
  apply (Hc n ((file, (mode, fd)) :: rs) ts s); [by constructor|done|exact Hb|done].
Qed.

Lemma all_read c : fine c -> exec_reads c /\ pipe_reads c /\ back_reads c /\ line_reads c.
Proof.
  induction c as [argv|c IH file mode fd|l IHl r IHr|l IHl r IHr|c IH]; intros Hf.
  - destruct Hf as [Hlen Hw]. assert (He : exec_reads (EXEC argv)) by (intros n rs ts s Hrs Hts Hb Hn; by apply parseexec_words).
    assert (Hp := exec_pipe (EXEC argv) eq_refl He). assert (Hb := pipe_back (EXEC argv) eq_refl Hp). by assert (Hl := back_line (EXEC argv) eq_refl Hb).
  - destruct Hf as (Hf & Hw & Hr). destruct (IH Hf) as (Hc & _). assert (He := redir_exec c file mode fd Hw Hr Hc).
    assert (Hp := exec_pipe (REDIR c file mode fd) eq_refl He). assert (Hb := pipe_back (REDIR c file mode fd) eq_refl Hp).
    by assert (Hl := back_line (REDIR c file mode fd) eq_refl Hb).
  - destruct Hf as [Hfl Hfr]. assert (Hp := pipe_pipe l r (proj1 (IHl Hfl)) (proj1 (proj2 (IHr Hfr)))).
    assert (Hb := pipe_back (PIPE l r) eq_refl Hp). assert (Hl := back_line (PIPE l r) eq_refl Hb). by assert (He := line_exec (PIPE l r) eq_refl Hl).
  - destruct Hf as [Hfl Hfr]. destruct (IHl Hfl) as (_ & _ & Hbl & _). destruct (IHr Hfr) as (_ & _ & _ & Hlr).
    assert (Hl := list_line l r Hbl Hlr). assert (He := line_exec (LIST l r) eq_refl Hl). assert (Hp := exec_pipe (LIST l r) eq_refl He).
    by assert (Hb := pipe_back (LIST l r) eq_refl Hp).
  - destruct (IH Hf) as (_ & _ & Hbc & _). assert (Hb := back_back c Hbc). assert (Hl := back_line (BACK c) eq_refl Hb).
    assert (He := line_exec (BACK c) eq_refl Hl). by assert (Hp := exec_pipe (BACK c) eq_refl He).
Qed.
End line.

Lemma toks_ok c level : fine c -> Forall tok_ok (toks c level).
Proof.
  assert (Hparen : forall b ts, Forall tok_ok ts -> Forall tok_ok (paren b ts)).
  { intros [] ts Hts; [|done]. simpl. apply Forall_cons. split; [set_solver|]. apply Forall_app. rewrite Forall_singleton. simpl. set_solver. }
  assert (Hop : forall mode, tok_ok (op mode)) by (intros mode; unfold op; repeat case_match; simpl; set_solver).
  revert level. induction c as [argv|c IH file mode fd|l IHl r IHr|l IHl r IHr|c IH]; intros level Hf; simpl toks.
  - destruct Hf as [_ Hw]. apply Forall_fmap. eapply Forall_impl; [exact Hw|]. done.
  - destruct Hf as (Hf & Hw & _). apply Forall_app. split; [by apply IH|]. apply Forall_cons. split; [apply Hop|]. by rewrite Forall_singleton.
  - destruct Hf as [Hl Hr]. apply Hparen, Forall_app. split; [by apply IHl|]. apply Forall_cons. split; [simpl; set_solver|]. by apply IHr.
  - destruct Hf as [Hl Hr]. apply Hparen, Forall_app. split; [by apply IHl|]. apply Forall_cons. split; [simpl; set_solver|]. by apply IHr.
  - apply Hparen, Forall_app. split; [by apply IH|]. rewrite Forall_singleton. simpl. set_solver.
Qed.

Lemma flat_nonzero ts : Forall tok_ok ts -> Forall (fun c => c <> 0) (flat ts).
Proof.
  induction 1 as [|t ts Ht _ IH]; [constructor|]. rewrite flat_cons. apply Forall_app. split; [|by constructor]. destruct t as [c| |w]; simpl in *.
  - apply Forall_singleton. set_unfold. destruct_or!; subst; done.
  - apply (bool_decide_unpack _). by vm_compute.
  - destruct Ht as [_ Hw]. eapply Forall_impl; [exact Hw|]. by intros c [].
Qed.

Lemma resolve_ext {A B} (f g : A -> B) c : (forall w, w ∈ words c -> f w = g w) -> resolve f c = resolve g c.
Proof.
  induction c as [argv|c IH file mode fd|l IHl r IHr|l IHl r IHr|c IH]; simpl; intros Hw.
  - f_equal. apply list_fmap_ext. intros i w Hi. apply Hw. by eapply list_elem_of_lookup_2.
  - rewrite IH by set_solver. by rewrite Hw by set_solver.
  - by rewrite IHl, IHr by set_solver.
  - by rewrite IHl, IHr by set_solver.
  - by rewrite IH.
Qed.

(** C28: a command that is typed is the command that is run.  Every command that can be typed at
    all, however deeply nested, is parsed back from its text to the same command, and
    after [nulterminate] the strings of its words in the buffer are those it was written with,
    whatever the buffer holds after the line. *)
Theorem parse_print c junk :
  fine c -> exists r s, parse (print c) 0%nat = Ok (inl r) s /\
    resolve (word (nulterminate (print c ++ 0 :: junk) r)) r = c.
Proof.
  intros Hf. pose proof (toks_ok c 0 Hf) as Hok. pose proof (flat_nonzero _ Hok) as Hnz. fold (print c) in Hnz.
  cut (wp (parse (print c)) (fun r s => exists r', r = inl r' /\ resolve (sub (print c)) r' = c) 0%nat).
  { intros Hw. apply wp_run in Hw as (r & s & Hrun & r' & -> & Hr). exists r', s. split; [done|]. rewrite <- Hr at 2. apply resolve_ext.
    intros w Hin. by eapply nulterminate_sub. }
  unfold parse. eapply wp_seq.
  - apply (proj2 (proj2 (proj2 (all_read (print c) c Hf))) (S (length (print c))) [] 0%nat); [by left| |lia].
    split_and!; [lia|by rewrite app_nil_r, drop_0|by rewrite app_nil_r].
  - intros r s (Hr & Hb & _). eapply wp_seq; [by apply peek_before|]. intros b s' [_ ->]. apply wp_bind, wp_gets. unfold id.
    rewrite (before_nil _ s Hb), Nat.eqb_refl. cbn [negb]. apply wp_ret. by exists r.
Qed.

(** [( ls -l > out ; cat ) & | wc] with every construct of the shell *)
Definition sample_cmd : command (list Z) :=
  PIPE (BACK (LIST (REDIR (EXEC [s2b "ls"; s2b "-l"]) (s2b "out") 1537 1) (EXEC [s2b "cat"]))) (REDIR (EXEC [s2b "wc"]) (s2b "in") 0 0).

Lemma parse_print_witness : exists r s, parse (print sample_cmd) 0%nat = Ok (inl r) s /\
  resolve (word (nulterminate (print sample_cmd ++ 0 :: s2b "xyz") r)) r = sample_cmd.
Proof.
  apply (parse_print sample_cmd (s2b "xyz")).
  cbn [sample_cmd fine]. unfold word_fine, redir_fine, MAXARGS. split_and!; apply (bool_decide_unpack _); by vm_compute.
Defined.
