(* ===== verification/ShLine.v ===== *)
(** The line editor and the main loop of the shell: what they make of the lines that are typed.

    [Session] states what the shell relies on of the kernel as the parent of the commands it runs. *)
From Stdlib Require Import Ascii.
From S2P Require Import Prelude Machine Usys Ulib Uprintf Cmds Sh.
From Stdlib Require Import ZArith Lia.
From stdpp Require Import base strings numbers gmap list.
Local Open Scope Z_scope.
Local Open Scope m_scope.
Import Sh.

(** ** A line that is typed *)

(** A character that the editor takes as such. *)
Definition plain (c : Z) : Prop := 32 <= c < 256 /\ c <> 127.

(** The history after a line: the line is saved unless it is empty or the same as the last. *)
Definition remembered (g : shell) (t : list Z) : shell :=
  if decide (t <> [] /\ (history_count g = 0 \/ t <> history g !!! Z.to_nat ((history_count g - 1) mod 16))) then
    mkShell (<[Z.to_nat (history_count g mod 16) := t]> (history g)) (history_count g + 1) (history_count g + 1)
  else mkShell (history g) (history_count g) (history_count g).

(** The history holds strings, and is counted within the range of an [int]. *)
Definition shell_ok (g : shell) : Prop :=
  length (history g) = 16%nat /\ Forall (Forall (fun c => c <> 0)) (history g) /\ 0 <= history_count g < 2 ^ 31 - 1.

Section typed.
Context {W : Type} `{Kernel W} `{!Stream W 0} `{Rounds}.
(** What reading and printing leave alone. *)
Context {R : Type} (keep : W -> R).
Hypothesis read_keeps : forall n w, keep (sc_read 0 n w).2 = keep w.
Hypothesis write_keeps : forall bs w, keep (sc_write 1 bs w).2 = keep w.

Lemma read_char (w : W) c rest : unread (fd := 0) w = c :: rest ->
  exists w', sc_read 0 1 w = ((1, [c]), w') /\ unread (fd := 0) w' = rest /\ printed (fd := 0) w' = printed (fd := 0) w /\ keep w' = keep w.
Proof.
  intros Hu. destruct (read_law (fd := 0) w 1 ltac:(lia)) as (k & w' & Hr & Hk & Hle & Hpos & Hu' & Hp'). rewrite Hu in *.
  assert (k = 1%nat) as -> by (specialize (Hpos ltac:(done)); lia). exists w'. split_and!; [done..|]. by rewrite <- (read_keeps 1 w), Hr.
Qed.

Lemma write_both (w : W) bs : exists w', sc_write 1 bs w = (Z.of_nat (length bs), w') /\
  (unread (fd := 0) w', keep w') = (unread (fd := 0) w, keep w) /\ printed (fd := 0) w' = printed (fd := 0) w ++ bs.
Proof.
  destruct (write_law (fd := 0) w bs) as (w' & Hw & Hu & Hp). exists w'. split_and!; [done| |done]. by rewrite Hu, <- (write_keeps bs w), Hw.
Qed.
Local Abbreviation both := (fun w => (unread (fd := 0) w, keep w)).

Lemma save_line_spec buf t (w : W) (g : shell) :
  shell_ok g -> cstring buf = t -> Forall (fun c => c <> 0) t -> (length t < 100)%nat ->
  wp (save_line buf (length t)) (fun _ s' => world s' = w /\ glob s' = remembered g t) (mkUst w g).
Proof.
  intros (Hlen & Hh & Hc) Hb Ht Hl. unfold save_line, get_glob, entry. do 2 apply wp_bind, wp_gets. cbn [glob].
  assert (Hcond : (0 <? length t)%nat && ((history_count g =? 0) || negb (strcmp (cstring buf) (history g !!! Z.to_nat (Z.rem (history_count g - 1) MAX_HISTORY)) =? 0))
    = bool_decide (t <> [] /\ (history_count g = 0 \/ t <> history g !!! Z.to_nat ((history_count g - 1) mod 16)))).
  { symmetry. rewrite Hb. destruct t as [|c t']; [by rewrite bool_decide_eq_false_2 by naive_solver|]. cbn [length Nat.ltb Nat.leb andb].
    destruct (Z.eqb_spec (history_count g) 0) as [Hz|Hz]; [rewrite bool_decide_eq_true_2 by naive_solver; done|]. cbn [orb].
    rewrite Z.rem_mod_nonneg by (unfold MAX_HISTORY; lia). unfold MAX_HISTORY. set (h := history g !!! Z.to_nat ((history_count g - 1) mod 16)).
    assert (Hhz : Forall (fun c => c <> 0) h).
    { rewrite Forall_forall in Hh. apply Hh. unfold h. apply list_elem_of_lookup_total_2. pose proof (Z.mod_pos_bound (history_count g - 1) 16). lia. }
    pose proof (strcmp_zero (c :: t') h Ht Hhz) as Hcmp. destruct (Z.eqb_spec (strcmp (c :: t') h) 0) as [He|He]; cbn [negb].
    - apply bool_decide_eq_false_2. intros [_ [|Hne]]; [done|]. by apply Hne, Hcmp.
    - apply bool_decide_eq_true_2. split; [done|]. right. intros Heq. by apply He, Hcmp. }
  rewrite Hcond. unfold remembered. rewrite Z.rem_mod_nonneg by (unfold MAX_HISTORY; lia). rewrite Hb. unfold MAX_HISTORY, MAX_LINE.
  destruct (decide _) as [Hy|Hn]; [rewrite (bool_decide_eq_true_2 _ Hy)|rewrite (bool_decide_eq_false_2 _ Hn)]; unfold when.
  - rewrite (proj2 (Nat.leb_gt _ _)) by lia. apply wp_bind, wp_modify, wp_bind, wp_gets, wp_modify. simpl. rewrite swrap_small by lia. done.
  - apply wp_bind, wp_ret, wp_bind, wp_gets, wp_modify. done.
Qed.

Lemma readline_line (w : W) (g : shell) t rest :
  shell_ok g -> Forall plain t -> (length t < nbuf)%nat -> (length t <= rounds)%nat -> unread (fd := 0) w = t ++ 10 :: rest ->
  wp (readline (replicate nbuf 0) nbuf) (fun buf s' => cstring buf = t /\ length buf = nbuf /\ glob s' = remembered g t /\
    unread (fd := 0) (world s') = rest /\ printed (fd := 0) (world s') = printed (fd := 0) w ++ t ++ [10] /\ keep (world s') = keep w) (mkUst w g).
Proof.
  intros Hg Hpl Hlen Hr Hu. assert (Hnz : Forall (fun c => c <> 0) t) by (eapply Forall_impl; [exact Hpl|]; intros c [? ?]; lia).
  unfold readline. apply wp_bind. eapply wp_ok; [reflexivity|]. apply wp_bind.
  apply (wp_loop UFuel (fun x (s : ust W shell) => glob s = g /\ exists t1 t2, t = t1 ++ t2 /\ unread (fd := 0) (world s) = t2 ++ 10 :: rest /\
    printed (fd := 0) (world s) = printed (fd := 0) w ++ t1 /\ keep (world s) = keep w /\ x.2 = length t1 /\ length x.1 = nbuf /\ take (length t1) x.1 = t1)
    (fun x _ => (length t - x.2)%nat)); [split; [done|]; exists [], t; simpl; by rewrite app_nil_r|simpl; lia|].
  intros [buf n] [ws gs] (Hgs & t1 & t2 & Ht & Hu1 & Hp1 & Hk1 & Hn & Hbl & Htk). simpl in Hgs, Hu1, Hp1, Hk1, Hn, Hbl, Htk |- *. subst gs n.
  assert (Hput : forall c, (length t1 < nbuf)%nat -> put (W := W) buf (length t1) c = ret (<[length t1 := c]> buf) /\ <[length t1 := c]> buf = t1 ++ c :: drop (S (length t1)) buf).
  { intros c Hlt. unfold put. rewrite Hbl, (proj2 (Nat.ltb_lt _ _)) by done. split; [done|]. rewrite insert_take_drop by lia. by rewrite Htk. }
  destruct t2 as [|c t2].
  - rewrite app_nil_r in Ht. subst t1. destruct (read_char ws 10 rest Hu1) as (w' & Hrd & Hu' & Hp' & Hk').
    apply wp_bind. eapply wp_ok; [by apply sys_run|]. simpl hd. cbn [Z.eqb negb]. cbv beta iota zeta. change (1 =? 1) with true. change (10 =? 10) with true. cbn [negb]. cbv iota.
    destruct (Hput 0 Hlen) as [-> Hins]. rewrite Hins. apply wp_bind, wp_ret.
    eapply wp_seq; [eapply (fprintf_text 1 _ both write_both); [done|reflexivity]|]. intros [] [w2 g2] (Hg2 & Hb2 & Hp2). simpl in Hg2, Hb2, Hp2. injection Hb2 as Hu2 Hk2. subst g2.
    eapply wp_seq; [apply save_line_spec; [done|by apply cstring_app|done|unfold nbuf in Hlen; lia]|]. intros [] [w3 g3] [Hw3 Hg3]. simpl in Hw3, Hg3. subst w3.
    apply wp_ret. unfold put. rewrite length_app. cbn [length]. rewrite length_drop, Hbl.
    rewrite (proj2 (Nat.ltb_lt _ _)) by lia. apply wp_ret. simpl. rewrite insert_app_r_alt, Nat.sub_diag by lia. cbn [insert list_insert].
    split_and!; [by apply cstring_app|rewrite length_app; cbn [length]; rewrite length_drop; lia|done|by rewrite Hu2, Hu'|by rewrite Hp2, Hp', Hp1, <- app_assoc|by rewrite Hk2, Hk'].
  - rewrite Ht in Hlen, Hpl, Hr |- *. rewrite length_app in Hlen, Hr. simpl in Hlen, Hr. apply Forall_app in Hpl as [_ Hpl]. apply Forall_cons in Hpl as [[Hc Hc127] _].
    destruct (read_char ws c (t2 ++ 10 :: rest) Hu1) as (w' & Hrd & Hu' & Hp' & Hk'). apply wp_bind. eapply wp_ok; [by apply sys_run|]. simpl hd. cbv beta iota zeta. change (1 =? 1) with true. cbn [negb]. cbv iota.
    rewrite !(proj2 (Z.eqb_neq c _)) by lia. cbn [orb]. rewrite (proj2 (Nat.ltb_lt _ _)) by (unfold nbuf in *; lia).
    cbn [hd]. destruct (Hput c ltac:(lia)) as [-> Hins]. rewrite Hins. apply wp_bind, wp_ret.
    eapply wp_seq; [apply (write_text 1 _ both write_both)|]. intros z [w2 g2] (Hg2 & Hb2 & Hp2). simpl in Hg2, Hb2, Hp2. injection Hb2 as Hu2 Hk2. apply wp_ret. split; [|simpl; rewrite length_app; simpl; lia].
    split; [done|]. exists (t1 ++ [c]), t2. simpl. rewrite Hu2, Hu', Hp2, Hp', Hp1, <- !app_assoc, length_app. simpl. split_and!; [done|done|done|by rewrite Hk2, Hk'|lia| |].
    + rewrite length_app. cbn [length]. rewrite length_drop. lia.
    + replace (t1 ++ c :: drop (S (length t1)) buf) with ((t1 ++ [c]) ++ drop (S (length t1)) buf) by (by rewrite <- app_assoc).
      rewrite take_app_length'; [done|]. rewrite length_app. done.
Qed.
End typed.

(** C30: the line editor gives the line that was typed.  From the characters of a line, none of them a control character, that is shorter than the buffer, and a
    newline, [readline] echoes the line, leaves it in the buffer as a string, saves it
    in the history unless it is empty or a repetition, and reads nothing after the newline. *)
Theorem readline_typed {W : Type} `{Kernel W} `{!Stream W 0} `{Rounds} (w : W) (g : shell) t rest :
  shell_ok g -> Forall plain t -> (length t < nbuf)%nat -> (length t <= rounds)%nat -> unread (fd := 0) w = t ++ 10 :: rest ->
  wp (readline (replicate nbuf 0) nbuf) (fun buf s' => cstring buf = t /\ length buf = nbuf /\ glob s' = remembered g t /\
    unread (fd := 0) (world s') = rest /\ printed (fd := 0) (world s') = printed (fd := 0) w ++ t ++ [10]) (mkUst w g).
Proof.
  intros Hg Hpl Hlen Hr Hu. eapply wp_mono; [by apply (readline_line (fun _ => tt) (fun _ _ => eq_refl) (fun _ _ => eq_refl) w g t rest)|]. naive_solver.
Qed.

(** A line typed after another. *)
Definition typed_lines : Chunks.world := Chunks.mkWorld {[ 0 := [s2b "ls -l" ++ [10] ++ s2b "wc" ++ [10]] ]} [].

Lemma readline_typed_witness :
  wp (@readline Chunks.world Chunks.kernel (20%nat : Rounds) (replicate nbuf 0) nbuf) (fun buf s' => cstring buf = s2b "ls -l" /\
    history (glob s') !!! 0%nat = s2b "ls -l" /\ Chunks.unread_at 0 (world s') = s2b "wc" ++ [10]) (mkUst typed_lines shell0).
Proof.
  eapply wp_mono; [apply (@readline_typed Chunks.world Chunks.kernel (Chunks.stream 0) (20%nat : Rounds) typed_lines shell0 (s2b "ls -l") (s2b "wc" ++ [10]))|].
  - split_and!; [done| |done..]. apply (bool_decide_unpack _). by vm_compute.
  - unfold plain. apply (bool_decide_unpack _). by vm_compute.
  - by apply Nat.ltb_lt; vm_compute.
  - by apply Nat.leb_le; vm_compute.
  - by vm_compute.
  - intros buf s' (Hb & _ & Hg & Hu & _). rewrite Hg. split_and!; [exact Hb|by vm_compute|exact Hu].
Defined.

(** ** A session *)

Inductive call : Type := Chdir (dir : list Z) | Fork.








Section session.
Context {W : Type} `{Session W} `{Rounds}.
Local Abbreviation input := (unread (W := W) (fd := 0)).














End session.

(** *** A script that is typed *)

Module Script.
Record world : Type := mkWorld { typed : list Z; echoed : list Z; complaints : list Z; done_ : list call }.

Definition fails (w : world) : Z * world := (-1, w).
Definition read (fd n : Z) (w : world) : (Z * list Z) * world :=
  match typed w with [] => ((0, []), w) | c :: r => if 0 <? n then ((1, [c]), mkWorld r (echoed w) (complaints w) (done_ w)) else ((0, []), w) end.
Definition write (fd : Z) (bs : list Z) (w : world) : Z * world :=
  (Z.of_nat (length bs), if fd =? 1 then mkWorld (typed w) (echoed w ++ bs) (complaints w) (done_ w) else mkWorld (typed w) (echoed w) (complaints w ++ bs) (done_ w)).
Definition log (c : call) (w : world) : world := mkWorld (typed w) (echoed w) (complaints w) (done_ w ++ [c]).

#[export] Instance kernel : Kernel world := {|
  sc_fork := fun w => (5, log Fork w); sc_wait := fun w => ((5, 0), w); sc_pipe := fun w => ((-1, 0, 0), w);
  sc_read := read; sc_write := write; sc_close := fun _ w => (0, w); sc_kill := fun _ => fails;
  sc_exec := fun _ _ w => Some (fails w); sc_open := fun _ _ w => (3, w); sc_mknod := fun _ _ _ => fails;
  sc_unlink := fun _ => fails; sc_fstat := fun _ w => ((0, mkUstat 1 1 T_DEVICE 1 0), w); sc_link := fun _ _ => fails;
  sc_mkdir := fun _ => fails; sc_chdir := fun d w => (0, log (Chdir d) w); sc_dup := fun _ => fails; sc_getpid := fails;
  sc_sbrk := fun _ => fails; sc_sleep := fun _ => fails; sc_uptime := fails; sc_ttyraw := fun _ w => (0, w) |}.

#[export] Instance stream : Stream world 0.
Proof.
  refine {| unread := typed; printed := echoed |}.
  - intros w n Hn. cbn. unfold read. destruct (typed w) as [|c r] eqn:E; [exists 0%nat, w; rewrite ?E; split_and!; (done || lia)|]. rewrite (proj2 (Z.ltb_lt _ _)) by done.
    exists 1%nat. eexists. split_and!; [reflexivity|simpl; lia|lia|lia|reflexivity|reflexivity].
  - intros w bs. eexists. by split_and!.
Defined.

End Script.




